(* ===== verification/_CoqProject ===== *)
-Q . S2P
Prelude.v
Std.v
Mem.v
Bmp.v
Dq.v
Priorityq.v
DeltaChain.v
Conc.v
Spinlock.v
Rwlock.v
Mcslock.v
Buddy.v
Pma.v
Tlsf.v
TlsfBlocks.v
TlsfLists.v
TlsfCore.v
TlsfAlloc.v
TlsfMore.v
TlsfLive.v
TlsfAligned.v
TlsfClient.v
TlsfSpec.v
Vma.v
Paging.v
PagingInv.v
PagingCalls.v
PagingSpec.v
SchedDsa.v
Sched.v
Twan.v
VschedDsa.v
Vpartition.v
Vutils.v
Vrecovery.v
Vsched.v
Vemu.v
Vteardown.v
Vcreate.v
Vcalls.v
Vlib.v
Vtimers.v
Vcreation.v
Vframe.v
Vroutes.v
Venter.v
Visr.v
Vswitch.v
Vinfo.v
Vexit.v
Vexpiry.v
Vconfine.v
Vmcs.v
Vboot.v
Vdetect.v
Vmain.v
Vexample.v
Vportal.v
