(* ===== verification/Prelude.v ===== *)
(** * Twan: a verification library for the Twan separation kernel

    Twan (src/) is a real-time kernel for x86-64 with a hypervisor, Twanvisor,
    that runs partitions of virtual CPUs next to the kernel, which is itself
    the root partition.  This library models the program file by file as
    executable definitions and proves what makes each part correct.

    ** How the program is represented

    - A word of w bits is an integer in [0, 2^w); what can leave the range is
      reduced where the code does so ([u8], [u32], [u64] below).
    - A routine that can dereference NULL, leave an array or fail an assertion
      returns [res]: [Ok] or the [fault] (this file).
    - Code that changes state is a computation of the state monad [M] (this
      file) over the state of its component: [kern] for the kernel
      (SchedDsa), [hv] for the hypervisor (Twan).
    - Intrusive lists are kept as the program keeps them: a heap of nodes with
      their [next] and [prev] pointers ([lnode], Dq).
    - Atomic code is a [prog] of single accesses to shared registers, and
      processors interleave arbitrarily (Conc).
    - What is not code of src/ is a parameter with its assumptions as
      hypotheses: the answers of the processor (cpuid, MSRs, the local APIC),
      what other code does while a caller is away, the memory of the root.

    ** The files

    - Std: std.h (bit scans, alignment, BCD, memory).  Bmp: bmp256.h, bmp512.h.
      Dq: dq.h.  Priorityq: priorityq.h.  DeltaChain: delta_chain.h.  Each is
      proved against sets or lists.
    - Conc: programs of atomic accesses and the interface of a lock.  Spinlock,
      Rwlock, Mcslock: src/subsys/sync/, each an instance of that interface:
      mutual exclusion, order and progress for any number of processors.
    - Buddy: buddy_alloc.h, buddy_alloc.c (pages of 2 MB, orders 0 to 14), proved
      against a set of free blocks.
      Pma: physical pages (pma.c, pma_buddy.c), several arenas with their locks.
    - Tlsf: the run-time allocator (tlsf_alloc.c), whose headers lie in the byte
      memory that it hands out (Mem: its words).  TlsfBlocks, TlsfLists: size
      words and free lists; TlsfCore: well-formed heaps and merging; TlsfAlloc,
      TlsfMore, TlsfAligned: the routines; TlsfLive, TlsfClient: a finite map of
      what is handed out, and clients that call and write in any order;
      TlsfSpec: what is promised.
    - Vma: the descriptors of the address space and the parser that links their
      tables (vma.h, vma_parser.c).  Paging: temporary mappings and flushes
      (paging.c, tlb.c), with what each processor has cached as state;
      PagingInv, PagingCalls: their invariant and routines; PagingSpec: what is
      promised, from the parser to the walk of a processor.
    - SchedDsa, Sched: the scheduler of the kernel (src/kernel/sched/): its
      mixed-criticality run queues, proved against a list per priority, then
      preemption, yields and criticality levels.
    - Twan: the state of the hypervisor.  VschedDsa, Vsched: its run queues and
      scheduling (twanvisor/vsched/).  Vpartition: ids, the table of partitions
      and pending interrupts.  Vutils: the state of a guest, port and MSR
      bitmaps (vemulate_utils.h).  Vemu: the services behind the hypercalls
      (vemulate_utils.c).  Vrecovery, Vteardown: the end of a partition
      (vrecovery.c).  Vcreate, Vcreation: its creation (vcreate.c).  Vframe: what
      leaves the table and the routes alone.  Vroutes: the rights of partitions
      through any sequence of creations, grants and teardowns.
    - Vcalls, Vlib, Vtimers: the hypercalls, the stubs that guests call, and
      virtual timers (vcalls.c, libvcalls.h).  Venter: what is carried out and
      injected at a VM entry (venter.c).  Visr: interrupts and exceptions of the
      hypervisor (visr/); Vswitch: the interrupts that a processor sends to
      itself, by which a vcpu gives it away.  Vinfo: its cpuid leaves.  Vexit:
      the VM exits (vexit.c); Vexpiry and Vconfine hold what is proved of them.
    - Vmcs: encodings of the fields and bits of the VMCS (x86_index.h).  Vboot:
      the traps (vtrap.c) and the first entry of a vcpu (vcpu_entry in
      vcreate.c).  Vdetect: what is detected of a processor.  Vmain: the start
      of the hypervisor (both vmain.c).
    - Vexample, Vportal: a concrete machine of two processors and three
      partitions, to which the theorems on the hypervisor are applied.

    ** How the parts interact

    The hypervisor's files call each other as the code does: an exit (Vexit)
    dispatches to a hypercall (Vcalls), which uses the services (Vemu) on the
    table (Vpartition) and the run queues (VschedDsa); on its way back it
    enters the guest (Venter).  The start (Vmain) detects each processor
    (Vdetect), programs the root's vcpus and leaves the state as the theorems
    on the running hypervisor assume it; a vcpu that creation accepts (Vcreate)
    is programmed when it first runs (Vboot).  An interrupt (Visr) marks what is
    pending for the vcpus that wait for it; one that the processor sends to
    itself (Vsched) runs the function that was stored for it, which leaves the
    frame to resume.  A lock of the hypervisor is held by the
    running processor or by nobody; that this is what the locks provide is
    proved in Spinlock, Rwlock and Mcslock, whose locks also keep the calls of the
    allocators apart.

    ** What is proved

    - Locks: exclusion and order; progress (of the reader-writer lock, its raw
      routines).
    - Data structures: refinement of sets and lists, order of expiry.
    - Allocators: memory is handed out once, keeps its contents and comes back
      joined, under the conditions on a heap that TlsfSpec names; two cases in
      which the TLSF allocator does otherwise are examples there.
    - Address space: the parser links every table where its descriptor says, and
      a temporary mapping gives every processor the memory that was asked for,
      whatever the processors have cached.
    - Start: the state that the rest assumes; detection, checks and control words
      agree.
    - Schedulers: the choice is the oldest task of the highest priority that may
      run; a vcpu that pauses is saved and the chosen one goes on.
    - Isolation: calls between partitions need a route; a new partition starts
      with the root as its only sender; a torn down one leaves no route behind
      (but for the loop that is wrong), so that in every state that is reached
      the maps of routes are what the calls of the root and their answers say,
      read one after the other; MSRs and control registers are filtered.
    - Interrupts: nothing pending is lost, levels nest, an arriving interrupt
      wakes all who wait and nobody else.
    - Interface: each of the 29 calls of the library runs the operation of its
      name with the arguments it was given.

    ** Fuel

    A loop over linked nodes takes the number of nodes in the heap as its fuel
    (no node is visited twice); loops over bits or table entries take their
    number.  [FFuel] is the fault of an execution that would not end, and the
    theorems that an operation returns [Ok] exclude it.

    ** Not modelled

    Boot code and the start of processors; assembly; device drivers and the
    APIC; wait queues with semaphores and mutexes; the flags of a vcpu that is
    not running (the interrupt flag of a processor is that of the call that goes
    on); vendored code (nanoprintf, ELF and multiboot headers).  That the handler
    of a broadcast has run when the call that waits for it returns is assumed of
    the flushes.  The manifest lists each with its reason. *)

From Stdlib Require Import ZArith Lia Bool.
From stdpp Require Import base gmap list numbers option.

(** ** Faulting computations

    C code that dereferences NULL, indexes an array out of range or fails a
    dynamic assertion does not return.  Such executions are values of type
    [res]: either [Ok] with the result or [Fault] with the reason. *)

Inductive fault : Type :=
  | FNull       (* dereference of a NULL pointer *)
  | FDangling   (* dereference of a pointer to no live object *)
  | FBounds     (* array index out of range *)
  | FAssert     (* KDYNAMIC_ASSERT / VDYNAMIC_ASSERT failed *)
  | FDeadlock   (* acquiring a lock that is already held by this cpu *)
  | FUnlock     (* releasing a lock that is not held *)
  | FHalt       (* the processor halts for good *)
  | FDivide     (* division by zero *)
  | FFuel.      (* the fuel of a loop ran out *)

#[export] Instance fault_eq_dec : EqDecision fault.
Proof. solve_decision. Defined.

Inductive res (A : Type) : Type :=
  | Ok (a : A)
  | Fault (f : fault).
Arguments Ok {A} a.
Arguments Fault {A} f.

Definition rbind {A B} (r : res A) (k : A → res B) : res B :=
  match r with
  | Ok a => k a
  | Fault f => Fault f
  end.

Declare Scope twan_scope.
Delimit Scope twan_scope with twan.

Notation "'let*' x := r 'in' k" := (rbind r (fun x => k))
  (at level 10, x binder, r at level 100, k at level 200) : twan_scope.

Open Scope twan_scope.

(** Lemmas that close the routine side conditions of the development. *)
Create HintDb twan discriminated.

(** [holds r Q]: the computation returns (does not fault) and its result
    satisfies [Q]: the total-correctness weakest precondition of [r]. *)
Definition holds {A} (r : res A) (Q : A → Prop) : Prop :=
  match r with
  | Ok a => Q a
  | Fault _ => False
  end.

Lemma holds_bind {A B} (r : res A) (k : A → res B) (Q : B → Prop) :
  holds r (fun a => holds (k a) Q) → holds (rbind r k) Q.
Proof. destruct r; simpl; done. Qed.

Lemma holds_mono {A} (r : res A) (P Q : A → Prop) :
  holds r P → (∀ a, P a → Q a) → holds r Q.
Proof. destruct r; simpl; auto. Qed.

Lemma holds_ok {A} (r : res A) (Q : A → Prop) :
  holds r Q ↔ ∃ a, r = Ok a ∧ Q a.
Proof. destruct r; simpl; split; intros; naive_solver. Qed.

(** ** Stateful computations *)

Definition M (S A : Type) : Type := S → res (A * S).

Definition ret {S A} (a : A) : M S A := fun s => Ok (a, s).
Definition bind {S A B} (m : M S A) (k : A → M S B) : M S B :=
  fun s => match m s with
           | Ok (a, s') => k a s'
           | Fault f => Fault f
           end.
Definition mfault {S A} (f : fault) : M S A := fun _ => Fault f.
Definition mget {S} : M S S := fun s => Ok (s, s).
Definition mput {S} (s : S) : M S unit := fun _ => Ok (tt, s).
Definition mgets {S A} (f : S → A) : M S A := fun s => Ok (f s, s).
Definition mmodify {S} (f : S → S) : M S unit := fun s => Ok (tt, f s).
(** KDYNAMIC_ASSERT and VDYNAMIC_ASSERT.  A failed assertion flags a bug: the
    code logs it and, with the PANIC_ON_BUG options, halts; here the execution
    ends in a fault, so a theorem that an operation returns includes that no
    assertion fails. *)
Definition massert {S} (b : bool) : M S unit :=
  fun s => if b then Ok (tt, s) else Fault FAssert.

Notation "x <~ m ;; k" := (bind m (fun x => k))
  (at level 100, m at next level, right associativity) : twan_scope.
Notation "m ;;; k" := (bind m (fun _ => k))
  (at level 100, right associativity) : twan_scope.

Fixpoint mfor {S} (l : list Z) (body : Z → M S unit) : M S unit :=
  match l with
  | [] => ret tt
  | i :: l' => body i ;;; mfor l' body
  end.

(** [wp m Q s]: started in [s], [m] returns and its result and final state
    satisfy [Q]. *)
Definition wp {S A} (m : M S A) (Q : A → S → Prop) (s : S) : Prop :=
  match m s with
  | Ok (a, s') => Q a s'
  | Fault _ => False
  end.

Lemma wp_ret {S A} (a : A) (Q : A → S → Prop) s : Q a s → wp (ret a) Q s.
Proof. done. Qed.

Lemma wp_bind {S A B} (m : M S A) (k : A → M S B) Q s :
  wp m (fun a => wp (k a) Q) s → wp (bind m k) Q s.
Proof. unfold wp, bind. destruct (m s) as [[a s']|f]; done. Qed.

Lemma wp_mono {S A} (m : M S A) (P Q : A → S → Prop) s :
  wp m P s → (∀ a s', P a s' → Q a s') → wp m Q s.
Proof. unfold wp. destruct (m s) as [[a s']|f]; auto. Qed.

Lemma wp_run {S A} (m : M S A) (Q : A → S → Prop) s :
  wp m Q s ↔ ∃ a s', m s = Ok (a, s') ∧ Q a s'.
Proof.
  unfold wp. destruct (m s) as [[a s']|f]; split; intros H; naive_solver.
Qed.

Lemma bind_ok {S A B} (m : M S A) (k : A → M S B) s a s' :
  m s = Ok (a, s') → bind m k s = k a s'.
Proof. unfold bind. by intros ->. Qed.

(** A run of a computation with a weakest precondition. *)
Lemma wp_at {S A} (m : M S A) (Q : A → S → Prop) s a s' : wp m Q s → m s = Ok (a, s') → Q a s'.
Proof. unfold wp. intros H E. by rewrite E in H. Qed.
Lemma wp_seq_ret {S} (m : M S unit) (Q : unit → S → Prop) s : wp (bind m (fun _ => ret tt)) Q s → wp m Q s.
Proof. unfold wp, bind, ret. by destruct (m s) as [[[] s']|]. Qed.

(** Runs the first computation of a sequence by an equation for it. *)
Ltac mstep H := rewrite (bind_ok _ _ _ _ _ H); cbv beta.

(** Invariants over a loop. *)
Lemma wp_mfor {S} (l : list Z) (body : Z → M S unit) (I : S → Prop) s :
  I s → (∀ i s', i ∈ l → I s' → wp (body i) (fun _ => I) s') →
  wp (mfor l body) (fun _ => I) s.
Proof.
  revert s. induction l as [|i l IH]; intros s Hs Hb; simpl.
  - by apply wp_ret.
  - apply wp_bind. eapply wp_mono; [apply Hb; [left|done]|].
    intros [] s' Hs'. apply IH; [done|]. intros j s'' Hj. apply Hb. by right.
Qed.

(** ** Machine integers

    A w-bit unsigned value is an integer in [0, 2^w); every operation that
    can leave the range reduces it explicitly. *)
Definition wrap (w x : Z) : Z := (x mod 2 ^ w)%Z.
Definition u8 (x : Z) : Z := wrap 8 x.
Definition u16 (x : Z) : Z := wrap 16 x.
Definition u32 (x : Z) : Z := wrap 32 x.
Definition u64 (x : Z) : Z := wrap 64 x.
(** two's complement 32- and 64-bit signed values ([int] and [long]) *)
Definition s32 (x : Z) : Z := ((x + 2 ^ 31) mod 2 ^ 32 - 2 ^ 31)%Z.
Definition s64 (x : Z) : Z := ((x + 2 ^ 63) mod 2 ^ 64 - 2 ^ 63)%Z.
(** bitwise complement of a w-bit value *)
Definition cnot (w x : Z) : Z := wrap w (Z.lnot x).
Definition b2z (b : bool) : Z := if b then 1%Z else 0%Z.

Section Words.
Local Open Scope Z_scope.

Lemma wrap_range w x : 0 <= w → 0 <= wrap w x < 2 ^ w.
Proof. intros. apply Z.mod_pos_bound. by apply Z.pow_pos_nonneg. Qed.

Lemma wrap_small w x : 0 <= x < 2 ^ w → wrap w x = x.
Proof. apply Z.mod_small. Qed.

(** Two numbers closer than the modulus with the same remainder are equal. *)
Lemma wrap_near w a b : 0 <= b - a < 2 ^ w → wrap w a = wrap w b → a = b.
Proof.
  unfold wrap. intros Hd E.
  assert ((b - a) mod 2 ^ w = 0) as Hm.
  { rewrite Zminus_mod, E, Z.sub_diag. apply Z.mod_0_l. lia. }
  rewrite Z.mod_small in Hm by done. lia.
Qed.

Lemma wrap_add w a b : wrap w (wrap w a + b) = wrap w (a + b).
Proof. unfold wrap. by rewrite Zplus_mod_idemp_l. Qed.

Lemma wrap_bit w x i :
  0 <= w → Z.testbit (wrap w x) i = (i <? w) && Z.testbit x i.
Proof.
  intros Hw. unfold wrap. destruct (Z.ltb_spec i w).
  - destruct (Z.ltb_spec i 0).
    + rewrite !Z.testbit_neg_r by lia. done.
    + by rewrite Z.mod_pow2_bits_low by lia.
  - by rewrite Z.mod_pow2_bits_high by lia.
Qed.

Lemma word_high_bit w x i : 0 <= x < 2 ^ w → w <= i → Z.testbit x i = false.
Proof.
  intros [H1 H2] Hi. destruct (decide (x = 0)) as [->|]; [apply Z.bits_0|].
  apply Z.bits_above_log2; [done|].
  assert (Z.log2 x < w); [|lia]. apply Z.log2_lt_pow2; lia.
Qed.

Lemma word_ext w x y :
  0 <= x < 2 ^ w → 0 <= y < 2 ^ w →
  (∀ i, 0 <= i < w → Z.testbit x i = Z.testbit y i) → x = y.
Proof.
  intros Hx Hy H. apply Z.bits_inj'. intros i Hi.
  destruct (Z.ltb_spec i w).
  - apply H; lia.
  - rewrite (word_high_bit w x), (word_high_bit w y); auto.
Qed.

Lemma bits_word w x :
  0 <= w → 0 <= x → (∀ i, w <= i → Z.testbit x i = false) → x < 2 ^ w.
Proof.
  intros Hw Hx H.
  assert (x = x mod 2 ^ w) as ->; [|apply Z.mod_pos_bound; lia].
  apply Z.bits_inj'. intros i Hi. destruct (Z.ltb_spec i w).
  - by rewrite Z.mod_pow2_bits_low by lia.
  - rewrite Z.mod_pow2_bits_high by lia. by apply H.
Qed.

Lemma lor_word w x y :
  0 <= w → 0 <= x < 2 ^ w → 0 <= y < 2 ^ w → 0 <= Z.lor x y < 2 ^ w.
Proof.
  intros Hw Hx Hy. assert (0 <= Z.lor x y) by (apply Z.lor_nonneg; lia).
  split; [done|]. apply bits_word; [done|done|]. intros i Hi.
  by rewrite Z.lor_spec, (word_high_bit w x), (word_high_bit w y).
Qed.

Lemma land_word w x y :
  0 <= w → 0 <= x < 2 ^ w → 0 <= Z.land x y < 2 ^ w.
Proof.
  intros Hw Hx. assert (0 <= Z.land x y) by (apply Z.land_nonneg; lia).
  split; [done|]. apply bits_word; [done|done|]. intros i Hi.
  by rewrite Z.land_spec, (word_high_bit w x).
Qed.

Lemma pow2_word w i : 0 <= i < w → 0 <= 2 ^ i < 2 ^ w.
Proof.
  intros. split; [apply Z.pow_nonneg; lia|]. apply Z.pow_lt_mono_r; lia.
Qed.

Lemma cnot_bit w x i :
  0 <= i < w → Z.testbit (cnot w x) i = negb (Z.testbit x i).
Proof.
  intros Hi. unfold cnot. rewrite wrap_bit, Z.lnot_spec by lia.
  destruct (Z.ltb_spec i w); [done|lia].
Qed.

Lemma cnot_range w x : 0 <= w → 0 <= cnot w x < 2 ^ w.
Proof. apply wrap_range. Qed.

Lemma testbit_pow2 i j : 0 <= i → Z.testbit (2 ^ i) j = bool_decide (i = j).
Proof.
  intros Hi. destruct (bool_decide_reflect (i = j)) as [->|Hn].
  - by apply Z.pow2_bits_true.
  - by apply Z.pow2_bits_false.
Qed.

Lemma shiftl_1 i : 0 <= i → Z.shiftl 1 i = 2 ^ i.
Proof. intros. rewrite Z.shiftl_mul_pow2 by done. lia. Qed.

Lemma land_ones_top w k v :
  0 <= k <= w → 0 <= v < 2 ^ w →
  Z.land v (Z.shiftl (Z.ones k) (w - k)) = Z.shiftl (v / 2 ^ (w - k)) (w - k).
Proof.
  intros Hk Hv. apply Z.bits_inj'. intros i Hi.
  rewrite Z.land_spec, !Z.shiftl_spec by lia.
  destruct (Z.ltb_spec i (w - k)).
  - rewrite !(Z.testbit_neg_r _ (i - (w - k))) by lia. by rewrite andb_false_r.
  - rewrite Z.div_pow2_bits by lia.
    replace (i - (w - k) + (w - k)) with i by lia.
    destruct (Z.ltb_spec i w).
    + rewrite Z.ones_spec_low by lia. by rewrite andb_true_r.
    + by rewrite (word_high_bit w v).
Qed.

Lemma land_top_zero w k v :
  0 <= k <= w → 0 <= v < 2 ^ w →
  (Z.land v (Z.shiftl (Z.ones k) (w - k)) =? 0) = (v <? 2 ^ (w - k)).
Proof.
  intros Hk Hv. rewrite land_ones_top, Z.shiftl_mul_pow2 by lia.
  assert (0 < 2 ^ (w - k)) by (apply Z.pow_pos_nonneg; lia).
  destruct (Z.ltb_spec v (2 ^ (w - k))).
  - rewrite Z.div_small by lia. done.
  - apply Z.eqb_neq.
    assert (1 <= v / 2 ^ (w - k)) by (apply Z.div_le_lower_bound; lia). nia.
Qed.

Lemma lor_add k a b : 0 <= k → 0 <= a < 2 ^ k → Z.lor a (Z.shiftl b k) = a + b * 2 ^ k.
Proof.
  intros Hk Ha. rewrite <- Z.shiftl_mul_pow2 by done. symmetry. apply Z.add_nocarry_lor.
  apply Z.bits_inj'. intros i Hi. rewrite Z.land_spec, Z.bits_0. destruct (Z.ltb_spec i k).
  - by rewrite Z.shiftl_spec_low, andb_false_r.
  - by rewrite (word_high_bit k a).
Qed.
Lemma land_field x k : 0 <= k → Z.land x (2 ^ k - 1) = x mod 2 ^ k.
Proof. intros Hk. rewrite <- Z.land_ones by done. f_equal. rewrite Z.ones_equiv. lia. Qed.

Lemma land_low_zero k v :
  0 <= k → (Z.land v (Z.ones k) =? 0) = (v mod 2 ^ k =? 0).
Proof. intros. by rewrite Z.land_ones by lia. Qed.

End Words.

(** ** Tactics *)

(** Linear arithmetic with quotients and remainders by constants. *)
Ltac dlia := Z.div_mod_to_equations; lia.

(** Case analysis on the innermost condition or match of the goal. *)
Ltac case_goal :=
  match goal with
  | |- context [if ?b then _ else _] => destruct b eqn:?
  | |- context [match ?x with _ => _ end] => destruct x eqn:?
  end.

(** Turn boolean comparisons in the context into propositions. *)
Ltac to_prop :=
  repeat match goal with
  | H : (_ =? _)%Z = true |- _ => apply Z.eqb_eq in H
  | H : (_ =? _)%Z = false |- _ => apply Z.eqb_neq in H
  | H : (_ <? _)%Z = true |- _ => apply Z.ltb_lt in H
  | H : (_ <? _)%Z = false |- _ => apply Z.ltb_ge in H
  | H : (_ <=? _)%Z = true |- _ => apply Z.leb_le in H
  | H : (_ <=? _)%Z = false |- _ => apply Z.leb_gt in H
  | H : (_ && _)%bool = true |- _ => apply andb_true_iff in H; destruct H
  | H : (_ || _)%bool = false |- _ => apply orb_false_iff in H; destruct H
  | H : negb _ = true |- _ => apply negb_true_iff in H
  | H : negb _ = false |- _ => apply negb_false_iff in H
  | H : bool_decide _ = true |- _ => apply bool_decide_eq_true in H
  | H : bool_decide _ = false |- _ => apply bool_decide_eq_false in H
  end.
