(* ===== verification/Std.v ===== *)
(** * Std: the helpers of include/std.h and include/compiler.h

    Bit scans ([fls32], [ffs64], ...), [log2], alignment macros, byte-wise
    [memset]/[memcpy]/[strncmp] over a byte memory, BCD conversion and the
    interrupt-flag helpers.  Every 32- or 64-bit operand is an integer of Z
    reduced modulo its width where the C operation can overflow. *)

From S2P Require Import Prelude.
From Stdlib Require Import ZArith Lia Bool.
From stdpp Require Import base gmap list numbers.

Local Open Scope Z_scope.

(** ** errno.h *)

Definition EPERM : Z := 1.
Definition EFAULT : Z := 14.
Definition EINVAL : Z := 22.
Definition ENOSPC : Z := 28.
Definition EALREADY : Z := 66.
Definition ENOMEM : Z := 12.
Definition EOPNOTSUPP : Z := 48.

(** ** Pages: arch.h and std.h *)

Definition PAGE_SHIFT_2MB : Z := 21.
Definition PAGE_SHIFT : Z := PAGE_SHIFT_2MB.
Definition PAGE_SIZE : Z := 2 ^ 21.

(** ** Macros of compiler.h *)

Definition num_needed (val size : Z) : Z := (val + size - 1) / size.
Definition is_pow2 (x : Z) : bool := Z.land x (x - 1) =? 0.
Definition p2align_up (x y : Z) : Z :=
  Z.land (u64 (x + y - 1)) (cnot 64 (y - 1)).
Definition p2align_down (x y : Z) : Z := Z.land x (cnot 64 (y - 1)).

(** ** Bit scans *)

(** One step of a scan: when the top [k] bits of the [w]-bit [val] are clear,
    shift them out and lower the running bit position. *)
Definition fls_step (w k : Z) (s : Z * Z) : Z * Z :=
  let '(val, bit) := s in
  if Z.land val (Z.shiftl (Z.ones k) (w - k)) =? 0
  then (wrap w (Z.shiftl val k), bit - k) else (val, bit).

Definition ffs_step (k : Z) (s : Z * Z) : Z * Z :=
  let '(val, bit) := s in
  if Z.land val (Z.ones k) =? 0 then (Z.shiftr val k, bit + k) else (val, bit).

Definition fls32 (val : Z) : Z :=
  if val =? 0 then -1 else
  let '(val, bit) :=
    fls_step 32 2 (fls_step 32 4 (fls_step 32 8 (fls_step 32 16 (val, 31)))) in
  if Z.land val 0x80000000 =? 0 then bit - 1 else bit.

Definition fls64 (val : Z) : Z :=
  if val =? 0 then -1 else
  let '(val, bit) :=
    fls_step 64 2 (fls_step 64 4 (fls_step 64 8
      (fls_step 64 16 (fls_step 64 32 (val, 63))))) in
  if Z.land val 0x8000000000000000 =? 0 then bit - 1 else bit.

Definition ffs32 (val : Z) : Z :=
  if val =? 0 then -1 else
  let '(val, bit) :=
    ffs_step 2 (ffs_step 4 (ffs_step 8 (ffs_step 16 (val, 0)))) in
  if Z.land val 1 =? 0 then bit + 1 else bit.

Definition ffs64 (val : Z) : Z :=
  if val =? 0 then -1 else
  let '(val, bit) :=
    ffs_step 2 (ffs_step 4 (ffs_step 8 (ffs_step 16 (ffs_step 32 (val, 0))))) in
  if Z.land val 1 =? 0 then bit + 1 else bit.

(** [log2] rounds up: the order of the smallest power of two that holds
    [size].  The loop runs at most 64 times on a 64-bit value. *)
Fixpoint log2_loop (fuel : nat) (temp order : Z) : res Z :=
  match fuel with
  | O => Fault FFuel
  | S fuel =>
      if temp =? 0 then Ok order
      else log2_loop fuel (Z.shiftr temp 1) (u64 (order + 1))
  end.

Definition log2 (size : Z) : res Z :=
  if size =? 0 then Ok 0 else
  let* order := log2_loop 65 (Z.shiftr size 1) 0 in
  Ok (if is_pow2 size then order else u64 (order + 1)).

Definition is_canonical (va : Z) : bool :=
  let bit := negb (Z.land (Z.shiftr va 47) 1 =? 0) in
  if bit then Z.shiftr va 48 =? 0xffff else Z.shiftr va 48 =? 0.

Definition vector_to_intl (vector : Z) : Z := vector / 16.

Definition bcd_to_decimal (bcd : Z) : Z :=
  u8 (Z.shiftr bcd 4 * 10 + Z.land bcd 0xf).
Definition decimal_to_bcd (dec : Z) : Z :=
  u8 (Z.lor (Z.shiftl (dec / 10) 4) (dec mod 10)).

(** RFLAGS.IF is bit 9. *)
Definition flags_set_interrupts_enabled (flags : Z) : Z := Z.lor flags (2 ^ 9).
Definition flags_set_interrupts_disabled (flags : Z) : Z :=
  Z.land flags (cnot 64 (2 ^ 9)).
Definition flags_is_interrupts_enabled (flags : Z) : bool := Z.testbit flags 9.

(** The task priority field of CR8 is its low four bits. *)
Definition read_intl (cr8 : Z) : Z := Z.land cr8 0xf.
Definition write_intl (intl cr8 : Z) : Z :=
  Z.lor (Z.land cr8 (cnot 64 0xf)) (Z.land intl 0xf).
Definition inc_intl (cr8 : Z) : bool * Z :=
  let intl := read_intl cr8 in
  if intl =? 15 then (false, cr8) else (true, write_intl (intl + 1) cr8).
Definition dec_intl (cr8 : Z) : bool * Z :=
  let intl := read_intl cr8 in
  if intl =? 0 then (false, cr8) else (true, write_intl (intl - 1) cr8).

(** ** Byte memory *)

Abbreviation mem := (gmap Z Z).

Definition mem_load (m : mem) (p : Z) : res Z :=
  match m !! p with Some v => Ok v | None => Fault FDangling end.
Definition mem_store (m : mem) (p v : Z) : res mem :=
  match m !! p with
  | Some _ => Ok (<[p := u8 v]> m)
  | None => Fault FDangling
  end.

(** [for (i = 0; i < n; i++) str[i] = c], with [k] iterations left. *)
Fixpoint memset_loop (k : nat) (str i c : Z) (m : mem) : res mem :=
  match k with
  | O => Ok m
  | S k => let* m := mem_store m (str + i) c in memset_loop k str (i + 1) c m
  end.
Definition memset (str c n : Z) (m : mem) : res mem :=
  memset_loop (Z.to_nat n) str 0 c m.

Fixpoint memcpy_loop (k : nat) (dest src i : Z) (m : mem) : res mem :=
  match k with
  | O => Ok m
  | S k =>
      let* v := mem_load m (src + i) in
      let* m := mem_store m (dest + i) v in
      memcpy_loop k dest src (i + 1) m
  end.
Definition memcpy (dest src n : Z) (m : mem) : res mem :=
  memcpy_loop (Z.to_nat n) dest src 0 m.

(** [strncmp] compares at most [n] bytes and stops at a NUL of [s1]; the
    result is the difference of the first pair of distinct bytes. *)
Fixpoint strncmp_loop (n : nat) (s1 s2 : Z) (m : mem) : res Z :=
  match n with
  | O => Ok 0
  | S n =>
      let* c1 := mem_load m s1 in
      let* c2 := mem_load m s2 in
      if negb (c1 =? c2) then Ok (c1 - c2)
      else if c1 =? 0 then Ok 0
      else strncmp_loop n (s1 + 1) (s2 + 1) m
  end.
Definition strncmp (s1 s2 n : Z) (m : mem) : res Z :=
  strncmp_loop (Z.to_nat n) s1 s2 m.

(** ** Bit scans are correct *)

Lemma fls_step_spec w k val bit :
  0 < k <= w → 0 < val < 2 ^ w →
  let '(val', bit') := fls_step w k (val, bit) in
  0 < val' < 2 ^ w ∧ Z.log2 val' + bit' = Z.log2 val + bit ∧
  (2 ^ (w - k) <= val' ∨ val' = val * 2 ^ k ∧ val < 2 ^ (w - k)).
Proof.
  intros Hk Hv. unfold fls_step. rewrite land_top_zero by lia.
  assert (0 < 2 ^ k) by (apply Z.pow_pos_nonneg; lia).
  assert (2 ^ w = 2 ^ (w - k) * 2 ^ k) as Hw
    by (rewrite <- Z.pow_add_r by lia; f_equal; lia).
  destruct (Z.ltb_spec val (2 ^ (w - k))).
  - rewrite Z.shiftl_mul_pow2 by lia.
    assert (val * 2 ^ k < 2 ^ (w - k) * 2 ^ k) by (apply Z.mul_lt_mono_pos_r; lia).
    assert (0 < val * 2 ^ k) by (apply Z.mul_pos_pos; lia).
    rewrite wrap_small by lia.
    split; [lia|]. split; [|right; done].
    rewrite Z.log2_mul_pow2 by lia. lia.
  - split; [lia|]. split; [lia|left; lia].
Qed.

(** After the step for [k] bits, a value that had its top bit within the top
    [2k] bits has it within the top [k]. *)
Lemma fls_step_top w k val bit val' bit' :
  0 < k → 2 * k <= w → 0 < val < 2 ^ w → 2 ^ (w - 2 * k) <= val →
  fls_step w k (val, bit) = (val', bit') →
  0 < val' < 2 ^ w ∧ 2 ^ (w - k) <= val' ∧
  Z.log2 val' + bit' = Z.log2 val + bit.
Proof.
  intros Hk Hw Hv Ht E. pose proof (fls_step_spec w k val bit) as H.
  rewrite E in H. destruct H as (H1 & H2 & H3); [lia|lia|].
  split; [done|]. split; [|done]. destruct H3 as [?|[-> ?]]; [done|].
  replace (w - k) with (w - 2 * k + k) by lia. rewrite Z.pow_add_r by lia.
  apply Z.mul_le_mono_nonneg_r; [apply Z.pow_nonneg; lia|done].
Qed.

Lemma fls_last w val bit :
  0 < w → 0 < val < 2 ^ w → 2 ^ (w - 2) <= val →
  (if Z.land val (2 ^ (w - 1)) =? 0 then bit - 1 else bit)
  = Z.log2 val - (w - 1) + bit.
Proof.
  intros Hw Hv Ht.
  pose proof (land_top_zero w 1 val) as E.
  change (Z.ones 1) with 1 in E. rewrite shiftl_1 in E by lia.
  rewrite E by lia.
  assert (w <> 1 → 2 ^ (w - 1) = 2 * 2 ^ (w - 2)).
  { intros. rewrite <- Z.pow_succ_r by lia. f_equal. lia. }
  destruct (Z.ltb_spec val (2 ^ (w - 1))).
  - destruct (decide (w = 1)) as [->|]; [simpl in *; lia|].
    assert (Z.log2 val = w - 2); [|lia].
    apply Z.log2_unique; [lia|]. split; [done|].
    replace (Z.succ (w - 2)) with (w - 1) by lia. done.
  - assert (Z.log2 val = w - 1); [|lia].
    apply Z.log2_unique; [lia|]. split; [done|].
    replace (Z.succ (w - 1)) with w by lia. lia.
Qed.

Ltac fls_chain :=
  repeat match goal with
  | |- context [fls_step ?w ?k (?v, ?b)] =>
      destruct (fls_step w k (v, b)) as [??] eqn:?E;
      apply fls_step_top in E;
      [destruct E as (? & ? & ?)|lia|lia|simpl Z.pow in *; lia
      |simpl Z.pow in *; lia]
  end.

Lemma fls32_spec val : 0 < val < 2 ^ 32 → fls32 val = Z.log2 val.
Proof.
  intros Hv. unfold fls32. rewrite (proj2 (Z.eqb_neq val 0)) by lia.
  fls_chain. change 0x80000000 with (2 ^ (32 - 1)).
  rewrite fls_last by (simpl Z.pow in *; lia). lia.
Qed.

Lemma fls64_spec val : 0 < val < 2 ^ 64 → fls64 val = Z.log2 val.
Proof.
  intros Hv. unfold fls64. rewrite (proj2 (Z.eqb_neq val 0)) by lia.
  fls_chain. change 0x8000000000000000 with (2 ^ (64 - 1)).
  rewrite fls_last by (simpl Z.pow in *; lia). lia.
Qed.

(** [lowest_bit v r]: [r] is the position of the least significant set bit
    of [v], the specification of the find-first-set scans. *)
Definition lowest_bit (v r : Z) : Prop :=
  0 <= r ∧ Z.testbit v r = true ∧ ∀ j, 0 <= j < r → Z.testbit v j = false.

Lemma lowest_bit_unique v r r' : lowest_bit v r → lowest_bit v r' → r = r'.
Proof.
  intros (H1 & H2 & H3) (H1' & H2' & H3').
  destruct (Z.lt_trichotomy r r') as [?|[?|?]]; [|done|].
  - rewrite H3' in H2 by lia. done.
  - rewrite H3 in H2' by lia. done.
Qed.

Lemma ffs_step_spec o k val bit val' bit' :
  0 < k → 0 <= bit → 0 < val → o = val * 2 ^ bit → val mod 2 ^ (2 * k) ≠ 0 →
  ffs_step k (val, bit) = (val', bit') →
  0 <= bit' ∧ 0 < val' ∧ o = val' * 2 ^ bit' ∧ val' mod 2 ^ k ≠ 0.
Proof.
  intros Hk Hb Hv Ho Hm E. unfold ffs_step in E.
  rewrite land_low_zero in E by lia.
  assert (0 < 2 ^ k) by (apply Z.pow_pos_nonneg; lia).
  destruct (Z.eqb_spec (val mod 2 ^ k) 0) as [H0|H0].
  - injection E as <- <-. rewrite Z.shiftr_div_pow2 by lia.
    pose proof (Z.div_exact val (2 ^ k)) as [_ Hd]; [lia|].
    specialize (Hd H0). remember (val / 2 ^ k) as q eqn:Eq.
    assert (0 < q) by nia.
    split; [lia|]. split; [done|]. split.
    + rewrite Ho, Hd, Z.pow_add_r by lia. ring.
    + intros Hq. apply Hm. rewrite Hd.
      replace (2 * k) with (k + k) by lia. rewrite Z.pow_add_r by lia.
      rewrite Z.mul_mod_distr_l by lia. lia.
  - injection E as <- <-. done.
Qed.

Ltac ffs_chain o :=
  repeat match goal with
  | |- context [ffs_step ?k (?v, ?b)] =>
      destruct (ffs_step k (v, b)) as [??] eqn:?E;
      apply (ffs_step_spec o) in E;
      [destruct E as (? & ? & ? & ?)|lia|lia|lia|first [done|lia]
      |first [done|assumption|rewrite Z.mod_small by (simpl Z.pow in *; lia); lia]]
  end.

Lemma ffs_last o val bit :
  0 <= bit → 0 < val → o = val * 2 ^ bit → val mod 2 ^ 2 ≠ 0 →
  lowest_bit o (if Z.land val 1 =? 0 then bit + 1 else bit).
Proof.
  intros Hb Hv Ho Hm.
  destruct (ffs_step 1 (val, bit)) as [val' bit'] eqn:E.
  pose proof (ffs_step_spec o 1 val bit val' bit') as Hs.
  destruct Hs as (H1 & H2 & H3 & H4); try done; [].
  replace (if _ =? 0 then bit + 1 else bit) with bit'
    by (unfold ffs_step in E; change (Z.ones 1) with 1 in E;
        destruct (Z.land val 1 =? 0); by injection E as <- <-).
  split; [done|]. subst o. rewrite H3. split.
  - rewrite Z.mul_pow2_bits by lia. rewrite Z.sub_diag, Z.bit0_odd.
    rewrite Zodd_mod. change (2 ^ 1) with 2 in H4.
    pose proof (Z.mod_pos_bound val' 2).
    replace (val' mod 2) with 1 by lia. done.
  - intros j Hj. rewrite Z.mul_pow2_bits by lia. apply Z.testbit_neg_r. lia.
Qed.

Lemma ffs32_spec val : 0 < val < 2 ^ 32 → lowest_bit val (ffs32 val).
Proof.
  intros Hv. unfold ffs32. rewrite (proj2 (Z.eqb_neq val 0)) by lia.
  ffs_chain val. by apply ffs_last.
Qed.

Lemma ffs64_spec val : 0 < val < 2 ^ 64 → lowest_bit val (ffs64 val).
Proof.
  intros Hv. unfold ffs64. rewrite (proj2 (Z.eqb_neq val 0)) by lia.
  ffs_chain val. by apply ffs_last.
Qed.

Lemma fls32_0 : fls32 0 = -1. Proof. done. Qed.
Lemma fls64_0 : fls64 0 = -1. Proof. done. Qed.
Lemma ffs64_0 : ffs64 0 = -1. Proof. done. Qed.

Lemma fls64_bit val :
  0 < val < 2 ^ 64 →
  0 <= fls64 val < 64 ∧ Z.testbit val (fls64 val) = true ∧
  ∀ j, fls64 val < j → Z.testbit val j = false.
Proof.
  intros Hv. rewrite fls64_spec by done. split; [|split].
  - split; [apply Z.log2_nonneg|]. apply Z.log2_lt_pow2; lia.
  - apply Z.bit_log2. lia.
  - intros j Hj. apply Z.bits_above_log2; lia.
Qed.

Lemma ffs64_bit val :
  0 < val < 2 ^ 64 →
  0 <= ffs64 val < 64 ∧ Z.testbit val (ffs64 val) = true ∧
  ∀ j, 0 <= j < ffs64 val → Z.testbit val j = false.
Proof.
  intros Hv. destruct (ffs64_spec val Hv) as (H1 & H2 & H3).
  split; [|split; done]. split; [done|].
  destruct (Z.ltb_spec (ffs64 val) 64) as [|Hge]; [done|].
  rewrite (word_high_bit 64) in H2 by lia. done.
Qed.

(** ** [log2] terminates and rounds up *)

Lemma is_pow2_spec x : 0 < x → is_pow2 x = true ↔ x = 2 ^ Z.log2 x.
Proof.
  intros Hx. unfold is_pow2. rewrite Z.eqb_eq.
  pose proof (Z.log2_spec x Hx) as [Hlo Hhi].
  pose proof (Z.log2_nonneg x) as Hn. set (n := Z.log2 x) in *.
  rewrite Z.pow_succ_r in Hhi by lia.
  split; intros H.
  - destruct (decide (x = 2 ^ n)) as [|Hne]; [done|exfalso].
    assert (Z.testbit (Z.land x (x - 1)) n = true) as Hb.
    { rewrite Z.land_spec. apply andb_true_iff. split.
      - by apply Z.bit_log2.
      - replace n with (Z.log2 (x - 1)).
        + apply Z.bit_log2. pose proof (Z.pow_pos_nonneg 2 n). lia.
        + apply Z.log2_unique; [lia|]. rewrite Z.pow_succ_r by lia. lia. }
    rewrite H, Z.bits_0 in Hb. done.
  - rewrite H. replace (2 ^ n - 1) with (Z.ones n) by (rewrite Z.ones_equiv; lia).
    rewrite Z.land_ones by lia. apply Z.mod_same. pose proof (Z.pow_pos_nonneg 2 n). lia.
Qed.

Lemma log2_loop_spec fuel temp order :
  0 <= temp < 2 ^ Z.of_nat fuel → 0 <= order → order + Z.of_nat fuel < 2 ^ 64 →
  log2_loop (S fuel) temp order
  = Ok (if temp =? 0 then order else order + Z.log2 temp + 1).
Proof.
  revert temp order. induction fuel as [|fuel IH]; intros temp order Ht Ho Hf.
  - change (2 ^ Z.of_nat 0) with 1 in Ht. replace temp with 0 by lia. done.
  - cbn [log2_loop]. destruct (Z.eqb_spec temp 0) as [->|Hne]; [done|].
    change (let* x := ?a in ?b) with (rbind a (fun x => b)).
    unfold u64. rewrite wrap_small by lia.
    rewrite Z.shiftr_div_pow2 by lia. change (2 ^ 1) with 2.
    rewrite Nat2Z.inj_succ, Z.pow_succ_r in Ht by lia.
    change (log2_loop (S fuel) (temp / 2) (order + 1) = Ok (order + Z.log2 temp + 1)).
    rewrite IH; [|split; [apply Z.div_pos; lia|apply Z.div_lt_upper_bound; lia]
                 |lia|lia].
    f_equal. destruct (Z.eqb_spec (temp / 2) 0) as [H0|H0].
    + assert (temp = 1) as ->; [|simpl; lia].
      pose proof (Z.div_mod temp 2). pose proof (Z.mod_pos_bound temp 2). lia.
    + assert (Z.log2 temp = Z.log2 (temp / 2) + 1); [|lia].
      pose proof (Z.div_mod temp 2 ltac:(lia)) as Hd.
      pose proof (Z.mod_pos_bound temp 2 ltac:(lia)).
      assert (0 <= temp / 2) by (apply Z.div_pos; lia).
      assert (temp mod 2 = 0 ∨ temp mod 2 = 1) as [Hm|Hm] by lia;
        rewrite Hd, Hm at 1.
      * rewrite Z.add_0_r, Z.log2_double by lia. lia.
      * rewrite Z.log2_succ_double by lia. lia.
Qed.

Lemma log2_up_spec size :
  0 <= size < 2 ^ 64 → log2 size = Ok (Z.log2_up size).
Proof.
  intros Hs. unfold log2. destruct (Z.eqb_spec size 0) as [->|Hne]; [done|].
  rewrite Z.shiftr_div_pow2 by lia. change (2 ^ 1) with 2.
  rewrite (log2_loop_spec 64);
    [|split; [apply Z.div_pos; lia|apply Z.div_lt_upper_bound; simpl; lia]
     |lia|simpl; lia].
  simpl rbind. f_equal.
  assert ((if size / 2 =? 0 then 0 else 0 + Z.log2 (size / 2) + 1)
          = Z.log2 size) as ->.
  { change 2 with (2 ^ 1) at 1 2. rewrite <- Z.shiftr_div_pow2, Z.log2_shiftr by lia.
    destruct (Z.eqb_spec (Z.shiftr size 1) 0) as [H0|H0].
    - rewrite Z.shiftr_div_pow2 in H0 by lia. change (2 ^ 1) with 2 in H0.
      pose proof (Z.div_mod size 2). pose proof (Z.mod_pos_bound size 2).
      assert (size = 1) as -> by lia. done.
    - assert (1 <= Z.log2 size); [|lia].
      apply Z.log2_le_pow2; [lia|]. change (2 ^ 1) with 2.
      destruct (Z.ltb_spec size 2); [|lia]. assert (size = 1) by lia. subst. done. }
  pose proof (Z.log2_nonneg size).
  assert (Z.log2 size < 64) by (apply Z.log2_lt_pow2; lia).
  destruct (is_pow2 size) eqn:Hp.
  - apply is_pow2_spec in Hp; [|lia]. rewrite Hp at 2. by rewrite Z.log2_up_pow2.
  - unfold u64. rewrite wrap_small by lia.
    pose proof (Z.le_log2_log2_up size). pose proof (Z.le_log2_up_succ_log2 size).
    destruct (decide (Z.log2 size = Z.log2_up size)) as [He|]; [|lia].
    exfalso. apply Z.log2_log2_up_exact in He; [|lia]. destruct He as [b He].
    destruct (Z.ltb_spec b 0).
    { rewrite He, Z.pow_neg_r in Hne by lia. done. }
    assert (is_pow2 size = true); [|congruence].
    apply is_pow2_spec; [lia|]. by rewrite He, Z.log2_pow2.
Qed.

(** ** Alignment *)

Lemma align_down_spec x k :
  0 <= k <= 64 → 0 <= x < 2 ^ 64 →
  p2align_down x (2 ^ k) = x / 2 ^ k * 2 ^ k.
Proof.
  intros Hk Hx. unfold p2align_down.
  rewrite <- Z.shiftr_div_pow2, <- Z.shiftl_mul_pow2 by lia.
  replace (2 ^ k - 1) with (Z.ones k) by (rewrite Z.ones_equiv; lia).
  apply Z.bits_inj'. intros i Hi. rewrite Z.land_spec.
  destruct (Z.ltb_spec i 64).
  - rewrite cnot_bit by lia. destruct (Z.ltb_spec i k).
    + rewrite Z.ones_spec_low, Z.shiftl_spec_low by lia. by rewrite andb_false_r.
    + rewrite Z.ones_spec_high, Z.shiftl_spec, Z.shiftr_spec by lia.
      rewrite andb_true_r. f_equal. lia.
  - rewrite Z.shiftl_spec, Z.shiftr_spec by lia.
    rewrite (word_high_bit 64 x) by lia. symmetry.
    apply (word_high_bit 64); lia.
Qed.

Lemma align_up_spec x k :
  0 <= k <= 63 → 0 <= x → x + 2 ^ k - 1 < 2 ^ 64 →
  p2align_up x (2 ^ k) = (x + 2 ^ k - 1) / 2 ^ k * 2 ^ k.
Proof.
  intros Hk Hx Ho. assert (0 < 2 ^ k) by (apply Z.pow_pos_nonneg; lia).
  unfold p2align_up, u64. rewrite wrap_small by lia.
  apply align_down_spec; lia.
Qed.

(** The least multiple of [2^k] that is at least [x]. *)
Lemma align_up_least x k :
  0 <= k <= 63 → 0 <= x → x + 2 ^ k - 1 < 2 ^ 64 →
  x <= p2align_up x (2 ^ k) < x + 2 ^ k ∧ p2align_up x (2 ^ k) mod 2 ^ k = 0.
Proof.
  intros Hk Hx Ho. assert (0 < 2 ^ k) by (apply Z.pow_pos_nonneg; lia).
  rewrite align_up_spec by done.
  pose proof (Z.div_mod (x + 2 ^ k - 1) (2 ^ k)).
  pose proof (Z.mod_pos_bound (x + 2 ^ k - 1) (2 ^ k)).
  rewrite Z.mod_mul by lia. nia.
Qed.

(** ** Byte memory *)

(** [memset] writes [u8 c] to exactly the [n] bytes from [str]. *)
Lemma memset_loop_spec k str i c m :
  (∀ a, str + i <= a < str + i + Z.of_nat k → is_Some (m !! a)) →
  ∃ m', memset_loop k str i c m = Ok m' ∧
    ∀ a, m' !! a = if decide (str + i <= a < str + i + Z.of_nat k)
                   then Some (u8 c) else m !! a.
Proof.
  revert i m. induction k as [|k IH]; intros i m Hm.
  - exists m. split; [done|]. intros a. rewrite decide_False by lia. done.
  - cbn [memset_loop]. unfold mem_store.
    destruct (Hm (str + i)) as [v Hv]; [lia|]. rewrite Hv. simpl rbind.
    destruct (IH (i + 1) (<[str + i:=u8 c]> m)) as (m' & Hr & Hl).
    { intros a Ha. rewrite lookup_insert_ne by lia. apply Hm. lia. }
    exists m'. split; [done|]. intros a. rewrite Hl.
    destruct (decide (a = str + i)) as [->|Hne].
    + rewrite decide_False, decide_True by lia. by rewrite lookup_insert_eq.
    + rewrite lookup_insert_ne by lia. repeat case_decide; first [done|lia].
Qed.

(** [memcpy] between disjoint ranges copies the source, leaves every other
    byte alone. *)
Lemma memcpy_loop_spec k dest src i m :
  (∀ j, i <= j < i + Z.of_nat k → is_Some (m !! (dest + j))) →
  (∀ j, i <= j < i + Z.of_nat k → is_Some (m !! (src + j))) →
  (∀ a v, m !! a = Some v → 0 <= v < 2 ^ 8) →
  (∀ j j', i <= j < i + Z.of_nat k → i <= j' < i + Z.of_nat k →
           dest + j ≠ src + j') →
  ∃ m', memcpy_loop k dest src i m = Ok m' ∧
    ∀ a, m' !! a = if decide (dest + i <= a < dest + i + Z.of_nat k)
                   then m !! (src + (a - dest)) else m !! a.
Proof.
  revert i m. induction k as [|k IH]; intros i m Hd Hs Hb Hdis.
  - exists m. split; [done|]. intros a. rewrite decide_False by lia. done.
  - cbn [memcpy_loop]. unfold mem_store, mem_load.
    destruct (Hd i) as [v Hv]; [lia|]. destruct (Hs i) as [w Hw]; [lia|].
    rewrite Hw. simpl rbind. rewrite Hv. simpl rbind.
    assert (u8 w = w) as -> by (apply wrap_small; eauto).
    destruct (IH (i + 1) (<[dest + i:=w]> m)) as (m' & Hr & Hl).
    { intros j Hj. destruct (decide (i = j)) as [->|]; [lia|].
      rewrite lookup_insert_ne by lia. apply Hd. lia. }
    { intros j Hj. rewrite lookup_insert_ne by (apply Hdis; lia).
      apply Hs. lia. }
    { intros a x. destruct (decide (a = dest + i)) as [->|].
      - rewrite lookup_insert_eq. intros [= <-]. eauto.
      - rewrite lookup_insert_ne by lia. eauto. }
    { intros j j' Hj Hj'. apply Hdis; lia. }
    exists m'. split; [done|]. intros a. rewrite Hl.
    destruct (decide (a = dest + i)) as [->|Hne].
    + rewrite decide_False, decide_True by lia.
      rewrite lookup_insert_eq. replace (src + _) with (src + i) by lia. done.
    + destruct (decide (dest + (i + 1) <= a < dest + (i + 1) + Z.of_nat k)).
      * rewrite decide_True by lia.
        rewrite lookup_insert_ne; [done|].
        replace (src + (a - dest)) with (src + (a - dest)) by lia.
        apply (Hdis i (a - dest)); lia.
      * rewrite decide_False by lia. rewrite lookup_insert_ne by lia. done.
Qed.

(** ** BCD *)

(** Every decimal below 100, the fields of the clock, survives the
    conversion to BCD and back. *)
Theorem bcd_round_trip dec :
  0 <= dec < 100 → bcd_to_decimal (decimal_to_bcd dec) = dec.
Proof.
  intros Hd.
  assert (∀ n, (n < 100)%nat →
    bcd_to_decimal (decimal_to_bcd (Z.of_nat n)) = Z.of_nat n) as H.
  { assert (forallb (fun n => bcd_to_decimal (decimal_to_bcd (Z.of_nat n))
                              =? Z.of_nat n) (seq 0 100) = true) as Hf
      by (vm_compute; done).
    intros n Hn. rewrite forallb_forall in Hf. apply Z.eqb_eq, Hf.
    apply in_seq. lia. }
  rewrite <- (Z2Nat.id dec) by lia. apply H. lia.
Qed.

(** ** Orders of sizes *)

(** [log2], which sizes the buddy allocator's blocks, ends on every 64-bit
    argument and rounds up: [2^log2 size] is the least power of two that is at
    least [size].  Rounding a size up to the alignment [2^k] gives the least
    multiple that is not below it, except that within [2^k] of the end of the
    address space it wraps around to 0. *)
Theorem sizes_round_up size k :
  0 < size < 2 ^ 64 → 0 <= k < 64 →
  (∃ o, log2 size = Ok o ∧ 0 <= o <= 64 ∧ size <= 2 ^ o ∧ ∀ o', 0 <= o' < o → 2 ^ o' < size) ∧
  (if size + 2 ^ k - 1 <? 2 ^ 64
   then size <= p2align_up size (2 ^ k) < size + 2 ^ k ∧ p2align_up size (2 ^ k) mod 2 ^ k = 0
   else p2align_up size (2 ^ k) = 0).
Proof.
  intros Hs Hk. assert (0 < 2 ^ k) by (apply Z.pow_pos_nonneg; lia). split.
  - exists (Z.log2_up size). rewrite log2_up_spec by lia.
    pose proof (Z.log2_up_nonneg size). split; [done|].
    assert (Z.log2_up size <= 64) by (apply Z.log2_up_le_pow2; lia).
    split; [lia|]. split; [apply Z.log2_log2_up_spec; lia|].
    intros o' Ho. apply Z.log2_up_lt_pow2; lia.
  - destruct (Z.ltb_spec (size + 2 ^ k - 1) (2 ^ 64)); [apply align_up_least; lia|].
    assert (2 ^ k <= 2 ^ 63) by (apply Z.pow_le_mono_r; lia).
    unfold p2align_up. replace (u64 (size + 2 ^ k - 1)) with (size + 2 ^ k - 1 - 2 ^ 64).
    + change (p2align_down (size + 2 ^ k - 1 - 2 ^ 64) (2 ^ k) = 0).
      rewrite align_down_spec, Z.div_small by lia. lia.
    + unfold u64, wrap. rewrite <- (Z.mod_unique (size + 2 ^ k - 1) (2 ^ 64) 1 (size + 2 ^ k - 1 - 2 ^ 64)); lia.
Qed.

(** [memcpy] between ranges of mapped bytes that do not overlap copies
    exactly [n] bytes and leaves every other byte as it was; it does not
    fault. *)
Theorem memcpy_copies dest src n m :
  0 <= n →
  (∀ j, 0 <= j < n → is_Some (m !! (dest + j)) ∧ is_Some (m !! (src + j))) →
  (∀ a v, m !! a = Some v → 0 <= v < 2 ^ 8) →
  (∀ j j', 0 <= j < n → 0 <= j' < n → dest + j ≠ src + j') →
  ∃ m', memcpy dest src n m = Ok m' ∧
    ∀ a, m' !! a = if decide (dest <= a < dest + n) then m !! (src + (a - dest)) else m !! a.
Proof.
  intros Hn Hm Hb Hd. unfold memcpy.
  destruct (memcpy_loop_spec (Z.to_nat n) dest src 0 m) as (m' & E & Hm').
  - intros j Hj. apply Hm. lia.
  - intros j Hj. apply Hm. lia.
  - done.
  - intros j j' ? ?. apply Hd; lia.
  - exists m'. split; [done|]. intros a. rewrite Hm'. repeat case_decide; first [done|lia].
Qed.
