(* ===== verification/Mem.v ===== *)
(** * Mem: 64-bit words in a byte memory

    The byte memory of Std read and written in little-endian words, as the
    processor does for a field of eight bytes at any address. *)

From S2P Require Import Prelude Std.
From Stdlib Require Import ZArith Lia Bool.
From stdpp Require Import base gmap list numbers.

Local Open Scope Z_scope.

Fixpoint load_le (n : nat) (m : mem) (a : Z) : res Z :=
  match n with
  | O => Ok 0
  | S n => let* b := mem_load m a in let* r := load_le n m (a + 1) in Ok (b + 256 * r)
  end.
Fixpoint store_le (n : nat) (m : mem) (a v : Z) : res mem :=
  match n with
  | O => Ok m
  | S n => let* m := mem_store m a v in store_le n m (a + 1) (v / 256)
  end.
Definition load64 (m : mem) (a : Z) : res Z := load_le 8 m a.
Definition store64 (m : mem) (a v : Z) : res mem := store_le 8 m a v.

(** Every mapped byte is one, and the bytes of an interval are mapped. *)
Definition bytes_ok (m : mem) : Prop := ∀ k v, m !! k = Some v → 0 <= v < 256.
Definition mapped (m : mem) (a e : Z) : Prop := ∀ k, a <= k < e → is_Some (m !! k).

(** [m'] is [m] but for the bytes that [P] allows to change. *)
Record chg (P : Z → Prop) (m m' : mem) : Prop := {
  chg_same : ∀ k, ¬ P k → m' !! k = m !! k;
  chg_dom : ∀ k, is_Some (m !! k) → is_Some (m' !! k);
  chg_bytes : bytes_ok m → bytes_ok m';
}.

Lemma chg_refl P m : chg P m m.
Proof. by split. Qed.
Lemma chg_trans P m1 m2 m3 : chg P m1 m2 → chg P m2 m3 → chg P m1 m3.
Proof.
  intros [A1 A2 A3] [B1 B2 B3]. split; [|by auto|by auto].
  intros k Hk. by rewrite B1, A1.
Qed.
Lemma chg_weaken (P Q : Z → Prop) m m' : (∀ k, P k → Q k) → chg P m m' → chg Q m m'.
Proof. intros HPQ [A B C]. split; [|done..]. intros k Hk. apply A. auto. Qed.
Lemma chg_mapped P m m' a e : chg P m m' → mapped m a e → mapped m' a e.
Proof. intros [_ B _] H k Hk. by apply B, H. Qed.

(** The word at [a] is [v]. *)
Definition wd (m : mem) (a v : Z) : Prop := load64 m a = Ok v.

Lemma load_le_same n m m' : ∀ a, (∀ k, a <= k < a + Z.of_nat n → m' !! k = m !! k) → load_le n m' a = load_le n m a.
Proof.
  induction n as [|n IH]; intros a H; [done|]. cbn [load_le]. unfold mem_load.
  rewrite H by lia. destruct (m !! a); [|done]. simpl rbind. rewrite IH; [done|]. intros. apply H. lia.
Qed.
Lemma load_le_total n m : ∀ a, bytes_ok m → mapped m a (a + Z.of_nat n) →
  ∃ v, load_le n m a = Ok v ∧ 0 <= v < 256 ^ Z.of_nat n.
Proof.
  induction n as [|n IH]; intros a Hb H; [by exists 0|]. cbn [load_le]. unfold mem_load.
  destruct (H a ltac:(lia)) as [b E]. rewrite E. simpl rbind.
  destruct (IH (a + 1)) as (v & -> & Hv); [done|intros k Hk; apply H; lia|]. exists (b + 256 * v).
  split; [done|]. apply Hb in E. rewrite Nat2Z.inj_succ, Z.pow_succ_r by lia. lia.
Qed.
Lemma store_le_spec n : ∀ m a v, bytes_ok m → mapped m a (a + Z.of_nat n) →
  ∃ m', store_le n m a v = Ok m' ∧ chg (fun k => a <= k < a + Z.of_nat n) m m' ∧
    load_le n m' a = Ok (v mod 256 ^ Z.of_nat n).
Proof.
  induction n as [|n IH]; intros m a v Hb H.
  { exists m. split; [done|]. split; [apply chg_refl|]. cbn. by rewrite Z.mod_1_r. }
  cbn [store_le]. unfold mem_store. destruct (H a ltac:(lia)) as [b E]. rewrite E. simpl rbind.
  set (m1 := <[a := u8 v]> m).
  assert (chg (fun k => k = a) m m1) as [C1 C2 C3].
  { split.
    - intros k Hk. unfold m1. by rewrite lookup_insert_ne by congruence.
    - intros k Hk. unfold m1. rewrite lookup_insert_is_Some. destruct (decide (a = k)); auto.
    - intros _ k w. unfold m1. rewrite lookup_insert_Some. intros [[_ <-]|[_ Ek]]; [|by apply (Hb k)].
      apply (wrap_range 8). lia. }
  destruct (IH m1 (a + 1) (v / 256)) as (m' & Es & [D1 D2 D3] & El); [by apply C3|intros k Hk; apply C2, H; lia|].
  exists m'. split; [exact Es|]. split; [split; [|by auto|by auto]|].
  - intros k Hk. rewrite D1, C1 by lia. done.
  - cbn [load_le]. unfold mem_load. rewrite D1 by lia. unfold m1. rewrite lookup_insert_eq. simpl rbind.
    rewrite El. simpl rbind. f_equal. rewrite Nat2Z.inj_succ, Z.pow_succ_r by lia.
    rewrite Z.rem_mul_r by lia. unfold u8, wrap. change (2 ^ 8) with 256. lia.
Qed.

Lemma load_le_mapped n m : ∀ a v, load_le n m a = Ok v → mapped m a (a + Z.of_nat n).
Proof.
  induction n as [|n IH]; intros a v E k Hk; [lia|]. cbn [load_le] in E. unfold mem_load in E.
  destruct (m !! a) as [b|] eqn:Eb; [|done]. simpl rbind in E.
  destruct (load_le n m (a + 1)) as [w|] eqn:Ew; [|done]. destruct (decide (k = a)) as [->|]; [by eexists|].
  apply (IH _ _ Ew). lia.
Qed.
Lemma wd_mapped m a v : wd m a v → mapped m a (a + 8).
Proof. apply (load_le_mapped 8). Qed.
Lemma wd_same m m' a v : (∀ k, a <= k < a + 8 → m' !! k = m !! k) → wd m a v → wd m' a v.
Proof. intros H. unfold wd, load64. by rewrite (load_le_same 8 m m'). Qed.
Lemma wd_chg P m m' a v : chg P m m' → (∀ k, a <= k < a + 8 → ¬ P k) → wd m a v → wd m' a v.
Proof. intros H Ha. apply wd_same. intros k Hk. by apply H, Ha. Qed.
Lemma wd_total m a : bytes_ok m → mapped m a (a + 8) → ∃ v, wd m a v ∧ 0 <= v < 2 ^ 64.
Proof. apply (load_le_total 8). Qed.
Lemma load_le_range n m : ∀ a v, bytes_ok m → load_le n m a = Ok v → 0 <= v < 256 ^ Z.of_nat n.
Proof.
  induction n as [|n IH]; intros a v Hb E; cbn [load_le] in E; [injection E as <-; cbn; lia|].
  unfold mem_load in E. destruct (m !! a) as [b|] eqn:Eb; [|done]. simpl rbind in E.
  destruct (load_le n m (a + 1)) as [w|] eqn:Ew; [|done]. injection E as <-.
  apply IH in Ew; [|done]. apply Hb in Eb. rewrite Nat2Z.inj_succ, Z.pow_succ_r by lia. lia.
Qed.
Lemma wd_range m a v : bytes_ok m → wd m a v → 0 <= v < 2 ^ 64.
Proof. apply (load_le_range 8). Qed.
Lemma store64_spec m a v : bytes_ok m → mapped m a (a + 8) → 0 <= v < 2 ^ 64 →
  ∃ m', store64 m a v = Ok m' ∧ chg (fun k => a <= k < a + 8) m m' ∧ wd m' a v.
Proof.
  intros Hb Hm Hv. destruct (store_le_spec 8 m a v Hb Hm) as (m' & E & Hc & El). exists m'.
  split; [exact E|]. split; [exact Hc|]. unfold wd, load64. rewrite El. f_equal. by apply Z.mod_small.
Qed.
