(* ===== verification/Bmp.v ===== *)
(** * Bmp: the fixed bitmaps of include/lib/dsa/bmp256.h and bmp512.h

    A [bmp256] is the array of four 64-bit words of the C struct; [bmp256_bit]
    is its abstraction to a predicate on bit positions, and every operation
    is characterised through it.  [bmp256_ffs]/[bmp256_fls] return the least
    and greatest member, -1 for the empty set. *)

From S2P Require Import Prelude Std.
From Stdlib Require Import ZArith Lia Bool.
From stdpp Require Import base gmap list numbers.

Local Open Scope Z_scope.

Record bmp256 := Bmp256 { bmp0 : Z; bmp1 : Z; bmp2 : Z; bmp3 : Z }.

#[export] Instance bmp256_eq_dec : EqDecision bmp256.
Proof. solve_decision. Defined.

(** [bmp->bmp[index]] for [index = bit / 64 < 4] *)
Definition bmp_get (b : bmp256) (index : Z) : Z :=
  if index =? 0 then bmp0 b else if index =? 1 then bmp1 b
  else if index =? 2 then bmp2 b else bmp3 b.
Definition bmp_upd (b : bmp256) (index v : Z) : bmp256 :=
  if index =? 0 then Bmp256 v (bmp1 b) (bmp2 b) (bmp3 b)
  else if index =? 1 then Bmp256 (bmp0 b) v (bmp2 b) (bmp3 b)
  else if index =? 2 then Bmp256 (bmp0 b) (bmp1 b) v (bmp3 b)
  else Bmp256 (bmp0 b) (bmp1 b) (bmp2 b) v.

Definition bmp256_and (dest src : bmp256) : bmp256 :=
  Bmp256 (Z.land (bmp0 dest) (bmp0 src)) (Z.land (bmp1 dest) (bmp1 src))
         (Z.land (bmp2 dest) (bmp2 src)) (Z.land (bmp3 dest) (bmp3 src)).

Definition bmp256_or (dest src : bmp256) : bmp256 :=
  Bmp256 (Z.lor (bmp0 dest) (bmp0 src)) (Z.lor (bmp1 dest) (bmp1 src))
         (Z.lor (bmp2 dest) (bmp2 src)) (Z.lor (bmp3 dest) (bmp3 src)).

Definition bmp256_test (b : bmp256) (bit : Z) : bool :=
  let index := bit / 64 in
  let off := bit mod 64 in
  negb (Z.land (Z.shiftr (bmp_get b index) off) 1 =? 0).

Definition bmp256_set (b : bmp256) (bit : Z) : bmp256 :=
  let index := bit / 64 in
  let off := bit mod 64 in
  bmp_upd b index (Z.lor (bmp_get b index) (u64 (Z.shiftl 1 off))).

Definition bmp256_unset (b : bmp256) (bit : Z) : bmp256 :=
  let index := bit / 64 in
  let off := bit mod 64 in
  bmp_upd b index (Z.land (bmp_get b index) (cnot 64 (u64 (Z.shiftl 1 off)))).

Definition bmp256_ffs (b : bmp256) : Z :=
  let base := ffs64 (bmp0 b) in
  if negb (base =? -1) then base else
  let base := ffs64 (bmp1 b) in
  if negb (base =? -1) then base + 64 else
  let base := ffs64 (bmp2 b) in
  if negb (base =? -1) then base + 128 else
  let base := ffs64 (bmp3 b) in
  if negb (base =? -1) then base + 192 else base.

Definition bmp256_fls (b : bmp256) : Z :=
  let base := fls64 (bmp3 b) in
  if negb (base =? -1) then base + 192 else
  let base := fls64 (bmp2 b) in
  if negb (base =? -1) then base + 128 else
  let base := fls64 (bmp1 b) in
  if negb (base =? -1) then base + 64 else fls64 (bmp0 b).

Definition bmp256_set_all (b : bmp256) : bmp256 :=
  Bmp256 (2 ^ 64 - 1) (2 ^ 64 - 1) (2 ^ 64 - 1) (2 ^ 64 - 1).
Definition bmp256_unset_all (b : bmp256) : bmp256 := Bmp256 0 0 0 0.

Definition bmp256_unset_all_above (b : bmp256) (bit : Z) : bmp256 :=
  let index := bit / 64 in
  let off := bit mod 64 in
  let b := bmp_upd b index
    (Z.land (bmp_get b index)
       (if off =? 63 then cnot 64 0 else u64 (Z.shiftl 1 (off + 1)) - 1)) in
  let b := if index <? 3 then bmp_upd b 3 0 else b in
  let b := if index <? 2 then bmp_upd b 2 0 else b in
  if index <? 1 then bmp_upd b 1 0 else b.

(** ** The abstraction *)

Definition bmp256_wf (b : bmp256) : Prop :=
  0 <= bmp0 b < 2 ^ 64 ∧ 0 <= bmp1 b < 2 ^ 64 ∧
  0 <= bmp2 b < 2 ^ 64 ∧ 0 <= bmp3 b < 2 ^ 64.

Definition bmp256_bit (b : bmp256) (i : Z) : bool :=
  Z.testbit (bmp_get b (i / 64)) (i mod 64).

Definition bmp_empty : bmp256 := Bmp256 0 0 0 0.

Lemma bmp_get_wf b i : bmp256_wf b → 0 <= bmp_get b i < 2 ^ 64.
Proof. intros (? & ? & ? & ?). unfold bmp_get. repeat case_match; done. Qed.

Lemma bmp_upd_wf b i v :
  bmp256_wf b → 0 <= v < 2 ^ 64 → bmp256_wf (bmp_upd b i v).
Proof.
  intros (? & ? & ? & ?) Hv. unfold bmp_upd, bmp256_wf.
  repeat case_match; done.
Qed.

Lemma bmp_get_upd b i j v :
  0 <= i < 4 → 0 <= j < 4 →
  bmp_get (bmp_upd b i v) j = if i =? j then v else bmp_get b j.
Proof.
  intros Hi Hj. unfold bmp_get, bmp_upd.
  assert (i = 0 ∨ i = 1 ∨ i = 2 ∨ i = 3) as [->|[->|[->| ->]]] by lia;
  assert (j = 0 ∨ j = 1 ∨ j = 2 ∨ j = 3) as [->|[->|[->| ->]]] by lia; done.
Qed.

Lemma bit_index i : 0 <= i < 256 → 0 <= i / 64 < 4 ∧ 0 <= i mod 64 < 64.
Proof.
  intros. split; [|apply Z.mod_pos_bound; lia].
  split; [apply Z.div_pos; lia|apply Z.div_lt_upper_bound; lia].
Qed.

Lemma bit_split i j : i / 64 = j / 64 → i mod 64 = j mod 64 → i = j.
Proof. intros. rewrite (Z.div_mod i 64), (Z.div_mod j 64) by lia. congruence. Qed.

Lemma bmp256_test_bit b i : bmp256_test b i = bmp256_bit b i.
Proof.
  unfold bmp256_test, bmp256_bit.
  set (x := bmp_get b (i / 64)). set (o := i mod 64).
  assert (0 <= o) by (apply Z.mod_pos_bound; lia).
  change 1 with (Z.ones 1) at 1. rewrite Z.land_ones by lia.
  change (2 ^ 1) with 2. rewrite <- Z.bit0_mod.
  rewrite Z.shiftr_spec by lia. rewrite Z.add_0_l.
  by destruct (Z.testbit x o).
Qed.

Lemma bmp256_set_bit b i j :
  bmp256_wf b → 0 <= i < 256 → 0 <= j < 256 →
  bmp256_bit (bmp256_set b i) j = (i =? j) || bmp256_bit b j.
Proof.
  intros Hb Hi Hj. destruct (bit_index i Hi), (bit_index j Hj).
  unfold bmp256_bit, bmp256_set. rewrite bmp_get_upd by lia.
  destruct (Z.eqb_spec (i / 64) (j / 64)) as [Hd|Hd].
  - rewrite Z.lor_spec, shiftl_1 by lia. unfold u64.
    rewrite wrap_small by (apply pow2_word; lia).
    rewrite testbit_pow2, Hd, orb_comm by lia. f_equal.
    destruct (bool_decide_reflect (i mod 64 = j mod 64)).
    + symmetry. apply Z.eqb_eq. by apply bit_split.
    + symmetry. apply Z.eqb_neq. naive_solver.
  - destruct (Z.eqb_spec i j); [congruence|done].
Qed.

Lemma bmp256_unset_bit b i j :
  bmp256_wf b → 0 <= i < 256 → 0 <= j < 256 →
  bmp256_bit (bmp256_unset b i) j = negb (i =? j) && bmp256_bit b j.
Proof.
  intros Hb Hi Hj. destruct (bit_index i Hi), (bit_index j Hj).
  unfold bmp256_bit, bmp256_unset. rewrite bmp_get_upd by lia.
  destruct (Z.eqb_spec (i / 64) (j / 64)) as [Hd|Hd].
  - rewrite Z.land_spec, cnot_bit, shiftl_1 by lia. unfold u64.
    rewrite wrap_small by (apply pow2_word; lia).
    rewrite testbit_pow2, Hd, andb_comm by lia. do 2 f_equal.
    destruct (bool_decide_reflect (i mod 64 = j mod 64)).
    + symmetry. apply Z.eqb_eq. by apply bit_split.
    + symmetry. apply Z.eqb_neq. naive_solver.
  - destruct (Z.eqb_spec i j); [congruence|done].
Qed.

Lemma bmp256_set_wf b i :
  bmp256_wf b → 0 <= i < 256 → bmp256_wf (bmp256_set b i).
Proof.
  intros Hb Hi. destruct (bit_index i Hi). apply bmp_upd_wf; [done|].
  apply lor_word; [lia|by apply bmp_get_wf|].
  unfold u64. apply wrap_range. lia.
Qed.

Lemma bmp256_unset_wf b i :
  bmp256_wf b → bmp256_wf (bmp256_unset b i).
Proof.
  intros Hb. apply bmp_upd_wf; [done|]. apply land_word; [lia|].
  by apply bmp_get_wf.
Qed.

Lemma bmp256_and_wf a b : bmp256_wf a → bmp256_wf (bmp256_and a b).
Proof.
  intros (? & ? & ? & ?). repeat split; simpl;
    first [apply land_word; lia|apply (land_word 64); lia].
Qed.

Lemma bmp256_and_bit a b i :
  bmp256_bit (bmp256_and a b) i = bmp256_bit a i && bmp256_bit b i.
Proof.
  unfold bmp256_bit, bmp256_and, bmp_get. simpl.
  repeat case_match; apply Z.land_spec.
Qed.

Lemma bmp256_or_bit a b i :
  bmp256_bit (bmp256_or a b) i = bmp256_bit a i || bmp256_bit b i.
Proof.
  unfold bmp256_bit, bmp256_or, bmp_get. simpl.
  repeat case_match; apply Z.lor_spec.
Qed.

Lemma bmp256_set_all_wf b : bmp256_wf (bmp256_set_all b).
Proof. repeat split; simpl; lia. Qed.

Lemma bmp256_set_all_bit b i :
  0 <= i < 256 → bmp256_bit (bmp256_set_all b) i = true.
Proof.
  intros Hi. destruct (bit_index i Hi). unfold bmp256_bit, bmp256_set_all, bmp_get.
  cbn [bmp0 bmp1 bmp2 bmp3]. change (2 ^ 64 - 1) with (Z.ones 64).
  repeat case_match; apply Z.ones_spec_low; lia.
Qed.

Lemma bmp_empty_bit i : bmp256_bit bmp_empty i = false.
Proof. unfold bmp256_bit, bmp_get. simpl. repeat case_match; apply Z.bits_0. Qed.

Lemma bmp_empty_wf : bmp256_wf bmp_empty.
Proof. repeat split; simpl; lia. Qed.

(** ** [fls] and [ffs] return the extreme members *)

Lemma bmp256_bit_word b k j :
  0 <= k < 4 → 0 <= j < 64 →
  bmp256_bit b (k * 64 + j) = Z.testbit (bmp_get b k) j.
Proof.
  intros. unfold bmp256_bit. do 2 f_equal.
  - rewrite Z.div_add_l, Z.div_small by lia. lia.
  - rewrite Z.add_comm, Z.mod_add, Z.mod_small by lia. done.
Qed.

(** The word scans in one statement: -1 exactly on 0. *)
Lemma fls64_cases v :
  0 <= v < 2 ^ 64 →
  (v = 0 ∧ fls64 v = -1) ∨
  (fls64 v ≠ -1 ∧ 0 <= fls64 v < 64 ∧ Z.testbit v (fls64 v) = true ∧
   ∀ j, fls64 v < j → Z.testbit v j = false).
Proof.
  intros Hv. destruct (decide (v = 0)) as [->|]; [by left|right].
  destruct (fls64_bit v) as (? & ? & ?); [lia|]. split; [lia|done].
Qed.

Lemma ffs64_cases v :
  0 <= v < 2 ^ 64 →
  (v = 0 ∧ ffs64 v = -1) ∨
  (ffs64 v ≠ -1 ∧ 0 <= ffs64 v < 64 ∧ Z.testbit v (ffs64 v) = true ∧
   ∀ j, 0 <= j < ffs64 v → Z.testbit v j = false).
Proof.
  intros Hv. destruct (decide (v = 0)) as [->|]; [by left|right].
  destruct (ffs64_bit v) as (? & ? & ?); [lia|]. split; [lia|done].
Qed.

(** [is_max_bit b r]: [r] is the greatest member, or -1 when there is none. *)
Definition is_max_bit (b : bmp256) (r : Z) : Prop :=
  (r = -1 ∧ ∀ i, 0 <= i < 256 → bmp256_bit b i = false) ∨
  (0 <= r < 256 ∧ bmp256_bit b r = true ∧
   ∀ i, r < i < 256 → bmp256_bit b i = false).
Definition is_min_bit (b : bmp256) (r : Z) : Prop :=
  (r = -1 ∧ ∀ i, 0 <= i < 256 → bmp256_bit b i = false) ∨
  (0 <= r < 256 ∧ bmp256_bit b r = true ∧
   ∀ i, 0 <= i < r → bmp256_bit b i = false).

(** Which of the four words bit [i] falls in, with its offset. *)
Lemma bmp256_word_cases b i :
  0 <= i < 256 →
  (i < 64 ∧ bmp256_bit b i = Z.testbit (bmp0 b) i) ∨
  (64 <= i < 128 ∧ bmp256_bit b i = Z.testbit (bmp1 b) (i - 64)) ∨
  (128 <= i < 192 ∧ bmp256_bit b i = Z.testbit (bmp2 b) (i - 128)) ∨
  (192 <= i ∧ bmp256_bit b i = Z.testbit (bmp3 b) (i - 192)).
Proof.
  intros Hi.
  pose proof (bmp256_bit_word b 0 i) as H0.
  pose proof (bmp256_bit_word b 1 (i - 64)) as H1.
  pose proof (bmp256_bit_word b 2 (i - 128)) as H2.
  pose proof (bmp256_bit_word b 3 (i - 192)) as H3.
  change (bmp_get b 0) with (bmp0 b) in H0. change (bmp_get b 1) with (bmp1 b) in H1.
  change (bmp_get b 2) with (bmp2 b) in H2. change (bmp_get b 3) with (bmp3 b) in H3.
  replace (0 * 64 + i) with i in H0 by lia.
  replace (1 * 64 + (i - 64)) with i in H1 by lia.
  replace (2 * 64 + (i - 128)) with i in H2 by lia.
  replace (3 * 64 + (i - 192)) with i in H3 by lia.
  destruct (Z.ltb_spec i 64); [left; split; [lia|apply H0; lia]|right].
  destruct (Z.ltb_spec i 128); [left; split; [lia|apply H1; lia]|right].
  destruct (Z.ltb_spec i 192); [left; split; [lia|apply H2; lia]|right].
  split; [lia|apply H3; lia].
Qed.

(** Decide the bit of a position from the facts on the four words. *)
Ltac solve_word_bit b :=
  match goal with
  | |- bmp256_bit _ ?i = _ =>
      destruct (bmp256_word_cases b i ltac:(lia))
        as [[? ->]|[[? ->]|[[? ->]|[? ->]]]];
      first [ lia
            | match goal with H : _ = 0 |- _ => rewrite H; apply Z.bits_0 end
            | match goal with H : ∀ j, _ |- _ => apply H; lia end
            | match goal with H : Z.testbit ?v ?x = true |- Z.testbit ?v ?y = true =>
                replace y with x by lia; exact H end ]
  end.

Lemma bmp256_fls_spec b : bmp256_wf b → is_max_bit b (bmp256_fls b).
Proof.
  intros (H0 & H1 & H2 & H3). unfold bmp256_fls, is_max_bit.
  destruct (fls64_cases _ H3) as [[E3 ->]|(N3 & B3 & T3 & A3)];
    [|rewrite (proj2 (Z.eqb_neq _ _) N3); simpl negb; cbv iota; right;
      split_and!; [lia|lia|solve_word_bit b|intros i Hi; solve_word_bit b]].
  destruct (fls64_cases _ H2) as [[E2 ->]|(N2 & B2 & T2 & A2)];
    [|rewrite (proj2 (Z.eqb_neq _ _) N2); simpl negb; cbv iota; right;
      split_and!; [lia|lia|solve_word_bit b|intros i Hi; solve_word_bit b]].
  destruct (fls64_cases _ H1) as [[E1 ->]|(N1 & B1 & T1 & A1)];
    [|rewrite (proj2 (Z.eqb_neq _ _) N1); simpl negb; cbv iota; right;
      split_and!; [lia|lia|solve_word_bit b|intros i Hi; solve_word_bit b]].
  destruct (fls64_cases _ H0) as [[E0 ->]|(N0 & B0 & T0 & A0)];
    simpl negb; cbv iota.
  - left. split; [done|]. intros i Hi. solve_word_bit b.
  - right. split_and!; [lia|lia|solve_word_bit b|intros i Hi; solve_word_bit b].
Qed.

Lemma bmp256_ffs_spec b : bmp256_wf b → is_min_bit b (bmp256_ffs b).
Proof.
  intros (H0 & H1 & H2 & H3). unfold bmp256_ffs, is_min_bit.
  destruct (ffs64_cases _ H0) as [[E0 ->]|(N0 & B0 & T0 & A0)];
    [|rewrite (proj2 (Z.eqb_neq _ _) N0); simpl negb; cbv iota; right;
      split_and!; [lia|lia|solve_word_bit b|intros i Hi; solve_word_bit b]].
  destruct (ffs64_cases _ H1) as [[E1 ->]|(N1 & B1 & T1 & A1)];
    [|rewrite (proj2 (Z.eqb_neq _ _) N1); simpl negb; cbv iota; right;
      split_and!; [lia|lia|solve_word_bit b|intros i Hi; solve_word_bit b]].
  destruct (ffs64_cases _ H2) as [[E2 ->]|(N2 & B2 & T2 & A2)];
    [|rewrite (proj2 (Z.eqb_neq _ _) N2); simpl negb; cbv iota; right;
      split_and!; [lia|lia|solve_word_bit b|intros i Hi; solve_word_bit b]].
  destruct (ffs64_cases _ H3) as [[E3 ->]|(N3 & B3 & T3 & A3)];
    simpl negb; cbv iota.
  - left. split; [done|]. intros i Hi. solve_word_bit b.
  - right; rewrite (proj2 (Z.eqb_neq _ _) N3); simpl negb; cbv iota.
    split_and!; [lia|lia|solve_word_bit b|intros i Hi; solve_word_bit b].
Qed.

(** ** 512-bit maps *)

Record bmp512 := Bmp512 { high256 : bmp256; low256 : bmp256 }.

Definition bmp512_and (dest src : bmp512) : bmp512 :=
  Bmp512 (bmp256_and (high256 dest) (high256 src))
         (bmp256_and (low256 dest) (low256 src)).
Definition bmp512_or (dest src : bmp512) : bmp512 :=
  Bmp512 (bmp256_or (high256 dest) (high256 src))
         (bmp256_or (low256 dest) (low256 src)).

(** the argument of [bmp256_set] is a [u8] *)
Definition bmp512_set (b : bmp512) (bit : Z) : bmp512 :=
  if 256 <=? bit then Bmp512 (bmp256_set (high256 b) (u8 (bit - 256))) (low256 b)
  else Bmp512 (high256 b) (bmp256_set (low256 b) (u8 bit)).
Definition bmp512_unset (b : bmp512) (bit : Z) : bmp512 :=
  if 256 <=? bit then Bmp512 (bmp256_unset (high256 b) (u8 (bit - 256))) (low256 b)
  else Bmp512 (high256 b) (bmp256_unset (low256 b) (u8 bit)).

Definition bmp512_ffs (b : bmp512) : Z :=
  let bit := bmp256_ffs (low256 b) in
  if negb (bit =? -1) then bit else
  let bit := bmp256_ffs (high256 b) in
  if bit =? -1 then bit else bit + 256.
Definition bmp512_fls (b : bmp512) : Z :=
  let bit := bmp256_fls (high256 b) in
  if negb (bit =? -1) then bit + 256 else bmp256_fls (low256 b).

Definition bmp512_set_all (b : bmp512) : bmp512 :=
  Bmp512 (bmp256_set_all (high256 b)) (bmp256_set_all (low256 b)).
Definition bmp512_unset_all (b : bmp512) : bmp512 :=
  Bmp512 (bmp256_unset_all (high256 b)) (bmp256_unset_all (low256 b)).
Definition bmp512_set2 (b : bmp512) (first_bit : Z) : bmp512 :=
  bmp512_set (bmp512_set b first_bit) (first_bit + 1).
Definition bmp512_unset2 (b : bmp512) (first_bit : Z) : bmp512 :=
  bmp512_unset (bmp512_unset b first_bit) (first_bit + 1).

(** The search for two adjacent bits works on a copy of the map and clears
    the bits it has looked at. *)
Fixpoint bmp512_ffs2_loop (fuel : nat) (tmp : bmp512) : res Z :=
  match fuel with
  | O => Fault FFuel
  | S fuel =>
      let bit := bmp512_ffs tmp in
      if bit =? -1 then Ok (-1) else
      let tmp := bmp512_unset tmp bit in
      let next := bmp512_ffs tmp in
      if next =? -1 then Ok (-1)
      else if next =? bit + 1 then Ok bit
      else bmp512_ffs2_loop fuel (bmp512_unset tmp next)
  end.
Definition bmp512_ffs2 (b : bmp512) : res Z := bmp512_ffs2_loop 513 b.

Definition bmp512_ffs_unset (b : bmp512) : Z * bmp512 :=
  let bit := bmp512_ffs b in
  (bit, if negb (bit =? -1) then bmp512_unset b bit else b).
Definition bmp512_ffs2_unset2 (b : bmp512) : res (Z * bmp512) :=
  let* bit := bmp512_ffs2 b in
  Ok (bit, if negb (bit =? -1) then bmp512_unset2 b bit else b).

Definition bmp512_wf (b : bmp512) : Prop :=
  bmp256_wf (high256 b) ∧ bmp256_wf (low256 b).
Definition bmp512_bit (b : bmp512) (i : Z) : bool :=
  if 256 <=? i then bmp256_bit (high256 b) (i - 256) else bmp256_bit (low256 b) i.

Lemma bmp512_unset_bit b i j :
  bmp512_wf b → 0 <= i < 512 → 0 <= j < 512 →
  bmp512_bit (bmp512_unset b i) j = negb (i =? j) && bmp512_bit b j.
Proof.
  intros [Hh Hl] Hi Hj. unfold bmp512_bit, bmp512_unset, u8.
  destruct (Z.leb_spec 256 i), (Z.leb_spec 256 j); cbn [high256 low256].
  - rewrite wrap_small, bmp256_unset_bit by (done || lia).
    f_equal. f_equal. destruct (Z.eqb_spec i j), (Z.eqb_spec (i - 256) (j - 256)); lia.
  - destruct (Z.eqb_spec i j); [lia|done].
  - destruct (Z.eqb_spec i j); [lia|done].
  - by rewrite wrap_small, bmp256_unset_bit by (done || lia).
Qed.

Lemma bmp512_unset_wf b i : bmp512_wf b → bmp512_wf (bmp512_unset b i).
Proof.
  intros [? ?]. unfold bmp512_unset. case_match; split; cbn [high256 low256];
    auto using bmp256_unset_wf.
Qed.

Lemma bmp512_set_bit b i j :
  bmp512_wf b → 0 <= i < 512 → 0 <= j < 512 →
  bmp512_bit (bmp512_set b i) j = (i =? j) || bmp512_bit b j.
Proof.
  intros [Hh Hl] Hi Hj. unfold bmp512_bit, bmp512_set, u8.
  destruct (Z.leb_spec 256 i), (Z.leb_spec 256 j); cbn [high256 low256].
  - rewrite wrap_small, bmp256_set_bit by (done || lia).
    f_equal. destruct (Z.eqb_spec i j), (Z.eqb_spec (i - 256) (j - 256)); lia.
  - destruct (Z.eqb_spec i j); [lia|done].
  - destruct (Z.eqb_spec i j); [lia|done].
  - by rewrite wrap_small, bmp256_set_bit by (done || lia).
Qed.
Lemma bmp512_set_wf b i : 0 <= i < 512 → bmp512_wf b → bmp512_wf (bmp512_set b i).
Proof.
  intros Hi [? ?]. unfold bmp512_set, u8. destruct (Z.leb_spec 256 i); split; cbn [high256 low256]; try done;
    apply bmp256_set_wf; rewrite ?wrap_small; done || lia.
Qed.
Lemma bmp512_set_all_bit b i : 0 <= i < 512 → bmp512_bit (bmp512_set_all b) i = true.
Proof.
  intros Hi. unfold bmp512_bit, bmp512_set_all. cbn [high256 low256].
  destruct (Z.leb_spec 256 i); apply bmp256_set_all_bit; lia.
Qed.
Lemma bmp512_set_all_wf b : bmp512_wf (bmp512_set_all b).
Proof. split; apply bmp256_set_all_wf. Qed.

Lemma bmp512_ffs_spec b :
  bmp512_wf b →
  (bmp512_ffs b = -1 ∧ ∀ i, 0 <= i < 512 → bmp512_bit b i = false) ∨
  (0 <= bmp512_ffs b < 512 ∧ bmp512_bit b (bmp512_ffs b) = true ∧
   ∀ i, 0 <= i < bmp512_ffs b → bmp512_bit b i = false).
Proof.
  intros [Hh Hl]. unfold bmp512_ffs, bmp512_bit.
  destruct (bmp256_ffs_spec _ Hl) as [[-> El]|(Bl & Tl & Al)].
  - simpl negb. cbv iota.
    destruct (bmp256_ffs_spec _ Hh) as [[-> Eh]|(Bh & Th & Ah)].
    + left. split; [done|]. intros i Hi. destruct (Z.leb_spec 256 i); [apply Eh|apply El]; lia.
    + right. rewrite (proj2 (Z.eqb_neq (bmp256_ffs (high256 b)) (-1))) by lia.
      split; [lia|].
      rewrite (proj2 (Z.leb_le 256 (bmp256_ffs (high256 b) + 256))) by lia. split.
      * rewrite <- Th. f_equal. lia.
      * intros i Hi. destruct (Z.leb_spec 256 i); [apply Ah|apply El]; lia.
  - right. rewrite (proj2 (Z.eqb_neq (bmp256_ffs (low256 b)) (-1))) by lia.
    simpl negb. cbv iota.
    split; [lia|].
    rewrite (proj2 (Z.leb_gt 256 (bmp256_ffs (low256 b)))) by lia. split; [done|].
    intros i Hi. rewrite (proj2 (Z.leb_gt 256 i)) by lia. by apply Al.
Qed.

(** The loop stops within its fuel: the lowest bit left grows in every round.
    A result other than -1 is the first of two adjacent members. *)
Lemma bmp512_ffs2_loop_spec fuel lo b tmp :
  bmp512_wf tmp → 0 <= lo <= 512 → 512 - lo < Z.of_nat fuel →
  (∀ i, 0 <= i < 512 → bmp512_bit tmp i = true → bmp512_bit b i = true) →
  (∀ i, 0 <= i < lo → i < 512 → bmp512_bit tmp i = false) →
  ∃ r, bmp512_ffs2_loop fuel tmp = Ok r ∧
    (r = -1 ∨ 0 <= r < 511 ∧ bmp512_bit b r = true ∧ bmp512_bit b (r + 1) = true).
Proof.
  revert lo tmp. induction fuel as [|fuel IH]; intros lo tmp Hwf Hlo Hf Hsub Hz; [lia|].
  cbn [bmp512_ffs2_loop].
  destruct (bmp512_ffs_spec tmp Hwf) as [[-> _]|(B & T & A)]; [eauto|].
  rewrite (proj2 (Z.eqb_neq (bmp512_ffs tmp) (-1))) by lia.
  set (bit := bmp512_ffs tmp) in *. set (tmp1 := bmp512_unset tmp bit).
  assert (bmp512_wf tmp1) as Hwf1 by (by apply bmp512_unset_wf).
  assert (∀ j, 0 <= j < 512 → bmp512_bit tmp1 j = negb (bit =? j) && bmp512_bit tmp j)
    as Hb1 by (intros; by apply bmp512_unset_bit).
  destruct (bmp512_ffs_spec tmp1 Hwf1) as [[-> _]|(B1 & T1 & A1)]; [eauto|].
  rewrite (proj2 (Z.eqb_neq (bmp512_ffs tmp1) (-1))) by lia.
  set (next := bmp512_ffs tmp1) in *.
  rewrite Hb1 in T1 by lia. apply andb_true_iff in T1 as [T1 T1'].
  apply negb_true_iff, Z.eqb_neq in T1.
  destruct (Z.eqb_spec next (bit + 1)) as [E|E].
  - exists bit. split; [done|]. right. rewrite <- E. split; [lia|]. split; auto.
  - assert (lo <= bit).
    { destruct (Z.leb_spec lo bit); [done|]. rewrite Hz in T by lia. done. }
    assert (bit < next).
    { destruct (Z.ltb_spec bit next); [done|]. rewrite A in T1' by lia. done. }
    apply (IH (next + 1)); [by apply bmp512_unset_wf|lia|lia| |].
    + intros i Hi. rewrite bmp512_unset_bit, Hb1 by (done || lia).
      intros Hx. apply Hsub; [done|]. by repeat (apply andb_true_iff in Hx as [_ Hx]).
    + intros i Hi Hi'. rewrite bmp512_unset_bit by (done || lia).
      destruct (Z.eqb_spec next i); [done|]. simpl negb. rewrite andb_true_l.
      apply A1. lia.
Qed.

(** ** Sets of small numbers *)

Lemma bmp256_unset_all_above_bit b i j :
  bmp256_wf b → 0 <= i < 256 → 0 <= j < 256 →
  bmp256_bit (bmp256_unset_all_above b i) j = bmp256_bit b j && (j <=? i).
Proof.
  intros Hb Hi Hj. destruct (bit_index i Hi), (bit_index j Hj).
  pose proof (Z.div_mod i 64 ltac:(lia)). pose proof (Z.div_mod j 64 ltac:(lia)).
  unfold bmp256_bit, bmp256_unset_all_above. cbv zeta.
  set (m := if i mod 64 =? 63 then cnot 64 0 else u64 (Z.shiftl 1 (i mod 64 + 1)) - 1).
  assert (∀ k, 0 <= k < 64 → Z.testbit m k = (k <=? i mod 64)) as Hm.
  { intros k Hk. assert (m = Z.ones (i mod 64 + 1)) as ->.
    { unfold m. rewrite Z.ones_equiv. destruct (Z.eqb_spec (i mod 64) 63) as [->|]; [done|].
      rewrite shiftl_1 by lia. unfold u64. rewrite wrap_small; [done|]. apply pow2_word; lia. }
    destruct (Z.leb_spec k (i mod 64)); [apply Z.ones_spec_low|apply Z.ones_spec_high]; lia. }
  set (b1 := bmp_upd b (i / 64) _). set (b2 := if i / 64 <? 3 then bmp_upd b1 3 0 else b1).
  set (b3 := if i / 64 <? 2 then bmp_upd b2 2 0 else b2).
  assert (bmp_get (if i / 64 <? 1 then bmp_upd b3 1 0 else b3) (j / 64) =
    if i / 64 <? j / 64 then 0 else bmp_get b1 (j / 64)) as ->.
  { unfold b3, b2. destruct (Z.ltb_spec (i / 64) 1), (Z.ltb_spec (i / 64) 2), (Z.ltb_spec (i / 64) 3);
      try lia; destruct (Z.ltb_spec (i / 64) (j / 64)); rewrite ?bmp_get_upd by lia;
      repeat match goal with |- context [?x =? ?y] => destruct (Z.eqb_spec x y) end; done || lia. }
  destruct (Z.ltb_spec (i / 64) (j / 64)).
  - rewrite Z.bits_0, (proj2 (Z.leb_gt j i)) by lia. by rewrite andb_false_r.
  - unfold b1. rewrite bmp_get_upd by lia. destruct (Z.eqb_spec (i / 64) (j / 64)) as [E|].
    + rewrite Z.land_spec, Hm, E by lia. f_equal.
      destruct (Z.leb_spec (j mod 64) (i mod 64)), (Z.leb_spec j i); lia || done.
    + rewrite (proj2 (Z.leb_le j i)) by lia. by rewrite andb_true_r.
Qed.

(** The members of a bitmap. *)
Definition members (b : bmp256) : gset Z :=
  list_to_set (filter (fun i => bmp256_bit b i = true) (seqZ 0 256)).

Lemma elem_members b i : i ∈ members b ↔ 0 <= i < 256 ∧ bmp256_bit b i = true.
Proof.
  unfold members. rewrite elem_of_list_to_set, list_elem_of_filter, elem_of_seqZ. intuition lia.
Qed.

Lemma members_scan b : bmp256_wf b →
  if decide (members b = ∅) then bmp256_ffs b = -1 ∧ bmp256_fls b = -1
  else bmp256_ffs b ∈ members b ∧ bmp256_fls b ∈ members b ∧
       ∀ j, j ∈ members b → bmp256_ffs b <= j <= bmp256_fls b.
Proof.
  intros Hb.
  destruct (decide (members b = ∅)) as [E|E].
  + assert (∀ j, 0 <= j < 256 → bmp256_bit b j = true → False) as Hno.
    { intros j Hj Hbit. apply (not_elem_of_empty (C := gset Z) j). rewrite <- E. by apply elem_members. }
    split; [destruct (bmp256_ffs_spec b Hb) as [[? _]|(? & ? & _)]
           |destruct (bmp256_fls_spec b Hb) as [[? _]|(? & ? & _)]]; first [done|exfalso; eauto].
  + apply set_choose_L in E as [x Hx%elem_members]. destruct Hx as [Hx Hbx].
    destruct (bmp256_ffs_spec b Hb) as [[_ Hn]|(B1 & T1 & A1)]; [by rewrite Hn in Hbx by lia|].
    destruct (bmp256_fls_spec b Hb) as [[_ Hn]|(B2 & T2 & A2)]; [by rewrite Hn in Hbx by lia|].
    rewrite !elem_members. split_and!; try lia; try done. intros j [Hj E]%elem_members. split.
    * destruct (Z.leb_spec (bmp256_ffs b) j); [done|]. rewrite A1 in E by lia. done.
    * destruct (Z.leb_spec j (bmp256_fls b)); [done|]. rewrite A2 in E by lia. done.
Qed.

(** C37.  The 256-bit maps are finite sets: setting, clearing, clearing above a
    bit, intersection and union of the words are the operations on the sets
    of their members, the test is membership, and the scans over the four
    words return the least and the greatest member, or -1 for the empty set. *)
Theorem bmp256_implements_sets b c i :
  bmp256_wf b → bmp256_wf c → 0 <= i < 256 →
  members (bmp256_set b i) = {[i]} ∪ members b ∧
  members (bmp256_unset b i) = members b ∖ {[i]} ∧
  members (bmp256_unset_all_above b i) = filter (fun j => j <= i) (members b) ∧
  members (bmp256_and b c) = members b ∩ members c ∧
  members (bmp256_or b c) = members b ∪ members c ∧
  bmp256_test b i = bool_decide (i ∈ members b) ∧
  (if decide (members b = ∅) then bmp256_ffs b = -1 ∧ bmp256_fls b = -1
   else bmp256_ffs b ∈ members b ∧ bmp256_fls b ∈ members b ∧
        ∀ j, j ∈ members b → bmp256_ffs b <= j <= bmp256_fls b).
Proof.
  intros Hb Hc Hi. split_and!.
  - apply set_eq. intros j. rewrite elem_of_union, elem_of_singleton, !elem_members.
    split; [intros [Hj E]|intros [-> |[Hj E]]; (split; [done|])].
    + rewrite bmp256_set_bit in E by done. destruct (Z.eqb_spec i j); [by left|by right].
    + by rewrite bmp256_set_bit, Z.eqb_refl.
    + by rewrite bmp256_set_bit, E, orb_true_r.
  - apply set_eq. intros j. rewrite elem_of_difference, elem_of_singleton, !elem_members.
    split; [intros [Hj E]|intros [[Hj E] Hn]; (split; [done|])].
    + rewrite bmp256_unset_bit in E by done. apply andb_true_iff in E as [E1 E2].
      apply negb_true_iff, Z.eqb_neq in E1. split; [done|congruence].
    + rewrite bmp256_unset_bit, E by done. destruct (Z.eqb_spec i j); [congruence|done].
  - apply set_eq. intros j. rewrite elem_of_filter, !elem_members.
    split; [intros [Hj E]|intros [Hl [Hj E]]; (split; [done|])].
    + rewrite bmp256_unset_all_above_bit in E by done. apply andb_true_iff in E as [E1 E2].
      apply Z.leb_le in E2. done.
    + rewrite bmp256_unset_all_above_bit, E by done. by apply Z.leb_le.
  - apply set_eq. intros j. rewrite elem_of_intersection, !elem_members, bmp256_and_bit.
    rewrite andb_true_iff. tauto.
  - apply set_eq. intros j. rewrite elem_of_union, !elem_members, bmp256_or_bit.
    rewrite orb_true_iff. tauto.
  - rewrite bmp256_test_bit. apply eq_true_iff_eq. rewrite bool_decide_eq_true, elem_members. tauto.
  - by apply members_scan.
Qed.

Lemma bmp256_implements_sets_witness :
  members (bmp256_set bmp_empty 200) = {[200]} ∪ members bmp_empty ∧
  bmp256_fls (bmp256_set bmp_empty 200) = 200.
Proof.
  destruct (bmp256_implements_sets bmp_empty bmp_empty 200 bmp_empty_wf bmp_empty_wf ltac:(lia))
    as [H _]. split; [exact H|reflexivity].
Defined.

(** The search for two adjacent free bits always ends within the 512
    bits, and a bit it returns is set together with the next one; but it can
    miss a pair: the bits 1, 3 and 4 are looked at as (1, 3) and then 4 is
    left alone. *)
Theorem bmp512_ffs2_sound b :
  bmp512_wf b →
  (∃ r, bmp512_ffs2 b = Ok r ∧
    (r = -1 ∨ 0 <= r < 511 ∧ bmp512_bit b r = true ∧ bmp512_bit b (r + 1) = true)) ∧
  let missed := bmp512_set (bmp512_set2 (Bmp512 bmp_empty bmp_empty) 3) 1 in
  bmp512_bit missed 3 = true ∧ bmp512_bit missed 4 = true ∧ bmp512_ffs2 missed = Ok (-1).
Proof.
  intros Hb. split; [|by vm_compute].
  apply (bmp512_ffs2_loop_spec 513 0); [done|lia|lia|done|lia].
Qed.

Lemma bmp512_ffs2_sound_witness :
  ∃ r, bmp512_ffs2 (Bmp512 bmp_empty bmp_empty) = Ok r.
Proof.
  destruct (bmp512_ffs2_sound (Bmp512 bmp_empty bmp_empty)) as [(r & E & _) _].
  - split; apply bmp_empty_wf.
  - exists r. exact E.
Defined.
