(* ===== verification/Dq.v ===== *)
(** * Dq: the intrusive doubly linked queue of include/lib/dsa/dq.h

    The nodes ([struct list_double]) live in a heap: a finite map from node
    addresses to their [next]/[prev] pointers.  Addresses are a parameter, so
    that a component can use the address of the member that embeds the node
    (the task and the index in its [nodes] array, for example) and
    [container_of] becomes a projection.  Every operation writes the same
    fields in the same order as the C code and faults on a NULL or dangling
    dereference.

    [dq_rep h d l] says that the queue [d] in the heap [h] holds exactly the
    nodes [l], front first.  Each operation refines the corresponding list
    operation and touches no other node ([heap_frame]). *)

From S2P Require Import Prelude.
From Stdlib Require Import Lia Bool.
From stdpp Require Import base gmap list.

(** [struct list_double]; NULL is [None] *)
Record lnode (A : Type) := LNode { next : option A; prev : option A }.
Arguments LNode {A} next prev.
Arguments next {A} l.
Arguments prev {A} l.

(** [struct dq] *)
Record dq (A : Type) := Dq { front : option A; rear : option A }.
Arguments Dq {A} front rear.
Arguments front {A} d.
Arguments rear {A} d.

Definition dq_init {A} : dq A := Dq None None.

Section Dq.
Context {A : Type} `{Countable A}.

Abbreviation heap := (gmap A (lnode A)).

Definition load (h : heap) (n : A) : res (lnode A) :=
  match h !! n with Some nd => Ok nd | None => Fault FDangling end.
Definition set_next (h : heap) (n : A) (v : option A) : res heap :=
  let* nd := load h n in Ok (<[n := LNode v (prev nd)]> h).
Definition set_prev (h : heap) (n : A) (v : option A) : res heap :=
  let* nd := load h n in Ok (<[n := LNode (next nd) v]> h).

Definition dq_pushfront (h : heap) (d : dq A) (node : A) : res (heap * dq A) :=
  let* h := set_prev h node None in
  let* h := set_next h node (front d) in
  let d := Dq (Some node) (rear d) in
  let* nd := load h node in
  match next nd with
  | Some m => let* h := set_prev h m (Some node) in Ok (h, d)
  | None => Ok (h, Dq (front d) (Some node))
  end.

Definition dq_pushback (h : heap) (d : dq A) (node : A) : res (heap * dq A) :=
  let* h := set_next h node None in
  let* h := set_prev h node (rear d) in
  let d := Dq (front d) (Some node) in
  let* nd := load h node in
  match prev nd with
  | Some m => let* h := set_next h m (Some node) in Ok (h, d)
  | None => Ok (h, Dq (Some node) (rear d))
  end.

Definition dq_push (h : heap) (d : dq A) (node : A) (pushfront : bool)
  : res (heap * dq A) :=
  if pushfront then dq_pushfront h d node else dq_pushback h d node.

Definition dq_dequeue (h : heap) (d : dq A) (node : A) : res (heap * dq A) :=
  let* nd := load h node in
  let* hd :=
    match next nd with
    | Some m => let* h := set_prev h m (prev nd) in Ok (h, d)
    | None => Ok (h, Dq (front d) (prev nd))
    end in
  let '(h, d) := hd in
  let* nd := load h node in
  let* hd :=
    match prev nd with
    | Some m => let* h := set_next h m (next nd) in Ok (h, d)
    | None => Ok (h, Dq (next nd) (rear d))
    end in
  let '(h, d) := hd in
  let* h := set_next h node None in
  let* h := set_prev h node None in
  Ok (h, d).

Definition dq_peekfront (d : dq A) : option A := front d.

Definition dq_popfront (h : heap) (d : dq A) : res (option A * heap * dq A) :=
  match front d with
  | None => Ok (None, h, d)
  | Some node =>
      let* nd := load h node in
      let d := Dq (next nd) (rear d) in
      let* hd :=
        match front d with
        | Some m => let* h := set_prev h m None in Ok (h, d)
        | None => Ok (h, Dq (front d) None)
        end in
      let '(h, d) := hd in
      let* h := set_prev h node None in
      let* h := set_next h node None in
      Ok (Some node, h, d)
  end.

Definition dq_insert (h : heap) (d : dq A) (node : A) (pv nx : option A)
  : res (heap * dq A) :=
  let* h := set_prev h node pv in
  let* h := set_next h node nx in
  let* hd :=
    match nx with
    | Some m => let* h := set_prev h m (Some node) in Ok (h, d)
    | None => Ok (h, Dq (front d) (Some node))
    end in
  let '(h, d) := hd in
  match pv with
  | Some m => let* h := set_next h m (Some node) in Ok (h, d)
  | None => Ok (h, Dq (Some node) (rear d))
  end.

Definition is_some {B} (o : option B) : bool :=
  match o with Some _ => true | None => false end.

Definition dq_is_queued (h : heap) (d : dq A) (node : A) : res bool :=
  let* nd := load h node in
  Ok (is_some (prev nd) || is_some (next nd) ||
      bool_decide (front d = Some node)).

Definition dq_is_empty (d : dq A) : bool := negb (is_some (front d)).

(** [dq_clear] walks from the front; the walk visits each node once, so the
    number of nodes is enough fuel. *)
Fixpoint dq_clear_loop (fuel : nat) (h : heap) (cur : option A) : res heap :=
  match cur with
  | None => Ok h
  | Some n =>
      match fuel with
      | O => Fault FFuel
      | S fuel =>
          let* nd := load h n in
          let* h := set_prev h n None in
          let* h := set_next h n None in
          dq_clear_loop fuel h (next nd)
      end
  end.
Definition dq_clear (h : heap) (d : dq A) : res (heap * dq A) :=
  let* h := dq_clear_loop (size h) h (front d) in
  Ok (h, Dq None None).

(** ** Linked segments *)

Definition hd_or (l : list A) (o : option A) : option A :=
  match l with [] => o | x :: _ => Some x end.
Definition last_or (o : option A) (l : list A) : option A :=
  match last l with Some x => Some x | None => o end.

(** [linked h pv l nx]: the nodes [l] are chained in [h]; the first one's
    [prev] is [pv] and the last one's [next] is [nx]. *)
Fixpoint linked (h : heap) (pv : option A) (l : list A) (nx : option A) : Prop :=
  match l with
  | [] => True
  | n :: l' => h !! n = Some (LNode (hd_or l' nx) pv) ∧ linked h (Some n) l' nx
  end.

Record dq_rep (h : heap) (d : dq A) (l : list A) : Prop := {
  rep_nodup : NoDup l;
  rep_linked : linked h None l None;
  rep_front : front d = hd_or l None;
  rep_rear : rear d = last_or None l;
}.

(** A node in no queue has NULL pointers. *)
Definition detached (h : heap) (n : A) : Prop := h !! n = Some (LNode None None).

(** [h'] differs from [h] at most on [l], and allocates and frees nothing. *)
Definition heap_frame (h h' : heap) (l : list A) : Prop :=
  (∀ m, m ∉ l → h' !! m = h !! m) ∧ (∀ m, is_Some (h' !! m) ↔ is_Some (h !! m)).

Lemma last_or_app o l1 l2 : last_or o (l1 ++ l2) = last_or (last_or o l1) l2.
Proof.
  unfold last_or. rewrite last_app. by destruct (last l2).
Qed.

Lemma last_or_cons o x l : last_or o (x :: l) = last_or (Some x) l.
Proof. exact (last_or_app o [x] l). Qed.

Lemma last_or_snoc o l x : last_or o (l ++ [x]) = Some x.
Proof. unfold last_or. by rewrite last_snoc. Qed.

Lemma hd_or_app l1 l2 o : hd_or (l1 ++ l2) o = hd_or l1 (hd_or l2 o).
Proof. by destruct l1. Qed.

Lemma linked_app h pv l1 l2 nx :
  linked h pv (l1 ++ l2) nx ↔
  linked h pv l1 (hd_or l2 nx) ∧ linked h (last_or pv l1) l2 nx.
Proof.
  revert pv. induction l1 as [|x l1 IH]; intros pv; simpl; [naive_solver|].
  rewrite IH, hd_or_app, last_or_cons. naive_solver.
Qed.

Lemma linked_frame h h' pv l nx :
  (∀ m, m ∈ l → h' !! m = h !! m) → linked h pv l nx → linked h' pv l nx.
Proof.
  revert pv. induction l as [|x l IH]; intros pv Hf; simpl; [done|].
  intros [Hx Hl]. split; [rewrite Hf; [done|left]|].
  apply IH; [|done]. intros m Hm. apply Hf. by right.
Qed.

Lemma linked_lookup h pv l nx n :
  linked h pv l nx → n ∈ l → is_Some (h !! n).
Proof.
  revert pv. induction l as [|x l IH]; intros pv; simpl; [by intros ? ?%elem_of_nil|].
  intros [Hx Hl] [->|Hn]%elem_of_cons; eauto.
Qed.

(** Redirecting the outer pointers of a segment. *)
Lemma linked_set_prev h x l nx pv nd :
  NoDup (x :: l) → linked h pv (x :: l) nx → h !! x = Some nd →
  ∀ pv', linked (<[x := LNode (next nd) pv']> h) pv' (x :: l) nx.
Proof.
  intros Hnd [Hx Hl] Hx' pv'. apply list.NoDup_cons in Hnd as [Hnx _].
  rewrite Hx in Hx'. injection Hx' as <-. simpl. split.
  - by rewrite lookup_insert_eq.
  - eapply linked_frame; [|done]. intros m Hm.
    apply lookup_insert_ne. naive_solver.
Qed.

Lemma linked_set_next h l x pv nx nd :
  NoDup (l ++ [x]) → linked h pv (l ++ [x]) nx → h !! x = Some nd →
  ∀ nx', linked (<[x := LNode nx' (prev nd)]> h) pv (l ++ [x]) nx'.
Proof.
  intros Hnd Hl Hx' nx'. apply linked_app in Hl as [Hl [Hx _]].
  rewrite Hx in Hx'. injection Hx' as <-. apply linked_app. simpl. split_and!.
  - eapply linked_frame; [|done]. intros m Hm. apply lookup_insert_ne.
    apply list.NoDup_app in Hnd as (_ & Hd & _). intros ->. apply (Hd m Hm). left.
  - by rewrite lookup_insert_eq.
  - done.
Qed.

Lemma heap_frame_refl h l : heap_frame h h l.
Proof. done. Qed.

Lemma heap_frame_trans h1 h2 h3 l :
  heap_frame h1 h2 l → heap_frame h2 h3 l → heap_frame h1 h3 l.
Proof. unfold heap_frame. naive_solver congruence. Qed.

Lemma heap_frame_mono h1 h2 l l' :
  heap_frame h1 h2 l → l ⊆ l' → heap_frame h1 h2 l'.
Proof. intros [H1 H2] Hs. split; [|done]. intros m Hm. apply H1. set_solver. Qed.

Lemma heap_frame_insert h n nd nd' l :
  h !! n = Some nd → n ∈ l → heap_frame h (<[n := nd']> h) l.
Proof.
  intros Hn Hl. split; intros m.
  - intros Hm. apply lookup_insert_ne. naive_solver.
  - destruct (decide (n = m)) as [->|].
    + rewrite lookup_insert_eq, Hn. naive_solver.
    + by rewrite lookup_insert_ne.
Qed.

(** A queue none of whose nodes is touched is unchanged. *)
Lemma dq_rep_frame h h' d l l' :
  dq_rep h d l → heap_frame h h' l' → (∀ m, m ∈ l → m ∉ l') → dq_rep h' d l.
Proof.
  intros [Hn Hl Hf Hr] [Hfr _] Hd. split; [done| |done|done].
  eapply linked_frame; [|done]. auto.
Qed.

Lemma detached_frame h h' n l :
  detached h n → heap_frame h h' l → n ∉ l → detached h' n.
Proof. intros Hd [Hf _] Hn. unfold detached. by rewrite Hf. Qed.

Lemma dq_rep_detached_notin h d l n :
  dq_rep h d l → detached h n → n ∈ l → l = [n].
Proof.
  intros [Hnd Hl _ _] Hd Hin. apply list_elem_of_split in Hin as (l1 & l2 & ->).
  apply linked_app in Hl as [Hl1 [Hn _]]. rewrite Hd in Hn.
  injection Hn as H2 H1. destruct l2; [|done].
  destruct (decide (l1 = [])) as [->|Hne]; [done|].
  apply last_is_Some in Hne as [x Hx]. unfold last_or in H1. by rewrite Hx in H1.
Qed.

(** ** The primitive steps on a mapped node *)

Lemma load_ok h n nd : h !! n = Some nd → load h n = Ok nd.
Proof. unfold load. by intros ->. Qed.

Lemma set_next_ok h n nd v :
  h !! n = Some nd → set_next h n v = Ok (<[n := LNode v (prev nd)]> h).
Proof. unfold set_next, load. by intros ->. Qed.

Lemma set_prev_ok h n nd v :
  h !! n = Some nd → set_prev h n v = Ok (<[n := LNode (next nd) v]> h).
Proof. unfold set_prev, load. by intros ->. Qed.

(** Setting both pointers of a node, in either order, writes the node. *)
Lemma set_both_next_prev h n nd v w :
  h !! n = Some nd →
  (let* h := set_next h n v in set_prev h n w) = Ok (<[n := LNode v w]> h).
Proof.
  intros Hn. rewrite (set_next_ok h n nd) by done. simpl rbind.
  rewrite (set_prev_ok _ n (LNode v (prev nd))) by apply lookup_insert_eq.
  by rewrite insert_insert_eq.
Qed.

Lemma set_both_prev_next h n nd v w :
  h !! n = Some nd →
  (let* h := set_prev h n w in set_next h n v) = Ok (<[n := LNode v w]> h).
Proof.
  intros Hn. rewrite (set_prev_ok h n nd) by done. simpl rbind.
  rewrite (set_next_ok _ n (LNode (next nd) w)) by apply lookup_insert_eq.
  by rewrite insert_insert_eq.
Qed.

(** ** Refinement of the list operations *)

Lemma rep_cons_lookup h d n l :
  dq_rep h d (n :: l) → h !! n = Some (LNode (hd_or l None) None).
Proof. by intros [_ [Hn _] _ _]. Qed.

(** Inserting a fresh node between two halves of a queue. *)
Lemma dq_insert_spec h d l1 l2 n :
  dq_rep h d (l1 ++ l2) → is_Some (h !! n) → n ∉ l1 ++ l2 →
  ∃ h' d', dq_insert h d n (last_or None l1) (hd_or l2 None) = Ok (h', d') ∧
    dq_rep h' d' (l1 ++ n :: l2) ∧ heap_frame h h' (n :: l1 ++ l2).
Proof.
  intros [Hnd Hl Hf Hr] [nd Hn] Hnin.
  apply linked_app in Hl as [Hl1 Hl2].
  apply list.NoDup_app in Hnd as (Hnd1 & Hdis & Hnd2).
  set (pv := last_or None l1) in *. set (nx := hd_or l2 None) in *.
  set (h1 := <[n := LNode nx pv]> h).
  assert (heap_frame h h1 [n]) as Hfr1.
  { eapply heap_frame_insert; [done|left]. }
  assert (linked h1 None l1 nx) as Hl1'.
  { eapply linked_frame; [|done]. intros m Hm. apply (proj1 Hfr1). set_solver. }
  assert (linked h1 pv l2 None) as Hl2'.
  { eapply linked_frame; [|done]. intros m Hm. apply (proj1 Hfr1). set_solver. }
  (* next->prev = node *)
  assert (∃ h2 d2, match nx with
            | Some m => let* h := set_prev h1 m (Some n) in Ok (h, d)
            | None => Ok (h1, Dq (front d) (Some n)) end = Ok (h2, d2) ∧
          linked h2 (Some n) l2 None ∧ heap_frame h1 h2 l2 ∧
          front d2 = front d ∧ rear d2 = last_or (Some n) l2)
    as (h2 & d2 & E2 & Hl2'' & Hfr2 & Hf2 & Hr2).
  { subst nx. destruct l2 as [|x l2]; simpl hd_or; cbv iota.
    - eexists _, _. split; [done|]. split_and!; done.
    - destruct (h1 !! x) as [xd|] eqn:Hx; [|destruct Hl2'; congruence].
      rewrite (set_prev_ok _ _ xd) by done. simpl rbind.
      eexists _, _. split; [done|]. split; [by eapply linked_set_prev|].
      split; [eapply heap_frame_insert; [done|left]|]. split; [done|].
      rewrite Hr, last_or_app, !last_or_cons. done. }
  assert (linked h2 None l1 nx) as Hl1''.
  { eapply linked_frame; [|done]. intros m Hm. apply (proj1 Hfr2). set_solver. }
  assert (h2 !! n = Some (LNode nx pv)) as Hn2.
  { rewrite (proj1 Hfr2) by set_solver. apply lookup_insert_eq. }
  (* prev->next = node *)
  assert (∃ h3 d3, match pv with
            | Some m => let* h := set_next h2 m (Some n) in Ok (h, d2)
            | None => Ok (h2, Dq (Some n) (rear d2)) end = Ok (h3, d3) ∧
          linked h3 None l1 (Some n) ∧ heap_frame h2 h3 l1 ∧
          front d3 = hd_or l1 (Some n) ∧ rear d3 = rear d2)
    as (h3 & d3 & E3 & Hl1''' & Hfr3 & Hf3 & Hr3).
  { subst pv. destruct l1 as [|x l1 _] using rev_ind.
    - cbv iota. eexists _, _. split; [done|]. split_and!; done.
    - rewrite last_or_snoc. destruct (h2 !! x) as [xd|] eqn:Hx.
      2:{ apply linked_app in Hl1'' as [_ [? _]]. congruence. }
      rewrite (set_next_ok _ _ xd) by done. simpl rbind.
      eexists _, _. split; [done|]. split; [by eapply linked_set_next|].
      split; [eapply heap_frame_insert; [done|set_solver]|].
      split; [|done]. rewrite Hf2, Hf, !hd_or_app. by destruct l1. }
  exists h3, d3. unfold dq_insert.
  rewrite (set_prev_ok h n nd) by done. simpl rbind.
  rewrite (set_next_ok _ n (LNode (next nd) pv)) by apply lookup_insert_eq.
  simpl rbind. rewrite insert_insert_eq. fold h1.
  rewrite E2. simpl rbind. rewrite E3. split; [done|]. split.
  - split.
    + apply list.NoDup_app. split; [done|]. split; [set_solver|].
      apply list.NoDup_cons. split; [set_solver|done].
    + apply linked_app. split; [done|]. simpl. split.
      * rewrite (proj1 Hfr3) by set_solver. done.
      * eapply linked_frame; [|done]. intros m Hm. apply (proj1 Hfr3). set_solver.
    + rewrite Hf3, hd_or_app. done.
    + rewrite Hr3, Hr2, last_or_app, last_or_cons. done.
  - eapply heap_frame_trans; [eapply heap_frame_mono; [done|set_solver]|].
    eapply heap_frame_trans; eapply heap_frame_mono; try done; set_solver.
Qed.

(** The two pushes are insertions at the ends. *)
Lemma dq_pushfront_insert h d n :
  is_Some (h !! n) → dq_pushfront h d n = dq_insert h d n None (front d).
Proof.
  intros [nd Hn]. unfold dq_pushfront, dq_insert.
  rewrite (set_prev_ok h n nd) by done. simpl rbind.
  rewrite (set_next_ok _ n (LNode (next nd) None)) by apply lookup_insert_eq.
  simpl rbind. rewrite (load_ok _ n (LNode (front d) None)) by apply lookup_insert_eq.
  simpl. destruct (front d) as [m|]; simpl; [|done].
  by destruct (set_prev _ m (Some n)).
Qed.

Lemma dq_pushback_insert h d n :
  is_Some (h !! n) → dq_pushback h d n = dq_insert h d n (rear d) None.
Proof.
  intros [nd Hn]. unfold dq_pushback, dq_insert.
  rewrite (set_next_ok h n nd), (set_prev_ok h n nd) by done. simpl rbind.
  rewrite (set_prev_ok _ n (LNode None (prev nd))) by apply lookup_insert_eq.
  rewrite (set_next_ok _ n (LNode (next nd) (rear d))) by apply lookup_insert_eq.
  simpl rbind. rewrite !insert_insert_eq.
  rewrite (load_ok _ n (LNode None (rear d))) by apply lookup_insert_eq.
  simpl. destruct (rear d) as [m|]; simpl; [|done].
  by destruct (set_next _ m (Some n)).
Qed.

Lemma dq_pushfront_spec h d l n :
  dq_rep h d l → is_Some (h !! n) → n ∉ l →
  ∃ h' d', dq_pushfront h d n = Ok (h', d') ∧
    dq_rep h' d' (n :: l) ∧ heap_frame h h' (n :: l).
Proof.
  intros Hrep Hn Hnin. rewrite dq_pushfront_insert, (rep_front _ _ _ Hrep) by done.
  by apply (dq_insert_spec h d [] l n).
Qed.

Lemma dq_pushback_spec h d l n :
  dq_rep h d l → is_Some (h !! n) → n ∉ l →
  ∃ h' d', dq_pushback h d n = Ok (h', d') ∧
    dq_rep h' d' (l ++ [n]) ∧ heap_frame h h' (n :: l).
Proof.
  intros Hrep Hn Hnin. rewrite dq_pushback_insert, (rep_rear _ _ _ Hrep) by done.
  rewrite <- (app_nil_r l) in Hrep, Hnin.
  destruct (dq_insert_spec h d l [] n Hrep Hn Hnin) as (h' & d' & ? & ? & Hfr).
  rewrite app_nil_r in Hfr. eauto.
Qed.

Lemma dq_push_spec h d l n (pushfront : bool) :
  dq_rep h d l → is_Some (h !! n) → n ∉ l →
  ∃ h' d', dq_push h d n pushfront = Ok (h', d') ∧
    dq_rep h' d' (if pushfront then n :: l else l ++ [n]) ∧
    heap_frame h h' (n :: l).
Proof.
  destruct pushfront; [apply dq_pushfront_spec|apply dq_pushback_spec].
Qed.

Lemma last_or_mid_neq n l1 l2 m :
  NoDup (l1 ++ n :: l2) → last_or None l1 = Some m → m ≠ n ∧ m ∈ l1.
Proof.
  intros Hnd Hm. destruct l1 as [|x l1 _] using rev_ind; [done|].
  rewrite last_or_snoc in Hm. injection Hm as ->.
  apply list.NoDup_app in Hnd as (_ & Hd & _). split; [|set_solver].
  intros ->. apply (Hd n); set_solver.
Qed.

Lemma dq_dequeue_spec h d l1 l2 n :
  dq_rep h d (l1 ++ n :: l2) →
  ∃ h' d', dq_dequeue h d n = Ok (h', d') ∧
    dq_rep h' d' (l1 ++ l2) ∧ detached h' n ∧ heap_frame h h' (l1 ++ n :: l2).
Proof.
  intros [Hnd Hl Hf Hr]. pose proof Hnd as Hnd0.
  apply linked_app in Hl as [Hl1 [Hn Hl2]]. simpl hd_or in Hl1.
  apply list.NoDup_app in Hnd as (Hnd1 & Hdis & Hnd2).
  apply list.NoDup_cons in Hnd2 as [Hnl2 Hnd2].
  assert (n ∉ l1) as Hnl1 by (intros Hi; apply (Hdis n Hi); left).
  set (pv := last_or None l1) in *. set (nx := hd_or l2 None) in *.
  (* node->next->prev = node->prev *)
  assert (∃ h1 d1, match nx with
            | Some m => let* h := set_prev h m pv in Ok (h, d)
            | None => Ok (h, Dq (front d) pv) end = Ok (h1, d1) ∧
          linked h1 pv l2 None ∧ heap_frame h h1 l2 ∧
          front d1 = front d ∧ rear d1 = last_or pv l2)
    as (h1 & d1 & E1 & Hl2' & Hfr1 & Hf1 & Hr1).
  { subst nx. destruct l2 as [|x l2]; simpl hd_or; cbv iota.
    - eexists _, _. split; [done|]. split_and!; done.
    - destruct (h !! x) as [xd|] eqn:Hx; [|destruct Hl2; congruence].
      rewrite (set_prev_ok _ _ xd) by done. simpl rbind.
      eexists _, _. split; [done|]. split; [by eapply linked_set_prev|].
      split; [eapply heap_frame_insert; [done|left]|]. split; [done|].
      rewrite Hr, last_or_app, !last_or_cons. done. }
  assert (linked h1 None l1 (Some n)) as Hl1'.
  { eapply linked_frame; [|done]. intros m Hm. apply (proj1 Hfr1). set_solver. }
  assert (h1 !! n = Some (LNode nx pv)) as Hn1.
  { rewrite (proj1 Hfr1) by done. done. }
  (* node->prev->next = node->next *)
  assert (∃ h2 d2, match pv with
            | Some m => let* h := set_next h1 m nx in Ok (h, d1)
            | None => Ok (h1, Dq nx (rear d1)) end = Ok (h2, d2) ∧
          linked h2 None l1 nx ∧ heap_frame h1 h2 l1 ∧
          front d2 = hd_or l1 nx ∧ rear d2 = rear d1)
    as (h2 & d2 & E2 & Hl1'' & Hfr2 & Hf2 & Hr2).
  { subst pv. destruct l1 as [|x l1 _] using rev_ind.
    - cbv iota. eexists _, _. split; [done|]. split_and!; done.
    - rewrite last_or_snoc. destruct (h1 !! x) as [xd|] eqn:Hx.
      2:{ apply linked_app in Hl1' as [_ [? _]]. congruence. }
      rewrite (set_next_ok _ _ xd) by done. simpl rbind.
      eexists _, _. split; [done|]. split; [by eapply linked_set_next|].
      split; [eapply heap_frame_insert; [done|set_solver]|].
      split; [|done]. simpl. rewrite Hf1, Hf, !hd_or_app. by destruct l1. }
  assert (h2 !! n = Some (LNode nx pv)) as Hn2.
  { rewrite (proj1 Hfr2) by done. done. }
  set (h3 := <[n := LNode None None]> h2).
  assert (heap_frame h2 h3 [n]) as Hfr3 by (eapply heap_frame_insert; [done|left]).
  exists h3, d2. unfold dq_dequeue.
  rewrite (load_ok _ _ _ Hn). simpl rbind. simpl next. simpl prev.
  rewrite E1. simpl rbind. rewrite (load_ok _ _ _ Hn1). simpl rbind.
  simpl next. simpl prev. rewrite E2. simpl rbind.
  rewrite (set_next_ok _ _ _ _ Hn2). simpl rbind.
  rewrite (set_prev_ok _ n (LNode None pv)) by apply lookup_insert_eq.
  simpl rbind. rewrite insert_insert_eq. split; [done|]. split_and!.
  - split.
    + apply list.NoDup_app. split; [done|]. split; [set_solver|done].
    + apply linked_app. split.
      * eapply linked_frame; [|done]. intros m Hm. apply (proj1 Hfr3). set_solver.
      * eapply linked_frame; [|exact Hl2']. intros m Hm.
        rewrite (proj1 Hfr3) by set_solver. apply (proj1 Hfr2). set_solver.
    + rewrite Hf2, hd_or_app. done.
    + rewrite Hr2, Hr1, last_or_app. done.
  - unfold detached, h3. apply lookup_insert_eq.
  - eapply heap_frame_trans; [eapply heap_frame_mono; [exact Hfr1|set_solver]|].
    eapply heap_frame_trans; eapply heap_frame_mono; try done; set_solver.
Qed.

Lemma dq_popfront_spec h d l :
  dq_rep h d l →
  match l with
  | [] => dq_popfront h d = Ok (None, h, d)
  | n :: l' =>
      ∃ h' d', dq_popfront h d = Ok (Some n, h', d') ∧
        dq_rep h' d' l' ∧ detached h' n ∧ heap_frame h h' l
  end.
Proof.
  intros Hrep. destruct l as [|n l'].
  { unfold dq_popfront. by rewrite (rep_front _ _ _ Hrep). }
  destruct Hrep as [Hnd [Hn Hl] Hf Hr]. apply list.NoDup_cons in Hnd as [Hnl Hnd].
  assert (∃ h1 d1, match hd_or l' None with
            | Some m => let* h := set_prev h m None in Ok (h, Dq (Some m) (rear d))
            | None => Ok (h, Dq None None) end = Ok (h1, d1) ∧
          linked h1 None l' None ∧ heap_frame h h1 l' ∧
          front d1 = hd_or l' None ∧ rear d1 = last_or None l')
    as (h1 & d1 & E1 & Hl1 & Hfr1 & Hf1 & Hr1).
  { destruct l' as [|x l2]; simpl hd_or; cbv iota.
    - eexists _, _. split; [done|]. split_and!; done.
    - destruct (h !! x) as [xd|] eqn:Hx; [|destruct Hl; congruence].
      rewrite (set_prev_ok _ _ xd) by done. simpl rbind.
      eexists _, _. split; [done|]. split; [by eapply linked_set_prev|].
      split; [eapply heap_frame_insert; [done|left]|]. split; [done|].
      simpl. rewrite Hr, !last_or_cons. done. }
  assert (h1 !! n = Some (LNode (hd_or l' None) None)) as Hn1.
  { rewrite (proj1 Hfr1) by done. done. }
  set (h2 := <[n := LNode None None]> h1).
  assert (heap_frame h1 h2 [n]) as Hfr2 by (eapply heap_frame_insert; [done|left]).
  exists h2, d1. unfold dq_popfront. rewrite Hf. simpl hd_or. cbv iota.
  rewrite (load_ok _ _ _ Hn). simpl rbind. simpl next. cbn [front].
  assert (match hd_or l' None with
          | Some m => let* h0 := set_prev h m None in Ok (h0, Dq (hd_or l' None) (rear d))
          | None => Ok (h, Dq (hd_or l' None) None) end = Ok (h1, d1)) as ->.
  { rewrite <- E1. by destruct (hd_or l' None). }
  simpl rbind. rewrite (set_prev_ok _ _ _ _ Hn1). simpl rbind.
  rewrite (set_next_ok _ n (LNode (hd_or l' None) None)) by apply lookup_insert_eq.
  simpl rbind. rewrite insert_insert_eq. split; [done|]. split_and!.
  - split; [done| |done|done]. eapply linked_frame; [|done].
    intros m Hm. apply (proj1 Hfr2). set_solver.
  - apply lookup_insert_eq.
  - eapply heap_frame_trans; eapply heap_frame_mono; try done; set_solver.
Qed.

(** On a node that is either in the queue or detached, [dq_is_queued]
    decides membership. *)
Lemma dq_is_queued_spec h d l n :
  dq_rep h d l → (n ∈ l ∨ detached h n) →
  dq_is_queued h d n = Ok (bool_decide (n ∈ l)).
Proof.
  intros Hrep Hor. unfold dq_is_queued. destruct (decide (n ∈ l)) as [Hin|Hnin].
  - rewrite (bool_decide_true (n ∈ l)) by done.
    destruct (linked_lookup _ _ _ _ n (rep_linked _ _ _ Hrep) Hin) as [nd Hn].
    rewrite (load_ok _ _ _ Hn). simpl rbind. f_equal.
    destruct (prev nd) eqn:Hp; [done|]. destruct (next nd) eqn:Hx; [done|].
    simpl. apply bool_decide_eq_true.
    assert (detached h n) as Hdt by (unfold detached; destruct nd; simpl in *; congruence).
    rewrite (rep_front _ _ _ Hrep), (dq_rep_detached_notin h d l n) by done. done.
  - destruct Hor as [|Hdt]; [done|].
    rewrite (bool_decide_false (n ∈ l)) by done.
    rewrite (load_ok _ _ _ Hdt). simpl. f_equal. apply bool_decide_eq_false.
    rewrite (rep_front _ _ _ Hrep). intros E. apply Hnin.
    destruct l; [done|]. simpl in E. injection E as ->. left.
Qed.

Lemma dq_is_empty_spec h d l :
  dq_rep h d l → dq_is_empty d = bool_decide (l = []).
Proof.
  intros Hrep. unfold dq_is_empty. rewrite (rep_front _ _ _ Hrep). by destruct l.
Qed.

Lemma dq_peekfront_spec h d l : dq_rep h d l → dq_peekfront d = head l.
Proof. intros Hrep. unfold dq_peekfront. rewrite (rep_front _ _ _ Hrep). by destruct l. Qed.

Lemma dq_clear_loop_spec fuel h pv l :
  NoDup l → linked h pv l None → length l ≤ fuel →
  ∃ h', dq_clear_loop fuel h (hd_or l None) = Ok h' ∧
    (∀ m, m ∈ l → detached h' m) ∧ heap_frame h h' l.
Proof.
  revert fuel h pv. induction l as [|n l IH]; intros fuel h pv Hnd Hl Hf.
  - exists h. split; [by destruct fuel|]. split; [by intros ? ?%elem_of_nil|done].
  - destruct fuel as [|fuel]; simpl in Hf; [lia|].
    destruct Hl as [Hn Hl]. apply list.NoDup_cons in Hnd as [Hnl Hnd].
    simpl. rewrite (load_ok _ _ _ Hn). simpl rbind.
    rewrite (set_prev_ok _ _ _ _ Hn). simpl rbind.
    rewrite (set_next_ok _ n (LNode (hd_or l None) None)) by apply lookup_insert_eq.
    simpl rbind. rewrite insert_insert_eq. simpl next.
    set (h1 := <[n := LNode None None]> h).
    assert (heap_frame h h1 [n]) as Hfr1 by (eapply heap_frame_insert; [done|left]).
    destruct (IH fuel h1 (Some n)) as (h' & E & Hd & Hfr); [done| |lia|].
    { eapply linked_frame; [|done]. intros m Hm. apply (proj1 Hfr1). set_solver. }
    exists h'. split; [done|]. split.
    + intros m [->|Hm]%elem_of_cons; [|auto].
      unfold detached. rewrite (proj1 Hfr) by done. apply lookup_insert_eq.
    + eapply heap_frame_trans; eapply heap_frame_mono; try done; set_solver.
Qed.

Lemma linked_length h pv l nx : NoDup l → linked h pv l nx → length l ≤ size h.
Proof.
  intros Hnd Hl. rewrite <- size_dom, <- (size_list_to_set (C:=gset A) l) by done.
  apply subseteq_size. intros n Hn. rewrite elem_of_list_to_set in Hn.
  apply elem_of_dom. by eapply linked_lookup.
Qed.

Lemma dq_clear_spec h d l :
  dq_rep h d l →
  ∃ h', dq_clear h d = Ok (h', dq_init) ∧ dq_rep h' dq_init [] ∧
    (∀ m, m ∈ l → detached h' m) ∧ heap_frame h h' l.
Proof.
  intros [Hnd Hl Hf Hr].
  destruct (dq_clear_loop_spec (size h) h None l) as (h' & E & Hd & Hfr);
    [done|done|by eapply linked_length|].
  exists h'. unfold dq_clear. rewrite Hf, E. simpl. split; [done|].
  split; [|done]. split; try done. constructor.
Qed.

Lemma dq_rep_init h : dq_rep h dq_init [].
Proof. split; try done. constructor. Qed.

(** ** Any use of a queue is a use of a list *)

(** What a client does to a queue. *)
Inductive dq_op : Type :=
  | PushFront (n : A) | PushBack (n : A) | PopFront | Dequeue (n : A) | Clear.

Definition dq_step (o : dq_op) (h : heap) (d : dq A) : res (option A * heap * dq A) :=
  match o with
  | PushFront n => let* hd := dq_pushfront h d n in Ok (None, fst hd, snd hd)
  | PushBack n => let* hd := dq_pushback h d n in Ok (None, fst hd, snd hd)
  | PopFront => dq_popfront h d
  | Dequeue n => let* hd := dq_dequeue h d n in Ok (None, fst hd, snd hd)
  | Clear => let* hd := dq_clear h d in Ok (None, fst hd, snd hd)
  end.
(** The nodes handed out, and the queue at the end. *)
Fixpoint dq_run (os : list dq_op) (h : heap) (d : dq A) : res (list (option A) * heap * dq A) :=
  match os with
  | [] => Ok ([], h, d)
  | o :: os =>
      let* r := dq_step o h d in
      let '(x, h, d) := r in
      let* r := dq_run os h d in
      let '(xs, h, d) := r in
      Ok (x :: xs, h, d)
  end.

(** The same on a list; [None] where the client breaks the rules: it pushes
    a node that is queued or dequeues one that is not. *)
Definition list_step (o : dq_op) (l : list A) : option (option A * list A) :=
  match o with
  | PushFront n => if decide (n ∈ l) then None else Some (None, n :: l)
  | PushBack n => if decide (n ∈ l) then None else Some (None, l ++ [n])
  | PopFront => Some (head l, tail l)
  | Dequeue n => if decide (n ∈ l) then Some (None, filter (fun m => m ≠ n) l) else None
  | Clear => Some (None, [])
  end.
Fixpoint list_run (os : list dq_op) (l : list A) : option (list (option A) * list A) :=
  match os with
  | [] => Some ([], l)
  | o :: os =>
      match list_step o l with
      | None => None
      | Some (x, l) => match list_run os l with
                       | None => None
                       | Some (xs, l) => Some (x :: xs, l) end
      end
  end.
Definition op_nodes (o : dq_op) : list A :=
  match o with PushFront n | PushBack n => [n] | _ => [] end.

Lemma filter_ne_notin (n : A) (l : list A) : n ∉ l → filter (fun m => m ≠ n) l = l.
Proof.
  induction l as [|m l IH]; intros Hn; [done|]. rewrite filter_cons, decide_True by set_solver.
  f_equal. apply IH. set_solver.
Qed.
Lemma filter_ne_split (n : A) (l1 l2 : list A) : NoDup (l1 ++ n :: l2) →
  filter (fun m => m ≠ n) (l1 ++ n :: l2) = l1 ++ l2.
Proof.
  intros (_ & Hd & Hn)%list.NoDup_app. apply list.NoDup_cons in Hn as [Hn _].
  rewrite list.filter_app, filter_cons, decide_False by tauto.
  rewrite !filter_ne_notin; [done|done|]. intros Hi. apply (Hd n Hi). left.
Qed.

Lemma dq_step_spec o h d l x l' :
  dq_rep h d l → list_step o l = Some (x, l') → (∀ n, n ∈ op_nodes o → is_Some (h !! n)) →
  ∃ h' d', dq_step o h d = Ok (x, h', d') ∧ dq_rep h' d' l' ∧
    (∀ m, is_Some (h' !! m) ↔ is_Some (h !! m)).
Proof.
  intros Hr Hs Ha. destruct o as [n|n| |n|]; cbn [list_step dq_step op_nodes] in *.
  - destruct (decide (n ∈ l)); [done|]. injection Hs as <- <-.
    destruct (dq_pushfront_spec h d l n Hr) as (h' & d' & -> & Hr' & Hf); [apply Ha; left|done|].
    exists h', d'. split; [done|]. split; [done|apply Hf].
  - destruct (decide (n ∈ l)); [done|]. injection Hs as <- <-.
    destruct (dq_pushback_spec h d l n Hr) as (h' & d' & -> & Hr' & Hf); [apply Ha; left|done|].
    exists h', d'. split; [done|]. split; [done|apply Hf].
  - injection Hs as <- <-. pose proof (dq_popfront_spec h d l Hr) as Hp. destruct l as [|n l].
    + exists h, d. by rewrite Hp.
    + destruct Hp as (h' & d' & -> & Hr' & _ & Hf). exists h', d'. split; [done|]. split; [done|apply Hf].
  - destruct (decide (n ∈ l)) as [Hin|]; [|done]. injection Hs as <- <-.
    apply list_elem_of_split in Hin as (l1 & l2 & ->).
    destruct (dq_dequeue_spec h d l1 l2 n Hr) as (h' & d' & -> & Hr' & _ & Hf).
    exists h', d'. split; [done|]. rewrite filter_ne_split by apply Hr. split; [done|apply Hf].
  - injection Hs as <- <-. destruct (dq_clear_spec h d l Hr) as (h' & -> & Hr' & _ & Hf).
    exists h', dq_init. split; [done|]. split; [done|apply Hf].
Qed.

(** C38.  The intrusive queue is a list: whatever sequence of pushes at either
    end, pops, removals from the middle and clears a client makes, as long as
    it never pushes a queued node or removes one that is not, each call
    returns, hands out the nodes the same calls on a list do, and leaves a
    well-linked queue of the list's nodes. *)
Theorem dq_refines_lists os h d l xs l' :
  dq_rep h d l → list_run os l = Some (xs, l') →
  (∀ o n, o ∈ os → n ∈ op_nodes o → is_Some (h !! n)) →
  ∃ h' d', dq_run os h d = Ok (xs, h', d') ∧ dq_rep h' d' l'.
Proof.
  revert h d l xs. induction os as [|o os IH]; intros h d l xs Hr E Ha; cbn [list_run dq_run] in *.
  - injection E as <- <-. by exists h, d.
  - destruct (list_step o l) as [[x l1]|] eqn:E1; [|done].
    destruct (list_run os l1) as [[xs1 l2]|] eqn:E2; [|done]. injection E as <- <-.
    destruct (dq_step_spec o h d l x l1 Hr E1) as (h1 & d1 & -> & Hr1 & Hd1).
    { intros n. apply Ha. left. }
    destruct (IH h1 d1 l1 xs1 Hr1 E2) as (h2 & d2 & E3 & Hr2).
    { intros o' n Ho Hn. apply Hd1. eapply Ha; [right; exact Ho|exact Hn]. }
    exists h2, d2. split; [|done]. cbn [rbind]. by rewrite E3.
Qed.

End Dq.

Lemma dq_refines_lists_witness :
  ∃ h' d', dq_run [PushBack 1%nat; PushBack 2%nat; PushFront 3%nat; Dequeue 2%nat; PopFront; PopFront; PopFront]
      (<[1%nat := LNode None None]> (<[2%nat := LNode None None]> {[3%nat := LNode None None]})) dq_init =
    Ok ([None; None; None; None; Some 3%nat; Some 1%nat; None], h', d') ∧ dq_rep h' d' [].
Proof.
  eapply (dq_refines_lists _ _ _ []).
  - apply dq_rep_init.
  - reflexivity.
  - intros o n Ho Hn. repeat (apply elem_of_cons in Ho as [-> | Ho]; [cbn in Hn;
      first [apply list_elem_of_singleton in Hn as ->; by eexists|by apply elem_of_nil in Hn]|]).
    by apply elem_of_nil in Ho.
Defined.

#[export] Hint Resolve heap_frame_refl dq_rep_init : twan.
