(* ===== verification/Priorityq.v ===== *)
(** * Priorityq: include/lib/dsa/priorityq.h

    256 deques, one per priority, with a bitmap of the non-empty ones.
    [pq_rep h q ls] relates the structure to a function from priorities to
    the list of queued nodes; the bitmap is exactly the set of priorities with
    a non-empty list, so [bmp256_fls] finds the highest one. *)

From S2P Require Import Prelude Std Bmp Dq.
From Stdlib Require Import ZArith Lia Bool.
From stdpp Require Import base gmap list numbers.

Local Open Scope Z_scope.

Record priorityq (A : Type) := Priorityq {
  priority_bins : list (dq A);
  priority_bitmap : bmp256;
}.
Arguments Priorityq {A} priority_bins priority_bitmap.
Arguments priority_bins {A} p.
Arguments priority_bitmap {A} p.

(** A zero-initialised queue. *)
Definition priorityq_zero {A} : priorityq A :=
  Priorityq (replicate 256 dq_init) bmp_empty.

Section Priorityq.
Context {A : Type} `{Countable A}.
Abbreviation heap := (gmap A (lnode A)).

Definition pq_bin (q : priorityq A) (priority : Z) : res (dq A) :=
  match priority_bins q !! Z.to_nat priority with
  | Some d => Ok d
  | None => Fault FBounds
  end.
Definition pq_set_bin (q : priorityq A) (priority : Z) (d : dq A) : priorityq A :=
  Priorityq (<[Z.to_nat priority := d]> (priority_bins q)) (priority_bitmap q).

Definition priorityq_set_priority (q : priorityq A) (priority : Z) : priorityq A :=
  Priorityq (priority_bins q) (bmp256_set (priority_bitmap q) priority).
Definition priorityq_unset_priority (q : priorityq A) (priority : Z) : priorityq A :=
  Priorityq (priority_bins q) (bmp256_unset (priority_bitmap q) priority).
Definition priorityq_awaiting_priority (q : priorityq A) : Z :=
  bmp256_fls (priority_bitmap q).

Definition priorityq_pushfront (h : heap) (q : priorityq A) (node : A) (priority : Z)
  : res (heap * priorityq A) :=
  let* d := pq_bin q priority in
  let* hd := dq_pushfront h d node in
  Ok (fst hd, priorityq_set_priority (pq_set_bin q priority (snd hd)) priority).

Definition priorityq_pushback (h : heap) (q : priorityq A) (node : A) (priority : Z)
  : res (heap * priorityq A) :=
  let* d := pq_bin q priority in
  let* hd := dq_pushback h d node in
  Ok (fst hd, priorityq_set_priority (pq_set_bin q priority (snd hd)) priority).

Definition priorityq_push (h : heap) (q : priorityq A) (node : A) (priority : Z)
    (direction : bool) : res (heap * priorityq A) :=
  let* d := pq_bin q priority in
  let* hd := dq_push h d node direction in
  Ok (fst hd, priorityq_set_priority (pq_set_bin q priority (snd hd)) priority).

Definition priorityq_dequeue (h : heap) (q : priorityq A) (node : A) (priority : Z)
  : res (heap * priorityq A) :=
  let* d := pq_bin q priority in
  let* hd := dq_dequeue h d node in
  let q := pq_set_bin q priority (snd hd) in
  Ok (fst hd, if dq_is_empty (snd hd) then priorityq_unset_priority q priority else q).

Definition priorityq_peekfront (q : priorityq A) : res (option A) :=
  let priority := priorityq_awaiting_priority q in
  if priority =? -1 then Ok None else
  let* d := pq_bin q priority in Ok (dq_peekfront d).

Definition priorityq_popfront (h : heap) (q : priorityq A)
  : res (option A * heap * priorityq A) :=
  let priority := priorityq_awaiting_priority q in
  if priority =? -1 then Ok (None, h, q) else
  let* d := pq_bin q priority in
  let* r := dq_popfront h d in
  let '(node, h, d) := r in
  let q := pq_set_bin q priority d in
  Ok (node, h, if dq_is_empty d then priorityq_unset_priority q priority else q).

Definition priorityq_is_queued (h : heap) (q : priorityq A) (node : A) (priority : Z)
  : res bool :=
  let* d := pq_bin q priority in dq_is_queued h d node.

Definition priorityq_requeue (h : heap) (q : priorityq A) (node : A)
    (new_priority old_priority : Z) (direction : bool) : res (heap * priorityq A) :=
  let* hq := priorityq_dequeue h q node old_priority in
  priorityq_push (fst hq) (snd hq) node new_priority direction.

(** ** Representation *)

Definition prio (p : Z) : Prop := 0 <= p < 256.

Definition upd (ls : Z → list A) (p : Z) (l : list A) : Z → list A :=
  fun p' => if decide (p' = p) then l else ls p'.

Record pq_rep (h : heap) (q : priorityq A) (ls : Z → list A) : Prop := {
  pq_bins : ∀ p, prio p → ∃ d, priority_bins q !! Z.to_nat p = Some d ∧ dq_rep h d (ls p);
  pq_len : length (priority_bins q) = 256%nat;
  pq_disj : ∀ p p' n, prio p → prio p' → n ∈ ls p → n ∈ ls p' → p = p';
  pq_bmp_wf : bmp256_wf (priority_bitmap q);
  pq_bmp : ∀ p, prio p → bmp256_bit (priority_bitmap q) p = bool_decide (ls p ≠ []);
}.

(** No bin holds [n]. *)
Definition pq_fresh (ls : Z → list A) (n : A) : Prop := ∀ p, prio p → n ∉ ls p.

(** The highest priority with a queued node, -1 when nothing is queued. *)
Definition is_top (ls : Z → list A) (r : Z) : Prop :=
  (r = -1 ∧ ∀ p, prio p → ls p = []) ∨
  (prio r ∧ ls r ≠ [] ∧ ∀ p, r < p < 256 → ls p = []).

Lemma is_top_unique ls r r' : is_top ls r → is_top ls r' → r = r'.
Proof.
  unfold is_top, prio.
  intros [[-> Hn]|(Hr & Hl & Ht)] [[-> Hn']|(Hr' & Hl' & Ht')];
    [done|exfalso; auto|exfalso; auto|].
  destruct (Z.lt_trichotomy r r') as [?|[?|?]]; [|done|]; exfalso.
  - apply Hl', Ht. lia.
  - apply Hl, Ht'. lia.
Qed.

Lemma upd_eq ls p l : upd ls p l p = l.
Proof. unfold upd. by rewrite decide_True. Qed.
Lemma upd_ne ls p l p' : p' ≠ p → upd ls p l p' = ls p'.
Proof. intros. unfold upd. by rewrite decide_False. Qed.

Lemma pq_bin_ok h q ls p :
  pq_rep h q ls → prio p → ∃ d, pq_bin q p = Ok d ∧ dq_rep h d (ls p).
Proof.
  intros Hr Hp. destruct (pq_bins _ _ _ Hr p Hp) as (d & Hd & ?).
  exists d. unfold pq_bin. by rewrite Hd.
Qed.

(** Replacing one bin, with the bitmap updated to match. *)
Lemma pq_rep_set_bin h h' q ls p d l fr bm :
  pq_rep h q ls → prio p → dq_rep h' d l → heap_frame h h' fr →
  (∀ n p', prio p' → p' ≠ p → n ∈ fr → n ∉ ls p') →
  (∀ n p', prio p' → p' ≠ p → n ∈ l → n ∉ ls p') →
  bmp256_wf bm →
  (∀ p', prio p' → bmp256_bit bm p' =
     if decide (p' = p) then bool_decide (l ≠ [])
     else bmp256_bit (priority_bitmap q) p') →
  pq_rep h' (Priorityq (<[Z.to_nat p := d]> (priority_bins q)) bm) (upd ls p l).
Proof.
  intros Hr Hp Hd Hfr Hfd Hld Hwf Hb. destruct Hr as [Hbins Hlen Hdis _ Hbit].
  unfold prio in *. split; simpl.
  - intros p' Hp'. destruct (decide (p' = p)) as [->|Hne].
    + exists d. rewrite upd_eq. split; [|done].
      apply list_lookup_insert_eq. lia.
    + destruct (Hbins p' Hp') as (d' & Hd' & Hr'). exists d'.
      rewrite upd_ne by done. split.
      * rewrite list_lookup_insert_ne by (unfold prio in *; lia). done.
      * eapply dq_rep_frame; [done|done|]. intros m Hm Hmf. by apply (Hfd m p').
  - by rewrite length_insert.
  - intros p1 p2 n H1 H2. unfold upd.
    repeat case_decide; subst; try done.
    + intros Hn Hn'. exfalso. by apply (Hld n p2).
    + intros Hn Hn'. exfalso. by apply (Hld n p1).
    + by apply Hdis.
  - done.
  - intros p' Hp'. rewrite Hb by done. unfold upd. case_decide; [done|auto].
Qed.

Lemma pq_set_bitmap q ls h p (l : list A) :
  pq_rep h q ls → prio p → l ≠ [] →
  ∀ p', prio p' → bmp256_bit (bmp256_set (priority_bitmap q) p) p' =
    if decide (p' = p) then bool_decide (l ≠ [])
    else bmp256_bit (priority_bitmap q) p'.
Proof.
  intros Hr Hp Hl p' Hp'.
  rewrite bmp256_set_bit by (done || apply (pq_bmp_wf _ _ _ Hr)).
  case_decide as E.
  - subst. rewrite Z.eqb_refl, bool_decide_true by done. done.
  - by rewrite (proj2 (Z.eqb_neq p p')) by done.
Qed.

Lemma priorityq_push_spec h q ls n p (direction : bool) :
  pq_rep h q ls → prio p → is_Some (h !! n) → pq_fresh ls n →
  ∃ h' q', priorityq_push h q n p direction = Ok (h', q') ∧
    pq_rep h' q' (upd ls p (if direction then n :: ls p else ls p ++ [n])) ∧
    heap_frame h h' (n :: ls p).
Proof.
  intros Hr Hp Hn Hfresh. destruct (pq_bin_ok _ _ _ p Hr Hp) as (d & Ed & Hd).
  destruct (dq_push_spec h d (ls p) n direction) as (h' & d' & Ep & Hd' & Hfr);
    [done|done|by apply Hfresh|].
  unfold priorityq_push. rewrite Ed. simpl rbind. rewrite Ep. simpl.
  eexists _, _. split; [done|]. split; [|done].
  unfold priorityq_set_priority, pq_set_bin. simpl.
  eapply pq_rep_set_bin; [done|done|done|exact Hfr| | | |].
  - intros m p' Hp' Hne [->|Hm]%elem_of_cons; [by apply Hfresh|].
    intros Hm'. apply Hne. by eapply (pq_disj _ _ _ Hr).
  - intros m p' Hp' Hne Hm Hm'.
    assert (m = n ∨ m ∈ ls p) as [->|Hin] by (destruct direction; set_solver).
    + by apply (Hfresh p').
    + apply Hne. by eapply (pq_disj _ _ _ Hr).
  - apply bmp256_set_wf; [apply (pq_bmp_wf _ _ _ Hr)|done].
  - eapply pq_set_bitmap; [done|done|]. destruct direction; [done|by destruct (ls p)].
Qed.

(** Removing a node: the bit of its priority goes when its bin empties. *)
Lemma pq_remove_rep h h' q ls p d l1 n l2 :
  pq_rep h q ls → prio p → ls p = l1 ++ n :: l2 → dq_rep h' d (l1 ++ l2) →
  heap_frame h h' (ls p) →
  pq_rep h' (if dq_is_empty d
             then priorityq_unset_priority (pq_set_bin q p d) p
             else pq_set_bin q p d) (upd ls p (l1 ++ l2)).
Proof.
  intros Hr Hp Hls Hd Hfr.
  assert (pq_rep h' (Priorityq (<[Z.to_nat p := d]> (priority_bins q))
    (if dq_is_empty d then bmp256_unset (priority_bitmap q) p
     else priority_bitmap q)) (upd ls p (l1 ++ l2))) as Hres.
  { eapply pq_rep_set_bin; [done|done|done|exact Hfr| | | |].
    - intros m p' Hp' Hne Hm Hm'. apply Hne. by eapply (pq_disj _ _ _ Hr).
    - intros m p' Hp' Hne Hm Hm'. apply Hne.
      eapply (pq_disj _ _ _ Hr); [done|done|done|]. rewrite Hls. set_solver.
    - case_match; [apply bmp256_unset_wf|]; apply (pq_bmp_wf _ _ _ Hr).
    - intros p' Hp'.
      assert (dq_is_empty d = bool_decide (l1 ++ l2 = [])) as Ee
        by by eapply dq_is_empty_spec.
      destruct (decide (l1 ++ l2 = [])) as [E0|E0].
      + rewrite Ee, bool_decide_true by done.
        rewrite bmp256_unset_bit by (done || apply (pq_bmp_wf _ _ _ Hr)).
        rewrite E0. case_decide as E.
        * subst. rewrite Z.eqb_refl. done.
        * by rewrite (proj2 (Z.eqb_neq p p')) by done.
      + rewrite Ee, bool_decide_false by done. case_decide as E; [|done].
        subst. rewrite (pq_bmp _ _ _ Hr) by done.
        rewrite !bool_decide_true by (done || rewrite Hls; by destruct l1). done. }
  unfold priorityq_unset_priority, pq_set_bin in *. simpl.
  destruct (dq_is_empty d); exact Hres.
Qed.

Lemma priorityq_dequeue_spec h q ls p l1 n l2 :
  pq_rep h q ls → prio p → ls p = l1 ++ n :: l2 →
  ∃ h' q', priorityq_dequeue h q n p = Ok (h', q') ∧
    pq_rep h' q' (upd ls p (l1 ++ l2)) ∧ detached h' n ∧ heap_frame h h' (ls p).
Proof.
  intros Hr Hp Hls. destruct (pq_bin_ok _ _ _ p Hr Hp) as (d & Ed & Hd).
  rewrite Hls in Hd.
  destruct (dq_dequeue_spec h d l1 l2 n Hd) as (h' & d' & Ep & Hd' & Hdet & Hfr).
  rewrite <- Hls in Hfr.
  unfold priorityq_dequeue. rewrite Ed. simpl rbind. rewrite Ep. simpl.
  eexists _, _. split; [done|]. split; [|done].
  by eapply pq_remove_rep.
Qed.

Lemma priorityq_awaiting_spec h q ls :
  pq_rep h q ls → is_top ls (priorityq_awaiting_priority q).
Proof.
  intros Hr. unfold priorityq_awaiting_priority, is_top.
  assert (∀ p, prio p → bmp256_bit (priority_bitmap q) p = false → ls p = []) as Hf.
  { intros p Hp. rewrite (pq_bmp _ _ _ Hr) by done. intros Hb%bool_decide_eq_false.
    by destruct (ls p); [|exfalso; apply Hb]. }
  destruct (bmp256_fls_spec _ (pq_bmp_wf _ _ _ Hr)) as [[-> Hn]|(Hp & Hb & Ht)].
  - left. split; [done|]. intros p Hp. apply Hf; [done|]. by apply Hn.
  - right. split; [done|]. split.
    + rewrite (pq_bmp _ _ _ Hr) in Hb by done. by apply bool_decide_eq_true in Hb.
    + intros p Hp'. apply Hf; [unfold prio; lia|]. by apply Ht.
Qed.

(** [popfront] takes the first node of the highest non-empty priority. *)
Lemma priorityq_popfront_spec h q ls :
  pq_rep h q ls →
  (∀ p, prio p → ls p = []) ∧ priorityq_popfront h q = Ok (None, h, q) ∨
  ∃ p n l' h' q', is_top ls p ∧ prio p ∧ ls p = n :: l' ∧
    priorityq_popfront h q = Ok (Some n, h', q') ∧
    pq_rep h' q' (upd ls p l') ∧ detached h' n ∧ heap_frame h h' (ls p).
Proof.
  intros Hr. pose proof (priorityq_awaiting_spec _ _ _ Hr) as Htop.
  unfold priorityq_popfront.
  set (r := priorityq_awaiting_priority q) in *.
  destruct Htop as [[-> Hn]|(Hp & Hne & Ht)]; [by left|right].
  rewrite (proj2 (Z.eqb_neq r (-1))) by (unfold prio in Hp; lia).
  destruct (pq_bin_ok _ _ _ r Hr Hp) as (d & Ed & Hd). rewrite Ed. simpl rbind.
  destruct (ls r) as [|n l'] eqn:Els; [done|].
  destruct (dq_popfront_spec h d (n :: l') Hd) as (h' & d' & -> & Hd' & Hdet & Hfr).
  simpl rbind. rewrite <- Els in Hfr.
  eexists r, n, l', h', _. split; [right; split; [done|]; split; [by rewrite Els|done]|].
  split; [done|]. split; [done|]. split; [done|]. split; [|done].
  by eapply (pq_remove_rep h h' q ls r d' [] n l').
Qed.

Lemma priorityq_peekfront_spec h q ls :
  pq_rep h q ls →
  ∃ r, is_top ls r ∧
    priorityq_peekfront q = Ok (if r =? -1 then None else head (ls r)).
Proof.
  intros Hr. pose proof (priorityq_awaiting_spec _ _ _ Hr) as Htop.
  exists (priorityq_awaiting_priority q). split; [done|].
  unfold priorityq_peekfront. set (r := priorityq_awaiting_priority q) in *.
  destruct Htop as [[-> Hn]|(Hp & Hne & Ht)]; [done|].
  rewrite (proj2 (Z.eqb_neq r (-1))) by (unfold prio in Hp; lia).
  destruct (pq_bin_ok _ _ _ r Hr Hp) as (d & -> & Hd). simpl rbind.
  by rewrite (dq_peekfront_spec h d (ls r)).
Qed.

Lemma priorityq_is_queued_spec h q ls p n :
  pq_rep h q ls → prio p → (n ∈ ls p ∨ detached h n) →
  priorityq_is_queued h q n p = Ok (bool_decide (n ∈ ls p)).
Proof.
  intros Hr Hp Hor. destruct (pq_bin_ok _ _ _ p Hr Hp) as (d & Ed & Hd).
  unfold priorityq_is_queued. rewrite Ed. simpl rbind. by apply dq_is_queued_spec.
Qed.

(** Moving a node to another priority. *)
Lemma priorityq_requeue_spec h q ls po pn l1 n l2 (direction : bool) :
  pq_rep h q ls → prio po → prio pn → ls po = l1 ++ n :: l2 →
  let ls1 := upd ls po (l1 ++ l2) in
  ∃ h' q', priorityq_requeue h q n pn po direction = Ok (h', q') ∧
    pq_rep h' q' (upd ls1 pn (if direction then n :: ls1 pn else ls1 pn ++ [n])).
Proof.
  intros Hr Ho Hn Hls ls1.
  destruct (priorityq_dequeue_spec h q ls po l1 n l2) as (h1 & q1 & E & Hr1 & Hd & _);
    [done|done|done|].
  unfold priorityq_requeue. rewrite E. simpl rbind. simpl fst. simpl snd.
  destruct (priorityq_push_spec h1 q1 ls1 n pn direction)
    as (h' & q' & E' & Hr' & _); [done|done|eauto| |eauto].
  intros p Hp Hin. unfold ls1, upd in Hin. case_decide as Ep.
  - destruct (pq_bin_ok _ _ _ po Hr Ho) as (d & _ & [Hnd _ _ _]).
    rewrite Hls in Hnd. apply list.NoDup_app in Hnd as (_ & Hdis & Hnd2).
    apply list.NoDup_cons in Hnd2 as [Hn2 _].
    apply elem_of_app in Hin as [Hin|Hin]; [|done]. apply (Hdis n Hin). left.
  - apply Ep. eapply (pq_disj _ _ _ Hr); [done|done|done|]. rewrite Hls. set_solver.
Qed.

Lemma pq_rep_zero h : pq_rep h priorityq_zero (fun _ => []).
Proof.
  split.
  - intros p Hp. exists dq_init. split; [|by apply dq_rep_init].
    unfold priorityq_zero. cbn [priority_bins]. apply lookup_replicate.
    unfold prio in Hp. split; [done|lia].
  - done.
  - by intros ? ? ? _ _ ?%elem_of_nil.
  - apply bmp_empty_wf.
  - intros p Hp. by rewrite bmp_empty_bit.
Qed.

(** ** A queue of priorities sorts *)

Fixpoint pq_push_all (ns : list (A * Z)) (h : heap) (q : priorityq A) : res (heap * priorityq A) :=
  match ns with
  | [] => Ok (h, q)
  | (n, p) :: ns => let* hq := priorityq_pushback h q n p in pq_push_all ns (fst hq) (snd hq)
  end.
(** Pops until nothing is left. *)
Fixpoint pq_drain (fuel : nat) (h : heap) (q : priorityq A) : res (list A) :=
  match fuel with
  | O => Fault FFuel
  | S fuel =>
      let* r := priorityq_popfront h q in
      match r with
      | (None, _, _) => Ok []
      | (Some n, h, q) => let* l := pq_drain fuel h q in Ok (n :: l)
      end
  end.

(** What is queued at the priorities below [k], the highest first. *)
Fixpoint by_prio (k : nat) (ls : Z → list A) : list A :=
  match k with O => [] | S k => ls (Z.of_nat k) ++ by_prio k ls end.

Lemma by_prio_ext k ls ls' : (∀ p, 0 <= p < Z.of_nat k → ls p = ls' p) → by_prio k ls = by_prio k ls'.
Proof.
  induction k as [|k IH]; intros He; [done|]. cbn. f_equal; [apply He; lia|apply IH]. intros; apply He; lia.
Qed.
Lemma by_prio_empty k ls : (∀ p, 0 <= p < Z.of_nat k → ls p = []) → by_prio k ls = [].
Proof.
  induction k as [|k IH]; intros He; [done|]. cbn. rewrite He by lia. apply IH. intros; apply He; lia.
Qed.
Lemma by_prio_pop k ls p n l : 0 <= p < Z.of_nat k → ls p = n :: l →
  (∀ p', p < p' < Z.of_nat k → ls p' = []) → by_prio k ls = n :: by_prio k (upd ls p l).
Proof.
  induction k as [|k IH]; intros Hp E Hab; [lia|]. cbn. destruct (decide (p = Z.of_nat k)) as [->|Hne].
  - rewrite E, upd_eq. cbn. do 2 f_equal. apply by_prio_ext. intros. by rewrite upd_ne by lia.
  - rewrite (Hab (Z.of_nat k)), upd_ne, (Hab (Z.of_nat k)) by lia. cbn. apply IH; [lia|done|].
    intros; apply Hab; lia.
Qed.

Lemma pq_drain_spec fuel : ∀ h q ls,
  pq_rep h q ls → (length (by_prio 256 ls) < fuel)%nat → pq_drain fuel h q = Ok (by_prio 256 ls).
Proof.
  induction fuel as [|fuel IH]; intros h q ls Hr Hf; [lia|]. cbn [pq_drain].
  destruct (priorityq_popfront_spec h q ls Hr)
    as [[He ->]|(p & n & l & h' & q' & Ht & Hp & El & -> & Hr' & _)]; cbn [rbind].
  - by rewrite by_prio_empty.
  - assert (by_prio 256 ls = n :: by_prio 256 (upd ls p l)) as E.
    { destruct Ht as [[-> _]|(_ & _ & Hab)]; [unfold prio in Hp; lia|].
      apply by_prio_pop; [exact Hp|done|]. intros; by apply Hab. }
    rewrite E in Hf |- *. rewrite length_cons in Hf. rewrite (IH h' q' (upd ls p l)); [done|done|lia].
Qed.

(** The nodes pushed with priority [p], in order. *)
Definition pushed_at (ns : list (A * Z)) (p : Z) : list A := (filter (fun x => x.2 = p) ns).*1.

Lemma pq_push_all_spec ns : ∀ h q ls,
  pq_rep h q ls → NoDup ns.*1 → (∀ n p, (n, p) ∈ ns → prio p ∧ is_Some (h !! n) ∧ pq_fresh ls n) →
  ∃ h' q', pq_push_all ns h q = Ok (h', q') ∧ pq_rep h' q' (fun p => ls p ++ pushed_at ns p).
Proof.
  induction ns as [|[n p] ns IH]; intros h q ls Hr Hnd Hok.
  - exists h, q. split; [done|]. destruct Hr as [H1 H2 H3 H4 H5].
    split; try done; intros *; unfold pushed_at; rewrite !app_nil_r; eauto.
  - cbn [pq_push_all]. cbn in Hnd. apply list.NoDup_cons in Hnd as [Hn Hnd].
    destruct (Hok n p ltac:(left)) as (Hp & Ha & Hfr).
    destruct (priorityq_push_spec h q ls n p false Hr Hp Ha Hfr) as (h1 & q1 & E1 & Hr1 & Hf1).
    change (priorityq_push h q n p false) with (priorityq_pushback h q n p) in E1.
    rewrite E1. cbn [rbind fst snd].
    destruct (IH h1 q1 _ Hr1 Hnd) as (h2 & q2 & E2 & Hr2).
    { intros m p' Hm. destruct (Hok m p' ltac:(by right)) as (Hp' & Ha' & Hfr').
      split; [done|]. split; [by apply Hf1|]. intros p0 Hp0. unfold upd. case_decide as Ed.
      - subst p0. assert (m ≠ n). { intros ->. apply Hn, list_elem_of_fmap. by exists (n, p'). }
        specialize (Hfr' p Hp0). set_solver.
      - by apply Hfr'. }
    exists h2, q2. split; [done|].
    destruct Hr2 as [H1 H2 H3 H4 H5].
    assert (∀ p0, upd ls p (ls p ++ [n]) p0 ++ pushed_at ns p0 = ls p0 ++ pushed_at ((n, p) :: ns) p0) as He.
    { intros p0. unfold upd, pushed_at. rewrite filter_cons. cbn [snd].
      destruct (decide (p0 = p)) as [->|Hne].
      - rewrite decide_True by done. cbn. by rewrite <- app_assoc.
      - by rewrite decide_False by done. }
    split; try done; intros *; rewrite <- ?He; eauto.
Qed.

Lemma by_prio_below k (ns : list (A * Z)) :
  by_prio k (pushed_at ns) ≡ₚ (filter (fun x => 0 <= x.2 < Z.of_nat k) ns).*1.
Proof.
  induction k as [|k IH]; cbn [by_prio].
  - induction ns as [|[n p] ns IHns]; [done|]. by rewrite filter_cons, decide_False by (cbn; lia).
  - rewrite IH. unfold pushed_at. clear IH. induction ns as [|[n p] ns IHns]; [done|].
    rewrite !filter_cons. cbn [snd]. destruct (decide (p = Z.of_nat k)) as [->|].
    + rewrite decide_False, decide_True by lia. cbn. by rewrite IHns.
    + destruct (decide (0 <= p < Z.of_nat k)).
      * rewrite decide_True by lia. cbn. by rewrite <- Permutation_middle, IHns.
      * by rewrite decide_False by lia.
Qed.
Lemma by_prio_perm (ns : list (A * Z)) :
  (∀ n p, (n, p) ∈ ns → 0 <= p < 256) → by_prio 256 (pushed_at ns) ≡ₚ ns.*1.
Proof.
  intros Hok. rewrite by_prio_below. enough (filter (fun x => 0 <= x.2 < Z.of_nat 256) ns = ns) as -> by done.
  induction ns as [|[n p] ns IH]; [done|]. pose proof (Hok n p ltac:(left)).
  rewrite filter_cons, decide_True by (cbn; lia). f_equal. apply IH. intros m p' Hm.
  apply (Hok m p'). by right.
Qed.

(** A priority queue is a stable sort: nodes pushed at the back in any
    order with any priorities come out, popped until none is left, by
    descending priority and, at one priority, in the order they went in. *)
Theorem priorityq_sorts h ns :
  NoDup ns.*1 → (∀ n p, (n, p) ∈ ns → 0 <= p < 256 ∧ is_Some (h !! n)) →
  ∃ h' q', pq_push_all ns h priorityq_zero = Ok (h', q') ∧
    pq_drain (S (length ns)) h' q' = Ok (by_prio 256 (pushed_at ns)) ∧
    by_prio 256 (pushed_at ns) ≡ₚ ns.*1.
Proof.
  intros Hnd Hok.
  destruct (pq_push_all_spec ns h priorityq_zero (fun _ => []) (pq_rep_zero h) Hnd)
    as (h' & q' & E & Hr).
  { intros n p Hn. destruct (Hok n p Hn). split; [done|]. split; [done|]. intros ? _. apply not_elem_of_nil. }
  pose proof (by_prio_perm ns (fun n p Hn => proj1 (Hok n p Hn))) as Hperm.
  exists h', q'. split; [done|]. split; [|done].
  rewrite (pq_drain_spec _ h' q' _ Hr); [done|].
  change (by_prio 256 (λ p, [] ++ pushed_at ns p)) with (by_prio 256 (pushed_at ns)).
  rewrite Hperm, length_fmap. lia.
Qed.

End Priorityq.

Lemma priorityq_sorts_witness :
  ∃ h' q', pq_push_all [(1%nat, 3); (2%nat, 200); (3%nat, 3); (4%nat, 0)]
      (list_to_map (map (fun n => (n, LNode None None)) (seq 1 4))) priorityq_zero = Ok (h', q') ∧
    pq_drain 5 h' q' = Ok [2; 1; 3; 4]%nat.
Proof.
  destruct (priorityq_sorts (list_to_map (map (fun n => (n, LNode None None)) (seq 1 4)) : gmap nat (lnode nat))
    [(1%nat, 3); (2%nat, 200); (3%nat, 3); (4%nat, 0)]) as (h' & q' & E & Hd & _).
  - repeat constructor; set_solver.
  - intros n p Hn. repeat (apply elem_of_cons in Hn as [[= -> ->] | Hn]; [split; [lia|by eexists]|]).
    by apply elem_of_nil in Hn.
  - exists h', q'. split; [exact E|exact Hd].
Defined.
