(* ===== verification/DeltaChain.v ===== *)
(** * DeltaChain: the timer queue of include/lib/dsa/delta_chain.h

    A chain of nodes, each with the number of ticks that separates it from its
    predecessor.  The [delta] fields are a map beside the heap of queue nodes;
    [node_to_delta_node] is the identity on addresses.  The abstract state is
    the list of nodes with their absolute expiry, the running sum of the
    deltas: insertion is insertion into a list sorted by expiry (after equal
    ones), a tick decrements every expiry. *)

From S2P Require Import Prelude Std Dq.
From Stdlib Require Import ZArith Lia Bool.
From stdpp Require Import base gmap list numbers.

Local Open Scope Z_scope.

Section DeltaChain.
Context {A : Type} `{Countable A}.
Abbreviation heap := (gmap A (lnode A)).
Abbreviation deltas := (gmap A Z).

Definition get_delta (ds : deltas) (n : A) : res Z :=
  match ds !! n with Some v => Ok v | None => Fault FDangling end.
Definition set_delta (ds : deltas) (n : A) (v : Z) : res deltas :=
  let* _ := get_delta ds n in Ok (<[n := v]> ds).

(** The search loop of the insertion: stops at the first node whose delta
    exceeds what remains, which it shortens. *)
Fixpoint delta_chain_search (fuel : nat) (h : heap) (ds : deltas) (remaining : Z)
    (cur pv : option A) : res (deltas * Z * option A * option A) :=
  match cur with
  | None => Ok (ds, remaining, pv, None)
  | Some c =>
      match fuel with
      | O => Fault FFuel
      | S fuel =>
          let* dl := get_delta ds c in
          if remaining <? dl then
            let* ds := set_delta ds c (u64 (dl - remaining)) in
            Ok (ds, remaining, pv, Some c)
          else
            let* nd := load h c in
            delta_chain_search fuel h ds (u64 (remaining - dl)) (next nd) (Some c)
      end
  end.

Definition delta_chain_insert (h : heap) (ds : deltas) (chain : dq A) (node : A)
    (ticks : Z) : res (heap * deltas * dq A) :=
  let* h := set_prev h node None in
  let* h := set_next h node None in
  if dq_is_empty chain then
    let* ds := set_delta ds node ticks in
    let* hd := dq_pushfront h chain node in
    Ok (fst hd, ds, snd hd)
  else
    let* r := delta_chain_search (size h) h ds ticks (front chain) None in
    let '(ds, remaining, pv, cur) := r in
    let* ds := set_delta ds node remaining in
    let* hd := dq_insert h chain node pv cur in
    Ok (fst hd, ds, snd hd).

(** Pops every leading node with delta 0; the result lists them in the order
    in which the callback runs on them. *)
Fixpoint delta_chain_advance_loop (fuel : nat) (h : heap) (ds : deltas) (chain : dq A)
    (fired : list A) : res (list A * heap * dq A) :=
  match dq_peekfront chain with
  | None => Ok (fired, h, chain)
  | Some c =>
      match fuel with
      | O => Fault FFuel
      | S fuel =>
          let* dl := get_delta ds c in
          if negb (dl =? 0) then Ok (fired, h, chain) else
          let* r := dq_popfront h chain in
          let '(_, h, chain) := r in
          delta_chain_advance_loop fuel h ds chain (fired ++ [c])
      end
  end.
Definition delta_chain_advance (h : heap) (ds : deltas) (chain : dq A)
  : res (list A * heap * dq A) :=
  delta_chain_advance_loop (size h) h ds chain [].

Definition delta_chain_tick (h : heap) (ds : deltas) (chain : dq A)
  : res (list A * heap * deltas * dq A) :=
  match front chain with
  | None => Ok ([], h, ds, chain)
  | Some n =>
      let* dl := get_delta ds n in
      let* go :=
        if dl =? 0 then Ok (true, ds)
        else let* ds := set_delta ds n (u64 (dl - 1)) in
             Ok (u64 (dl - 1) =? 0, ds) in
      let '(adv, ds) := go in
      if (adv : bool) then
        let* r := delta_chain_advance h ds chain in
        let '(fired, h, chain) := r in Ok (fired, h, ds, chain)
      else Ok ([], h, ds, chain)
  end.

Definition delta_chain_dequeue_no_callback (h : heap) (ds : deltas) (chain : dq A)
    (node : A) : res (heap * deltas * dq A) :=
  let* nd := load h node in
  let* ds :=
    match next nd with
    | Some m =>
        let* dm := get_delta ds m in
        let* dn := get_delta ds node in
        set_delta ds m (u64 (dm + dn))
    | None => Ok ds
    end in
  let* hd := dq_dequeue h chain node in
  Ok (fst hd, ds, snd hd).

Definition delta_chain_is_queued (h : heap) (chain : dq A) (node : A) : res bool :=
  dq_is_queued h chain node.
Definition delta_chain_is_empty (chain : dq A) : bool := dq_is_empty chain.
Definition delta_chain_peekfront (chain : dq A) : option A := dq_peekfront chain.
Definition delta_chain_is_front (chain : dq A) (node : A) : bool :=
  bool_decide (delta_chain_peekfront chain = Some node).
Definition delta_chain_popfront_noupdate (h : heap) (chain : dq A)
  : res (option A * heap * dq A) := dq_popfront h chain.

(** ** The abstract chain *)

Abbreviation pairs := (list (A * Z)).

Definition deltas_ok (ds : deltas) (ps : pairs) : Prop :=
  Forall (fun p => ds !! p.1 = Some p.2 ∧ 0 <= p.2 < 2 ^ 64) ps.

Record dc_rep (h : heap) (ds : deltas) (d : dq A) (ps : pairs) : Prop := {
  dc_dq : dq_rep h d ps.*1;
  dc_delta : deltas_ok ds ps;
}.

(** [ds'] differs from [ds] at most on [l]. *)
Definition deltas_frame (ds ds' : deltas) (l : list A) : Prop :=
  ∀ m, m ∉ l → ds' !! m = ds !! m.

(** Absolute expiries: running sums of the deltas. *)
Fixpoint expiries (acc : Z) (ps : pairs) : pairs :=
  match ps with
  | [] => []
  | (n, x) :: ps' => (n, acc + x) :: expiries (acc + x) ps'
  end.

(** Insertion into a list ordered by expiry, after the equal ones. *)
Fixpoint exp_insert (n : A) (t : Z) (xs : pairs) : pairs :=
  match xs with
  | [] => [(n, t)]
  | (m, x) :: xs' => if t <? x then (n, t) :: xs else (m, x) :: exp_insert n t xs'
  end.

(** The same on deltas. *)
Fixpoint delta_insert (n : A) (t : Z) (ps : pairs) : pairs :=
  match ps with
  | [] => [(n, t)]
  | (m, x) :: ps' =>
      if t <? x then (n, t) :: (m, x - t) :: ps'
      else (m, x) :: delta_insert n (t - x) ps'
  end.

Lemma expiries_delta_insert acc n t ps :
  expiries acc (delta_insert n t ps) = exp_insert n (acc + t) (expiries acc ps).
Proof.
  revert acc t. induction ps as [|[m x] ps IH]; intros acc t; [done|]. simpl.
  destruct (Z.ltb_spec t x), (Z.ltb_spec (acc + t) (acc + x)); try lia; simpl.
  - replace (acc + t + (x - t)) with (acc + x) by lia. done.
  - f_equal. rewrite IH. f_equal. lia.
Qed.

Lemma expiries_fst acc ps : (expiries acc ps).*1 = ps.*1.
Proof. revert acc. induction ps as [|[n x] ps IH]; intros acc; simpl; [done|]. by rewrite IH. Qed.

Lemma expiries_app acc ps qs :
  expiries acc (ps ++ qs) =
  expiries acc ps ++ expiries (acc + foldr Z.add 0 ps.*2) qs.
Proof.
  revert acc. induction ps as [|[n x] ps IH]; intros acc; simpl.
  - by rewrite Z.add_0_r.
  - f_equal. rewrite IH. by rewrite Z.add_assoc.
Qed.

Lemma expiries_shift acc k ps :
  expiries (acc + k) ps = (fun p => (p.1, p.2 + k)) <$> expiries acc ps.
Proof.
  revert acc. induction ps as [|[n x] ps IH]; intros acc; [done|]. simpl.
  rewrite <- IH. replace (acc + k + x) with (acc + x + k) by lia. done.
Qed.

Lemma get_delta_ok ds n x : ds !! n = Some x → get_delta ds n = Ok x.
Proof. intros E. unfold get_delta. by rewrite E. Qed.
Lemma set_delta_ok ds n v : is_Some (ds !! n) → set_delta ds n v = Ok (<[n := v]> ds).
Proof. intros [x E]. unfold set_delta, get_delta. by rewrite E. Qed.

Lemma deltas_ok_frame ds ds' l ps :
  deltas_ok ds ps → deltas_frame ds ds' l → (∀ m, m ∈ ps.*1 → m ∉ l) → deltas_ok ds' ps.
Proof.
  intros Hok Hf Hd. apply list.Forall_forall. intros [m y] Hin.
  destruct (proj1 (list.Forall_forall _ _) Hok _ Hin) as [E ?]. simpl in *. split; [|done]. rewrite Hf; [done|].
  apply Hd. apply list_elem_of_fmap. exists (m, y). done.
Qed.

Lemma delta_insert_fst n t ps m : m ∈ (delta_insert n t ps).*1 ↔ m = n ∨ m ∈ ps.*1.
Proof.
  revert t. induction ps as [|[k x] ps IH]; intros t; simpl; [set_solver|].
  case_match; simpl; rewrite !elem_of_cons; [tauto|]. rewrite IH. tauto.
Qed.

(** The search splits the chain where the reference insertion does. *)
Lemma delta_chain_search_spec fuel h ds n t ps pv :
  NoDup ps.*1 → linked h pv ps.*1 None → deltas_ok ds ps → 0 <= t < 2 ^ 64 →
  (length ps <= fuel)%nat →
  ∃ ds' t' qs1 qs2,
    delta_chain_search fuel h ds t (hd_or ps.*1 None) pv =
      Ok (ds', t', last_or pv qs1.*1, hd_or qs2.*1 None) ∧
    ps.*1 = qs1.*1 ++ qs2.*1 ∧ delta_insert n t ps = qs1 ++ (n, t') :: qs2 ∧
    deltas_ok ds' qs1 ∧ deltas_ok ds' qs2 ∧ 0 <= t' < 2 ^ 64 ∧
    deltas_frame ds ds' ps.*1.
Proof.
  revert fuel ds t pv. induction ps as [|[m x] ps IH]; intros fuel ds t pv Hnd Hl Hok Ht Hf.
  - exists ds, t, [], []. simpl. split; [by destruct fuel|]. unfold deltas_frame. split_and!; try done; try constructor; lia.
  - destruct fuel as [|fuel]; simpl in Hf; [lia|].
    apply list.Forall_cons in Hok as [[Hm Hx] Hok]. simpl in Hm, Hx, Hnd.
    apply list.NoDup_cons in Hnd as [Hmin Hnd]. destruct Hl as [Hml Hl]. simpl in Hml, Hl.
    simpl. rewrite (get_delta_ok _ _ _ Hm). simpl rbind.
    destruct (Z.ltb_spec t x).
    + rewrite set_delta_ok by eauto. simpl rbind.
      assert (u64 (x - t) = x - t) as -> by (apply wrap_small; lia).
      exists (<[m := x - t]> ds), t, [], ((m, x - t) :: ps). simpl.
      assert (deltas_frame ds (<[m := x - t]> ds) [m]) as Hfr.
      { intros k Hk. apply lookup_insert_ne. set_solver. }
      split; [done|]. split; [done|]. split; [done|]. split; [by constructor|].
      split; [|split; [lia|intros k Hk; apply Hfr; set_solver]].
      constructor; [simpl; split; [by rewrite lookup_insert_eq|lia]|].
      eapply deltas_ok_frame; [done|done|set_solver].
    + rewrite (load_ok _ _ _ Hml). simpl rbind.
      assert (u64 (t - x) = t - x) as -> by (apply wrap_small; lia).
      destruct (IH fuel ds (t - x) (Some m)) as
        (ds' & t' & qs1 & qs2 & E & E1 & E2 & Ho1 & Ho2 & Ht' & Hfr); try done; try lia.
      exists ds', t', ((m, x) :: qs1), qs2. simpl. rewrite last_or_cons.
      split; [done|]. split; [f_equal; exact E1|]. split; [by rewrite E2|].
      split; [|split; [done|split; [done|]]].
      * constructor; [|done]. simpl. rewrite Hfr by done. done.
      * intros k Hk. apply Hfr. set_solver.
Qed.

(** Insertion refines [delta_insert]: it returns, the chain holds the node at
    the right place and no other chain is touched. *)
Lemma delta_chain_insert_spec h ds d ps n t :
  dc_rep h ds d ps → is_Some (h !! n) → is_Some (ds !! n) → n ∉ ps.*1 →
  0 <= t < 2 ^ 64 →
  ∃ h' ds' d', delta_chain_insert h ds d n t = Ok (h', ds', d') ∧
    dc_rep h' ds' d' (delta_insert n t ps) ∧
    heap_frame h h' (n :: ps.*1) ∧ deltas_frame ds ds' (n :: ps.*1).
Proof.
  intros [Hrep Hok] [nd Hn] Hdn Hnin Ht. unfold delta_chain_insert.
  rewrite (set_prev_ok _ _ _ _ Hn). simpl rbind.
  rewrite (set_next_ok _ n (LNode (next nd) None)) by apply lookup_insert_eq.
  simpl rbind. rewrite insert_insert_eq. simpl prev.
  set (h0 := <[n := LNode None None]> h).
  assert (heap_frame h h0 [n]) as Hf0 by (eapply heap_frame_insert; [done|left]).
  assert (dq_rep h0 d ps.*1) as Hrep0.
  { eapply dq_rep_frame; [done|done|set_solver]. }
  assert (is_Some (h0 !! n)) as Hn0 by (unfold h0; rewrite lookup_insert_eq; eauto).
  rewrite (dq_is_empty_spec _ _ _ Hrep).
  destruct ps as [|[m x] ps].
  - simpl. rewrite set_delta_ok by done. simpl rbind.
    destruct (dq_pushfront_spec h0 d [] n Hrep0 Hn0 Hnin) as (h' & d' & -> & Hr & Hf).
    exists h', (<[n := t]> ds), d'. simpl. split; [done|]. split; [|split].
    + split; [done|]. constructor; [|constructor]. simpl. by rewrite lookup_insert_eq.
    + eapply heap_frame_trans; eapply heap_frame_mono; try done; set_solver.
    + intros k Hk. apply lookup_insert_ne. set_solver.
  - rewrite bool_decide_false by done. set (qs := (m, x) :: ps) in *.
    rewrite (rep_front _ _ _ Hrep).
    destruct (delta_chain_search_spec (size h0) h0 ds n t qs None) as
      (ds1 & t' & qs1 & qs2 & -> & E1 & E2 & Ho1 & Ho2 & Ht' & Hfr); try done.
    { apply Hrep. } { apply Hrep0. }
    { rewrite <- (length_fmap fst). by eapply linked_length; apply Hrep0. }
    simpl rbind. rewrite set_delta_ok by (rewrite Hfr by done; done). simpl rbind.
    rewrite E1 in Hrep0, Hnin.
    destruct (dq_insert_spec h0 d qs1.*1 qs2.*1 n Hrep0 Hn0 Hnin) as (h' & d' & -> & Hr & Hf).
    assert (deltas_frame ds1 (<[n := t']> ds1) [n]) as Hf1.
    { intros k Hk. apply lookup_insert_ne. set_solver. }
    exists h', (<[n := t']> ds1), d'. simpl rbind. split; [done|]. rewrite E2, E1. split; [split|split].
    + by rewrite fmap_app.
    + apply Forall_app. split; [|constructor]; simpl; [|by rewrite lookup_insert_eq|];
        (eapply deltas_ok_frame; [done|done|set_solver]).
    + eapply heap_frame_trans; eapply heap_frame_mono; try done; set_solver.
    + intros k Hk. rewrite Hf1 by set_solver. apply Hfr. rewrite E1. set_solver.
Qed.

(** The leading nodes with delta 0, and the rest. *)
Fixpoint span0 (ps : pairs) : list A * pairs :=
  match ps with
  | [] => ([], [])
  | (n, x) :: ps' => if x =? 0 then (n :: (span0 ps').1, (span0 ps').2) else ([], ps)
  end.

Definition decr_front (ps : pairs) : pairs :=
  match ps with
  | [] => []
  | (n, x) :: ps' => (n, if x =? 0 then 0 else x - 1) :: ps'
  end.

Lemma delta_chain_advance_loop_spec fuel h ds d ps fired :
  dc_rep h ds d ps → (length ps <= fuel)%nat →
  ∃ h' d', delta_chain_advance_loop fuel h ds d fired =
      Ok (fired ++ (span0 ps).1, h', d') ∧
    dc_rep h' ds d' (span0 ps).2 ∧
    (∀ m, m ∈ (span0 ps).1 → detached h' m) ∧ heap_frame h h' ps.*1.
Proof.
  revert fuel h d fired. induction ps as [|[n x] ps IH]; intros fuel h d fired [Hrep Hok] Hf.
  - exists h, d. simpl. rewrite app_nil_r. split.
    + destruct fuel; simpl; by rewrite (dq_peekfront_spec _ _ _ Hrep).
    + split; [by split|]. split; [by intros ? ?%elem_of_nil|auto with twan].
  - destruct fuel as [|fuel]; simpl in Hf; [lia|].
    pose proof Hok as Hok0. apply list.Forall_cons in Hok as [[Hn Hx] Hok].
    simpl in Hn, Hx. cbn [delta_chain_advance_loop span0].
    rewrite (dq_peekfront_spec _ _ _ Hrep). change (head ((n, x) :: ps).*1) with (Some n). cbv iota.
    rewrite (get_delta_ok _ _ _ Hn). simpl rbind.
    destruct (Z.eqb_spec x 0) as [->|]; simpl negb; cbv iota.
    + destruct (dq_popfront_spec h d _ Hrep) as (h1 & d1 & -> & Hr1 & Hd1 & Hf1).
      simpl rbind. destruct (IH fuel h1 d1 (fired ++ [n])) as (h' & d' & -> & Hr & Hd & Hfr);
        [by split|lia|].
      exists h', d'. rewrite <- app_assoc. split; [done|]. split; [done|]. split.
      * intros m [->|Hm]%elem_of_cons; [|by apply Hd].
        eapply detached_frame; [done|done|].
        apply (rep_nodup _ _ _), list.NoDup_cons in Hrep as [? _]. done.
      * eapply heap_frame_trans; eapply heap_frame_mono; try done; set_solver.
    + exists h, d. rewrite app_nil_r. split; [done|].
      split; [by split|]. split; [by intros ? ?%elem_of_nil|auto with twan].
Qed.

Lemma dc_rep_length h ds d ps : dc_rep h ds d ps → (length ps <= size h)%nat.
Proof.
  intros [Hrep _]. rewrite <- (length_fmap fst).
  eapply linked_length; apply Hrep.
Qed.

Lemma delta_chain_tick_spec h ds d ps :
  dc_rep h ds d ps →
  ∃ h' ds' d', delta_chain_tick h ds d = Ok ((span0 (decr_front ps)).1, h', ds', d') ∧
    dc_rep h' ds' d' (span0 (decr_front ps)).2 ∧
    (∀ m, m ∈ (span0 (decr_front ps)).1 → detached h' m) ∧
    heap_frame h h' ps.*1 ∧ deltas_frame ds ds' ps.*1.
Proof.
  intros Hdc. pose proof Hdc as [Hrep Hok]. unfold delta_chain_tick.
  rewrite (rep_front _ _ _ Hrep). destruct ps as [|[n x] ps].
  { exists h, ds, d. split; [done|]. split; [done|]. split; [by intros ? ?%elem_of_nil|].
    split; [auto with twan|done]. }
  change (hd_or ((n, x) :: ps).*1 None) with (Some n). cbv iota. apply list.Forall_cons in Hok as [[Hn Hx] Hok].
  simpl in Hn, Hx. rewrite (get_delta_ok _ _ _ Hn). simpl rbind. unfold decr_front.
  assert (n ∉ ps.*1) as Hnin.
  { apply (rep_nodup _ _ _), list.NoDup_cons in Hrep as [? _]. done. }
  destruct (Z.eqb_spec x 0) as [->|Hx0].
  - simpl rbind. cbv iota.
    destruct (delta_chain_advance_loop_spec (size h) h ds d ((n, 0) :: ps) [] Hdc)
      as (h' & d' & E & Hr & Hd & Hfr); [by eapply dc_rep_length|].
    unfold delta_chain_advance. rewrite E. simpl rbind.
    exists h', ds, d'. split; [done|]. split; [done|]. split; [done|]. by split.
  - assert (u64 (x - 1) = x - 1) as -> by (apply wrap_small; lia).
    rewrite set_delta_ok by eauto. simpl rbind.
    assert (deltas_frame ds (<[n := x - 1]> ds) [n]) as Hf1.
    { intros k Hk. apply lookup_insert_ne. set_solver. }
    assert (deltas_frame ds (<[n := x - 1]> ds) ((n, x) :: ps).*1) as Hf2.
    { intros k Hk. apply Hf1. set_solver. }
    assert (dc_rep h (<[n := x - 1]> ds) d ((n, x - 1) :: ps)) as Hdc'.
    { split; [done|]. constructor; [simpl; split; [by rewrite lookup_insert_eq|lia]|].
      eapply deltas_ok_frame; [done|exact Hf1|set_solver]. }
    cbv iota. destruct (Z.eqb_spec (x - 1) 0) as [Hx1|Hx1].
    + destruct (delta_chain_advance_loop_spec (size h) h _ d _ [] Hdc')
        as (h' & d' & E & Hr & Hd & Hfr); [by eapply (dc_rep_length _ _ _ _ Hdc')|].
      unfold delta_chain_advance. rewrite E. simpl rbind.
      eexists h', _, d'. split; [done|]. split; [done|]. split; [done|]. by split.
    + cbn [span0]. rewrite (proj2 (Z.eqb_neq (x - 1) 0)) by done.
      exists h, (<[n := x - 1]> ds), d. split; [done|]. split; [done|].
      split; [by intros ? ?%elem_of_nil|]. split; [auto with twan|done].
Qed.

(** On expiries, one step of the front delta is a step of every expiry. *)
Definition tick_amount (ps : pairs) : Z :=
  match ps with [] => 0 | (_, x) :: _ => if x =? 0 then 0 else 1 end.

Lemma expiries_decr_front ps :
  expiries 0 (decr_front ps) =
  (fun p => (p.1, p.2 - tick_amount ps)) <$> expiries 0 ps.
Proof.
  destruct ps as [|[n x] ps]; [done|]. simpl. f_equal.
  - f_equal. destruct (Z.eqb_spec x 0); lia.
  - rewrite <- (expiries_shift x (- (if x =? 0 then 0 else 1))). f_equal.
    destruct (Z.eqb_spec x 0); lia.
Qed.

Lemma expiries_ge acc ps :
  Forall (fun p => 0 <= p.2) ps → Forall (fun p => acc <= p.2) (expiries acc ps).
Proof.
  revert acc. induction ps as [|[n x] ps IH]; intros acc Hp; simpl; constructor;
    apply list.Forall_cons in Hp as [Hx Hp]; simpl in *; [lia|].
  eapply list.Forall_impl; [by apply IH|]. simpl. intros. lia.
Qed.

Lemma span0_expiries ps :
  Forall (fun p => 0 <= p.2) ps →
  (span0 ps).1 = (filter (fun p => p.2 = 0) (expiries 0 ps)).*1 ∧
  expiries 0 (span0 ps).2 = filter (fun p => p.2 ≠ 0) (expiries 0 ps).
Proof.
  induction ps as [|[n x] ps IH]; intros Hp; [done|].
  apply list.Forall_cons in Hp as [Hx Hp]. simpl in Hx. cbn [span0 expiries].
  rewrite Z.add_0_l. destruct (Z.eqb_spec x 0) as [->|Hne].
  - rewrite filter_cons_True, filter_cons_False by (simpl; congruence).
    destruct (IH Hp) as [E1 E2]. cbn [fst snd]. rewrite E1, E2. done.
  - rewrite filter_cons_False, filter_cons_True by done.
    assert (Forall (fun p : A * Z => x <= p.2) (expiries x ps)) as Hge by by apply expiries_ge.
    assert (0 < x) as Hpos by lia. clear -Hge Hpos.
    assert (filter (fun p : A * Z => p.2 = 0) (expiries x ps) = [] ∧
      filter (fun p : A * Z => p.2 ≠ 0) (expiries x ps) = expiries x ps) as [-> E2].
    { induction Hge as [|p l Hp Hge IH]; [done|]. destruct IH as [IH1 IH2].
      rewrite filter_cons_False, filter_cons_True by lia. by rewrite IH1, IH2. }
    rewrite E2. cbn [fst snd expiries]. split; [done|]. by rewrite Z.add_0_l.
Qed.

(** Removing a node hands its delta to the next one. *)
Definition delta_give (x : Z) (ps : pairs) : pairs :=
  match ps with [] => [] | (m, y) :: ps' => (m, y + x) :: ps' end.

Lemma delta_chain_dequeue_no_callback_spec h ds d ps1 n x ps2 :
  dc_rep h ds d (ps1 ++ (n, x) :: ps2) →
  Forall (fun p => p.2 < 2 ^ 64) (delta_give x ps2) →
  ∃ h' ds' d', delta_chain_dequeue_no_callback h ds d n = Ok (h', ds', d') ∧
    dc_rep h' ds' d' (ps1 ++ delta_give x ps2) ∧ detached h' n ∧
    heap_frame h h' (ps1 ++ (n, x) :: ps2).*1 ∧ deltas_frame ds ds' ps2.*1.
Proof.
  intros [Hrep Hok] Hlt. unfold delta_chain_dequeue_no_callback.
  rewrite fmap_app, fmap_cons in Hrep. cbn [fst] in Hrep.
  apply Forall_app in Hok as [Hok1 Hok].
  apply list.Forall_cons in Hok as [[Hn Hx] Hok2]. cbn [fst snd] in Hn, Hx.
  pose proof (rep_nodup _ _ _ Hrep) as Hnd.
  apply list.NoDup_app in Hnd as (_ & Hdis & Hnd2).
  apply list.NoDup_cons in Hnd2 as [Hn2 Hnd2].
  pose proof (rep_linked _ _ _ Hrep) as Hl. apply linked_app in Hl as [_ [Hln _]].
  rewrite (load_ok _ _ _ Hln). simpl rbind. cbn [next].
  destruct (dq_dequeue_spec h d _ _ _ Hrep) as (h' & d' & E & Hr & Hd & Hfr).
  destruct ps2 as [|[m y] ps2].
  - cbn. rewrite E. simpl rbind. exists h', ds, d'. split; [done|].
    rewrite fmap_app, fmap_cons. split; [|by split].
    split; [by rewrite fmap_app|]. apply Forall_app. by split.
  - change (hd_or ((m, y) :: ps2).*1 None) with (Some m). cbv iota.
    apply list.Forall_cons in Hok2 as [[Hm Hy] Hok2]. cbn [fst snd] in Hm, Hy.
    apply list.Forall_cons in Hlt as [Hlt _]. cbn [snd] in Hlt.
    rewrite (get_delta_ok _ _ _ Hm), (get_delta_ok _ _ _ Hn). simpl rbind.
    assert (u64 (y + x) = y + x) as -> by (apply wrap_small; lia).
    rewrite set_delta_ok by eauto. simpl rbind. rewrite E. simpl rbind.
    assert (deltas_frame ds (<[m := y + x]> ds) [m]) as Hf1.
    { intros k Hk. apply lookup_insert_ne. set_solver. }
    exists h', (<[m := y + x]> ds), d'. split; [done|].
    rewrite fmap_app, fmap_cons. split; [|split; [done|split; [done|]]].
    + split; [by rewrite fmap_app|]. apply Forall_app. split.
      * eapply deltas_ok_frame; [exact Hok1|exact Hf1|]. intros k Hk Hk2.
        apply (Hdis k Hk). set_solver.
      * constructor; [cbn; split; [by rewrite lookup_insert_eq|lia]|].
        apply list.NoDup_cons in Hnd2 as [Hm2 _].
        eapply deltas_ok_frame; [exact Hok2|exact Hf1|]. cbn in Hm2. set_solver.
    + intros k Hk. apply Hf1. set_solver.
Qed.

Lemma expiries_remove acc ps1 n x ps2 :
  NoDup (ps1 ++ (n, x) :: ps2).*1 →
  expiries acc (ps1 ++ delta_give x ps2) =
  filter (fun p => p.1 ≠ n) (expiries acc (ps1 ++ (n, x) :: ps2)).
Proof.
  intros Hnd. rewrite !expiries_app, list.filter_app.
  rewrite fmap_app, fmap_cons in Hnd. apply list.NoDup_app in Hnd as (_ & Hd & Hnd).
  apply list.NoDup_cons in Hnd as [Hn _]. cbn [fst] in Hd, Hn.
  assert (∀ b qs, n ∉ qs.*1 → filter (fun p => p.1 ≠ n) (expiries b qs) = expiries b qs) as Hkeep.
  { intros b qs. revert b. induction qs as [|[k z] qs IH]; intros b Hq; [done|].
    rewrite fmap_cons in Hq. cbn [expiries fst] in Hq |- *. apply not_elem_of_cons in Hq as [? Hq].
    rewrite filter_cons_True by (simpl; congruence). by rewrite IH. }
  rewrite Hkeep by (intros Hin; apply (Hd _ Hin); left). f_equal.
  cbn [expiries]. rewrite filter_cons_False by (cbn; tauto). rewrite Hkeep by done.
  destruct ps2 as [|[m y] ps2]; [done|]. cbn [delta_give expiries].
  match goal with |- (_, ?a) :: _ = (_, ?b) :: _ => replace a with b by lia end. done.
Qed.

Lemma dc_rep_expiries_nonneg h ds d ps :
  dc_rep h ds d ps → Forall (fun p => 0 <= p.2) ps.
Proof. intros [_ Hok]. eapply list.Forall_impl; [exact Hok|]. simpl. lia. Qed.

(** ** The timer queue ordered by expiry *)

(** C26.  Insertion puts a timer at its expiry: the chain's absolute expiries
    become those of the ordered insertion (after equal expiries), whatever the
    chain held, and nothing outside the chain is written. *)
Theorem delta_chain_insert_ordered h ds d ps n t :
  dc_rep h ds d ps → is_Some (h !! n) → is_Some (ds !! n) → n ∉ ps.*1 →
  0 <= t < 2 ^ 64 →
  ∃ h' ds' d' ps', delta_chain_insert h ds d n t = Ok (h', ds', d') ∧
    dc_rep h' ds' d' ps' ∧ expiries 0 ps' = exp_insert n t (expiries 0 ps) ∧
    heap_frame h h' (n :: ps.*1) ∧ deltas_frame ds ds' (n :: ps.*1).
Proof.
  intros Hdc Hn Hdn Hnin Ht.
  destruct (delta_chain_insert_spec _ _ _ _ _ _ Hdc Hn Hdn Hnin Ht)
    as (h' & ds' & d' & E & Hr & Hf & Hdf).
  exists h', ds', d', (delta_insert n t ps). split; [done|]. split; [done|].
  split; [|by split]. by rewrite expiries_delta_insert.
Qed.

(**  A tick brings every expiry one closer (unless a timer at distance 0
    waits at the front: then that tick only delivers it) and hands to the
    callback exactly the timers that are due, in order. *)
Theorem delta_chain_tick_fires h ds d ps :
  dc_rep h ds d ps →
  let ys := (fun p => (p.1, p.2 - tick_amount ps)) <$> expiries 0 ps in
  ∃ fired h' ds' d' ps', delta_chain_tick h ds d = Ok (fired, h', ds', d') ∧
    dc_rep h' ds' d' ps' ∧ fired = (filter (fun p => p.2 = 0) ys).*1 ∧
    expiries 0 ps' = filter (fun p => p.2 ≠ 0) ys ∧
    (∀ m, m ∈ fired → detached h' m).
Proof.
  intros Hdc ys.
  destruct (delta_chain_tick_spec _ _ _ _ Hdc) as (h' & ds' & d' & E & Hr & Hd & _).
  assert (Forall (fun p => 0 <= p.2) (decr_front ps)) as Hnn.
  { pose proof (dc_rep_expiries_nonneg _ _ _ _ Hdc) as Hp.
    destruct ps as [|[n x] ps]; [constructor|].
    apply list.Forall_cons in Hp as [Hx Hp]. constructor; [|done]. cbn in *.
    destruct (Z.eqb_spec x 0); lia. }
  destruct (span0_expiries _ Hnn) as [E1 E2]. rewrite expiries_decr_front in E1, E2.
  eexists _, h', ds', d', _. split; [exact E|]. split; [exact Hr|]. by split_and!.
Qed.

(** Cancelling a timer leaves the expiry of every other timer alone, as
    long as the sum of two neighbouring deltas fits in 64 bits. *)
Theorem delta_chain_dequeue_keeps_expiries h ds d ps1 n x ps2 :
  dc_rep h ds d (ps1 ++ (n, x) :: ps2) →
  Forall (fun p => p.2 < 2 ^ 64) (delta_give x ps2) →
  ∃ h' ds' d' ps', delta_chain_dequeue_no_callback h ds d n = Ok (h', ds', d') ∧
    dc_rep h' ds' d' ps' ∧ detached h' n ∧
    expiries 0 ps' = filter (fun p => p.1 ≠ n) (expiries 0 (ps1 ++ (n, x) :: ps2)).
Proof.
  intros Hdc Hlt.
  destruct (delta_chain_dequeue_no_callback_spec _ _ _ _ _ _ _ Hdc Hlt)
    as (h' & ds' & d' & E & Hr & Hd & _).
  eexists h', ds', d', _. split; [exact E|]. split; [exact Hr|]. split; [done|].
  apply expiries_remove. apply Hdc.
Qed.

End DeltaChain.

(** A chain of two timers, at 5 and 7 ticks; timer 3 is free. *)
Definition ex_heap : gmap nat (lnode nat) :=
  list_to_map [(1%nat, LNode (Some 2%nat) None); (2%nat, LNode None (Some 1%nat));
               (3%nat, LNode None None)].
Definition ex_deltas : gmap nat Z := list_to_map [(1%nat, 5); (2%nat, 2); (3%nat, 0)].
Definition ex_chain : dq nat := Dq (Some 1%nat) (Some 2%nat).

Lemma ex_chain_rep : dc_rep ex_heap ex_deltas ex_chain [(1%nat, 5); (2%nat, 2)].
Proof.
  split; [split|].
  - apply (bool_decide_unpack (NoDup _)). vm_compute. exact I.
  - vm_compute. done.
  - done.
  - done.
  - repeat constructor; cbn; lia.
Defined.

Lemma delta_chain_insert_ordered_witness :
  ∃ h' ds' d' ps', delta_chain_insert ex_heap ex_deltas ex_chain 3%nat 6 = Ok (h', ds', d') ∧
    dc_rep h' ds' d' ps' ∧ expiries 0 ps' = [(1%nat, 5); (3%nat, 6); (2%nat, 7)].
Proof.
  destruct (delta_chain_insert_ordered ex_heap ex_deltas ex_chain _ 3%nat 6 ex_chain_rep)
    as (h' & ds' & d' & ps' & E & Hr & He & _).
  - vm_compute. eauto.
  - vm_compute. eauto.
  - apply (bool_decide_unpack _). vm_compute. exact I.
  - lia.
  - exists h', ds', d', ps'. split; [exact E|]. split; [exact Hr|]. rewrite He. reflexivity.
Defined.

Lemma delta_chain_tick_fires_witness :
  ∃ h' ds' d' ps', delta_chain_tick ex_heap ex_deltas ex_chain = Ok ([], h', ds', d') ∧
    dc_rep h' ds' d' ps' ∧ expiries 0 ps' = [(1%nat, 4); (2%nat, 6)].
Proof.
  destruct (delta_chain_tick_fires ex_heap ex_deltas ex_chain _ ex_chain_rep)
    as (f & h' & ds' & d' & ps' & E & Hr & Hf & He & _).
  exists h', ds', d', ps'. vm_compute in Hf. subst f.
  split; [exact E|]. split; [exact Hr|]. rewrite He. reflexivity.
Defined.

Lemma delta_chain_dequeue_keeps_expiries_witness :
  ∃ h' ds' d' ps',
    delta_chain_dequeue_no_callback ex_heap ex_deltas ex_chain 1%nat = Ok (h', ds', d') ∧
    dc_rep h' ds' d' ps' ∧ expiries 0 ps' = [(2%nat, 7)].
Proof.
  destruct (delta_chain_dequeue_keeps_expiries ex_heap ex_deltas ex_chain [] 1%nat 5
              [(2%nat, 2)] ex_chain_rep) as (h' & ds' & d' & ps' & E & Hr & Hd & He).
  - repeat constructor.
  - exists h', ds', d', ps'. split; [exact E|]. split; [exact Hr|]. rewrite He. reflexivity.
Defined.
