(* ===== verification/Conc.v ===== *)
(** * Conc: interleavings of the lock routines

    The lock routines of src/subsys/sync are loops over single atomic
    accesses, run by several processors at once.  A routine is a [prog]: a
    tree of atomic accesses to shared registers.  [pexec] performs one access;
    [cstep] interleaves the accesses of [n] processors, each of which
    repeatedly takes the lock in some mode, stays in its critical section and
    releases it.  The atomics are sequentially consistent: each one is an
    acquire/release read-modify-write or access of one location of the lock,
    and the lock algorithms read no other shared memory.

    [LockSafe] is what a lock promises to its users: two processors are in
    their critical sections at once only in compatible modes.  [LockLive]: the
    processors that wait are never all stuck. *)

From S2P Require Import Prelude.
From Stdlib Require Import ZArith Lia Bool.
From stdpp Require Import base list numbers sets.

Local Open Scope Z_scope.

Section Prog.
Context {R : Type} `{EqDecision R}.

Definition regs := R → Z.
Definition rset (s : regs) (r : R) (v : Z) : regs :=
  fun r' => if decide (r = r') then v else s r'.

Lemma rset_eq s r v : rset s r v r = v.
Proof. unfold rset. by rewrite decide_True. Qed.
Lemma rset_ne s r r' v : r ≠ r' → rset s r v r' = s r'.
Proof. intros. unfold rset. by rewrite decide_False. Qed.

Inductive prog : Type :=
  | Ret (v : Z)                                 (* return *)
  | Ld (r : R) (k : Z → prog)                   (* atomic*_read *)
  | St (r : R) (v : Z) (k : prog)               (* atomic*_set *)
  | Faa (r : R) (d : Z) (k : Z → prog)          (* atomic32_fetch_and_add *)
  | Fand (r : R) (m : Z) (k : Z → prog)         (* atomic32_fetch_and_and *)
  | Xchg (r : R) (v : Z) (k : Z → prog)         (* atomic_ptr_xchg *)
  | Cas (r : R) (e v : Z) (k : bool → prog)     (* atomic*_cmpxchg *)
  | Until (r : R) (p : Z → bool) (k : Z → prog) (* spin_until on one read *)
  | Yield (k : prog)                            (* sched_yield, a hypercall *)
  | Loop (body k : prog)                        (* while: body returns 0 to go on *)
  | Panic.                                      (* a failed dynamic assertion *)

Fixpoint pbind (p : prog) (f : Z → prog) : prog :=
  match p with
  | Ret v => f v
  | Ld r k => Ld r (fun v => pbind (k v) f)
  | St r v k => St r v (pbind k f)
  | Faa r d k => Faa r d (fun v => pbind (k v) f)
  | Fand r m k => Fand r m (fun v => pbind (k v) f)
  | Xchg r v k => Xchg r v (fun v => pbind (k v) f)
  | Cas r e v k => Cas r e v (fun b => pbind (k b) f)
  | Until r p k => Until r p (fun v => pbind (k v) f)
  | Yield k => Yield (pbind k f)
  | Loop body k => Loop body (pbind k f)
  | Panic => Panic
  end.

(** One access.  [None]: returned, panicked, or spinning on a register whose
    value does not satisfy the condition yet. *)
Definition pexec (p : prog) (s : regs) : option (prog * regs) :=
  match p with
  | Ret _ | Panic => None
  | Ld r k => Some (k (s r), s)
  | St r v k => Some (k, rset s r v)
  | Faa r d k => Some (k (s r), rset s r (u32 (s r + d)))
  | Fand r m k => Some (k (s r), rset s r (Z.land (s r) m))
  | Xchg r v k => Some (k (s r), rset s r v)
  | Cas r e v k => if s r =? e then Some (k true, rset s r v) else Some (k false, s)
  | Until r p k => if p (s r) then Some (k (s r), s) else None
  | Yield k => Some (k, s)
  | Loop body k => Some (pbind body (fun v => if v =? 0 then Loop body k else k), s)
  end.

(** One processor running alone. *)
Fixpoint prun (fuel : nat) (p : prog) (s : regs) : option (Z * regs) :=
  match p with
  | Ret v => Some (v, s)
  | _ =>
      match fuel with
      | O => None
      | S fuel =>
          match pexec p s with
          | Some (p', s') => prun fuel p' s'
          | None => None
          end
      end
  end.

(** ** Code around the lock's own accesses

    [quiet core Q p]: until [p] reaches a program in [Q], it accesses only
    registers outside [core]. *)
Inductive quiet (core : R → bool) (Q : prog → Prop) : prog → Prop :=
  | q_now p : Q p → quiet core Q p
  | q_ld r k : (∀ v, quiet core Q (k v)) → quiet core Q (Ld r k)
  | q_st r v k : core r = false → quiet core Q k → quiet core Q (St r v k)
  | q_faa r d k : core r = false → (∀ v, quiet core Q (k v)) → quiet core Q (Faa r d k)
  | q_yield k : quiet core Q k → quiet core Q (Yield k)
  | q_panic : quiet core Q Panic.

Definition same_core (core : R → bool) (s s' : regs) : Prop :=
  ∀ r, core r = true → s' r = s r.

Lemma same_core_rset core s r v : core r = false → same_core core s (rset s r v).
Proof. intros Hr r' Hr'. apply rset_ne. congruence. Qed.

Lemma quiet_pexec core Q p s p' s' :
  quiet core Q p → pexec p s = Some (p', s') →
  Q p ∨ (quiet core Q p' ∧ same_core core s s').
Proof.
  intros Hq E. inversion Hq; subst; simpl in E; simplify_eq; [by left|right..].
  - split; [done|]. by intros r' ?.
  - split; [done|]. by apply same_core_rset.
  - split; [done|]. by apply same_core_rset.
  - split; [done|]. by intros r' ?.
Qed.

Lemma quiet_ret core Q v : quiet core Q (Ret v) → Q (Ret v).
Proof. by inversion 1. Qed.

Lemma quiet_mono core (Q Q' : prog → Prop) p :
  (∀ p, Q p → Q' p) → quiet core Q p → quiet core Q' p.
Proof.
  intros HQ Hq. induction Hq; [constructor 1; auto|constructor 2|constructor 3|
    constructor 4|constructor 5|constructor 6]; auto.
Qed.

(** Quiet code that leads to quiet code. *)
Lemma quiet_trans core core' (Q : prog → Prop) p :
  (∀ r, core r = false → core' r = false) →
  quiet core (quiet core' Q) p → quiet core' Q p.
Proof.
  intros Hc Hq. induction Hq; [done|apply q_ld|apply q_st|apply q_faa|apply q_yield|apply q_panic];
    auto.
Qed.

(** Programs that cannot panic. *)
Inductive nopanic : prog → Prop :=
  | np_ret v : nopanic (Ret v)
  | np_ld r k : (∀ v, nopanic (k v)) → nopanic (Ld r k)
  | np_st r v k : nopanic k → nopanic (St r v k)
  | np_faa r d k : (∀ v, nopanic (k v)) → nopanic (Faa r d k)
  | np_fand r m k : (∀ v, nopanic (k v)) → nopanic (Fand r m k)
  | np_xchg r v k : (∀ v, nopanic (k v)) → nopanic (Xchg r v k)
  | np_cas r e v k : (∀ b, nopanic (k b)) → nopanic (Cas r e v k)
  | np_until r p k : (∀ v, nopanic (k v)) → nopanic (Until r p k)
  | np_yield k : nopanic k → nopanic (Yield k)
  | np_loop body k : nopanic body → nopanic k → nopanic (Loop body k).

Lemma nopanic_pbind p f : nopanic p → (∀ v, nopanic (f v)) → nopanic (pbind p f).
Proof. intros Hp Hf. induction Hp; simpl; try constructor; auto. Qed.

Lemma nopanic_pexec p s p' s' : nopanic p → pexec p s = Some (p', s') → nopanic p'.
Proof.
  destruct 1; simpl; intros; repeat case_match; simplify_eq; auto.
  apply nopanic_pbind; [done|]. intros v. case_match; by constructor || done.
Qed.

(** A panic-free program that cannot perform its next access has returned or
    is spinning. *)
Lemma nopanic_blocked p s :
  nopanic p → pexec p s = None →
  (∃ v, p = Ret v) ∨ (∃ r q k, p = Until r q k ∧ q (s r) = false).
Proof. destruct 1; simpl; intros; repeat case_match; simplify_eq; eauto 7. Qed.

(** ** Clients of a lock *)

Context {Mo : Type}.

Record lock_impl := LockImpl {
  acquire : Mo → nat → prog;   (* returns nonzero when the lock is taken *)
  release : Mo → nat → prog;
  lock_init : regs;
}.

Inductive client : Type :=
  | Out
  | Acq (m : Mo) (p : prog)
  | Crit (m : Mo)
  | Rel (m : Mo) (p : prog).

Record config := Config { mem : regs; thr : nat → client }.

Definition upd (t : nat → client) (i : nat) (c : client) : nat → client :=
  fun j => if decide (i = j) then c else t j.

Lemma cfg_upd_eq t i c : upd t i c i = c.
Proof. unfold upd. by rewrite decide_True. Qed.
Lemma cfg_upd_ne t i j c : i ≠ j → upd t i c j = t j.
Proof. intros. unfold upd. by rewrite decide_False. Qed.

Variable L : lock_impl.
Variable allowed : Mo → bool.
Variable n : nat.

(** One step of processor [i]. *)
Inductive tstep (i : nat) : client → regs → client → regs → Prop :=
  | ts_begin m s : allowed m = true → tstep i Out s (Acq m (acquire L m i)) s
  | ts_acq m p s p' s' :
      pexec p s = Some (p', s') → tstep i (Acq m p) s (Acq m p') s'
  | ts_got m v s :
      tstep i (Acq m (Ret v)) s (if v =? 0 then Out else Crit m) s
  | ts_leave m s : tstep i (Crit m) s (Rel m (release L m i)) s
  | ts_rel m p s p' s' :
      pexec p s = Some (p', s') → tstep i (Rel m p) s (Rel m p') s'
  | ts_done m v s : tstep i (Rel m (Ret v)) s Out s.

Inductive cstep : config → config → Prop :=
  | cs i c cl' s' :
      (i < n)%nat → tstep i (thr c i) (mem c) cl' s' →
      cstep c (Config s' (upd (thr c) i cl')).

Definition config_init : config := Config (lock_init L) (fun _ => Out).

(** [reach k c]: the configuration [c] is reached by [k] steps. *)
Inductive reach : nat → config → Prop :=
  | reach_init : reach 0 config_init
  | reach_step k c c' : reach k c → cstep c c' → reach (S k) c'.

Definition compatible (compat : Mo → Mo → bool) (c : config) : Prop :=
  ∀ i j m1 m2, i ≠ j → (i < n)%nat → (j < n)%nat →
    thr c i = Crit m1 → thr c j = Crit m2 → compat m1 m2 = true.

(** Some processor that is taking or releasing the lock can perform its next
    access, or some processor is in its critical section: the waiting ones
    are not deadlocked. *)
Definition not_stuck (c : config) : Prop :=
  (∀ i, (i < n)%nat → thr c i = Out) ∨
  (∃ i, (i < n)%nat ∧ thr c i ≠ Out ∧ ∃ cl' s', tstep i (thr c i) (mem c) cl' s').

Lemma tstep_cases i cl s cl' s' :
  tstep i cl s cl' s' →
  match cl with
  | Out => s' = s ∧ ∃ m, allowed m = true ∧ cl' = Acq m (acquire L m i)
  | Acq m p =>
      (∃ p', pexec p s = Some (p', s') ∧ cl' = Acq m p') ∨
      (s' = s ∧ ∃ v, p = Ret v ∧ cl' = if v =? 0 then Out else Crit m)
  | Crit m => s' = s ∧ cl' = Rel m (release L m i)
  | Rel m p =>
      (∃ p', pexec p s = Some (p', s') ∧ cl' = Rel m p') ∨
      (s' = s ∧ ∃ v, p = Ret v ∧ cl' = Out)
  end.
Proof. destruct 1; eauto 6. Qed.

Definition client_nopanic (cl : client) : Prop :=
  match cl with
  | Out => True
  | Crit m => allowed m = true
  | Acq m p => allowed m = true ∧ nopanic p
  | Rel _ p => nopanic p
  end.

Lemma tstep_nopanic i cl s cl' s' :
  (∀ m, allowed m = true → nopanic (acquire L m i) ∧ nopanic (release L m i)) →
  client_nopanic cl → tstep i cl s cl' s' → client_nopanic cl'.
Proof.
  intros Ha Hn Ht. destruct Ht; simpl in *; try case_match; simpl;
    naive_solver eauto using nopanic_pexec.
Qed.

(** A processor that is not spinning can move. *)
Lemma tstep_enabled i cl s :
  client_nopanic cl → cl ≠ Out →
  (∀ r q k m, (cl = Acq m (Until r q k) ∨ cl = Rel m (Until r q k)) → q (s r) = true) →
  ∃ cl' s', tstep i cl s cl' s'.
Proof.
  intros Hn Ho Hu. destruct cl as [|m p|m|m p]; [done| |eexists _, _; constructor|].
  all: assert (nopanic p) as Hp by (simpl in Hn; naive_solver).
  all: destruct (pexec p s) as [[p' s']|] eqn:E; [by eexists _, _; constructor|].
  all: destruct (nopanic_blocked _ _ Hp E) as [[v ->]|(r & q & k & -> & Hq)].
  1,3: by eexists _, _; constructor.
  all: rewrite (Hu r q k m) in Hq; [done|auto].
Qed.

Lemma all_out_or (t : nat → client) :
  (∀ i, (i < n)%nat → t i = Out) ∨ ∃ i, (i < n)%nat ∧ t i ≠ Out.
Proof.
  induction n as [|k [IH|(i & Hi & IH)]]; [left; lia| |right; exists i; split; [lia|done]].
  destruct (t k) eqn:E; [|right; exists k; rewrite E; split; [lia|done]..].
  left. intros i Hi. destruct (decide (i = k)) as [->|]; [done|apply IH; lia].
Qed.

(** An invariant that is kept by every step holds in every reachable
    configuration. *)
Lemma reach_inv (I : nat → config → Prop) :
  I 0%nat config_init →
  (∀ k c i cl' s', I k c → (i < n)%nat → tstep i (thr c i) (mem c) cl' s' →
     I (S k) (Config s' (upd (thr c) i cl'))) →
  ∀ k c, reach k c → I k c.
Proof.
  intros H0 HS k c Hr. induction Hr as [|k c c' Hr IH Hc]; [done|].
  destruct Hc as [i c0 cl' s' Hi Ht]. by apply HS.
Qed.

(** ** Executing a schedule: which processor moves, and the mode in which it
    takes the lock if it is outside. *)
Definition tnext (i : nat) (m : Mo) (cl : client) (s : regs) : option (client * regs) :=
  match cl with
  | Out => if allowed m then Some (Acq m (acquire L m i), s) else None
  | Acq m' (Ret v) => Some (if v =? 0 then Out else Crit m', s)
  | Acq m' p => match pexec p s with Some (p', s') => Some (Acq m' p', s') | None => None end
  | Crit m' => Some (Rel m' (release L m' i), s)
  | Rel m' (Ret v) => Some (Out, s)
  | Rel m' p => match pexec p s with Some (p', s') => Some (Rel m' p', s') | None => None end
  end.

Lemma tnext_step i m cl s cl' s' :
  tnext i m cl s = Some (cl', s') → tstep i cl s cl' s'.
Proof.
  destruct cl as [|m' p|m'|m' p]; intros E.
  - cbn [tnext] in E. case_match; simplify_eq. by constructor.
  - destruct p as [v| | | | | | | | | |]; cbn [tnext] in E;
      [simplify_eq; apply ts_got|..];
      (match type of E with context [pexec ?p ?s] =>
         destruct (pexec p s) as [[p' s'']|] eqn:Hx end; [simplify_eq; by apply ts_acq|done]).
  - cbn [tnext] in E. simplify_eq. constructor.
  - destruct p as [v| | | | | | | | | |]; cbn [tnext] in E;
      [simplify_eq; apply ts_done|..];
      (match type of E with context [pexec ?p ?s] =>
         destruct (pexec p s) as [[p' s'']|] eqn:Hx end; [simplify_eq; by apply ts_rel|done]).
Qed.

Fixpoint schedule (acts : list (nat * Mo)) (c : config) : option config :=
  match acts with
  | [] => Some c
  | (i, m) :: acts' =>
      if (i <? n)%nat then
        match tnext i m (thr c i) (mem c) with
        | Some (cl', s') => schedule acts' (Config s' (upd (thr c) i cl'))
        | None => None
        end
      else None
  end.

Lemma schedule_reach acts k c c' :
  schedule acts c = Some c' → reach k c → reach (k + length acts) c'.
Proof.
  revert k c. induction acts as [|[i m] acts IH]; simpl; intros k c E Hr.
  - simplify_eq. by rewrite Nat.add_0_r.
  - destruct (Nat.ltb_spec i n); [|done].
    destruct (tnext i m (thr c i) (mem c)) as [[cl' s']|] eqn:Ht; [|done].
    rewrite Nat.add_succ_r. apply (IH (S k) _ E). eapply reach_step; [done|].
    constructor; [done|]. by eapply tnext_step.
Qed.

End Prog.

Arguments Ret {R} v.
Arguments Panic {R}.
Arguments regs : clear implicits.
Arguments prog : clear implicits.
Arguments client : clear implicits.
Arguments config : clear implicits.
Arguments lock_impl : clear implicits.
Arguments LockImpl {R Mo} acquire release lock_init.
Arguments acquire {R Mo} _ _ _.
Arguments release {R Mo} _ _ _.
Arguments lock_init {R Mo} _ _.
Arguments Out {R Mo}.
Arguments Acq {R Mo} m p.
Arguments Crit {R Mo} m.
Arguments Rel {R Mo} m p.
Arguments Config {R Mo} mem thr.
Arguments mem {R Mo} c _.
Arguments thr {R Mo} c _.

(** What a lock promises to the code it protects. *)
Class LockSafe {R Mo} `{EqDecision R} (L : lock_impl R Mo) (allowed : Mo → bool)
    (compat : Mo → Mo → bool) (max_cpus : Z) : Prop := {
  lock_excl n k c : Z.of_nat n <= max_cpus → reach L allowed n k c →
    compatible n compat c;
}.

Class LockLive {R Mo} `{EqDecision R} (L : lock_impl R Mo) (allowed : Mo → bool)
    (max_cpus : Z) : Prop := {
  lock_live n k c : Z.of_nat n <= max_cpus → reach L allowed n k c →
    not_stuck L allowed n c;
}.

(** Case analysis of one step of a processor in a known state. *)
Ltac inv_tstep H :=
  inversion H; subst; clear H; simplify_eq.

(** Walks through the accesses of a wrapper to the next branch. *)
Ltac quiet_steps :=
  repeat first
    [ apply q_ld; intros ? | apply q_st; [reflexivity|] | apply q_faa; [reflexivity|intros ?]
    | apply q_yield | apply q_panic ].

(** ** The registers of a lock and of the processors that use it *)
Inductive lreg (R : Type) : Type :=
  | LockReg (r : R)      (* the words of the lock *)
  | LockFlags            (* the flags word of its _isr variant *)
  | CpuFlags (i : nat)   (* RFLAGS of processor i *)
  | Preempt (i : nat)    (* preemption_count of the task current on i *)
  | YieldReq (i : nat)   (* yield_request of that task *)
  | Local (i x : nat).   (* local variable x of the routine run by i *)
Arguments LockReg {R} r.
Arguments LockFlags {R}.
Arguments CpuFlags {R} i.
Arguments Preempt {R} i.
Arguments YieldReq {R} i.
Arguments Local {R} i x.

#[export] Instance lreg_eq_dec {R} `{EqDecision R} : EqDecision (lreg R).
Proof. solve_decision. Defined.

Definition lock_core {R} (r : lreg R) : bool :=
  match r with LockReg _ => true | _ => false end.

Definition is_ret {R} (p : prog R) : Prop := ∃ v, p = Ret v.
(** Returns nonzero: the lock was taken. *)
Definition holds_lock {R} (p : prog R) : Prop := ∃ v, v ≠ 0 ∧ p = Ret v.

Section Wrappers.
Context {R : Type} `{EqDecision R}.

(** [disable_preemption] and [enable_preemption] of task.h, with their
    assertions, and [sched_try_answer_yield_request]. *)
Definition disable_preemption (i : nat) (k : prog (lreg R)) : prog (lreg R) :=
  Ld (Preempt i) (fun v =>
    if v <? 2 ^ 32 - 1 then Faa (Preempt i) 1 (fun _ => k) else Panic).
Definition enable_preemption (i : nat) (k : prog (lreg R)) : prog (lreg R) :=
  Ld (Preempt i) (fun v =>
    if negb (v =? 0) then Faa (Preempt i) (-1) (fun _ => k) else Panic).
Definition sched_try_answer_yield_request (i : nat) (k : prog (lreg R)) : prog (lreg R) :=
  disable_preemption i
    (Ld (CpuFlags i) (fun fl =>
       if Z.testbit fl 9 then
         Ld (Preempt i) (fun v =>
           if v =? 1 then
             Ld (YieldReq i) (fun y =>
               if negb (y =? 0) then Yield (enable_preemption i k)
               else enable_preemption i k)
           else enable_preemption i k)
       else enable_preemption i k)).
Definition current_task_disable_preemption (i : nat) (k : prog (lreg R)) : prog (lreg R) :=
  disable_preemption i k.
Definition current_task_enable_preemption (i : nat) (k : prog (lreg R)) : prog (lreg R) :=
  enable_preemption i (sched_try_answer_yield_request i k).

(** Bit 9 of RFLAGS is IF. *)
Definition read_flags_and_disable_interrupts (i : nat) (k : Z → prog (lreg R)) : prog (lreg R) :=
  Ld (CpuFlags i) (fun fl => St (CpuFlags i) (Z.clearbit fl 9) (k fl)).
Definition write_flags (i : nat) (fl : Z) (k : prog (lreg R)) : prog (lreg R) :=
  St (CpuFlags i) fl k.

(** The wrappers around the core routines. *)
Lemma enable_preemption_quiet (Q : prog (lreg R) → Prop) i k :
  quiet lock_core Q k → quiet lock_core Q (enable_preemption i k).
Proof. intros. apply q_ld. intros v. case_match; by quiet_steps. Qed.

Lemma disable_preemption_quiet (Q : prog (lreg R) → Prop) i k :
  quiet lock_core Q k → quiet lock_core Q (disable_preemption i k).
Proof. intros. apply q_ld. intros v. case_match; by quiet_steps. Qed.

Lemma answer_yield_quiet (Q : prog (lreg R) → Prop) i k :
  quiet lock_core Q k → quiet lock_core Q (sched_try_answer_yield_request i k).
Proof.
  intros Hk. apply disable_preemption_quiet. apply q_ld. intros fl.
  pose proof (enable_preemption_quiet Q i k Hk). case_match; [|done].
  apply q_ld. intros v. case_match; [|done]. apply q_ld. intros y.
  case_match; [by apply q_yield|done].
Qed.

Lemma task_enable_quiet (Q : prog (lreg R) → Prop) i k :
  quiet lock_core Q k → quiet lock_core Q (current_task_enable_preemption i k).
Proof. intros. by apply enable_preemption_quiet, answer_yield_quiet. Qed.


End Wrappers.
