(* ===== verification/Spinlock.v ===== *)
(** * Spinlock: the ticket lock of src/subsys/sync/spinlock.c

    The routines are programs over the registers of one lock: the two 32-bit
    tickets, the saved flags of a [spinlock_isr], and per processor the
    interrupt flags and the preemption count and yield request of its current
    task.  The ghost state of the proof is the queue of the processors that
    hold a ticket, the holder first, and the number of tickets served. *)

From S2P Require Import Prelude Std Conc.
From Stdlib Require Import ZArith Lia Bool.
From stdpp Require Import base list numbers sets.

Local Open Scope Z_scope.

Inductive sp_word : Type :=
  | Next       (* next_ticket *)
  | Current.   (* current_ticket *)

#[export] Instance sp_word_eq_dec : EqDecision sp_word.
Proof. solve_decision. Defined.

Abbreviation sp_reg := (lreg sp_word).
Abbreviation SpNext := (LockReg Next).
Abbreviation SpCurrent := (LockReg Current).

Definition spinlock_init : regs sp_reg → regs sp_reg :=
  fun s => rset (rset s SpNext 0) SpCurrent 0.

Definition spin_wait (ticket : Z) : prog sp_reg :=
  Until SpCurrent (fun v => v =? ticket) (fun _ => Ret 1).
Definition __spin_lock : prog sp_reg := Faa SpNext 1 (fun ticket => spin_wait ticket).

Definition __spin_unlock : prog sp_reg := Faa SpCurrent 1 (fun _ => Ret 0).

Definition spin_try_cas (expected : Z) : prog sp_reg :=
  Cas SpNext expected (u32 (expected + 1)) (fun b => Ret (b2z b)).
Definition spin_try_next (current : Z) : prog sp_reg :=
  Ld SpNext (fun expected =>
    if negb (current =? expected) then Ret 0 else spin_try_cas expected).
Definition __spin_trylock : prog sp_reg := Ld SpCurrent (fun current => spin_try_next current).

Definition spin_lock_disable_preemption (i : nat) : prog sp_reg :=
  current_task_disable_preemption i __spin_lock.
Definition spin_unlock_enable_preemption (i : nat) : prog sp_reg :=
  pbind __spin_unlock (fun v => current_task_enable_preemption i (Ret v)).
Definition spin_trylock_disable_preemption (i : nat) : prog sp_reg :=
  current_task_disable_preemption i
    (pbind __spin_trylock (fun ret =>
       if ret =? 0 then current_task_enable_preemption i (Ret ret) else Ret ret)).
Definition spin_lock (i : nat) : prog sp_reg := spin_lock_disable_preemption i.
Definition spin_unlock (i : nat) : prog sp_reg := spin_unlock_enable_preemption i.
Definition spin_trylock (i : nat) : prog sp_reg := spin_trylock_disable_preemption i.

Definition spinlock_isr_init (s : regs sp_reg) : regs sp_reg :=
  rset (spinlock_init s) LockFlags 0.

Definition __spin_lock_isr_save (i : nat) : prog sp_reg :=
  read_flags_and_disable_interrupts i (fun fl =>
    pbind __spin_lock (fun v => St LockFlags fl (Ret v))).
Definition __spin_unlock_isr_restore (i : nat) (fl : Z) : prog sp_reg :=
  pbind __spin_unlock (fun v => write_flags i fl (Ret v)).
Definition __spin_trylock_isr_save (i : nat) : prog sp_reg :=
  read_flags_and_disable_interrupts i (fun fl =>
    pbind __spin_trylock (fun ret =>
      if negb (ret =? 0) then St LockFlags fl (Ret ret) else write_flags i fl (Ret ret))).
Definition spin_lock_isr_save (i : nat) : prog sp_reg := __spin_lock_isr_save i.
Definition spin_unlock_isr_restore (i : nat) : prog sp_reg :=
  Ld LockFlags (fun fl => __spin_unlock_isr_restore i fl).
Definition spin_trylock_isr_save (i : nat) : prog sp_reg := __spin_trylock_isr_save i.

(** ** Clients *)

Inductive sp_mode := SpRaw | SpRawTry | SpPre | SpPreTry | SpIsr | SpIsrTry.

Definition sp_is_try (m : sp_mode) : bool :=
  match m with SpRawTry | SpPreTry | SpIsrTry => true | _ => false end.

Definition spinlock_impl : lock_impl sp_reg sp_mode := LockImpl
  (fun m i => match m with
     | SpRaw => __spin_lock
     | SpRawTry => pbind __spin_trylock (fun ret => Ret ret)
     | SpPre => spin_lock i | SpPreTry => spin_trylock i
     | SpIsr => spin_lock_isr_save i | SpIsrTry => spin_trylock_isr_save i end)
  (fun m i => match m with
     | SpRaw | SpRawTry => __spin_unlock
     | SpPre | SpPreTry => spin_unlock i
     | SpIsr | SpIsrTry => spin_unlock_isr_restore i end)
  (spinlock_isr_init (fun _ => 0)).

(** ** The ticket invariant *)

Abbreviation sp_core := (@lock_core sp_word).
Abbreviation quiet_sp := (quiet sp_core).


(** What follows the core routine in its wrapper. *)
Definition sp_post (f : Z → prog sp_reg) : Prop :=
  quiet_sp holds_lock (f 1) ∧ quiet_sp (fun p => p = Ret 0) (f 0).

(** A processor without a ticket; [ct] tickets were served. *)
Definition sp_start (try_ok : bool) (ct : Z) (p : prog sp_reg) : Prop :=
  p = Ret 0 ∨
  ∃ f, sp_post f ∧
    (p = pbind __spin_lock f ∨
     (try_ok = true ∧
      (p = pbind __spin_trylock f ∨
       ∃ E, 0 <= E <= ct ∧
         (p = pbind (spin_try_next (u32 E)) f ∨ p = pbind (spin_try_cas (u32 E)) f)))).

Definition sp_out (try_ok : bool) (ct : Z) (cl : client sp_reg sp_mode) : Prop :=
  match cl with
  | Out => True
  | Acq _ p => quiet_sp (sp_start try_ok ct) p
  | Crit _ => False
  | Rel _ p => quiet_sp is_ret p
  end.

(** A processor with the ticket [ct + pos]. *)
Definition sp_in (ct : Z) (pos : nat) (cl : client sp_reg sp_mode) : Prop :=
  match cl with
  | Out => False
  | Acq _ p =>
      (∃ f, sp_post f ∧ p = pbind (spin_wait (u32 (ct + Z.of_nat pos))) f) ∨
      (pos = 0%nat ∧ quiet_sp holds_lock p)
  | Crit _ => pos = 0%nat
  | Rel _ p =>
      pos = 0%nat ∧
      quiet_sp (fun p => ∃ f, (∀ v, quiet_sp is_ret (f v)) ∧ p = pbind __spin_unlock f) p
  end.

Record sp_inv (try_ok : bool) (n : nat) (ct : Z) (Q : list nat)
    (s : regs sp_reg) (t : nat → client sp_reg sp_mode) : Prop := {
  si_ct : 0 <= ct;
  si_nodup : NoDup Q;
  si_cpus : Forall (fun i => i < n)%nat Q;
  si_next : s SpNext = u32 (ct + Z.of_nat (length Q));
  si_current : s SpCurrent = u32 ct;
  si_in pos i : Q !! pos = Some i → sp_in ct pos (t i);
  si_out i : i ∉ Q → sp_out try_ok ct (t i);
}.

Lemma sp_inv_set try_ok n ct Q s t s' i cl' :
  sp_inv try_ok n ct Q s t → same_core sp_core s s' →
  (∀ pos, Q !! pos = Some i → sp_in ct pos cl') →
  (i ∉ Q → sp_out try_ok ct cl') →
  sp_inv try_ok n ct Q s' (upd t i cl').
Proof.
  intros [H1 H2 H3 H4 H5 H6 H7] Hs Hin Hout. split; try done.
  - by rewrite (Hs SpNext).
  - by rewrite (Hs SpCurrent).
  - intros pos j Hj. destruct (decide (i = j)) as [->|]; [rewrite cfg_upd_eq|rewrite cfg_upd_ne]; auto.
  - intros j Hj. destruct (decide (i = j)) as [->|]; [rewrite cfg_upd_eq|rewrite cfg_upd_ne]; auto.
Qed.

Lemma sp_acquire_start try_ok ct m i :
  (sp_is_try m = true → try_ok = true) → quiet_sp (sp_start try_ok ct) (acquire spinlock_impl m i).
Proof.
  intros Htry.
  assert (∀ f p, sp_post f → p = pbind __spin_lock f → quiet_sp (sp_start try_ok ct) p) as Hlock.
  { intros f p Hf ->. apply q_now. right. eauto. }
  assert (∀ f p, try_ok = true → sp_post f → p = pbind __spin_trylock f →
            quiet_sp (sp_start try_ok ct) p) as Htl.
  { intros f p Ht Hf ->. apply q_now. right. eauto 6. }
  assert (sp_post (fun ret => Ret ret)) as Hret.
  { split; apply q_now; [by exists 1|done]. }
  destruct m; simpl acquire.
  - by apply (Hlock (fun v => Ret v)).
  - apply (Htl (fun v => Ret v)); auto.
  - apply disable_preemption_quiet. by apply (Hlock (fun v => Ret v)).
  - apply disable_preemption_quiet. eapply Htl; [by auto| |reflexivity].
    split; simpl; [apply q_now; by exists 1|]. apply task_enable_quiet. by apply q_now.
  - unfold spin_lock_isr_save, __spin_lock_isr_save, read_flags_and_disable_interrupts.
    apply q_ld. intros fl. apply q_st; [done|]. eapply Hlock; [|reflexivity].
    split; quiet_steps; apply q_now; [by exists 1|done].
  - apply q_ld. intros fl. apply q_st; [done|]. eapply Htl; [by auto| |reflexivity].
    split; simpl; quiet_steps; apply q_now; [by exists 1|done].
Qed.

Lemma sp_release_quiet m i :
  quiet_sp (fun p => ∃ f, (∀ v, quiet_sp is_ret (f v)) ∧ p = pbind __spin_unlock f)
    (release spinlock_impl m i).
Proof.
  assert (∀ v, quiet_sp is_ret (Ret v)) as Hret by (intros v; apply q_now; by exists v).
  destruct m; simpl release;
    try (apply q_now; exists (fun v => Ret v); split; [done|reflexivity]);
    try (apply q_now; eexists; split; [intros v; apply task_enable_quiet, Hret|reflexivity]);
    (apply q_ld; intros fl; apply q_now; eexists; split; [|reflexivity];
      intros v; apply q_st; [done|apply Hret]).
Qed.

Lemma sp_start_mono try_ok ct ct' p : ct <= ct' → sp_start try_ok ct p → sp_start try_ok ct' p.
Proof.
  intros Hle [->|(f & Hf & [->|(Ht & [->|(E & HE & Hp)])])]; [by left|right; exists f; split; [done|]..].
  - by left.
  - right. split; [done|]. by left.
  - right. split; [done|]. right. exists E. split; [lia|done].
Qed.

Lemma sp_out_mono try_ok ct ct' cl : ct <= ct' → sp_out try_ok ct cl → sp_out try_ok ct' cl.
Proof.
  intros Hle. destruct cl; simpl; try done.
  apply quiet_mono. intros q. by apply sp_start_mono.
Qed.

(** Taking a ticket appends the processor to the queue. *)
Lemma sp_inv_take try_ok n ct Q s t i p :
  sp_inv try_ok n ct Q s t → (i < n)%nat → i ∉ Q → ∀ m,
  sp_in ct (length Q) (Acq m p) →
  sp_inv try_ok n ct (Q ++ [i]) (rset s SpNext (u32 (s SpNext + 1))) (upd t i (Acq m p)).
Proof.
  intros [H1 H2 H3 H4 H5 H6 H7] Hi Hiq m Hin. split; try done.
  - apply list.NoDup_app. split; [done|]. split; [set_solver|apply NoDup_singleton].
  - apply Forall_app. auto.
  - rewrite rset_eq, H4. unfold u32. rewrite wrap_add. f_equal. rewrite length_app. simpl. lia.
  - intros pos j Hj. apply lookup_app_Some in Hj as [Hj|[Hpos Hj]].
    + rewrite cfg_upd_ne; [auto|]. intros ->. by apply list_elem_of_lookup_2 in Hj.
    + apply list_lookup_singleton_Some in Hj as [Hz <-]. rewrite cfg_upd_eq.
      by replace pos with (length Q) by lia.
  - intros j Hj. rewrite cfg_upd_ne by set_solver. apply H7. set_solver.
Qed.

(** Serving the next ticket removes the holder from the queue. *)
Lemma sp_inv_serve try_ok n ct Q s t i m p :
  sp_inv try_ok n ct (i :: Q) s t → quiet_sp is_ret p →
  sp_inv try_ok n (ct + 1) Q (rset s SpCurrent (u32 (s SpCurrent + 1))) (upd t i (Rel m p)).
Proof.
  intros [H1 H2 H3 H4 H5 H6 H7] Hp. apply list.NoDup_cons in H2 as [H2 H2'].
  apply list.Forall_cons in H3 as [_ H3]. split; try done; try lia.
  - rewrite rset_ne by done. rewrite H4. f_equal. simpl. lia.
  - rewrite rset_eq, H5. unfold u32. by rewrite wrap_add.
  - intros pos j Hj. rewrite cfg_upd_ne by (intros ->; by apply list_elem_of_lookup_2 in Hj).
    specialize (H6 (S pos) j Hj). destruct (t j); simpl in *; try done; try (by destruct H6).
    destruct H6 as [(f & Hf & ->)|[? _]]; [|done]. left. exists f. split; [done|].
    replace (ct + 1 + Z.of_nat pos) with (ct + Z.of_nat (S pos)) by lia. done.
  - intros j Hj. destruct (decide (i = j)) as [->|]; [by rewrite cfg_upd_eq|rewrite cfg_upd_ne by done].
    eapply sp_out_mono; [|apply H7]; [lia|]. set_solver.
Qed.

Lemma sp_inv_length try_ok n ct Q s t : sp_inv try_ok n ct Q s t → (length Q <= n)%nat.
Proof.
  intros [_ Hnd Hlt _ _ _ _].
  assert (Q ⊆ seq 0 n) as Hsub.
  { intros x Hx. apply elem_of_seq. pose proof (proj1 (list.Forall_forall _ _) Hlt x Hx).
    simpl in *. lia. }
  apply NoDup_submseteq in Hsub; [|done].
  apply submseteq_length in Hsub. by rewrite length_seq in Hsub.
Qed.

Lemma sp_step_out try_ok n ct Q s t i cl' s' allowed :
  sp_inv try_ok n ct Q s t → (i < n)%nat → i ∉ Q →
  (∀ m, allowed m = true → sp_is_try m = true → try_ok = true) →
  (try_ok = true → ct + Z.of_nat (length Q) < 2 ^ 32) →
  tstep spinlock_impl allowed i (t i) s cl' s' →
  ∃ Q', sp_inv try_ok n ct Q' s' (upd t i cl') ∧ (length Q' <= S (length Q))%nat.
Proof.
  intros Hinv Hi Hiq Hallow Haba Hstep. pose proof (si_out _ _ _ _ _ _ Hinv i Hiq) as Hout.
  pose proof (si_ct _ _ _ _ _ _ Hinv) as Hct0.
  assert (∀ cl, sp_out try_ok ct cl → same_core sp_core s s' →
    ∃ Q', sp_inv try_ok n ct Q' s' (upd t i cl) ∧ (length Q' <= S (length Q))%nat) as Hsame.
  { intros cl Hcl Hs. exists Q. split; [|lia].
    eapply sp_inv_set; [done|done| |done]. intros pos Hpos.
    by apply list_elem_of_lookup_2 in Hpos. }
  apply tstep_cases in Hstep.
  destruct (t i) as [|m p|m|m p]; simpl in Hout, Hstep; [|destruct Hstep as [Hstep|Hstep]|
    done|destruct Hstep as [Hstep|Hstep]].
  - destruct Hstep as (-> & m & Hm & ->). apply Hsame; [|by intros r ?].
    simpl. apply sp_acquire_start. by apply Hallow.
  - destruct Hstep as (p' & Hex & ->).
    destruct (quiet_pexec _ _ _ _ _ _ Hout Hex) as [[->|(f & Hf & Hp)]|[Hq Hs]];
      [done| |by apply Hsame].
    destruct Hp as [->|(Ht & [->|(E' & HE & [-> | ->])])]; simpl in Hex; simplify_eq.
    + exists (Q ++ [i]). split; [|rewrite length_app; simpl; lia].
      apply sp_inv_take; [done..|]. simpl. left. exists f. split; [done|].
      by rewrite (si_next _ _ _ _ _ _ Hinv).
    + apply Hsame; [|by intros r ?]. apply q_now. right. exists f. split; [done|]. right.
      split; [done|]. right. exists ct. split; [lia|]. left.
      by rewrite (si_current _ _ _ _ _ _ Hinv).
    + apply Hsame; [|by intros r ?]. destruct (Z.eqb_spec (u32 E') (s' SpNext)) as [<-|]; simpl negb; cbv iota.
      * apply q_now. right. exists f. split; [done|]. right. split; [done|]. right.
        exists E'. split; [done|]. by right.
      * simpl. eapply quiet_mono; [|apply Hf]. intros q ->. by left.
    + destruct (Z.eqb_spec (s SpNext) (u32 E')) as [HeqE|]; simplify_eq.
      * rewrite (si_next _ _ _ _ _ _ Hinv) in HeqE. specialize (Haba eq_refl).
        apply eq_sym, wrap_near in HeqE; [|lia].
        assert (Q = []) as -> by (destruct Q; simpl in *; [done|lia]).
        exists [i]. split; [|simpl; lia].
        replace (u32 (u32 E' + 1)) with (u32 (s SpNext + 1)).
        2:{ rewrite (si_next _ _ _ _ _ _ Hinv). simpl in *. unfold u32.
            rewrite !wrap_add. f_equal. lia. }
        apply (sp_inv_take _ _ _ []); [done..|]. simpl. right. split; [done|]. apply Hf.
      * apply Hsame; [|by intros r ?]. simpl. eapply quiet_mono; [|apply Hf]. intros q ->. by left.
  - destruct Hstep as (-> & v & -> & ->).
    apply quiet_ret in Hout. destruct Hout as [[= ->]|(f & Hf & Hp)].
    + apply Hsame; [done|by intros r ?].
    + destruct Hp as [Hp|(Ht & [Hp|(E' & HE & [Hp|Hp])])]; done.
  - destruct Hstep as (p' & Hex & ->).
    destruct (quiet_pexec _ _ _ _ _ _ Hout Hex) as [[v ->]|[Hq Hs]]; [done|by apply Hsame].
  - destruct Hstep as (-> & v & -> & ->). apply Hsame; [done|by intros r ?].
Qed.

Lemma sp_step_in try_ok n ct Q s t i pos cl' s' allowed :
  sp_inv try_ok n ct Q s t → Q !! pos = Some i → Z.of_nat n <= 2 ^ 32 →
  tstep spinlock_impl allowed i (t i) s cl' s' →
  ∃ ct' Q', sp_inv try_ok n ct' Q' s' (upd t i cl') ∧
    ct' + Z.of_nat (length Q') = ct + Z.of_nat (length Q).
Proof.
  intros Hinv Hpos Hn Hstep. pose proof (si_in _ _ _ _ _ _ Hinv pos i Hpos) as Hin.
  pose proof (sp_inv_length _ _ _ _ _ _ Hinv) as Hlen.
  assert (∀ cl, sp_in ct pos cl → same_core sp_core s s' →
    ∃ ct' Q', sp_inv try_ok n ct' Q' s' (upd t i cl) ∧
      ct' + Z.of_nat (length Q') = ct + Z.of_nat (length Q)) as Hsame.
  { intros cl Hcl Hs. exists ct, Q. split; [|done]. eapply sp_inv_set; [done|done| |].
    - intros pos' Hpos'. by replace pos' with pos
        by (eapply NoDup_lookup; [apply (si_nodup _ _ _ _ _ _ Hinv)|done|done]).
    - intros Hni. by apply list_elem_of_lookup_2 in Hpos. }
  apply tstep_cases in Hstep.
  destruct (t i) as [|m p|m|m p]; simpl in Hin, Hstep; [done|destruct Hstep as [Hstep|Hstep]|
    |destruct Hstep as [Hstep|Hstep]].
  - destruct Hstep as (p' & Hex & ->). destruct Hin as [(f & Hf & ->)|[-> Hq]].
    + simpl in Hex. destruct (Z.eqb_spec (s SpCurrent) (u32 (ct + Z.of_nat pos))) as [He|]; [|done].
      simplify_eq. rewrite (si_current _ _ _ _ _ _ Hinv) in He.
      apply wrap_near in He; [|apply lookup_lt_Some in Hpos; lia].
      apply Hsame; [|by intros r ?]. simpl. right. split; [lia|]. apply Hf.
    + destruct (quiet_pexec _ _ _ _ _ _ Hq Hex) as [(v & _ & ->)|[Hq' Hs]]; [done|].
      apply Hsame; [|done]. simpl. auto.
  - destruct Hstep as (-> & v & -> & ->). destruct Hin as [(f & Hf & ?)|[-> Hq]]; [done|].
    apply quiet_ret in Hq as (w & Hv & [= ->]). rewrite (proj2 (Z.eqb_neq w 0)) by done.
    by apply Hsame; [|intros r ?].
  - destruct Hstep as (-> & ->). apply Hsame; [|by intros r ?].
    simpl. split; [done|]. apply sp_release_quiet.
  - destruct Hstep as (p' & Hex & ->). destruct Hin as [-> Hq].
    destruct (quiet_pexec _ _ _ _ _ _ Hq Hex) as [(f & Hf & ->)|[Hq' Hs]].
    + simpl in Hex. simplify_eq. destruct Q as [|i' Q]; [done|]. simpl in Hpos. simplify_eq.
      exists (ct + 1), Q. split; [by apply sp_inv_serve|simpl; lia].
    + apply Hsame; [|done]. simpl. auto.
  - destruct Hstep as (-> & v & -> & ->). destruct Hin as [-> Hq].
    apply quiet_ret in Hq as (f & Hf & ?). done.
Qed.

Definition sp_ok (try_ok : bool) (n : nat) (k : nat) (c : config sp_reg sp_mode) : Prop :=
  (try_ok = true → Z.of_nat k < 2 ^ 32) →
  ∃ ct Q, sp_inv try_ok n ct Q (mem c) (thr c) ∧ ct + Z.of_nat (length Q) <= Z.of_nat k.

Lemma sp_reach allowed try_ok n k c :
  Z.of_nat n <= 2 ^ 32 →
  (∀ m, allowed m = true → sp_is_try m = true → try_ok = true) →
  reach spinlock_impl allowed n k c → sp_ok try_ok n k c.
Proof.
  intros Hn Hallow. revert k c.
  apply (reach_inv spinlock_impl allowed n (sp_ok try_ok n)).
  - intros _. exists 0, []. split; [|simpl; lia]. split; try done; try constructor.
  - intros k c i cl' s' Hok Hi Hstep Hk. destruct Hok as (ct & Q & Hinv & Hle).
    { intros Ht. specialize (Hk Ht). lia. }
    simpl. destruct (decide (i ∈ Q)) as [Hiq|Hiq].
    + apply list_elem_of_lookup_1 in Hiq as [pos Hpos].
      destruct (sp_step_in _ _ _ _ _ _ _ _ _ _ _ Hinv Hpos Hn Hstep) as (ct' & Q' & Hinv' & Hl).
      exists ct', Q'. split; [done|lia].
    + assert (try_ok = true → ct + Z.of_nat (length Q) < 2 ^ 32) as Haba.
      { intros Ht. specialize (Hk Ht). lia. }
      edestruct sp_step_out as (Q' & Hinv' & Hl); [done..|]. exists ct, Q'. split; [done|lia].
Qed.

Lemma sp_inv_excl try_ok n ct Q s t i j m1 m2 :
  sp_inv try_ok n ct Q s t → t i = Crit m1 → t j = Crit m2 → i = j.
Proof.
  intros Hinv Hi Hj.
  assert (∀ i m, t i = Crit m → Q !! 0%nat = Some i) as Hpos.
  { intros x m Hx. destruct (decide (x ∈ Q)) as [Hin|Hni].
    - apply list_elem_of_lookup_1 in Hin as [pos Hpos].
      pose proof (si_in _ _ _ _ _ _ Hinv pos x Hpos) as Hc. rewrite Hx in Hc. simpl in Hc. by subst.
    - pose proof (si_out _ _ _ _ _ _ Hinv x Hni) as Hc. by rewrite Hx in Hc. }
  apply Hpos in Hi, Hj. congruence.
Qed.

(** ** What the ticket lock promises *)

Definition sp_all (m : sp_mode) : bool := true.
Definition sp_lock_only (m : sp_mode) : bool := negb (sp_is_try m).

#[export] Instance spinlock_safe :
  LockSafe spinlock_impl sp_lock_only (fun _ _ => false) (2 ^ 32).
Proof.
  split. intros n k c Hn Hr i j m1 m2 Hij _ _ Hi Hj.
  destruct (sp_reach sp_lock_only false n k c) as (ct & Q & Hinv & _); try done.
  { intros m Hm Ht. unfold sp_lock_only in Hm. by rewrite Ht in Hm. }
  by destruct (Hij (sp_inv_excl _ _ _ _ _ _ _ _ _ _ Hinv Hi Hj)).
Qed.

(** The raw routines never panic. *)
Definition sp_raw_only (m : sp_mode) : bool :=
  match m with SpRaw | SpRawTry => true | _ => false end.


Lemma sp_raw_nopanic m i :
  sp_raw_only m = true →
  nopanic (acquire spinlock_impl m i) ∧ nopanic (release spinlock_impl m i).
Proof.
  destruct m; simpl; intros ?; try done; split; repeat (constructor; intros).
  case_match; repeat (constructor; intros).
Qed.

Lemma sp_live_step n ct Q s t :
  sp_inv true n ct Q s t → (∀ i, client_nopanic sp_raw_only (t i)) →
  not_stuck spinlock_impl sp_raw_only n (Config s t).
Proof.
  intros Hinv Hnp. destruct Q as [|i Q].
  - destruct (all_out_or n t) as [Hall|(i & Hi & Ho)]; [by left|].
    right. exists i. split; [done|]. split; [done|]. apply tstep_enabled; [done..|].
    pose proof (si_out _ _ _ _ _ _ Hinv i (not_elem_of_nil i)) as Hout.
    intros r q k m [E|E]; simpl in E; rewrite E in Hout; simpl in Hout;
      inversion Hout as [p H0| | | | |]; subst.
    + destruct H0 as [?|(f & Hf & [?|(Ht & [?|(E' & HE & [?|?])])])]; done.
    + by destruct H0.
  - right. exists i. pose proof (si_cpus _ _ _ _ _ _ Hinv) as Hc.
    apply list.Forall_cons in Hc as [Hi _]. split; [done|].
    pose proof (si_in _ _ _ _ _ _ Hinv 0 i eq_refl) as Hin. simpl.
    split; [intros E; by rewrite E in Hin|]. apply tstep_enabled; [done| |].
    { intros E; by rewrite E in Hin. }
    intros r q k m [E|E]; rewrite E in Hin; simpl in Hin.
    + destruct Hin as [(f & Hf & Hp)|[_ Hq]]; [|inversion Hq as [p H0| | | | |]; subst; by destruct H0 as (?&?&?)].
      simpl in Hp. injection Hp as -> -> ->. rewrite (si_current _ _ _ _ _ _ Hinv).
      rewrite Z.add_0_r. apply Z.eqb_refl.
    + destruct Hin as [_ Hq]. inversion Hq as [p H0| | | | |]; subst. by destruct H0 as (?&?&?).
Qed.

Lemma sp_reach_nopanic n k c :
  reach spinlock_impl sp_raw_only n k c → ∀ i, client_nopanic sp_raw_only (thr c i).
Proof.
  revert k c. apply (reach_inv _ _ _ (fun _ c => ∀ i, client_nopanic sp_raw_only (thr c i))).
  - done.
  - intros k c i cl' s' IH Hi Ht j. simpl. destruct (decide (i = j)) as [->|].
    + rewrite cfg_upd_eq. eapply tstep_nopanic; [|apply IH|done].
      intros m. apply sp_raw_nopanic.
    + by rewrite cfg_upd_ne.
Qed.

(** C2.  Ticket lock, mutual exclusion: whatever mixture of lock, trylock and
    their preemption- and interrupt-disabling variants up to 2^32 processors
    run, at most one is in its critical section, in every run of fewer than
    2^32 atomic accesses (beyond which a delayed trylock could see a recycled
    ticket). *)
Theorem spinlock_mutual_exclusion n k c :
  Z.of_nat n <= 2 ^ 32 → Z.of_nat k < 2 ^ 32 →
  reach spinlock_impl sp_all n k c → compatible n (fun _ _ => false) c.
Proof.
  intros Hn Hk Hr i j m1 m2 Hij _ _ Hi Hj.
  destruct (sp_reach sp_all true n k c) as (ct & Q & Hinv & _); try done.
  by destruct (Hij (sp_inv_excl _ _ _ _ _ _ _ _ _ _ Hinv Hi Hj)).
Qed.

(** Ticket lock, first come first served: of two processors that drew
    tickets, the one in the critical section drew the older one; so a
    processor that waits is overtaken by none that took its ticket later. *)
Theorem spinlock_fifo n k c i j m1 m2 f tj :
  Z.of_nat n <= 2 ^ 32 → reach spinlock_impl sp_lock_only n k c →
  thr c i = Crit m1 → thr c j = Acq m2 (pbind (spin_wait tj) f) →
  ∃ ti d, ti = mem c SpCurrent ∧ 0 < d < Z.of_nat n ∧ tj = u32 (ti + d).
Proof.
  intros Hn Hr Hi Hj.
  destruct (sp_reach sp_lock_only false n k c) as (ct & Q & Hinv & _); try done.
  { intros m Hm Ht. unfold sp_lock_only in Hm. by rewrite Ht in Hm. }
  exists (mem c SpCurrent).
  assert (j ∈ Q) as Hjq.
  { destruct (decide (j ∈ Q)) as [|Hni]; [done|].
    pose proof (si_out _ _ _ _ _ _ Hinv j Hni) as Ho. rewrite Hj in Ho. simpl in Ho.
    inversion Ho as [? [?|(g & Hg & [?|[? _]])]| | | | |]; simplify_eq. }
  apply list_elem_of_lookup_1 in Hjq as [pos Hpos].
  pose proof (si_in _ _ _ _ _ _ Hinv pos j Hpos) as Hin. rewrite Hj in Hin. simpl in Hin.
  assert (Q !! 0%nat = Some i) as Hi0.
  { destruct (decide (i ∈ Q)) as [Hin'|Hni].
    - apply list_elem_of_lookup_1 in Hin' as [q Hq].
      pose proof (si_in _ _ _ _ _ _ Hinv q i Hq) as Hc. rewrite Hi in Hc. simpl in Hc. by subst.
    - pose proof (si_out _ _ _ _ _ _ Hinv i Hni) as Hc. by rewrite Hi in Hc. }
  pose proof (sp_inv_length _ _ _ _ _ _ Hinv) as Hlen.
  destruct Hin as [(g & _ & E)|[-> Hq]].
  - assert (tj = u32 (ct + Z.of_nat pos)) as ->.
    { simpl in E. injection E as E _. 
      assert (∀ v, (v =? tj) = (v =? u32 (ct + Z.of_nat pos))) as Hv.
      { intros v. exact (f_equal (fun h => h v) E). }
      specialize (Hv tj). rewrite Z.eqb_refl in Hv. by apply eq_sym, Z.eqb_eq in Hv. }
    exists (Z.of_nat pos). split; [done|]. split.
    + pose proof (lookup_lt_Some _ _ _ Hpos).
      destruct pos; [|lia]. rewrite Hi0 in Hpos. simplify_eq. rewrite Hi in Hj. done.
    + rewrite (si_current _ _ _ _ _ _ Hinv). unfold u32. by rewrite wrap_add.
  - inversion Hq as [? (v & _ & ?)| | | | |]; simplify_eq.
Qed.

(** Ticket lock, progress: with lock, trylock and unlock, some processor
    that takes, holds or releases the lock can always move on, so the waiters
    are never deadlocked. *)
Theorem spinlock_progress n k c :
  Z.of_nat n <= 2 ^ 32 → Z.of_nat k < 2 ^ 32 →
  reach spinlock_impl sp_raw_only n k c → not_stuck spinlock_impl sp_raw_only n c.
Proof.
  intros Hn Hk Hr. pose proof (sp_reach_nopanic n k c Hr) as Hnp.
  destruct (sp_reach sp_raw_only true n k c) as (ct & Q & Hinv & _); try done.
  destruct c as [s t]. by eapply sp_live_step.
Qed.

(** ** Examples

    Processor 0 takes the lock, processor 1 draws the next ticket and waits. *)
Definition sp_trace : list (nat * sp_mode) :=
  [(0%nat, SpRaw); (0%nat, SpRaw); (0%nat, SpRaw); (0%nat, SpRaw);
   (1%nat, SpRaw); (1%nat, SpRaw)].

Definition sp_trace_ok (allowed : sp_mode → bool) : Prop :=
  ∃ c, reach spinlock_impl allowed 2 6 c ∧ thr c 0%nat = Crit SpRaw ∧
    thr c 1%nat = Acq SpRaw (spin_wait 1).

Lemma sp_trace_run allowed :
  match schedule spinlock_impl allowed 2 sp_trace (config_init spinlock_impl) with
  | Some c => thr c 0%nat = Crit SpRaw ∧ thr c 1%nat = Acq SpRaw (spin_wait 1)
  | None => False
  end → sp_trace_ok allowed.
Proof.
  destruct (schedule _ _ _ _ _) as [c|] eqn:E; [|done]. intros [H0 H1].
  exists c. split; [|done]. apply (schedule_reach _ _ _ _ 0 _ _ E). constructor.
Defined.

Lemma spinlock_mutual_exclusion_witness :
  ∃ c : config sp_reg sp_mode, thr c 0%nat = Crit SpRaw ∧ compatible 2 (fun _ _ => false) c.
Proof.
  destruct (sp_trace_run sp_all (conj eq_refl eq_refl)) as (c & Hr & H0 & _). exists c. split; [exact H0|].
  apply (spinlock_mutual_exclusion 2 6 c); [lia|lia|exact Hr].
Defined.

Lemma spinlock_fifo_witness :
  ∃ c : config sp_reg sp_mode, thr c 0%nat = Crit SpRaw ∧
    ∃ ti d, ti = mem c SpCurrent ∧ 0 < d < 2 ∧ 1 = u32 (ti + d).
Proof.
  destruct (sp_trace_run sp_lock_only (conj eq_refl eq_refl)) as (c & Hr & H0 & H1). exists c. split; [exact H0|].
  apply (spinlock_fifo 2 6 c 0 1 SpRaw SpRaw (fun v => Ret v) 1); [lia|exact Hr|exact H0|exact H1].
Defined.

Lemma spinlock_progress_witness :
  ∃ c : config sp_reg sp_mode, thr c 0%nat = Crit SpRaw ∧ not_stuck spinlock_impl sp_raw_only 2 c.
Proof.
  destruct (sp_trace_run sp_raw_only (conj eq_refl eq_refl)) as (c & Hr & H0 & _). exists c. split; [exact H0|].
  apply (spinlock_progress 2 6 c); [lia|lia|exact Hr].
Defined.
