(* ===== verification/Rwlock.v ===== *)
(** * Rwlock: the phase-fair reader-writer lock of src/subsys/sync/rwlock.c

    Writers queue on a ticket lock ([win]/[wout]); the writer at its head
    announces itself in the low bits of [rin] with its phase, waits for the
    readers that arrived before it to leave ([rout]), and clears the bits when
    it leaves.  A reader that arrives while the bits are set waits until they
    change.  Counts wrap at 24 bits (readers) and 32 bits (tickets).

    The proof keeps the queue of writers and counts the readers by the phase
    they wait for. *)

From S2P Require Import Prelude Std Conc.
From Stdlib Require Import ZArith Lia Bool.
From stdpp Require Import base list numbers sets.

Local Open Scope Z_scope.

Definition PF_LSB : Z := 0xFFFFFFF0.
Definition PF_READER_INC : Z := 0x100.
Definition PF_WRITER_BITS : Z := 0x3.
Definition PF_WRITER_PRESENT : Z := 0x2.
Definition PF_PHASE_ID : Z := 0x1.

Inductive rw_word : Type := rin | rout | win | wout.

#[export] Instance rw_word_eq_dec : EqDecision rw_word.
Proof. solve_decision. Defined.

Abbreviation rw_reg := (lreg rw_word).

Definition rwlock_init (s : regs rw_reg) : regs rw_reg :=
  rset (rset (rset (rset s (LockReg rin) 0) (LockReg rout) 0) (LockReg win) 0)
    (LockReg wout) 0.

Definition rw_read_wait (wp : Z) : prog rw_reg :=
  Until (LockReg rin) (fun v => negb (Z.land v PF_WRITER_BITS =? wp)) (fun _ => Ret 1).
Definition __rw_lock_read : prog rw_reg :=
  Faa (LockReg rin) PF_READER_INC (fun v =>
    let wp := Z.land v PF_WRITER_BITS in
    if wp =? 0 then Ret 1 else rw_read_wait wp).

Definition __rw_unlock_read : prog rw_reg :=
  Faa (LockReg rout) PF_READER_INC (fun _ => Ret 0).

Definition rw_write_drain (ticket : Z) : prog rw_reg :=
  Until (LockReg rout) (fun v => ticket =? v) (fun _ => Ret 1).
Definition rw_write_announce (ticket : Z) : prog rw_reg :=
  Faa (LockReg rin) (Z.lor (Z.land ticket PF_PHASE_ID) PF_WRITER_PRESENT)
    (fun ticket => rw_write_drain ticket).
Definition rw_write_wait (ticket : Z) : prog rw_reg :=
  Until (LockReg wout) (fun v => ticket =? v) (fun _ => rw_write_announce ticket).
Definition __rw_lock_write : prog rw_reg :=
  Faa (LockReg win) 1 (fun ticket => rw_write_wait ticket).

Definition rw_write_leave : prog rw_reg := Faa (LockReg wout) 1 (fun _ => Ret 0).
Definition __rw_unlock_write : prog rw_reg :=
  Fand (LockReg rin) PF_LSB (fun _ => rw_write_leave).

Definition rw_lock_read_disable_preemption (i : nat) : prog rw_reg :=
  current_task_disable_preemption i __rw_lock_read.
Definition rw_unlock_read_enable_preemption (i : nat) : prog rw_reg :=
  pbind __rw_unlock_read (fun v => current_task_enable_preemption i (Ret v)).
Definition rw_lock_write_disable_preemption (i : nat) : prog rw_reg :=
  current_task_disable_preemption i __rw_lock_write.
Definition rw_unlock_write_enable_preemption (i : nat) : prog rw_reg :=
  pbind __rw_unlock_write (fun v => current_task_enable_preemption i (Ret v)).

Definition rw_lock_read (i : nat) : prog rw_reg := rw_lock_read_disable_preemption i.
Definition rw_unlock_read (i : nat) : prog rw_reg := rw_unlock_read_enable_preemption i.
Definition rw_lock_write (i : nat) : prog rw_reg := rw_lock_write_disable_preemption i.
Definition rw_unlock_write (i : nat) : prog rw_reg := rw_unlock_write_enable_preemption i.

Definition rwlock_isr_init (s : regs rw_reg) : regs rw_reg :=
  rset (rwlock_init s) LockFlags 0.

Definition __rw_lock_read_isr_save (i : nat) : prog rw_reg :=
  read_flags_and_disable_interrupts i (fun fl =>
    pbind __rw_lock_read (fun v => St LockFlags fl (Ret v))).
Definition __rw_unlock_read_isr_restore (i : nat) (fl : Z) : prog rw_reg :=
  pbind __rw_unlock_read (fun v => write_flags i fl (Ret v)).
Definition __rw_lock_write_isr_save (i : nat) : prog rw_reg :=
  read_flags_and_disable_interrupts i (fun fl =>
    pbind __rw_lock_write (fun v => St LockFlags fl (Ret v))).
Definition __rw_unlock_write_isr_restore (i : nat) (fl : Z) : prog rw_reg :=
  pbind __rw_unlock_write (fun v => write_flags i fl (Ret v)).

Definition rw_lock_read_isr_save (i : nat) : prog rw_reg := __rw_lock_read_isr_save i.
Definition rw_unlock_read_isr_restore (i : nat) : prog rw_reg :=
  Ld LockFlags (fun fl => __rw_unlock_read_isr_restore i fl).
Definition rw_lock_write_isr_save (i : nat) : prog rw_reg := __rw_lock_write_isr_save i.
Definition rw_unlock_write_isr_restore (i : nat) : prog rw_reg :=
  Ld LockFlags (fun fl => __rw_unlock_write_isr_restore i fl).

(** ** Clients: the raw routines and the two families of wrappers *)

Inductive rw_variant := RwRaw | RwPre | RwIsr.
Inductive rw_mode := RwRead (x : rw_variant) | RwWrite (x : rw_variant).

Definition rw_compat (m1 m2 : rw_mode) : bool :=
  match m1, m2 with RwRead _, RwRead _ => true | _, _ => false end.

Definition rwlock_impl : lock_impl rw_reg rw_mode := LockImpl
  (fun m i => match m with
     | RwRead RwRaw => __rw_lock_read | RwWrite RwRaw => __rw_lock_write
     | RwRead RwPre => rw_lock_read i | RwWrite RwPre => rw_lock_write i
     | RwRead RwIsr => rw_lock_read_isr_save i
     | RwWrite RwIsr => rw_lock_write_isr_save i end)
  (fun m i => match m with
     | RwRead RwRaw => __rw_unlock_read | RwWrite RwRaw => __rw_unlock_write
     | RwRead RwPre => rw_unlock_read i | RwWrite RwPre => rw_unlock_write i
     | RwRead RwIsr => rw_unlock_read_isr_restore i
     | RwWrite RwIsr => rw_unlock_write_isr_restore i end)
  (rwlock_isr_init (fun _ => 0)).

(** ** The roles of the processors *)

Inductive role : Type :=
  | rOut              (* has no part in the lock *)
  | rWait (wp : Z)    (* a reader that waits for the phase bits to differ from wp *)
  | rIn               (* a reader that was let in and has not left *)
  | wSpin (tk : Z)    (* a writer with a ticket *)
  | wAnn (tk : Z)     (* the head writer, about to announce itself *)
  | wDrain (r0 : Z)   (* announced; waits until rout is r0 *)
  | wIn               (* the writer that was let in *)
  | wLeave.           (* has cleared the bits, about to serve the next ticket *)

Definition set_role (ro : nat → role) (i : nat) (r : role) : nat → role :=
  fun j => if decide (i = j) then r else ro j.

Definition is_writer (r : role) : bool :=
  match r with wSpin _ | wAnn _ | wDrain _ | wIn | wLeave => true | _ => false end.
Definition arrived (r : role) : bool :=
  match r with rWait _ | rIn => true | _ => false end.
(** A reader that arrived before the writer with phase bits [b]. *)
Definition old (b : Z) (r : role) : bool :=
  match r with rIn => true | rWait wp => negb (wp =? b) | _ => false end.

Fixpoint cnt (n : nat) (f : nat → bool) : Z :=
  match n with O => 0 | S k => cnt k f + b2z (f k) end.

Lemma cnt_bounds n f : 0 <= cnt n f <= Z.of_nat n.
Proof. induction n as [|n IH]; simpl cnt; [lia|]. destruct (f n); simpl b2z; lia. Qed.

Lemma cnt_ext n f g : (∀ i, (i < n)%nat → f i = g i) → cnt n f = cnt n g.
Proof.
  induction n as [|n IH]; intros E; [done|]. simpl. rewrite IH by (intros; apply E; lia).
  by rewrite E by lia.
Qed.

Lemma cnt_zero n f i : cnt n f = 0 → (i < n)%nat → f i = false.
Proof.
  induction n as [|n IH]; intros E Hi; [lia|]. simpl in E.
  pose proof (cnt_bounds n f). destruct (decide (i = n)) as [->|].
  - destruct (f n); simpl in E; [lia|done].
  - apply IH; [|lia]. destruct (f n); simpl in E; lia.
Qed.

Lemma cnt_set n i ro r (P : role → bool) :
  (i < n)%nat →
  cnt n (fun j => P (set_role ro i r j)) =
  cnt n (fun j => P (ro j)) - b2z (P (ro i)) + b2z (P r).
Proof.
  induction n as [|n IH]; intros Hi; [lia|]. simpl. destruct (decide (i = n)) as [->|].
  - unfold set_role at 2. rewrite decide_True by done.
    rewrite (cnt_ext n (fun j => P (set_role ro n r j)) (fun j => P (ro j))); [lia|].
    intros j Hj. unfold set_role. by rewrite decide_False by lia.
  - rewrite IH by lia. unfold set_role. rewrite decide_False by done. lia.
Qed.

(** The phase bits of the writer with ticket [t]. *)
Definition wbits (t : Z) : Z := Z.lor (Z.land t PF_PHASE_ID) PF_WRITER_PRESENT.

Lemma wbits_mod t : wbits t = 2 + t mod 2.
Proof.
  unfold wbits, PF_PHASE_ID, PF_WRITER_PRESENT. change 1 with (Z.ones 1).
  rewrite Z.land_ones by lia. change (2 ^ 1) with 2.
  pose proof (Z.mod_pos_bound t 2). assert (t mod 2 = 0 ∨ t mod 2 = 1) as [-> | ->] by lia; done.
Qed.

Lemma wbits_u32 t : wbits (u32 t) = wbits t.
Proof.
  rewrite !wbits_mod. f_equal. unfold u32, wrap. apply Z.mod_mod_divide. by exists (2 ^ 31).
Qed.

Lemma wbits_range t : 2 <= wbits t <= 3.
Proof. rewrite wbits_mod. pose proof (Z.mod_pos_bound t 2). lia. Qed.

Lemma wbits_pred t : wbits (t - 1) ≠ wbits t.
Proof.
  rewrite !wbits_mod. intros E. assert ((t - 1) mod 2 = t mod 2) as E' by lia.
  rewrite !Zmod_odd, Z.odd_sub in E'. destruct (Z.odd t); done.
Qed.

(** The reader count and the phase bits in one word. *)
Lemma rin_bits A b : 0 <= b < 4 → Z.land (u32 (256 * A + b)) PF_WRITER_BITS = b.
Proof.
  intros Hb. unfold PF_WRITER_BITS. change 3 with (Z.ones 2). rewrite Z.land_ones by lia.
  unfold u32, wrap. rewrite Z.mod_mod_divide by (by exists (2 ^ 30)).
  replace (256 * A + b) with (b + (64 * A) * 2 ^ 2) by lia.
  rewrite Z_mod_plus_full. by apply Z.mod_small.
Qed.

Lemma rin_clear A b : 0 <= b < 4 → Z.land (u32 (256 * A + b)) PF_LSB = u32 (256 * A).
Proof.
  intros Hb. pose proof (wrap_range 32 (256 * A + b)).
  change PF_LSB with (Z.shiftl (Z.ones 28) (32 - 28)).
  rewrite (land_ones_top 32 28) by (try lia; apply wrap_range; lia).
  rewrite Z.shiftl_mul_pow2 by lia. change (2 ^ (32 - 28)) with 16.
  unfold u32, wrap. change (2 ^ 32) with (16 * 2 ^ 28).
  rewrite !Z.rem_mul_r by lia.
  replace ((256 * A + b) / 16) with (16 * A) by (apply Z.div_unique with b; lia).
  replace (256 * A / 16) with (16 * A) by (apply Z.div_unique with 0; lia).
  replace ((256 * A + b) mod 16) with b by (apply Z.mod_unique with (16 * A); lia).
  replace (256 * A mod 16) with 0 by (apply Z.mod_unique with (16 * A); lia).
  set (q := (16 * A) mod 2 ^ 28).
  replace ((b + 16 * q) / 16) with q by (apply Z.div_unique with b; lia). lia.
Qed.

(** ** The invariant on roles *)

(** The phase bits that the role of the head writer implies. *)
Definition bits_of (wo : Z) (r : role) : Z :=
  match r with wDrain _ | wIn => wbits wo | _ => 0 end.

Definition head_role (ro : nat → role) (Q : list nat) : role :=
  match Q with [] => rOut | i :: _ => ro i end.

Record rw_inv (n : nat) (wo A D : Z) (Q : list nat) (s : regs rw_reg)
    (ro : nat → role) : Prop := {
  rw_nodup : NoDup Q;
  rw_cpus : Forall (fun i => i < n)%nat Q;
  rw_queue i : (i < n)%nat → is_writer (ro i) = true ↔ i ∈ Q;
  rw_tail pos i : Q !! S pos = Some i → ro i = wSpin (u32 (wo + Z.of_nat (S pos)));
  rw_head i tk : head (A:=nat) Q = Some i → ro i = wSpin tk ∨ ro i = wAnn tk → tk = u32 wo;
  rw_win : s (LockReg win) = u32 (wo + Z.of_nat (length Q));
  rw_wout : s (LockReg wout) = u32 wo;
  rw_rin : s (LockReg rin) = u32 (256 * A + bits_of wo (head_role ro Q));
  rw_rout : s (LockReg rout) = u32 (256 * D);
  rw_count : A - D = cnt n (fun i => arrived (ro i));
  rw_phase : ∀ i wp, (i < n)%nat → ro i = rWait wp →
    match head_role ro Q with
    | wDrain _ => wp = wbits wo ∨ wp = wbits (wo - 1)
    | wIn | wLeave => wp = wbits wo
    | _ => wp = wbits (wo - 1)
    end;
  rw_drain : match head_role ro Q with
    | wDrain r0 => ∃ A0, r0 = u32 (256 * A0) ∧
        A0 - D = cnt n (fun i => old (wbits wo) (ro i))
    | wIn => ∀ i, (i < n)%nat → ro i ≠ rIn
    | _ => True
    end;
}.

Lemma set_role_eq ro i r : set_role ro i r i = r.
Proof. unfold set_role. by rewrite decide_True. Qed.
Lemma set_role_ne ro i j r : i ≠ j → set_role ro i r j = ro j.
Proof. intros. unfold set_role. by rewrite decide_False. Qed.

Lemma head_role_set ro Q i r : i ∉ Q → head_role (set_role ro i r) Q = head_role ro Q.
Proof. intros Hi. destruct Q; simpl; [done|]. apply set_role_ne. set_solver. Qed.

Definition phase_ok (wo : Z) (h : role) (wp : Z) : Prop :=
  match h with
  | wDrain _ => wp = wbits wo ∨ wp = wbits (wo - 1)
  | wIn | wLeave => wp = wbits wo
  | _ => wp = wbits (wo - 1)
  end.

(** A step of a reader: it keeps the queue of writers. *)
Lemma rw_reader_step n wo A D Q s ro i r' A' D' s' :
  rw_inv n wo A D Q s ro → (i < n)%nat →
  is_writer (ro i) = false → is_writer r' = false →
  s' (LockReg win) = s (LockReg win) → s' (LockReg wout) = s (LockReg wout) →
  s' (LockReg rin) = u32 (256 * A' + bits_of wo (head_role ro Q)) →
  s' (LockReg rout) = u32 (256 * D') →
  A' - D' = A - D - b2z (arrived (ro i)) + b2z (arrived r') →
  (∀ wp, r' = rWait wp → phase_ok wo (head_role ro Q) wp) →
  match head_role ro Q with
  | wDrain _ => D' = D + b2z (old (wbits wo) (ro i)) - b2z (old (wbits wo) r')
  | wIn => r' ≠ rIn
  | _ => True
  end →
  rw_inv n wo A' D' Q s' (set_role ro i r').
Proof.
  intros Hinv Hi Hw Hw' E1 E2 E3 E4 HA Hph Hdr.
  destruct Hinv as [H1 H2 H3 H4 H5 H6 H7 H8 H9 H10 H11 H12].
  assert (i ∉ Q) as Hiq. { intros Hq. apply H3 in Hq; [|done]. congruence. }
  assert (∀ pos j, Q !! pos = Some j → i ≠ j) as Hne.
  { intros pos j Hj ->. by apply list_elem_of_lookup_2 in Hj. }
  split; try done.
  - intros j Hj. destruct (decide (i = j)) as [->|].
    + rewrite set_role_eq, Hw'. split; [done|]. intros. done.
    + rewrite set_role_ne by done. by apply H3.
  - intros pos j Hj. rewrite set_role_ne by eauto. by apply H4.
  - intros j tk Hj. rewrite set_role_ne; [by apply H5|].
    apply (Hne 0%nat). by rewrite <- head_lookup.
  - by rewrite E1.
  - by rewrite E2.
  - by rewrite head_role_set.
  - rewrite (cnt_set n i ro r' arrived) by done. lia.
  - intros j wp Hj. rewrite head_role_set by done.
    destruct (decide (i = j)) as [->|]; [rewrite set_role_eq|rewrite set_role_ne by done].
    + apply Hph.
    + by apply H11.
  - rewrite head_role_set by done. destruct (head_role ro Q) eqn:Eh; try done.
    + destruct H12 as (A0 & -> & HA0). exists A0. split; [done|].
      rewrite (cnt_set n i ro r' (old (wbits wo))) by done. lia.
    + intros j Hj. destruct (decide (i = j)) as [->|]; [by rewrite set_role_eq|].
      rewrite set_role_ne by done. by apply H12.
Qed.

(** The head writer moves to its next role. *)
Lemma rw_head_step n wo A D i Q s ro r' s' :
  rw_inv n wo A D (i :: Q) s ro → is_writer r' = true → (∀ tk, r' = wSpin tk ∨ r' = wAnn tk → tk = u32 wo) →
  s' (LockReg win) = s (LockReg win) → s' (LockReg wout) = s (LockReg wout) →
  s' (LockReg rin) = u32 (256 * A + bits_of wo r') →
  s' (LockReg rout) = s (LockReg rout) →
  (∀ j wp, (j < n)%nat → ro j = rWait wp → phase_ok wo r' wp) →
  match r' with
  | wDrain r0 => ∃ A0, r0 = u32 (256 * A0) ∧
      A0 - D = cnt n (fun j => old (wbits wo) (ro j))
  | wIn => ∀ j, (j < n)%nat → ro j ≠ rIn
  | _ => True
  end →
  rw_inv n wo A D (i :: Q) s' (set_role ro i r').
Proof.
  intros Hinv Hw' Hns E1 E2 E3 E4 Hph Hdr.
  destruct Hinv as [H1 H2 H3 H4 H5 H6 H7 H8 H9 H10 H11 H12].
  pose proof H2 as H2'. apply list.Forall_cons in H2' as [Hi _].
  assert (is_writer (ro i) = true) as Hw by (apply H3; [done|left]).
  assert (i ∉ Q) as Hiq by (by apply list.NoDup_cons in H1 as [? _]).
  assert (∀ P : role → bool, P (ro i) = false → P r' = false →
    cnt n (fun j => P (set_role ro i r' j)) = cnt n (fun j => P (ro j))) as Hcnt.
  { intros P HP HP'. rewrite cnt_set by done. rewrite HP, HP'. simpl. lia. }
  split; try done.
  - intros j Hj. destruct (decide (i = j)) as [->|].
    + rewrite set_role_eq, Hw'. split; [left|done].
    + rewrite set_role_ne by done. by apply H3.
  - intros pos j Hj. rewrite set_role_ne; [by apply H4|]. simpl in Hj. intros ->.
    by apply list_elem_of_lookup_2 in Hj.
  - intros j tk [= <-]. rewrite set_role_eq. apply Hns.
  - by rewrite E1.
  - by rewrite E2.
  - simpl. by rewrite set_role_eq.
  - by rewrite E4.
  - rewrite Hcnt; [done|by destruct (ro i)|by destruct r'].
  - intros j wp Hj. simpl. rewrite set_role_eq.
    destruct (decide (i = j)) as [->|]; [rewrite set_role_eq; by intros ->|].
    rewrite set_role_ne by done. intros Hr. exact (Hph j wp Hj Hr).
  - simpl. rewrite set_role_eq. destruct r'; try done.
    + destruct Hdr as (A0 & -> & HA0). exists A0. split; [done|].
      rewrite Hcnt; [done|by destruct (ro i)|done].
    + intros j Hj. destruct (decide (i = j)) as [->|]; [by rewrite set_role_eq|].
      rewrite set_role_ne by done. by apply Hdr.
Qed.

(** A writer draws a ticket. *)
Lemma rw_ticket_step n wo A D Q s ro i :
  rw_inv n wo A D Q s ro → (i < n)%nat → ro i = rOut →
  rw_inv n wo A D (Q ++ [i]) (rset s (LockReg win) (u32 (s (LockReg win) + 1)))
    (set_role ro i (wSpin (s (LockReg win)))).
Proof.
  intros Hinv Hi Ho. destruct Hinv as [H1 H2 H3 H4 H5 H6 H7 H8 H9 H10 H11 H12].
  assert (i ∉ Q) as Hiq. { intros Hq. apply H3 in Hq; [|done]. by rewrite Ho in Hq. }
  assert (∀ pos j, Q !! pos = Some j → i ≠ j) as Hne.
  { intros pos j Hj ->. by apply list_elem_of_lookup_2 in Hj. }
  set (r' := wSpin (s (LockReg win))).
  assert (∀ P : role → bool, P rOut = false → P r' = false →
    cnt n (fun j => P (set_role ro i r' j)) = cnt n (fun j => P (ro j))) as Hcnt.
  { intros P HP HP'. rewrite cnt_set by done. rewrite Ho, HP, HP'. simpl. lia. }
  split.
  - apply list.NoDup_app. split; [done|]. split; [set_solver|apply NoDup_singleton].
  - apply Forall_app. auto.
  - intros j Hj. destruct (decide (i = j)) as [->|].
    + rewrite set_role_eq. simpl. set_solver.
    + rewrite set_role_ne by done. rewrite H3 by done. set_solver.
  - intros pos j Hj. apply lookup_app_Some in Hj as [Hj|[Hpos Hj]].
    + rewrite set_role_ne by eauto. by apply H4.
    + apply list_lookup_singleton_Some in Hj as [Hz <-]. rewrite set_role_eq. unfold r'.
      rewrite H6. do 2 f_equal. lia.
  - intros j tk Hj. destruct Q as [|q Q]; simpl in Hj; simplify_eq.
    + rewrite set_role_eq. intros [[= <-]|?]; [|done]. rewrite H6. f_equal. simpl. lia.
    + rewrite set_role_ne by (by apply (Hne 0%nat)). by apply H5.
  - rewrite rset_eq, H6. unfold u32. rewrite wrap_add. f_equal. rewrite length_app. simpl. lia.
  - by rewrite rset_ne.
  - rewrite rset_ne by done. rewrite H8. do 2 f_equal.
    destruct Q as [|q Q]; simpl; [by rewrite set_role_eq|].
    by rewrite set_role_ne by (by apply (Hne 0%nat)).
  - by rewrite rset_ne.
  - rewrite Hcnt by done. done.
  - intros j wp Hj. destruct (decide (i = j)) as [->|]; [by rewrite set_role_eq|].
    rewrite set_role_ne by done. intros Hr. specialize (H11 j wp Hj Hr).
    destruct Q as [|q Q]; simpl in *; [by rewrite set_role_eq|].
    by rewrite set_role_ne by (by apply (Hne 0%nat)).
  - destruct Q as [|q Q]; simpl in *; [by rewrite set_role_eq|].
    rewrite set_role_ne by (by apply (Hne 0%nat)). destruct (ro q); try done.
    + destruct H12 as (A0 & -> & HA0). exists A0. split; [done|].
      by rewrite (Hcnt (old (wbits wo))).
    + intros j Hj. destruct (decide (i = j)) as [->|]; [by rewrite set_role_eq|].
      rewrite set_role_ne by done. by apply H12.
Qed.

(** The leaving writer serves the next ticket. *)
Lemma rw_serve_step n wo A D i Q s ro :
  rw_inv n wo A D (i :: Q) s ro → ro i = wLeave →
  rw_inv n (wo + 1) A D Q (rset s (LockReg wout) (u32 (s (LockReg wout) + 1)))
    (set_role ro i rOut).
Proof.
  intros Hinv Hl. destruct Hinv as [H1 H2 H3 H4 H5 H6 H7 H8 H9 H10 H11 H12].
  apply list.NoDup_cons in H1 as [Hiq H1]. apply list.Forall_cons in H2 as [Hi H2].
  assert (∀ pos j, Q !! pos = Some j →
    set_role ro i rOut j = wSpin (u32 (wo + 1 + Z.of_nat pos))) as Htail.
  { intros pos j Hj. rewrite set_role_ne.
    - rewrite (H4 pos j Hj). do 2 f_equal. lia.
    - intros ->. by apply list_elem_of_lookup_2 in Hj. }
  assert (bits_of (wo + 1) (head_role (set_role ro i rOut) Q) = 0 ∧
    ∀ T : role → Prop, T rOut → (∀ tk, T (wSpin tk)) →
      T (head_role (set_role ro i rOut) Q)) as [Hb HT].
  { destruct Q as [|q Q]; simpl; [done|]. rewrite (Htail 0%nat q) by done. split; [done|]. auto. }
  split; try done.
  - intros j Hj. destruct (decide (i = j)) as [->|].
    + rewrite set_role_eq. simpl. split; [done|]. intros. done.
    + rewrite set_role_ne by done. rewrite H3 by done. set_solver.
  - intros pos j Hj. apply Htail. done.
  - intros j tk Hj E. rewrite head_lookup in Hj. rewrite (Htail 0%nat) in E by done.
    destruct E as [[= <-]|?]; [|done]. f_equal. lia.
  - rewrite rset_ne by done. rewrite H6. f_equal. simpl. lia.
  - rewrite rset_eq, H7. unfold u32. by rewrite wrap_add.
  - rewrite rset_ne by done. rewrite H8, Hb. simpl. by rewrite Hl.
  - rewrite (cnt_set n i ro rOut arrived) by done. rewrite Hl. simpl. lia.
  - intros j wp Hj. destruct (decide (i = j)) as [->|]; [by rewrite set_role_eq|].
    rewrite set_role_ne by done. intros Hr. specialize (H11 j wp Hj Hr).
    simpl in H11. rewrite Hl in H11. subst wp. replace (wo + 1 - 1) with wo by lia.
    apply (HT (fun h => match h with wDrain _ => wbits wo = wbits (wo + 1) ∨ wbits wo = wbits wo
      | wIn | wLeave => wbits wo = wbits (wo + 1) | _ => wbits wo = wbits wo end)); done.
  - by apply (HT (fun h => match h with
      | wDrain r0 => ∃ A0, r0 = u32 (256 * A0) ∧
          A0 - D = cnt n (fun j => old (wbits (wo + 1)) (set_role ro i rOut j))
      | wIn => ∀ j, (j < n)%nat → set_role ro i rOut j ≠ rIn | _ => True end)).
Qed.

(** ** The programs behind the roles *)

Abbreviation quiet_rw := (quiet (@lock_core rw_word)).

Definition rw_post (f : Z → prog rw_reg) : Prop := quiet_rw holds_lock (f 1).
Definition rw_end (f : Z → prog rw_reg) : Prop := ∀ v, quiet_rw is_ret (f v).

Definition rw_core (m : rw_mode) : prog rw_reg :=
  match m with RwRead _ => __rw_lock_read | RwWrite _ => __rw_lock_write end.
Definition rw_start (m : rw_mode) (p : prog rw_reg) : Prop :=
  p = rw_core m ∨ ∃ f, rw_post f ∧ p = pbind (rw_core m) f.

Definition rw_cl (r : role) (cl : client rw_reg rw_mode) : Prop :=
  match r with
  | rOut => match cl with
            | Out => True | Acq m p => quiet_rw (rw_start m) p
            | Crit _ => False | Rel _ p => quiet_rw is_ret p end
  | rWait wp => ∃ x f, cl = Acq (RwRead x) (pbind (rw_read_wait wp) f) ∧ rw_post f ∧ wp ≠ 0
  | rIn => match cl with
           | Acq (RwRead _) p => quiet_rw holds_lock p
           | Crit (RwRead _) => True
           | Rel (RwRead _) p =>
               quiet_rw (fun p => ∃ f, rw_end f ∧ p = pbind __rw_unlock_read f) p
           | _ => False end
  | wSpin tk => ∃ x f, cl = Acq (RwWrite x) (pbind (rw_write_wait tk) f) ∧ rw_post f
  | wAnn tk => ∃ x f, cl = Acq (RwWrite x) (pbind (rw_write_announce tk) f) ∧ rw_post f
  | wDrain r0 => ∃ x f, cl = Acq (RwWrite x) (pbind (rw_write_drain r0) f) ∧ rw_post f
  | wIn => match cl with
           | Acq (RwWrite _) p => quiet_rw holds_lock p
           | Crit (RwWrite _) => True
           | Rel (RwWrite _) p =>
               quiet_rw (fun p => ∃ f, rw_end f ∧ p = pbind __rw_unlock_write f) p
           | _ => False end
  | wLeave => ∃ x f, cl = Rel (RwWrite x) (pbind rw_write_leave f) ∧ rw_end f
  end.

Lemma rw_acquire_start m i : quiet_rw (rw_start m) (acquire rwlock_impl m i).
Proof.
  assert (∀ fl, rw_post (fun v => St LockFlags fl (Ret v))) as Hisr.
  { intros fl. apply q_st; [done|]. apply q_now. by exists 1. }
  destruct m as [[| |]|[| |]]; simpl acquire;
    try (apply q_now; by left); try (apply disable_preemption_quiet, q_now; by left);
    (apply q_ld; intros fl; apply q_st; [done|]; apply q_now; right; eexists;
      split; [apply Hisr|reflexivity]).
Qed.

Lemma rw_release_quiet m i :
  quiet_rw (fun p => ∃ f, rw_end f ∧
    p = pbind (match m with RwRead _ => __rw_unlock_read | RwWrite _ => __rw_unlock_write end) f)
    (release rwlock_impl m i).
Proof.
  assert (∀ v, quiet_rw is_ret (Ret v)) as Hret by (intros v; apply q_now; by exists v).
  destruct m as [[| |]|[| |]]; simpl release;
    try (apply q_now; exists (fun v => Ret v); split; [exact Hret|reflexivity]);
    try (apply q_now; eexists; split; [intros v; apply task_enable_quiet, Hret|reflexivity]);
    (apply q_ld; intros fl; apply q_now; eexists; split; [|reflexivity];
      intros v; apply q_st; [done|apply Hret]).
Qed.

Lemma rw_inv_core n wo A D Q s s' ro :
  rw_inv n wo A D Q s ro → same_core lock_core s s' → rw_inv n wo A D Q s' ro.
Proof. intros [] Hs. split; rewrite ?Hs; done. Qed.

Definition rw_ok (n : nat) (s : regs rw_reg) (t : nat → client rw_reg rw_mode) : Prop :=
  ∃ wo A D Q ro, rw_inv n wo A D Q s ro ∧ ∀ i, (i < n)%nat → rw_cl (ro i) (t i).

Lemma rw_ok_intro n wo A D Q s ro ro' t i cl :
  rw_inv n wo A D Q s ro' → (i < n)%nat → (∀ j, (j < n)%nat → rw_cl (ro j) (t j)) →
  (∀ j, j ≠ i → ro' j = ro j) → rw_cl (ro' i) cl → rw_ok n s (upd t i cl).
Proof.
  intros Hinv Hi Ht Hro Hcl. exists wo, A, D, Q, ro'. split; [done|]. intros j Hj.
  destruct (decide (i = j)) as [->|]; [by rewrite cfg_upd_eq|rewrite cfg_upd_ne by done].
  rewrite Hro by done. by apply Ht.
Qed.

(** ** The accesses of the routines on the invariant *)

Lemma rw_bits_range wo r : 0 <= bits_of wo r < 4.
Proof. pose proof (wbits_range wo). destruct r; simpl; lia. Qed.

Lemma rw_read_bits n wo A D Q s ro :
  rw_inv n wo A D Q s ro →
  Z.land (s (LockReg rin)) PF_WRITER_BITS = bits_of wo (head_role ro Q).
Proof. intros H. rewrite (rw_rin _ _ _ _ _ _ _ H). apply rin_bits, rw_bits_range. Qed.

Lemma rw_head_of n wo A D Q s ro i :
  rw_inv n wo A D Q s ro → (i < n)%nat → is_writer (ro i) = true →
  (∀ tk, ro i = wSpin tk → tk = u32 wo ∨ Z.of_nat n > 2 ^ 32) →
  Z.of_nat n <= 2 ^ 32 →
  ∃ Q', Q = i :: Q'.
Proof.
  intros H Hi Hw Hs Hn. apply (rw_queue _ _ _ _ _ _ _ H) in Hw; [|done].
  apply list_elem_of_lookup_1 in Hw as [[|pos] Hpos].
  - destruct Q as [|q Q]; simplify_eq/=. by exists Q.
  - pose proof (rw_tail _ _ _ _ _ _ _ H pos i Hpos) as E.
    destruct (Hs _ E) as [Hc|]; [|lia]. symmetry in Hc. apply wrap_near in Hc; [lia|].
    apply lookup_lt_Some in Hpos.
    assert (length Q <= n)%nat; [|lia].
    assert (Q ⊆+ seq 0 n) as Hsub.
    { apply NoDup_submseteq; [apply H|]. intros x Hx. apply elem_of_seq.
      pose proof (proj1 (list.Forall_forall _ _) (rw_cpus _ _ _ _ _ _ _ H) x Hx). simpl in *. lia. }
    apply submseteq_length in Hsub. by rewrite length_seq in Hsub.
Qed.

Lemma rw_arrive n wo A D Q s ro i :
  rw_inv n wo A D Q s ro → (i < n)%nat → ro i = rOut →
  let wp := Z.land (s (LockReg rin)) PF_WRITER_BITS in
  rw_inv n wo (A + 1) D Q
    (rset s (LockReg rin) (u32 (s (LockReg rin) + PF_READER_INC)))
    (set_role ro i (if wp =? 0 then rIn else rWait wp)).
Proof.
  intros H Hi Ho wp. pose proof (rw_read_bits _ _ _ _ _ _ _ H) as Hb. fold wp in Hb.
  pose proof (wbits_range wo) as Hwb.
  eapply rw_reader_step; try done.
  - by rewrite Ho.
  - by case_match.
  - rewrite rset_eq, (rw_rin _ _ _ _ _ _ _ H). unfold u32, PF_READER_INC. rewrite wrap_add.
    f_equal. lia.
  - rewrite rset_ne by done. apply H.
  - rewrite Ho. simpl. case_match; simpl; lia.
  - intros b Hr. rewrite Hb in Hr.
    destruct (head_role ro Q); simpl in *; try done; case_match; simplify_eq; auto.
  - rewrite Hb. rewrite Ho. destruct (head_role ro Q); try done; simpl.
    all: rewrite (proj2 (Z.eqb_neq (wbits wo) 0)) by lia; simpl; rewrite ?Z.eqb_refl; simpl;
      try done; lia.
Qed.

Lemma rw_admit n wo A D Q s ro i wp :
  rw_inv n wo A D Q s ro → (i < n)%nat → ro i = rWait wp →
  Z.land (s (LockReg rin)) PF_WRITER_BITS ≠ wp →
  rw_inv n wo A D Q s (set_role ro i rIn).
Proof.
  intros H Hi Ho Hne. rewrite (rw_read_bits _ _ _ _ _ _ _ H) in Hne.
  eapply rw_reader_step; try done.
  - by rewrite Ho.
  - apply H.
  - apply H.
  - rewrite Ho. simpl. lia.
  - rewrite Ho. pose proof (rw_phase _ _ _ _ _ _ _ H i wp Hi Ho) as Hph.
    destruct (head_role ro Q); try done; simpl in *.
    rewrite (proj2 (Z.eqb_neq wp (wbits wo))) by done. simpl. lia.
Qed.

Lemma rw_depart n wo A D Q s ro i :
  rw_inv n wo A D Q s ro → (i < n)%nat → ro i = rIn →
  rw_inv n wo A (D + 1) Q
    (rset s (LockReg rout) (u32 (s (LockReg rout) + PF_READER_INC))) (set_role ro i rOut).
Proof.
  intros H Hi Ho. eapply rw_reader_step; try done.
  - by rewrite Ho.
  - rewrite rset_ne by done. apply H.
  - rewrite rset_eq, (rw_rout _ _ _ _ _ _ _ H). unfold u32, PF_READER_INC. rewrite wrap_add.
    f_equal. lia.
  - rewrite Ho. simpl. lia.
  - rewrite Ho. destruct (head_role ro Q); try done; simpl. lia.
Qed.

Lemma rw_turn n wo A D i Q s ro tk :
  rw_inv n wo A D (i :: Q) s ro → ro i = wSpin tk →
  rw_inv n wo A D (i :: Q) s (set_role ro i (wAnn tk)).
Proof.
  intros H Ho. eapply rw_head_step; try done.
  - intros tk' [?|[= <-]]; [done|]. eapply (rw_head _ _ _ _ _ _ _ H); [done|by left].
  - rewrite (rw_rin _ _ _ _ _ _ _ H). simpl. by rewrite Ho.
  - intros j wp Hj Hr. pose proof (rw_phase _ _ _ _ _ _ _ H j wp Hj Hr) as Hp.
    simpl in Hp. by rewrite Ho in Hp.
Qed.

Lemma rw_announce n wo A D i Q s ro tk :
  rw_inv n wo A D (i :: Q) s ro → ro i = wAnn tk →
  rw_inv n wo A D (i :: Q)
    (rset s (LockReg rin)
       (u32 (s (LockReg rin) + Z.lor (Z.land tk PF_PHASE_ID) PF_WRITER_PRESENT)))
    (set_role ro i (wDrain (s (LockReg rin)))).
Proof.
  intros H Ho.
  assert (tk = u32 wo) as -> by (eapply (rw_head _ _ _ _ _ _ _ H); [done|by right]).
  assert (∀ j wp, (j < n)%nat → ro j = rWait wp → wp = wbits (wo - 1)) as Hph.
  { intros j wp Hj Hr. pose proof (rw_phase _ _ _ _ _ _ _ H j wp Hj Hr) as Hp.
    simpl in Hp. by rewrite Ho in Hp. }
  assert (s (LockReg rin) = u32 (256 * A)) as Hr.
  { rewrite (rw_rin _ _ _ _ _ _ _ H). simpl. rewrite Ho. simpl. by rewrite Z.add_0_r. }
  eapply rw_head_step; try done.
  - by intros tk' [?|?].
  - rewrite rset_eq, Hr. fold (wbits (u32 wo)). rewrite wbits_u32. simpl.
    unfold u32. by rewrite wrap_add.
  - intros j wp Hj Hw. right. by eapply Hph.
  - exists A. split; [done|]. rewrite (rw_count _ _ _ _ _ _ _ H). apply cnt_ext.
    intros j Hj. destruct (ro j) as [|wp| | | | | |] eqn:Er; try done. simpl.
    rewrite (Hph j wp) by done. pose proof (wbits_pred wo).
    by rewrite (proj2 (Z.eqb_neq _ _)) by done.
Qed.

Lemma rw_enter n wo A D i Q s ro r0 :
  rw_inv n wo A D (i :: Q) s ro → Z.of_nat n < 2 ^ 24 → ro i = wDrain r0 →
  r0 = s (LockReg rout) → rw_inv n wo A D (i :: Q) s (set_role ro i wIn).
Proof.
  intros H Hn Ho Hr. pose proof (rw_drain _ _ _ _ _ _ _ H) as Hd. simpl in Hd.
  rewrite Ho in Hd. destruct Hd as (A0 & -> & HA0).
  pose proof (cnt_bounds n (fun i => old (wbits wo) (ro i))) as Hc.
  rewrite (rw_rout _ _ _ _ _ _ _ H) in Hr. symmetry in Hr. apply wrap_near in Hr; [|lia].
  assert (∀ j, (j < n)%nat → old (wbits wo) (ro j) = false) as Hold.
  { intros j Hj. apply (cnt_zero n (fun j => old (wbits wo) (ro j))); [lia|done]. }
  eapply rw_head_step; try done.
  - by intros tk' [?|?].
  - rewrite (rw_rin _ _ _ _ _ _ _ H). simpl. by rewrite Ho.
  - intros j wp Hj Hw. specialize (Hold j Hj). rewrite Hw in Hold. simpl in Hold.
    by apply negb_false_iff, Z.eqb_eq in Hold.
  - intros j Hj Hin. specialize (Hold j Hj). by rewrite Hin in Hold.
Qed.

Lemma rw_clear n wo A D i Q s ro :
  rw_inv n wo A D (i :: Q) s ro → ro i = wIn →
  rw_inv n wo A D (i :: Q) (rset s (LockReg rin) (Z.land (s (LockReg rin)) PF_LSB))
    (set_role ro i wLeave).
Proof.
  intros H Ho. eapply rw_head_step; try done.
  - by intros tk' [?|?].
  - rewrite rset_eq, (rw_rin _ _ _ _ _ _ _ H), rin_clear by apply rw_bits_range.
    simpl. by rewrite Z.add_0_r.
  - intros j wp Hj Hr. pose proof (rw_phase _ _ _ _ _ _ _ H j wp Hj Hr) as Hp.
    simpl in Hp. by rewrite Ho in Hp.
Qed.

(** A step that leaves the words of the lock and the role of [i] alone. *)
Lemma rw_ok_same n wo A D Q s s' ro t i cl :
  rw_inv n wo A D Q s ro → (i < n)%nat → (∀ j, (j < n)%nat → rw_cl (ro j) (t j)) →
  same_core lock_core s s' → rw_cl (ro i) cl → rw_ok n s' (upd t i cl).
Proof. intros H Hi Ht Hs Hcl. eapply rw_ok_intro; [by eapply rw_inv_core|done..]. Qed.

(** A step that gives [i] the role [r]. *)
Lemma rw_ok_role n wo A D Q s ro t i r cl :
  rw_inv n wo A D Q s (set_role ro i r) → (i < n)%nat →
  (∀ j, (j < n)%nat → rw_cl (ro j) (t j)) → rw_cl r cl → rw_ok n s (upd t i cl).
Proof.
  intros H Hi Ht Hcl. eapply rw_ok_intro; [done|done|done| |by rewrite set_role_eq].
  intros j Hj. by apply set_role_ne.
Qed.

Lemma rw_read_start_step p s p' s' x :
  rw_start (RwRead x) p → pexec p s = Some (p', s') →
  let wp := Z.land (s (LockReg rin)) PF_WRITER_BITS in
  s' = rset s (LockReg rin) (u32 (s (LockReg rin) + PF_READER_INC)) ∧
  if wp =? 0 then quiet_rw holds_lock p'
  else ∃ f, rw_post f ∧ p' = pbind (rw_read_wait wp) f.
Proof.
  assert (rw_post (fun v => Ret v)) as Hret by (apply q_now; by exists 1).
  intros [->|(f & Hf & ->)] E wp; simpl in E; fold wp in E; simplify_eq; split; try done;
    case_match; try done.
  - by exists (fun v => Ret v).
  - by exists f.
Qed.

Lemma rw_write_start_step p s p' s' x :
  rw_start (RwWrite x) p → pexec p s = Some (p', s') →
  s' = rset s (LockReg win) (u32 (s (LockReg win) + 1)) ∧
  ∃ f, rw_post f ∧ p' = pbind (rw_write_wait (s (LockReg win))) f.
Proof.
  assert (rw_post (fun v => Ret v)) as Hret by (apply q_now; by exists 1).
  intros [->|(f & Hf & ->)] E; simpl in E; simplify_eq; split; try done.
  - by exists (fun v => Ret v).
  - by exists f.
Qed.

Lemma rw_start_not_ret m v : ¬ rw_start m (Ret v).
Proof. intros [?|(f & _ & ?)]; by destruct m. Qed.

Section Step.
Context (allowed : rw_mode → bool) (n : nat) (wo A D : Z) (Q : list nat)
  (s s' : regs rw_reg) (ro : nat → role) (t : nat → client rw_reg rw_mode)
  (i : nat) (cl' : client rw_reg rw_mode).
Hypothesis (Hinv : rw_inv n wo A D Q s ro) (Hi : (i < n)%nat) (Hn : Z.of_nat n < 2 ^ 24).
Hypothesis (Ht : ∀ j, (j < n)%nat → rw_cl (ro j) (t j)).
Hypothesis (Hstep : tstep rwlock_impl allowed i (t i) s cl' s').

Lemma rw_step_out : ro i = rOut → rw_ok n s' (upd t i cl').
Proof.
  intros Ho. pose proof (Ht i Hi) as Hc. rewrite Ho in Hc. apply tstep_cases in Hstep.
  pose proof (fun cl => rw_ok_same _ _ _ _ _ _ s' _ _ _ cl Hinv Hi Ht) as Hsame.
  rewrite Ho in Hsame. simpl in Hsame.
  destruct (t i) as [|m p|m|m p]; simpl in Hc, Hstep; [|destruct Hstep as [Hs|Hs]|
    done|destruct Hstep as [Hs|Hs]].
  - destruct Hstep as (-> & m & Hm & ->). apply Hsame; [by intros r ?|].
    simpl. apply rw_acquire_start.
  - destruct Hs as (p' & Hex & ->).
    destruct (quiet_pexec _ _ _ _ _ _ Hc Hex) as [Hst|[Hq Hs]]; [|by apply Hsame].
    destruct m as [x|x].
    + destruct (rw_read_start_step _ _ _ _ _ Hst Hex) as [-> Hp'].
      eapply rw_ok_role; [by apply rw_arrive|done|done|].
      destruct (Z.eqb_spec (Z.land (s (LockReg rin)) PF_WRITER_BITS) 0); [done|].
      destruct Hp' as (f & Hf & ->). by exists x, f.
    + destruct (rw_write_start_step _ _ _ _ _ Hst Hex) as [-> (f & Hf & ->)].
      eapply rw_ok_role; [by apply rw_ticket_step|done|done|]. by exists x, f.
  - destruct Hs as (-> & v & -> & ->). apply quiet_ret in Hc. by destruct (rw_start_not_ret m v).
  - destruct Hs as (p' & Hex & ->).
    destruct (quiet_pexec _ _ _ _ _ _ Hc Hex) as [[v ->]|[Hq Hs]]; [done|by apply Hsame].
  - destruct Hs as (-> & v & -> & ->). by apply Hsame; [intros r ?|].
Qed.

Lemma rw_step_wait wp : ro i = rWait wp → rw_ok n s' (upd t i cl').
Proof.
  intros Ho. pose proof (Ht i Hi) as Hc. rewrite Ho in Hc. apply tstep_cases in Hstep.
  destruct Hc as (x & f & Ec & Hf & _). rewrite Ec in Hstep. destruct Hstep as [(p' & Hex & ->)|(_ & v & ? & _)]; [|done].
  simpl in Hex.
  destruct (Z.eqb_spec (Z.land (s (LockReg rin)) PF_WRITER_BITS) wp); simplify_eq/=.
  eapply rw_ok_role; [by eapply rw_admit|done..].
Qed.

Lemma rw_step_in : ro i = rIn → rw_ok n s' (upd t i cl').
Proof.
  intros Ho. pose proof (Ht i Hi) as Hc. rewrite Ho in Hc. apply tstep_cases in Hstep.
  pose proof (fun cl => rw_ok_same _ _ _ _ _ _ s' _ _ _ cl Hinv Hi Ht) as Hsame.
  rewrite Ho in Hsame. simpl in Hsame.
  destruct (t i) as [|[x|x] p|[x|x]|[x|x] p]; simpl in Hc, Hstep; try done;
    [destruct Hstep as [Hs|Hs]| |destruct Hstep as [Hs|Hs]].
  - destruct Hs as (p' & Hex & ->).
    destruct (quiet_pexec _ _ _ _ _ _ Hc Hex) as [(v & _ & ->)|[Hq Hs]]; [done|by apply Hsame].
  - destruct Hs as (-> & v & -> & ->). apply quiet_ret in Hc as (w & Hw & [= ->]).
    rewrite (proj2 (Z.eqb_neq w 0)) by done. by apply Hsame; [intros r ?|].
  - destruct Hstep as (-> & ->). apply Hsame; [by intros r ?|]. apply (rw_release_quiet (RwRead x)).
  - destruct Hs as (p' & Hex & ->).
    destruct (quiet_pexec _ _ _ _ _ _ Hc Hex) as [(f & Hf & ->)|[Hq Hs]]; [|by apply Hsame].
    simpl in Hex. simplify_eq. eapply rw_ok_role; [by apply rw_depart|done|done|]. apply Hf.
  - destruct Hs as (-> & v & -> & ->). apply quiet_ret in Hc as (f & Hf & ?). done.
Qed.

Lemma rw_step_spin tk : ro i = wSpin tk → rw_ok n s' (upd t i cl').
Proof.
  intros Ho. pose proof (Ht i Hi) as Hc. rewrite Ho in Hc. apply tstep_cases in Hstep.
  destruct Hc as (x & f & Ec & Hf). rewrite Ec in Hstep. destruct Hstep as [(p' & Hex & ->)|(_ & v & ? & _)]; [|done].
  simpl in Hex. destruct (Z.eqb_spec tk (s (LockReg wout))) as [Htk|]; simplify_eq/=.
  destruct (rw_head_of _ _ _ _ _ _ _ i Hinv Hi) as [Q' ->];
    [by rewrite Ho| |lia|].
  { intros tk E. rewrite Ho in E. simplify_eq. left. apply Hinv. }
  eapply rw_ok_role; [by apply rw_turn|done|done|]. by exists x, f.
Qed.

(** The other roles of a writer are those of the head of the queue. *)
Lemma rw_step_head : is_writer (ro i) = true → (∀ tk, ro i ≠ wSpin tk) →
  rw_ok n s' (upd t i cl').
Proof.
  intros Hw Hns. pose proof (Ht i Hi) as Hc. apply tstep_cases in Hstep.
  pose proof (fun cl => rw_ok_same _ _ _ _ _ _ s' _ _ _ cl Hinv Hi Ht) as Hsame.
  destruct (rw_head_of _ _ _ _ _ _ _ i Hinv Hi Hw) as [Q' ->];
    [intros tk E; by destruct (Hns tk)|lia|].
  destruct (ro i) as [|wp| |tk|tk|r0| |] eqn:Ho; try done; simpl in Hc.
  - by destruct (Hns tk).
  - destruct Hc as (x & f & Ec & Hf). rewrite Ec in Hstep. destruct Hstep as [(p' & Hex & ->)|(_ & v & ? & _)]; [|done].
    simpl in Hex. simplify_eq. eapply rw_ok_role; [by apply rw_announce|done|done|]. by exists x, f.
  - destruct Hc as (x & f & Ec & Hf). rewrite Ec in Hstep. destruct Hstep as [(p' & Hex & ->)|(_ & v & ? & _)]; [|done].
    simpl in Hex. destruct (Z.eqb_spec r0 (s (LockReg rout))); simplify_eq/=.
    eapply rw_ok_role; [by eapply rw_enter|done..].
  - destruct (t i) as [|[x|x] p|[x|x]|[x|x] p]; simpl in Hc, Hstep; try done;
      [destruct Hstep as [Hs|Hs]| |destruct Hstep as [Hs|Hs]].
    + destruct Hs as (p' & Hex & ->).
      destruct (quiet_pexec _ _ _ _ _ _ Hc Hex) as [(v & _ & ->)|[Hq Hs]]; [done|by apply Hsame].
    + destruct Hs as (-> & v & -> & ->). apply quiet_ret in Hc as (w & Hw' & [= ->]).
      rewrite (proj2 (Z.eqb_neq w 0)) by done. by apply Hsame; [intros r ?|].
    + destruct Hstep as (-> & ->). apply Hsame; [by intros r ?|]. apply (rw_release_quiet (RwWrite x)).
    + destruct Hs as (p' & Hex & ->).
      destruct (quiet_pexec _ _ _ _ _ _ Hc Hex) as [(f & Hf & ->)|[Hq Hs]]; [|by apply Hsame].
      simpl in Hex. simplify_eq. eapply rw_ok_role; [by apply rw_clear|done|done|]. by exists x, f.
    + destruct Hs as (-> & v & -> & ->). apply quiet_ret in Hc as (f & Hf & ?). done.
  - destruct Hc as (x & f & Ec & Hf). rewrite Ec in Hstep. destruct Hstep as [(p' & Hex & ->)|(_ & v & ? & _)]; [|done].
    simpl in Hex. simplify_eq. eapply rw_ok_role; [by apply rw_serve_step|done|done|]. apply Hf.
Qed.

Lemma rw_step_ok : rw_ok n s' (upd t i cl').
Proof.
  destruct (ro i) eqn:E; eauto using rw_step_out, rw_step_wait, rw_step_in, rw_step_spin.
  all: apply rw_step_head; by rewrite E.
Qed.
End Step.

Lemma rw_inv_init n : rw_inv n 0 0 0 [] (rwlock_isr_init (fun _ => 0)) (fun _ => rOut).
Proof.
  split; try done; try constructor; simpl; try done.
  - by intros ?%elem_of_nil.
  - induction n; simpl; lia.
Qed.

Lemma rw_reach allowed n k c :
  Z.of_nat n < 2 ^ 24 → reach rwlock_impl allowed n k c → rw_ok n (mem c) (thr c).
Proof.
  intros Hn. revert k c. apply (reach_inv _ _ _ (fun _ c => rw_ok n (mem c) (thr c))).
  - exists 0, 0, 0, [], (fun _ => rOut). split; [apply rw_inv_init|done].
  - intros k c i cl' s' (wo & A & D & Q & ro & Hinv & Ht) Hi Hs. simpl.
    by eapply rw_step_ok.
Qed.

(** ** Progress *)

Lemma cnt_pos n f : cnt n f ≠ 0 → ∃ i, (i < n)%nat ∧ f i = true.
Proof.
  induction n as [|n IH]; intros Hc; [done|]. simpl in Hc.
  destruct (f n) eqn:E; [exists n; split; [lia|done]|].
  destruct IH as (i & Hi & Hf); [simpl in Hc; lia|]. exists i. split; [lia|done].
Qed.

Definition rw_raw_only (m : rw_mode) : bool :=
  match m with RwRead RwRaw | RwWrite RwRaw => true | _ => false end.

Lemma rw_raw_nopanic m i :
  rw_raw_only m = true →
  nopanic (acquire rwlock_impl m i) ∧ nopanic (release rwlock_impl m i).
Proof.
  destruct m as [[| |]|[| |]]; simpl; intros ?; try done; split; repeat (constructor; intros).
  cbv zeta. case_match; repeat (constructor; intros).
Qed.

Lemma rw_reach_nopanic n k c :
  reach rwlock_impl rw_raw_only n k c → ∀ i, client_nopanic rw_raw_only (thr c i).
Proof.
  revert k c. apply (reach_inv _ _ _ (fun _ c => ∀ i, client_nopanic rw_raw_only (thr c i))).
  - done.
  - intros k c i cl' s' IH Hi Ht j. simpl. destruct (decide (i = j)) as [->|].
    + rewrite cfg_upd_eq. eapply tstep_nopanic; [|apply IH|done].
      intros m. apply rw_raw_nopanic.
    + by rewrite cfg_upd_ne.
Qed.

(** The programs that may be spinning. *)
Lemma rw_cl_spins ro cl r q k m :
  rw_cl ro cl → cl = Acq m (Until r q k) ∨ cl = Rel m (Until r q k) →
  match ro with
  | rWait wp => wp ≠ 0 ∧ r = LockReg rin ∧ q = fun v => negb (Z.land v PF_WRITER_BITS =? wp)
  | wSpin tk => r = LockReg wout ∧ q = fun v => tk =? v
  | wDrain r0 => r = LockReg rout ∧ q = fun v => r0 =? v
  | _ => False
  end.
Proof.
  intros Hc [-> | ->].
  all: assert (∀ core Q, quiet (R:=rw_reg) core Q (Until r q k) → Q (Until r q k)) as Hq
    by (by inversion 1).
  all: destruct ro, m as [x|x]; simpl in Hc; try done;
    repeat match goal with
    | H : quiet_rw _ _ |- _ => apply Hq in H
    | H : rw_start _ _ |- _ => destruct H as [?|(?&?&?)]
    | H : holds_lock _ |- _ => destruct H as (?&?&?)
    | H : is_ret _ |- _ => destruct H as (?&?)
    | H : ex _ |- _ => destruct H as (?&H)
    | H : _ ∧ _ |- _ => destruct H
    | H : Acq _ _ = Acq _ _ |- _ => simpl in H; injection H; clear H; intros; subst
    end; simplify_eq/=; done.
Qed.

Lemma rw_live_step n s t :
  Z.of_nat n < 2 ^ 24 → rw_ok n s t → (∀ i, client_nopanic rw_raw_only (t i)) →
  not_stuck rwlock_impl rw_raw_only n (Config s t).
Proof.
  intros Hn (wo & A & D & Q & ro & Hinv & Ht) Hnp.
  assert (∀ i, (i < n)%nat → t i ≠ Out →
    (match ro i with
     | rWait wp => wp ≠ 0 → Z.land (s (LockReg rin)) PF_WRITER_BITS ≠ wp
     | wSpin tk => tk = s (LockReg wout)
     | wDrain r0 => r0 = s (LockReg rout)
     | _ => True end) → not_stuck rwlock_impl rw_raw_only n (Config s t)) as Hgo.
  { intros i Hi Ho Hr. right. exists i. split; [done|]. split; [done|].
    apply tstep_enabled; [apply Hnp|done|]. intros r q k m Hc.
    pose proof (rw_cl_spins _ _ _ _ _ _ (Ht i Hi) Hc) as Hs.
    destruct (ro i); try done.
    - destruct Hs as (? & -> & ->). by apply negb_true_iff, Z.eqb_neq, Hr.
    - destruct Hs as (-> & ->). by apply Z.eqb_eq.
    - destruct Hs as (-> & ->). by apply Z.eqb_eq. }
  assert (∀ i, (i < n)%nat → ro i ≠ rOut → t i ≠ Out) as Hout.
  { intros i Hi Hr Ho. pose proof (Ht i Hi) as Hc. rewrite Ho in Hc.
    destruct (ro i); simpl in Hc; naive_solver. }
  destruct Q as [|i Q].
  - destruct (all_out_or n t) as [Hall|(i & Hi & Ho)]; [by left|].
    apply (Hgo i Hi Ho). pose proof (rw_queue _ _ _ _ _ _ _ Hinv i Hi) as Hq.
    rewrite (rw_read_bits _ _ _ _ _ _ _ Hinv). simpl.
    destruct (ro i); simpl in Hq; try done; try (by destruct (not_elem_of_nil i); apply Hq).
  - assert (i < n)%nat as Hi.
    { pose proof (rw_cpus _ _ _ _ _ _ _ Hinv) as Hc. by apply list.Forall_cons in Hc as [? _]. }
    assert (is_writer (ro i) = true) as Hw by (apply (rw_queue _ _ _ _ _ _ _ Hinv); [done|left]).
    assert (t i ≠ Out) as Ho by (apply Hout; [done|]; intros E; by rewrite E in Hw).
    destruct (ro i) as [|wp| |tk|tk|r0| |] eqn:E; try done;
      try (apply (Hgo i Hi Ho); rewrite E; done).
    + apply (Hgo i Hi Ho). rewrite E, (rw_wout _ _ _ _ _ _ _ Hinv).
      eapply (rw_head _ _ _ _ _ _ _ Hinv); [done|by left].
    + pose proof (rw_drain _ _ _ _ _ _ _ Hinv) as Hd. simpl in Hd. rewrite E in Hd.
      destruct Hd as (A0 & -> & HA0).
      destruct (decide (cnt n (fun j => old (wbits wo) (ro j)) = 0)) as [H0|H0].
      * apply (Hgo i Hi Ho). rewrite E, (rw_rout _ _ _ _ _ _ _ Hinv). f_equal. lia.
      * apply cnt_pos in H0 as (j & Hj & Hold).
        apply (Hgo j Hj); [apply Hout; [done|]; intros Ej; by rewrite Ej in Hold|].
        rewrite (rw_read_bits _ _ _ _ _ _ _ Hinv). simpl. rewrite E. simpl.
        destruct (ro j); try done. intros _ <-. simpl in Hold. by rewrite Z.eqb_refl in Hold.
Qed.

Lemma rw_ok_excl n s t i j m1 m2 :
  rw_ok n s t → Z.of_nat n < 2 ^ 24 → (i < n)%nat → (j < n)%nat → i ≠ j →
  t i = Crit m1 → t j = Crit m2 → rw_compat m1 m2 = true.
Proof.
  intros (wo & A & D & Q & ro & Hinv & Ht) Hn Hi Hj Hij Ei Ej.
  assert (∀ k m, (k < n)%nat → t k = Crit m →
    match m with RwRead _ => ro k = rIn | RwWrite _ => ro k = wIn end) as Hro.
  { intros k m Hk Ek. pose proof (Ht k Hk) as Hc. rewrite Ek in Hc.
    destruct (ro k), m; simpl in Hc; naive_solver. }
  assert (∀ k x, (k < n)%nat → t k = Crit (RwWrite x) → ∃ Q', Q = k :: Q') as Hhd.
  { intros k x Hk Ek. apply (Hro _ _ Hk) in Ek. simpl in Ek.
    eapply rw_head_of; [done|done|by rewrite Ek| |lia]. intros tk E. by rewrite Ek in E. }
  assert (∀ k l x y, (k < n)%nat → (l < n)%nat → t k = Crit (RwWrite x) →
    t l = Crit (RwRead y) → False) as Hrw.
  { intros k l x y Hk Hl Ek El. destruct (Hhd k x Hk Ek) as [Q' ->].
    apply (Hro _ _ Hk) in Ek. apply (Hro _ _ Hl) in El. simpl in Ek, El.
    pose proof (rw_drain _ _ _ _ _ _ _ Hinv) as Hd. simpl in Hd. rewrite Ek in Hd.
    by apply (Hd l). }
  destruct m1 as [x1|x1], m2 as [x2|x2]; simpl; try done.
  - by destruct (Hrw j i x2 x1).
  - by destruct (Hrw i j x1 x2).
  - destruct (Hhd i x1 Hi Ei) as [Q1 ->], (Hhd j x2 Hj Ej) as [Q2 [= ? _]]. done.
Qed.

Definition rw_all (m : rw_mode) : bool := true.

#[export] Instance rwlock_safe : LockSafe rwlock_impl rw_all rw_compat (2 ^ 24 - 1).
Proof.
  split. intros n k c Hn Hr i j m1 m2 Hij Hi Hj Ei Ej.
  assert (Z.of_nat n < 2 ^ 24) by lia. eapply (rw_ok_excl n (mem c) (thr c) i j); [by eapply rw_reach|done..].
Qed.

#[export] Instance rwlock_live : LockLive rwlock_impl rw_raw_only (2 ^ 24 - 1).
Proof.
  split. intros n k [s t] Hn Hr. assert (Z.of_nat n < 2 ^ 24) by lia.
  apply rw_live_step; [done|by eapply (rw_reach _ _ _ (Config s t))|].
  by eapply (rw_reach_nopanic _ _ (Config s t)).
Qed.

(** ** What the phase-fair lock promises *)

(** C1.  Reader-writer lock, exclusion: among fewer than 2^24 processors that
    take and release the lock through any of its routines, a writer is alone
    in its critical section; only readers share it. *)
Theorem rwlock_exclusion n k c :
  Z.of_nat n < 2 ^ 24 → reach rwlock_impl rw_all n k c → compatible n rw_compat c.
Proof.
  intros Hn Hr i j m1 m2 Hij Hi Hj Ei Ej. eapply (rw_ok_excl n (mem c) (thr c) i j); [by eapply rw_reach|done..].
Qed.

(** C25. Reader-writer lock, progress, of the raw routines (those that leave
    interrupts and preemption alone) with fewer than 2^24 processors: readers
    and writers never block each other for good: while some processor takes,
    holds or releases the lock, one of them can perform its next access. *)
Theorem rwlock_progress n k c :
  Z.of_nat n < 2 ^ 24 → reach rwlock_impl rw_raw_only n k c →
  not_stuck rwlock_impl rw_raw_only n c.
Proof.
  intros Hn Hr. destruct c as [s t].
  apply rw_live_step; [done|by eapply (rw_reach _ _ _ (Config s t))|].
  by eapply (rw_reach_nopanic _ _ (Config s t)).
Qed.

(** A reader inside, a writer draining it. *)
Definition rw_trace : list (nat * rw_mode) :=
  let r := (0%nat, RwRead RwRaw) in let w := (1%nat, RwWrite RwRaw) in
  [r; r; r; w; w; w; w].

Definition rw_trace_ok (allowed : rw_mode → bool) : Prop :=
  ∃ c, reach rwlock_impl allowed 2 7 c ∧ thr c 0%nat = Crit (RwRead RwRaw) ∧
    thr c 1%nat = Acq (RwWrite RwRaw) (rw_write_drain 256).

Lemma rw_trace_run allowed :
  match schedule rwlock_impl allowed 2 rw_trace (config_init rwlock_impl) with
  | Some c => thr c 0%nat = Crit (RwRead RwRaw) ∧
      thr c 1%nat = Acq (RwWrite RwRaw) (rw_write_drain 256)
  | None => False
  end → rw_trace_ok allowed.
Proof.
  destruct (schedule _ _ _ _ _) as [c|] eqn:E; [|done]. intros [H0 H1].
  exists c. split; [|done]. apply (schedule_reach _ _ _ _ 0 _ _ E). constructor.
Defined.

Lemma rwlock_exclusion_witness :
  ∃ c : config rw_reg rw_mode, thr c 0%nat = Crit (RwRead RwRaw) ∧ compatible 2 rw_compat c.
Proof.
  destruct (rw_trace_run rw_all (conj eq_refl eq_refl)) as (c & Hr & H0 & _).
  exists c. split; [exact H0|]. apply (rwlock_exclusion 2 7 c); [lia|exact Hr].
Defined.

Lemma rwlock_progress_witness :
  ∃ c : config rw_reg rw_mode, thr c 1%nat = Acq (RwWrite RwRaw) (rw_write_drain 256) ∧
    not_stuck rwlock_impl rw_raw_only 2 c.
Proof.
  destruct (rw_trace_run rw_raw_only (conj eq_refl eq_refl)) as (c & Hr & _ & H1).
  exists c. split; [exact H1|]. apply (rwlock_progress 2 7 c); [lia|exact Hr].
Defined.
