(* ===== verification/Mcslock.v ===== *)
(** * Mcslock: the queue lock of src/subsys/sync/mcslock.c

    Each processor brings a node; the lock is a pointer to the last node of a
    queue linked through [next].  A waiter spins on the [state] of its own
    node, which its predecessor sets.  The paravirtualised routines announce a
    waiter that is about to block ([MCS_PAUSED]) and kick it on hand-over.

    The node of processor [i] is the pointer [i + 1]; NULL is 0.  The answers
    of the hypervisor to the calls of the waiter are an arbitrary function
    (part of the mode in which the lock is taken), and a pause or kick is a
    scheduling point: mutual exclusion does not depend on the hypervisor. *)

From S2P Require Import Prelude Std Conc.
From Stdlib Require Import ZArith Lia Bool.
From stdpp Require Import base list numbers sets.

Local Open Scope Z_scope.

Definition MCS_LOCKED : Z := 0.
Definition MCS_UNLOCKED : Z := 1.
Definition MCS_PAUSED : Z := 2.

(** CONFIG_TWANVISOR_PV_LOCK_THRESHOLD *)
Definition PV_LOCK_THRESHOLD : Z := 32768.

Inductive mcs_word : Type :=
  | Tail             (* mcslock.tail *)
  | NNext (i : nat)  (* mcsnode.next of processor i's node *)
  | NState (i : nat) (* mcsnode.state *)
  | NProc (i : nat). (* mcsnode.processor_id *)

#[export] Instance mcs_word_eq_dec : EqDecision mcs_word.
Proof. solve_decision. Defined.

Abbreviation mcs_reg := (lreg mcs_word).
Abbreviation tail := (LockReg Tail).
Abbreviation nnext i := (LockReg (NNext i)).
Abbreviation nstate i := (LockReg (NState i)).
Abbreviation nproc i := (LockReg (NProc i)).

Definition node_ptr (i : nat) : Z := Z.of_nat i + 1.
Definition ptr_node (p : Z) : nat := Z.to_nat (p - 1).

Lemma ptr_node_ptr i : ptr_node (node_ptr i) = i.
Proof. unfold ptr_node, node_ptr. lia. Qed.
Lemma node_ptr_nz i : node_ptr i ≠ 0.
Proof. unfold node_ptr. lia. Qed.
Lemma node_ptr_inj i j : node_ptr i = node_ptr j → i = j.
Proof. unfold node_ptr. lia. Qed.

Definition mcsnode_init (i : nat) (k : prog mcs_reg) : prog mcs_reg :=
  St (nnext i) 0 (St (nstate i) MCS_LOCKED k).
Definition mcslock_init (s : regs mcs_reg) : regs mcs_reg := rset s tail 0.

Definition mcs_spin (i : nat) : prog mcs_reg :=
  Until (nstate i) (fun v => v =? MCS_UNLOCKED) (fun _ => Ret 1).
Definition __mcs_lock (i : nat) : prog mcs_reg :=
  Xchg tail (node_ptr i) (fun prev =>
    if negb (prev =? 0) then St (nnext (ptr_node prev)) (node_ptr i) (mcs_spin i)
    else Ret 1).

(** Sets the successor free. *)
Definition mcs_pass (next : Z) : prog mcs_reg :=
  St (nstate (ptr_node next)) MCS_UNLOCKED (Ret 0).
(** What both unlock routines do before: find the successor, if any. *)
Definition mcs_find_next (i : nat) (pass : Z → prog mcs_reg) : prog mcs_reg :=
  Ld (nnext i) (fun next =>
    if next =? 0 then
      Cas tail (node_ptr i) 0 (fun b =>
        if b then Ret 0
        else Until (nnext i) (fun v => negb (v =? 0)) (fun next => pass next))
    else pass next).
Definition __mcs_unlock (i : nat) : prog mcs_reg := mcs_find_next i mcs_pass.

(** ** Paravirtualised routines

    [on] is twan()->flags.twanvisor_on, [o] the answers of tv_vis_vcpu_active.
    The local variable 0 is [iterations], 1 counts the calls. *)

Definition pv_spin_body (i : nat) (o : Z → bool) (processor_id : Z) : prog mcs_reg :=
  Ld (nstate i) (fun state =>
    if state =? MCS_UNLOCKED then Ret 1 else
    if processor_id <? 0 then Ret 0 else
    Ld (Local i 0) (fun iterations =>
      if negb (iterations =? PV_LOCK_THRESHOLD) then
        St (Local i 0) (iterations + 1) (Ret 0)
      else
        St (Local i 0) 0
          (Ld (Local i 1) (fun call => St (Local i 1) (call + 1)
             (if negb (o call) then
                Cas (nstate i) MCS_LOCKED MCS_PAUSED (fun b =>
                  if b then Yield (Ret 0) else Ret 0)
              else Ret 0))))).

Definition __pv_mcs_lock (on : bool) (o : Z → bool) (i : nat) : prog mcs_reg :=
  if on then
    St (nproc i) (Z.of_nat i)
      (Xchg tail (node_ptr i) (fun prev =>
         if negb (prev =? 0) then
           Ld (nproc (ptr_node prev)) (fun processor_id =>
             St (nnext (ptr_node prev)) (node_ptr i)
               (St (Local i 0) 0 (Loop (pv_spin_body i o processor_id) (Ret 1))))
         else Ret 1))
  else St (nproc i) (-1) (__mcs_lock i).

Definition pv_mcs_pass (next : Z) : prog mcs_reg :=
  Cas (nstate (ptr_node next)) MCS_LOCKED MCS_UNLOCKED (fun b =>
    if b then Ret 0
    else Ld (nproc (ptr_node next)) (fun processor_id =>
           St (nstate (ptr_node next)) MCS_UNLOCKED (Yield (Ret 0)))).
Definition __pv_mcs_unlock (on : bool) (i : nat) : prog mcs_reg :=
  if on then mcs_find_next i pv_mcs_pass else __mcs_unlock i.

Definition mcs_lock_disable_preemption (on : bool) (o : Z → bool) (i : nat) : prog mcs_reg :=
  current_task_disable_preemption i (__pv_mcs_lock on o i).
Definition mcs_unlock_enable_preemption (on : bool) (i : nat) : prog mcs_reg :=
  pbind (__pv_mcs_unlock on i) (fun v => current_task_enable_preemption i (Ret v)).
Definition mcs_lock (on : bool) (o : Z → bool) (i : nat) : prog mcs_reg :=
  mcs_lock_disable_preemption on o i.
Definition mcs_unlock (on : bool) (i : nat) : prog mcs_reg := mcs_unlock_enable_preemption on i.

Definition mcslock_isr_init (s : regs mcs_reg) : regs mcs_reg :=
  rset (mcslock_init s) LockFlags 0.

Definition __mcs_lock_isr_save (i : nat) : prog mcs_reg :=
  read_flags_and_disable_interrupts i (fun fl =>
    pbind (__mcs_lock i) (fun v => St LockFlags fl (Ret v))).
Definition __mcs_unlock_isr_restore (i : nat) (fl : Z) : prog mcs_reg :=
  pbind (__mcs_unlock i) (fun v => write_flags i fl (Ret v)).
Definition __pv_mcs_lock_isr_save (on : bool) (o : Z → bool) (i : nat) : prog mcs_reg :=
  read_flags_and_disable_interrupts i (fun fl =>
    pbind (__pv_mcs_lock on o i) (fun v => St LockFlags fl (Ret v))).
Definition __pv_mcs_unlock_isr_restore (on : bool) (i : nat) (fl : Z) : prog mcs_reg :=
  pbind (__pv_mcs_unlock on i) (fun v => write_flags i fl (Ret v)).
Definition mcs_lock_isr_save (on : bool) (o : Z → bool) (i : nat) : prog mcs_reg :=
  __pv_mcs_lock_isr_save on o i.
Definition mcs_unlock_isr_restore (on : bool) (i : nat) : prog mcs_reg :=
  Ld LockFlags (fun fl => __pv_mcs_unlock_isr_restore on i fl).

(** ** Clients *)

Inductive mcs_wrap := McRaw | McRawIsr | McPv | McPre | McIsr.
Record mcs_mode := McMode { mc_wrap : mcs_wrap; mc_on : bool; mc_answers : Z → bool }.

Definition mcs_acquire (m : mcs_mode) (i : nat) : prog mcs_reg :=
  let '(McMode w on o) := m in
  mcsnode_init i
    match w with
    | McRaw => __mcs_lock i
    | McRawIsr => __mcs_lock_isr_save i
    | McPv => __pv_mcs_lock on o i
    | McPre => mcs_lock on o i
    | McIsr => mcs_lock_isr_save on o i
    end.
Definition mcs_release (m : mcs_mode) (i : nat) : prog mcs_reg :=
  let '(McMode w on o) := m in
  match w with
  | McRaw => __mcs_unlock i
  | McRawIsr => Ld LockFlags (fun fl => __mcs_unlock_isr_restore i fl)
  | McPv => __pv_mcs_unlock on i
  | McPre => mcs_unlock on i
  | McIsr => mcs_unlock_isr_restore on i
  end.
Definition mcslock_impl : lock_impl mcs_reg mcs_mode :=
  LockImpl mcs_acquire mcs_release (mcslock_isr_init (fun _ => 0)).

(** trylock passes a NULL [expected] to the compare-exchange, which reads
    through it: the call faults before it touches the lock. *)
Definition __mcs_trylock (i : nat) : prog mcs_reg := Panic.
Definition __pv_mcs_trylock (on : bool) (i : nat) : prog mcs_reg :=
  St (nproc i) (if on then Z.of_nat i else -1) (__mcs_trylock i).
Definition mcs_trylock_disable_preemption (on : bool) (i : nat) : prog mcs_reg :=
  current_task_disable_preemption i
    (pbind (__pv_mcs_trylock on i) (fun ret =>
       if ret =? 0 then current_task_enable_preemption i (Ret ret) else Ret ret)).
Definition mcs_trylock (on : bool) (i : nat) : prog mcs_reg :=
  mcs_trylock_disable_preemption on i.
Definition __mcs_trylock_isr_save (i : nat) : prog mcs_reg :=
  read_flags_and_disable_interrupts i (fun fl =>
    pbind (__mcs_trylock i) (fun ret =>
      if negb (ret =? 0) then St LockFlags fl (Ret ret) else write_flags i fl (Ret ret))).
Definition __pv_mcs_trylock_isr_save (on : bool) (i : nat) : prog mcs_reg :=
  read_flags_and_disable_interrupts i (fun fl =>
    pbind (__pv_mcs_trylock on i) (fun ret =>
      if negb (ret =? 0) then St LockFlags fl (Ret ret) else write_flags i fl (Ret ret))).
Definition mcs_trylock_isr_save (on : bool) (i : nat) : prog mcs_reg :=
  __pv_mcs_trylock_isr_save on i.

(** ** The shapes of the routines' residual programs *)

Definition mcs_core (r : mcs_reg) : bool :=
  match r with tail | nnext _ | nstate _ => true | _ => false end.

Abbreviation quiet_mc := (quiet mcs_core).

Lemma mcs_core_weaken (r : mcs_reg) : lock_core r = false → mcs_core r = false.
Proof. by destruct r as [[]| | | | |]. Qed.

(** Spinning on the own node, plainly or in the paravirtualised loop. *)
Definition mc_wait (i : nat) (p : prog mcs_reg) : Prop :=
  (∃ k, quiet_mc holds_lock (k MCS_UNLOCKED) ∧
     p = Until (nstate i) (fun v => v =? MCS_UNLOCKED) k) ∨
  (∃ o pid k, quiet_mc holds_lock k ∧
     let body := pv_spin_body i o pid in
     let again := fun v => if v =? 0 then Loop body k else k in
     (p = Loop body k ∨ p = pbind body again ∨
      p = Cas (nstate i) MCS_LOCKED MCS_PAUSED
            (fun b => pbind (if b then Yield (Ret 0) else Ret 0) again))).

Definition mc_link (i prev : nat) (p : prog mcs_reg) : Prop :=
  ∃ w, p = St (nnext prev) (node_ptr i) w ∧ quiet_mc (mc_wait i) w.

Definition mc_start (i : nat) (p : prog mcs_reg) : Prop :=
  ∃ k, p = Xchg tail (node_ptr i) k ∧ quiet_mc holds_lock (k 0) ∧
    ∀ prev, prev ≠ 0 → quiet_mc (mc_link i (ptr_node prev)) (k prev).

Definition mc_set_free (next : Z) (p : prog mcs_reg) : Prop :=
  ∃ w, p = St (nstate (ptr_node next)) MCS_UNLOCKED w ∧ quiet_mc is_ret w.
Definition mc_pass (next : Z) (p : prog mcs_reg) : Prop :=
  mc_set_free next p ∨
  ∃ kb, p = Cas (nstate (ptr_node next)) MCS_LOCKED MCS_UNLOCKED kb ∧
    quiet_mc is_ret (kb true) ∧ quiet_mc (mc_set_free next) (kb false).
Definition mc_await (i : nat) (p : prog mcs_reg) : Prop :=
  ∃ kn, p = Until (nnext i) (fun v => negb (v =? 0)) kn ∧
    ∀ next, quiet_mc (mc_pass next) (kn next).
Definition mc_cas (i : nat) (p : prog mcs_reg) : Prop :=
  ∃ kb, p = Cas tail (node_ptr i) 0 kb ∧ quiet_mc is_ret (kb true) ∧ mc_await i (kb false).
Definition mc_rel (i : nat) (p : prog mcs_reg) : Prop :=
  ∃ k, p = Ld (nnext i) k ∧ mc_cas i (k 0) ∧
    ∀ next, next ≠ 0 → quiet_mc (mc_pass next) (k next).

Definition mc_init (i : nat) (p : prog mcs_reg) : Prop :=
  ∃ q, p = mcsnode_init i q ∧ quiet_mc (mc_start i) q.

Definition mc_post (f : Z → prog mcs_reg) : Prop := quiet_mc holds_lock (f 1).
Definition mc_end (f : Z → prog mcs_reg) : Prop := ∀ v, quiet_mc is_ret (f v).

Lemma mc_lock_start i f : mc_post f → mc_start i (pbind (__mcs_lock i) f).
Proof.
  intros Hf. eexists. split; [reflexivity|]. split; [exact Hf|]. intros prev Hp.
  rewrite (proj2 (Z.eqb_neq prev 0)) by done. simpl. apply q_now.
  eexists. split; [reflexivity|]. apply q_now. left. eexists. split; [|reflexivity]. exact Hf.
Qed.

Lemma mc_pv_lock_start on o i f :
  mc_post f → quiet_mc (mc_start i) (pbind (__pv_mcs_lock on o i) f).
Proof.
  intros Hf. destruct on; simpl; (apply q_st; [done|]); apply q_now; [|by apply mc_lock_start].
  eexists. split; [reflexivity|]. split; [exact Hf|]. intros prev Hp.
  rewrite (proj2 (Z.eqb_neq prev 0)) by done. simpl. apply q_ld. intros pid. apply q_now.
  eexists. split; [reflexivity|]. apply q_st; [done|]. apply q_now. right.
  exists o, pid, (f 1). split; [exact Hf|]. by left.
Qed.

Lemma mc_find_next_rel i f pass :
  mc_end f → (∀ next, quiet_mc (mc_pass next) (pbind (pass next) f)) →
  mc_rel i (pbind (mcs_find_next i pass) f).
Proof.
  intros Hf Hp. eexists. split; [reflexivity|]. split.
  - simpl. eexists. split; [reflexivity|]. split; [apply Hf|]. simpl.
    eexists. split; [reflexivity|]. exact Hp.
  - intros next Hn. rewrite (proj2 (Z.eqb_neq next 0)) by done. apply Hp.
Qed.

Lemma mc_unlock_rel i f : mc_end f → mc_rel i (pbind (__mcs_unlock i) f).
Proof.
  intros Hf. apply mc_find_next_rel; [done|]. intros next. apply q_now. left.
  eexists. split; [reflexivity|]. apply Hf.
Qed.

Lemma mc_pv_unlock_rel on i f : mc_end f → mc_rel i (pbind (__pv_mcs_unlock on i) f).
Proof.
  intros Hf. destruct on; [|by apply mc_unlock_rel]. apply mc_find_next_rel; [done|].
  intros next. apply q_now. right. eexists. split; [reflexivity|]. split; [apply Hf|]. simpl.
  apply q_ld. intros pid. apply q_now. eexists. split; [reflexivity|]. apply q_yield, Hf.
Qed.

Lemma mc_lock_start_raw i : mc_start i (__mcs_lock i).
Proof.
  eexists. split; [reflexivity|]. split; [apply q_now; by exists 1|]. intros prev Hp.
  rewrite (proj2 (Z.eqb_neq prev 0)) by done. apply q_now.
  eexists. split; [reflexivity|]. apply q_now. left. eexists. split; [|reflexivity].
  apply q_now. by exists 1.
Qed.

Lemma mc_pv_lock_start_raw on o i : quiet_mc (mc_start i) (__pv_mcs_lock on o i).
Proof.
  destruct on; simpl; (apply q_st; [done|]); apply q_now; [|by apply mc_lock_start_raw].
  eexists. split; [reflexivity|]. split; [apply q_now; by exists 1|]. intros prev Hp.
  rewrite (proj2 (Z.eqb_neq prev 0)) by done. simpl. apply q_ld. intros pid. apply q_now.
  eexists. split; [reflexivity|]. apply q_st; [done|]. apply q_now. right.
  exists o, pid, (Ret 1). split; [apply q_now; by exists 1|]. by left.
Qed.

Lemma mc_find_next_rel_raw i pass :
  (∀ next, quiet_mc (mc_pass next) (pass next)) → mc_rel i (mcs_find_next i pass).
Proof.
  intros Hp. assert (quiet_mc is_ret (Ret 0)) as Hr by (apply q_now; by exists 0).
  eexists. split; [reflexivity|]. split.
  - simpl. eexists. split; [reflexivity|]. split; [done|]. simpl.
    eexists. split; [reflexivity|]. exact Hp.
  - intros next Hn. rewrite (proj2 (Z.eqb_neq next 0)) by done. apply Hp.
Qed.

Lemma mc_unlock_rel_raw i : mc_rel i (__mcs_unlock i).
Proof.
  apply mc_find_next_rel_raw. intros next. apply q_now. left.
  eexists. split; [reflexivity|]. apply q_now. by exists 0.
Qed.

Lemma mc_pv_unlock_rel_raw on i : mc_rel i (__pv_mcs_unlock on i).
Proof.
  assert (quiet_mc is_ret (Ret 0)) as Hr by (apply q_now; by exists 0).
  destruct on; [|by apply mc_unlock_rel_raw]. apply mc_find_next_rel_raw.
  intros next. apply q_now. right. eexists. split; [reflexivity|]. split; [done|].
  apply q_ld. intros pid. apply q_now. eexists. split; [reflexivity|]. by apply q_yield.
Qed.

Lemma mc_acquire_init m i : mc_init i (acquire mcslock_impl m i).
Proof.
  assert (∀ fl, mc_post (fun v => St LockFlags fl (Ret v))) as Hisr.
  { intros fl. apply q_st; [done|]. apply q_now. by exists 1. }
  destruct m as [[] on o]; simpl; eexists; (split; [reflexivity|]).
  - apply q_now, mc_lock_start_raw.
  - apply q_ld. intros fl. apply q_st; [done|]. apply q_now, mc_lock_start, Hisr.
  - apply mc_pv_lock_start_raw.
  - eapply quiet_trans; [apply mcs_core_weaken|]. apply disable_preemption_quiet, q_now.
    apply mc_pv_lock_start_raw.
  - apply q_ld. intros fl. apply q_st; [done|]. apply mc_pv_lock_start, Hisr.
Qed.

Lemma mc_release_rel m i : quiet_mc (mc_rel i) (release mcslock_impl m i).
Proof.
  assert (∀ v, quiet_mc is_ret (Ret v)) as Hret by (intros v; apply q_now; by exists v).
  destruct m as [[] on o]; simpl.
  - apply q_now, mc_unlock_rel_raw.
  - apply q_ld. intros fl. apply q_now, mc_unlock_rel. intros v. by apply q_st.
  - apply q_now, mc_pv_unlock_rel_raw.
  - apply q_now, mc_pv_unlock_rel. intros v. eapply quiet_trans; [apply mcs_core_weaken|].
    apply task_enable_quiet, q_now, Hret.
  - apply q_ld. intros fl. apply q_now, mc_pv_unlock_rel. intros v. by apply q_st.
Qed.

(** ** The queue of nodes *)

Inductive mrole : Type :=
  | mOut               (* no part in the lock *)
  | mInit              (* next is reset, state not yet *)
  | mReady             (* the node is reset *)
  | mLink (prev : nat) (* at the tail, not yet linked behind prev *)
  | mSpin              (* linked, spinning on its state *)
  | mIn                (* has the lock *)
  | mCas               (* releasing, saw no successor *)
  | mAwait             (* releasing, waits for the successor to link *)
  | mPass (next : Z).  (* releasing to next *)

Definition set_mrole (ro : nat → mrole) (i : nat) (r : mrole) : nat → mrole :=
  fun j => if decide (i = j) then r else ro j.

Lemma set_mrole_eq ro i r : set_mrole ro i r i = r.
Proof. unfold set_mrole. by rewrite decide_True. Qed.
Lemma set_mrole_ne ro i j r : i ≠ j → set_mrole ro i r j = ro j.
Proof. intros. unfold set_mrole. by rewrite decide_False. Qed.

Definition mc_cl (i : nat) (r : mrole) (cl : client mcs_reg mcs_mode) : Prop :=
  match r with
  | mOut => match cl with
            | Out => True | Acq _ p => mc_init i p
            | Crit _ => False | Rel _ p => quiet_mc is_ret p end
  | mInit => ∃ m q, cl = Acq m (St (nstate i) MCS_LOCKED q) ∧ quiet_mc (mc_start i) q
  | mReady => ∃ m p, cl = Acq m p ∧ quiet_mc (mc_start i) p
  | mLink prev => ∃ m p, cl = Acq m p ∧ quiet_mc (mc_link i prev) p
  | mSpin => ∃ m p, cl = Acq m p ∧ quiet_mc (mc_wait i) p
  | mIn => match cl with
           | Out => False | Acq _ p => quiet_mc holds_lock p
           | Crit _ => True | Rel _ p => quiet_mc (mc_rel i) p end
  | mCas => ∃ m p, cl = Rel m p ∧ mc_cas i p
  | mAwait => ∃ m p, cl = Rel m p ∧ mc_await i p
  | mPass next => ∃ m p, cl = Rel m p ∧ quiet_mc (mc_pass next) p
  end.

Definition is_link (r : mrole) : bool := match r with mLink _ => true | _ => false end.

(** What the role of the node at [pos] may be, given its state word and its
    successor. *)
Definition at_head (s : regs mcs_reg) (ro : nat → mrole) (i : nat) (nx : option nat) : Prop :=
  match ro i with
  | mSpin => s (nstate i) = MCS_UNLOCKED
  | mIn | mCas => True
  | mAwait => is_Some nx
  | mPass next => ∃ j, nx = Some j ∧ next = node_ptr j ∧ is_link (ro j) = false
  | _ => False
  end.

Definition behind (s : regs mcs_reg) (ro : nat → mrole) (i prev : nat) : Prop :=
  s (nstate i) ≠ MCS_UNLOCKED ∧ (ro i = mSpin ∨ ro i = mLink prev).

Record mc_inv (n : nat) (Q : list nat) (s : regs mcs_reg) (ro : nat → mrole) : Prop := {
  mc_nodup : NoDup Q;
  mc_cpus : Forall (fun i => i < n)%nat Q;
  mc_tail : s tail = match last Q with Some i => node_ptr i | None => 0 end;
  mc_head i : Q !! 0%nat = Some i → at_head s ro i (Q !! 1%nat);
  mc_behind pos i j : Q !! pos = Some j → Q !! S pos = Some i → behind s ro i j;
  mc_next pos i : Q !! pos = Some i → s (nnext i) =
    match Q !! S pos with
    | None => 0
    | Some j => if is_link (ro j) then 0 else node_ptr j
    end;
  mc_out i : i ∉ Q →
    match ro i with
    | mOut => True
    | mInit => s (nnext i) = 0
    | mReady => s (nnext i) = 0 ∧ s (nstate i) = MCS_LOCKED
    | _ => False
    end;
}.

Lemma mc_inv_core n Q s s' ro : mc_inv n Q s ro → same_core mcs_core s s' → mc_inv n Q s' ro.
Proof.
  intros [H1 H2 H3 H4 H5 H6 H7] Hs. split; try done.
  - by rewrite Hs.
  - intros i Hi. specialize (H4 i Hi). unfold at_head in *.
    destruct (ro i); try done. by rewrite Hs.
  - intros pos i j Hj Hi. destruct (H5 pos i j Hj Hi). split; [by rewrite Hs|done].
  - intros pos i Hi. rewrite Hs by done. by apply H6.
  - intros i Hi. specialize (H7 i Hi). destruct (ro i); rewrite ?Hs; done.
Qed.

(** Outside the queue a processor may write its own node. *)
Lemma mc_set_out n Q s s' ro i r' :
  mc_inv n Q s ro → i ∉ Q →
  (∀ r, mcs_core r = true → r ≠ nnext i → r ≠ nstate i → s' r = s r) →
  match r' with
  | mOut => True
  | mInit => s' (nnext i) = 0
  | mReady => s' (nnext i) = 0 ∧ s' (nstate i) = MCS_LOCKED
  | _ => False
  end →
  mc_inv n Q s' (set_mrole ro i r').
Proof.
  intros [H1 H2 H3 H4 H5 H6 H7] Hi Hs Hr.
  assert (∀ pos j, Q !! pos = Some j → i ≠ j) as Hne.
  { intros pos j Hj ->. by apply list_elem_of_lookup_2 in Hj. }
  assert (∀ pos j, Q !! pos = Some j → s' (nstate j) = s (nstate j) ∧ s' (nnext j) = s (nnext j)) as Hsj.
  { intros pos j Hj. specialize (Hne pos j Hj). split; (apply Hs; [done|congruence|congruence]). }
  split; try done.
  - rewrite Hs by done. done.
  - intros j Hj. specialize (H4 j Hj). unfold at_head in *.
    rewrite set_mrole_ne by (by eapply Hne). destruct (ro j); try done.
    + by rewrite (proj1 (Hsj _ _ Hj)).
    + destruct H4 as (l & Hl & -> & ?). exists l. rewrite set_mrole_ne by (by eapply Hne). done.
  - intros pos j k Hk Hj. destruct (H5 pos j k Hk Hj) as [? ?]. split.
    + by rewrite (proj1 (Hsj _ _ Hj)).
    + by rewrite set_mrole_ne by (by eapply Hne).
  - intros pos j Hj. rewrite (proj2 (Hsj _ _ Hj)), (H6 pos j Hj).
    destruct (Q !! S pos) as [k|] eqn:Hk; [|done]. by rewrite set_mrole_ne by (by eapply Hne).
  - intros j Hj. destruct (decide (i = j)) as [->|]; [by rewrite set_mrole_eq|].
    rewrite set_mrole_ne by done. specialize (H7 j Hj).
    assert (s' (nnext j) = s (nnext j)) as -> by (apply Hs; [done|congruence|congruence]).
    assert (s' (nstate j) = s (nstate j)) as -> by (apply Hs; [done|congruence|congruence]). done.
Qed.

Lemma mc_enqueue n Q s ro i :
  mc_inv n Q s ro → (i < n)%nat → i ∉ Q → ro i = mReady →
  mc_inv n (Q ++ [i]) (rset s tail (node_ptr i))
    (set_mrole ro i (match last Q with None => mIn | Some j => mLink j end)).
Proof.
  intros [H1 H2 H3 H4 H5 H6 H7] Hin Hi Hr.
  assert (∀ pos j, Q !! pos = Some j → i ≠ j) as Hne.
  { intros pos j Hj ->. by apply list_elem_of_lookup_2 in Hj. }
  pose proof (H7 i Hi) as Hready. rewrite Hr in Hready. destruct Hready as [Hnx Hst].
  set (r' := match last Q with None => mIn | Some j => mLink j end).
  split.
  - apply list.NoDup_app. split; [done|]. split; [set_solver|apply NoDup_singleton].
  - apply Forall_app. auto.
  - rewrite rset_eq, last_snoc. done.
  - intros j Hj. destruct Q as [|q Q]; simpl in Hj; simplify_eq.
    + unfold at_head. rewrite set_mrole_eq. done.
    + specialize (H4 j eq_refl). unfold at_head in *. rewrite set_mrole_ne by (by apply (Hne 0%nat)).
      destruct (ro j); try done.
      * destruct Q; [by destruct H4|by eexists].
      * destruct H4 as (l & Hl & -> & ?). destruct Q as [|q' Q]; simpl in *; simplify_eq.
        exists l. split; [done|]. split; [done|]. by rewrite set_mrole_ne by (by apply (Hne 1%nat)).
  - intros pos j k Hk Hj. apply lookup_app_Some in Hj as [Hj|[Hpos Hj]].
    + rewrite lookup_app_l in Hk by (apply lookup_lt_Some in Hj; lia).
      destruct (H5 pos j k Hk Hj). split; [done|]. by rewrite set_mrole_ne by (by eapply Hne).
    + apply list_lookup_singleton_Some in Hj as [Hz <-].
      rewrite lookup_app_l in Hk by lia.
      assert (last Q = Some k) as Hlast.
      { rewrite last_lookup. by replace (pred (length Q)) with pos by lia. }
      split; [rewrite rset_ne by done; by rewrite Hst|].
      rewrite set_mrole_eq. right. unfold r'. by rewrite Hlast.
  - intros pos j Hj. apply lookup_app_Some in Hj as [Hj|[Hpos Hj]].
    + rewrite rset_ne by done. rewrite (H6 pos j Hj).
      destruct (Q !! S pos) as [k|] eqn:Hk.
      * rewrite lookup_app_l by (by eapply lookup_lt_Some). rewrite Hk.
        by rewrite set_mrole_ne by (by eapply Hne).
      * assert (S pos = length Q) as E.
        { apply lookup_lt_Some in Hj. apply lookup_ge_None in Hk. lia. }
        rewrite E, lookup_app_r, Nat.sub_diag by lia. simpl. rewrite set_mrole_eq.
        unfold r'. rewrite last_lookup. replace (pred (length Q)) with pos by lia.
        by rewrite Hj.
    + apply list_lookup_singleton_Some in Hj as [Hz <-]. rewrite rset_ne by done. rewrite Hnx.
      rewrite lookup_ge_None_2; [done|]. rewrite length_app. simpl. lia.
  - intros j Hj. rewrite set_mrole_ne by set_solver. specialize (H7 j).
    rewrite !rset_ne by done. apply H7. set_solver.
Qed.

Lemma mc_link_step n Q s ro i j pos :
  mc_inv n Q s ro → Q !! pos = Some j → Q !! S pos = Some i → ro i = mLink j →
  mc_inv n Q (rset s (nnext j) (node_ptr i)) (set_mrole ro i mSpin).
Proof.
  intros [H1 H2 H3 H4 H5 H6 H7] Hj Hi Hr.
  assert (∀ p k, Q !! p = Some k → k = j → p = pos) as Hposj.
  { intros p k Hk ->. by eapply NoDup_lookup. }
  assert (∀ p k, Q !! p = Some k → k = i → p = S pos) as Hposi.
  { intros p k Hk ->. by eapply NoDup_lookup. }
  split; try done.
  - intros k Hk. specialize (H4 k Hk). unfold at_head in *.
    assert (i ≠ k) as Hik by (intros ->; by specialize (Hposi 0%nat k Hk eq_refl)).
    rewrite set_mrole_ne by done. rewrite rset_ne by done.
    destruct (ro k); try done. destruct H4 as (l & Hl & -> & ?). exists l.
    split; [done|]. split; [done|].
    destruct (decide (i = l)) as [->|]; [by rewrite set_mrole_eq|by rewrite set_mrole_ne].
  - intros p k l Hl Hk. destruct (H5 p k l Hl Hk) as [Hst Hro]. split; [by rewrite rset_ne|].
    destruct (decide (i = k)) as [->|]; [rewrite set_mrole_eq; by left|by rewrite set_mrole_ne].
  - intros p k Hk. destruct (decide (k = j)) as [->|Hkj].
    + rewrite rset_eq. rewrite (Hposj p j Hk eq_refl), Hi, set_mrole_eq. done.
    + rewrite rset_ne by congruence. rewrite (H6 p k Hk).
      destruct (Q !! S p) as [l|] eqn:Hl; [|done].
      assert (i ≠ l) by (intros ->; specialize (Hposi _ l Hl eq_refl); simplify_eq; congruence).
      by rewrite set_mrole_ne.
  - intros k Hk. apply list_elem_of_lookup_2 in Hj, Hi. rewrite set_mrole_ne by set_solver.
    specialize (H7 k Hk). destruct (ro k); try done; rewrite !rset_ne by set_solver; done.
Qed.

(** The head changes its role, or the state word of a waiter is written. *)
Lemma mc_head_role n i Q s ro r' :
  mc_inv n (i :: Q) s ro → is_link r' = false →
  at_head s (set_mrole ro i r') i (Q !! 0%nat) → mc_inv n (i :: Q) s (set_mrole ro i r').
Proof.
  intros [H1 H2 H3 H4 H5 H6 H7] Hl Hh.
  assert (∀ pos j, (i :: Q) !! S pos = Some j → i ≠ j) as Hne.
  { intros pos j Hj ->. apply list.NoDup_cons in H1 as [Hi _].
    simpl in Hj. by apply list_elem_of_lookup_2 in Hj. }
  split; try done.
  - intros j [= <-]. done.
  - intros pos j k Hk Hj. destruct (H5 pos j k Hk Hj). split; [done|].
    by rewrite set_mrole_ne by (by eapply Hne).
  - intros pos j Hj. rewrite (H6 pos j Hj). destruct ((i :: Q) !! S pos) as [k|] eqn:Hk; [|done].
    by rewrite set_mrole_ne by (by eapply Hne).
  - intros j Hj. rewrite set_mrole_ne by set_solver. by apply H7.
Qed.

Lemma mc_pause n Q s ro i :
  mc_inv n Q s ro → ro i = mSpin → s (nstate i) = MCS_LOCKED →
  mc_inv n Q (rset s (nstate i) MCS_PAUSED) ro.
Proof.
  intros [H1 H2 H3 H4 H5 H6 H7] Hr Hs. split; try done.
  - intros j Hj. specialize (H4 j Hj). unfold at_head in *. destruct (ro j) eqn:E; try done.
    rewrite rset_ne; [done|]. intros [= ->]. by rewrite Hs in H4.
  - intros pos j k Hk Hj. destruct (H5 pos j k Hk Hj) as [Hst ?]. split; [|done].
    destruct (decide (i = j)) as [->|]; [by rewrite rset_eq|by rewrite rset_ne by congruence].
  - intros j Hj. specialize (H7 j Hj). destruct (ro j) eqn:E; try done.
    rewrite !rset_ne by congruence. done.
Qed.

Lemma mc_pop_last n i s ro :
  mc_inv n [i] s ro → mc_inv n [] (rset s tail 0) (set_mrole ro i mOut).
Proof.
  intros [H1 H2 H3 H4 H5 H6 H7]. split; try done; try constructor.
  intros j _. destruct (decide (i = j)) as [->|]; [by rewrite set_mrole_eq|].
  rewrite set_mrole_ne by done. rewrite !rset_ne by done. apply H7. set_solver.
Qed.

Lemma mc_hand_over n i j Q s ro :
  mc_inv n (i :: j :: Q) s ro → ro i = mPass (node_ptr j) →
  mc_inv n (j :: Q) (rset s (nstate j) MCS_UNLOCKED) (set_mrole ro i mOut).
Proof.
  intros [H1 H2 H3 H4 H5 H6 H7] Hr.
  apply list.NoDup_cons in H1 as [Hi H1]. apply list.Forall_cons in H2 as [_ H2].
  pose proof (H4 i eq_refl) as Hh. unfold at_head in Hh. rewrite Hr in Hh.
  destruct Hh as (j' & [= <-] & _ & Hlk).
  pose proof (H5 0%nat j i eq_refl eq_refl) as [_ [Hj|Hj]]; [|by rewrite Hj in Hlk].
  assert (∀ pos k, (j :: Q) !! pos = Some k → i ≠ k) as Hne.
  { intros pos k Hk ->. by apply list_elem_of_lookup_2 in Hk. }
  split; try done.
  - intros k [= <-]. unfold at_head. rewrite set_mrole_ne by (by apply (Hne 0%nat)).
    rewrite Hj. apply rset_eq.
  - intros pos k l Hl Hk. destruct (H5 (S pos) k l Hl Hk) as [Hst ?]. split.
    + rewrite rset_ne; [done|]. intros [= ->]. apply list.NoDup_cons in H1 as [Hjq _].
      simpl in Hk. by apply list_elem_of_lookup_2 in Hk.
    + by rewrite set_mrole_ne by (by apply (Hne (S pos))).
  - intros pos k Hk. rewrite rset_ne by done. rewrite (H6 (S pos) k Hk). simpl.
    destruct (Q !! pos) as [l|] eqn:Hl; [|done].
    by rewrite set_mrole_ne by (by apply (Hne (S pos))).
  - intros k Hk. destruct (decide (i = k)) as [->|]; [by rewrite set_mrole_eq|].
    rewrite set_mrole_ne by done.
    assert (k ∉ i :: j :: Q) as Hk' by set_solver. specialize (H7 k Hk').
    destruct (ro k); try done; rewrite !rset_ne by set_solver; done.
Qed.

(** ** Every step keeps the invariant *)

Definition mc_ok (n : nat) (s : regs mcs_reg) (t : nat → client mcs_reg mcs_mode) : Prop :=
  ∃ Q ro, mc_inv n Q s ro ∧ ∀ i, (i < n)%nat → mc_cl i (ro i) (t i).

Lemma mc_ok_role n Q s ro t i r cl :
  mc_inv n Q s (set_mrole ro i r) → (∀ j, (j < n)%nat → mc_cl j (ro j) (t j)) →
  mc_cl i r cl → mc_ok n s (upd t i cl).
Proof.
  intros H Ht Hcl. exists Q, (set_mrole ro i r). split; [done|]. intros j Hj.
  destruct (decide (i = j)) as [->|]; [by rewrite set_mrole_eq, cfg_upd_eq|].
  rewrite set_mrole_ne, cfg_upd_ne by done. by apply Ht.
Qed.

Lemma mc_ok_same n Q s ro t i cl :
  mc_inv n Q s ro → (∀ j, (j < n)%nat → mc_cl j (ro j) (t j)) →
  mc_cl i (ro i) cl → mc_ok n s (upd t i cl).
Proof.
  intros H Ht Hcl. exists Q, ro. split; [done|]. intros j Hj.
  destruct (decide (i = j)) as [->|]; [by rewrite cfg_upd_eq|].
  rewrite cfg_upd_ne by done. by apply Ht.
Qed.

(** One access of the paravirtualised loop's body, whatever follows it. *)
Lemma pv_body_step (W : prog mcs_reg → Prop) i o pid again s p' s' :
  quiet_mc W (again 0) →
  W (Cas (nstate i) MCS_LOCKED MCS_PAUSED
       (fun b => pbind (if b then Yield (Ret 0) else Ret 0) again)) →
  pexec (pbind (pv_spin_body i o pid) again) s = Some (p', s') →
  s' = s ∧ ((s (nstate i) = MCS_UNLOCKED ∧ p' = again 1) ∨ quiet_mc W p').
Proof.
  intros Hagain Hcas E. unfold pv_spin_body in E. cbn [pbind pexec] in E. simplify_eq.
  split; [done|].
  destruct (Z.eqb_spec (s' (nstate i)) MCS_UNLOCKED) as [Hs|]; [by left|]. right.
  destruct (pid <? 0); [exact Hagain|]. simpl. apply q_ld. intros it.
  destruct (negb (it =? PV_LOCK_THRESHOLD)); simpl; (apply q_st; [done|]); [exact Hagain|].
  apply q_ld. intros c. apply q_st; [done|]. destruct (negb (o c)); [|exact Hagain].
  by apply q_now.
Qed.

(** One access of a spinning program. *)
Lemma mc_wait_step i p s p' s' :
  mc_wait i p → pexec p s = Some (p', s') →
  (s' = s ∧ s (nstate i) = MCS_UNLOCKED ∧ quiet_mc holds_lock p') ∨
  (s' = s ∧ quiet_mc (mc_wait i) p') ∨
  (s' = rset s (nstate i) MCS_PAUSED ∧ s (nstate i) = MCS_LOCKED ∧ quiet_mc (mc_wait i) p').
Proof.
  intros [(k & Hk & ->)|(o & pid & k & Hk & Hp)] E.
  - simpl in E. destruct (Z.eqb_spec (s (nstate i)) MCS_UNLOCKED) as [Hs|]; simplify_eq.
    left. by rewrite Hs.
  - assert (∀ q, (let body := pv_spin_body i o pid in
       let again := fun v => if v =? 0 then Loop body k else k in
       q = Loop body k ∨ q = pbind body again ∨
       q = Cas (nstate i) MCS_LOCKED MCS_PAUSED
             (fun b => pbind (if b then Yield (Ret 0) else Ret 0) again)) → mc_wait i q) as Hw.
    { intros q Hq. right. by exists o, pid, k. }
    assert (quiet_mc (mc_wait i) (Loop (pv_spin_body i o pid) k)) as Hagain.
    { apply q_now, Hw. by left. }
    cbv zeta in Hp. destruct Hp as [-> | [-> | ->]].
    + simpl in E. simplify_eq. right. left. split; [done|]. apply q_now, Hw. right. by left.
    + apply (pv_body_step (mc_wait i)) in E as [-> [[? ->]|?]]; [by left| |done|].
      * right. by left.
      * apply Hw. by right; right.
    + simpl in E. destruct (Z.eqb_spec (s (nstate i)) MCS_LOCKED) as [Hs|]; simplify_eq; right.
      * right. split; [done|]. split; [done|]. apply q_yield. exact Hagain.
      * left. split; [done|]. exact Hagain.
Qed.

Lemma mc_link_not_ret i j v : mc_link i j (Ret v) → False.
Proof. by intros (w & ? & _). Qed.
Lemma mc_wait_not_ret i v : mc_wait i (Ret v) → False.
Proof. by intros [(k & _ & ?)|(o & pid & k & _ & [?|[?|?]])]. Qed.

Section Step.
Context (allowed : mcs_mode → bool) (n : nat) (Q : list nat) (s s' : regs mcs_reg)
  (ro : nat → mrole) (t : nat → client mcs_reg mcs_mode) (i : nat)
  (cl' : client mcs_reg mcs_mode).
Hypothesis (Hinv : mc_inv n Q s ro) (Hi : (i < n)%nat).
Hypothesis (Ht : ∀ j, (j < n)%nat → mc_cl j (ro j) (t j)).
Hypothesis (Hstep : tstep mcslock_impl allowed i (t i) s cl' s').

Lemma mc_notin : match ro i with mOut | mInit | mReady => True | _ => False end → i ∉ Q.
Proof.
  intros Hr Hq. apply list_elem_of_lookup_1 in Hq as [[|pos] Hpos].
  - pose proof (mc_head _ _ _ _ Hinv i Hpos) as Hh. unfold at_head in Hh. by destruct (ro i).
  - assert (is_Some (Q !! pos)) as [j Hj].
    { apply lookup_lt_is_Some. apply lookup_lt_Some in Hpos. lia. }
    destruct (mc_behind _ _ _ _ Hinv pos i j Hj Hpos) as [_ [E|E]]; by rewrite E in Hr.
Qed.

Lemma mc_inq : match ro i with mOut | mInit | mReady => False | _ => True end → i ∈ Q.
Proof.
  intros Hr. destruct (decide (i ∈ Q)) as [|Hn]; [done|].
  pose proof (mc_out _ _ _ _ Hinv i Hn). by destruct (ro i).
Qed.

Lemma mc_at_front :
  match ro i with mIn | mCas | mAwait | mPass _ => True | _ => False end → ∃ Q', Q = i :: Q'.
Proof.
  intros Hr. assert (i ∈ Q) as Hq by (apply mc_inq; by destruct (ro i)).
  apply list_elem_of_lookup_1 in Hq as [[|pos] Hpos].
  - destruct Q as [|q Q']; simplify_eq/=. by exists Q'.
  - assert (is_Some (Q !! pos)) as [j Hj].
    { apply lookup_lt_is_Some. apply lookup_lt_Some in Hpos. lia. }
    destruct (mc_behind _ _ _ _ Hinv pos i j Hj Hpos) as [_ [E|E]]; by rewrite E in Hr.
Qed.

Lemma mc_step_out : match ro i with mOut | mInit | mReady => True | _ => False end →
  mc_ok n s' (upd t i cl').
Proof.
  intros Hr. pose proof (mc_notin Hr) as Hq. pose proof (Ht i Hi) as Hc.
  pose proof (mc_out _ _ _ _ Hinv i Hq) as Ho. apply tstep_cases in Hstep.
  destruct (ro i) eqn:Er; try done; simpl in Hc.
  - destruct (t i) as [|m p|m|m p]; simpl in Hc, Hstep; [|destruct Hstep as [Hs|Hs]|
      done|destruct Hstep as [Hs|Hs]].
    + destruct Hstep as (-> & m & Hm & ->). eapply mc_ok_same; [done..|]. rewrite Er.
      apply mc_acquire_init.
    + destruct Hs as (p' & Hex & ->). destruct Hc as (q & -> & Hq').
      simpl in Hex. simplify_eq. eapply mc_ok_role with (r := mInit); [|done|by exists m, q].
      eapply mc_set_out; [done|done| |by rewrite rset_eq].
      intros r _ Hr1 _. by apply rset_ne.
    + destruct Hs as (-> & v & -> & ->). by destruct Hc as (q & ? & _).
    + destruct Hs as (p' & Hex & ->).
      destruct (quiet_pexec _ _ _ _ _ _ Hc Hex) as [[v ->]|[Hq' Hs]]; [done|].
      eapply mc_ok_same; [by eapply mc_inv_core|done|]. by rewrite Er.
    + destruct Hs as (-> & v & -> & ->). eapply mc_ok_same; [done|done|]. by rewrite Er.
  - destruct Hc as (m & q & Ec & Hq'). rewrite Ec in Hstep.
    destruct Hstep as [(p' & Hex & ->)|(_ & v & ? & _)]; [|done]. simpl in Hex. simplify_eq.
    eapply mc_ok_role with (r := mReady); [|done|by exists m, p'].
    eapply mc_set_out; [done|done| |by rewrite rset_eq, rset_ne].
    intros r _ _ Hr2. by apply rset_ne.
  - destruct Hc as (m & q & Ec & Hq'). rewrite Ec in Hstep.
    destruct Hstep as [(p' & Hex & ->)|(_ & v & -> & _)];
      [|apply quiet_ret in Hq' as (k & ? & _); done].
    destruct (quiet_pexec _ _ _ _ _ _ Hq' Hex) as [(k & -> & Hk0 & Hk)|[Hq2 Hs]].
    + simpl in Hex. simplify_eq. eapply mc_ok_role; [by apply mc_enqueue|done|].
      rewrite (mc_tail _ _ _ _ Hinv). destruct (last Q) as [j|]; simpl; [|done].
      exists m. eexists. split; [done|]. specialize (Hk _ (node_ptr_nz j)).
      by rewrite ptr_node_ptr in Hk.
    + eapply mc_ok_same; [by eapply mc_inv_core|done|]. rewrite Er. by exists m, p'.
Qed.

Lemma mc_step_wait : match ro i with mLink _ | mSpin => True | _ => False end →
  mc_ok n s' (upd t i cl').
Proof.
  intros Hr. pose proof (Ht i Hi) as Hc. apply tstep_cases in Hstep.
  assert (i ∈ Q) as Hq by (apply mc_inq; by destruct (ro i)).
  apply list_elem_of_lookup_1 in Hq as [pos Hpos].
  destruct (ro i) as [| | |prev| | | | |] eqn:Er; try done; destruct Hc as (m & p & Ec & Hp);
    rewrite Ec in Hstep; (destruct Hstep as [(p' & Hex & ->)|(_ & v & -> & _)];
      [|apply quiet_ret in Hp; exfalso; by (apply mc_link_not_ret in Hp || apply mc_wait_not_ret in Hp)]).
  - destruct (quiet_pexec _ _ _ _ _ _ Hp Hex) as [(w & -> & Hw)|[Hq2 Hs]].
    + simpl in Hex. simplify_eq. destruct pos as [|pos].
      { pose proof (mc_head _ _ _ _ Hinv i Hpos) as Hh. unfold at_head in Hh. by rewrite Er in Hh. }
      assert (is_Some (Q !! pos)) as [j Hj].
      { apply lookup_lt_is_Some. apply lookup_lt_Some in Hpos. lia. }
      destruct (mc_behind _ _ _ _ Hinv pos i j Hj Hpos) as [_ [E|E]]; rewrite Er in E; simplify_eq.
      eapply mc_ok_role; [by eapply mc_link_step|done|]. by exists m, p'.
    + eapply mc_ok_same; [by eapply mc_inv_core|done|]. rewrite Er. by exists m, p'.
  - destruct (quiet_pexec _ _ _ _ _ _ Hp Hex) as [Hw|[Hq2 Hs]].
    + destruct (mc_wait_step _ _ _ _ _ Hw Hex) as [(-> & Hst & Hh)|[(-> & Hw')|(-> & Hst & Hw')]].
      * destruct pos as [|pos].
        -- destruct Q as [|q Q'] eqn:EQ; simplify_eq/=. 
           eapply mc_ok_role; [apply mc_head_role with (r' := mIn); [done|done|]|done|done].
           unfold at_head. by rewrite set_mrole_eq.
        -- assert (is_Some (Q !! pos)) as [j Hj].
           { apply lookup_lt_is_Some. apply lookup_lt_Some in Hpos. lia. }
           by destruct (mc_behind _ _ _ _ Hinv pos i j Hj Hpos) as [? _].
      * eapply mc_ok_same; [done|done|]. rewrite Er. by exists m, p'.
      * eapply mc_ok_same; [by eapply mc_pause|done|]. rewrite Er. by exists m, p'.
    + eapply mc_ok_same; [by eapply mc_inv_core|done|]. rewrite Er. by exists m, p'.
Qed.

Lemma mc_step_in : ro i = mIn → mc_ok n s' (upd t i cl').
Proof.
  intros Er. pose proof (Ht i Hi) as Hc. rewrite Er in Hc. apply tstep_cases in Hstep.
  destruct mc_at_front as [Q' EQ]; [by rewrite Er|].
  assert (∀ cl, same_core mcs_core s s' → mc_cl i mIn cl → mc_ok n s' (upd t i cl)) as Hsame.
  { intros cl Hs Hcl. eapply mc_ok_same; [by eapply mc_inv_core|done|by rewrite Er]. }
  destruct (t i) as [|m p|m|m p]; simpl in Hc, Hstep; [done|destruct Hstep as [Hs|Hs]|
    |destruct Hstep as [Hs|Hs]].
  - destruct Hs as (p' & Hex & ->).
    destruct (quiet_pexec _ _ _ _ _ _ Hc Hex) as [(v & _ & ->)|[Hq2 Hs]]; [done|by apply Hsame].
  - destruct Hs as (-> & v & -> & ->). apply quiet_ret in Hc as (w & Hw & [= ->]).
    rewrite (proj2 (Z.eqb_neq w 0)) by done. by apply Hsame; [intros r ?|].
  - destruct Hstep as (-> & ->). apply Hsame; [by intros r ?|]. apply mc_release_rel.
  - destruct Hs as (p' & Hex & ->).
    destruct (quiet_pexec _ _ _ _ _ _ Hc Hex) as [(k & -> & Hk0 & Hk)|[Hq2 Hs]]; [|by apply Hsame].
    rewrite EQ in Hinv. clear Hsame EQ. simpl in Hex. simplify_eq.
    pose proof (mc_next _ _ _ _ Hinv 0%nat i eq_refl) as Hnx. simpl in Hnx.
    destruct (decide (s' (nnext i) = 0)) as [Hz|Hz].
    + rewrite Hz. eapply mc_ok_role with (r := mCas); [|done|by exists m; eauto].
      apply mc_head_role; [done|done|]. unfold at_head. by rewrite set_mrole_eq.
    + destruct (Q' !! 0%nat) as [j|] eqn:Hj; [|done].
      destruct (is_link (ro j)) eqn:Hlk; [done|].
      eapply mc_ok_role with (r := mPass (node_ptr j)); [|done|].
      * apply mc_head_role; [done|done|]. unfold at_head. rewrite set_mrole_eq.
        exists j. split; [done|]. split; [done|].
        destruct (decide (i = j)) as [<-|]; [by rewrite set_mrole_eq|by rewrite set_mrole_ne].
      * exists m. eexists. split; [done|]. rewrite <- Hnx. by apply Hk.
  - destruct Hs as (-> & v & -> & ->). apply quiet_ret in Hc as (k & ? & _). done.
Qed.

Lemma mc_step_cas : ro i = mCas → mc_ok n s' (upd t i cl').
Proof.
  intros Er. pose proof (Ht i Hi) as Hc. rewrite Er in Hc. apply tstep_cases in Hstep.
  destruct mc_at_front as [Q' EQ]; [by rewrite Er|]. rewrite EQ in Hinv.
  destruct Hc as (m & p & Ec & kb & -> & Ht' & Hf). rewrite Ec in Hstep.
  destruct Hstep as [(p' & Hex & ->)|(_ & v & ? & _)]; [|done]. simpl in Hex.
  pose proof (mc_tail _ _ _ _ Hinv) as Htl.
  destruct (Z.eqb_spec (s tail) (node_ptr i)) as [He|Hne]; simplify_eq.
  - assert (Q' = []) as ->.
    { destruct Q' as [|q Q' _] using rev_ind; [done|].
      rewrite app_comm_cons, last_snoc in Htl. rewrite Htl in He. apply node_ptr_inj in He.
      subst q. pose proof (mc_nodup _ _ _ _ Hinv) as Hnd.
      apply list.NoDup_cons in Hnd as [Hn _]. set_solver. }
    eapply mc_ok_role with (r := mOut); [by apply mc_pop_last|done|done].
  - eapply mc_ok_role with (r := mAwait); [|done|by exists m; eauto].
    apply mc_head_role; [done|done|]. unfold at_head. rewrite set_mrole_eq.
    destruct Q' as [|q Q']; [|by eexists]. by rewrite Htl in Hne.
Qed.

Lemma mc_step_await : ro i = mAwait → mc_ok n s' (upd t i cl').
Proof.
  intros Er. pose proof (Ht i Hi) as Hc. rewrite Er in Hc. apply tstep_cases in Hstep.
  destruct mc_at_front as [Q' EQ]; [by rewrite Er|]. rewrite EQ in Hinv.
  destruct Hc as (m & p & Ec & kn & -> & Hk). rewrite Ec in Hstep.
  destruct Hstep as [(p' & Hex & ->)|(_ & v & ? & _)]; [|done]. simpl in Hex.
  destruct (Z.eqb_spec (s (nnext i)) 0) as [|Hz]; simplify_eq/=.
  pose proof (mc_next _ _ _ _ Hinv 0%nat i eq_refl) as Hnx. simpl in Hnx.
  destruct (Q' !! 0%nat) as [j|] eqn:Hj; [|done].
  destruct (is_link (ro j)) eqn:Hlk; [done|].
  eapply mc_ok_role with (r := mPass (node_ptr j)); [|done|].
  - apply mc_head_role; [done|done|]. unfold at_head. rewrite set_mrole_eq.
    exists j. split; [done|]. split; [done|].
    destruct (decide (i = j)) as [<-|]; [by rewrite set_mrole_eq|by rewrite set_mrole_ne].
  - exists m. eexists. split; [done|]. rewrite <- Hnx. apply Hk.
Qed.

Lemma mc_step_pass next : ro i = mPass next → mc_ok n s' (upd t i cl').
Proof.
  intros Er. pose proof (Ht i Hi) as Hc. rewrite Er in Hc. apply tstep_cases in Hstep.
  destruct mc_at_front as [Q' EQ]; [by rewrite Er|]. rewrite EQ in Hinv.
  destruct Hc as (m & p & Ec & Hp). rewrite Ec in Hstep.
  pose proof (mc_head _ _ _ _ Hinv i eq_refl) as Hh. unfold at_head in Hh. rewrite Er in Hh.
  destruct Hh as (j & Hj & -> & Hlk). destruct Q' as [|q Q']; simplify_eq/=.
  assert (∀ p', quiet_mc is_ret p' →
    mc_ok n (rset s (nstate j) MCS_UNLOCKED) (upd t i (Rel m p'))) as Hgo.
  { intros p' Hp'. eapply mc_ok_role with (r := mOut); [by apply mc_hand_over|done|done]. }
  destruct Hstep as [(p' & Hex & ->)|(_ & v & -> & _)].
  - destruct (quiet_pexec _ _ _ _ _ _ Hp Hex) as [Hpass|[Hq2 Hs]].
    + destruct Hpass as [(w & -> & Hw)|(kb & -> & Htr & Hf)]; rewrite ptr_node_ptr in Hex; simpl in Hex.
      * simplify_eq. by apply Hgo.
      * destruct (s (nstate j) =? MCS_LOCKED); simplify_eq; [by apply Hgo|].
        eapply mc_ok_same; [done|done|]. rewrite Er. exists m. eexists. split; [done|].
        eapply quiet_mono; [|done]. intros r Hr. by left.
    + eapply mc_ok_same; [by eapply mc_inv_core|done|]. rewrite Er. by exists m, p'.
  - apply quiet_ret in Hp as [(w & ? & _)|(kb & ? & _)]; done.
Qed.

Lemma mc_step_ok : mc_ok n s' (upd t i cl').
Proof.
  destruct (ro i) eqn:E; try (apply mc_step_out; by rewrite E);
    try (apply mc_step_wait; by rewrite E);
    eauto using mc_step_in, mc_step_cas, mc_step_await, mc_step_pass.
Qed.
End Step.

Lemma mc_reach allowed n k c : reach mcslock_impl allowed n k c → mc_ok n (mem c) (thr c).
Proof.
  revert k c. apply (reach_inv _ _ _ (fun _ c => mc_ok n (mem c) (thr c))).
  - exists [], (fun _ => mOut). split; [|done]. split; try done. constructor.
  - intros k c i cl' s' (Q & ro & Hinv & Ht) Hi Hs. simpl. by eapply mc_step_ok.
Qed.

Lemma mc_ok_excl n s t i j m1 m2 :
  mc_ok n s t → (i < n)%nat → (j < n)%nat → t i = Crit m1 → t j = Crit m2 → i = j.
Proof.
  intros (Q & ro & Hinv & Ht) Hi Hj Ei Ej.
  assert (∀ x m, (x < n)%nat → t x = Crit m → ∃ Q', Q = x :: Q') as Hhd.
  { intros x m Hx Ex. pose proof (Ht x Hx) as Hc. rewrite Ex in Hc.
    eapply mc_at_front; try done. destruct (ro x); simpl in Hc; naive_solver. }
  destruct (Hhd i m1 Hi Ei) as [Q1 ->], (Hhd j m2 Hj Ej) as [Q2 [= ? _]]. done.
Qed.

Definition mcs_all (m : mcs_mode) : bool := true.

#[export] Instance mcslock_safe (max : Z) :
  LockSafe mcslock_impl mcs_all (fun _ _ => false) max.
Proof.
  split. intros n k c _ Hr i j m1 m2 Hij Hi Hj Ei Ej.
  by destruct (Hij (mc_ok_excl n _ _ i j m1 m2 (mc_reach _ _ _ _ Hr) Hi Hj Ei Ej)).
Qed.

(** C3.  Queue lock, mutual exclusion: any number of processors, each taking
    the lock through the plain, the preemption- or interrupt-disabling or the
    paravirtualised routines, whatever the hypervisor answers and whenever it
    resumes them: at most one is in its critical section. *)
Theorem mcslock_mutual_exclusion n k c :
  reach mcslock_impl mcs_all n k c → compatible n (fun _ _ => false) c.
Proof.
  intros Hr i j m1 m2 Hij Hi Hj Ei Ej.
  by destruct (Hij (mc_ok_excl n _ _ i j m1 m2 (mc_reach _ _ _ _ Hr) Hi Hj Ei Ej)).
Qed.

(** Processor 0 holds the lock; 1 waits in the paravirtualised loop. *)
Definition mcs_trace : list (nat * mcs_mode) :=
  let a := (0%nat, McMode McRaw false (fun _ => false)) in
  let b := (1%nat, McMode McPv true (fun _ => false)) in
  [a; a; a; a; a; b; b; b; b; b; b; b; b; b].

Definition mcs_trace_end :=
  schedule mcslock_impl mcs_all 2 mcs_trace (config_init mcslock_impl).

Lemma mcslock_mutual_exclusion_witness :
  match mcs_trace_end with
  | Some c => thr c 0%nat = Crit (McMode McRaw false (fun _ => false)) ∧
      mem c tail = node_ptr 1 ∧ compatible 2 (fun _ _ => false) c
  | None => False
  end.
Proof.
  destruct mcs_trace_end as [c|] eqn:E.
  - assert (match mcs_trace_end with
            | Some c => thr c 0%nat = Crit (McMode McRaw false (fun _ => false)) ∧
                mem c tail = node_ptr 1
            | None => False end) as H by (split; reflexivity).
    rewrite E in H. destruct H as [H1 H2]. split; [exact H1|]. split; [exact H2|].
    apply (mcslock_mutual_exclusion 2 14 c).
    apply (schedule_reach _ _ _ _ 0 _ _ E). constructor.
  - discriminate E.
Defined.
