(* ===== verification/Buddy.v ===== *)
(** * The buddy allocator of physical pages

    src/include/lib/buddy_alloc.h and src/src/lib/buddy_alloc.c: an arena of
    at most 32 GB made of pages of 2 MB (PMA_BASE_ORDER is PAGE_SHIFT, that is
    PAGE_SHIFT_2MB), a bitmap with a bit per block of each of the 15 orders that
    says whether the block is free, and a bitmap with a bit per order that says
    whether any block of the order is.  An array of bytes is a length and a map
    of its bytes, where a byte with no entry is zero; an access past its end is
    a fault.

    A block of order k is the pair of k and its index; it is proved that the
    set of free blocks represents the set of free pages in its only coarsest
    way, that an allocation takes the pages of one free block of the requested
    order and fails only if there is none, and that freeing gives the pages
    back. *)

From Stdlib Require Import ZArith Lia Bool.
From stdpp Require Import base gmap sets list numbers option.
From S2P Require Import Prelude Std.
Local Open Scope Z_scope.
Local Open Scope twan_scope.

Definition PMA_BASE_ORDER : Z := PAGE_SHIFT.
Definition PMA_NULL : Z := 0.

Definition BUDDY_BASE_ORDER : Z := PMA_BASE_ORDER.
Definition BUDDY_MAX_ORDER : Z := 35.
Definition BUDDY_NUM_ORDERS : Z := BUDDY_MAX_ORDER - BUDDY_BASE_ORDER + 1.
Definition BUDDY_ORDER_BITMAP_SIZE : Z := (BUDDY_NUM_ORDERS + 7) / 8.
Definition BUDDY_MIN_ARENA_SIZE : Z := 2 ^ BUDDY_BASE_ORDER.
Definition BUDDY_MAX_ARENA_SIZE : Z := 2 ^ BUDDY_MAX_ORDER.
Definition BUDDY_MAX_BLOCKS : Z := BUDDY_MAX_ARENA_SIZE / BUDDY_MIN_ARENA_SIZE.
Definition BUDDY_BLOCK_BITMAP_SIZE : Z := (BUDDY_MAX_BLOCKS * 2 + 7) / 8.

(** ** Arrays of bytes *)

Record bitmap : Type := Bitmap { bm_size : Z; bm_bytes : gmap Z Z }.

Definition bm_byte (bm : bitmap) (i : Z) : Z := default 0 (bm_bytes bm !! i).
Definition bm_store (bm : bitmap) (i v : Z) : bitmap :=
  Bitmap (bm_size bm) (<[i := u8 v]> (bm_bytes bm)).
Definition bm_zero (size : Z) : bitmap := Bitmap size ∅.

Definition bm_at (bm : bitmap) (bit : Z) : res Z :=
  if (0 <=? bit) && (bit / 8 <? bm_size bm) then Ok (bm_byte bm (bit / 8))
  else Fault FBounds.

Definition __buddy_bitmap_test (bm : bitmap) (bit : Z) : res bool :=
  let* b := bm_at bm bit in
  Ok (negb (Z.land b (Z.shiftl 1 (bit mod 8)) =? 0)).
Definition __buddy_bitmap_set (bm : bitmap) (bit : Z) : res bitmap :=
  let* b := bm_at bm bit in
  Ok (bm_store bm (bit / 8) (Z.lor b (Z.shiftl 1 (bit mod 8)))).
Definition __buddy_bitmap_clear (bm : bitmap) (bit : Z) : res bitmap :=
  let* b := bm_at bm bit in
  Ok (bm_store bm (bit / 8) (Z.land b (cnot 64 (Z.shiftl 1 (bit mod 8))))).
Definition __buddy_bitmap_flip (bm : bitmap) (bit : Z) : res bitmap :=
  let* b := bm_at bm bit in
  Ok (bm_store bm (bit / 8) (Z.lxor b (Z.shiftl 1 (bit mod 8)))).

(** ** The arena *)

Record buddy_arena : Type := BuddyArena {
  base_addr : Z;
  order_bitmap : bitmap;
  block_bitmap : bitmap }.

Definition on_orders (f : bitmap → res bitmap) : M buddy_arena unit := fun a =>
  let* bm := f (order_bitmap a) in
  Ok (tt, BuddyArena (base_addr a) bm (block_bitmap a)).
Definition on_blocks (f : bitmap → res bitmap) : M buddy_arena unit := fun a =>
  let* bm := f (block_bitmap a) in
  Ok (tt, BuddyArena (base_addr a) (order_bitmap a) bm).

(** The order of a request for pages: the size is doubled until it is enough;
    a 32-bit number of pages takes at most 32 steps. *)
Fixpoint get_order_loop (fuel : nat) (num_pages size order : Z) : res Z :=
  match fuel with
  | O => Fault FFuel
  | S fuel =>
      if size <? num_pages
      then get_order_loop fuel num_pages (u64 (Z.shiftl size 1)) (u32 (order + 1))
      else Ok order
  end.
Definition __buddy_get_order (num_pages : Z) : res Z :=
  get_order_loop 33 num_pages 1 0.

Definition __buddy_is_order_free (order : Z) : M buddy_arena bool := fun a =>
  let* b := __buddy_bitmap_test (order_bitmap a) order in Ok (b, a).
Definition __buddy_order_set_free (order : Z) : M buddy_arena unit :=
  on_orders (fun bm => __buddy_bitmap_set bm order).
Definition __buddy_order_clear (order : Z) : M buddy_arena unit :=
  on_orders (fun bm => __buddy_bitmap_clear bm order).
Definition __buddy_order_flip (order : Z) : M buddy_arena unit :=
  on_orders (fun bm => __buddy_bitmap_flip bm order).

Definition buddy_order_num_blocks (order : Z) : Z :=
  Z.shiftr BUDDY_MAX_BLOCKS order.
Definition __buddy_block_bitmap_bit (order block_idx : Z) : Z :=
  let tree_order := u32 (BUDDY_NUM_ORDERS - 1 - order) in
  u64 (u64 (Z.shiftl 1 tree_order) - 1 + block_idx).

Definition __buddy_is_block_free (order block_idx : Z) : M buddy_arena bool :=
  fun a =>
    let* b := __buddy_bitmap_test (block_bitmap a)
                (__buddy_block_bitmap_bit order block_idx) in
    Ok (b, a).
Definition __buddy_block_set_free (order block_idx : Z) : M buddy_arena unit :=
  on_blocks (fun bm =>
    __buddy_bitmap_set bm (__buddy_block_bitmap_bit order block_idx)).
Definition __buddy_block_clear (order block_idx : Z) : M buddy_arena unit :=
  on_blocks (fun bm =>
    __buddy_bitmap_clear bm (__buddy_block_bitmap_bit order block_idx)).
Definition __buddy_block_flip (order block_idx : Z) : M buddy_arena unit :=
  on_blocks (fun bm =>
    __buddy_bitmap_flip bm (__buddy_block_bitmap_bit order block_idx)).

Definition buddy_addr_to_block_idx (a : buddy_arena) (addr order : Z) : Z :=
  Z.shiftr (u64 (addr - base_addr a)) (order + PMA_BASE_ORDER).
Definition buddy_block_idx_to_addr (a : buddy_arena) (block_idx order : Z) : Z :=
  u64 (base_addr a + u64 (Z.shiftl block_idx (order + PMA_BASE_ORDER))).
Definition buddy_get_idx (block_idx : Z) : Z := Z.lxor block_idx 1.
Definition buddy_get_parent_idx (block_idx : Z) : Z := Z.shiftr block_idx 1.

Fixpoint find_block_loop (fuel : nat) (order i num_blocks : Z)
    : M buddy_arena Z :=
  match fuel with
  | O => mfault FFuel
  | S fuel =>
      if i <? num_blocks then
        b <~ __buddy_is_block_free order i ;;
        if b : bool then ret i
        else find_block_loop fuel order (u32 (i + 1)) num_blocks
      else ret (-1)
  end.
Definition __buddy_find_block_at_order (order : Z) : M buddy_arena Z :=
  b <~ __buddy_is_order_free order ;;
  if negb b then ret (-1)
  else
    let num_blocks := buddy_order_num_blocks order in
    find_block_loop (S (Z.to_nat num_blocks)) order 0 num_blocks.

Definition __buddy_update_order_bitmap (order : Z) : M buddy_arena unit :=
  block <~ __buddy_find_block_at_order order ;;
  if block <? 0 then __buddy_order_clear order
  else __buddy_order_set_free order.

Fixpoint can_alloc_loop (fuel : nat) (i : Z) : M buddy_arena bool :=
  match fuel with
  | O => mfault FFuel
  | S fuel =>
      if i <? BUDDY_NUM_ORDERS then
        b <~ __buddy_is_order_free i ;;
        if b : bool then ret true else can_alloc_loop fuel (u32 (i + 1))
      else ret false
  end.
Definition __buddy_order_can_alloc (order : Z) : M buddy_arena bool :=
  if BUDDY_NUM_ORDERS <=? order then ret false
  else can_alloc_loop (S (Z.to_nat BUDDY_NUM_ORDERS)) order.

(** ** buddy_alloc.c *)

Definition buddy_arena_init (base size : Z) : M buddy_arena Z := fun a =>
  if base =? PMA_NULL then Ok (- EINVAL, a)
  else
    let aligned_addr := p2align_up base BUDDY_MIN_ARENA_SIZE in
    if (aligned_addr <? base) || (aligned_addr =? PMA_NULL)
    then Ok (- EINVAL, a)
    else
      let cutoff := u64 (aligned_addr - base) in
      if size <? cutoff then Ok (- EINVAL, a)
      else
        let size := p2align_down (u64 (size - cutoff)) BUDDY_MIN_ARENA_SIZE in
        if size <? BUDDY_MIN_ARENA_SIZE then Ok (- EINVAL, a)
        else
          let size := if BUDDY_MAX_ARENA_SIZE <? size
                      then BUDDY_MAX_ARENA_SIZE else size in
          let a := BuddyArena aligned_addr (bm_zero BUDDY_ORDER_BITMAP_SIZE)
                     (bm_zero BUDDY_BLOCK_BITMAP_SIZE) in
          let* lg := log2 size in
          let order := u32 (lg - BUDDY_BASE_ORDER) in
          (__buddy_order_set_free order ;;;
           __buddy_block_set_free order 0 ;;;
           ret 0) a.

(** The first loop of an allocation: the order and index of the block to take,
    with the index negative if there is none. *)
Fixpoint find_order_loop (fuel : nat) (alloc_order : Z)
    : M buddy_arena (Z * Z) :=
  match fuel with
  | O => mfault FFuel
  | S fuel =>
      if alloc_order <=? BUDDY_NUM_ORDERS - 1 then
        f <~ __buddy_is_order_free alloc_order ;;
        if f : bool then
          block_idx <~ __buddy_find_block_at_order alloc_order ;;
          if 0 <=? block_idx then ret (alloc_order, block_idx)
          else
            __buddy_update_order_bitmap alloc_order ;;;
            find_order_loop fuel (u32 (alloc_order + 1))
        else find_order_loop fuel (u32 (alloc_order + 1))
      else ret (alloc_order, -1)
  end.

(** The second loop: halves the block until it has the requested order. *)
Fixpoint split_loop (fuel : nat) (order alloc_order block_idx : Z)
    : M buddy_arena Z :=
  match fuel with
  | O => mfault FFuel
  | S fuel =>
      if order <? alloc_order then
        let alloc_order := alloc_order - 1 in
        let left := u64 (Z.shiftl block_idx 1) in
        let right := Z.lor left 1 in
        __buddy_block_clear alloc_order left ;;;
        __buddy_block_set_free alloc_order right ;;;
        __buddy_order_set_free alloc_order ;;;
        split_loop fuel order alloc_order left
      else ret block_idx
  end.

Definition __buddy_alloc (order : Z) : M buddy_arena Z :=
  if BUDDY_NUM_ORDERS <=? order then ret PMA_NULL
  else
    found <~ find_order_loop (S (Z.to_nat BUDDY_NUM_ORDERS)) order ;;
    let '(alloc_order, block_idx) := found in
    if block_idx <? 0 then ret PMA_NULL
    else
      __buddy_block_clear alloc_order block_idx ;;;
      __buddy_update_order_bitmap alloc_order ;;;
      block_idx <~ split_loop (S (Z.to_nat BUDDY_NUM_ORDERS)) order
                     alloc_order block_idx ;;
      a <~ mget ;;
      ret (buddy_block_idx_to_addr a block_idx order).

(** The loop of a free: joins the block with its buddy while that is free, and
    gives the order and index of the result. *)
Fixpoint merge_loop (fuel : nat) (current_order block_idx : Z)
    : M buddy_arena (Z * Z) :=
  match fuel with
  | O => mfault FFuel
  | S fuel =>
      if current_order <? BUDDY_NUM_ORDERS - 1 then
        let num_blocks := buddy_order_num_blocks current_order in
        let buddy_idx := buddy_get_idx block_idx in
        if num_blocks <=? buddy_idx then ret (current_order, block_idx)
        else
          f <~ __buddy_is_block_free current_order buddy_idx ;;
          if negb f then ret (current_order, block_idx)
          else
            __buddy_block_clear current_order block_idx ;;;
            __buddy_block_clear current_order buddy_idx ;;;
            __buddy_update_order_bitmap current_order ;;;
            merge_loop fuel (u32 (current_order + 1))
              (buddy_get_parent_idx block_idx)
      else ret (current_order, block_idx)
  end.

Definition __buddy_free (addr order : Z) : M buddy_arena unit :=
  if (addr =? PMA_NULL) || (BUDDY_NUM_ORDERS <=? order) then ret tt
  else
    a <~ mget ;;
    let block_idx := buddy_addr_to_block_idx a addr order in
    r <~ merge_loop (S (Z.to_nat BUDDY_NUM_ORDERS)) order block_idx ;;
    let '(current_order, block_idx) := r in
    __buddy_block_set_free current_order block_idx ;;;
    __buddy_order_set_free current_order.

(** ** Bits of the arrays *)

Definition bm_bit (bm : bitmap) (n : Z) : bool :=
  Z.testbit (bm_byte bm (n / 8)) (n mod 8).
Definition bm_wf (bm : bitmap) : Prop := ∀ i, 0 <= bm_byte bm i < 2 ^ 8.

Lemma bm_at_in bm n : 0 <= n < 8 * bm_size bm → bm_at bm n = Ok (bm_byte bm (n / 8)).
Proof.
  intros Hn. unfold bm_at.
  assert (n / 8 < bm_size bm) by (apply Z.div_lt_upper_bound; lia).
  by rewrite (proj2 (Z.leb_le 0 n)), (proj2 (Z.ltb_lt _ _)) by lia.
Qed.

Lemma bm_test_run bm n :
  0 <= n < 8 * bm_size bm → __buddy_bitmap_test bm n = Ok (bm_bit bm n).
Proof.
  intros Hn. unfold __buddy_bitmap_test. rewrite bm_at_in by done. simpl. f_equal.
  pose proof (Z.mod_pos_bound n 8). unfold bm_bit. rewrite shiftl_1 by lia.
  destruct (Z.eqb_spec (Z.land (bm_byte bm (n / 8)) (2 ^ (n mod 8))) 0) as [E|E]; simpl.
  - apply (f_equal (fun z => Z.testbit z (n mod 8))) in E.
    rewrite Z.land_spec, testbit_pow2, bool_decide_true, andb_true_r, Z.bits_0 in E
      by lia. done.
  - destruct (Z.testbit (bm_byte bm (n / 8)) (n mod 8)) eqn:Eb; [done|].
    destruct E. apply Z.bits_inj'. intros i Hi.
    rewrite Z.land_spec, testbit_pow2, Z.bits_0 by lia.
    case_bool_decide; subst; [by rewrite Eb|by rewrite andb_false_r].
Qed.

Lemma bm_byte_store bm i v j :
  bm_byte (bm_store bm i v) j = if decide (i = j) then u8 v else bm_byte bm j.
Proof.
  unfold bm_byte, bm_store. simpl. destruct (decide (i = j)) as [->|].
  - by rewrite lookup_insert_eq.
  - by rewrite lookup_insert_ne.
Qed.

(** Storing a byte that differs from the old one in one bit changes that bit of
    the array and no other. *)
Lemma bm_store_spec bm n v b :
  bm_wf bm → 0 <= n →
  (∀ j, 0 <= j < 8 → Z.testbit v j =
     if decide (j = n mod 8) then b else Z.testbit (bm_byte bm (n / 8)) j) →
  bm_wf (bm_store bm (n / 8) v) ∧
  ∀ m, 0 <= m → bm_bit (bm_store bm (n / 8) v) m
                = if decide (m = n) then b else bm_bit bm m.
Proof.
  intros Hwf Hn Hv. split.
  - intros i. rewrite bm_byte_store. case_decide; [by apply wrap_range|apply Hwf].
  - intros m Hm. unfold bm_bit. rewrite bm_byte_store.
    pose proof (Z.mod_pos_bound m 8). pose proof (Z.mod_pos_bound n 8).
    pose proof (Z.div_mod m 8). pose proof (Z.div_mod n 8).
    destruct (decide (n / 8 = m / 8)) as [E|E].
    + unfold u8. rewrite wrap_bit, (proj2 (Z.ltb_lt _ _)) by lia. simpl.
      rewrite Hv by lia. rewrite E.
      destruct (decide (m mod 8 = n mod 8)), (decide (m = n)); try done;
        exfalso; subst; try congruence; lia.
    + rewrite decide_False; [done|]. intros ->. done.
Qed.

Lemma bm_set_run bm n :
  bm_wf bm → 0 <= n < 8 * bm_size bm → ∃ bm',
  __buddy_bitmap_set bm n = Ok bm' ∧ bm_wf bm' ∧ bm_size bm' = bm_size bm ∧
  ∀ m, 0 <= m → bm_bit bm' m = if decide (m = n) then true else bm_bit bm m.
Proof.
  intros Hwf Hn. unfold __buddy_bitmap_set. rewrite bm_at_in by done. simpl.
  eexists. split; [done|]. pose proof (Z.mod_pos_bound n 8).
  destruct (bm_store_spec bm n
    (Z.lor (bm_byte bm (n / 8)) (Z.shiftl 1 (n mod 8))) true) as [? ?];
    [done|lia| |done].
  intros j Hj. rewrite shiftl_1, Z.lor_spec, testbit_pow2 by lia.
  case_bool_decide; case_decide; try lia;
    by rewrite ?orb_true_r, ?orb_false_r.
Qed.

Lemma bm_clear_run bm n :
  bm_wf bm → 0 <= n < 8 * bm_size bm → ∃ bm',
  __buddy_bitmap_clear bm n = Ok bm' ∧ bm_wf bm' ∧ bm_size bm' = bm_size bm ∧
  ∀ m, 0 <= m → bm_bit bm' m = if decide (m = n) then false else bm_bit bm m.
Proof.
  intros Hwf Hn. unfold __buddy_bitmap_clear. rewrite bm_at_in by done. simpl.
  eexists. split; [done|]. pose proof (Z.mod_pos_bound n 8).
  destruct (bm_store_spec bm n
    (Z.land (bm_byte bm (n / 8)) (cnot 64 (Z.shiftl 1 (n mod 8)))) false) as [? ?];
    [done|lia| |done].
  intros j Hj. rewrite shiftl_1, Z.land_spec, cnot_bit, testbit_pow2 by lia.
  case_bool_decide; case_decide; try lia;
    by rewrite ?andb_false_r, ?andb_true_r.
Qed.

(** ** Blocks *)

(** The pages of the block of order [k] with index [i] are those from
    [i * 2^k] up to [(i+1) * 2^k]. *)
Definition in_block (p : Z) (b : Z * Z) : Prop := p / 2 ^ b.1 = b.2.
Definition valid (b : Z * Z) : Prop := 0 <= b.1 <= 14 ∧ 0 <= b.2 < 2 ^ (14 - b.1).

#[export] Instance in_block_dec p b : Decision (in_block p b).
Proof. unfold in_block. apply _. Defined.

Definition tree_bit (b : Z * Z) : Z := 2 ^ (14 - b.1) - 1 + b.2.

Lemma in_block_range p k i :
  0 <= k → in_block p (k, i) ↔ i * 2 ^ k <= p < (i + 1) * 2 ^ k.
Proof.
  intros Hk. unfold in_block. simpl. assert (0 < 2 ^ k) by (apply Z.pow_pos_nonneg; lia).
  pose proof (Z.div_mod p (2 ^ k)). pose proof (Z.mod_pos_bound p (2 ^ k)).
  split; intros; [subst i; nia|]. symmetry. apply (Z.div_unique p _ _ (p - i * 2 ^ k)); nia.
Qed.

Lemma tree_bit_range b : valid b → 0 <= tree_bit b < 2 ^ 15 - 1.
Proof.
  intros [Hk Hi]. unfold tree_bit. assert (0 < 2 ^ (14 - b.1)) by (apply Z.pow_pos_nonneg; lia).
  assert (2 ^ (15 - b.1) <= 2 ^ 15) by (apply Z.pow_le_mono_r; lia).
  assert (2 ^ (15 - b.1) = 2 * 2 ^ (14 - b.1)) as E.
  { rewrite <- Z.pow_succ_r by lia. f_equal. lia. }
  lia.
Qed.

Lemma tree_bit_inj b c : valid b → valid c → tree_bit b = tree_bit c → b = c.
Proof.
  assert (∀ k i k' i', valid (k, i) → valid (k', i') → k < k' →
    tree_bit (k, i) ≠ tree_bit (k', i')) as H.
  { unfold valid, tree_bit. simpl. intros k i k' i' Hb Hc Hlt E.
    assert (2 ^ (15 - k') <= 2 ^ (14 - k)) by (apply Z.pow_le_mono_r; lia).
    assert (2 ^ (15 - k') = 2 * 2 ^ (14 - k')) as E'; [|lia].
    rewrite <- Z.pow_succ_r by lia. f_equal. lia. }
  destruct b as [k i], c as [k' i']. intros Hb Hc E.
  destruct (Z.lt_trichotomy k k') as [Hlt|[->|Hlt]].
  - by destruct (H k i k' i').
  - f_equal. unfold tree_bit in E. simpl in E. lia.
  - by destruct (H k' i' k i).
Qed.

Lemma block_bit_tree k i :
  valid (k, i) → __buddy_block_bitmap_bit k i = tree_bit (k, i).
Proof.
  intros Hv. pose proof (tree_bit_range _ Hv) as Hr. revert Hr.
  destruct Hv as [Hk Hi]. unfold __buddy_block_bitmap_bit, tree_bit. simpl in *.
  change (BUDDY_NUM_ORDERS - 1) with 14. intros Hr.
  assert (0 < 2 ^ (14 - k) <= 2 ^ 14) as [? ?].
  { split; [apply Z.pow_pos_nonneg; lia|apply Z.pow_le_mono_r; lia]. }
  unfold u64, u32. rewrite (wrap_small 32) by lia. rewrite shiftl_1 by lia.
  change (2 ^ 14) with 16384 in *. change (2 ^ 15) with 32768 in *.
  rewrite (wrap_small 64 (2 ^ (14 - k))) by lia. apply wrap_small. lia.
Qed.

Lemma num_blocks_val k : 0 <= k <= 14 → buddy_order_num_blocks k = 2 ^ (14 - k).
Proof.
  intros Hk. unfold buddy_order_num_blocks. change BUDDY_MAX_BLOCKS with (2 ^ 14).
  rewrite Z.shiftr_div_pow2 by lia. symmetry. apply Z.pow_sub_r; lia.
Qed.

(** ** The arena as two sets

    [rep base X O a]: the arena [a] starts at [base], its free blocks are [X]
    and the orders it marks as having one are [O]. *)
Record rep (base : Z) (X : gset (Z * Z)) (O : gset Z) (a : buddy_arena) : Prop := {
  rep_base : base_addr a = base;
  rep_wf : bm_wf (order_bitmap a) ∧ bm_wf (block_bitmap a);
  rep_size : bm_size (order_bitmap a) = BUDDY_ORDER_BITMAP_SIZE ∧
             bm_size (block_bitmap a) = BUDDY_BLOCK_BITMAP_SIZE;
  rep_valid : ∀ b, b ∈ X → valid b;
  rep_range : ∀ k, k ∈ O → 0 <= k <= 14;
  rep_free : ∀ b, valid b → bm_bit (block_bitmap a) (tree_bit b) = bool_decide (b ∈ X);
  rep_ord : ∀ k, 0 <= k <= 14 → bm_bit (order_bitmap a) k = bool_decide (k ∈ O) }.

(** Runs one more step of a computation by a lemma on its first part. *)
Ltac wstep H := apply wp_bind; eapply wp_mono; [eapply H|].

Section Rep.
Context (base : Z) (X : gset (Z * Z)) (O : gset Z) (a : buddy_arena).
Context (HR : rep base X O a).

Lemma order_in k : 0 <= k <= 14 → 0 <= k < 8 * bm_size (order_bitmap a).
Proof. destruct (rep_size _ _ _ _ HR) as [-> _]. change BUDDY_ORDER_BITMAP_SIZE with 2. lia. Qed.

Lemma block_in b : valid b → 0 <= tree_bit b < 8 * bm_size (block_bitmap a).
Proof.
  intros Hv. destruct (rep_size _ _ _ _ HR) as [_ ->].
  pose proof (tree_bit_range _ Hv). change (8 * BUDDY_BLOCK_BITMAP_SIZE) with (2 ^ 15). lia.
Qed.

Lemma is_order_free_ok k :
  0 <= k <= 14 →
  wp (__buddy_is_order_free k) (λ b a', a' = a ∧ b = bool_decide (k ∈ O)) a.
Proof.
  intros Hk. unfold wp, __buddy_is_order_free.
  rewrite bm_test_run by (by apply order_in). simpl. split; [done|].
  by apply (rep_ord _ _ _ _ HR).
Qed.

Lemma is_block_free_ok k i :
  valid (k, i) →
  wp (__buddy_is_block_free k i) (λ b a', a' = a ∧ b = bool_decide ((k, i) ∈ X)) a.
Proof.
  intros Hv. unfold wp, __buddy_is_block_free. rewrite block_bit_tree by done.
  rewrite bm_test_run by (by apply block_in). simpl. split; [done|].
  by apply (rep_free _ _ _ _ HR).
Qed.

Lemma order_set_free_ok k :
  0 <= k <= 14 →
  wp (__buddy_order_set_free k) (λ _, rep base X (O ∪ {[k]})) a.
Proof.
  intros Hk. unfold wp, __buddy_order_set_free, on_orders.
  destruct (bm_set_run (order_bitmap a) k) as (bm & -> & Hwf & Hsz & Hbit);
    [apply HR|by apply order_in|].
  simpl. destruct HR as [? [??] [??] ?? Hfree Hord]. split; simpl; try done.
  - by rewrite Hsz.
  - intros j Hj. set_solver.
  - intros j Hj. rewrite Hbit by lia. case_decide as E.
    + symmetry. apply bool_decide_eq_true. set_solver.
    + rewrite Hord by done. apply bool_decide_ext. set_solver.
Qed.

Lemma order_clear_ok k :
  0 <= k <= 14 →
  wp (__buddy_order_clear k) (λ _, rep base X (O ∖ {[k]})) a.
Proof.
  intros Hk. unfold wp, __buddy_order_clear, on_orders.
  destruct (bm_clear_run (order_bitmap a) k) as (bm & -> & Hwf & Hsz & Hbit);
    [apply HR|by apply order_in|].
  simpl. destruct HR as [? [??] [??] ?? Hfree Hord]. split; simpl; try done.
  - by rewrite Hsz.
  - intros j Hj. set_solver.
  - intros j Hj. rewrite Hbit by lia. case_decide as E.
    + symmetry. apply bool_decide_eq_false. set_solver.
    + rewrite Hord by done. apply bool_decide_ext. set_solver.
Qed.

Lemma block_set_free_ok k i :
  valid (k, i) →
  wp (__buddy_block_set_free k i) (λ _, rep base (X ∪ {[(k, i)]}) O) a.
Proof.
  intros Hv. unfold wp, __buddy_block_set_free, on_blocks.
  rewrite block_bit_tree by done. pose proof (block_in _ Hv).
  destruct (bm_set_run (block_bitmap a) (tree_bit (k, i)))
    as (bm & -> & Hwf & Hsz & Hbit); [apply HR|done|].
  simpl. destruct HR as [? [??] [??] ?? Hfree Hord]. split; simpl; try done.
  - by rewrite Hsz.
  - intros b Hb. set_solver.
  - intros b Hb. pose proof (tree_bit_range _ Hb). rewrite Hbit by lia.
    case_decide as E.
    + apply tree_bit_inj in E; [|done..]. symmetry. apply bool_decide_eq_true. set_solver.
    + rewrite Hfree by done. apply bool_decide_ext.
      assert (b ≠ (k, i)) by (by intros ->). set_solver.
Qed.

Lemma block_clear_ok k i :
  valid (k, i) →
  wp (__buddy_block_clear k i) (λ _, rep base (X ∖ {[(k, i)]}) O) a.
Proof.
  intros Hv. unfold wp, __buddy_block_clear, on_blocks.
  rewrite block_bit_tree by done. pose proof (block_in _ Hv).
  destruct (bm_clear_run (block_bitmap a) (tree_bit (k, i)))
    as (bm & -> & Hwf & Hsz & Hbit); [apply HR|done|].
  simpl. destruct HR as [? [??] [??] ?? Hfree Hord]. split; simpl; try done.
  - by rewrite Hsz.
  - intros b Hb. set_solver.
  - intros b Hb. pose proof (tree_bit_range _ Hb). rewrite Hbit by lia.
    case_decide as E.
    + apply tree_bit_inj in E; [|done..]. symmetry. apply bool_decide_eq_false. set_solver.
    + rewrite Hfree by done. apply bool_decide_ext.
      assert (b ≠ (k, i)) by (by intros ->). set_solver.
Qed.

(** The scan of an order finds its first free block. *)
Lemma find_block_loop_ok fuel k i n :
  0 <= k <= 14 → 0 <= i <= n → n = 2 ^ (14 - k) → n - i < Z.of_nat fuel →
  wp (find_block_loop fuel k i n) (λ r a', a' = a ∧
    ((r = -1 ∧ ∀ j, i <= j → (k, j) ∉ X) ∨ (i <= r ∧ (k, r) ∈ X))) a.
Proof.
  intros Hk Hi Hn. revert i Hi. induction fuel as [|fuel IH]; intros i Hi Hf; [lia|].
  simpl. assert (n <= 2 ^ 14) by (subst; apply Z.pow_le_mono_r; lia).
  change (2 ^ 14) with 16384 in *. destruct (Z.ltb_spec i n) as [Hlt|Hge].
  - wstep is_block_free_ok; [split; simpl; lia|]. intros b ? [-> ->].
    case_bool_decide as E.
    + apply wp_ret. split; [done|]. right. split; [lia|done].
    + unfold u32. rewrite wrap_small by lia.
      eapply wp_mono; [apply IH; lia|]. simpl. intros r ? [-> [[-> Hno]|[Hr Hin]]];
        (split; [done|]).
      * left. split; [done|]. intros j Hj.
        destruct (decide (j = i)) as [->|]; [done|]. apply Hno. lia.
      * right. split; [lia|done].
  - apply wp_ret. split; [done|]. left. split; [done|]. intros j Hj Hin.
    apply (rep_valid _ _ _ _ HR) in Hin as [_ Hr]. simpl in Hr. lia.
Qed.

Lemma find_block_ok k :
  0 <= k <= 14 →
  wp (__buddy_find_block_at_order k) (λ r a', a' = a ∧
    ((r = -1 ∧ (k ∈ O → ∀ j, (k, j) ∉ X)) ∨ (0 <= r ∧ k ∈ O ∧ (k, r) ∈ X))) a.
Proof.
  intros Hk. unfold __buddy_find_block_at_order.
  wstep is_order_free_ok; [done|]. intros b ? [-> ->].
  case_bool_decide as E; cbn [negb]; [|apply wp_ret; naive_solver].
  rewrite num_blocks_val by done.
  assert (0 < 2 ^ (14 - k)) by (apply Z.pow_pos_nonneg; lia).
  eapply wp_mono; [apply find_block_loop_ok; lia|].
  simpl. intros r ? [-> [[-> Hno]|[? ?]]]; (split; [done|]); [left|right; done].
  split; [done|]. intros _ j Hin. apply (Hno j); [|done].
  by apply (rep_valid _ _ _ _ HR) in Hin as [_ [? _]].
Qed.
End Rep.

(** What an update of order [k] makes of the marked orders [O]. *)
Definition refreshed (X : gset (Z * Z)) (k : Z) (O O' : gset Z) : Prop :=
  ∀ j, j ∈ O' ↔ if decide (j = k) then j ∈ O ∧ ∃ i, (j, i) ∈ X else j ∈ O.

Lemma update_order_ok base X O a k :
  rep base X O a → 0 <= k <= 14 →
  wp (__buddy_update_order_bitmap k)
     (λ _ a', ∃ O', rep base X O' a' ∧ refreshed X k O O') a.
Proof.
  intros HR Hk. unfold __buddy_update_order_bitmap.
  wstep find_block_ok; [done..|]. simpl. intros r ? [-> [[-> Hno]|[Hr [HO HX]]]].
  - eapply wp_mono; [by eapply order_clear_ok|]. simpl. intros _ a' HR'.
    eexists. split; [exact HR'|]. intros j.
    rewrite elem_of_difference, elem_of_singleton. case_decide as E; [|naive_solver].
    subst. split; [naive_solver|]. intros [Hj [i Hi]]. by destruct (Hno Hj i).
  - destruct (Z.ltb_spec r 0); [lia|].
    eapply wp_mono; [by eapply order_set_free_ok|]. simpl. intros _ a' HR'.
    eexists. split; [exact HR'|]. intros j.
    rewrite elem_of_union, elem_of_singleton. case_decide; subst; naive_solver.
Qed.

(** ** Sets of free blocks *)

Definition free_page (X : gset (Z * Z)) (p : Z) : Prop :=
  ∃ b, b ∈ X ∧ in_block p b.
Definition all_free (X : gset (Z * Z)) (b : Z * Z) : Prop :=
  ∀ p, in_block p b → free_page X p.
(** None of the pages of [b] is free: the block is in use. *)
Definition in_use (X : gset (Z * Z)) (b : Z * Z) : Prop :=
  valid b ∧ ∀ p, in_block p b → ¬ free_page X p.

Definition buddy (b : Z * Z) : Z * Z := (b.1, buddy_get_idx b.2).

(** Free blocks do not overlap, and two buddies are never both free: they would
    have been joined. *)
Record canonical (X : gset (Z * Z)) : Prop := {
  can_valid : ∀ b, b ∈ X → valid b;
  can_disjoint : ∀ b c p, b ∈ X → c ∈ X → in_block p b → in_block p c → b = c;
  can_apart : ∀ b, b.1 < 14 → b ∈ X → buddy b ∉ X }.

Definition marked (X : gset (Z * Z)) (O : gset Z) : Prop :=
  ∀ k, k ∈ O ↔ ∃ i, (k, i) ∈ X.

(** *** Arithmetic of blocks *)

Lemma first_page k i : 0 <= k → in_block (i * 2 ^ k) (k, i).
Proof. intros Hk. apply in_block_range; [done|]. assert (0 < 2 ^ k) by (apply Z.pow_pos_nonneg; lia). lia. Qed.

Lemma in_ancestor p k i k' :
  0 <= k <= k' → in_block p (k, i) → in_block p (k', i / 2 ^ (k' - k)).
Proof.
  unfold in_block. simpl. intros Hk <-.
  assert (0 < 2 ^ k) by (apply Z.pow_pos_nonneg; lia).
  assert (0 < 2 ^ (k' - k)) by (apply Z.pow_pos_nonneg; lia).
  rewrite Z.div_div by lia. f_equal. rewrite <- Z.pow_add_r by lia. f_equal. lia.
Qed.

Lemma in_halves p k i :
  0 <= k → in_block p (k + 1, i) ↔ in_block p (k, 2 * i) ∨ in_block p (k, 2 * i + 1).
Proof.
  intros Hk. rewrite !in_block_range by lia. rewrite Z.pow_add_r by lia.
  assert (0 < 2 ^ k) by (apply Z.pow_pos_nonneg; lia). nia.
Qed.

Lemma same_order p k i j : in_block p (k, i) → in_block p (k, j) → i = j.
Proof. unfold in_block. simpl. congruence. Qed.

Lemma buddy_idx_even i : 0 <= i → buddy_get_idx (2 * i) = 2 * i + 1.
Proof. intros Hi. unfold buddy_get_idx. destruct i; [done| |lia]. done. Qed.
Lemma buddy_idx_odd i : 0 <= i → buddy_get_idx (2 * i + 1) = 2 * i.
Proof. intros Hi. unfold buddy_get_idx. destruct i; [done| |lia]. done. Qed.

Lemma even_odd i : i = 2 * (i / 2) ∨ i = 2 * (i / 2) + 1.
Proof. pose proof (Z.div_mod i 2). pose proof (Z.mod_pos_bound i 2). lia. Qed.

Lemma buddy_involutive b : 0 <= b.2 → buddy (buddy b) = b.
Proof.
  destruct b as [k i]. unfold buddy. simpl. intros Hi. f_equal.
  assert (0 <= i / 2) by (apply Z.div_pos; lia).
  destruct (even_odd i) as [E|E]; rewrite E.
  - by rewrite buddy_idx_even, buddy_idx_odd.
  - by rewrite buddy_idx_odd, buddy_idx_even.
Qed.

Lemma valid_halves k i :
  valid (k + 1, i) → 0 <= k → valid (k, 2 * i) ∧ valid (k, 2 * i + 1).
Proof.
  unfold valid. simpl. intros [Hk Hi] Hk0.
  assert (2 ^ (14 - k) = 2 * 2 ^ (14 - (k + 1))) as ->; [|lia].
  rewrite <- Z.pow_succ_r by lia. f_equal. lia.
Qed.

Lemma valid_parent k i : valid (k, i) → k < 14 → valid (k + 1, i / 2).
Proof.
  unfold valid. simpl. intros [Hk Hi] Hlt. split; [lia|].
  assert (2 ^ (14 - k) = 2 * 2 ^ (14 - (k + 1))) as E.
  { rewrite <- Z.pow_succ_r by lia. f_equal. lia. }
  split; [apply Z.div_pos; lia|apply Z.div_lt_upper_bound; lia].
Qed.

(** The two halves of a block, one of them given, in the code's terms. *)
Lemma in_parent p k i :
  0 <= k → 0 <= i →
  in_block p (k + 1, i / 2) ↔ in_block p (k, i) ∨ in_block p (buddy (k, i)).
Proof.
  intros Hk Hi. rewrite in_halves by done. unfold buddy. simpl.
  assert (0 <= i / 2) by (apply Z.div_pos; lia).
  destruct (even_odd i) as [E|E]; rewrite E at 3 4.
  - rewrite buddy_idx_even by done. done.
  - rewrite buddy_idx_odd by done. tauto.
Qed.

Lemma valid_buddy k i : valid (k, i) → k < 14 → valid (buddy (k, i)).
Proof.
  intros Hv Hk. pose proof (valid_parent _ _ Hv Hk) as Hp. destruct Hv as [Hk' Hi].
  simpl in *. destruct (valid_halves _ _ Hp) as [H1 H2]; [lia|].
  assert (0 <= i / 2) by (apply Z.div_pos; lia). unfold buddy. simpl.
  destruct (even_odd i) as [E|E]; rewrite E.
  - by rewrite buddy_idx_even.
  - by rewrite buddy_idx_odd.
Qed.

(** *** The free blocks are the coarsest *)

Lemma all_free_block X b : b ∈ X → all_free X b.
Proof. intros Hb p Hp. by exists b. Qed.

Lemma coarsest X k i :
  canonical X → valid (k, i) → all_free X (k, i) →
  ∃ k', k <= k' <= 14 ∧ (k', i / 2 ^ (k' - k)) ∈ X.
Proof.
  intros HC Hv. assert (0 <= k) as Hk by apply Hv.
  revert i Hv. pattern k. apply natlike_ind; [| |done].
  - intros i Hv Hall. destruct (Hall i) as ([k' i'] & Hin & Hp).
    { unfold in_block. simpl. by rewrite Z.div_1_r. }
    exists k'. pose proof (can_valid _ HC _ Hin) as [? ?]. simpl in *.
    unfold in_block in Hp. simpl in Hp. rewrite Z.sub_0_r, Hp. split; [lia|done].
  - clear k Hk. intros k Hk IH i Hv Hall. rewrite <- Z.add_1_r in *.
    destruct (valid_halves _ _ Hv Hk) as [Hv1 Hv2].
    destruct (IH _ Hv1) as (k1 & Hk1 & Hin1).
    { intros p Hp. apply Hall, in_halves; auto. }
    destruct (IH _ Hv2) as (k2 & Hk2 & Hin2).
    { intros p Hp. apply Hall, in_halves; auto. }
    assert (∀ k' j, k + 1 <= k' → j = 2 * i ∨ j = 2 * i + 1 →
      j / 2 ^ (k' - k) = i / 2 ^ (k' - (k + 1))) as Hup.
    { intros k' j Hle Hj. replace (k' - k) with (1 + (k' - (k + 1))) by lia.
      rewrite Z.pow_add_r, <- Z.div_div by (try apply Z.pow_pos_nonneg; lia).
      f_equal. change (2 ^ 1) with 2. symmetry. apply (Z.div_unique j 2 i (j - 2 * i)); lia. }
    destruct (decide (k + 1 <= k1)).
    { exists k1. rewrite <- (Hup k1 (2 * i)) by auto. split; [lia|done]. }
    destruct (decide (k + 1 <= k2)).
    { exists k2. rewrite <- (Hup k2 (2 * i + 1)) by auto. split; [lia|done]. }
    exfalso. replace k1 with k in Hin1 by lia. replace k2 with k in Hin2 by lia.
    rewrite Z.sub_diag, Z.div_1_r in Hin1, Hin2.
    assert (0 <= i) by (destruct Hv; simpl in *; lia).
    apply (can_apart _ HC (k, 2 * i)); [destruct Hv; simpl in *; lia|done|].
    unfold buddy. simpl. by rewrite buddy_idx_even.
Qed.

(** A block is in the set exactly if its pages are free and, below the highest
    order, those of its parent are not all free. *)
Lemma canonical_block X k i :
  canonical X → valid (k, i) →
  (k, i) ∈ X ↔ all_free X (k, i) ∧ (k = 14 ∨ ¬ all_free X (k + 1, i / 2)).
Proof.
  intros HC Hv. assert (0 <= k <= 14 ∧ 0 <= i) as [Hk Hi] by (destruct Hv; simpl in *; lia).
  split.
  - intros Hin. split; [by apply all_free_block|].
    destruct (decide (k = 14)) as [|Hne]; [by left|right]. intros Hall.
    destruct (coarsest X (k + 1) (i / 2)) as (k' & Hk' & Hin'); [done| |done|].
    { apply valid_parent; [done|lia]. }
    assert ((k, i) = (k', (i / 2) / 2 ^ (k' - (k + 1)))) as E;
      [|apply (f_equal fst) in E; simpl in E; lia].
    apply (can_disjoint _ HC _ _ (i * 2 ^ k)); [done|done|apply first_page; lia|].
    apply in_ancestor; [lia|]. apply in_parent; [lia..|]. left. apply first_page; lia.
  - intros [Hall Hpar]. destruct (coarsest X k i) as (k' & Hk' & Hin'); [done..|].
    destruct (decide (k' = k)) as [->|Hne].
    { by rewrite Z.sub_diag, Z.div_1_r in Hin'. }
    destruct Hpar as [->|Hpar]; [lia|]. destruct Hpar. intros p Hp.
    eexists. split; [exact Hin'|].
    replace (i / 2 ^ (k' - k)) with ((i / 2) / 2 ^ (k' - (k + 1))).
    { apply in_ancestor; [lia|done]. }
    replace (k' - k) with (1 + (k' - (k + 1))) by lia.
    rewrite Z.pow_add_r, <- Z.div_div by (try apply Z.pow_pos_nonneg; lia). done.
Qed.

(** Two such sets of the same pages are the same set. *)
Lemma canonical_unique X Y :
  canonical X → canonical Y → (∀ p, free_page X p ↔ free_page Y p) → X = Y.
Proof.
  intros HX HY Hp. apply set_eq. intros [k i].
  assert (∀ b, all_free X b ↔ all_free Y b) as Ha.
  { intros b. split; intros H p Hb; apply Hp, H, Hb. }
  destruct (decide (valid (k, i))) as [Hv|Hv].
  - rewrite !canonical_block by done. by rewrite !Ha.
  - split; intros Hin; destruct Hv; [by apply (can_valid X)|by apply (can_valid Y)].
Qed.

(** *** Adding and removing a block *)

Lemma free_page_remove X b p :
  canonical X → b ∈ X → free_page (X ∖ {[b]}) p ↔ free_page X p ∧ ¬ in_block p b.
Proof.
  intros HC Hb. split.
  - intros (c & Hc & Hp). apply elem_of_difference in Hc as [Hc Hne].
    rewrite elem_of_singleton in Hne. split; [by exists c|].
    intros Hpb. destruct Hne. by apply (can_disjoint _ HC _ _ p).
  - intros [(c & Hc & Hp) Hn]. exists c. split; [|done].
    apply elem_of_difference. split; [done|].
    rewrite elem_of_singleton. by intros ->.
Qed.

Lemma free_page_add X b p : free_page (X ∪ {[b]}) p ↔ free_page X p ∨ in_block p b.
Proof.
  unfold free_page. split.
  - intros (c & Hc & Hp). apply elem_of_union in Hc as [Hc|Hc%elem_of_singleton];
      [left; by exists c|right; by subst].
  - intros [(c & Hc & Hp)|Hp]; [exists c|exists b]; set_solver.
Qed.

Lemma canonical_remove X b : canonical X → canonical (X ∖ {[b]}).
Proof.
  intros HC. split.
  - intros c Hc. apply (can_valid _ HC). set_solver.
  - intros c d p Hc Hd. apply (can_disjoint _ HC); set_solver.
  - intros c Hlt Hc Hb. apply (can_apart _ HC c); [done|set_solver..].
Qed.

Lemma canonical_add X b :
  canonical X → in_use X b → (b.1 < 14 → buddy b ∉ X) → canonical (X ∪ {[b]}).
Proof.
  intros HC [Hv Hu] Hbud.
  assert (∀ c p, c ∈ X → in_block p c → in_block p b → False) as Hdis.
  { intros c p Hc Hp Hpb. apply (Hu p); [done|by exists c]. }
  split.
  - intros c [Hc| ->%elem_of_singleton]%elem_of_union; [by apply (can_valid _ HC)|done].
  - intros c d p [Hc| ->%elem_of_singleton]%elem_of_union
      [Hd| ->%elem_of_singleton]%elem_of_union Hpc Hpd; try done.
    + by apply (can_disjoint _ HC _ _ p).
    + by destruct (Hdis c p).
    + by destruct (Hdis d p).
  - intros c Hlt [Hc| ->%elem_of_singleton]%elem_of_union
      [Hb|Hb%elem_of_singleton]%elem_of_union.
    + by apply (can_apart _ HC c).
    + apply Hbud; rewrite <- Hb; [done|].
      by rewrite buddy_involutive by apply (can_valid _ HC _ Hc).
    + by apply Hbud.
    + destruct b as [k i], Hv as [Hk Hi]. simpl in *. injection Hb as Hb.
      destruct (even_odd i) as [E|E]; rewrite E in Hb at 1;
        rewrite ?buddy_idx_even, ?buddy_idx_odd in Hb by (apply Z.div_pos; lia); lia.
Qed.

Lemma marked_refresh X X' k O O' :
  marked X O → X' ⊆ X → (∀ j i, j ≠ k → (j, i) ∈ X → (j, i) ∈ X') →
  refreshed X' k O O' → marked X' O'.
Proof.
  intros Hm Hsub Hsame HO j. rewrite (HO j). case_decide as E.
  - subst. rewrite (Hm k). split; [by intros [_ ?]|]. intros [i Hi].
    split; exists i; [by apply Hsub|done].
  - rewrite (Hm j). split; intros [i Hi]; exists i; [by apply Hsame|by apply Hsub].
Qed.

Lemma marked_add X O k i : marked X O → marked (X ∪ {[(k, i)]}) (O ∪ {[k]}).
Proof.
  intros Hm j. rewrite elem_of_union, elem_of_singleton, (Hm j). split.
  - intros [[i' Hi']| ->]; [exists i'|exists i]; set_solver.
  - intros [i' [Hi'|Hi'%elem_of_singleton]%elem_of_union]; [left; by exists i'|].
    right. by injection Hi'.
Qed.

(** The two halves of a block in use are in use. *)
Lemma in_use_halves X k i :
  0 <= k → in_use X (k + 1, i) →
  in_use X (k, 2 * i) ∧ in_use X (k, 2 * i + 1).
Proof.
  intros Hk [Hv Hu]. destruct (valid_halves _ _ Hv Hk). split; (split; [done|]);
    intros p Hp; apply Hu, in_halves; auto.
Qed.

Lemma not_in_use X b : b ∈ X → valid b → in_use X b → False.
Proof.
  intros Hb [Hk _] [_ Hu]. destruct b as [k i]. simpl in Hk.
  apply (Hu (i * 2 ^ k)); [apply first_page; lia|].
  eexists. split; [done|]. apply first_page; lia.
Qed.

Lemma remove_in_use X b : in_use X b → X ∖ {[b]} = X.
Proof.
  intros Hu. assert (b ∉ X) by (intros Hb; by apply (not_in_use X b); [|apply Hu|]).
  set_solver.
Qed.

(** ** The loops *)

Lemma find_order_ok fuel k base X O a :
  rep base X O a → marked X O → 0 <= k <= 15 → 15 - k < Z.of_nat fuel →
  wp (find_order_loop fuel k) (λ r a', a' = a ∧
    ((r.2 = -1 ∧ ∀ k' i, k <= k' → (k', i) ∉ X)
     ∨ (0 <= r.2 ∧ k <= r.1 <= 14 ∧ r ∈ X))) a.
Proof.
  intros HR Hm. revert k. induction fuel as [|fuel IH]; intros k Hk Hf; [lia|].
  simpl. change (BUDDY_NUM_ORDERS - 1) with 14. destruct (Z.leb_spec k 14) as [Hle|Hgt].
  2: { apply wp_ret. split; [done|]. left. split; [done|]. intros k' i Hk' Hin.
       apply (rep_valid _ _ _ _ HR) in Hin as [? _]. simpl in *. lia. }
  wstep is_order_free_ok; [done|lia|]. simpl. intros f ? [-> ->].
  assert (u32 (k + 1) = k + 1) as Hu by (apply wrap_small; lia).
  case_bool_decide as HO.
  - wstep find_block_ok; [done|lia|]. simpl. intros r ? [-> [[-> Hno]|(Hr & _ & Hin)]].
    + exfalso. destruct (proj1 (Hm k) HO) as [i Hi]. by apply (Hno HO i).
    + rewrite (proj2 (Z.leb_le 0 r) Hr). apply wp_ret. split; [done|].
      right. split; [done|]. split; [simpl; lia|done].
  - rewrite Hu. eapply wp_mono; [apply IH; lia|].
    simpl. intros r ? [-> [[Hr Hno]|(? & ? & ?)]]; (split; [done|]);
      [left|right; split; [done|split; [lia|done]]].
    split; [done|]. intros k' i Hk' Hin. destruct (decide (k' = k)) as [->|].
    + apply HO, Hm. by exists i.
    + apply (Hno k' i); [lia|done].
Qed.

(** Splitting a block in use down to an order leaves its first sub-block in use
    and frees the rest. *)
Lemma split_ok fuel k k' i base X O a :
  rep base X O a → marked X O → canonical X → in_use X (k', i) →
  0 <= k <= k' → k' - k < Z.of_nat fuel →
  wp (split_loop fuel k k' i) (λ j a', ∃ X' O',
    rep base X' O' a' ∧ marked X' O' ∧ canonical X' ∧ in_use X' (k, j) ∧
    (∀ p, in_block p (k, j) → in_block p (k', i)) ∧
    ∀ p, free_page X' p ∨ in_block p (k, j) ↔ free_page X p ∨ in_block p (k', i)) a.
Proof.
  revert k' i X O a. induction fuel as [|fuel IH];
    intros k' i X O a HR Hm HC Hu Hk Hf; [lia|].
  simpl. destruct (Z.ltb_spec k k') as [Hlt|Hge].
  2: { replace k' with k in * by lia. apply wp_ret. exists X, O.
       split; [done|]. split; [done|]. split; [done|]. split; [done|]. done. }
  destruct (in_use_halves X (k' - 1) i) as [Hl Hr]; [lia|by rewrite Z.sub_add|].
  destruct Hu as [[Hv1 Hv2] Hu]. simpl in Hv1, Hv2.
  assert (2 ^ (14 - k') <= 2 ^ 14) by (apply Z.pow_le_mono_r; lia).
  change (2 ^ 14) with 16384 in *.
  assert (u64 (Z.shiftl i 1) = 2 * i) as ->.
  { rewrite Z.shiftl_mul_pow2, Z.mul_comm by lia. apply wrap_small. simpl. lia. }
  assert (Z.lor (2 * i) 1 = 2 * i + 1) as -> by (destruct i; done || lia).
  wstep block_clear_ok; [done|apply Hl|]. intros [] a1 HR1.
  rewrite (remove_in_use _ _ Hl) in HR1. wstep block_set_free_ok; [done|apply Hr|]. intros [] a2 HR2.
  wstep order_set_free_ok; [done|lia|]. intros [] a3 HR3.
  assert (canonical (X ∪ {[(k' - 1, 2 * i + 1)]})) as HC'.
  { apply canonical_add; [done..|]. intros _. unfold buddy. simpl.
    rewrite buddy_idx_odd by lia. intros Hin.
    by apply (not_in_use X (k' - 1, 2 * i)); [done|apply Hl|]. }
  eapply wp_mono; [eapply IH; [done|by apply marked_add|done| |lia|lia]|].
  - split; [apply Hl|]. intros p Hp [Hpf|Hpf]%free_page_add; [by apply Hl in Hp|].
    by pose proof (same_order _ _ _ _ Hp Hpf); lia.
  - simpl. intros j a' (X' & O' & ? & ? & ? & ? & Hsub & Hpages).
    assert (∀ p, in_block p (k', i) ↔
      in_block p (k' - 1, 2 * i) ∨ in_block p (k' - 1, 2 * i + 1)) as Hh.
    { intros p. rewrite <- in_halves by lia. by rewrite Z.sub_add. }
    exists X', O'. do 4 (split; [done|]). split.
    + intros p Hp. apply Hh. left. by apply Hsub.
    + intros p. rewrite Hpages, free_page_add, Hh. tauto.
Qed.

(** Joining a block in use with its free buddies gives a block in use whose
    buddy is not free. *)
Lemma merge_ok fuel k i base X O a :
  rep base X O a → marked X O → canonical X → in_use X (k, i) →
  14 - k < Z.of_nat fuel →
  wp (merge_loop fuel k i) (λ r a', ∃ X' O',
    rep base X' O' a' ∧ marked X' O' ∧ canonical X' ∧ in_use X' r ∧
    (r.1 < 14 → buddy r ∉ X') ∧
    ∀ p, free_page X' p ∨ in_block p r ↔ free_page X p ∨ in_block p (k, i)) a.
Proof.
  revert k i X O a. induction fuel as [|fuel IH];
    intros k i X O a HR Hm HC Hu Hf; [destruct Hu as [[? _] _]; simpl in *; lia|].
  pose proof (proj1 Hu) as Hv. assert (0 <= k <= 14 ∧ 0 <= i) as [Hk Hi]
    by (destruct Hv; simpl in *; lia).
  simpl. change (BUDDY_NUM_ORDERS - 1) with 14.
  destruct (Z.ltb_spec k 14) as [Hlt|Hge].
  2: { apply wp_ret. exists X, O. do 4 (split; [done|]). split; [simpl; lia|done]. }
  pose proof (valid_buddy _ _ Hv Hlt) as Hvb. rewrite num_blocks_val by done.
  destruct (Z.leb_spec (2 ^ (14 - k)) (buddy_get_idx i)) as [Hle|_].
  { destruct Hvb as [_ Hvb]. simpl in Hvb. lia. }
  wstep is_block_free_ok; [done|exact Hvb|]. intros f ? [-> ->].
  case_bool_decide as Hb; cbn [negb].
  2: { apply wp_ret. exists X, O. do 4 (split; [done|]). done. }
  wstep block_clear_ok; [done|done|]. intros [] a1 HR1.
  rewrite (remove_in_use _ _ Hu) in HR1. wstep block_clear_ok; [done|exact Hvb|]. intros [] a2 HR2.
  wstep update_order_ok; [done|done|]. intros [] a3 (O3 & HR3 & HO3).
  change (k, buddy_get_idx i) with (buddy (k, i)) in *.
  assert (u32 (k + 1) = k + 1) as -> by (apply wrap_small; lia).
  unfold buddy_get_parent_idx. rewrite Z.shiftr_div_pow2 by lia. change (2 ^ 1) with 2.
  eapply wp_mono; [eapply IH; [done| |by apply canonical_remove| |lia]|].
  - eapply marked_refresh; [done|by apply subseteq_difference_l| |done].
    intros j i' Hne Hin. apply elem_of_difference. split; [done|].
    rewrite elem_of_singleton. intros [=]. done.
  - split; [by apply valid_parent|]. intros p Hp Hpf.
    apply free_page_remove in Hpf as [Hpf Hn]; [|done..].
    apply in_parent in Hp as [Hp|Hp]; [by apply Hu in Hp|done|lia..].
  - simpl. intros r a' (X' & O' & ? & ? & ? & ? & ? & Hpages).
    exists X', O'. do 5 (split; [done|]). intros p.
    rewrite Hpages, free_page_remove, in_parent by (done || lia).
    assert (in_block p (buddy (k, i)) → free_page X p) by (intros; by exists (buddy (k, i))).
    destruct (decide (in_block p (buddy (k, i)))); tauto.
Qed.

(** ** Allocation and release *)

Definition block_addr (base k i : Z) : Z := base + i * 2 ^ (k + 21).
(** The block lies in the first [n] pages. *)
Definition fits (n : Z) (b : Z * Z) : Prop := ∀ p, in_block p b → p < n.

(** The invariant of an arena of [n] pages from [base] with the free blocks
    [X]. *)
Record arena_inv (base n : Z) (X : gset (Z * Z)) (a : buddy_arena) : Prop := {
  ai_base : 0 < base;
  ai_top : base + n * 2 ^ 21 <= 2 ^ 64;
  ai_can : canonical X;
  ai_fits : ∀ p, free_page X p → p < n;
  ai_rep : ∃ O, rep base X O a ∧ marked X O }.

Lemma shl_page i k : 0 <= k → Z.shiftl i (k + PMA_BASE_ORDER) = i * 2 ^ (k + 21).
Proof. intros. change PMA_BASE_ORDER with 21. by rewrite Z.shiftl_mul_pow2 by lia. Qed.

Section Addresses.
Context (base n k i : Z) (a : buddy_arena).
Context (Hbase : 0 < base) (Htop : base + n * 2 ^ 21 <= 2 ^ 64).
Context (Hk : 0 <= k) (Hi : 0 <= i) (Hfits : fits n (k, i)).

Lemma addr_range :
  0 <= i * 2 ^ (k + 21) ∧ 0 < block_addr base k i ∧
  block_addr base k i + 2 ^ (k + 21) <= base + n * 2 ^ 21.
Proof.
  assert ((i + 1) * 2 ^ k - 1 < n) as Hp.
  { apply Hfits, in_block_range; [done|]. assert (0 < 2 ^ k) by (apply Z.pow_pos_nonneg; lia). lia. }
  unfold block_addr. rewrite !Z.pow_add_r by lia. change (2 ^ 21) with 2097152.
  assert (0 < 2 ^ k) by (apply Z.pow_pos_nonneg; lia). nia.
Qed.

Lemma addr_word : 0 <= i * 2 ^ (k + 21) < 2 ^ 64 ∧ 0 < block_addr base k i < 2 ^ 64.
Proof.
  pose proof addr_range as (? & ? & ?). unfold block_addr in *.
  assert (0 < 2 ^ (k + 21)) by (apply Z.pow_pos_nonneg; lia). lia.
Qed.

Lemma idx_to_addr_val :
  base_addr a = base → buddy_block_idx_to_addr a i k = block_addr base k i.
Proof.
  intros E. destruct addr_word as [? ?]. unfold buddy_block_idx_to_addr.
  rewrite shl_page, E by done.
  unfold u64, block_addr in *. rewrite (wrap_small 64 (_ * _)) by lia.
  apply wrap_small. lia.
Qed.

Lemma addr_to_idx_val :
  base_addr a = base → buddy_addr_to_block_idx a (block_addr base k i) k = i.
Proof.
  intros E. destruct addr_word as [? ?].
  unfold buddy_addr_to_block_idx, block_addr in *. change PMA_BASE_ORDER with 21.
  rewrite E. replace (base + i * 2 ^ (k + 21) - base) with (i * 2 ^ (k + 21)) by lia.
  unfold u64. rewrite wrap_small by lia. rewrite Z.shiftr_div_pow2 by lia.
  apply Z.div_mul. assert (0 < 2 ^ (k + 21)) by (apply Z.pow_pos_nonneg; lia). lia.
Qed.
End Addresses.

(** What an allocation of order [k] that returns [r] may have done: no block of
    the order was free, or it has given one away. *)
Definition allocates (base k r : Z) (X X' : gset (Z * Z)) : Prop :=
  (r = PMA_NULL ∧ X' = X ∧ ∀ i, valid (k, i) → ¬ all_free X (k, i)) ∨
  ∃ i, r = block_addr base k i ∧ r ≠ PMA_NULL ∧
    all_free X (k, i) ∧ in_use X' (k, i) ∧
    ∀ p, free_page X' p ∨ in_block p (k, i) ↔ free_page X p.

Lemma take_block a base X O k i :
  rep base X O a → canonical X → marked X O → (k, i) ∈ X →
  wp (__buddy_block_clear k i ;;; __buddy_update_order_bitmap k)
     (λ _ a', ∃ O', rep base (X ∖ {[(k, i)]}) O' a' ∧ marked (X ∖ {[(k, i)]}) O') a.
Proof.
  intros HR HC Hm Hin. pose proof (can_valid _ HC _ Hin) as Hv.
  wstep block_clear_ok; [done|done|]. intros [] a1 HR1.
  eapply wp_mono; [eapply update_order_ok; [done|apply Hv]|].
  simpl. intros [] a' (O' & HR' & HO'). exists O'. split; [done|].
  eapply marked_refresh; [done|by apply subseteq_difference_l| |done].
  intros j i' Hne Hj. apply elem_of_difference. split; [done|].
  rewrite elem_of_singleton. intros [=]. done.
Qed.

Lemma wp_bind_assoc {S A B C} (m : M S A) (f : A → M S B) (g : B → M S C) Q s :
  wp (x <~ (y <~ m ;; f y) ;; g x) Q s → wp (y <~ m ;; x <~ f y ;; g x) Q s.
Proof. unfold wp, bind. by destruct (m s) as [[]|]. Qed.

Lemma buddy_alloc_wp a base n X k :
  arena_inv base n X a → 0 <= k →
  wp (__buddy_alloc k) (λ r a', ∃ X', arena_inv base n X' a' ∧ allocates base k r X X') a.
Proof.
  intros HI Hk. destruct (HI) as [Hb Ht HC Hn (O & HR & Hm)]. unfold __buddy_alloc.
  change BUDDY_NUM_ORDERS with 15. destruct (Z.leb_spec 15 k) as [Hge|Hlt].
  { apply wp_ret. exists X. split; [done|]. left.
    split; [done|split; [done|]]. intros i [? _]. simpl in *. lia. }
  wstep find_order_ok; [exact HR|exact Hm|lia|lia|].
  intros [k' i] ? [-> [[Hr Hno]|(Hi & Hk' & Hin)]]; cbn [fst snd] in *.
  { subst i. apply wp_ret. exists X. split; [done|]. left.
    split; [done|split; [done|]]. intros i Hv Hall.
    destruct (coarsest X k i) as (k1 & Hk1 & Hin); [done..|].
    by apply (Hno k1 (i / 2 ^ (k1 - k))); [lia|]. }
  destruct (Z.ltb_spec i 0); [lia|]. apply wp_bind_assoc.
  wstep take_block; [exact HR|done..|]. intros [] a1 (O1 & HR1 & Hm1).
  wstep (split_ok (S (Z.to_nat 15)) k k' i);
    [done|done|by apply canonical_remove| |lia|lia|].
  { split; [by apply (can_valid _ HC)|]. intros p Hp Hpf.
    by apply free_page_remove in Hpf as [_ ?]. }
  simpl. intros j a2 (X' & O' & HR2 & Hm2 & HC2 & Hu & Hsub & Hpages).
  assert (∀ p, free_page X' p ∨ in_block p (k, j) ↔ free_page X p) as Hp.
  { intros p. rewrite Hpages, free_page_remove by done.
    destruct (decide (in_block p (k', i))) as [Hp|Hp]; [|tauto].
    split; [|by right]. intros _. by exists (k', i). }
  unfold mget. apply wp_bind. unfold wp at 1. apply wp_ret. exists X'. split.
  { split; [done..| |by exists O']. intros p Hf. apply Hn, Hp. by left. }
  pose proof (proj1 Hu) as [Hv1 Hv2]. simpl in Hv1, Hv2.
  assert (fits n (k, j)) as Hfit by (intros p Hpj; apply Hn, Hp; by right).
  destruct (addr_word base n k j) as [_ ?]; [lia..|done|].
  rewrite (idx_to_addr_val base n) by (lia || done || apply HR2).
  right. exists j. split; [done|]. split; [change PMA_NULL with 0; lia|].
  split; [intros p Hpj; apply Hp; by right|done].
Qed.

Lemma buddy_free_wp a base n X k i :
  arena_inv base n X a → in_use X (k, i) → fits n (k, i) →
  wp (__buddy_free (block_addr base k i) k) (λ _ a', ∃ X', arena_inv base n X' a' ∧
    ∀ p, free_page X' p ↔ free_page X p ∨ in_block p (k, i)) a.
Proof.
  intros [Hb Ht HC Hn (O & HR & Hm)] Hu Hfit.
  pose proof (proj1 Hu) as [Hk Hi]. simpl in Hk, Hi.
  destruct (addr_word base n k i) as [_ Hpos]; [lia..|done|].
  unfold __buddy_free. change BUDDY_NUM_ORDERS with 15. change PMA_NULL with 0.
  rewrite (proj2 (Z.eqb_neq _ 0)), (proj2 (Z.leb_gt 15 k)) by lia. cbn [orb].
  unfold mget. apply wp_bind. unfold wp at 1.
  rewrite (addr_to_idx_val base n) by (lia || done || apply HR).
  wstep (merge_ok (S (Z.to_nat 15)) k i); [exact HR|exact Hm|exact HC|exact Hu|lia|].
  intros [k' i'] a1 (X1 & O1 & HR1 & Hm1 & HC1 & Hu1 & Hbud & Hpages). simpl in *.
  pose proof (proj1 Hu1) as Hv1.
  wstep block_set_free_ok; [done|done|]. intros [] a2 HR2.
  eapply wp_mono; [eapply order_set_free_ok; [done|apply Hv1]|].
  simpl. intros [] a3 HR3. exists (X1 ∪ {[(k', i')]}).
  assert (∀ p, free_page (X1 ∪ {[(k', i')]}) p ↔ free_page X p ∨ in_block p (k, i)) as Hp.
  { intros p. by rewrite free_page_add, Hpages. }
  split; [|done]. split; [done|done|by apply canonical_add| |].
  - intros p [Hf|Hf]%Hp; [by apply Hn|by apply Hfit].
  - eexists. split; [done|]. by apply marked_add.
Qed.

Lemma can_alloc_loop_ok fuel k base X O a :
  rep base X O a → marked X O → 0 <= k <= 15 → 15 - k < Z.of_nat fuel →
  wp (can_alloc_loop fuel k) (λ r a', a' = a ∧
    if r : bool then ∃ k' i, k <= k' ∧ (k', i) ∈ X
    else ∀ k' i, k <= k' → (k', i) ∉ X) a.
Proof.
  intros HR Hm. revert k. induction fuel as [|fuel IH]; intros k Hk Hf; [lia|].
  simpl. change BUDDY_NUM_ORDERS with 15. destruct (Z.ltb_spec k 15) as [Hlt|Hge].
  2: { apply wp_ret. split; [done|]. intros k' i Hk' Hin.
       apply (rep_valid _ _ _ _ HR) in Hin as [? _]. simpl in *. lia. }
  wstep is_order_free_ok; [done|lia|]. simpl. intros f ? [-> ->].
  case_bool_decide as HO.
  - apply wp_ret. split; [done|]. destruct (proj1 (Hm k) HO) as [i Hi].
    exists k, i. split; [lia|done].
  - assert (u32 (k + 1) = k + 1) as -> by (apply wrap_small; lia).
    eapply wp_mono; [apply IH; lia|]. simpl. intros [] a' [-> H]; (split; [done|]).
    + destruct H as (k' & i & ? & ?). exists k', i. split; [lia|done].
    + intros k' i Hk' Hin. destruct (decide (k' = k)) as [->|].
      * apply HO, Hm. by exists i.
      * apply (H k' i); [lia|done].
Qed.

(** A free block of an order or above holds a free block of the order. *)
Lemma first_sub_block X k k' i :
  0 <= k <= k' → valid (k', i) → (k', i) ∈ X →
  valid (k, i * 2 ^ (k' - k)) ∧ all_free X (k, i * 2 ^ (k' - k)).
Proof.
  intros Hk [Hk' Hi] Hin. simpl in *.
  assert (0 < 2 ^ (k' - k)) by (apply Z.pow_pos_nonneg; lia). split.
  - split; simpl; [lia|]. replace (14 - k) with ((14 - k') + (k' - k)) by lia.
    rewrite Z.pow_add_r by lia. nia.
  - intros p Hp. exists (k', i). split; [done|].
    apply (in_ancestor p k _ k') in Hp; [|lia]. by rewrite Z.div_mul in Hp by lia.
Qed.

Lemma can_alloc_wp a base n X k :
  arena_inv base n X a → 0 <= k →
  wp (__buddy_order_can_alloc k) (λ r a', a' = a ∧
    if r : bool then ∃ i, valid (k, i) ∧ all_free X (k, i)
    else ∀ i, valid (k, i) → ¬ all_free X (k, i)) a.
Proof.
  intros [_ _ HC _ (O & HR & Hm)] Hk. unfold __buddy_order_can_alloc.
  change BUDDY_NUM_ORDERS with 15. destruct (Z.leb_spec 15 k) as [Hge|Hlt].
  { apply wp_ret. split; [done|]. intros i [? _]. simpl in *. lia. }
  eapply wp_mono; [eapply can_alloc_loop_ok; [exact HR|exact Hm|lia|lia]|].
  simpl. intros [] a' [-> H]; (split; [done|]).
  - destruct H as (k' & i & Hle & Hin). exists (i * 2 ^ (k' - k)).
    apply first_sub_block; [lia|by apply (can_valid _ HC)|done].
  - intros i Hv Hall. destruct (coarsest X k i) as (k' & Hk' & Hin); [done..|].
    by apply (H k' (i / 2 ^ (k' - k))); [lia|].
Qed.

(** *** The order of a request *)

Lemma log2_up_least num order :
  num <= 2 ^ order → order = 0 ∨ 0 < order ∧ 2 ^ (order - 1) < num →
  Z.log2_up num = order.
Proof.
  intros Hn [->|[Ho Hlow]]; [by apply Z.log2_up_eqn0|].
  apply Z.log2_up_unique; [done|]. rewrite <- Z.sub_1_r. lia.
Qed.

Lemma get_order_loop_spec fuel num order :
  0 <= order → num <= 2 ^ (order + Z.of_nat fuel) → order + Z.of_nat fuel < 63 →
  order = 0 ∨ 0 < order ∧ 2 ^ (order - 1) < num →
  get_order_loop (S fuel) num (2 ^ order) order = Ok (Z.log2_up num).
Proof.
  revert order. induction fuel as [|fuel IH]; intros order Ho Hn Hf Hlow.
  - rewrite Z.add_0_r in Hn. cbn [get_order_loop].
    rewrite (proj2 (Z.ltb_ge _ _)) by lia. f_equal. symmetry. by apply log2_up_least.
  - remember (S fuel) as f' eqn:Ef. cbn [get_order_loop].
    destruct (Z.ltb_spec (2 ^ order) num) as [Hlt|Hge];
      [|f_equal; symmetry; by apply log2_up_least].
    assert (2 ^ (order + 1) < 2 ^ 64) by (apply Z.pow_lt_mono_r; lia).
    assert (u64 (Z.shiftl (2 ^ order) 1) = 2 ^ (order + 1)) as ->.
    { rewrite Z.shiftl_mul_pow2, <- Z.pow_add_r by lia. apply wrap_small.
      split; [apply Z.pow_nonneg; lia|done]. }
    assert (u32 (order + 1) = order + 1) as -> by (apply wrap_small; lia).
    subst f'. apply IH; [lia| |lia|right; rewrite Z.add_simpl_r; lia].
    replace (order + 1 + Z.of_nat fuel) with (order + Z.of_nat (S fuel)) by lia. done.
Qed.

Lemma get_order_run num :
  0 <= num < 2 ^ 32 → __buddy_get_order num = Ok (Z.log2_up num).
Proof.
  intros Hn. unfold __buddy_get_order. apply (get_order_loop_spec 32 num 0); simpl; lia.
Qed.

(** *** A new arena *)

Lemma bm_zero_bit n i : bm_bit (bm_zero n) i = false.
Proof. unfold bm_bit, bm_byte, bm_zero. simpl. by rewrite lookup_empty, Z.bits_0. Qed.

Lemma rep_empty base :
  rep base ∅ ∅ (BuddyArena base (bm_zero BUDDY_ORDER_BITMAP_SIZE)
                  (bm_zero BUDDY_BLOCK_BITMAP_SIZE)).
Proof.
  assert (∀ n, bm_wf (bm_zero n)) as Hz.
  { intros n i. unfold bm_byte. simpl. rewrite lookup_empty. simpl. lia. }
  split; [done|split; apply Hz|done| | | |].
  - intros b Hb. by apply not_elem_of_empty in Hb.
  - intros k Hk. by apply not_elem_of_empty in Hk.
  - intros b _. simpl. rewrite bm_zero_bit. symmetry.
    apply bool_decide_eq_false, not_elem_of_empty.
  - intros k _. simpl. rewrite bm_zero_bit. symmetry.
    apply bool_decide_eq_false, not_elem_of_empty.
Qed.

Lemma canonical_single b : valid b → canonical {[b]}.
Proof.
  intros Hv. rewrite <- (left_id_L ∅ union {[b]}). apply canonical_add.
  - split; intros; exfalso; set_solver.
  - split; [done|]. intros p _ (c & Hc & _). by apply not_elem_of_empty in Hc.
  - intros _. apply not_elem_of_empty.
Qed.

(** The arena of the [n] pages from [base], as one block of order [o]. *)
Lemma single_wp base n o :
  0 < base → base + n * 2 ^ 21 <= 2 ^ 64 → 0 <= o <= 14 → 2 ^ o <= n →
  wp (__buddy_order_set_free o ;;; __buddy_block_set_free o 0 ;;; ret 0)
     (λ r a', r = 0 ∧ arena_inv base n {[(o, 0)]} a')
     (BuddyArena base (bm_zero BUDDY_ORDER_BITMAP_SIZE)
        (bm_zero BUDDY_BLOCK_BITMAP_SIZE)).
Proof.
  intros Hb Ht Ho Hn. assert (valid (o, 0)) as Hv.
  { split; simpl; [lia|]. split; [done|]. apply Z.pow_pos_nonneg; lia. }
  wstep order_set_free_ok; [apply rep_empty|done|]. intros [] a1 HR1.
  wstep block_set_free_ok; [done|done|]. intros [] a2 HR2. apply wp_ret.
  split; [done|]. rewrite !(left_id_L ∅ union) in HR2.
  split; [done|done|by apply canonical_single| |].
  - intros p (b & ->%elem_of_singleton & Hp). apply in_block_range in Hp; lia.
  - exists {[o]}. split; [done|]. intros k. rewrite elem_of_singleton. split.
    + intros ->. exists 0. by apply elem_of_singleton.
    + intros [i Hi%elem_of_singleton]. by injection Hi.
Qed.

(** ** What the allocator promises *)

(** C12. The buddy allocator refines a set of free pages: in an arena that is in
    order ([arena_inv]), for every order, an allocation returns; it gives out the pages of one aligned block of the
    order that were all free, at the block's address, and exactly those pages
    are no longer free; it returns NULL, and changes nothing, exactly when no
    aligned block of the order is free as a whole; and the free blocks stay
    disjoint, inside the arena and joined. *)
Theorem buddy_alloc_refines base n X a k :
  arena_inv base n X a → 0 <= k →
  ∃ r a' X', __buddy_alloc k a = Ok (r, a') ∧ arena_inv base n X' a' ∧
    allocates base k r X X'.
Proof.
  intros HI Hk. destruct (proj1 (wp_run _ _ _) (buddy_alloc_wp a base n X k HI Hk))
    as (r & a' & E & X' & ? & ?). by exists r, a', X'.
Qed.

(** C13. In an arena that is in order ([arena_inv]), freeing an aligned block
    that lies in it and of whose pages none is free gives back exactly its
    pages, joined with whatever free buddies it has into the coarsest blocks:
    after it the arena is in order again, and no two buddies (below the top
    order) are both free. *)
Theorem buddy_free_joins base n X a k i :
  arena_inv base n X a → in_use X (k, i) → fits n (k, i) →
  ∃ a' X', __buddy_free (block_addr base k i) k a = Ok (tt, a') ∧
    arena_inv base n X' a' ∧
    (∀ p, free_page X' p ↔ free_page X p ∨ in_block p (k, i)) ∧
    ∀ b, b.1 < 14 → b ∈ X' → buddy b ∉ X'.
Proof.
  intros HI Hu Hf.
  destruct (proj1 (wp_run _ _ _) (buddy_free_wp a base n X k i HI Hu Hf))
    as ([] & a' & E & X' & HI' & Hp). exists a', X'. do 3 (split; [done|]).
  apply (can_apart _ (ai_can _ _ _ _ HI')).
Qed.

(** Freeing undoes allocating: after a block is allocated and freed with
    the same order, the set of free blocks, and with it every bit of both
    bitmaps, is what it was. *)
Theorem buddy_alloc_free_round_trip base n X a k r a1 :
  arena_inv base n X a → 0 <= k →
  __buddy_alloc k a = Ok (r, a1) → r ≠ PMA_NULL →
  ∃ a2, __buddy_free r k a1 = Ok (tt, a2) ∧ arena_inv base n X a2.
Proof.
  intros HI Hk E Hr.
  destruct (proj1 (wp_run _ _ _) (buddy_alloc_wp a base n X k HI Hk))
    as (r' & a1' & E' & X1 & HI1 & Hal).
  rewrite E in E'. injection E' as <- <-.
  destruct Hal as [[? _]|(i & -> & _ & Hall & Hu & Hp)]; [done|].
  destruct (proj1 (wp_run _ _ _) (buddy_free_wp a1 base n X1 k i HI1 Hu
    ltac:(intros p Hp'; by apply (ai_fits _ _ _ _ HI), Hall)))
    as ([] & a2 & E2 & X2 & HI2 & Hp2).
  exists a2. split; [done|]. assert (X2 = X) as <-; [|done].
  apply canonical_unique; [apply HI2|apply HI|]. intros p. by rewrite Hp2, Hp.
Qed.

(** C39. A request terminates with the order that fits: for any 32-bit number of
    pages the loop ends, and gives the least order whose blocks have that many
    pages. *)
Theorem buddy_get_order_least num :
  0 <= num < 2 ^ 32 →
  ∃ k, __buddy_get_order num = Ok k ∧ 0 <= k <= 32 ∧ num <= 2 ^ k ∧
    ∀ j, 0 <= j → num <= 2 ^ j → k <= j.
Proof.
  intros Hn. exists (Z.log2_up num). split; [by apply get_order_run|].
  pose proof (Z.log2_up_nonneg num).
  assert (∀ j, 0 <= j → num <= 2 ^ j → Z.log2_up num <= j) as Hmin.
  { intros j Hj Hle. destruct (decide (num <= 0)).
    - rewrite Z.log2_up_nonpos by done. done.
    - rewrite <- (Z.log2_up_pow2 j) by done. by apply Z.log2_up_le_mono. }
  split; [split; [done|apply Hmin; lia]|]. split; [|done].
  destruct (decide (num <= 1)).
  - rewrite Z.log2_up_eqn0 by done. done.
  - pose proof (Z.log2_up_spec num). lia.
Qed.

(** The part of a range that an arena is made of, in pages, and the order of
    the block the arena starts with. *)
Definition range_pages (base size : Z) : Z :=
  Z.min (2 ^ 14) ((size - (p2align_up base (2 ^ 21) - base)) / 2 ^ 21).

Lemma range_order pages :
  1 <= pages <= 2 ^ 14 → Z.log2_up (pages * 2 ^ 21) - 21 = Z.log2_up pages.
Proof. intros. rewrite Z.log2_up_mul_pow2 by lia. lia. Qed.

Lemma buddy_arena_init_run a base size :
  0 < base → base + 2 ^ 21 <= 2 ^ 64 → 0 <= size < 2 ^ 64 →
  p2align_up base (2 ^ 21) - base <= size → 1 <= range_pages base size →
  p2align_up base (2 ^ 21) + 2 ^ Z.log2_up (range_pages base size) * 2 ^ 21 <= 2 ^ 64 →
  wp (buddy_arena_init base size) (λ r a', r = 0 ∧
    arena_inv (p2align_up base (2 ^ 21)) (2 ^ Z.log2_up (range_pages base size))
      {[(Z.log2_up (range_pages base size), 0)]} a') a.
Proof.
  intros Hb Htop Hs Hcut Hpages Hfit.
  destruct (align_up_least base 21) as [Hal _]; [lia..|].
  unfold buddy_arena_init. change BUDDY_MIN_ARENA_SIZE with (2 ^ 21).
  change BUDDY_MAX_ARENA_SIZE with (2 ^ 14 * 2 ^ 21). change BUDDY_BASE_ORDER with 21.
  set (al := p2align_up base (2 ^ 21)) in *. change PMA_NULL with 0. unfold wp.
  rewrite (proj2 (Z.eqb_neq base 0)), (proj2 (Z.ltb_ge al base)),
    (proj2 (Z.eqb_neq al 0)) by lia. cbn [orb].
  change (2 ^ 21) with 2097152 in *. change (2 ^ 64) with 18446744073709551616 in *.
  assert (u64 (al - base) = al - base) as ->
    by (apply wrap_small; change (2 ^ 64) with 18446744073709551616; lia).
  rewrite (proj2 (Z.ltb_ge size _)) by lia.
  assert (u64 (size - (al - base)) = size - (al - base)) as ->
    by (apply wrap_small; change (2 ^ 64) with 18446744073709551616; lia).
  pose proof (align_down_spec (size - (al - base)) 21 ltac:(lia) ltac:(simpl; lia)) as Ed.
  change (2 ^ 21) with 2097152 in Ed. rewrite Ed. clear Ed.
  unfold range_pages in *. change (p2align_up base (2 ^ 21)) with al in *.
  change (2 ^ 21) with 2097152 in *. set (m := (size - (al - base)) / 2097152) in *.
  change (2 ^ 14) with 16384 in *.
  rewrite (proj2 (Z.ltb_ge _ 2097152)) by lia.
  assert ((if 16384 * 2097152 <? m * 2097152 then 16384 * 2097152 else m * 2097152)
          = Z.min 16384 m * 2097152) as ->
    by (destruct (Z.ltb_spec (16384 * 2097152) (m * 2097152)); lia).
  set (pages := Z.min 16384 m) in *.
  rewrite log2_up_spec by (simpl; lia). cbn [rbind].
  change 2097152 with (2 ^ 21). rewrite range_order by (simpl; lia).
  assert (0 <= Z.log2_up pages <= 14) as Ho.
  { split; [apply Z.log2_up_nonneg|].
    change 14 with (Z.log2_up 16384). apply Z.log2_up_le_mono. lia. }
  unfold u32. rewrite wrap_small by (simpl; lia).
  pose proof (single_wp al (2 ^ Z.log2_up pages) (Z.log2_up pages)) as Hw.
  apply Hw; [lia|done|done|done].
Qed.

(** A new arena starts as one free block, of the least order that has all
    the whole pages of its range: when their number is a power of two the free
    pages are exactly those of the range, and otherwise, because the logarithm
    is rounded up, the pages behind the range up to the next power of two are
    free as well. *)
Theorem buddy_arena_init_covers base size a :
  0 < base → base + 2 ^ 21 <= 2 ^ 64 → 0 <= size < 2 ^ 64 →
  p2align_up base (2 ^ 21) - base <= size → 1 <= range_pages base size →
  p2align_up base (2 ^ 21) + 2 ^ Z.log2_up (range_pages base size) * 2 ^ 21 <= 2 ^ 64 →
  ∃ a' o, buddy_arena_init base size a = Ok (0, a') ∧
    arena_inv (p2align_up base (2 ^ 21)) (2 ^ o) {[(o, 0)]} a' ∧
    (∀ p, free_page {[(o, 0)]} p ↔ 0 <= p < 2 ^ o) ∧
    range_pages base size <= 2 ^ o < 2 * range_pages base size ∧
    (2 ^ o = range_pages base size ↔ is_pow2 (range_pages base size) = true).
Proof.
  intros Hb Htop Hs Hcut Hp Hfit.
  destruct (proj1 (wp_run _ _ _) (buddy_arena_init_run a base size Hb Htop Hs Hcut Hp Hfit))
    as (r & a' & E & -> & HI).
  set (n := range_pages base size) in *. exists a', (Z.log2_up n).
  pose proof (Z.log2_up_nonneg n) as Ho. do 2 (split; [done|]). split; [|split].
  - intros p. pose proof (in_block_range p (Z.log2_up n) 0 Ho) as Hr. split.
    + intros (b & ->%elem_of_singleton & Hb'). apply Hr in Hb'. lia.
    + intros Hp'. eexists. split; [by apply elem_of_singleton|]. apply Hr. lia.
  - destruct (decide (n = 1)) as [->|]; [done|].
    pose proof (Z.log2_up_spec n ltac:(lia)) as [Hlo Hhi]. split; [done|].
    assert (0 < Z.log2_up n) by (apply Z.log2_up_pos; lia).
    replace (Z.log2_up n) with (Z.succ (Z.pred (Z.log2_up n))) by lia.
    rewrite Z.pow_succ_r by lia. lia.
  - rewrite is_pow2_spec by lia. split; intros En.
    + by rewrite <- En, Z.log2_pow2.
    + rewrite En at 1. by rewrite Z.log2_up_pow2 by apply Z.log2_nonneg.
Qed.

(** *** A concrete arena *)

(** The arena of the 12 GB from 0x200000, whose block has 16 GB. *)
Definition ex_fresh : buddy_arena :=
  match buddy_arena_init 0x200000 0x300000000
          (BuddyArena 0 (bm_zero BUDDY_ORDER_BITMAP_SIZE) (bm_zero BUDDY_BLOCK_BITMAP_SIZE))
  with Ok (_, a) => a | Fault _ => BuddyArena 0 (bm_zero 0) (bm_zero 0) end.

Lemma ex_fresh_inv : arena_inv 0x200000 (2 ^ 13) {[(13, 0)]} ex_fresh.
Proof.
  pose proof (buddy_arena_init_run
    (BuddyArena 0 (bm_zero BUDDY_ORDER_BITMAP_SIZE) (bm_zero BUDDY_BLOCK_BITMAP_SIZE))
    0x200000 0x300000000 ltac:(lia) ltac:(lia) ltac:(lia) ltac:(vm_compute; discriminate)
    ltac:(vm_compute; discriminate) ltac:(vm_compute; discriminate)) as H.
  unfold wp in H. unfold ex_fresh.
  destruct (buddy_arena_init _ _ _) as [[r a']|]; [exact (proj2 H)|done].
Qed.

Lemma buddy_alloc_refines_witness :
  arena_inv 0x200000 (2 ^ 13) {[(13, 0)]} ex_fresh ∧
  ∃ r a' X', __buddy_alloc 12 ex_fresh = Ok (r, a') ∧ arena_inv 0x200000 (2 ^ 13) X' a' ∧
    allocates 0x200000 12 r {[(13, 0)]} X'.
Proof.
  split; [exact ex_fresh_inv|].
  apply (buddy_alloc_refines 0x200000 (2 ^ 13) {[(13, 0)]} ex_fresh 12 ex_fresh_inv). lia.
Defined.

Lemma buddy_free_joins_witness :
  arena_inv 0x200000 8 ∅ (BuddyArena 0x200000 (bm_zero BUDDY_ORDER_BITMAP_SIZE)
                          (bm_zero BUDDY_BLOCK_BITMAP_SIZE)) ∧
  in_use ∅ (1, 2) ∧ fits 8 (1, 2) ∧
  ∃ a' X', __buddy_free (block_addr 0x200000 1 2) 1
      (BuddyArena 0x200000 (bm_zero BUDDY_ORDER_BITMAP_SIZE)
         (bm_zero BUDDY_BLOCK_BITMAP_SIZE)) = Ok (tt, a') ∧
    arena_inv 0x200000 8 X' a' ∧
    (∀ p, free_page X' p ↔ free_page ∅ p ∨ in_block p (1, 2)) ∧
    ∀ b, b.1 < 14 → b ∈ X' → buddy b ∉ X'.
Proof.
  assert (arena_inv 0x200000 8 ∅ (BuddyArena 0x200000 (bm_zero BUDDY_ORDER_BITMAP_SIZE)
                          (bm_zero BUDDY_BLOCK_BITMAP_SIZE))) as HI.
  { split; [lia|lia|split; intros; exfalso; set_solver| |].
    - intros p (b & Hb & _). by apply not_elem_of_empty in Hb.
    - exists ∅. split; [apply rep_empty|]. intros k. split; [set_solver|].
      intros [i Hi]. by apply not_elem_of_empty in Hi. }
  assert (in_use ∅ (1, 2)) as Hu.
  { split; [split; simpl; lia|]. intros p _ (b & Hb & _). by apply not_elem_of_empty in Hb. }
  assert (fits 8 (1, 2)) as Hf by (intros p Hp; apply in_block_range in Hp; lia).
  split; [exact HI|]. split; [exact Hu|]. split; [exact Hf|].
  exact (buddy_free_joins 0x200000 8 ∅ _ 1 2 HI Hu Hf).
Defined.

Lemma buddy_alloc_free_round_trip_witness :
  ∃ r a1 a2, __buddy_alloc 12 ex_fresh = Ok (r, a1) ∧ r = 0x200000 ∧
    __buddy_free r 12 a1 = Ok (tt, a2) ∧ arena_inv 0x200000 (2 ^ 13) {[(13, 0)]} a2.
Proof.
  destruct (__buddy_alloc 12 ex_fresh) as [[r a1]|f] eqn:E; [|vm_compute in E; discriminate].
  assert (r = 0x200000) as Hr by (vm_compute in E; injection E; done).
  destruct (buddy_alloc_free_round_trip 0x200000 (2 ^ 13) {[(13, 0)]} ex_fresh 12 r a1
    ex_fresh_inv ltac:(lia) E) as (a2 & E2 & HI); [rewrite Hr; discriminate|].
  exists r, a1, a2. exact (conj eq_refl (conj Hr (conj E2 HI))).
Defined.

Lemma buddy_get_order_least_witness :
  (0 <= 3 < 2 ^ 32) ∧ ∃ k, __buddy_get_order 3 = Ok k ∧ 0 <= k <= 32 ∧ 3 <= 2 ^ k ∧
    ∀ j, 0 <= j → 3 <= 2 ^ j → k <= j.
Proof. split; [lia|]. apply (buddy_get_order_least 3). lia. Defined.

(** 12 GB: the 4 GB behind them are free as well. *)
Lemma buddy_arena_init_covers_witness :
  ∃ a' o, buddy_arena_init 0x200000 0x300000000 ex_fresh = Ok (0, a') ∧
    arena_inv (p2align_up 0x200000 (2 ^ 21)) (2 ^ o) {[(o, 0)]} a' ∧
    (∀ p, free_page {[(o, 0)]} p ↔ 0 <= p < 2 ^ o) ∧
    range_pages 0x200000 0x300000000 <= 2 ^ o < 2 * range_pages 0x200000 0x300000000 ∧
    (2 ^ o = range_pages 0x200000 0x300000000 ↔ is_pow2 (range_pages 0x200000 0x300000000) = true).
Proof.
  apply (buddy_arena_init_covers 0x200000 0x300000000 ex_fresh); [lia|lia|lia|..];
    vm_compute; discriminate.
Defined.
