(* ===== verification/Pma.v ===== *)
(** * Physical pages

    src/src/subsys/mem/pma.c, the interface through which the kernel asks for
    physical pages, and src/src/initcalls/early/mem/pma_buddy.c, which
    implements it with up to five buddy arenas, each under its lock.  An
    interface is a record of operations, as in the code; the state the
    operations work on is a parameter of the interface.  The page counts and
    the addresses are 32- and 64-bit words. *)

From Stdlib Require Import ZArith Lia Bool.
From stdpp Require Import base gmap sets list numbers option.
From S2P Require Import Prelude Std Buddy.
Local Open Scope Z_scope.
Local Open Scope twan_scope.

(** ** pma.c: the interface *)

Record pma_interface (S : Type) : Type := PmaInterface {
  pma_init_range_func : option (Z → Z → M S Z);
  pma_alloc_pages_func : option (Z → bool → M S (Z * option Z));
  pma_free_pages_func : option (Z → Z → Z → M S Z) }.
Arguments PmaInterface {S}.
Arguments pma_init_range_func {S}.
Arguments pma_alloc_pages_func {S}.
Arguments pma_free_pages_func {S}.

(** [pma_global] with the state of the interface's implementation. *)
Record pma (S : Type) : Type := Pma {
  interface : option (pma_interface S);
  initialized : bool;
  impl : S }.
Arguments Pma {S}.
Arguments interface {S}.
Arguments initialized {S}.
Arguments impl {S}.

Section Interface.
Context {S : Type}.

Definition pma_init (i : option (pma_interface S)) : M (pma S) Z := fun p =>
  match i with
  | None => Ok (- EINVAL, p)
  | Some _ =>
      if initialized p then Ok (- EALREADY, p)
      else Ok (0, Pma i true (impl p))
  end.

Definition is_pma_initialized : M (pma S) bool := mgets initialized.

(** Calls an operation of the interface: both assertions, then the call. *)
Definition call {A} (f : pma_interface S → option (M S A)) : M (pma S) A :=
  fun p =>
    match interface p with
    | None => Fault FAssert
    | Some i =>
        match f i with
        | None => Fault FAssert
        | Some m =>
            let* r := m (impl p) in
            Ok (r.1, Pma (interface p) (initialized p) r.2)
        end
    end.

Definition pma_init_range (phys size : Z) : M (pma S) Z := fun p =>
  if negb (initialized p) then Ok (- EINVAL, p)
  else call (fun i => (fun f => f phys size) <$> pma_init_range_func i) p.

(** [id] says whether the caller passes a place for the identifier. *)
Definition pma_alloc_pages (num_pages : Z) (id : bool)
    : M (pma S) (Z * option Z) := fun p =>
  if negb (initialized p) then Ok ((0, None), p)
  else call (fun i => (fun f => f num_pages id) <$> pma_alloc_pages_func i) p.

Definition pma_free_pages (id phys num_pages : Z) : M (pma S) Z := fun p =>
  if negb (initialized p) then Ok (- EINVAL, p)
  else call (fun i => (fun f => f id phys num_pages) <$> pma_free_pages_func i) p.
End Interface.

(** ** pma_buddy.c *)

Definition PMA_NUM_ARENAS : Z := 5.

Record pma_buddy_arena : Type := PmaBuddyArena {
  arena : buddy_arena;
  lock : bool }.
Record pma_buddy : Type := PmaBuddy {
  arenas : list pma_buddy_arena;
  num_arenas_initialized : Z;
  num_arenas_lock : bool }.

Definition set_arena (i : nat) (x : pma_buddy_arena) (s : pma_buddy) : pma_buddy :=
  PmaBuddy (<[i := x]> (arenas s)) (num_arenas_initialized s) (num_arenas_lock s).

Definition lock_num_arenas : M pma_buddy unit := fun s =>
  if num_arenas_lock s then Fault FDeadlock
  else Ok (tt, PmaBuddy (arenas s) (num_arenas_initialized s) true).
Definition unlock_num_arenas : M pma_buddy unit := fun s =>
  if num_arenas_lock s
  then Ok (tt, PmaBuddy (arenas s) (num_arenas_initialized s) false)
  else Fault FUnlock.
Definition atomic32_inc : M pma_buddy unit := fun s =>
  Ok (tt, PmaBuddy (arenas s) (u32 (num_arenas_initialized s + 1)) (num_arenas_lock s)).

(** The lock of an arena, and an operation of the arena of an index. *)
Definition lock_arena (i : Z) : M pma_buddy unit := fun s =>
  match arenas s !! Z.to_nat i with
  | None => Fault FBounds
  | Some x =>
      if lock x then Fault FDeadlock
      else Ok (tt, set_arena (Z.to_nat i) (PmaBuddyArena (arena x) true) s)
  end.
Definition unlock_arena (i : Z) : M pma_buddy unit := fun s =>
  match arenas s !! Z.to_nat i with
  | None => Fault FBounds
  | Some x =>
      if lock x then Ok (tt, set_arena (Z.to_nat i) (PmaBuddyArena (arena x) false) s)
      else Fault FUnlock
  end.
Definition in_arena {A} (i : Z) (m : M buddy_arena A) : M pma_buddy A := fun s =>
  match arenas s !! Z.to_nat i with
  | None => Fault FBounds
  | Some x =>
      let* r := m (arena x) in
      Ok (r.1, set_arena (Z.to_nat i) (PmaBuddyArena r.2 (lock x)) s)
  end.

Definition pma_buddy_init_range (phys size : Z) : M pma_buddy Z :=
  lock_num_arenas ;;;
  num <~ mgets num_arenas_initialized ;;
  if num =? PMA_NUM_ARENAS then unlock_num_arenas ;;; ret (- ENOSPC)
  else
    r <~ in_arena num (buddy_arena_init phys size) ;;
    (if r =? 0 then atomic32_inc else ret tt) ;;;
    unlock_num_arenas ;;;
    ret r.

(** The loop over the arenas that are in use; the result has the identifier
    that is stored for the caller. *)
Fixpoint alloc_pages_loop (fuel : nat) (order num i : Z) (id : bool)
    : M pma_buddy (Z * option Z) :=
  match fuel with
  | O => mfault FFuel
  | S fuel =>
      if i <? num then
        lock_arena i ;;;
        can <~ in_arena i (__buddy_order_can_alloc order) ;;
        if negb can then
          unlock_arena i ;;; alloc_pages_loop fuel order num (u32 (i + 1)) id
        else
          r <~ in_arena i (__buddy_alloc order) ;;
          if r =? PMA_NULL then
            unlock_arena i ;;; alloc_pages_loop fuel order num (u32 (i + 1)) id
          else
            unlock_arena i ;;;
            ret (r, if id then Some i else None)
      else ret (PMA_NULL, None)
  end.

Definition pma_buddy_alloc_pages (num_pages : Z) (id : bool)
    : M pma_buddy (Z * option Z) := fun s =>
  let* order := __buddy_get_order num_pages in
  let num := num_arenas_initialized s in
  alloc_pages_loop (S (Z.to_nat num)) order num 0 id s.

Definition pma_buddy_free_pages (id phys num_pages : Z) : M pma_buddy Z := fun s =>
  if (id <? 0) || (num_arenas_initialized s <=? id) then Ok (- EINVAL, s)
  else
    let* order := __buddy_get_order num_pages in
    (lock_arena id ;;;
     in_arena id (__buddy_free phys order) ;;;
     unlock_arena id ;;;
     ret 0) s.

Definition buddy_interface : pma_interface pma_buddy :=
  PmaInterface (Some pma_buddy_init_range) (Some pma_buddy_alloc_pages)
    (Some pma_buddy_free_pages).

Definition pma_buddy_init : M (pma pma_buddy) unit :=
  pma_init (Some buddy_interface) ;;; ret tt.

(** ** The pool of arenas *)

(** What is known of an arena: where it starts, its pages, its free blocks. *)
Record ghost : Type := Ghost { g_base : Z; g_pages : Z; g_free : gset (Z * Z) }.

Definition ghost_inv (g : ghost) (a : buddy_arena) : Prop :=
  arena_inv (g_base g) (g_pages g) (g_free g) a.
Definition with_free (X : gset (Z * Z)) (g : ghost) : ghost :=
  Ghost (g_base g) (g_pages g) X.

Record pool_inv (gs : list ghost) (s : pma_buddy) : Prop := {
  pi_arenas : length (arenas s) = Z.to_nat PMA_NUM_ARENAS;
  pi_num : num_arenas_initialized s = Z.of_nat (length gs);
  pi_max : (length gs <= Z.to_nat PMA_NUM_ARENAS)%nat;
  pi_lock : num_arenas_lock s = false;
  pi_free : ∀ i x, arenas s !! i = Some x → lock x = false;
  pi_inv : ∀ i x g, arenas s !! i = Some x → gs !! i = Some g → ghost_inv g (arena x) }.

Lemma set_arena_lookup i j x s :
  (i < length (arenas s))%nat →
  arenas (set_arena i x s) !! j = if decide (j = i) then Some x else arenas s !! j.
Proof.
  intros Hi. simpl. case_decide as E.
  - subst. by apply list_lookup_insert_eq.
  - by apply list_lookup_insert_ne.
Qed.

Lemma set_arena_twice i x y s : set_arena i x (set_arena i y s) = set_arena i x s.
Proof. unfold set_arena. simpl. by rewrite list_insert_insert_eq. Qed.

Lemma set_arena_self i x s : arenas s !! i = Some x → set_arena i x s = s.
Proof. intros E. unfold set_arena. rewrite list_insert_id by done. by destruct s. Qed.

(** An operation on an arena under its lock, as all of them are run. *)
Lemma locked_wp {A} i (m : M buddy_arena A) {B} (k : A → M pma_buddy B) Q x s :
  0 <= i → arenas s !! Z.to_nat i = Some x → lock x = false →
  wp m (λ r a', wp (k r) Q (set_arena (Z.to_nat i) (PmaBuddyArena a' true) s)) (arena x) →
  wp (lock_arena i ;;; r <~ in_arena i m ;; k r) Q s.
Proof.
  intros Hi E Hl Hm. pose proof (lookup_lt_Some _ _ _ E) as Hlt.
  apply wp_bind. unfold wp at 1, lock_arena. rewrite E, Hl. apply wp_bind.
  unfold wp at 1, in_arena. rewrite set_arena_lookup, decide_True by done. cbn [arena].
  unfold wp in Hm at 1. destruct (m (arena x)) as [[r a']|]; [|done]. simpl.
  by rewrite set_arena_twice.
Qed.

Lemma in_locked_wp {A} i (m : M buddy_arena A) {B} (k : A → M pma_buddy B) Q a s :
  (Z.to_nat i < length (arenas s))%nat →
  wp m (λ r a', wp (k r) Q (set_arena (Z.to_nat i) (PmaBuddyArena a' true) s)) a →
  wp (r <~ in_arena i m ;; k r) Q (set_arena (Z.to_nat i) (PmaBuddyArena a true) s).
Proof.
  intros Hlt Hm. apply wp_bind. unfold wp at 1, in_arena.
  rewrite set_arena_lookup, decide_True by done. cbn [arena].
  unfold wp in Hm at 1. destruct (m a) as [[r a']|]; [|done]. simpl.
  by rewrite set_arena_twice.
Qed.

Lemma unlock_wp i {B} (k : M pma_buddy B) Q a s :
  (Z.to_nat i < length (arenas s))%nat →
  wp k Q (set_arena (Z.to_nat i) (PmaBuddyArena a false) s) →
  wp (unlock_arena i ;;; k) Q (set_arena (Z.to_nat i) (PmaBuddyArena a true) s).
Proof.
  intros Hlt Hk. apply wp_bind. unfold wp at 1, unlock_arena.
  rewrite set_arena_lookup, decide_True by done. cbn [arena lock].
  by rewrite set_arena_twice.
Qed.

Lemma pool_update gs s i x g X a :
  pool_inv gs s → arenas s !! i = Some x → gs !! i = Some g →
  arena_inv (g_base g) (g_pages g) X a →
  pool_inv (<[i := with_free X g]> gs) (set_arena i (PmaBuddyArena a false) s).
Proof.
  intros [H1 H2 H3 H4 H5 H6] Ex Eg HI. pose proof (lookup_lt_Some _ _ _ Ex) as Hlt.
  pose proof (lookup_lt_Some _ _ _ Eg) as Hg.
  split; simpl; rewrite ?length_insert; try done.
  - intros j y Hj. change (<[i := ?a]> (arenas s)) with (arenas (set_arena i a s)) in Hj.
    rewrite set_arena_lookup in Hj by done. case_decide; [by simplify_eq|by eapply H5].
  - intros j y h Hj Hh.
    change (<[i := ?a]> (arenas s)) with (arenas (set_arena i a s)) in Hj.
    rewrite set_arena_lookup in Hj by done. case_decide as E.
    + subst. rewrite list_lookup_insert_eq in Hh by done. by simplify_eq.
    + rewrite list_lookup_insert_ne in Hh by done. by eapply H6.
Qed.

Lemma pool_lookup gs s i g :
  pool_inv gs s → gs !! i = Some g →
  ∃ x, arenas s !! i = Some x ∧ lock x = false ∧ ghost_inv g (arena x).
Proof.
  intros [H1 H2 H3 H4 H5 H6] Eg. pose proof (lookup_lt_Some _ _ _ Eg) as Hg.
  destruct (lookup_lt_is_Some_2 (arenas s) i) as [x Ex]; [lia|].
  exists x. split; [done|]. split; [by eapply H5|by eapply H6].
Qed.

(** No aligned block of order [k] of the arena is free as a whole. *)
Definition exhausted (k : Z) (g : ghost) : Prop :=
  ∀ b, valid (k, b) → ¬ all_free (g_free g) (k, b).

(** What a request of order [k] may have done from the arena [i] on. *)
Definition pool_allocates (k : Z) (i : nat) (gs : list ghost) (r : Z) (oid : option Z)
    (gs' : list ghost) : Prop :=
  (r = PMA_NULL ∧ oid = None ∧ gs' = gs ∧
    ∀ j g, (i <= j)%nat → gs !! j = Some g → exhausted k g) ∨
  ∃ j g X, (i <= j)%nat ∧ gs !! j = Some g ∧ r ≠ PMA_NULL ∧
    (oid = None ∨ oid = Some (Z.of_nat j)) ∧
    allocates (g_base g) k r (g_free g) X ∧ gs' = <[j := with_free X g]> gs ∧
    ∀ j' g', (i <= j' < j)%nat → gs !! j' = Some g' → exhausted k g'.

Lemma pool_allocates_next k i g gs r oid gs' :
  gs !! i = Some g → exhausted k g →
  pool_allocates k (S i) gs r oid gs' → pool_allocates k i gs r oid gs'.
Proof.
  intros Hg Hex. assert (∀ j h, (i <= j)%nat → gs !! j = Some h →
    ((S i <= j)%nat → exhausted k h) → exhausted k h) as Hskip.
  { intros j h Hj Hh Hno. destruct (decide (j = i)) as [->|]; [by simplify_eq|].
    apply Hno. lia. }
  intros [(? & ? & ? & Hno)|(j & h & X & Hj & Hh & ? & ? & ? & ? & Hno)].
  - left. do 3 (split; [done|]). intros j h Hj Hh. eapply Hskip; eauto.
  - right. exists j, h, X. split; [lia|]. do 5 (split; [done|]).
    intros j' h' Hj' Hh'. eapply Hskip; [|done|]; [lia|]. intros Hs.
    by apply (Hno j'); [lia|].
Qed.

Definition request_post (k : Z) (id : bool) (i : nat) (gs : list ghost)
    (r : Z * option Z) (s' : pma_buddy) : Prop :=
  ∃ gs', pool_inv gs' s' ∧ pool_allocates k i gs r.1 r.2 gs' ∧
    (r.1 ≠ PMA_NULL → is_Some r.2 ↔ id = true).

(** The arena [i], when it has a free block. *)
Lemma alloc_here k (id : bool) gs i g x s :
  pool_inv gs s → 0 <= k → gs !! i = Some g → arenas s !! i = Some x →
  ghost_inv g (arena x) → (∃ b, valid (k, b) ∧ all_free (g_free g) (k, b)) →
  ∀ next,
  wp (r <~ in_arena (Z.of_nat i) (__buddy_alloc k) ;;
      if r =? PMA_NULL then unlock_arena (Z.of_nat i) ;;; next
      else unlock_arena (Z.of_nat i) ;;; ret (r, if id then Some (Z.of_nat i) else None))
     (request_post k id i gs)
     (set_arena (Z.to_nat (Z.of_nat i)) (PmaBuddyArena (arena x) true) s).
Proof.
  intros HP Hk Hg Hx HI (b & Hv & Hall) next. pose proof (lookup_lt_Some _ _ _ Hx) as Hlen.
  apply in_locked_wp; [lia|]. eapply wp_mono; [by eapply buddy_alloc_wp|].
  simpl. intros r a' (X & HI' & Hal). destruct (Z.eqb_spec r PMA_NULL) as [->|Hr].
  { exfalso. destruct Hal as [(_ & _ & Hno)|(b' & _ & ? & _)]; [by apply (Hno b)|done]. }
  apply unlock_wp; [lia|]. rewrite Nat2Z.id. apply wp_ret.
  exists (<[i := with_free X g]> gs). split; [by eapply pool_update|]. split; simpl.
  - right. exists i, g, X. split; [lia|]. split; [done|]. split; [done|].
    split; [destruct id; auto|]. do 2 (split; [done|]). intros; lia.
  - intros _. destruct id; [by split; eauto|]. split; [by intros [? ?]|done].
Qed.

Lemma alloc_pages_loop_ok fuel k id gs i s :
  pool_inv gs s → 0 <= k → (i <= length gs)%nat → (length gs - i < fuel)%nat →
  wp (alloc_pages_loop fuel k (Z.of_nat (length gs)) (Z.of_nat i) id)
     (request_post k id i gs) s.
Proof.
  revert i. induction fuel as [|fuel IH]; intros i HP Hk Hi Hf; [lia|].
  cbn [alloc_pages_loop]. destruct (Z.ltb_spec (Z.of_nat i) (Z.of_nat (length gs))) as [Hlt|Hge].
  2: { apply wp_ret. exists gs. split; [done|]. split; [|done]. left.
       do 3 (split; [done|]). intros j g Hj Hg.
       apply lookup_lt_Some in Hg. lia. }
  destruct (lookup_lt_is_Some_2 gs i) as [g Hg]; [lia|].
  destruct (pool_lookup gs s i g HP Hg) as (x & Hx & Hl & HI).
  pose proof (lookup_lt_Some _ _ _ Hx) as Hlen.
  apply (locked_wp _ _ _ _ x); [lia|by rewrite Nat2Z.id|done|].
  eapply wp_mono; [by eapply can_alloc_wp|]. simpl. intros can a' [-> Hcan].
  destruct can; cbn [negb]; [by eapply alloc_here|].
  apply unlock_wp; [lia|]. rewrite Nat2Z.id.
  rewrite set_arena_self by (rewrite Hx, <- Hl; by destruct x).
  assert (u32 (Z.of_nat i + 1) = Z.of_nat (S i)) as ->.
  { unfold u32. rewrite wrap_small; [lia|]. pose proof (pi_max _ _ HP) as Hmax.
    change (Z.to_nat PMA_NUM_ARENAS) with 5%nat in Hmax. lia. }
  eapply wp_mono; [apply IH; [done|done|lia|lia]|].
  intros r s' (gs' & HP' & Hal & Hid). exists gs'. split; [done|]. split; [|done].
  by eapply pool_allocates_next.
Qed.

Lemma pma_buddy_alloc_ok num id gs s :
  pool_inv gs s → 0 <= num < 2 ^ 32 →
  wp (pma_buddy_alloc_pages num id) (request_post (Z.log2_up num) id 0 gs) s.
Proof.
  intros HP Hn. unfold wp, pma_buddy_alloc_pages. rewrite get_order_run by done.
  cbn [rbind]. rewrite (pi_num _ _ HP), Nat2Z.id.
  apply (alloc_pages_loop_ok _ _ id gs 0 s HP); [apply Z.log2_up_nonneg|lia|lia].
Qed.

(** Freeing a block in use in the arena [i]. *)
Lemma pma_buddy_free_ok num gs i g b s :
  pool_inv gs s → 0 <= num < 2 ^ 32 → gs !! i = Some g →
  in_use (g_free g) (Z.log2_up num, b) → fits (g_pages g) (Z.log2_up num, b) →
  wp (pma_buddy_free_pages (Z.of_nat i) (block_addr (g_base g) (Z.log2_up num) b) num)
     (λ r s', r = 0 ∧ ∃ X, pool_inv (<[i := with_free X g]> gs) s' ∧
        ∀ p, free_page X p ↔ free_page (g_free g) p ∨ in_block p (Z.log2_up num, b)) s.
Proof.
  intros HP Hn Hg Hu Hf. pose proof (lookup_lt_Some _ _ _ Hg) as Hlt.
  destruct (pool_lookup gs s i g HP Hg) as (x & Hx & Hl & HI).
  unfold wp, pma_buddy_free_pages. rewrite (pi_num _ _ HP).
  rewrite (proj2 (Z.ltb_ge _ 0)), (proj2 (Z.leb_gt _ (Z.of_nat i))) by lia. cbn [orb].
  rewrite get_order_run by done. cbn [rbind].
  apply (locked_wp (Z.of_nat i) _ _ _ x); [lia|by rewrite Nat2Z.id|done|].
  eapply wp_mono; [by eapply buddy_free_wp|]. simpl. intros [] a' (X & HI' & Hp).
  apply unlock_wp; [apply lookup_lt_Some in Hx; lia|]. rewrite Nat2Z.id. apply wp_ret.
  split; [done|]. exists X. split; [by eapply pool_update|done].
Qed.

(** ** What the interface promises *)

(** The kernel's allocator once the buddy allocator has registered itself. *)
Definition serving (gs : list ghost) (p : pma pma_buddy) : Prop :=
  interface p = Some buddy_interface ∧ initialized p = true ∧ pool_inv gs (impl p).

Lemma call_wp {A} (f : pma_interface pma_buddy → option (M pma_buddy A)) m Q p :
  interface p = Some buddy_interface → f buddy_interface = Some m →
  wp m (λ r s, Q r (Pma (Some buddy_interface) (initialized p) s)) (impl p) →
  wp (call f) Q p.
Proof.
  unfold wp, call. intros -> ->. by destruct (m (impl p)) as [[r s]|].
Qed.

Lemma pma_alloc_pages_wp num id gs p :
  serving gs p → 0 <= num < 2 ^ 32 →
  wp (pma_alloc_pages num id) (λ r p', ∃ gs', serving gs' p' ∧
    pool_allocates (Z.log2_up num) 0 gs r.1 r.2 gs' ∧
    (r.1 ≠ PMA_NULL → is_Some r.2 ↔ id = true)) p.
Proof.
  intros (Hi & Hn & HP) Hnum. unfold wp, pma_alloc_pages. rewrite Hn. cbn [negb].
  eapply call_wp; [done|done|]. eapply wp_mono; [by apply pma_buddy_alloc_ok|].
  intros r s (gs' & ? & ? & ?). by exists gs'.
Qed.

(** C40. The kernel's page allocator, once it is set up, with its arenas in order
    and its locks free: a request for pages, of any 32-bit number,
    is served by the first arena that has an aligned block of enough pages free
    as a whole; the pages given were free and are not any more, the identifier
    returned is that of the arena, and every other arena is untouched.  It is
    refused, and nothing changes, only if no arena has such a block.  No lock
    is left held. *)
Theorem pma_alloc_pages_serves num id gs p :
  serving gs p → 0 <= num < 2 ^ 32 →
  ∃ r oid p' gs', pma_alloc_pages num id p = Ok ((r, oid), p') ∧ serving gs' p' ∧
    num <= 2 ^ Z.log2_up num ∧
    pool_allocates (Z.log2_up num) 0 gs r oid gs' ∧
    (r ≠ PMA_NULL → is_Some oid ↔ id = true).
Proof.
  intros Hp Hn.
  destruct (proj1 (wp_run _ _ _) (pma_alloc_pages_wp num id gs p Hp Hn))
    as ([r oid] & p' & E & gs' & ? & ? & ?).
  exists r, oid, p', gs'. do 2 (split; [done|]). split; [|done].
  destruct (decide (num <= 1)); [|apply Z.log2_up_spec; lia].
  rewrite Z.log2_up_eqn0 by done. done.
Qed.

(** Pages that are freed with the identifier and the number they were
    allocated with restore every arena to what it was. *)
Theorem pma_pages_round_trip num gs p r i p1 :
  serving gs p → 0 <= num < 2 ^ 32 →
  pma_alloc_pages num true p = Ok ((r, Some i), p1) → r ≠ PMA_NULL →
  ∃ p2, pma_free_pages i r num p1 = Ok (0, p2) ∧ serving gs p2.
Proof.
  intros Hp Hn E Hr.
  destruct (proj1 (wp_run _ _ _) (pma_alloc_pages_wp num true gs p Hp Hn))
    as ([r' oid] & p' & E' & gs' & (Hi1 & Hn1 & HP1) & Hal & _).
  rewrite E in E'. injection E' as <- <- <-. cbn [fst snd] in Hal.
  destruct Hal as [[? _]|(j & g & X & _ & Hg & _ & Hid & Hal & -> & _)]; [done|].
  destruct Hid as [?|[= ->]]; [done|].
  destruct Hal as [[? _]|(b & -> & _ & Hall & Hu & Hpages)]; [done|].
  pose proof (lookup_lt_Some _ _ _ Hg) as Hlt. destruct Hp as (_ & _ & HP).
  destruct (pool_lookup gs (impl p) j g HP Hg) as (x & _ & _ & HI).
  assert (wp (pma_free_pages (Z.of_nat j) (block_addr (g_base g) (Z.log2_up num) b) num)
            (λ r p2, r = 0 ∧ serving gs p2) p1) as Hw.
  { unfold wp, pma_free_pages. rewrite Hn1. cbn [negb].
    eapply call_wp; [done|done|].
    eapply wp_mono; [eapply (pma_buddy_free_ok num _ j (with_free X g) b);
      [exact HP1|done|by apply list_lookup_insert_eq|done|]|].
    - intros q Hq. by apply (ai_fits _ _ _ _ HI), Hall.
    - simpl. intros r s (-> & Y & HP2 & HY). split; [done|]. split; [done|]. split; [done|].
      rewrite list_insert_insert_eq in HP2. unfold with_free in HP2. simpl in HP2.
      assert (Y = g_free g) as ->.
      { destruct (pool_lookup _ s j (Ghost (g_base g) (g_pages g) Y) HP2)
          as (y & _ & _ & HIy); [by apply list_lookup_insert_eq|].
        apply canonical_unique; [apply HIy|apply HI|]. intros q. by rewrite HY, Hpages. }
      rewrite list_insert_id in HP2; [done|]. by destruct g. }
  destruct (proj1 (wp_run _ _ _) Hw) as (z & p2 & E2 & -> & ?). by exists p2.
Qed.

(** *** A range becomes an arena *)

Definition range_ok (base size : Z) : Prop :=
  0 < base ∧ base + 2 ^ 21 <= 2 ^ 64 ∧ 0 <= size < 2 ^ 64 ∧
  p2align_up base (2 ^ 21) - base <= size ∧ 1 <= range_pages base size ∧
  p2align_up base (2 ^ 21) + 2 ^ Z.log2_up (range_pages base size) * 2 ^ 21 <= 2 ^ 64.
Definition new_ghost (base size : Z) : ghost :=
  Ghost (p2align_up base (2 ^ 21)) (2 ^ Z.log2_up (range_pages base size))
    {[(Z.log2_up (range_pages base size), 0)]}.

Lemma pool_snoc gs s g a x :
  pool_inv gs s → (length gs < Z.to_nat PMA_NUM_ARENAS)%nat →
  arenas s !! length gs = Some x → ghost_inv g a →
  pool_inv (gs ++ [g])
    (PmaBuddy (<[length gs := PmaBuddyArena a (lock x)]> (arenas s))
       (u32 (num_arenas_initialized s + 1)) false).
Proof.
  intros [H1 H2 H3 H4 H5 H6] Hlt Hx HI. change (Z.to_nat PMA_NUM_ARENAS) with 5%nat in *.
  pose proof (lookup_lt_Some _ _ _ Hx) as Hxl.
  split; simpl; rewrite ?length_insert, ?length_app; simpl; try done.
  - unfold u32. rewrite wrap_small; lia.
  - change (Z.to_nat PMA_NUM_ARENAS) with 5%nat. lia.
  - intros i y Hi. apply list_lookup_insert_Some in Hi as [(_ & Ey & _)|[_ Hi]];
      [rewrite <- Ey; by eapply (H5 _ x)|by eapply H5].
  - intros i y h Hi Hh. apply list_lookup_insert_Some in Hi as [(Ei & <- & _)|[Hne Hi]].
    + subst i. rewrite lookup_app_r, Nat.sub_diag in Hh by lia. by injection Hh as <-.
    + apply lookup_snoc_Some in Hh as [[_ Hh]|[-> _]]; [by eapply H6|done].
Qed.

Lemma pma_init_range_room base size gs p :
  serving gs p → range_ok base size → (length gs < 5)%nat →
  ∃ p', pma_init_range base size p = Ok (0, p') ∧
        serving (gs ++ [new_ghost base size]) p'.
Proof.
  intros (Hi & Hn & HP) (H1 & H2 & H3 & H4 & H5 & H6) Hlt.
  destruct p as [i n s]. simpl in Hi, Hn, HP. subst i n.
  unfold pma_init_range, call. cbn [negb initialized interface impl].
  simpl fmap. unfold pma_buddy_init_range, lock_num_arenas, bind, mgets.
  rewrite (pi_lock _ _ HP). cbn [num_arenas_initialized]. rewrite (pi_num _ _ HP).
  rewrite (proj2 (Z.eqb_neq _ PMA_NUM_ARENAS)) by (change PMA_NUM_ARENAS with 5; lia).
  destruct (lookup_lt_is_Some_2 (arenas s) (length gs)) as [x Hx].
  { rewrite (pi_arenas _ _ HP). change (Z.to_nat PMA_NUM_ARENAS) with 5%nat. lia. }
  unfold in_arena. cbn [arenas]. rewrite Nat2Z.id, Hx.
  destruct (proj1 (wp_run _ _ _) (buddy_arena_init_run (arena x) base size H1 H2 H3 H4 H5 H6))
    as (r & a' & -> & -> & HI).
  eexists. split; [done|]. split; [done|]. split; [done|].
  pose proof (pool_snoc gs s (new_ghost base size) a' x HP) as Hs.
  rewrite (pi_num _ _ HP) in Hs. apply Hs; [|done|exact HI].
  change (Z.to_nat PMA_NUM_ARENAS) with 5%nat. lia.
Qed.

Lemma pma_init_range_full base size gs p :
  serving gs p → length gs = 5%nat → pma_init_range base size p = Ok (- ENOSPC, p).
Proof.
  intros (Hi & Hn & HP) E. destruct p as [i n s]. simpl in Hi, Hn, HP. subst i n.
  destruct s as [l m b]. pose proof (pi_num _ _ HP) as En.
  pose proof (pi_lock _ _ HP) as El. simpl in En, El. rewrite E in En. by subst m b.
Qed.

(** A range of memory becomes one more arena, as one free block, as long as
    there is room for it; the sixth range is refused with ENOSPC and nothing
    changes. *)
Theorem pma_init_range_adds base size gs p :
  serving gs p → range_ok base size →
  if decide (length gs = 5%nat) then pma_init_range base size p = Ok (- ENOSPC, p)
  else ∃ p', pma_init_range base size p = Ok (0, p') ∧
         serving (gs ++ [new_ghost base size]) p'.
Proof.
  intros Hp Hr. case_decide as E; [by eapply pma_init_range_full|].
  apply pma_init_range_room; [done|done|]. destruct Hp as (_ & _ & HP).
  pose proof (pi_max _ _ HP) as Hmax. change (Z.to_nat PMA_NUM_ARENAS) with 5%nat in Hmax. lia.
Qed.

(** *** A concrete pool *)

(** One range of 12 GB. *)
Definition ex_pma0 : pma pma_buddy :=
  Pma (Some buddy_interface) true
    (PmaBuddy (replicate 5 (PmaBuddyArena (BuddyArena 0 (bm_zero 0) (bm_zero 0)) false))
       0 false).
Definition ex_pma : pma pma_buddy :=
  match pma_init_range 0x200000 0x300000000 ex_pma0 with
  | Ok (_, p) => p
  | Fault _ => ex_pma0
  end.

Lemma ex_pma0_serving : serving [] ex_pma0.
Proof.
  split; [done|]. split; [done|]. split; [done|done|simpl; lia|done| |done].
  intros i x Hi. apply lookup_replicate in Hi as [-> _]. done.
Qed.

Lemma ex_range : range_ok 0x200000 0x300000000.
Proof.
  do 3 (split; [lia|]). do 2 (split; [vm_compute; discriminate|]).
  vm_compute. discriminate.
Qed.

Lemma ex_pma_serving : serving [new_ghost 0x200000 0x300000000] ex_pma.
Proof.
  destruct (pma_init_range_room _ _ _ _ ex_pma0_serving ex_range) as (p' & E & HS);
    [simpl; lia|]. unfold ex_pma. rewrite E. exact HS.
Qed.

Lemma pma_init_range_adds_witness :
  serving [] ex_pma0 ∧ range_ok 0x200000 0x300000000 ∧
  ∃ p', pma_init_range 0x200000 0x300000000 ex_pma0 = Ok (0, p') ∧
    serving [new_ghost 0x200000 0x300000000] p'.
Proof.
  split; [exact ex_pma0_serving|]. split; [exact ex_range|].
  pose proof (pma_init_range_adds 0x200000 0x300000000 [] ex_pma0 ex_pma0_serving ex_range)
    as H.
  rewrite decide_False in H by done. exact H.
Defined.

Lemma pma_alloc_pages_serves_witness :
  serving [new_ghost 0x200000 0x300000000] ex_pma ∧
  ∃ r oid p' gs', pma_alloc_pages (2 ^ 12) true ex_pma = Ok ((r, oid), p') ∧
    serving gs' p' ∧ 2 ^ 12 <= 2 ^ Z.log2_up (2 ^ 12) ∧
    pool_allocates (Z.log2_up (2 ^ 12)) 0 [new_ghost 0x200000 0x300000000] r oid gs' ∧
    (r ≠ PMA_NULL → is_Some oid ↔ true = true).
Proof.
  split; [exact ex_pma_serving|].
  apply (pma_alloc_pages_serves (2 ^ 12) true _ ex_pma ex_pma_serving). lia.
Defined.

Lemma pma_pages_round_trip_witness :
  ∃ p1 p2, pma_alloc_pages (2 ^ 12) true ex_pma = Ok ((0x200000, Some 0), p1) ∧
    pma_free_pages 0 0x200000 (2 ^ 12) p1 = Ok (0, p2) ∧
    serving [new_ghost 0x200000 0x300000000] p2.
Proof.
  assert (match pma_alloc_pages (2 ^ 12) true ex_pma with
          | Ok (x, _) => x = (0x200000, Some 0)
          | Fault _ => False
          end) as Hx by (vm_compute; reflexivity).
  destruct (pma_alloc_pages (2 ^ 12) true ex_pma) as [[x p1]|f] eqn:E; [|destruct Hx].
  subst x.
  destruct (pma_pages_round_trip (2 ^ 12) _ ex_pma 0x200000 0 p1 ex_pma_serving
    ltac:(lia) E ltac:(discriminate)) as (p2 & E2 & HS).
  exists p1, p2. exact (conj eq_refl (conj E2 HS)).
Defined.
