(* ===== verification/Tlsf.v ===== *)
(** * Tlsf: the two-level segregated fit allocator (src/lib/tlsf_alloc.c)

    The allocator serves the kernel's run-time allocations (rtalloc_tlsf.c).
    Its headers lie in the memory that it hands out, which is a byte memory
    here; the free blocks are in doubly linked lists, one for each class of
    sizes, with two levels of bitmaps that say which lists are not empty. *)

From S2P Require Import Prelude Std Mem.
From Stdlib Require Import ZArith Lia Bool.
From stdpp Require Import base gmap list numbers.

Local Open Scope Z_scope.

(** ** tlsf_alloc.h *)

(** [PAGE_SHIFT_2MB + 6]. *)
Definition TLSF_FL_SHIFT : Z := 27.
Definition TLSF_SL_SHIFT : Z := 5.
Definition TLSF_FL_COUNT : Z := 28.
Definition TLSF_SL_COUNT : Z := 32.
Definition TLSF_BLOCK_MIN : Z := 16.
Definition TLSF_ALIGNMENT : Z := 8.
Definition TLSF_MAX_ALLOC : Z := 2 ^ TLSF_FL_SHIFT.

(** [struct tlsf_block]: four words at the address of the block. *)
Definition sizeof_tlsf_block : Z := 32.
Definition off_size : Z := 0.
Definition off_prev_phys : Z := 8.
Definition off_prev_free : Z := 16.
Definition off_next_free : Z := 24.

(** [struct tlsf] without its lock, which the callers of these routines hold. *)
Record tlsf := Tlsf {
  fl_bitmap : Z;
  sl_bitmaps : list Z;
  blocks : list (list Z);
  heap_start : Z;
  heap_end : Z;
  heap_size : Z;
}.

(** [struct aligned_block]: two words below an aligned address. *)
Definition sizeof_aligned_block : Z := 16.
Definition off_original_ptr : Z := 0.
Definition off_aligned_size : Z := 8.

(** The allocator and the memory. *)
Record arena := Arena { ctl : tlsf; heap : mem }.
Definition with_heap (m : mem) (s : arena) : arena := Arena (ctl s) m.
Definition with_ctl (f : tlsf → tlsf) (s : arena) : arena := Arena (f (ctl s)) (heap s).
Abbreviation T := (M arena).

Definition rd (a : Z) : T Z := fun s =>
  match load64 (heap s) a with Ok v => Ok (v, s) | Fault f => Fault f end.
Definition wr (a v : Z) : T unit := fun s =>
  match store64 (heap s) a v with Ok m => Ok (tt, with_heap m s) | Fault f => Fault f end.
Definition lift {A} (r : res A) : T A := fun s =>
  match r with Ok a => Ok (a, s) | Fault f => Fault f end.
(** An element of an array. *)
Definition at_index {A} (l : list A) (i : Z) : T A :=
  lift (match l !! Z.to_nat i with Some x => if i <? 0 then Fault FBounds else Ok x | None => Fault FBounds end).

Definition field (block off : Z) : Z := u64 (block + off).
Definition TLSF_BLOCK_FREE_MASK : Z := 1.
Definition TLSF_PREV_PHYS_FREE_MASK : Z := 2.
Definition TLSF_SIZE_RESERVED_MASK : Z := Z.lor TLSF_BLOCK_FREE_MASK TLSF_PREV_PHYS_FREE_MASK.

Definition tlsf_align_up (x : Z) : Z := p2align_up x TLSF_ALIGNMENT.

Definition tlsf_get_block_size (block : Z) : T Z :=
  v <~ rd (field block off_size) ;; ret (Z.land v (cnot 64 TLSF_SIZE_RESERVED_MASK)).
Definition tlsf_set_block_size (block new_size : Z) : T unit :=
  v <~ rd (field block off_size) ;;
  wr (field block off_size)
    (Z.lor (Z.land new_size (cnot 64 TLSF_SIZE_RESERVED_MASK)) (Z.land v TLSF_SIZE_RESERVED_MASK)).
Definition tlsf_block_is_free (block : Z) : T bool :=
  v <~ rd (field block off_size) ;; ret (negb (Z.land v TLSF_BLOCK_FREE_MASK =? 0)).
Definition tlsf_prev_is_free (block : Z) : T bool :=
  v <~ rd (field block off_size) ;; ret (negb (Z.land v TLSF_PREV_PHYS_FREE_MASK =? 0)).
Definition tlsf_set_block_free (block : Z) : T unit :=
  v <~ rd (field block off_size) ;; wr (field block off_size) (Z.lor v TLSF_BLOCK_FREE_MASK).
Definition tlsf_unset_block_free (block : Z) : T unit :=
  v <~ rd (field block off_size) ;; wr (field block off_size) (Z.land v (cnot 64 TLSF_BLOCK_FREE_MASK)).
Definition tlsf_set_prev_phys_free (block : Z) : T unit :=
  v <~ rd (field block off_size) ;; wr (field block off_size) (Z.lor v TLSF_PREV_PHYS_FREE_MASK).
Definition tlsf_unset_prev_phys_free (block : Z) : T unit :=
  v <~ rd (field block off_size) ;; wr (field block off_size) (Z.land v (cnot 64 TLSF_PREV_PHYS_FREE_MASK)).

Definition tlsf_block_to_ptr (block : Z) : Z := u64 (block + sizeof_tlsf_block).
Definition tlsf_ptr_to_block (addr : Z) : Z := u64 (addr - sizeof_tlsf_block).
Definition tlsf_next_block (block : Z) : T Z :=
  size <~ tlsf_get_block_size block ;; ret (u64 (block + sizeof_tlsf_block + size)).
Definition set_prev_phys (block v : Z) : T unit := wr (field block off_prev_phys) v.
Definition set_prev_free (block v : Z) : T unit := wr (field block off_prev_free) v.
Definition set_next_free (block v : Z) : T unit := wr (field block off_next_free) v.

(** ** Helpers *)

(** The class of a size.  [fls32] takes the low half of the size; a shift by
    the width of the word or more has no meaning in C and is a fault. *)
Definition __tlsf_map (size : Z) : res (Z * Z) :=
  if size <? TLSF_SL_COUNT then Ok (0, size) else
  let fli := u32 (fls32 (u32 size)) in
  let shift := u32 (fli - TLSF_SL_SHIFT) in
  if 64 <=? shift then Fault FBounds else
  let sli := Z.land (Z.shiftr size shift) (TLSF_SL_COUNT - 1) in
  let '(fli, sli) :=
    if negb (Z.land size (Z.shiftl 1 shift - 1) =? 0) then
      let sli := sli + 1 in
      if TLSF_SL_COUNT <=? sli then (fli + 1, 0) else (fli, sli)
    else (fli, sli) in
  Ok (if TLSF_FL_SHIFT <? fli then TLSF_FL_SHIFT else fli, sli).
Definition tlsf_map_search (size : Z) : T (Z * Z) := lift (__tlsf_map size).
Definition tlsf_map_insert (size : Z) : T (Z * Z) := lift (__tlsf_map size).

Definition with_fl (fl : Z) : arena → arena := with_ctl (fun t =>
  Tlsf fl (sl_bitmaps t) (blocks t) (heap_start t) (heap_end t) (heap_size t)).
Definition with_sl (fli sl : Z) : arena → arena := with_ctl (fun t =>
  Tlsf (fl_bitmap t) (<[Z.to_nat fli := sl]> (sl_bitmaps t)) (blocks t) (heap_start t) (heap_end t) (heap_size t)).
Definition with_head (fli sli block : Z) : arena → arena := with_ctl (fun t =>
  Tlsf (fl_bitmap t) (sl_bitmaps t) (alter <[Z.to_nat sli := block]> (Z.to_nat fli) (blocks t))
    (heap_start t) (heap_end t) (heap_size t)).
Definition with_bounds (start hend size : Z) : arena → arena := with_ctl (fun t =>
  Tlsf (fl_bitmap t) (sl_bitmaps t) (blocks t) start hend size).

Definition get_head (fli sli : Z) : T Z :=
  s <~ mget ;; row <~ at_index (blocks (ctl s)) fli ;; at_index row sli.
Definition set_head (fli sli block : Z) : T unit :=
  get_head fli sli ;;; mmodify (with_head fli sli block).
Definition get_sl (fli : Z) : T Z := s <~ mget ;; at_index (sl_bitmaps (ctl s)) fli.
Definition set_sl (fli v : Z) : T unit := get_sl fli ;;; mmodify (with_sl fli v).

Definition __tlsf_remove_free_block (block fli sli : Z) : T unit :=
  prev_free <~ rd (field block off_prev_free) ;;
  next_free <~ rd (field block off_next_free) ;;
  (if prev_free =? 0 then ret tt else set_next_free prev_free next_free) ;;;
  (if next_free =? 0 then ret tt else set_prev_free next_free prev_free) ;;;
  head <~ get_head fli sli ;;
  if head =? block then
    set_head fli sli next_free ;;;
    if next_free =? 0 then
      sl <~ get_sl fli ;;
      set_sl fli (Z.land sl (cnot 32 (Z.shiftl 1 sli))) ;;;
      sl <~ get_sl fli ;;
      if sl =? 0 then mmodify (fun s => with_fl (Z.land (fl_bitmap (ctl s)) (cnot 32 (Z.shiftl 1 fli))) s)
      else ret tt
    else ret tt
  else ret tt.

Definition __tlsf_insert_free_block (block fli sli : Z) : T unit :=
  cur <~ get_head fli sli ;;
  set_next_free block cur ;;;
  set_prev_free block 0 ;;;
  (if cur =? 0 then ret tt else set_prev_free cur block) ;;;
  set_head fli sli block ;;;
  mmodify (fun s => with_fl (Z.lor (fl_bitmap (ctl s)) (Z.shiftl 1 fli)) s) ;;;
  sl <~ get_sl fli ;;
  set_sl fli (Z.lor sl (Z.shiftl 1 sli)).

(** The block found, 0 for none, and its class. *)
Definition __tlsf_search_suitable_block (fli sli : Z) : T (Z * Z * Z) :=
  sl <~ get_sl fli ;;
  let available_sl_bins := Z.land sl (u32 (Z.shiftl (cnot 32 0) sli)) in
  if available_sl_bins =? 0 then
    s <~ mget ;;
    let available_fl_bins := Z.land (fl_bitmap (ctl s)) (u32 (Z.shiftl (cnot 32 0) (fli + 1))) in
    if available_fl_bins =? 0 then ret (0, fli, sli) else
    let fli := ffs32 available_fl_bins in
    available_sl_bins <~ get_sl fli ;;
    let sli := ffs32 available_sl_bins in
    block <~ get_head fli sli ;; ret (block, fli, sli)
  else
    let sli := ffs32 available_sl_bins in
    block <~ get_head fli sli ;; ret (block, fli, sli).

(** [next < heap_end] *)
Definition in_heap_before_end (block : Z) : T bool := s <~ mget ;; ret (block <? heap_end (ctl s)).

Definition __tlsf_merge_prev (block : Z) : T Z :=
  is_free <~ tlsf_prev_is_free block ;;
  if negb is_free then ret block else
  prev <~ rd (field block off_prev_phys) ;;
  prev_size <~ tlsf_get_block_size prev ;;
  bin <~ tlsf_map_insert prev_size ;; let '(fli, sli) := bin in
  __tlsf_remove_free_block prev fli sli ;;;
  block_size <~ tlsf_get_block_size block ;;
  let new_size := u64 (prev_size + sizeof_tlsf_block + block_size) in
  tlsf_set_block_size prev new_size ;;;
  next <~ tlsf_next_block block ;;
  inside <~ in_heap_before_end next ;;
  (if inside then set_prev_phys next prev else ret tt) ;;;
  ret prev.

Definition __tlsf_merge_next (block : Z) : T Z :=
  next <~ tlsf_next_block block ;;
  inside <~ in_heap_before_end next ;;
  is_free <~ (if inside then tlsf_block_is_free next else ret false) ;;
  (if is_free then
     next_size <~ tlsf_get_block_size next ;;
     bin <~ tlsf_map_insert next_size ;; let '(fli, sli) := bin in
     __tlsf_remove_free_block next fli sli ;;;
     block_size <~ tlsf_get_block_size block ;;
     let new_size := u64 (block_size + next_size + sizeof_tlsf_block) in
     tlsf_set_block_size block new_size ;;;
     next_next <~ tlsf_next_block next ;;
     inside <~ in_heap_before_end next_next ;;
     if inside then set_prev_phys next_next block else ret tt
   else ret tt) ;;;
  ret block.

Definition __tlsf_mark_free (block : Z) : T unit :=
  tlsf_set_block_free block ;;;
  next <~ tlsf_next_block block ;;
  inside <~ in_heap_before_end next ;;
  if inside then tlsf_set_prev_phys_free next else ret tt.

Definition __tlsf_unmark_free (block : Z) : T unit :=
  tlsf_unset_block_free block ;;;
  next <~ tlsf_next_block block ;;
  inside <~ in_heap_before_end next ;;
  if inside then tlsf_unset_prev_phys_free next else ret tt.

Definition __tlsf_try_carve (block size : Z) : T bool :=
  merged_size <~ tlsf_get_block_size block ;;
  if merged_size <? u64 (size + sizeof_tlsf_block + TLSF_BLOCK_MIN) then ret false else
  let cutout := u64 (tlsf_block_to_ptr block + size) in
  let cutout_size := u64 (merged_size - size - sizeof_tlsf_block) in
  tlsf_set_block_size cutout cutout_size ;;;
  tlsf_set_block_free cutout ;;;
  tlsf_unset_prev_phys_free cutout ;;;
  set_prev_phys cutout block ;;;
  tlsf_set_block_size block size ;;;
  cutout_next <~ tlsf_next_block cutout ;;
  inside <~ in_heap_before_end cutout_next ;;
  (if inside then set_prev_phys cutout_next cutout else ret tt) ;;;
  bin <~ tlsf_map_insert cutout_size ;; let '(fli, sli) := bin in
  __tlsf_insert_free_block cutout fli sli ;;;
  ret true.

(** ** The interface *)

Definition __tlsf_init (start size : Z) : T Z :=
  if (start =? 0) || (size <? TLSF_BLOCK_MIN + sizeof_tlsf_block) then ret (- EINVAL) else
  let heap_start_aligned := tlsf_align_up start in
  if size <=? u64 (heap_start_aligned - start) then ret (- EINVAL) else
  let heap_size_adjusted := u64 (size - u64 (heap_start_aligned - start)) in
  mmodify (with_bounds heap_start_aligned (u64 (heap_start_aligned + heap_size_adjusted)) heap_size_adjusted) ;;;
  let init_block := heap_start_aligned in
  let block_size := u64 (heap_size_adjusted - sizeof_tlsf_block) in
  tlsf_set_block_size init_block block_size ;;;
  tlsf_set_block_free init_block ;;;
  set_prev_phys init_block 0 ;;;
  set_prev_free init_block 0 ;;;
  set_next_free init_block 0 ;;;
  bin <~ tlsf_map_insert block_size ;; let '(fli, sli) := bin in
  __tlsf_insert_free_block init_block fli sli ;;;
  ret 0.

(** The least size of a block. *)
Definition block_size_for (size : Z) : Z :=
  let size := tlsf_align_up size in
  if size <? TLSF_BLOCK_MIN then TLSF_BLOCK_MIN else size.

Definition __tlsf_alloc (size : Z) : T Z :=
  if (size =? 0) || (TLSF_MAX_ALLOC <? size) then ret 0 else
  let size := block_size_for size in
  bin <~ tlsf_map_search size ;; let '(fli, sli) := bin in
  found <~ __tlsf_search_suitable_block fli sli ;; let '(block, fli, sli) := found in
  if block =? 0 then ret 0 else
  block_size <~ tlsf_get_block_size block ;;
  if block_size <? size then ret 0 else
  __tlsf_remove_free_block block fli sli ;;;
  (if u64 (size + sizeof_tlsf_block + TLSF_BLOCK_MIN) <=? block_size then
     let cutout := u64 (tlsf_block_to_ptr block + size) in
     let cutout_size := u64 (block_size - size - sizeof_tlsf_block) in
     tlsf_set_block_size cutout cutout_size ;;;
     tlsf_set_block_free cutout ;;;
     set_prev_phys cutout block ;;;
     tlsf_set_block_size block size ;;;
     cutout_next <~ tlsf_next_block cutout ;;
     inside <~ in_heap_before_end cutout_next ;;
     (if inside then set_prev_phys cutout_next cutout else ret tt) ;;;
     bin <~ tlsf_map_insert cutout_size ;; let '(fli, sli) := bin in
     __tlsf_insert_free_block cutout fli sli
   else ret tt) ;;;
  __tlsf_unmark_free block ;;;
  ret (tlsf_block_to_ptr block).

(** An address outside the heap. *)
Definition outside_heap (addr : Z) : T bool :=
  s <~ mget ;; ret ((addr <? heap_start (ctl s)) || (heap_end (ctl s) <=? addr)).

Definition __tlsf_free (addr : Z) : T unit :=
  outside <~ outside_heap addr ;;
  if outside then ret tt else
  let block := tlsf_ptr_to_block addr in
  outside <~ outside_heap block ;;
  if outside then ret tt else
  __tlsf_mark_free block ;;;
  block <~ __tlsf_merge_next block ;;
  block <~ __tlsf_merge_prev block ;;
  size <~ tlsf_get_block_size block ;;
  bin <~ tlsf_map_insert size ;; let '(fli, sli) := bin in
  __tlsf_insert_free_block block fli sli.

Definition copy (dest src n : Z) : T unit := fun s =>
  match memcpy dest src n (heap s) with Ok m => Ok (tt, with_heap m s) | Fault f => Fault f end.

(** The tail of [__tlsf_realloc]: allocate, copy, free. *)
Definition realloc_copy (addr size block_size : Z) : T Z :=
  new_addr <~ __tlsf_alloc size ;;
  if new_addr =? 0 then ret 0 else
  copy new_addr addr block_size ;;;
  __tlsf_free addr ;;;
  ret new_addr.

Definition __tlsf_realloc (addr size : Z) : T Z :=
  if addr =? 0 then __tlsf_alloc size else
  if size =? 0 then __tlsf_free addr ;;; ret 0 else
  outside <~ outside_heap addr ;;
  if outside then ret 0 else
  if TLSF_MAX_ALLOC <? size then ret 0 else
  let block := tlsf_ptr_to_block addr in
  block_size <~ tlsf_get_block_size block ;;
  let size := block_size_for size in
  if block_size =? size then ret addr else
  if size <? block_size then __tlsf_try_carve block size ;;; ret addr else
  next <~ tlsf_next_block block ;;
  inside <~ in_heap_before_end next ;;
  is_free <~ (if inside then tlsf_block_is_free next else ret false) ;;
  if is_free then
    next_block_size <~ tlsf_get_block_size next ;;
    let merged_size := u64 (next_block_size + block_size) in
    if size <=? merged_size then
      __tlsf_merge_next block ;;;
      __tlsf_try_carve block size ;;;
      ret (tlsf_block_to_ptr block)
    else realloc_copy addr size block_size
  else realloc_copy addr size block_size.

Definition __tlsf_alloc_p2aligned (size alignment : Z) : T Z :=
  if negb (is_pow2 alignment) then ret 0 else
  if (size =? 0) || (TLSF_MAX_ALLOC <? size) then ret 0 else
  let total_size := u64 (size + alignment + sizeof_aligned_block) in
  if TLSF_MAX_ALLOC <? total_size then ret 0 else
  ptr <~ __tlsf_alloc total_size ;;
  if ptr =? 0 then ret 0 else
  let offset_ptr := u64 (ptr + sizeof_aligned_block) in
  let aligned_ptr := p2align_up offset_ptr alignment in
  let header := u64 (aligned_ptr - sizeof_aligned_block) in
  let padding := u64 (header - ptr) in
  ptr <~ (if sizeof_tlsf_block + TLSF_BLOCK_MIN <=? padding then
      let orig_block := tlsf_ptr_to_block ptr in
      let new_block := u64 (header - sizeof_tlsf_block) in
      orig_total_size <~ tlsf_get_block_size orig_block ;;
      let padding_size := u64 (new_block - ptr) in
      let new_block_size := u64 (orig_total_size - padding_size - sizeof_tlsf_block) in
      tlsf_set_block_size new_block new_block_size ;;;
      tlsf_unset_block_free new_block ;;;
      tlsf_unset_prev_phys_free new_block ;;;
      set_prev_phys new_block orig_block ;;;
      set_prev_free new_block 0 ;;;
      set_next_free new_block 0 ;;;
      next <~ tlsf_next_block new_block ;;
      inside <~ in_heap_before_end next ;;
      (if inside then set_prev_phys next new_block else ret tt) ;;;
      tlsf_set_block_size orig_block padding_size ;;;
      __tlsf_free ptr ;;;
      ret (tlsf_block_to_ptr new_block)
    else ret ptr) ;;
  wr (field header off_original_ptr) ptr ;;;
  wr (field header off_aligned_size) size ;;;
  ret aligned_ptr.

Definition bad_header (header addr : Z) : T bool :=
  outside <~ outside_heap header ;; ret (outside || (addr <=? header)).

Definition __tlsf_free_p2aligned (addr : Z) : T unit :=
  let header := u64 (addr - sizeof_aligned_block) in
  bad <~ bad_header header addr ;;
  if bad then ret tt else
  original_ptr <~ rd (field header off_original_ptr) ;;
  __tlsf_free original_ptr.

Definition __tlsf_realloc_p2aligned (addr size alignment : Z) : T Z :=
  if addr =? 0 then __tlsf_alloc_p2aligned size alignment else
  if size =? 0 then __tlsf_free_p2aligned addr ;;; ret 0 else
  let header := u64 (addr - sizeof_aligned_block) in
  bad <~ bad_header header addr ;;
  if bad then ret 0 else
  new_addr <~ __tlsf_alloc_p2aligned size alignment ;;
  if new_addr =? 0 then ret 0 else
  old_size <~ rd (field header off_aligned_size) ;;
  let copy_size := if old_size <? size then old_size else size in
  copy new_addr addr copy_size ;;;
  __tlsf_free_p2aligned addr ;;;
  ret new_addr.
