(* ===== verification/TlsfBlocks.v ===== *)
(** * TlsfBlocks: the headers of the allocator's blocks

    The size word with its two flags, and the blocks of the heap in the order
    of their addresses, each with a link to the one before it. *)

From S2P Require Import Prelude Std Mem.
From S2P Require Import Tlsf.
From Stdlib Require Import ZArith Lia Bool.
From stdpp Require Import base gmap list numbers.

Local Open Scope Z_scope.

(** ** The size word *)

(** A size, which leaves its two low bits free, with the two flags. *)
Definition hword (z : Z) (f p : bool) : Z := z + b2z f + 2 * b2z p.
Definition size_ok (z : Z) : Prop := 0 <= z < 2 ^ 63 ∧ z mod 4 = 0.

Lemma hword_bit z f p i : z mod 4 = 0 → 0 <= i →
  Z.testbit (hword z f p) i = if decide (i = 0) then f else if decide (i = 1) then p else Z.testbit z i.
Proof.
  intros Hz Hi. unfold hword. pose proof (Z.div_mod z 4 ltac:(lia)) as E. rewrite Hz, Z.add_0_r in E.
  set (q := z / 4) in E. rewrite E. clearbody q. clear E Hz z.
  replace (4 * q + b2z f + 2 * b2z p) with (2 * (2 * q + Z.b2z p) + Z.b2z f) by (destruct f, p; cbn; lia).
  case_decide as H0; [subst; apply Z.testbit_0_r|]. replace i with (Z.succ (i - 1)) by lia.
  rewrite Z.testbit_succ_r by lia. case_decide as H1; [replace (i - 1) with 0 by lia; apply Z.testbit_0_r|].
  replace (4 * q) with (2 * (2 * q)) by lia. rewrite Z.double_bits_succ.
  replace (i - 1) with (Z.succ (i - 2)) by lia. by rewrite Z.testbit_succ_r, Z.double_bits_succ by lia.
Qed.
Lemma hword_range z f p : size_ok z → 0 <= hword z f p < 2 ^ 64.
Proof. intros [Hz _]. unfold hword. destruct f, p; cbn; lia. Qed.
Lemma hword_any v : 0 <= v < 2 ^ 64 → ∃ z f p, v = hword z f p ∧ 0 <= z < 2 ^ 64 ∧ z mod 4 = 0.
Proof.
  intros Hv. exists (v / 4 * 4), (Z.odd v), (Z.odd (v / 2)). split; [|dlia]. unfold hword.
  pose proof (Zmod_odd v). pose proof (Zmod_odd (v / 2)). destruct (Z.odd v), (Z.odd (v / 2)); cbn; dlia.
Qed.

(** Two words with the same bits. *)
Lemma size_bit z i : z mod 4 = 0 → 0 <= i → Z.testbit z i = if decide (i = 0 ∨ i = 1) then false else Z.testbit z i.
Proof.
  intros Hz Hi. pose proof (hword_bit z false false i Hz Hi) as E. unfold hword in E. cbn [b2z] in E.
  rewrite !Z.add_0_r in E. rewrite E at 1. repeat case_decide; naive_solver lia.
Qed.
Lemma mask_bit i : 0 <= i → Z.testbit (cnot 64 3) i = (i <? 64) && negb (bool_decide (i = 0 ∨ i = 1)).
Proof.
  intros Hi. destruct (Z.ltb_spec i 64).
  - rewrite cnot_bit by lia. f_equal. change 3 with (Z.ones 2). destruct (decide (i < 2)).
    + rewrite Z.ones_spec_low by lia. by rewrite bool_decide_true by lia.
    + rewrite Z.ones_spec_high by lia. by rewrite bool_decide_false by lia.
  - apply (word_high_bit 64); [apply cnot_range|]; lia.
Qed.
Lemma three_bit i : 0 <= i → Z.testbit 3 i = bool_decide (i = 0 ∨ i = 1).
Proof.
  intros Hi. change 3 with (Z.ones 2). destruct (decide (i < 2)).
  - rewrite Z.ones_spec_low by lia. by rewrite bool_decide_true by lia.
  - rewrite Z.ones_spec_high by lia. by rewrite bool_decide_false by lia.
Qed.
Lemma flag_bit k i : 0 <= i → 0 <= k → Z.testbit (2 ^ k) i = bool_decide (i = k).
Proof. intros. rewrite testbit_pow2 by lia. by apply bool_decide_ext. Qed.

Section Hword.
Context (z : Z) (f p : bool) (Hz : z mod 4 = 0) (Hr : 0 <= z < 2 ^ 64).
Local Ltac bits := apply Z.bits_inj'; intros i Hi;
  rewrite ?Z.lor_spec, ?Z.land_spec, ?mask_bit, ?three_bit, ?hword_bit by done;
  try (change 1 with (2 ^ 0); rewrite (flag_bit 0) by lia);
  try (change 2 with (2 ^ 1); rewrite (flag_bit 1) by lia).

Lemma hword_size : Z.land (hword z f p) (cnot 64 3) = z.
Proof.
  bits. rewrite (size_bit z i) by done. destruct (Z.ltb_spec i 64).
  - repeat case_decide; repeat case_bool_decide; try lia; by rewrite ?andb_true_r, ?andb_false_r.
  - rewrite (word_high_bit 64 z) by lia. repeat case_decide; lia || done.
Qed.
Lemma hword_keep n : n mod 4 = 0 → 0 <= n < 2 ^ 64 →
  Z.lor (Z.land n (cnot 64 3)) (Z.land (hword z f p) 3) = hword n f p.
Proof.
  intros Hn Hnr. assert (Z.land n (cnot 64 3) = n) as ->.
  { bits. rewrite (size_bit n i) by done. destruct (Z.ltb_spec i 64).
    - repeat case_decide; repeat case_bool_decide; try lia; by rewrite ?andb_true_r, ?andb_false_r.
    - rewrite (word_high_bit 64 n) by lia. repeat case_decide; lia || done. }
  bits. rewrite (size_bit n i) by done.
  repeat case_decide; repeat case_bool_decide; try lia; by rewrite ?andb_true_r, ?andb_false_r, ?orb_false_r.
Qed.
Lemma hword_free : negb (Z.land (hword z f p) 1 =? 0) = f.
Proof.
  assert (Z.land (hword z f p) 1 = hword z f p mod 2) as -> by (apply (Z.land_ones _ 1); lia).
  unfold hword. destruct (Z.eqb_spec ((z + b2z f + 2 * b2z p) mod 2) 0) as [E|E]; destruct f, p; cbn in *; dlia || done.
Qed.
Lemma hword_pfree : negb (Z.land (hword z f p) 2 =? 0) = p.
Proof.
  replace (Z.land (hword z f p) 2) with (if p then 2 else 0).
  - by destruct p.
  - bits. destruct p; [change 2 with (2 ^ 1); rewrite (flag_bit 1) by lia|rewrite Z.bits_0];
      repeat case_decide; repeat case_bool_decide; try lia; by rewrite ?andb_true_r, ?andb_false_r.
Qed.
Lemma hword_set_free : Z.lor (hword z f p) 1 = hword z true p.
Proof. bits. repeat case_decide; repeat case_bool_decide; try lia; by rewrite ?orb_true_r, ?orb_false_r. Qed.
Lemma hword_set_pfree : Z.lor (hword z f p) 2 = hword z f true.
Proof. bits. repeat case_decide; repeat case_bool_decide; try lia; by rewrite ?orb_true_r, ?orb_false_r. Qed.
Lemma not_flag_bit k i : 0 <= i → 0 <= k → Z.testbit (cnot 64 (2 ^ k)) i = (i <? 64) && negb (bool_decide (i = k)).
Proof.
  intros. destruct (Z.ltb_spec i 64).
  - rewrite cnot_bit, flag_bit by lia. done.
  - apply (word_high_bit 64); [apply cnot_range|]; lia.
Qed.
Lemma hword_unset_free : Z.land (hword z f p) (cnot 64 1) = hword z false p.
Proof.
  apply Z.bits_inj'; intros i Hi. change 1 with (2 ^ 0). rewrite Z.land_spec, not_flag_bit, !hword_bit by lia.
  destruct (Z.ltb_spec i 64).
  - repeat case_decide; repeat case_bool_decide; try lia; by rewrite ?andb_true_r, ?andb_false_r.
  - rewrite (word_high_bit 64 z) by lia. repeat case_decide; lia || done.
Qed.
Lemma hword_unset_pfree : Z.land (hword z f p) (cnot 64 2) = hword z f false.
Proof.
  apply Z.bits_inj'; intros i Hi. change 2 with (2 ^ 1). rewrite Z.land_spec, not_flag_bit, !hword_bit by lia.
  destruct (Z.ltb_spec i 64).
  - repeat case_decide; repeat case_bool_decide; try lia; by rewrite ?andb_true_r, ?andb_false_r.
  - rewrite (word_high_bit 64 z) by lia. repeat case_decide; lia || done.
Qed.
End Hword.

(** ** Running the accesses *)

Lemma field_in b off : 0 <= b → 0 <= off → b + off < 2 ^ 64 → field b off = b + off.
Proof. intros. unfold field. apply wrap_small. lia. Qed.

Lemma wp_rd a v Q s : wd (heap s) a v → Q v s → wp (rd a) Q s.
Proof. unfold wp, rd, wd. by intros ->. Qed.
Lemma wp_wr a v Q s : bytes_ok (heap s) → mapped (heap s) a (a + 8) → 0 <= v < 2 ^ 64 →
  (∀ m', chg (fun k => a <= k < a + 8) (heap s) m' → wd m' a v → Q tt (with_heap m' s)) → wp (wr a v) Q s.
Proof.
  intros Hb Hm Hv H. destruct (store64_spec (heap s) a v Hb Hm Hv) as (m' & E & Hc & Hw).
  unfold wp, wr. rewrite E. by apply H.
Qed.

Section Size_word.
Context (x z : Z) (f p : bool) (s : arena).
Context (Hx : 0 <= x < 2 ^ 64) (Hz : z mod 4 = 0) (Hr : 0 <= z < 2 ^ 64) (Hw : wd (heap s) x (hword z f p)).

Lemma field_size : field x off_size = x.
Proof. unfold field, off_size. rewrite Z.add_0_r. by apply wrap_small. Qed.

Lemma wp_get_size (Q : Z → arena → Prop) : Q z s → wp (tlsf_get_block_size x) Q s.
Proof.
  intros H. unfold tlsf_get_block_size. rewrite field_size. apply wp_bind, (wp_rd _ _ _ _ Hw).
  apply wp_ret. change TLSF_SIZE_RESERVED_MASK with 3. by rewrite hword_size.
Qed.
Lemma wp_is_free (Q : bool → arena → Prop) : Q f s → wp (tlsf_block_is_free x) Q s.
Proof.
  intros H. unfold tlsf_block_is_free. rewrite field_size. apply wp_bind, (wp_rd _ _ _ _ Hw).
  apply wp_ret. unfold TLSF_BLOCK_FREE_MASK. by rewrite hword_free.
Qed.
Lemma wp_prev_is_free (Q : bool → arena → Prop) : Q p s → wp (tlsf_prev_is_free x) Q s.
Proof.
  intros H. unfold tlsf_prev_is_free. rewrite field_size. apply wp_bind, (wp_rd _ _ _ _ Hw).
  apply wp_ret. unfold TLSF_PREV_PHYS_FREE_MASK. by rewrite hword_pfree.
Qed.
Lemma wp_next_block (Q : Z → arena → Prop) : x + 32 + z < 2 ^ 64 → Q (x + 32 + z) s → wp (tlsf_next_block x) Q s.
Proof.
  intros Hn H. unfold tlsf_next_block. apply wp_bind, wp_get_size, wp_ret.
  unfold u64, sizeof_tlsf_block. by rewrite wrap_small by lia.
Qed.

(** What a new size word leaves. *)
Definition reword (v : Z) (Q : unit → arena → Prop) : Prop :=
  ∀ m', chg (fun k => x <= k < x + 8) (heap s) m' → wd m' x v → Q tt (with_heap m' s).
Lemma wp_reword (g : Z → Z) v Q : bytes_ok (heap s) → g (hword z f p) = v → 0 <= v < 2 ^ 64 → reword v Q →
  wp (w <~ rd (field x off_size) ;; wr (field x off_size) (g w)) Q s.
Proof.
  intros Hb E Hv H. rewrite field_size. apply wp_bind, (wp_rd _ _ _ _ Hw). rewrite E.
  apply wp_wr; [done|by eapply wd_mapped|done|exact H].
Qed.
Context (Hb : bytes_ok (heap s)).

Lemma wp_set_size n Q : size_ok n → reword (hword n f p) Q → wp (tlsf_set_block_size x n) Q s.
Proof.
  intros [Hn Hn4] H. eapply wp_reword; [done| |by apply hword_range|exact H]. apply hword_keep; done || lia.
Qed.
Lemma wp_set_free Q : z < 2 ^ 63 → reword (hword z true p) Q → wp (tlsf_set_block_free x) Q s.
Proof. intros Hs H. eapply wp_reword; [done|by apply hword_set_free|apply hword_range; split; lia|exact H]. Qed.
Lemma wp_unset_free Q : z < 2 ^ 63 → reword (hword z false p) Q → wp (tlsf_unset_block_free x) Q s.
Proof. intros Hs H. eapply wp_reword; [done|by apply hword_unset_free|apply hword_range; split; lia|exact H]. Qed.
Lemma wp_set_pfree Q : z < 2 ^ 63 → reword (hword z f true) Q → wp (tlsf_set_prev_phys_free x) Q s.
Proof. intros Hs H. eapply wp_reword; [done|by apply hword_set_pfree|apply hword_range; split; lia|exact H]. Qed.
Lemma wp_unset_pfree Q : z < 2 ^ 63 → reword (hword z f false) Q → wp (tlsf_unset_prev_phys_free x) Q s.
Proof. intros Hs H. eapply wp_reword; [done|by apply hword_unset_pfree|apply hword_range; split; lia|exact H]. Qed.
End Size_word.

Lemma wp_set_prev_phys x v Q s : 0 <= x → x + 32 <= 2 ^ 64 → bytes_ok (heap s) → mapped (heap s) (x + 8) (x + 16) →
  0 <= v < 2 ^ 64 →
  (∀ m', chg (fun k => x + 8 <= k < x + 16) (heap s) m' → wd m' (x + 8) v → Q tt (with_heap m' s)) →
  wp (set_prev_phys x v) Q s.
Proof.
  intros Hx Hx2 Hb Hm Hv H. unfold set_prev_phys, off_prev_phys. rewrite field_in by lia.
  apply wp_wr; [done|by replace (x + 8 + 8) with (x + 16) by lia|done|].
  intros m' Hc. apply H. by replace (x + 16) with (x + 8 + 8) by lia.
Qed.

(** ** The blocks in the order of their addresses *)

Record blk := Blk { addr : Z; bsize : Z; isfree : bool; pfree : bool }.
#[export] Instance blk_eq_dec : EqDecision blk.
Proof. solve_decision. Defined.
Definition word_of (b : blk) : Z := hword (bsize b) (isfree b) (pfree b).
Definition end_of (b : blk) : Z := addr b + 32 + bsize b.

(** From [a], with the block [p] before it, the blocks [l] reach [e]. *)
Fixpoint phys (m : mem) (p a : Z) (l : list blk) (e : Z) : Prop :=
  match l with
  | [] => a = e
  | b :: l => addr b = a ∧ TLSF_BLOCK_MIN <= bsize b ∧ bsize b mod 8 = 0 ∧
      wd m a (word_of b) ∧ wd m (a + 8) p ∧ phys m a (end_of b) l e
  end.
(** A block that says that the one before it is free is right. *)
Fixpoint flags (pf : bool) (l : list blk) : Prop :=
  match l with [] => True | b :: l => (pfree b = true → pf = true) ∧ flags (isfree b) l end.

Fixpoint prev_of (p : Z) (l : list blk) : Z := match l with [] => p | b :: l => prev_of (addr b) l end.
Fixpoint prev_free_of (pf : bool) (l : list blk) : bool := match l with [] => pf | b :: l => prev_free_of (isfree b) l end.

Lemma prev_of_snoc p l b : prev_of p (l ++ [b]) = addr b.
Proof. revert p. induction l; intros; [done|]. by cbn. Qed.
Lemma prev_free_of_snoc pf l b : prev_free_of pf (l ++ [b]) = isfree b.
Proof. revert pf. induction l; intros; [done|]. by cbn. Qed.
Lemma flags_app pf l1 l2 : flags pf (l1 ++ l2) ↔ flags pf l1 ∧ flags (prev_free_of pf l1) l2.
Proof. revert pf. induction l1 as [|b l1 IH]; intros pf; cbn; [tauto|]. rewrite IH. tauto. Qed.

Lemma phys_app m p a l1 l2 e :
  phys m p a (l1 ++ l2) e ↔ ∃ mid, phys m p a l1 mid ∧ phys m (prev_of p l1) mid l2 e.
Proof.
  revert p a. induction l1 as [|b l1 IH]; intros p a; cbn.
  - split; [intros H; by exists a|intros (mid & <- & H); exact H].
  - rewrite IH. naive_solver.
Qed.
Lemma phys_end m p a l e e' : phys m p a l e → phys m p a l e' → e' = e.
Proof.
  revert p a. induction l as [|b l IH]; intros p a; cbn; [congruence|].
  intros (_ & _ & _ & _ & _ & H) (_ & _ & _ & _ & _ & H'). by eapply IH.
Qed.
Lemma phys_bounds m p a l e : phys m p a l e →
  a <= e ∧ ∀ b, b ∈ l → a <= addr b ∧ end_of b <= e ∧ TLSF_BLOCK_MIN <= bsize b ∧ bsize b mod 8 = 0 ∧ wd m (addr b) (word_of b).
Proof.
  revert p a. induction l as [|b l IH]; intros p a; cbn.
  - intros ->. split; [lia|]. by intros b ?%elem_of_nil.
  - intros (Ha & Hz & H8 & Hw & _ & H). apply IH in H as [H1 H2]. unfold end_of, TLSF_BLOCK_MIN in *. split; [lia|].
    intros c [->|Hc]%elem_of_cons; [rewrite Ha; split_and!; lia || done|]. apply H2 in Hc. split_and!; lia || apply Hc.
Qed.
Lemma phys_aligned m p a l e : phys m p a l e → a mod 8 = 0 → e mod 8 = 0 ∧ ∀ b, b ∈ l → addr b mod 8 = 0.
Proof.
  revert p a. induction l as [|b l IH]; intros p a; cbn.
  - intros -> H. split; [done|]. by intros b ?%elem_of_nil.
  - intros (Ha & _ & H8 & _ & _ & H) Hal. apply IH in H as [H1 H2]; [|unfold end_of; dlia].
    split; [done|]. intros c [->|Hc]%elem_of_cons; [congruence|by apply H2].
Qed.
(** The first two words of the headers are all it depends on. *)
Lemma phys_frame m m' p a l e :
  phys m p a l e → (∀ b k, b ∈ l → addr b <= k < addr b + 16 → m' !! k = m !! k) → phys m' p a l e.
Proof.
  revert p a. induction l as [|b l IH]; intros p a H Hf; [done|]. cbn in *. destruct H as (Ha & Hz & H8 & Hw & Hp & H).
  split_and!; [done..| | |].
  - eapply wd_same; [|exact Hw]. intros k Hk. apply (Hf b); [left|lia].
  - eapply wd_same; [|exact Hp]. intros k Hk. apply (Hf b); [left|lia].
  - apply IH; [done|]. intros c k Hc. apply Hf. by right.
Qed.
Lemma phys_relink m m' p p' a l e :
  phys m p a l e → (∀ b k, b ∈ l → addr b <= k < addr b + 16 → ¬ (a + 8 <= k < a + 16) → m' !! k = m !! k) →
  (l ≠ [] → wd m' (a + 8) p') → phys m' p' a l e.
Proof.
  destruct l as [|b l]; intros H Hf Hw; [done|]. cbn in *. destruct H as (Ha & Hz & H8 & Hw' & Hp & H).
  split_and!; [done..| | |].
  - eapply wd_same; [|exact Hw']. intros k Hk. apply (Hf b); [left|lia|lia].
  - by apply Hw.
  - eapply phys_frame; [exact H|]. intros c k Hc Hk. apply (Hf c); [by right|done|].
    apply phys_bounds in H as [_ H]. apply H in Hc. unfold end_of, TLSF_BLOCK_MIN in *. lia.
Qed.
(** Blocks are apart. *)
Lemma phys_apart m p a l e b c : phys m p a l e → b ∈ l → c ∈ l → b = c ∨ end_of b <= addr c ∨ end_of c <= addr b.
Proof.
  revert p a. induction l as [|d l IH]; intros p a; [by intros _ ?%elem_of_nil|]. cbn.
  intros (Ha & Hz & H8 & Hw & Hp & H) [->|Hb]%elem_of_cons [->|Hc]%elem_of_cons; [by left| | |by eapply IH];
    apply phys_bounds in H as [_ H]; [apply H in Hc; unfold end_of in *; lia|apply H in Hb; unfold end_of in *; lia].
Qed.
Lemma phys_inj m p a l e b c : phys m p a l e → b ∈ l → c ∈ l → addr b = addr c → b = c.
Proof.
  intros H Hb Hc E. destruct (phys_apart m p a l e b c H Hb Hc) as [|Hd]; [done|].
  apply phys_bounds in H as [_ H]. apply H in Hb, Hc. unfold end_of, TLSF_BLOCK_MIN in *. lia.
Qed.
