(* ===== verification/TlsfLists.v ===== *)
(** * TlsfLists: the free blocks of the allocator by their classes

    The doubly linked list of each class with its bit in the bitmaps: taking a
    block out, putting one in, and the search for the first list that is not
    empty. *)

From S2P Require Import Prelude Std Mem.
From S2P Require Import Tlsf TlsfBlocks.
From Stdlib Require Import ZArith Lia Bool.
From stdpp Require Import base gmap list numbers.

Local Open Scope Z_scope.

(** ** The lists of free blocks *)

(** The blocks of a list are linked behind [p]; [n] is what the last one has as
    its next. *)
Fixpoint seg (m : mem) (p : Z) (l : list Z) (n : Z) : Prop :=
  match l with
  | [] => True
  | x :: l => wd m (x + 16) p ∧ wd m (x + 24) (hd n l) ∧ seg m x l n
  end.
Fixpoint lastd (p : Z) (l : list Z) : Z := match l with [] => p | x :: l => lastd x l end.

Lemma lastd_snoc p l x : lastd p (l ++ [x]) = x.
Proof. revert p. induction l; intros; [done|]. by cbn. Qed.
Lemma seg_app m p l1 l2 n : seg m p (l1 ++ l2) n ↔ seg m p l1 (hd n l2) ∧ seg m (lastd p l1) l2 n.
Proof.
  revert p. induction l1 as [|x l1 IH]; intros p; cbn [app seg lastd]; [tauto|].
  rewrite IH. assert (hd n (l1 ++ l2) = hd (hd n l2) l1) as -> by by destruct l1. tauto.
Qed.
Lemma seg_frame m m' p l n :
  seg m p l n → (∀ x k, x ∈ l → x + 16 <= k < x + 32 → m' !! k = m !! k) → seg m' p l n.
Proof.
  revert p. induction l as [|x l IH]; intros p H Hf; [done|]. cbn in *. destruct H as (H1 & H2 & H).
  split_and!.
  - eapply wd_same; [|exact H1]. intros k Hk. apply (Hf x); [left|lia].
  - eapply wd_same; [|exact H2]. intros k Hk. apply (Hf x); [left|lia].
  - apply IH; [done|]. intros y k Hy. apply Hf. by right.
Qed.

(** Listed addresses are pairwise apart. *)
Definition spread (l : list Z) : Prop := NoDup l ∧ ∀ x y, x ∈ l → y ∈ l → x = y ∨ x + 32 <= y ∨ y + 32 <= x.
Lemma spread_app l1 l2 : spread (l1 ++ l2) → spread l1 ∧ spread l2 ∧
  ∀ x y, x ∈ l1 → y ∈ l2 → x + 32 <= y ∨ y + 32 <= x.
Proof.
  intros [Hn Hs]. apply list.NoDup_app in Hn as (H1 & Hd & H2). split_and!.
  - split; [done|]. intros x y Hx Hy. apply Hs; rewrite elem_of_app; by left.
  - split; [done|]. intros x y Hx Hy. apply Hs; rewrite elem_of_app; by right.
  - intros x y Hx Hy. destruct (Hs x y) as [->|]; [rewrite elem_of_app; by left|rewrite elem_of_app; by right| |done].
    by apply Hd in Hx.
Qed.

(** The last block gets another next. *)
Lemma seg_set_next m m' p l y n n' : seg m p (l ++ [y]) n → spread (l ++ [y]) →
  chg (fun k => y + 24 <= k < y + 32) m m' → wd m' (y + 24) n' → seg m' p (l ++ [y]) n'.
Proof.
  rewrite !seg_app. cbn [hd seg]. intros (H1 & H2 & _ & _) Hs Hc Hw. apply spread_app in Hs as (_ & _ & Hs). split_and!.
  - eapply seg_frame; [exact H1|]. intros x k Hx Hk. apply Hc. cbv beta. pose proof (Hs x y Hx ltac:(left)). lia.
  - eapply wd_chg; [exact Hc| |exact H2]. intros k Hk. cbv beta. lia.
  - done.
  - done.
Qed.
(** The first block gets another predecessor. *)
Lemma seg_set_prev m m' p p' y l n : seg m p (y :: l) n → spread (y :: l) →
  chg (fun k => y + 16 <= k < y + 24) m m' → wd m' (y + 16) p' → seg m' p' (y :: l) n.
Proof.
  cbn [seg]. intros (H1 & H2 & H3) Hs Hc Hw. change (y :: l) with ([y] ++ l) in Hs.
  apply spread_app in Hs as (_ & _ & Hs). split_and!; [done| |].
  - eapply wd_chg; [exact Hc| |exact H2]. intros k Hk. cbv beta. lia.
  - eapply seg_frame; [exact H3|]. intros x k Hx Hk. apply Hc. cbv beta. pose proof (Hs y x ltac:(left) Hx). lia.
Qed.

(** ** The bitmaps *)

Abbreviation bins := (Z → Z → list Z).
Definition bin_set (B : bins) (f s : Z) (l : list Z) : bins :=
  fun f' s' => if decide (f' = f ∧ s' = s) then l else B f' s'.
Definition is_bin (f s : Z) : Prop := 0 <= f < 28 ∧ 0 <= s < 32.
Definition row_of (t : tlsf) (f : Z) : option Z := sl_bitmaps t !! Z.to_nat f.
Definition head_of (t : tlsf) (f s : Z) : option Z := blocks t !! Z.to_nat f ≫= (.!! Z.to_nat s).

Record bits_ok (t : tlsf) (B : bins) : Prop := {
  bo_rows : ∀ f, 0 <= f < 28 → ∃ w, row_of t f = Some w ∧ 0 <= w < 2 ^ 32 ∧
    (∀ s, 0 <= s < 32 → Z.testbit w s = negb (bool_decide (B f s = []))) ∧
    Z.testbit (fl_bitmap t) f = negb (w =? 0);
  bo_fl : 0 <= fl_bitmap t < 2 ^ 28;
  bo_heads : ∀ f s, is_bin f s → head_of t f s = Some (hd 0 (B f s));
}.

Lemma head_of_set f c x a f' c' h : is_bin f c → is_bin f' c' → head_of (ctl a) f c = Some h →
  head_of (ctl (with_head f c x a)) f' c' = if decide (f' = f ∧ c' = c) then Some x else head_of (ctl a) f' c'.
Proof.
  intros [Hf Hc] [Hf' Hc'] Hh. unfold head_of in *. cbn [with_head with_ctl ctl blocks].
  destruct (blocks (ctl a) !! Z.to_nat f) as [row|] eqn:Er; [|done]. cbn in Hh.
  assert (Z.to_nat c < length row)%nat as Hl by (eapply lookup_lt_Some; exact Hh).
  destruct (decide (f' = f)) as [->|Hne].
  - rewrite list_lookup_alter_eq, Er. cbn [fmap option_fmap option_map mbind option_bind]. destruct (decide (c' = c)) as [->|Hnc].
    + rewrite decide_True by done. by apply list_lookup_insert_eq.
    + rewrite decide_False by naive_solver. apply list_lookup_insert_ne. lia.
  - rewrite decide_False by naive_solver. rewrite list_lookup_alter_ne by lia. done.
Qed.
Lemma row_of_set f w a f' w0 : 0 <= f → 0 <= f' → row_of (ctl a) f = Some w0 →
  row_of (ctl (with_sl f w a)) f' = if decide (f' = f) then Some w else row_of (ctl a) f'.
Proof.
  intros Hf Hf' Hr. unfold row_of in *. cbn [with_sl with_ctl ctl sl_bitmaps]. case_decide as Hd.
  - subst. apply list_lookup_insert_eq. by eapply lookup_lt_Some.
  - apply list_lookup_insert_ne. lia.
Qed.

Lemma wp_at_index {A} (l : list A) i x Q s : 0 <= i → l !! Z.to_nat i = Some x → Q x s → wp (at_index l i) Q s.
Proof. intros Hi E H. unfold at_index, lift, wp. rewrite E. destruct (Z.ltb_spec i 0); [lia|done]. Qed.
Lemma wp_get_head f c h Q a : is_bin f c → head_of (ctl a) f c = Some h → Q h a → wp (get_head f c) Q a.
Proof.
  intros [Hf Hc] Hh H. unfold get_head, head_of in *. apply wp_bind. unfold wp at 1, mget.
  destruct (blocks (ctl a) !! Z.to_nat f) as [row|] eqn:Er; [|done].
  apply wp_bind. eapply wp_at_index; [lia|exact Er|]. eapply wp_at_index; [lia|exact Hh|done].
Qed.
Lemma wp_set_head f c h x Q a : is_bin f c → head_of (ctl a) f c = Some h → Q tt (with_head f c x a) →
  wp (set_head f c x) Q a.
Proof. intros Hb Hh H. unfold set_head. apply wp_bind. eapply wp_get_head; [done|exact Hh|exact H]. Qed.
Lemma wp_get_sl f w Q a : 0 <= f → row_of (ctl a) f = Some w → Q w a → wp (get_sl f) Q a.
Proof. intros Hf Hw H. unfold get_sl. apply wp_bind. unfold wp at 1, mget. by eapply wp_at_index. Qed.
Lemma wp_set_sl f w x Q a : 0 <= f → row_of (ctl a) f = Some w → Q tt (with_sl f x a) → wp (set_sl f x) Q a.
Proof. intros Hf Hw H. unfold set_sl. apply wp_bind. eapply wp_get_sl; [done|exact Hw|exact H]. Qed.

(** One list is replaced. *)
Lemma bits_ok_set t t' B f c l w' :
  bits_ok t B → is_bin f c →
  (∀ f' c', is_bin f' c' → head_of t' f' c' = if decide (f' = f ∧ c' = c) then Some (hd 0 l) else head_of t f' c') →
  (∀ f', 0 <= f' < 28 → row_of t' f' = if decide (f' = f) then Some w' else row_of t f') →
  0 <= w' < 2 ^ 32 →
  (∀ w c', row_of t f = Some w → 0 <= c' < 32 →
     Z.testbit w' c' = if decide (c' = c) then negb (bool_decide (l = [])) else Z.testbit w c') →
  0 <= fl_bitmap t' < 2 ^ 28 →
  (∀ f', 0 <= f' < 28 → Z.testbit (fl_bitmap t') f' = if decide (f' = f) then negb (w' =? 0) else Z.testbit (fl_bitmap t) f') →
  bits_ok t' (bin_set B f c l).
Proof.
  intros [Hr _ Hh] [Hf Hc] Hh' Hr' Hw' Hb' Hfl Hflb. split; [|done|].
  - intros f' Hf'. rewrite Hr', Hflb by done. destruct (Hr f' Hf') as (w & Ew & Hw & Hb & Hfb). case_decide as Hd.
    + subst f'. exists w'. split_and!; try done; try lia. intros c' Hc'. rewrite (Hb' w c' Ew Hc'). unfold bin_set.
      destruct (decide (c' = c)) as [->|]; [by rewrite decide_True|].
      rewrite decide_False by naive_solver. by apply Hb.
    + exists w. split_and!; try done; try lia. intros c' Hc'. unfold bin_set. rewrite decide_False by naive_solver. by apply Hb.
  - intros f' c' Hb. rewrite Hh' by done. unfold bin_set. case_decide; [done|by apply Hh].
Qed.
Lemma land_cnot_bit w x i j : 0 <= w → 0 <= i < w → 0 <= j < w →
  Z.testbit (Z.land x (cnot w (Z.shiftl 1 i))) j = if decide (j = i) then false else Z.testbit x j.
Proof.
  intros Hw Hi Hj. rewrite Z.land_spec, cnot_bit, shiftl_1, testbit_pow2 by lia.
  destruct (decide (j = i)) as [->|Hne].
  - rewrite bool_decide_true by done. apply andb_false_r.
  - rewrite bool_decide_false by congruence. apply andb_true_r.
Qed.
Lemma lor_shift_bit x i j : 0 <= i →
  Z.testbit (Z.lor x (Z.shiftl 1 i)) j = if decide (j = i) then true else Z.testbit x j.
Proof.
  intros Hi. rewrite Z.lor_spec, shiftl_1, testbit_pow2 by lia. destruct (decide (j = i)) as [->|Hne].
  - rewrite bool_decide_true by done. apply orb_true_r.
  - rewrite bool_decide_false by congruence. apply orb_false_r.
Qed.

(** ** Removing and inserting *)

Definition listed (B : bins) (x : Z) : Prop := ∃ f c, is_bin f c ∧ x ∈ B f c.

Record lists (s : arena) (B : bins) : Prop := {
  li_bits : bits_ok (ctl s) B;
  li_seg : ∀ f c, is_bin f c → seg (heap s) 0 (B f c) 0;
  li_nodup : ∀ f c, is_bin f c → NoDup (B f c);
  li_one : ∀ f c f' c' x, is_bin f c → is_bin f' c' → x ∈ B f c → x ∈ B f' c' → f' = f ∧ c' = c;
  li_apart : ∀ x y, listed B x → listed B y → x = y ∨ x + 32 <= y ∨ y + 32 <= x;
  li_room : ∀ x, listed B x → 0 < x ∧ x + 32 <= 2 ^ 64;
}.

Lemma lists_spread s B f c : lists s B → is_bin f c → spread (B f c).
Proof.
  intros H Hb. split; [by apply H|]. intros x y Hx Hy. apply (li_apart _ _ H); by exists f, c.
Qed.
Lemma seg_mapped m p l n x : seg m p l n → x ∈ l → mapped m (x + 16) (x + 32).
Proof.
  revert p. induction l as [|y l IH]; intros p; [by intros _ ?%elem_of_nil|]. cbn.
  intros (H1 & H2 & H) [->|Hx]%elem_of_cons; [|by eapply IH].
  apply wd_mapped in H1, H2. intros k Hk. destruct (decide (k < y + 24)); [apply H1|apply H2]; lia.
Qed.

(** What else the allocator keeps. *)
Definition same_bounds (s s' : arena) : Prop :=
  heap_start (ctl s') = heap_start (ctl s) ∧ heap_end (ctl s') = heap_end (ctl s).
(** The links of listed blocks. *)
Definition links (B : bins) (k : Z) : Prop := ∃ y, listed B y ∧ y + 16 <= k < y + 32.

Lemma wp_set_link x off v Q s : 0 <= x → 0 <= off → off + 8 <= 32 → x + 32 <= 2 ^ 64 →
  bytes_ok (heap s) → mapped (heap s) (x + off) (x + off + 8) → 0 <= v < 2 ^ 64 →
  (∀ m', chg (fun k => x + off <= k < x + off + 8) (heap s) m' → wd m' (x + off) v → Q tt (with_heap m' s)) →
  wp (wr (field x off) v) Q s.
Proof. intros. rewrite field_in by lia. by apply wp_wr. Qed.

(** The writes that take a block out of its list. *)
Lemma seg_unlink m m1 m2 l1 x l2 :
  seg m 0 (l1 ++ x :: l2) 0 → spread (l1 ++ x :: l2) →
  (l1 = [] ∧ m1 = m ∨ ∃ l y, l1 = l ++ [y] ∧ chg (fun k => y + 24 <= k < y + 32) m m1 ∧ wd m1 (y + 24) (hd 0 l2)) →
  (l2 = [] ∧ m2 = m1 ∨ ∃ z l, l2 = z :: l ∧ chg (fun k => z + 16 <= k < z + 24) m1 m2 ∧ wd m2 (z + 16) (lastd 0 l1)) →
  seg m2 0 (l1 ++ l2) 0.
Proof.
  intros Hseg Hs H1 H2. pose proof Hs as Hs'. apply seg_app in Hseg as [Ha (_ & _ & Hb)]. cbn [hd] in Ha.
  apply spread_app in Hs as (S1 & Sx & S12). change (x :: l2) with ([x] ++ l2) in Sx. apply spread_app in Sx as (_ & S2 & _).
  assert (∀ y z, y ∈ l1 → z ∈ l2 → y + 32 <= z ∨ z + 32 <= y) as S by (intros; apply S12; [done|by right]).
  assert (seg m1 0 l1 (hd 0 l2) ∧ seg m1 x l2 0) as [Ha1 Hb1].
  { destruct H1 as [[-> ->]|(l & y & -> & Hc & Hw)]; [done|]. split; [by eapply seg_set_next|].
    eapply seg_frame; [exact Hb|]. intros z k Hz Hk. apply Hc. cbv beta.
    pose proof (S y z ltac:(rewrite elem_of_app; right; left) Hz). lia. }
  clear H1 Ha Hb. apply seg_app. destruct H2 as [[-> ->]|(z & l & -> & Hc & Hw)]; [done|]. split.
  - eapply seg_frame; [exact Ha1|]. intros y k Hy Hk. apply Hc. cbv beta. pose proof (S y z Hy ltac:(left)). lia.
  - by eapply seg_set_prev.
Qed.

Lemma lists_heads s B f c : lists s B → is_bin f c → head_of (ctl s) f c = Some (hd 0 (B f c)).
Proof. intros H Hb. by apply (bo_heads _ _ (li_bits _ _ H)). Qed.

Lemma bin_set_elem B f c l f' c' x : x ∈ bin_set B f c l f' c' → (f' = f ∧ c' = c ∧ x ∈ l) ∨ (¬ (f' = f ∧ c' = c) ∧ x ∈ B f' c').
Proof. unfold bin_set. case_decide; naive_solver. Qed.

(** The lists without a block, whatever has been done to the memory of that list. *)
Lemma lists_removed s s' B f c l1 x l2 :
  lists s B → is_bin f c → B f c = l1 ++ x :: l2 →
  bits_ok (ctl s') (bin_set B f c (l1 ++ l2)) → seg (heap s') 0 (l1 ++ l2) 0 →
  chg (fun k => ∃ y, y ∈ B f c ∧ y + 16 <= k < y + 32) (heap s) (heap s') →
  lists s' (bin_set B f c (l1 ++ l2)).
Proof.
  intros H Hb E Hbits Hseg Hc.
  assert (∀ f' c' y, y ∈ bin_set B f c (l1 ++ l2) f' c' → y ∈ B f' c') as Hsub.
  { intros f' c' y [(-> & -> & Hy)|[_ Hy]]%bin_set_elem; [|done]. rewrite E. set_solver. }
  assert (∀ y, listed (bin_set B f c (l1 ++ l2)) y → listed B y) as Hl.
  { intros y (f' & c' & Hb' & Hy). exists f', c'. auto. }
  split; [done| | | | |].
  - intros f' c' Hb'. unfold bin_set. case_decide as Hd; [done|].
    eapply seg_frame; [by apply (li_seg _ _ H)|]. intros y k Hy Hk. apply Hc. intros (z & Hz & Hkz).
    destruct (li_apart _ _ H y z) as [->|]; [by exists f', c'|by exists f, c| |lia].
    apply Hd. by apply (li_one _ _ H f c f' c' z).
  - intros f' c' Hb'. unfold bin_set. case_decide; [|by apply H].
    pose proof (li_nodup _ _ H f c Hb) as Hn. rewrite E in Hn. apply list.NoDup_app in Hn as (N1 & N2 & N3).
    apply list.NoDup_app. apply list.NoDup_cons in N3 as [_ N3]. split_and!; [done| |done].
    intros y Hy Hy2. apply (N2 y Hy). by right.
  - intros f1 c1 f2 c2 y Hb1 Hb2 H1%Hsub H2%Hsub. by apply (li_one _ _ H f1 c1 f2 c2 y).
  - intros y z Hy%Hl Hz%Hl. by apply (li_apart _ _ H).
  - intros y Hy%Hl. by apply (li_room _ _ H).
Qed.

Lemma list_end (l : list Z) : l = [] ∨ ∃ l' y, l = l' ++ [y].
Proof. destruct l using rev_ind; [by left|right; by eexists _, _]. Qed.

(** The bitmaps after a block is taken out at the head of its list. *)
Lemma bits_pop s B f c x l2 : bits_ok (ctl s) B → is_bin f c → B f c = x :: l2 → l2 ≠ [] →
  bits_ok (ctl (with_head f c (hd 0 l2) s)) (bin_set B f c l2).
Proof.
  intros H Hb E Hne. pose proof Hb as [Hf Hc]. destruct (bo_rows _ _ H f Hf) as (w & Ew & Hw & Hbw & Hfl).
  pose proof (bo_heads _ _ H f c Hb) as Hh. apply (bits_ok_set (ctl s) _ B f c l2 w); try done.
  - intros f' c' Hb'. by eapply head_of_set.
  - intros f' Hf'. cbn. case_decide; [by subst|done].
  - intros w0 c' Ew0 Hc'. case_decide as Hd; [|congruence]. subst. rewrite Hbw, E by done. by destruct l2.
  - apply H.
  - intros f' Hf'. case_decide as Hd; [by subst|done].
Qed.
Lemma bits_last s B f c x w w' fl' :
  bits_ok (ctl s) B → is_bin f c → B f c = [x] → row_of (ctl s) f = Some w →
  w' = Z.land w (cnot 32 (Z.shiftl 1 c)) →
  fl' = (if w' =? 0 then Z.land (fl_bitmap (ctl s)) (cnot 32 (Z.shiftl 1 f)) else fl_bitmap (ctl s)) →
  bits_ok (ctl (with_fl fl' (with_sl f w' (with_head f c 0 s)))) (bin_set B f c []).
Proof.
  intros H Hb E Ew -> ->. pose proof Hb as [Hf Hc].
  destruct (bo_rows _ _ H f Hf) as (w0 & Ew0 & Hw & Hbw & Hfl). assert (w0 = w) as -> by congruence.
  assert (w ≠ 0) as Hw0 by (intros ->; specialize (Hbw c Hc); by rewrite E, Z.bits_0 in Hbw).
  pose proof (bo_heads _ _ H f c Hb) as Hh. set (w' := Z.land w (cnot 32 (Z.shiftl 1 c))).
  apply (bits_ok_set (ctl s) _ B f c [] w'); try done.
  - intros f' c' Hb'. change (head_of (ctl (with_head f c 0 s)) f' c' = if decide (f' = f ∧ c' = c) then Some 0 else head_of (ctl s) f' c').
    by eapply head_of_set.
  - intros f' Hf'. change (row_of (ctl (with_sl f w' (with_head f c 0 s))) f' = if decide (f' = f) then Some w' else row_of (ctl s) f').
    by eapply (row_of_set f w' (with_head f c 0 s) f' w); lia || done.
  - by apply land_word.
  - intros w0 c' Ew1 Hc'. assert (w0 = w) as -> by congruence. unfold w'. rewrite land_cnot_bit by lia. done.
  - pose proof (bo_fl _ _ H). cbn. destruct (w' =? 0); [by apply land_word|done].
  - intros f' Hf'. cbn. destruct (w' =? 0) eqn:E0.
    + rewrite land_cnot_bit by lia. by case_decide.
    + case_decide as Hd; [subst f'; rewrite Hfl|done]. by rewrite (proj2 (Z.eqb_neq w 0)).
Qed.

(** Nothing changes in the bitmaps when the first block of the list stays. *)
Lemma bits_same t B f c l : bits_ok t B → is_bin f c → l ≠ [] → B f c ≠ [] → hd 0 l = hd 0 (B f c) →
  bits_ok t (bin_set B f c l).
Proof.
  intros H Hb Hl HB E. pose proof Hb as [Hf Hc]. destruct (bo_rows _ _ H f Hf) as (w & Ew & Hw & Hbw & Hfl).
  apply (bits_ok_set t _ B f c _ w); try done.
  - intros f' c' Hb'. case_decide as Hd; [|done]. destruct Hd as [-> ->]. rewrite E. by apply H.
  - intros f' Hf'. case_decide; [by subst|done].
  - intros w0 c' Ew0 Hc'. assert (w0 = w) as -> by congruence. case_decide as Hd; [|done]. subst c'.
    rewrite Hbw by done. by destruct l, (B f c).
  - apply H.
  - intros f' Hf'. case_decide; [|done]. by subst f'.
Qed.

Section Remove.
Context (s : arena) (B : bins) (f c x : Z) (l1 l2 : list Z).
Context (H : lists s B) (Hb : is_bin f c) (E : B f c = l1 ++ x :: l2) (Hbytes : bytes_ok (heap s)).
Local Abbreviation p := (lastd 0 l1).
Local Abbreviation n := (hd 0 l2).
Local Abbreviation P := (fun k => ∃ y, y ∈ B f c ∧ y + 16 <= k < y + 32).

Lemma remove_room y : y ∈ B f c → 0 < y ∧ y + 32 <= 2 ^ 64 ∧ mapped (heap s) (y + 16) (y + 32).
Proof.
  intros Hy. destruct (li_room _ _ H y ltac:(by exists f, c)). split_and!; [done..|].
  eapply seg_mapped; [by apply (li_seg _ _ H f c)|done].
Qed.
Lemma remove_prev : l1 = [] ∧ p = 0 ∨ ∃ l y, l1 = l ++ [y] ∧ p = y ∧ y ∈ B f c.
Proof.
  destruct (list_end l1) as [->|(l & y & El)]; [by left|right]. exists l, y. split; [done|].
  rewrite E, El. split; [apply lastd_snoc|set_solver].
Qed.
Lemma remove_next : l2 = [] ∧ n = 0 ∨ ∃ z l, l2 = z :: l ∧ n = z ∧ z ∈ B f c.
Proof.
  rewrite E. destruct l2 as [|z l]; [by left|right]. exists z, l. split; [done|]. split; [done|set_solver].
Qed.
Lemma remove_words : 0 <= p < 2 ^ 64 ∧ 0 <= n < 2 ^ 64.
Proof.
  split.
  - destruct remove_prev as [[_ ->]|(l & y & _ & -> & Hy)]; [lia|]. apply remove_room in Hy. lia.
  - destruct remove_next as [[_ ->]|(z & l & _ & -> & Hz)]; [lia|]. apply remove_room in Hz. lia.
Qed.

Definition link1 (m m1 : mem) : Prop := l1 = [] ∧ m1 = m ∨
  ∃ l y, l1 = l ++ [y] ∧ chg (fun k => y + 24 <= k < y + 32) m m1 ∧ wd m1 (y + 24) n.
Definition link2 (m1 m2 : mem) : Prop := l2 = [] ∧ m2 = m1 ∨
  ∃ z l, l2 = z :: l ∧ chg (fun k => z + 16 <= k < z + 24) m1 m2 ∧ wd m2 (z + 16) p.

Lemma wp_link1 : wp (if p =? 0 then ret tt else set_next_free p n)
  (fun _ s1 => ctl s1 = ctl s ∧ chg P (heap s) (heap s1) ∧ link1 (heap s) (heap s1)) s.
Proof.
  destruct remove_words as [_ Hn]. destruct remove_prev as [[Hl ->]|(l & y & Hl & -> & Hy)].
  - apply wp_ret. split; [done|]. split; [apply chg_refl|by left].
  - pose proof (remove_room y Hy) as (Y1 & Y2 & Y3). rewrite (proj2 (Z.eqb_neq y 0)) by lia.
    unfold set_next_free, off_next_free. apply wp_set_link; try lia; [done|intros k Hk; apply Y3; lia|].
    intros m' Hc Hw. split; [done|]. replace (y + 24 + 8) with (y + 32) in Hc by lia. split.
    + eapply chg_weaken; [|exact Hc]. intros k Hk. cbv beta in Hk. exists y. split; [done|lia].
    + right. by exists l, y.
Qed.
Lemma wp_link2 s1 : chg P (heap s) (heap s1) → wp (if n =? 0 then ret tt else set_prev_free n p)
  (fun _ s2 => ctl s2 = ctl s1 ∧ chg P (heap s) (heap s2) ∧ link2 (heap s1) (heap s2)) s1.
Proof.
  intros Hc1. destruct remove_words as [Hp _]. destruct remove_next as [[Hl ->]|(z & l & Hl & -> & Hz)].
  - apply wp_ret. split; [done|]. split; [done|by left].
  - pose proof (remove_room z Hz) as (Z1 & Z2 & Z3). rewrite (proj2 (Z.eqb_neq z 0)) by lia.
    unfold set_prev_free, off_prev_free.
    apply wp_set_link; try lia; [by apply Hc1|intros k Hk; apply (chg_dom _ _ _ Hc1), Z3; lia|].
    intros m' Hc Hw. split; [done|]. replace (z + 16 + 8) with (z + 24) in Hc by lia. split.
    + eapply chg_trans; [exact Hc1|]. eapply chg_weaken; [|exact Hc]. intros k Hk. cbv beta in Hk. exists z. split; [done|lia].
    + right. by exists z, l.
Qed.

(** The head and the bitmaps. *)
Definition unhead : T unit :=
  head <~ get_head f c ;;
  if head =? x then
    set_head f c n ;;;
    if n =? 0 then
      sl <~ get_sl f ;;
      set_sl f (Z.land sl (cnot 32 (Z.shiftl 1 c))) ;;;
      sl <~ get_sl f ;;
      if sl =? 0 then mmodify (fun s => with_fl (Z.land (fl_bitmap (ctl s)) (cnot 32 (Z.shiftl 1 f))) s)
      else ret tt
    else ret tt
  else ret tt.
Lemma wp_unhead s2 : ctl s2 = ctl s →
  wp unhead (fun _ s' => heap s' = heap s2 ∧ same_bounds s s' ∧ bits_ok (ctl s') (bin_set B f c (l1 ++ l2))) s2.
Proof.
  intros Ec. pose proof (li_bits _ _ H) as Hbits. pose proof Hb as [Hf Hcr].
  assert (head_of (ctl s2) f c = Some (hd 0 (B f c))) as Hh by (rewrite Ec; by apply (bo_heads _ _ Hbits)).
  destruct (bo_rows _ _ Hbits f Hf) as (w & Ew & _). assert (bits_ok (ctl s2) B) as Hbits2 by by rewrite Ec.
  unfold unhead. apply wp_bind. eapply wp_get_head; [done|exact Hh|].
  destruct (list_end l1) as [El|(l & y & El)].
  - assert (B f c = x :: l2) as E' by (rewrite E, El; done). rewrite El. cbn [app].
    rewrite E'. cbn [hd]. rewrite Z.eqb_refl. apply wp_bind. eapply wp_set_head; [done|exact Hh|].
    destruct remove_next as [[E2 En]|(z & l & E2 & En & Hz)].
    + rewrite E2 in *. cbn [hd]. rewrite Z.eqb_refl. apply wp_bind. eapply wp_get_sl; [lia|cbn; rewrite Ec; exact Ew|].
      apply wp_bind. eapply wp_set_sl; [lia|cbn; rewrite Ec; exact Ew|]. apply wp_bind.
      set (w' := Z.land w (cnot 32 (Z.shiftl 1 c))). eapply (wp_get_sl f w'); [lia| |].
      { rewrite (row_of_set f w' (with_head f c 0 s2) f w); [by rewrite decide_True|lia|lia|cbn; rewrite Ec; exact Ew]. }
      pose proof (bits_last s2 B f c x w w' _ Hbits2 Hb E' ltac:(rewrite Ec; exact Ew) eq_refl eq_refl) as Hlast.
      destruct (w' =? 0) eqn:E0.
      * split; [done|]. split; [split; cbn; by rewrite Ec|exact Hlast].
      * apply wp_ret. split; [done|]. split; [split; cbn; by rewrite Ec|]. by destruct s2 as [[] ?].
    + rewrite En. rewrite (proj2 (Z.eqb_neq z 0)) by (apply remove_room in Hz; lia).
      apply wp_ret. split; [done|]. split; [split; cbn; by rewrite Ec|]. rewrite <- En.
      apply (bits_pop s2 B f c x l2); try done. by rewrite E2.
  - assert (hd 0 (B f c) ∈ l1) as Hhd by (rewrite E, El; destruct l; cbn; set_solver).
    pose proof (li_nodup _ _ H f c Hb) as Hnd. rewrite E in Hnd. apply list.NoDup_app in Hnd as (_ & Hnd & _).
    rewrite (proj2 (Z.eqb_neq _ x)) by (intros Heq; rewrite Heq in Hhd; apply (Hnd _ Hhd); by left).
    apply wp_ret. split; [done|]. split; [split; by rewrite Ec|]. apply bits_same; try done.
    + rewrite El. by destruct l.
    + rewrite E. by destruct l1.
    + rewrite E, El. by destruct l.
Qed.

Lemma wp_remove Q :
  (∀ s', lists s' (bin_set B f c (l1 ++ l2)) → chg (links B) (heap s) (heap s') → same_bounds s s' → Q tt s') →
  wp (__tlsf_remove_free_block x f c) Q s.
Proof.
  intros HQ. pose proof (li_seg _ _ H f c Hb) as Hseg. rewrite E in Hseg.
  pose proof (lists_spread _ _ _ _ H Hb) as Hsp. rewrite E in Hsp.
  pose proof (remove_room x ltac:(rewrite E; set_solver)) as (X1 & X2 & X3).
  pose proof Hseg as [_ (Hprev & Hnext & _)]%seg_app.
  unfold __tlsf_remove_free_block, off_prev_free, off_next_free. rewrite !field_in by lia.
  apply wp_bind, (wp_rd _ p); [done|]. apply wp_bind, (wp_rd _ n); [done|].
  apply wp_bind. eapply wp_mono; [apply wp_link1|]. intros _ s1 (Ec1 & Hc1 & H1).
  apply wp_bind. eapply wp_mono; [by apply (wp_link2 s1)|]. intros _ s2 (Ec2 & Hc2 & H2).
  change (wp unhead Q s2). eapply wp_mono; [apply wp_unhead; congruence|]. intros [] s' (Eh & Hsb & Hbits).
  rewrite <- Eh in Hc2. apply HQ; [|eapply chg_weaken; [|exact Hc2]|done].
  - eapply (lists_removed s); try done. rewrite Eh. by eapply (seg_unlink (heap s)).
  - intros k (y & Hy & Hk). exists y. split; [by exists f, c|done].
Qed.
End Remove.

Section Insert.
Context (s : arena) (B : bins) (f c x : Z).
Context (H : lists s B) (Hb : is_bin f c) (Hbytes : bytes_ok (heap s)).
Context (Hx : 0 < x) (Hx2 : x + 32 <= 2 ^ 64) (Hm : mapped (heap s) (x + 16) (x + 32)).
Context (Hfar : ∀ y, listed B y → y + 32 <= x ∨ x + 32 <= y).
Local Abbreviation n := (hd 0 (B f c)).
Local Abbreviation P := (fun k => (∃ y, y ∈ B f c ∧ y + 16 <= k < y + 32) ∨ x + 16 <= k < x + 32).

Lemma in_list y : y ∈ B f c → listed B y.
Proof. intros Hy. by exists f, c. Qed.

Lemma insert_next : B f c = [] ∧ n = 0 ∨ ∃ z l, B f c = z :: l ∧ n = z ∧ z ∈ B f c.
Proof.
  destruct (B f c) as [|z l] eqn:E; [by left|right]. exists z, l. split; [done|]. split; [done|by left].
Qed.

(** The links of the new first block and of the one that was first. *)
Definition linked (m m' : mem) : Prop := chg P m m' ∧ seg m' 0 (x :: B f c) 0.
Lemma wp_link_head {A} (k : T A) Q : (∀ s1, ctl s1 = ctl s → linked (heap s) (heap s1) → wp k Q s1) →
  wp (set_next_free x n ;;; set_prev_free x 0 ;;; (if n =? 0 then ret tt else set_prev_free n x) ;;; k) Q s.
Proof.
  intros HQ.
  pose proof (li_seg _ _ H f c Hb) as Hseg. unfold set_next_free, set_prev_free, off_next_free, off_prev_free.
  assert (0 <= n < 2 ^ 64) as Hn.
  { destruct insert_next as [[_ ->]|(z & l & _ & -> & Hz)]; [lia|]. apply in_list, (li_room _ _ H) in Hz. lia. }
  apply wp_bind, wp_set_link; try lia; [done|intros k' Hk; apply Hm; lia|]. intros m1 C1 W1.
  apply wp_bind, wp_set_link; try lia; [by apply C1|intros k' Hk; apply C1, Hm; lia|]. intros m2 C2 W2. cbn [heap with_heap] in *.
  assert (chg P (heap s) m2) as C12.
  { eapply chg_trans; (eapply chg_weaken; [|eassumption]); intros k' Hk; cbv beta in *; right; lia. }
  assert (seg m2 0 (B f c) 0) as Hseg2.
  { eapply seg_frame; [exact Hseg|]. intros y k' Hy Hk. pose proof (Hfar y ltac:(by exists f, c)).
    rewrite (chg_same _ _ _ C2), (chg_same _ _ _ C1) by lia. done. }
  assert (wd m2 (x + 24) n) as W1' by (eapply wd_chg; [exact C2|intros k' Hk; cbv beta; lia|exact W1]).
  destruct insert_next as [[E En]|(z & l & E & En & Hz)].
  - rewrite En. apply wp_bind, wp_ret, HQ; [done|]. split; [exact C12|]. by rewrite E in *.
  - rewrite En. pose proof (li_room _ _ H z (in_list z Hz)) as [Z1 Z2]. rewrite (proj2 (Z.eqb_neq z 0)) by lia.
    assert (mapped (heap s) (z + 16) (z + 32)) as Hmz.
    { eapply seg_mapped; [exact Hseg|]. rewrite E. by left. }
    apply wp_bind, wp_set_link; try lia; [by apply C12|intros k' Hk; apply C12, Hmz; lia|]. intros m3 C3 W3.
    apply HQ; [done|]. cbn [heap with_heap] in *. pose proof (Hfar z (in_list z Hz)). split.
    + eapply chg_trans; [exact C12|]. eapply chg_weaken; [|exact C3]. intros k' Hk. cbv beta in *. left. exists z. split; [done|lia].
    + rewrite E in *. change (wd m3 (x + 16) 0 ∧ wd m3 (x + 24) z ∧ seg m3 x (z :: l) 0). split_and!.
      * eapply wd_chg; [exact C3|intros k' Hk; cbv beta; lia|exact W2].
      * eapply wd_chg; [exact C3|intros k' Hk; cbv beta; lia|exact W1'].
      * eapply (seg_set_prev m2); [exact Hseg2|rewrite <- E; by eapply lists_spread| |exact W3].
        by replace (z + 24) with (z + 16 + 8) by lia.
Qed.

Lemma bits_push w : row_of (ctl s) f = Some w →
  bits_ok (ctl (with_sl f (Z.lor w (Z.shiftl 1 c)) (with_fl (Z.lor (fl_bitmap (ctl s)) (Z.shiftl 1 f)) (with_head f c x s))))
    (bin_set B f c (x :: B f c)).
Proof.
  intros Ew. pose proof (li_bits _ _ H) as Hbits. pose proof Hb as [Hf Hc].
  destruct (bo_rows _ _ Hbits f Hf) as (w0 & Ew0 & Hw & Hbw & Hfl). assert (w0 = w) as -> by congruence.
  pose proof (bo_heads _ _ Hbits f c Hb) as Hh. set (s2 := with_fl _ (with_head f c x s)).
  apply (bits_ok_set (ctl s) _ B f c _ (Z.lor w (Z.shiftl 1 c))); try done.
  - intros f' c' Hb'. change (head_of (ctl (with_head f c x s)) f' c' = if decide (f' = f ∧ c' = c) then Some x else head_of (ctl s) f' c').
    by eapply head_of_set.
  - intros f' Hf'. rewrite (row_of_set f _ s2 f' w) by (lia || done). done.
  - apply lor_word; [lia|lia|]. rewrite shiftl_1 by lia. apply pow2_word. lia.
  - intros w0 c' Ew1 Hc'. assert (w0 = w) as -> by congruence. by rewrite lor_shift_bit by lia.
  - apply lor_word; [lia|apply Hbits|]. rewrite shiftl_1 by lia. apply pow2_word. lia.
  - intros f' Hf'. cbn. rewrite lor_shift_bit by lia. case_decide; [|done]. symmetry. apply negb_true_iff, Z.eqb_neq.
    intros E0. assert (Z.testbit (Z.lor w (Z.shiftl 1 c)) c = true) as Hc1 by (rewrite lor_shift_bit by lia; by rewrite decide_True).
    by rewrite E0, Z.bits_0 in Hc1.
Qed.

Lemma lists_inserted s' : bits_ok (ctl s') (bin_set B f c (x :: B f c)) → linked (heap s) (heap s') →
  lists s' (bin_set B f c (x :: B f c)).
Proof.
  intros Hbits [Hc Hseg].
  assert (¬ listed B x) as Hnl by (intros Hl; pose proof (Hfar x Hl); lia).
  assert (∀ f' c' y, is_bin f' c' → y ∈ bin_set B f c (x :: B f c) f' c' →
    y = x ∧ f' = f ∧ c' = c ∨ y ≠ x ∧ y ∈ B f' c') as Hsub.
  { intros f' c' y Hb' [(-> & -> & [->|Hy]%elem_of_cons)|[_ Hy]]%bin_set_elem; [by left|right..]; (split; [|done]);
      intros ->; apply Hnl; [by exists f, c|by exists f', c']. }
  assert (∀ y, listed (bin_set B f c (x :: B f c)) y → y = x ∨ listed B y) as Hl.
  { intros y (f' & c' & Hb' & Hy). apply Hsub in Hy as [(-> & _)|[_ Hy]]; [by left|right; by exists f', c'|done]. }
  split; [done| | | | |].
  - intros f' c' Hb'. unfold bin_set. case_decide as Hd; [done|].
    eapply seg_frame; [by apply (li_seg _ _ H)|]. intros y k' Hy Hk. apply Hc. intros [(z & Hz & Hkz)|Hk'].
    + destruct (li_apart _ _ H y z) as [->|]; [by exists f', c'|by apply in_list| |lia].
      apply Hd. by apply (li_one _ _ H f c f' c' z).
    + pose proof (Hfar y ltac:(by exists f', c')). lia.
  - intros f' c' Hb'. unfold bin_set. case_decide as Hd; [|by apply H]. apply list.NoDup_cons. split; [|by apply H].
    intros Hx'. apply Hnl. by exists f, c.
  - intros f1 c1 f2 c2 y Hb1 Hb2 [(-> & -> & ->)|[Hne H1]]%Hsub [(? & -> & ->)|[Hne2 H2]]%Hsub; try done.
    by apply (li_one _ _ H f1 c1 f2 c2 y).
  - intros y z [->|Hy]%Hl [->|Hz]%Hl; [by left|right; pose proof (Hfar z Hz); lia|right; pose proof (Hfar y Hy); lia|].
    by apply (li_apart _ _ H).
  - intros y [->|Hy]%Hl; [lia|by apply (li_room _ _ H)].
Qed.

Lemma wp_insert Q :
  (∀ s', lists s' (bin_set B f c (x :: B f c)) → chg (fun k => links B k ∨ x + 16 <= k < x + 32) (heap s) (heap s') →
     same_bounds s s' → Q tt s') →
  wp (__tlsf_insert_free_block x f c) Q s.
Proof.
  intros HQ. pose proof Hb as [Hf Hc]. pose proof (lists_heads _ _ _ _ H Hb) as Hh.
  destruct (bo_rows _ _ (li_bits _ _ H) f Hf) as (w & Ew & _).
  unfold __tlsf_insert_free_block. apply wp_bind. eapply wp_get_head; [done|exact Hh|].
  apply wp_link_head. intros s1 Ec Hlk.
  apply wp_bind. eapply wp_set_head; [done|rewrite Ec; exact Hh|]. apply wp_bind. unfold wp at 1, mmodify.
  apply wp_bind. eapply wp_get_sl; [lia|cbn; rewrite Ec; exact Ew|]. eapply wp_set_sl; [lia|cbn; rewrite Ec; exact Ew|].
  apply HQ; [|eapply chg_weaken; [|apply Hlk]|split; cbn; by rewrite Ec].
  - apply lists_inserted; [|exact Hlk]. pose proof (bits_push w Ew) as Hp. destruct s as [t m], s1 as [t1 m1]. cbn in Ec. by subst t1.
  - intros k' [(y & Hy & Hk)|Hk]; [left; exists y; split; [by apply in_list|done]|by right].
Qed.
End Insert.

(** ** Classes of sizes *)

Definition bin_of (z : Z) : Z * Z := match __tlsf_map z with Ok b => b | Fault _ => (0, 0) end.
(** The lists in the order in which they are searched. *)
Definition bin_index (b : Z * Z) : Z := 32 * b.1 + b.2.

(** The least number of [2^k] that holds [z]. *)
Definition ceil_div (z k : Z) : Z := z / 2 ^ k + (if z mod 2 ^ k =? 0 then 0 else 1).

Definition class_of (z : Z) : Z * Z :=
  if z <? 32 then (0, z) else
  let f := Z.log2 z in
  let c := ceil_div z (f - 5) in
  let '(f, c) := if c =? 64 then (f + 1, 0) else (f, c - 32) in
  (if 27 <? f then 27 else f, c).

Lemma log2_bounds z : 32 <= z < 2 ^ 32 → 5 <= Z.log2 z < 32 ∧ 2 ^ Z.log2 z <= z < 2 * 2 ^ Z.log2 z.
Proof.
  intros Hz. pose proof (Z.log2_spec z ltac:(lia)) as Hs. rewrite Z.pow_succ_r in Hs by apply Z.log2_nonneg.
  split; [|lia]. split; [apply Z.log2_le_pow2; lia|apply Z.log2_lt_pow2; lia].
Qed.
Lemma quotient_bounds z : 32 <= z < 2 ^ 32 → 32 <= z / 2 ^ (Z.log2 z - 5) < 64.
Proof.
  intros Hz. destruct (log2_bounds z Hz) as [Hf Hb]. assert (2 ^ Z.log2 z = 2 ^ (Z.log2 z - 5) * 32) as E.
  { change 32 with (2 ^ 5). rewrite <- Z.pow_add_r by lia. f_equal. lia. }
  assert (0 < 2 ^ (Z.log2 z - 5)) by (apply Z.pow_pos_nonneg; lia).
  rewrite E in Hb. split; [apply Z.div_le_lower_bound; lia|apply Z.div_lt_upper_bound; lia].
Qed.

Lemma __tlsf_map_class z : 0 <= z < 2 ^ 32 → __tlsf_map z = Ok (class_of z).
Proof.
  intros Hz. unfold __tlsf_map, class_of, TLSF_SL_COUNT. destruct (Z.ltb_spec z 32); [done|].
  destruct (log2_bounds z) as [Hf Hb]; [lia|]. pose proof (quotient_bounds z ltac:(lia)) as Hq.
  unfold u32, TLSF_SL_SHIFT, TLSF_FL_SHIFT. cbv zeta. rewrite (wrap_small 32 z), fls32_spec by lia.
  rewrite (wrap_small 32 (Z.log2 z)) by lia. rewrite (wrap_small 32 (Z.log2 z - 5)) by lia.
  destruct (Z.leb_spec 64 (Z.log2 z - 5)); [lia|].
  assert (0 <= Z.log2 z - 5) as Hk by lia. set (k := Z.log2 z - 5) in *. rewrite Z.shiftr_div_pow2, shiftl_1 by exact Hk.
  replace (2 ^ k - 1) with (Z.ones k) by (rewrite Z.ones_equiv; lia). rewrite Z.land_ones by lia.
  change (32 - 1) with (Z.ones 5). rewrite (Z.land_ones _ 5) by lia. change (2 ^ 5) with 32.
  assert ((z / 2 ^ k) mod 32 = z / 2 ^ k - 32) as -> by (symmetry; apply Z.mod_unique with 1; lia).
  unfold ceil_div. destruct (Z.eqb_spec (z mod 2 ^ k) 0) as [|Hne]; cbn [negb].
  - rewrite (proj2 (Z.eqb_neq _ 64)) by lia. do 2 f_equal. lia.
  - destruct (Z.leb_spec 32 (z / 2 ^ k - 32 + 1)).
    + rewrite (proj2 (Z.eqb_eq _ 64)) by lia. done.
    + rewrite (proj2 (Z.eqb_neq _ 64)) by lia. do 2 f_equal. lia.
Qed.
Lemma bin_of_class z : 0 <= z < 2 ^ 32 → bin_of z = class_of z.
Proof. intros Hz. unfold bin_of. by rewrite __tlsf_map_class. Qed.
Lemma map_bin z : 0 <= z < 2 ^ 32 → __tlsf_map z = Ok (bin_of z).
Proof. intros Hz. rewrite bin_of_class by done. by apply __tlsf_map_class. Qed.

Lemma ceil_bounds z : 32 <= z < 2 ^ 32 → 32 <= ceil_div z (Z.log2 z - 5) <= 64.
Proof. intros Hz. pose proof (quotient_bounds z Hz). unfold ceil_div. destruct (_ =? 0); lia. Qed.
Lemma bin_of_is_bin z f c : 0 <= z < 2 ^ 32 → bin_of z = (f, c) → is_bin f c.
Proof.
  intros Hz. rewrite bin_of_class by done. unfold class_of. destruct (Z.ltb_spec z 32).
  - intros [= <- <-]. split; lia.
  - pose proof (ceil_bounds z ltac:(lia)). destruct (log2_bounds z ltac:(lia)) as [Hf _]. cbv zeta.
    destruct (Z.eqb_spec (ceil_div z (Z.log2 z - 5)) 64); intros [= <- <-]; (split; [|lia]); destruct (27 <? _) eqn:E27;
      to_prop; lia.
Qed.

(** Classes grow with the sizes, up to the largest request. *)
Lemma bin_of_mono y z : 0 <= y <= z → z <= 2 ^ 27 → bin_index (bin_of y) <= bin_index (bin_of z).
Proof.
  intros Hy Hz. rewrite !bin_of_class by lia. unfold class_of, bin_index.
  destruct (Z.ltb_spec y 32), (Z.ltb_spec z 32); cbn [fst snd]; [lia| |lia|].
  - pose proof (ceil_bounds z ltac:(lia)). destruct (log2_bounds z ltac:(lia)) as [Hf _]. cbv zeta.
    destruct (Z.eqb_spec (ceil_div z (Z.log2 z - 5)) 64); cbn [fst snd]; destruct (27 <? _) eqn:E27; to_prop; lia.
  - pose proof (ceil_bounds z ltac:(lia)) as H1. pose proof (ceil_bounds y ltac:(lia)) as H2.
    destruct (log2_bounds z ltac:(lia)) as [Hf Hb]. destruct (log2_bounds y ltac:(lia)) as [Hf' Hb'].
    assert (Z.log2 y <= Z.log2 z) as Hl by (apply Z.log2_le_mono; lia).
    assert (Z.log2 z <= 27) as H27 by (apply Z.log2_le_pow2 with (a := z) || (change 27 with (Z.log2 (2 ^ 27)); apply Z.log2_le_mono; lia)).
    assert (ceil_div z (Z.log2 z - 5) = 64 → Z.log2 z < 27) as H64.
    { intros E. destruct (decide (Z.log2 z = 27)) as [E27|]; [|lia]. rewrite E27 in *.
      assert (z = 2 ^ 27) as -> by lia. by vm_compute in E. }
    assert (Z.log2 y = Z.log2 z → ceil_div y (Z.log2 y - 5) <= ceil_div z (Z.log2 z - 5)) as Hc.
    { intros ->. unfold ceil_div. set (k := Z.log2 z - 5). assert (0 < 2 ^ k) by (apply Z.pow_pos_nonneg; lia).
      pose proof (Z.div_le_mono y z (2 ^ k) ltac:(lia) ltac:(lia)) as Hd.
      destruct (Z.eqb_spec (y mod 2 ^ k) 0), (Z.eqb_spec (z mod 2 ^ k) 0); try lia.
      pose proof (Z.div_mod y (2 ^ k)). pose proof (Z.div_mod z (2 ^ k)). pose proof (Z.mod_pos_bound y (2 ^ k)). nia. }
    cbv zeta. set (cz := ceil_div z (Z.log2 z - 5)) in *. set (cy := ceil_div y (Z.log2 y - 5)) in *.
    set (lz := Z.log2 z) in *. set (ly := Z.log2 y) in *. clearbody cz cy lz ly. clear Hb Hb' Hy Hz.
    assert (ly < lz ∨ ly = lz ∧ cy <= cz) as Hcase by (destruct (decide (ly = lz)); [right; auto|lia]).
    assert (cz ≠ 64 ∨ lz < 27) as H64' by (destruct (decide (cz = 64)); auto).
    destruct (Z.eqb_spec cz 64), (Z.eqb_spec cy 64); cbn [fst snd];
      repeat match goal with |- context [27 <? ?x] => destruct (Z.ltb_spec 27 x) end; lia.
Qed.
Lemma later_bin_fits y z : 0 <= y < 2 ^ 32 → 0 <= z <= 2 ^ 27 → bin_index (bin_of z) < bin_index (bin_of y) → z < y.
Proof.
  intros Hy Hz H. destruct (Z.ltb_spec z y); [done|]. pose proof (bin_of_mono y z ltac:(lia) ltac:(lia)). lia.
Qed.

(** ** The search *)

Lemma from_bit c i : 0 <= c → 0 <= i < 32 → Z.testbit (u32 (Z.shiftl (cnot 32 0) c)) i = (c <=? i).
Proof.
  intros Hc Hi. unfold u32. rewrite wrap_bit, Z.shiftl_spec by lia. destruct (Z.ltb_spec i 32); [|lia].
  destruct (Z.leb_spec c i); [|apply Z.testbit_neg_r; lia]. rewrite cnot_bit, Z.bits_0 by lia. done.
Qed.
Lemma lowest_in w r : 0 < w < 2 ^ 32 → r = ffs32 w → 0 <= r < 32 ∧ Z.testbit w r = true ∧ ∀ j, 0 <= j < r → Z.testbit w j = false.
Proof.
  intros Hw ->. destruct (ffs32_spec w Hw) as (H1 & H2 & H3). split; [|done]. split; [done|].
  destruct (Z.ltb_spec (ffs32 w) 32); [done|]. by rewrite (word_high_bit 32) in H2 by lia.
Qed.
(** The bits of [w] from [c] on: none, or a first one. *)
Lemma lowest_from w c : 0 <= w < 2 ^ 32 → 0 <= c →
  let v := Z.land w (u32 (Z.shiftl (cnot 32 0) c)) in
  (v = 0 ∧ ∀ i, c <= i < 32 → Z.testbit w i = false) ∨
  (v ≠ 0 ∧ c <= ffs32 v < 32 ∧ Z.testbit w (ffs32 v) = true ∧ ∀ i, c <= i < ffs32 v → Z.testbit w i = false).
Proof.
  intros Hw Hc v.
  assert (∀ i, 0 <= i < 32 → Z.testbit v i = Z.testbit w i && (c <=? i)) as Hv
    by (intros i Hi; unfold v; by rewrite Z.land_spec, from_bit by lia).
  assert (0 <= v < 2 ^ 32) as Hr by by apply land_word.
  destruct (decide (v = 0)) as [E|Hne].
  - left. split; [done|]. intros i Hi. pose proof (Hv i ltac:(lia)) as Hb. rewrite E, Z.bits_0 in Hb.
    rewrite (proj2 (Z.leb_le c i)), andb_true_r in Hb by lia. done.
  - right. split; [done|]. destruct (lowest_in v (ffs32 v)) as (H1 & H2 & H3); [lia|done|].
    rewrite Hv in H2 by lia. apply andb_true_iff in H2 as [H2 H4%Z.leb_le]. split; [lia|]. split; [done|].
    intros i Hi. pose proof (H3 i ltac:(lia)) as Hb. rewrite Hv, (proj2 (Z.leb_le c i)), andb_true_r in Hb by lia. done.
Qed.

Definition empty_between (B : bins) (lo hi : Z) : Prop :=
  ∀ f c, is_bin f c → lo <= bin_index (f, c) < hi → B f c = [].
Definition found_at (B : bins) (f c : Z) (r : Z * Z * Z) : Prop :=
  let '(block, f', c') := r in
  (block = 0 ∧ empty_between B (bin_index (f, c)) 1024) ∨
  (is_bin f' c' ∧ bin_index (f, c) <= bin_index (f', c') ∧ empty_between B (bin_index (f, c)) (bin_index (f', c')) ∧
   ∃ l, B f' c' = block :: l).

Lemma row_bit t B f w c : bits_ok t B → is_bin f c → row_of t f = Some w → Z.testbit w c = negb (bool_decide (B f c = [])).
Proof. intros H [Hf Hc] Ew. destruct (bo_rows _ _ H f Hf) as (w' & Ew' & _ & Hb & _). simplify_eq. by apply Hb. Qed.
Lemma bit_empty t B f w c : bits_ok t B → is_bin f c → row_of t f = Some w → Z.testbit w c = false → B f c = [].
Proof. intros H Hb Ew. rewrite (row_bit t B f w c) by done. intros Hd%negb_false_iff. by apply bool_decide_eq_true in Hd. Qed.
Lemma bit_head t B f w c : bits_ok t B → is_bin f c → row_of t f = Some w → Z.testbit w c = true → ∃ l, B f c = hd 0 (B f c) :: l.
Proof.
  intros H Hb Ew. rewrite (row_bit t B f w c) by done. intros Hd%negb_true_iff. apply bool_decide_eq_false in Hd.
  destruct (B f c) as [|x l]; [done|]. by exists l.
Qed.
Lemma fl_empty t B f c : bits_ok t B → is_bin f c → Z.testbit (fl_bitmap t) f = false → B f c = [].
Proof.
  intros H Hb E. pose proof Hb as [Hf Hc]. destruct (bo_rows _ _ H f Hf) as (w & Ew & _ & _ & Hfl).
  rewrite Hfl in E. apply negb_false_iff, Z.eqb_eq in E. subst. apply (bit_empty t B f 0 c H Hb Ew). apply Z.bits_0.
Qed.

Lemma wp_search s B f c : lists s B → is_bin f c →
  wp (__tlsf_search_suitable_block f c) (fun r s' => s' = s ∧ found_at B f c r) s.
Proof.
  intros H Hb. pose proof (li_bits _ _ H) as Hbits. pose proof Hb as [Hf Hc].
  destruct (bo_rows _ _ Hbits f Hf) as (w & Ew & Hw & _ & _).
  unfold __tlsf_search_suitable_block. apply wp_bind. eapply wp_get_sl; [lia|exact Ew|]. cbv zeta.
  destruct (lowest_from w c Hw ltac:(lia)) as [[E Hnone]|(Hne & Hr & Hbit & Hlow)].
  - rewrite E. cbn [Z.eqb]. apply wp_bind. unfold wp at 1, mget.
    assert (0 <= fl_bitmap (ctl s) < 2 ^ 32) as Hfl by (pose proof (bo_fl _ _ Hbits); lia).
    destruct (lowest_from (fl_bitmap (ctl s)) (f + 1) Hfl ltac:(lia)) as [[E2 Hnone2]|(Hne2 & Hr2 & Hbit2 & Hlow2)].
    + rewrite E2. cbn [Z.eqb]. apply wp_ret. split; [done|]. left. split; [done|].
      intros f' c' Hb' Hi. pose proof Hb' as [Hf' Hc']. unfold bin_index in Hi. cbn [fst snd] in Hi.
      destruct (decide (f' = f)) as [->|]; [eapply bit_empty; [done..|apply Hnone; lia]|].
      eapply fl_empty; [done..|]. apply Hnone2. lia.
    + rewrite (proj2 (Z.eqb_neq _ 0)) by done. set (f' := ffs32 _) in *.
      assert (f' < 28) as Hf28.
      { destruct (Z.ltb_spec f' 28); [done|]. pose proof (bo_fl _ _ Hbits).
        by rewrite (word_high_bit 28) in Hbit2 by lia. }
      destruct (bo_rows _ _ Hbits f' ltac:(lia)) as (w' & Ew' & Hw' & _ & Hb2). rewrite Hb2 in Hbit2.
      apply negb_true_iff, Z.eqb_neq in Hbit2. destruct (lowest_in w' (ffs32 w')) as (Hc' & Hbc & Hlc); [lia|done|].
      assert (is_bin f' (ffs32 w')) as Hb' by (split; lia).
      apply wp_bind. eapply wp_get_sl; [lia|exact Ew'|]. apply wp_bind.
      eapply wp_get_head; [done|by apply (bo_heads _ _ Hbits)|]. apply wp_ret. split; [done|]. right.
      split; [done|]. split; [unfold bin_index; cbn [fst snd]; lia|]. split; [|by eapply bit_head].
      intros f2 c2 Hb3 Hi. pose proof Hb3 as [Hf2 Hc2]. unfold bin_index in Hi. cbn [fst snd] in Hi.
      destruct (decide (f2 = f)) as [->|]; [eapply bit_empty; [done..|apply Hnone; lia]|].
      destruct (decide (f2 = f')) as [->|]; [eapply bit_empty; [done..|apply Hlc; lia]|].
      eapply fl_empty; [done..|]. apply Hlow2. lia.
  - rewrite (proj2 (Z.eqb_neq _ 0)) by done. set (c' := ffs32 _) in *. assert (is_bin f c') as Hb' by (split; lia).
    apply wp_bind. eapply wp_get_head; [done|by apply (bo_heads _ _ Hbits)|]. apply wp_ret. split; [done|]. right.
    split; [done|]. split; [unfold bin_index; cbn [fst snd]; lia|]. split; [|by eapply bit_head].
    intros f2 c2 Hb3 Hi. pose proof Hb3 as [Hf2 Hc2]. unfold bin_index in Hi. cbn [fst snd] in Hi.
    assert (f2 = f) as -> by lia. eapply bit_empty; [done..|apply Hlow; lia].
Qed.
