(* ===== verification/TlsfCore.v ===== *)
(** * TlsfCore: the heap while it is being changed

    The blocks tile the heap and the lists hold the free ones, but for those in
    [X]: an operation takes blocks out of their lists, joins or splits them,
    and puts the result back. *)

From S2P Require Import Prelude Std Mem.
From S2P Require Import Tlsf TlsfBlocks TlsfLists.
From Stdlib Require Import ZArith Lia Bool.
From stdpp Require Import base gmap list numbers.

Local Open Scope Z_scope.

Definition in_list (bs : list blk) (X : list Z) (x f c : Z) : Prop :=
  (x ∉ X) ∧ ∃ b, b ∈ bs ∧ addr b = x ∧ isfree b = true ∧ bin_of (bsize b) = (f, c).

Record core (s : arena) (bs : list blk) (B : bins) (X : list Z) : Prop := {
  co_bytes : bytes_ok (heap s);
  co_mapped : mapped (heap s) (heap_start (ctl s)) (heap_end (ctl s));
  co_range : 0 < heap_start (ctl s) ∧ heap_end (ctl s) < 2 ^ 64 ∧ heap_end (ctl s) - heap_start (ctl s) < 2 ^ 32;
  co_aligned : heap_start (ctl s) mod 8 = 0;
  co_phys : phys (heap s) 0 (heap_start (ctl s)) bs (heap_end (ctl s));
  co_lists : lists s B;
  co_link : ∀ f c x, is_bin f c → (x ∈ B f c ↔ in_list bs X x f c);
}.
Definition wf (s : arena) (bs : list blk) (X : list Z) : Prop := ∃ B, core s bs B X.

(** What a step does to the rest. *)
Record evo (P : Z → Prop) (s s' : arena) : Prop := {
  ev_chg : chg P (heap s) (heap s');
  ev_bounds : same_bounds s s';
}.
Lemma evo_refl P s : evo P s s.
Proof. split; [apply chg_refl|done]. Qed.
Lemma evo_trans P s1 s2 s3 : evo P s1 s2 → evo P s2 s3 → evo P s1 s3.
Proof. intros [A [B1 B2]] [C [D1 D2]]. split; [by eapply chg_trans|]. split; congruence. Qed.
Lemma evo_weaken (P Q : Z → Prop) s s' : (∀ k, P k → Q k) → evo P s s' → evo Q s s'.
Proof. intros H [A B]. split; [by eapply chg_weaken|done]. Qed.
Lemma evo_heap P s m : chg P (heap s) m → evo P s (with_heap m s).
Proof. by split. Qed.

Definition hdrs (bs : list blk) (k : Z) : Prop := ∃ b, b ∈ bs ∧ addr b <= k < addr b + 32.

(** A block of the heap. *)
Record placed (s : arena) (b : blk) : Prop := {
  pl_lo : heap_start (ctl s) <= addr b;
  pl_hi : end_of b <= heap_end (ctl s);
  pl_pos : 0 < addr b;
  pl_top : heap_end (ctl s) < 2 ^ 64;
  pl_min : 16 <= bsize b;
  pl_max : bsize b < 2 ^ 32 - 32;
  pl_size : bsize b mod 8 = 0;
  pl_addr : addr b mod 8 = 0;
  pl_word : wd (heap s) (addr b) (word_of b);
  pl_mapped : mapped (heap s) (addr b) (end_of b);
}.
Lemma core_placed s bs B X b : core s bs B X → b ∈ bs → placed s b.
Proof.
  intros [Hb Hm (H0 & He & Hd) Ha Hp _ _] Hin. pose proof (phys_aligned _ _ _ _ _ Hp Ha) as [_ Hal].
  pose proof (phys_bounds _ _ _ _ _ Hp) as [_ H]. destruct (H b Hin) as (H1 & H2 & H3 & H4 & H5).
  unfold end_of, TLSF_BLOCK_MIN in *. split; unfold end_of; try done; try lia; [by apply Hal|].
  intros k Hk. apply Hm. lia.
Qed.
Lemma core_apart s bs B X b c : core s bs B X → b ∈ bs → c ∈ bs → b = c ∨ end_of b <= addr c ∨ end_of c <= addr b.
Proof. intros H. apply (phys_apart _ _ _ _ _ _ _ (co_phys _ _ _ _ H)). Qed.
Lemma core_inj s bs B X b c : core s bs B X → b ∈ bs → c ∈ bs → addr b = addr c → b = c.
Proof. intros H. apply (phys_inj _ _ _ _ _ _ _ (co_phys _ _ _ _ H)). Qed.
Lemma core_listed s bs B X x : core s bs B X → listed B x → ∃ b, b ∈ bs ∧ addr b = x ∧ isfree b = true ∧ x ∉ X.
Proof.
  intros H (f & c & Hb & Hx). apply (co_link _ _ _ _ H) in Hx as (HX & b & H1 & H2 & H3 & _); [|done]. by exists b.
Qed.
Lemma core_links s bs B X k : core s bs B X → links B k → hdrs bs k.
Proof. intros H (y & Hy & Hk). destruct (core_listed _ _ _ _ _ H Hy) as (b & Hb & <- & _). exists b. split; [done|lia]. Qed.

(** ** Taking out, putting in *)

Lemma wp_core_remove s bs B X b f c Q :
  core s bs B X → b ∈ bs → isfree b = true → addr b ∉ X → bin_of (bsize b) = (f, c) →
  (∀ s', wf s' bs (addr b :: X) → evo (hdrs bs) s s' → Q tt s') →
  wp (__tlsf_remove_free_block (addr b) f c) Q s.
Proof.
  intros H Hin Hfree HX Hbin HQ. pose proof (core_placed _ _ _ _ _ H Hin) as Hp.
  assert (is_bin f c) as Hb by (eapply bin_of_is_bin; [|exact Hbin]; destruct Hp; lia).
  assert (addr b ∈ B f c) as Hx by (apply (co_link _ _ _ _ H); [done|]; split; [done|by exists b]).
  apply list_elem_of_split in Hx as (l1 & l2 & E). pose proof (co_lists _ _ _ _ H) as Hl.
  eapply (wp_remove s B f c (addr b) l1 l2); [done..|apply H|]. intros s' Hl' Hc [Hs1 Hs2].
  assert (chg (hdrs bs) (heap s) (heap s')) as Hc'.
  { eapply chg_weaken; [|exact Hc]. intros k. by apply (core_links s bs B X). }
  apply HQ; [|by split]. exists (bin_set B f c (l1 ++ l2)). split; rewrite ?Hs1, ?Hs2; try apply H; try done.
  - by apply Hc', H.
  - eapply chg_mapped; [exact Hc'|apply H].
  - eapply phys_frame; [apply H|]. intros d k Hd Hk. apply Hc. intros (y & Hy & Hky).
    destruct (core_listed _ _ _ _ _ H Hy) as (e & He & <- & _).
    pose proof (core_placed _ _ _ _ _ H He) as [_ _ _ _ ? _ _ _ _ _]. pose proof (core_placed _ _ _ _ _ H Hd) as [_ _ _ _ ? _ _ _ _ _].
    destruct (core_apart _ _ _ _ _ _ H Hd He) as [->|[?|?]]; unfold end_of in *; lia.
  - intros f' c' y Hb'. assert (y ∈ bin_set B f c (l1 ++ l2) f' c' ↔ y ∈ B f' c' ∧ y ≠ addr b) as ->.
    { unfold bin_set. case_decide as Hd.
      - destruct Hd as [-> ->]. rewrite E. pose proof (li_nodup _ _ Hl f c Hb) as Hnd. rewrite E in Hnd.
        apply list.NoDup_app in Hnd as (_ & N1 & [N2 _]%list.NoDup_cons).
        split; [|set_solver]. rewrite elem_of_app. intros [Hy|Hy]; (split; [set_solver|]); intros ->; [|done].
        apply (N1 _ Hy). by left.
      - split; [|tauto]. intros Hy. split; [done|]. intros ->. apply Hd.
        apply (li_one _ _ Hl f c f' c' (addr b)); [done..| |done]. rewrite E. set_solver. }
    rewrite (co_link _ _ _ _ H) by done. unfold in_list. set_solver.
Qed.

Lemma wp_core_insert s bs B X b f c Q :
  core s bs B (addr b :: X) → b ∈ bs → isfree b = true → addr b ∉ X → bin_of (bsize b) = (f, c) →
  (∀ s', wf s' bs X → evo (hdrs bs) s s' → Q tt s') →
  wp (__tlsf_insert_free_block (addr b) f c) Q s.
Proof.
  intros H Hin Hfree HX Hbin HQ. pose proof (core_placed _ _ _ _ _ H Hin) as Hp.
  assert (is_bin f c) as Hb by (eapply bin_of_is_bin; [|exact Hbin]; destruct Hp; lia).
  pose proof (co_lists _ _ _ _ H) as Hl.
  assert (∀ y, listed B y → y + 32 <= addr b ∨ addr b + 32 <= y) as Hfar.
  { intros y Hy. destruct (core_listed _ _ _ _ _ H Hy) as (d & Hd & <- & _ & Hnx).
    pose proof (core_placed _ _ _ _ _ H Hd) as [_ _ _ _ ? _ _ _ _ _]. destruct Hp.
    destruct (core_apart _ _ _ _ _ _ H Hd Hin) as [->|[?|?]]; [by destruct Hnx; left|unfold end_of in *; lia..]. }
  assert (mapped (heap s) (addr b + 16) (addr b + 32)) as Hm.
  { intros k Hk. apply Hp. unfold end_of. destruct Hp. lia. }
  eapply (wp_insert s B f c (addr b)); [done|done|apply H|apply Hp|destruct Hp; unfold end_of in *; lia|done|done|].
  intros s' Hl' Hc [Hs1 Hs2].
  assert (chg (hdrs bs) (heap s) (heap s')) as Hc'.
  { eapply chg_weaken; [|exact Hc]. intros k [Hk|Hk]; [by apply (core_links s bs B (addr b :: X))|]. exists b. split; [done|lia]. }
  apply HQ; [|by split]. exists (bin_set B f c (addr b :: B f c)). split; rewrite ?Hs1, ?Hs2; try apply H; try done.
  - by apply Hc', H.
  - eapply chg_mapped; [exact Hc'|apply H].
  - eapply phys_frame; [apply H|]. intros d k Hd Hk. apply Hc. intros Hlk.
    assert (∃ e, e ∈ bs ∧ addr e + 16 <= k < addr e + 32) as (e & He & Hke).
    { destruct Hlk as [(y & Hy & Hky)|Hky]; [|by exists b].
      destruct (core_listed _ _ _ _ _ H Hy) as (e & He & <- & _). by exists e. }
    pose proof (core_placed _ _ _ _ _ H He) as [_ _ _ _ ? _ _ _ _ _]. pose proof (core_placed _ _ _ _ _ H Hd) as [_ _ _ _ ? _ _ _ _ _].
    destruct (core_apart _ _ _ _ _ _ H Hd He) as [->|[?|?]]; unfold end_of in *; lia.
  - intros f' c' y Hb'. assert (y ∈ bin_set B f c (addr b :: B f c) f' c' ↔ y ∈ B f' c' ∨ y = addr b ∧ f' = f ∧ c' = c) as ->.
    { unfold bin_set. case_decide as Hd; [destruct Hd as [-> ->]; rewrite elem_of_cons|]; tauto. }
    rewrite (co_link _ _ _ _ H) by done. unfold in_list. rewrite not_elem_of_cons. split.
    + intros [[[Hne HnX] Hex]|(-> & -> & ->)]; (split; [done|]); [done|by exists b].
    + intros [HnX (d & Hd & <- & Hdf & Hdb)]. destruct (decide (addr d = addr b)) as [Heq|]; [|left; split; [done|by exists d]].
      right. assert (d = b) as -> by by eapply core_inj. rewrite Hbin in Hdb. by simplify_eq.
Qed.

(** ** Edits of the headers *)

Lemma lists_heap s B m' : lists s B → (∀ x k, listed B x → x + 16 <= k < x + 32 → m' !! k = heap s !! k) →
  lists (with_heap m' s) B.
Proof.
  intros [A1 A2 A3 A4 A5 A6] Hf. split; try done. intros f c Hb. eapply seg_frame; [by apply A2|].
  intros x k Hx Hk. apply (Hf x); [by exists f, c|done].
Qed.

(** The bytes of [P] are rewritten, and the heap reads as [bs']. *)
Lemma core_edit s bs B X P m' bs' X' :
  core s bs B X → chg P (heap s) m' →
  (∀ k b, b ∈ bs → isfree b = true → addr b ∉ X → addr b + 16 <= k < addr b + 32 → ¬ P k) →
  phys m' 0 (heap_start (ctl s)) bs' (heap_end (ctl s)) →
  (∀ x f c, in_list bs X x f c ↔ in_list bs' X' x f c) →
  core (with_heap m' s) bs' B X'.
Proof.
  intros H Hc HP Hp Hl. pose proof H as [A1 A2 A3 A4 A5 A6 A7]. split; try done.
  - by apply Hc.
  - by eapply chg_mapped.
  - apply lists_heap; [done|]. intros x k Hx Hk. apply Hc.
    destruct (core_listed _ _ _ _ _ H Hx) as (b & Hb & <- & Hfb & HX). by eapply HP.
  - intros f c x Hb. rewrite <- Hl. by apply A7.
Qed.

(** Blocks that are not in any list may be named in [X]. *)
Lemma core_exclude s bs B X x : (∀ b, b ∈ bs → addr b = x → isfree b = false) →
  core s bs B X ↔ core s bs B (x :: X).
Proof.
  intros Hx. assert (∀ y f c, in_list bs X y f c ↔ in_list bs (x :: X) y f c) as Hl.
  { intros y f c. unfold in_list. rewrite not_elem_of_cons. split.
    - intros [HX (b & Hb & Ha & Hf & Hz)]. split; [|by exists b]. split; [|done]. intros ->. rewrite Hx in Hf by done. done.
    - intros [[_ HX] Hex]. done. }
  split; intros [A1 A2 A3 A4 A5 A6 A7]; split; try done; intros f c y Hb; [rewrite <- Hl|rewrite Hl]; by apply A7.
Qed.

(** Two headers do not overlap. *)
Lemma core_far s bs B X b c : core s bs B X → b ∈ bs → c ∈ bs → addr b ≠ addr c →
  addr b + 32 + bsize b <= addr c ∨ addr c + 32 + bsize c <= addr b.
Proof. intros H Hb Hc Hne. destruct (core_apart _ _ _ _ _ _ H Hb Hc) as [->|]; [done|by unfold end_of in *]. Qed.

(** The parts around a block. *)
Lemma phys_middle m p a l1 b l2 e : phys m p a (l1 ++ b :: l2) e ↔
  phys m p a l1 (addr b) ∧ TLSF_BLOCK_MIN <= bsize b ∧ bsize b mod 8 = 0 ∧
  wd m (addr b) (word_of b) ∧ wd m (addr b + 8) (prev_of p l1) ∧ phys m (addr b) (end_of b) l2 e.
Proof.
  rewrite phys_app. cbn. split.
  - intros (mid & H1 & <- & H). by split_and!; try apply H.
  - intros (H1 & H). exists (addr b). by split_and!; try apply H.
Qed.

(** A block whose flags are rewritten. *)
Lemma core_rehead s l1 b l2 B X b' m' :
  core s (l1 ++ b :: l2) B X → addr b' = addr b → bsize b' = bsize b →
  (isfree b' = isfree b ∨ addr b ∈ X) →
  chg (fun k => addr b <= k < addr b + 8) (heap s) m' → wd m' (addr b) (word_of b') →
  core (with_heap m' s) (l1 ++ b' :: l2) B X.
Proof.
  intros H Ea Ez Hf Hc Hw. assert (b ∈ l1 ++ b :: l2) as Hin by set_solver.
  eapply core_edit; [exact H|exact Hc| | |].
  - intros k d Hd _ _ Hk. cbv beta. destruct (decide (addr d = addr b)) as [|Hne]; [lia|].
    pose proof (core_far _ _ _ _ _ _ H Hd Hin Hne). pose proof (core_placed _ _ _ _ _ H Hd) as []. 
    pose proof (core_placed _ _ _ _ _ H Hin) as []. lia.
  - pose proof (co_phys _ _ _ _ H) as Hp. rewrite phys_middle in Hp. rewrite phys_middle, Ea.
    destruct Hp as (P1 & P2 & P3 & P4 & P5 & P6). rewrite Ez. split_and!; [|done|done|done| |].
    + eapply phys_frame; [exact P1|]. intros d k Hd Hk. apply Hc. cbv beta. apply phys_bounds in P1 as [_ P1].
      destruct (P1 d Hd) as (? & ? & ? & _). unfold end_of, TLSF_BLOCK_MIN in *. lia.
    + eapply wd_chg; [exact Hc| |exact P5]. intros k Hk. cbv beta. lia.
    + assert (end_of b' = end_of b) as -> by (unfold end_of; lia).
      eapply phys_frame; [exact P6|]. intros d k Hd Hk. apply Hc. cbv beta. apply phys_bounds in P6 as [_ P6].
      destruct (P6 d Hd) as (? & ? & ? & _). unfold end_of, TLSF_BLOCK_MIN in *. lia.
  - intros x f c. unfold in_list. split; intros [HX (d & Hd & Hda & Hdf & Hdz)]; (split; [done|]).
    + destruct (decide (d = b)) as [->|Hne]; [exists b'|exists d; set_solver]. split; [set_solver|].
      rewrite Ea, Ez. destruct Hf as [->|Hf]; [done|]. by rewrite Hda in Hf.
    + destruct (decide (d = b')) as [->|Hne]; [exists b|exists d; set_solver]. split; [set_solver|].
      rewrite <- Ea, <- Ez. destruct Hf as [<-|Hf]; [done|]. rewrite <- Ea, Hda in Hf. done.
Qed.

(** The link back of the block at [e], if there is one. *)
Definition relinked (s : arena) (e v : Z) (m m' : mem) : Prop :=
  chg (fun k => e < heap_end (ctl s) ∧ e + 8 <= k < e + 16) m m' ∧ (e < heap_end (ctl s) → wd m' (e + 8) v).

Lemma wp_relink s p e l v Q :
  phys (heap s) p e l (heap_end (ctl s)) → 0 <= e → heap_end (ctl s) < 2 ^ 64 → bytes_ok (heap s) → 0 <= v < 2 ^ 64 →
  (∀ m', relinked s e v (heap s) m' → Q tt (with_heap m' s)) →
  wp (if e <? heap_end (ctl s) then set_prev_phys e v else ret tt) Q s.
Proof.
  intros Hp He Hh Hb Hv HQ. destruct (Z.ltb_spec e (heap_end (ctl s))) as [Hlt|Hge].
  - destruct l as [|b l]; cbn in Hp; [lia|]. destruct Hp as (Hae & Hmin & _ & _ & Hw & Hp).
    apply phys_bounds in Hp as [Hp _]. unfold end_of, TLSF_BLOCK_MIN in *.
    apply wp_set_prev_phys; [lia|lia|done|by replace (e + 16) with (e + 8 + 8) by lia; eapply wd_mapped|done|].
    + intros m' Hc Hw'. apply HQ. split; [|done]. eapply chg_weaken; [|exact Hc]. intros k Hk. cbv beta in Hk. lia.
  - apply wp_ret. assert (Q tt (with_heap (heap s) s)) as HQ' by (apply HQ; split; [apply chg_refl|lia]).
    by destruct s.
Qed.

(** Adjacent blocks in no list are replaced by others that take the same room. *)
Lemma core_replace s l1 u l2 B X m' u' X' a e :
  core s (l1 ++ u ++ l2) B X →
  phys (heap s) 0 (heap_start (ctl s)) l1 a → phys (heap s) (prev_of 0 l1) a u e →
  (∀ b, b ∈ u → isfree b = true → addr b ∈ X) → (∀ b, b ∈ u' → isfree b = true → addr b ∈ X') →
  (∀ b, b ∈ l1 ++ l2 → addr b ∈ X ↔ addr b ∈ X') →
  chg (fun k => a <= k < e ∨ e < heap_end (ctl s) ∧ e + 8 <= k < e + 16) (heap s) m' →
  phys m' (prev_of 0 l1) a u' e → (e < heap_end (ctl s) → wd m' (e + 8) (prev_of (prev_of 0 l1) u')) →
  core (with_heap m' s) (l1 ++ u' ++ l2) B X'.
Proof.
  intros H P1 Pu Hu Hu' HX Hc Pu' Hw. pose proof (co_phys _ _ _ _ H) as Hp.
  apply phys_app in Hp as (a' & P1' & Hp). apply phys_app in Hp as (e' & Pu2 & P2).
  pose proof (phys_end _ _ _ _ _ _ P1 P1') as ->. pose proof (phys_end _ _ _ _ _ _ Pu Pu2) as ->.
  pose proof (phys_bounds _ _ _ _ _ Pu) as [Hae _].
  assert (∀ b, b ∈ l1 → end_of b <= a ∧ 16 <= bsize b) as H1.
  { intros b Hb. apply phys_bounds in P1 as [_ P1]. destruct (P1 b Hb) as (? & ? & ? & _). done. }
  assert (∀ b, b ∈ l2 → e <= addr b ∧ 16 <= bsize b) as H2.
  { intros b Hb. apply phys_bounds in P2 as [_ P2]. destruct (P2 b Hb) as (? & ? & ? & _). done. }
  eapply core_edit; [exact H|exact Hc| | |].
  - intros k b Hb Hf Hn Hk. cbv beta. rewrite !elem_of_app in Hb. destruct Hb as [Hb|[Hb|Hb]].
    + apply H1 in Hb. unfold end_of in Hb. lia.
    + by destruct Hn; apply Hu.
    + apply H2 in Hb. lia.
  - apply phys_app. exists a. split; [|apply phys_app; exists e; split; [done|]].
    + eapply phys_frame; [exact P1|]. intros b k Hb Hk. apply Hc. cbv beta. apply H1 in Hb. unfold end_of in Hb. lia.
    + eapply phys_relink; [exact P2| |].
      * intros b k Hb Hk Hn. apply Hc. cbv beta. apply H2 in Hb. lia.
      * intros Hl2. apply Hw. destruct l2 as [|b l2]; [done|]. cbn in P2. destruct P2 as (? & Hm & _ & _ & _ & P2).
        apply phys_bounds in P2 as [P2 _]. unfold end_of, TLSF_BLOCK_MIN in *. lia.
  - intros x f c. unfold in_list. split; intros [HnX (b & Hb & Ha & Hf & Hz)]; rewrite !elem_of_app in Hb; destruct Hb as [Hb|[Hb|Hb]].
    1, 3: split; [rewrite <- Ha, <- HX by set_solver; by rewrite Ha|exists b; split; [set_solver|done]].
    1: by rewrite <- Ha in HnX; destruct HnX; apply Hu.
    1, 3: split; [rewrite <- Ha, HX by set_solver; by rewrite Ha|exists b; split; [set_solver|done]].
    by rewrite <- Ha in HnX; destruct HnX; apply Hu'.
Qed.

(** Joining a block with the next one, splitting one in two. *)
Section Join_and_split.
Context (s : arena) (l1 : list blk) (b c : blk) (l2 : list blk) (d : blk) (X : list Z).
Context (Hadj : addr c = end_of b) (Haddr : addr d = addr b) (Hsize : bsize d = bsize b + 32 + bsize c).

Lemma join_end : end_of d = end_of c.
Proof using Hadj Haddr Hsize. unfold end_of in *. lia. Qed.

Lemma core_join B m' : core s (l1 ++ b :: c :: l2) B X →
  (isfree b = true → addr b ∈ X) → (isfree c = true → addr c ∈ X) → (isfree d = true → addr d ∈ X) →
  chg (fun k => addr b <= k < addr b + 8 ∨ end_of c < heap_end (ctl s) ∧ end_of c + 8 <= k < end_of c + 16) (heap s) m' →
  wd m' (addr b) (word_of d) → (end_of c < heap_end (ctl s) → wd m' (end_of c + 8) (addr b)) →
  core (with_heap m' s) (l1 ++ d :: l2) B X.
Proof using Hadj Haddr Hsize.
  intros H Hb Hc Hd Hch W1 W2. pose proof (co_phys _ _ _ _ H) as Hp. rewrite phys_middle in Hp.
  destruct Hp as (P1 & P2 & P3 & P4 & P5 & P6). cbn in P6. destruct P6 as (_ & Q1 & Q2 & Q3 & Q4 & Q5).
  unfold TLSF_BLOCK_MIN in *.
  apply (core_replace s l1 [b; c] l2 B X m' [d] X (addr b) (end_of c)); try done.
  - intros x [->| ->%list_elem_of_singleton]%elem_of_cons; done.
  - by intros x ->%list_elem_of_singleton.
  - eapply chg_weaken; [|exact Hch]. intros k [Hk|Hk]; [left|by right]. unfold end_of in *. lia.
  - cbn [phys]. unfold TLSF_BLOCK_MIN. split_and!; try done; try lia.
    + rewrite Hsize. dlia.
    + eapply wd_chg; [exact Hch| |exact P5]. intros k Hk. cbv beta. unfold end_of in *. lia.
    + apply join_end.
  - cbn. by rewrite Haddr.
Qed.

Lemma core_split B m' X' : core s (l1 ++ d :: l2) B X →
  TLSF_BLOCK_MIN <= bsize b → bsize b mod 8 = 0 → TLSF_BLOCK_MIN <= bsize c →
  (isfree d = true → addr d ∈ X) → (isfree b = true → addr b ∈ X') → (isfree c = true → addr c ∈ X') →
  (∀ x, x ∈ l1 ++ l2 → addr x ∈ X ↔ addr x ∈ X') →
  chg (fun k => addr b <= k < addr b + 8 ∨ addr c <= k < addr c + 32 ∨
    end_of c < heap_end (ctl s) ∧ end_of c + 8 <= k < end_of c + 16) (heap s) m' →
  wd m' (addr b) (word_of b) → wd m' (addr c) (word_of c) → wd m' (addr c + 8) (addr b) →
  (end_of c < heap_end (ctl s) → wd m' (end_of c + 8) (addr c)) →
  core (with_heap m' s) (l1 ++ b :: c :: l2) B X'.
Proof using Hadj Haddr Hsize.
  intros H M1 M2 M3 Hd Hb Hc HX Hch W1 W2 W3 W4. pose proof (co_phys _ _ _ _ H) as Hp. rewrite phys_middle in Hp.
  destruct Hp as (P1 & P2 & P3 & P4 & P5 & P6). unfold TLSF_BLOCK_MIN in *. rewrite join_end in P6. rewrite Haddr in *.
  apply (core_replace s l1 [d] l2 B X m' [b; c] X' (addr b) (end_of c)); try done.
  - cbn [phys]. rewrite Haddr, join_end. unfold TLSF_BLOCK_MIN. by split_and!.
  - intros x ->%list_elem_of_singleton. by rewrite Haddr.
  - intros x [->| ->%list_elem_of_singleton]%elem_of_cons; done.
  - eapply chg_weaken; [|exact Hch]. intros k [Hk|[Hk|Hk]]; [left|left|by right]; unfold end_of in *; lia.
  - cbn [phys]. rewrite <- Hadj. unfold TLSF_BLOCK_MIN. split_and!; try done.
    + eapply wd_chg; [exact Hch| |exact P5]. intros k Hk. cbv beta. unfold end_of in *. lia.
    + rewrite Hsize in P3. revert M2 P3. generalize (bsize b) (bsize c). intros. dlia.
Qed.
End Join_and_split.

(** ** Accesses to a block of the heap *)

Section Placed.
Context (s : arena) (b : blk) (Hp : placed s b).

Lemma pl_word_ok : 0 <= addr b < 2 ^ 64 ∧ bsize b mod 4 = 0 ∧ 0 <= bsize b < 2 ^ 64 ∧ size_ok (bsize b).
Proof using Hp. destruct Hp. unfold size_ok, end_of in *. split_and!; try lia; dlia. Qed.
Lemma pl_get_size Q : Q (bsize b) s → wp (tlsf_get_block_size (addr b)) Q s.
Proof using Hp. destruct pl_word_ok as (? & ? & ? & _). intros. by eapply wp_get_size; [..|apply Hp|]. Qed.
Lemma pl_is_free Q : Q (isfree b) s → wp (tlsf_block_is_free (addr b)) Q s.
Proof using Hp. destruct pl_word_ok as (? & ? & ? & _). intros. by eapply wp_is_free; [..|apply Hp|]. Qed.
Lemma pl_prev_is_free Q : Q (pfree b) s → wp (tlsf_prev_is_free (addr b)) Q s.
Proof using Hp. destruct pl_word_ok as (? & ? & ? & _). intros. by eapply wp_prev_is_free; [..|apply Hp|]. Qed.
Lemma pl_next Q : Q (end_of b) s → wp (tlsf_next_block (addr b)) Q s.
Proof using Hp.
  destruct pl_word_ok as (? & ? & ? & _). intros. eapply wp_next_block; [..|apply Hp| |]; try done.
  destruct Hp. unfold end_of in *. lia.
Qed.
End Placed.

Lemma wp_inside n Q s : Q (n <? heap_end (ctl s)) s → wp (in_heap_before_end n) Q s.
Proof. done. Qed.
Lemma wp_map z Q s : 0 <= z < 2 ^ 32 → Q (bin_of z) s → wp (tlsf_map_insert z) Q s.
Proof. intros Hz H. unfold tlsf_map_insert, lift, wp. by rewrite map_bin. Qed.

(** The word of a block is rewritten. *)
Lemma wp_rehead (op : Z → T unit) s l1 b l2 X b' Q :
  wf s (l1 ++ b :: l2) X → addr b' = addr b → bsize b' = bsize b → (isfree b' = isfree b ∨ addr b ∈ X) →
  (∀ R, reword (addr b) s (word_of b') R → wp (op (addr b)) R s) →
  (∀ s', wf s' (l1 ++ b' :: l2) X → evo (hdrs (l1 ++ b :: l2)) s s' → Q tt s') → wp (op (addr b)) Q s.
Proof.
  intros [B H] Ea Ez Hf Hop HQ. apply Hop. intros m' Hc Hw. apply HQ.
  - exists B. by eapply core_rehead.
  - apply evo_heap. eapply chg_weaken; [|exact Hc]. intros k Hk. cbv beta in Hk. exists b. split; [set_solver|lia].
Qed.

Definition set_free (f : bool) (b : blk) : blk := Blk (addr b) (bsize b) f (pfree b).
Definition set_pfree (p : bool) (b : blk) : blk := Blk (addr b) (bsize b) (isfree b) p.
Definition flag_head (p : bool) (l : list blk) : list blk :=
  match l with [] => [] | b :: l => set_pfree p b :: l end.

Section Marks.
Context (s : arena) (l1 : list blk) (b : blk) (l2 : list blk) (X : list Z).
Context (H : wf s (l1 ++ b :: l2) X).
Local Abbreviation bs := (l1 ++ b :: l2).

Lemma wf_placed c : c ∈ bs → placed s c.
Proof using H. destruct H as [B HB]. by eapply core_placed. Qed.
Lemma wf_here : placed s b.
Proof using H. apply wf_placed. set_solver. Qed.
Lemma wf_bytes : bytes_ok (heap s).
Proof using H. destruct H as [B HB]. apply HB. Qed.

Lemma wp_mark (f : bool) (op : Z → T unit) Q : addr b ∈ X →
  op = (if f then tlsf_set_block_free else tlsf_unset_block_free) →
  (∀ s', wf s' (l1 ++ set_free f b :: l2) X → evo (hdrs bs) s s' → Q tt s') → wp (op (addr b)) Q s.
Proof using H.
  intros HX -> HQ. eapply (wp_rehead _ s l1 b l2 X (set_free f b)); try done; [by right|]. intros R HR.
  destruct (pl_word_ok s b wf_here) as (? & ? & ? & []). pose proof (pl_word _ _ wf_here) as Hw. pose proof wf_bytes.
  destruct f; [apply (wp_set_free (addr b) (bsize b) (isfree b) (pfree b))|apply (wp_unset_free (addr b) (bsize b) (isfree b) (pfree b))]; try done; lia.
Qed.
Lemma wp_mark_prev (p : bool) (op : Z → T unit) Q :
  op = (if p then tlsf_set_prev_phys_free else tlsf_unset_prev_phys_free) →
  (∀ s', wf s' (l1 ++ set_pfree p b :: l2) X → evo (hdrs bs) s s' → Q tt s') → wp (op (addr b)) Q s.
Proof using H.
  intros -> HQ. eapply (wp_rehead _ s l1 b l2 X (set_pfree p b)); try done; [by left|]. intros R HR.
  destruct (pl_word_ok s b wf_here) as (? & ? & ? & []). pose proof (pl_word _ _ wf_here) as Hw. pose proof wf_bytes.
  destruct p; [apply (wp_set_pfree (addr b) (bsize b) (isfree b) (pfree b))|apply (wp_unset_pfree (addr b) (bsize b) (isfree b) (pfree b))]; try done; lia.
Qed.

(** The other blocks start elsewhere. *)
Lemma wf_others c : c ∈ l1 ++ l2 → addr c ≠ addr b.
Proof using H.
  destruct H as [B HB]. pose proof (co_phys _ _ _ _ HB) as Hp. rewrite phys_middle in Hp.
  destruct Hp as (P1 & M & _ & _ & _ & P2). intros [Hc|Hc]%elem_of_app.
  - apply phys_bounds in P1 as [_ P1]. destruct (P1 c Hc) as (_ & ? & ? & _). unfold end_of, TLSF_BLOCK_MIN in *. lia.
  - apply phys_bounds in P2 as [_ P2]. destruct (P2 c Hc) as (? & _). unfold end_of, TLSF_BLOCK_MIN in *. lia.
Qed.
(** The next block is in the heap exactly if there is one. *)
Lemma next_inside : (end_of b <? heap_end (ctl s)) = match l2 with [] => false | _ => true end.
Proof using H.
  destruct H as [B HB]. pose proof (co_phys _ _ _ _ HB) as Hp. rewrite phys_middle in Hp. destruct Hp as (_ & _ & _ & _ & _ & Hp).
  destruct l2 as [|c l]; cbn in Hp; [apply Z.ltb_ge; lia|]. destruct Hp as (Ha & Hm & _ & _ & _ & Hp).
  apply phys_bounds in Hp as [Hp _]. unfold end_of, TLSF_BLOCK_MIN in *. apply Z.ltb_lt. lia.
Qed.
Lemma next_addr c l : l2 = c :: l → end_of b = addr c.
Proof using H.
  intros ->. destruct H as [B HB]. pose proof (co_phys _ _ _ _ HB) as Hp. rewrite phys_middle in Hp.
  destruct Hp as (_ & _ & _ & _ & _ & Hp). cbn in Hp. by destruct Hp.
Qed.
End Marks.

Lemma hdrs_set l1 b b' l2 : addr b' = addr b → ∀ k, hdrs (l1 ++ b' :: l2) k ↔ hdrs (l1 ++ b :: l2) k.
Proof.
  intros E k. unfold hdrs. setoid_rewrite elem_of_app. setoid_rewrite elem_of_cons. split; intros (c & Hc & Hk).
  - destruct Hc as [Hc|[->|Hc]]; [exists c; by auto|exists b; rewrite <- E; by auto|exists c; by auto].
  - destruct Hc as [Hc|[->|Hc]]; [exists c; by auto|exists b'; rewrite E; by auto|exists c; by auto].
Qed.

(** [__tlsf_mark_free] and [__tlsf_unmark_free]. *)
Lemma wp_mark_both (f : bool) op s l1 b l2 X Q : wf s (l1 ++ b :: l2) X → addr b ∈ X →
  op = (if f then __tlsf_mark_free else __tlsf_unmark_free) →
  (∀ s', wf s' (l1 ++ set_free f b :: flag_head f l2) X → evo (hdrs (l1 ++ b :: l2)) s s' → Q tt s') →
  wp (op (addr b)) Q s.
Proof.
  intros H HX -> HQ. assert (wp ((if f then tlsf_set_block_free else tlsf_unset_block_free) (addr b) ;;;
    next <~ tlsf_next_block (addr b) ;; inside <~ in_heap_before_end next ;;
    if inside then (if f then tlsf_set_prev_phys_free else tlsf_unset_prev_phys_free) next else ret tt) Q s) as Hwp.
  2: by destruct f.
  apply wp_bind. eapply (wp_mark s l1 b l2 X H f); [done..|]. intros s1 H1 E1. apply wp_bind.
  change (addr b) with (addr (set_free f b)). apply pl_next; [by eapply wf_here|]. apply wp_bind, wp_inside.
  erewrite next_inside by exact H1. destruct l2 as [|c l2]; [by apply wp_ret, HQ|].
  rewrite (next_addr s1 l1 (set_free f b) (c :: l2) X H1 c l2 eq_refl).
  replace (l1 ++ set_free f b :: c :: l2) with ((l1 ++ [set_free f b]) ++ c :: l2) in H1 by by rewrite <- app_assoc.
  eapply (wp_mark_prev s1 _ c l2 X H1 f); [done|]. intros s2 H2 E2. apply HQ.
  - by rewrite <- app_assoc in H2.
  - eapply evo_trans; [exact E1|]. eapply evo_weaken; [|exact E2]. intros k. rewrite <- app_assoc. by apply hdrs_set.
Qed.

(** ** Joining free blocks *)

Lemma wp_tail {A B C} (a : T unit) (b : T A) (c : A → T B) (d : A → B → T unit) (k : T C) Q s :
  wp (a ;;; x <~ b ;; y <~ c x ;; d x y) (fun _ => wp k Q) s → wp (a ;;; x <~ b ;; y <~ c x ;; d x y ;;; k) Q s.
Proof.
  unfold wp, bind. destruct (a s) as [[[] s1]|]; [|done]. destruct (b s1) as [[x s2]|]; [|done].
  destruct (c x s2) as [[y s3]|]; [|done]. by destruct (d x y s3) as [[[] s4]|].
Qed.

Definition joined (b c : blk) : blk := Blk (addr b) (bsize b + 32 + bsize c) (isfree b) (pfree b).

Lemma wf_drop s bs x X : (∀ b, b ∈ bs → addr b ≠ x) → wf s bs (x :: X) → wf s bs X.
Proof. intros Hx [B H]. exists B. apply (core_exclude s bs B X x); [|done]. intros b Hb Ha. by apply Hx in Hb. Qed.

Lemma wf_unlist s bs b X : b ∈ bs → isfree b = false → wf s bs (addr b :: X) ↔ wf s bs X.
Proof.
  intros Hb Hf. split; intros [B H]; exists B; apply (core_exclude s bs B X (addr b)); try done; intros d Hd Ha;
    by rewrite (core_inj _ _ _ _ d b H Hd Hb Ha).
Qed.

Section Join.
Context (s : arena) (l1 : list blk) (b c : blk) (l2 : list blk) (X : list Z).
Context (H : wf s (l1 ++ b :: c :: l2) X).
Local Abbreviation bs := (l1 ++ b :: c :: l2).

Lemma join_placed : placed s b ∧ placed s c ∧ addr c = end_of b.
Proof using H.
  split_and!; [apply (wf_placed s l1 b (c :: l2) X H); set_solver..|].
  symmetry. by apply (next_addr s l1 b (c :: l2) X H c l2).
Qed.
Lemma join_size : bsize b + 32 + bsize c < 2 ^ 32 - 32.
Proof using H.
  destruct join_placed as ([] & [] & E). destruct H as [B HB]. pose proof (co_range _ _ _ _ HB). unfold end_of in *. lia.
Qed.

Lemma wp_join Q :
  (isfree b = true → addr b ∈ X) → (isfree c = true → addr c ∈ X) →
  (∀ s', wf s' (l1 ++ joined b c :: l2) X → evo (hdrs bs) s s' → Q tt s') →
  wp (tlsf_set_block_size (addr b) (bsize b + 32 + bsize c) ;;; nn <~ tlsf_next_block (addr c) ;;
      inside <~ in_heap_before_end nn ;; if inside then set_prev_phys nn (addr b) else ret tt) Q s.
Proof using H.
  intros Hb Hc HQ. destruct join_placed as (Pb & Pc & E). pose proof join_size as Hz.
  destruct (pl_word_ok s b Pb) as (B1 & B2 & B3 & _). destruct (pl_word_ok s c Pc) as (C1 & C2 & C3 & _).
  pose proof (wf_bytes _ _ _ _ _ H) as Hby. pose proof H as [B HB].
  apply wp_bind, (wp_set_size (addr b) (bsize b) (isfree b) (pfree b)); try done; [apply Pb|split; [lia|dlia]|].
  intros m1 Ch1 W1. apply wp_bind. assert (wd m1 (addr c) (word_of c)) as Wc.
  { eapply wd_chg; [exact Ch1| |apply Pc]. intros k Hk. cbv beta. destruct Pb. unfold end_of in *. lia. }
  eapply wp_next_block; [exact C1|exact C2|exact C3|exact Wc|destruct Pc; unfold end_of in *; lia|].
  apply wp_bind, wp_inside. change (addr c + 32 + bsize c) with (end_of c).
  pose proof (co_phys _ _ _ _ HB) as Hp. replace bs with ((l1 ++ [b]) ++ c :: l2) in Hp by by rewrite <- app_assoc.
  rewrite phys_middle in Hp. destruct Hp as (_ & _ & _ & _ & _ & Hp).
  eapply (wp_relink (with_heap m1 s) (addr c) (end_of c) l2); cbn [heap with_heap ctl].
  - eapply phys_frame; [exact Hp|]. intros x k Hx Hk. apply Ch1. cbv beta. apply phys_bounds in Hp as [_ Hp].
    destruct (Hp x Hx) as (? & _). destruct Pb, Pc. unfold end_of in *. lia.
  - destruct Pc. unfold end_of. lia.
  - apply Pc.
  - by apply Ch1.
  - done.
  - intros m2 [Ch2 W2]. cbn [heap with_heap ctl] in *.
    assert (chg (fun k => addr b <= k < addr b + 8 ∨ end_of c < heap_end (ctl s) ∧ end_of c + 8 <= k < end_of c + 16) (heap s) m2) as Ch.
    { eapply chg_trans; (eapply chg_weaken; [|eassumption]); intros k Hk; cbv beta in *; tauto. }
    change (Q tt (with_heap m2 s)). apply HQ.
    + exists B. apply (core_join s l1 b c l2 (joined b c) X E eq_refl eq_refl B m2 HB); try done.
      eapply wd_chg; [exact Ch2| |exact W1]. intros k Hk. cbv beta. destruct Pb, Pc. unfold end_of in *. lia.
    + apply evo_heap. eapply chg_weaken; [|exact Ch]. intros k [Hk|[He Hk]]; [exists b; split; [set_solver|lia]|].
      destruct l2 as [|d l3]; cbn in Hp; [lia|]. destruct Hp as [Hd _]. exists d. split; [set_solver|lia].
Qed.

(** No block starts where the second one did. *)
Lemma join_gone s' X' : wf s' (l1 ++ joined b c :: l2) X' → ∀ d, d ∈ l1 ++ joined b c :: l2 → addr d ≠ addr c.
Proof using H.
  destruct join_placed as (Pb & Pc & E). intros [B' H'] d Hd Ha.
  assert (joined b c ∈ l1 ++ joined b c :: l2) as Hj by set_solver.
  pose proof (core_placed _ _ _ _ _ H' Hd) as []. pose proof (core_placed _ _ _ _ _ H' Hj) as [].
  destruct Pb, Pc. destruct (core_apart _ _ _ _ _ _ H' Hd Hj) as [->|[?|?]]; cbn in *; unfold end_of in *; cbn in *; lia.
Qed.
Lemma join_drop s' : wf s' (l1 ++ joined b c :: l2) (addr c :: X) → wf s' (l1 ++ joined b c :: l2) X.
Proof using H. intros H'. eapply wf_drop; [|exact H']. by eapply join_gone. Qed.
End Join.

(** [__tlsf_merge_next]: the next block is joined if it is free. *)
Lemma wp_merge_next s l1 b l2 X Q :
  wf s (l1 ++ b :: l2) X → (isfree b = true → addr b ∈ X) → (∀ c, c ∈ l2 → addr c ∉ X) →
  ((∀ c l3, l2 = c :: l3 → isfree c = false) → Q (addr b) s) →
  (∀ c l3 s', l2 = c :: l3 → isfree c = true → wf s' (l1 ++ joined b c :: l3) X → evo (hdrs (l1 ++ b :: l2)) s s' → Q (addr b) s') →
  wp (__tlsf_merge_next (addr b)) Q s.
Proof.
  intros H Hb HX Hno Hyes. pose proof (wf_here _ _ _ _ _ H) as Pb. unfold __tlsf_merge_next.
  apply wp_bind, pl_next; [done|]. apply wp_bind, wp_inside. rewrite (next_inside _ _ _ _ _ H).
  destruct l2 as [|c l3]; [apply wp_bind, wp_ret, wp_bind, wp_ret, wp_ret, Hno; by intros|].
  rewrite (next_addr s l1 b (c :: l3) X H c l3 eq_refl).
  assert (placed s c) as Pc by (apply (wf_placed s l1 b (c :: l3) X H); set_solver).
  apply wp_bind, pl_is_free; [done|]. destruct (isfree c) eqn:Hcf.
  2: { apply wp_bind, wp_ret, wp_ret, Hno. intros c' l' [= <- <-]. done. }
  pose proof (join_size s l1 b c l3 X H) as Hz. pose proof Pb as []. pose proof Pc as [].
  apply wp_bind, wp_bind, pl_get_size; [done|]. apply wp_bind, wp_map; [lia|].
  destruct (bin_of (bsize c)) as [f k] eqn:Hbin. cbv beta iota. apply wp_bind. destruct H as [B H].
  eapply (wp_core_remove s _ B X c f k); [exact H|set_solver|done|apply HX; by left|done|]. intros s1 H1 E1.
  apply wp_bind, pl_get_size; [eapply wf_here; exact H1|]. cbv zeta.
  unfold u64, sizeof_tlsf_block. rewrite wrap_small by lia.
  replace (bsize b + bsize c + 32) with (bsize b + 32 + bsize c) by lia.
  eapply (wp_join s1 l1 b c l3 (addr c :: X)); [done|intros; right; auto|by left|]. intros s2 H2 E2.
  apply wp_ret. eapply Hyes; [done|done| |by eapply evo_trans].
  eapply join_drop; [by exists B|exact H2].
Qed.

(** [__tlsf_merge_prev]: the previous block is joined if the flag says that it
    is free. *)
Lemma wp_merge_prev s l1 b l2 X Q :
  wf s (l1 ++ b :: l2) X → flags false (l1 ++ b :: l2) → addr b ∈ X → (∀ a, a ∈ l1 → addr a ∉ X) →
  (pfree b = false → Q (addr b) s) →
  (∀ l0 a s', l1 = l0 ++ [a] → isfree a = true → pfree b = true →
     wf s' (l0 ++ joined a b :: l2) (addr a :: X) →
     (∀ d, d ∈ l0 ++ joined a b :: l2 → addr d ≠ addr b) → evo (hdrs (l1 ++ b :: l2)) s s' → Q (addr a) s') →
  wp (__tlsf_merge_prev (addr b)) Q s.
Proof.
  intros H Hfl HbX HX Hno Hyes. pose proof (wf_here _ _ _ _ _ H) as Pb. unfold __tlsf_merge_prev.
  apply wp_bind, pl_prev_is_free; [done|]. destruct (pfree b) eqn:Hpf; cbn [negb]; [|by apply wp_ret, Hno].
  apply flags_app in Hfl as [_ [Hfl _]]. specialize (Hfl Hpf).
  destruct l1 as [|a l0 _] using rev_ind; [done|]. rewrite prev_free_of_snoc in Hfl.
  pose proof H as [B HB]. pose proof (co_phys _ _ _ _ HB) as Hp. rewrite phys_middle, prev_of_snoc in Hp.
  destruct Hp as (_ & _ & _ & _ & Hprev & _).
  assert (placed s a) as Pa by (eapply (wf_placed s (l0 ++ [a]) b l2 X H); set_solver).
  pose proof Pa as []. pose proof Pb as []. rewrite <- app_assoc in H, HB, Hyes. cbn [app] in *.
  unfold off_prev_phys. rewrite field_in by (unfold end_of in *; lia). apply wp_bind, (wp_rd _ (addr a)); [done|].
  apply wp_bind, pl_get_size; [done|]. apply wp_bind, wp_map; [lia|].
  destruct (bin_of (bsize a)) as [f k] eqn:Hbin. cbv beta iota. apply wp_bind.
  eapply (wp_core_remove s _ B X a f k); [exact HB|set_solver|done|apply HX; set_solver|done|]. intros s1 H1 E1.
  pose proof (join_size s1 l0 a b l2 _ H1) as Hz.
  apply wp_bind, pl_get_size; [eapply (wf_placed s1 l0 a); [exact H1|set_solver]|]. cbv zeta.
  unfold u64, sizeof_tlsf_block. rewrite wrap_small by lia. apply wp_tail.
  eapply (wp_join s1 l0 a b l2 (addr a :: X)); [done|by left|by right|]. intros s2 H2 E2.
  apply wp_ret. eapply Hyes; [done|done|done|exact H2| |by eapply evo_trans].
  by eapply join_gone.
Qed.

(** ** Splitting a block *)

Section Cut.
Context (s : arena) (l1 : list blk) (d : blk) (l2 : list blk) (X : list Z) (n : Z).
Context (H : wf s (l1 ++ d :: l2) X) (HdX : isfree d = true → addr d ∈ X).
Context (Hn : 16 <= n) (Hn8 : n mod 8 = 0) (Hfit : n + 48 <= bsize d).
Local Abbreviation x := (addr d + 32 + n).
Local Abbreviation z := (bsize d - n - 32).
Local Abbreviation bs := (l1 ++ d :: l2).
Definition front : blk := Blk (addr d) n (isfree d) (pfree d).
Definition back (f p : bool) : blk := Blk x z f p.

Lemma cut_facts : placed s d ∧ z mod 8 = 0 ∧ size_ok z ∧ size_ok n ∧ 0 <= x ∧ x + 32 + z = end_of d ∧ end_of d < 2 ^ 64.
Proof using H Hn Hn8 Hfit HdX.
  pose proof (wf_here _ _ _ _ _ H) as Pd. pose proof Pd as []. unfold size_ok, end_of in *. split_and!; try done; try lia; dlia.
Qed.
Lemma cut_header : ∃ z0 f0 p0, wd (heap s) x (hword z0 f0 p0) ∧ 0 <= z0 < 2 ^ 64 ∧ z0 mod 4 = 0.
Proof using H Hn Hn8 Hfit HdX.
  destruct cut_facts as (Pd & _). destruct (wd_total (heap s) x) as (v & Hw & Hv); [apply (wf_bytes _ _ _ _ _ H)| |].
  - intros k Hk. apply Pd. destruct Pd. unfold end_of in *. lia.
  - destruct (hword_any v Hv) as (z0 & f0 & p0 & -> & Hz & Hz4). by exists z0, f0, p0.
Qed.

(** The size and the free bit of the part behind. *)
Lemma wp_cut_header {A} (k : T A) Q :
  (∀ m p, chg (fun i => x <= i < x + 8) (heap s) m → wd m x (hword z true p) → wp k Q (with_heap m s)) →
  wp (tlsf_set_block_size x z ;;; tlsf_set_block_free x ;;; k) Q s.
Proof using H Hn Hn8 Hfit HdX.
  intros HQ. destruct cut_facts as (Pd & Hz8 & Hzo & Hno & Hx & Hend & Htop).
  destruct cut_header as (z0 & f0 & p0 & Hw & Hz0 & Hz4). pose proof (wf_bytes _ _ _ _ _ H) as Hb.
  apply wp_bind, (wp_set_size x z0 f0 p0); try done; [destruct Hzo; lia|]. intros m1 C1 W1.
  apply wp_bind, (wp_set_free x z f0 p0); try done; try (destruct Hzo; lia); [by apply C1|]. intros m2 C2 W2.
  apply (HQ m2 p0); [by eapply chg_trans|exact W2].
Qed.

(** The rest, when the header behind is written. *)
Lemma wp_cut_rest m f p Q :
  chg (fun i => x <= i < x + 32) (heap s) m → wd m x (hword z f p) → wd m (x + 8) (addr d) →
  (∀ s', wf s' (l1 ++ front :: back f p :: l2) (x :: X) → evo (fun i => hdrs bs i ∨ x <= i < x + 32) s s' → Q tt s') →
  wp (tlsf_set_block_size (addr d) n ;;; cn <~ tlsf_next_block x ;; inside <~ in_heap_before_end cn ;;
      if inside then set_prev_phys cn x else ret tt) Q (with_heap m s).
Proof using H Hn Hn8 Hfit HdX.
  intros C0 W0 W8 HQ. destruct cut_facts as (Pd & Hz8 & Hzo & Hno & Hx & Hend & Htop).
  destruct (pl_word_ok s d Pd) as (D1 & D2 & D3 & _). pose proof (wf_bytes _ _ _ _ _ H) as Hb. pose proof H as [B HB].
  assert (wd m (addr d) (word_of d)) as Wd.
  { eapply wd_chg; [exact C0| |apply Pd]. intros i Hi. cbv beta. lia. }
  apply wp_bind, (wp_set_size (addr d) (bsize d) (isfree d) (pfree d)); try done; [by apply C0|].
  intros m1 C1 W1. cbn [heap with_heap] in *. assert (wd m1 x (hword z f p)) as W0'.
  { eapply wd_chg; [exact C1| |exact W0]. intros i Hi. cbv beta. lia. }
  apply wp_bind. eapply (wp_next_block x z f p); try done; try (destruct Hzo; lia).
  apply wp_bind, wp_inside. rewrite Hend. cbn [ctl with_heap].
  pose proof (co_phys _ _ _ _ HB) as Hp. rewrite phys_middle in Hp. destruct Hp as (_ & _ & _ & _ & _ & Hp).
  assert (chg (fun i => addr d <= i < addr d + 8 ∨ x <= i < x + 32) (heap s) m1) as C01.
  { eapply chg_trans; (eapply chg_weaken; [|eassumption]); intros i Hi; cbv beta in *; tauto. }
  eapply (wp_relink (with_heap m1 s) (addr d) (end_of d) l2); cbn [heap with_heap ctl].
  - eapply phys_frame; [exact Hp|]. intros y i Hy Hi. apply C01. cbv beta. apply phys_bounds in Hp as [_ Hp].
    destruct (Hp y Hy) as (? & _). lia.
  - lia.
  - apply Pd.
  - by apply C01.
  - lia.
  - intros m2 [C2 W2]. cbn [heap with_heap ctl] in *. change (Q tt (with_heap m2 s)).
    assert (chg (fun i => addr d <= i < addr d + 8 ∨ x <= i < x + 32 ∨
      end_of d < heap_end (ctl s) ∧ end_of d + 8 <= i < end_of d + 16) (heap s) m2) as C.
    { eapply chg_trans; (eapply chg_weaken; [|eassumption]); intros i Hi; cbv beta in *; tauto. }
    apply HQ.
    + exists B. apply (core_split s l1 front (back f p) l2 d X) with (m' := m2); cbn; unfold TLSF_BLOCK_MIN; try done; try lia.
      * intros Hf. right. auto.
      * intros _. by left.
      * intros y Hy. rewrite elem_of_cons. assert (addr y ≠ x); [|tauto]. intros Ey.
        assert (y ∈ bs) as Hyb by set_solver. assert (d ∈ bs) as Hdb by set_solver.
        pose proof (core_placed _ _ _ _ _ HB Hyb) as [].
        destruct (core_apart _ _ _ _ _ _ HB Hyb Hdb) as [->|[?|?]]; unfold end_of in *; lia.
      * eapply chg_weaken; [|exact C]. intros i. unfold back, end_of. cbn. unfold end_of in Hend. rewrite Hend. tauto.
      * eapply wd_chg; [exact C2| |exact W1]. intros i Hi. cbv beta. lia.
      * eapply wd_chg; [exact C2| |exact W0']. intros i Hi. cbv beta. lia.
      * eapply wd_chg; [exact C2| |]. { intros i Hi. cbv beta. lia. }
        eapply wd_chg; [exact C1| |exact W8]. intros i Hi. cbv beta. lia.
      * unfold back, end_of. cbn. unfold end_of in Hend, W2. by rewrite Hend.
    + apply evo_heap. eapply chg_weaken; [|exact C]. intros i [Hi|[Hi|[He Hi]]]; [left; exists d; split; [set_solver|lia]|by right|].
      destruct l2 as [|y l3]; cbn in Hp; [lia|]. destruct Hp as [Hy _]. left. exists y. split; [set_solver|lia].
Qed.
End Cut.
