(* ===== verification/TlsfAlloc.v ===== *)
(** * TlsfAlloc: what the allocator promises

    The heap seen from outside: the blocks in use, of which nothing is lost or
    overlaps. *)

From S2P Require Import Prelude Std Mem.
From S2P Require Import Tlsf TlsfBlocks TlsfLists TlsfCore.
From Stdlib Require Import ZArith Lia Bool.
From stdpp Require Import base gmap list numbers.

Local Open Scope Z_scope.

(** The blocks in use, by address and size. *)
Definition used (bs : list blk) : list (Z * Z) :=
  omap (fun b => if isfree b then None else Some (addr b, bsize b)) bs.
Lemma used_app l1 l2 : used (l1 ++ l2) = used l1 ++ used l2.
Proof. apply omap_app. Qed.
Lemma used_elem bs a z : (a, z) ∈ used bs ↔ ∃ b, b ∈ bs ∧ isfree b = false ∧ addr b = a ∧ bsize b = z.
Proof.
  unfold used. rewrite list_elem_of_omap. split; intros (b & Hb & H); exists b.
  - destruct (isfree b); [done|]. by injection H as <- <-.
  - destruct H as (Hf & <- & <-). by rewrite Hf.
Qed.
Lemma used_flag_head p l : used (flag_head p l) = used l.
Proof. by destruct l. Qed.

(** No byte of a block in use is written. *)
Definition touch (U : list (Z * Z)) (k : Z) : Prop := ∀ a z, (a, z) ∈ U → ¬ (a + 32 <= k < a + 32 + z).
Lemma touch_sub U U' k : (∀ a z, (a, z) ∈ U' → (a, z) ∈ U) → touch U k → touch U' k.
Proof. intros Hs H a z Ha. apply H. auto. Qed.
Lemma hdrs_touch s bs X k : wf s bs X → hdrs bs k → touch (used bs) k.
Proof.
  intros [B H] (b & Hb & Hk) a z (c & Hc & _ & <- & <-)%used_elem.
  pose proof (core_placed _ _ _ _ _ H Hb) as []. pose proof (core_placed _ _ _ _ _ H Hc) as [].
  destruct (core_apart _ _ _ _ _ _ H Hb Hc) as [->|[?|?]]; unfold end_of in *; lia.
Qed.

(** ** The flags *)

Lemma flags_weaken l : flags false l → flags true l.
Proof. destruct l as [|b l]; [done|]. intros [_ H]. split; [done|exact H]. Qed.
Lemma flags_marked pf l : flags pf l → flags true (flag_head true l).
Proof. destruct l as [|b l]; [done|]. intros [_ H]. split; [done|exact H]. Qed.
Lemma flags_unmarked pf pf' l : flags pf l → flags pf' (flag_head false l).
Proof. destruct l as [|b l]; [done|]. intros [_ H]. split; [done|exact H]. Qed.
Lemma flags_set_free l1 b l2 : flags false (l1 ++ b :: l2) → flags false (l1 ++ set_free true b :: flag_head true l2).
Proof. rewrite !flags_app. intros [H1 [H2 H3]]. split; [done|]. split; [exact H2|]. by eapply flags_marked. Qed.
Lemma flags_join pf l1 b c l2 : flags pf (l1 ++ b :: c :: l2) → (isfree c = true → isfree b = true) → flags pf (l1 ++ joined b c :: l2).
Proof.
  rewrite !flags_app. intros [H1 [H2 [_ H3]]] Hbc. split; [done|]. split; [exact H2|]. cbn.
  destruct (isfree c); [by rewrite Hbc|]. destruct (isfree b); [by apply flags_weaken|done].
Qed.

(** ** Putting a block back *)

Lemma wp_put_back s bs b X Q : wf s bs (addr b :: X) → b ∈ bs → isfree b = true → addr b ∉ X →
  (∀ s', wf s' bs X → evo (hdrs bs) s s' → Q tt s') →
  wp (bin <~ tlsf_map_insert (bsize b) ;; let '(fli, sli) := bin in __tlsf_insert_free_block (addr b) fli sli) Q s.
Proof.
  intros [B H] Hb Hf HX HQ. pose proof (core_placed _ _ _ _ _ H Hb) as [].
  apply wp_bind, wp_map; [lia|]. destruct (bin_of (bsize b)) as [f c] eqn:E. by eapply wp_core_insert.
Qed.

(** ** [__tlsf_free] *)

Lemma wp_outside a Q s : Q ((a <? heap_start (ctl s)) || (heap_end (ctl s) <=? a)) s → wp (outside_heap a) Q s.
Proof. done. Qed.

(** What becomes of a free block and the block behind it, and of the block
    before it and a free block. *)
Definition merged_next (b : blk) (l2 : list blk) (B : blk) (l3 : list blk) : Prop :=
  (B = b ∧ l3 = l2 ∧ ∀ c l, l2 = c :: l → isfree c = false) ∨
  (∃ c, l2 = c :: l3 ∧ isfree c = true ∧ B = joined b c).
Definition merged_prev (l1 : list blk) (b : blk) (l0 : list blk) (B : blk) : Prop :=
  (B = b ∧ l0 = l1 ∧ pfree b = false) ∨
  (∃ a, l1 = l0 ++ [a] ∧ isfree a = true ∧ pfree b = true ∧ B = joined a b).

Lemma used_free l1 b l2 : isfree b = true → used (l1 ++ b :: l2) = used l1 ++ used l2.
Proof. intros Hf. rewrite used_app. f_equal. cbn. by rewrite Hf. Qed.
Lemma used_used l1 b l2 : isfree b = false → used (l1 ++ b :: l2) = used l1 ++ (addr b, bsize b) :: used l2.
Proof. intros Hf. rewrite used_app. f_equal. cbn. by rewrite Hf. Qed.
Lemma merged_next_facts l1 b l2 B l3 : merged_next b l2 B l3 → isfree b = true → flags false (l1 ++ b :: l2) →
  isfree B = true ∧ pfree B = pfree b ∧ addr B = addr b ∧ used l3 = used l2 ∧ flags false (l1 ++ B :: l3).
Proof.
  intros [(-> & -> & _)|(c & -> & Hc & ->)] Hf Hfl; [done|]. split_and!; try done.
  - cbn. by rewrite Hc.
  - by apply flags_join.
Qed.
Lemma merged_prev_facts l1 b l2 l0 B : merged_prev l1 b l0 B → isfree b = true → flags false (l1 ++ b :: l2) →
  isfree B = true ∧ used l0 = used l1 ∧ flags false (l0 ++ B :: l2).
Proof.
  intros [(-> & -> & _)|(a & -> & Ha & _ & ->)] Hf Hfl; [done|]. split_and!; try done.
  - rewrite used_app. cbn. rewrite Ha. by rewrite app_nil_r.
  - rewrite <- app_assoc in Hfl. by apply flags_join.
Qed.

Section Coalesce.
Context (l1 : list blk) (b : blk) (l2 : list blk).
Local Abbreviation U := (used l1 ++ used l2).
(** Free memory that is in no list is joined with its neighbours. *)
Definition freed (Q : unit → arena → Prop) (s : arena) : Prop :=
  ∀ s' B l3 l0 C, merged_next b l2 B l3 → merged_prev l1 B l0 C → wf s' (l0 ++ C :: l3) [] → evo (touch U) s s' → Q tt s'.

Lemma evo_touch s0 s bs X s' V : wf s0 bs X → used bs = V → evo (hdrs bs) s s' → evo (touch V) s s'.
Proof. intros H <-. apply evo_weaken. intros k. by eapply hdrs_touch. Qed.

Definition put_back (block : Z) : T unit :=
  size <~ tlsf_get_block_size block ;;
  bin <~ tlsf_map_insert size ;; let '(fli, sli) := bin in __tlsf_insert_free_block block fli sli.

Lemma wp_freed s l0 c l3 X Q : wf s (l0 ++ c :: l3) (addr c :: X) → isfree c = true → used (l0 ++ c :: l3) = U →
  addr c ∉ X → (∀ x d, x ∈ X → d ∈ l0 ++ c :: l3 → addr d ≠ x) →
  (∀ s', wf s' (l0 ++ c :: l3) [] → evo (touch U) s s' → Q tt s') → wp (put_back (addr c)) Q s.
Proof.
  intros H Hf Hu HX Hgone HQ. unfold put_back. apply wp_bind, pl_get_size; [by eapply wf_here|].
  eapply wp_put_back; [exact H|set_solver|done|done|]. intros s' H' E. apply HQ; [|by eapply evo_touch].
  clear H HQ HX E. induction X as [|x X IH]; [done|]. apply IH; [intros y d Hy; apply Hgone; by right|].
  eapply wf_drop; [|exact H']. intros d Hd. apply Hgone; [by left|done].
Qed.

Lemma wp_coalesce_prev s B l3 Q :
  wf s (l1 ++ B :: l3) [addr B] → flags false (l1 ++ B :: l3) → isfree B = true → used l3 = used l2 →
  (∀ s' l0 C, merged_prev l1 B l0 C → wf s' (l0 ++ C :: l3) [] → evo (touch U) s s' → Q tt s') →
  wp (block <~ __tlsf_merge_prev (addr B) ;; put_back block) Q s.
Proof.
  intros H Hfl Hf Hu HQ. pose proof (wf_others _ _ _ _ _ H) as Hoth.
  assert (used (l1 ++ B :: l3) = U) as HuB by (rewrite used_free by done; by rewrite Hu).
  apply wp_bind. eapply wp_merge_prev; [exact H|done|by left| | |].
  - intros a Ha Hx%list_elem_of_singleton. apply (Hoth a); [set_solver|done].
  - intros Hpf. eapply (wp_freed s l1 B l3 []); try done; [apply not_elem_of_nil|by intros x d ?%elem_of_nil|].
    intros s' H' E. apply (HQ s' l1 B); [by left|done..].
  - intros l0 a s' El Ha Hpf H' Hgone E. eapply (wp_freed s' l0 (joined a B) l3 [addr B]); [exact H'|done| | | |].
    + rewrite <- HuB, El, used_free by done. rewrite used_free by done. rewrite used_app. cbn. by rewrite Ha, app_nil_r.
    + intros Hx%list_elem_of_singleton. apply (Hoth a); [rewrite El; set_solver|done].
    + intros x d ->%list_elem_of_singleton. by apply Hgone.
    + intros s2 H2 E2. apply (HQ s2 l0 (joined a B)); [right; by exists a|done|].
      eapply evo_trans; [exact (evo_touch _ _ _ _ _ _ H HuB E)|exact E2].
Qed.

Lemma wp_coalesce s Q :
  wf s (l1 ++ b :: l2) [addr b] → flags false (l1 ++ b :: l2) → isfree b = true → freed Q s →
  wp (block <~ __tlsf_merge_next (addr b) ;; block <~ __tlsf_merge_prev block ;; put_back block) Q s.
Proof.
  intros H Hfl Hf HQ. pose proof (wf_others _ _ _ _ _ H) as Hoth.
  apply wp_bind. eapply wp_merge_next; [exact H|by left| | |].
  - intros c Hc Hx%list_elem_of_singleton. apply (Hoth c); [set_solver|done].
  - intros Hno. eapply wp_coalesce_prev; [done..|]. intros s' l0 C HC H' E. apply (HQ s' b l2 l0 C); [by left|done..].
  - intros c l3 s' El Hc H' E. assert (merged_next b l2 (joined b c) l3) as Hm by (right; by exists c).
    destruct (merged_next_facts l1 b l2 _ l3 Hm Hf Hfl) as (F1 & F2 & F3 & F4 & F5).
    change (addr b) with (addr (joined b c)) in H' |- *. eapply wp_coalesce_prev; [exact H'|done..|].
    intros s2 l0 C HC H2 E2. apply (HQ s2 (joined b c) l3 l0 C); [done..|].
    eapply evo_trans; [|exact E2]. by apply (evo_touch _ _ _ _ _ _ H (used_free l1 b l2 Hf)).
Qed.
End Coalesce.

Lemma wp_free s l1 b l2 Q :
  wf s (l1 ++ b :: l2) [] → flags false (l1 ++ b :: l2) → isfree b = false →
  freed l1 (set_free true b) (flag_head true l2) Q s → wp (__tlsf_free (addr b + 32)) Q s.
Proof.
  intros H Hfl Hf HQ. pose proof (wf_here _ _ _ _ _ H) as Pb. pose proof Pb as []. unfold end_of in *.
  unfold __tlsf_free, tlsf_ptr_to_block, sizeof_tlsf_block, u64. replace (addr b + 32 - 32) with (addr b) by lia.
  rewrite wrap_small by lia. apply wp_bind, wp_outside.
  rewrite (proj2 (Z.ltb_ge _ _)), (proj2 (Z.leb_gt _ _)) by lia. cbn [orb]. apply wp_bind, wp_outside.
  rewrite (proj2 (Z.ltb_ge _ _)), (proj2 (Z.leb_gt _ _)) by lia. cbn [orb]. apply wp_bind.
  assert (wf s (l1 ++ b :: l2) [addr b]) as H0 by (apply (wf_unlist s _ b []); [set_solver|done..]).
  eapply (wp_mark_both true); [exact H0|by left|done|]. intros s1 H1 E1. change (addr b) with (addr (set_free true b)).
  apply (wp_coalesce l1 (set_free true b) (flag_head true l2)); [exact H1|by apply flags_set_free|done|].
  intros s' B l3 l0 C HB HC H' E'. eapply HQ; [done..|]. eapply evo_trans; [|exact E'].
  eapply evo_weaken; [|exact E1]. intros k Hk%(hdrs_touch _ _ _ _ H). rewrite used_flag_head.
  eapply touch_sub; [|exact Hk]. intros a z. rewrite used_used by done. set_solver.
Qed.

(** ** [__tlsf_alloc] *)

Lemma block_size_for_spec size : 0 < size <= 2 ^ 27 →
  let n := block_size_for size in size <= n <= 2 ^ 27 ∧ 16 <= n ∧ n mod 8 = 0 ∧ n < size + 16.
Proof.
  intros Hs. unfold block_size_for, tlsf_align_up, TLSF_ALIGNMENT, TLSF_BLOCK_MIN.
  pose proof (align_up_least size 3 ltac:(lia) ltac:(lia) ltac:(lia)) as [H1 H2]. change (2 ^ 3) with 8 in *.
  destruct (Z.ltb_spec (p2align_up size 8) 16); cbv zeta; [split_and!; try done; lia|].
  split_and!; try done; try lia. dlia.
Qed.

(** A request is refused only if each free block that could serve it has a free
    block in its class that is too small: the first of the class decides. *)
Definition refuses (bs : list blk) (n : Z) : Prop :=
  ∀ b, b ∈ bs → isfree b = true → bin_index (bin_of n) <= bin_index (bin_of (bsize b)) →
    ∃ c, c ∈ bs ∧ isfree c = true ∧ bin_index (bin_of (bsize c)) = bin_index (bin_of n) ∧ bsize c < n.

(** The block [b] is handed out, and what is too much of it stays free. *)
Definition handed (n : Z) (l1 : list blk) (b : blk) (l2 : list blk) (bs' : list blk) : Prop :=
  (n + 48 <= bsize b ∧ bs' = l1 ++ set_free false (front b n) :: back b n true false :: l2) ∨
  (bsize b < n + 48 ∧ bs' = l1 ++ set_free false b :: flag_head false l2).
Definition allocated (s : arena) (bs : list blk) (n : Z) (Q : Z → arena → Prop) : Prop :=
  ∀ s' l1 b l2 bs', bs = l1 ++ b :: l2 → isfree b = true → n <= bsize b → handed n l1 b l2 bs' →
    wf s' bs' [] → evo (touch (used bs)) s s' → Q (addr b + 32) s'.

Lemma handed_facts n l1 b l2 bs' : handed n l1 b l2 bs' → isfree b = true → n <= bsize b → flags false (l1 ++ b :: l2) →
  flags false bs' ∧ ∃ z, n <= z < n + 48 ∧ used bs' = used l1 ++ (addr b, z) :: used l2.
Proof.
  intros H Hf Hn [F1 [F2 F3]]%flags_app. destruct H as [[Hcut ->]|[Hwhole ->]]; rewrite flags_app.
  - split; [split; [done|split; [done|]]; split; [done|]; cbn; by rewrite Hf in F3|].
    exists n. split; [lia|]. by rewrite used_used.
  - split; [split; [done|split; [done|]]; by eapply flags_unmarked|].
    exists (bsize b). split; [lia|]. rewrite used_used by done. by rewrite used_flag_head.
Qed.

Lemma search_block s bs B f c block f' c' : core s bs B [] → found_at B f c (block, f', c') →
  (block = 0 ∧ empty_between B (bin_index (f, c)) 1024) ∨
  (∃ b, b ∈ bs ∧ isfree b = true ∧ addr b = block ∧ bin_of (bsize b) = (f', c') ∧ bin_index (f, c) <= bin_index (f', c') ∧
     empty_between B (bin_index (f, c)) (bin_index (f', c'))).
Proof.
  intros H [Hno|(Hb & Hi & He & l & El)]; [by left|right].
  assert (block ∈ B f' c') as Hin by (rewrite El; by left).
  apply (co_link _ _ _ _ H) in Hin as (_ & b & Hb1 & Hb2 & Hb3 & Hb4); [|done]. by exists b.
Qed.

(** Marking the block that is handed out. *)
Lemma wp_hand_out s0 s l1 b l2 U Q :
  wf s (l1 ++ b :: l2) [addr b] → isfree b = true → U = used l1 ++ used l2 → evo (touch U) s0 s →
  (∀ s', wf s' (l1 ++ set_free false b :: flag_head false l2) [] → evo (touch U) s0 s' → Q (addr b + 32) s') →
  wp (__tlsf_unmark_free (addr b) ;;; ret (tlsf_block_to_ptr (addr b))) Q s.
Proof.
  intros H Hf -> E HQ. pose proof (wf_here _ _ _ _ _ H) as []. apply wp_bind.
  eapply (wp_mark_both false); [exact H|by left|done|]. intros s' H' E'. apply wp_ret.
  unfold tlsf_block_to_ptr, sizeof_tlsf_block, u64. rewrite wrap_small by (unfold end_of in *; lia).
  apply HQ; [apply (wf_unlist s' _ (set_free false b) []); [set_solver|done..]|].
  eapply evo_trans; [exact E|]. by apply (evo_touch _ _ _ _ _ _ H (used_free l1 b l2 Hf)).
Qed.

(** The part of the block that is too much goes back. *)
Lemma wp_alloc_cut s l1 d l2 n Q :
  wf s (l1 ++ d :: l2) [addr d] → isfree d = true → 16 <= n → n mod 8 = 0 → n + 48 <= bsize d →
  let x := addr d + 32 + n in let z := bsize d - n - 32 in
  (∀ s' p, wf s' (l1 ++ front d n :: back d n true p :: l2) [addr d] →
     evo (touch (used l1 ++ used l2)) s s' → Q tt s') →
  wp (tlsf_set_block_size x z ;;; tlsf_set_block_free x ;;; set_prev_phys x (addr d) ;;;
      tlsf_set_block_size (addr d) n ;;; cn <~ tlsf_next_block x ;; inside <~ in_heap_before_end cn ;;
      (if inside then set_prev_phys cn x else ret tt) ;;;
      bin <~ tlsf_map_insert z ;; let '(fli, sli) := bin in __tlsf_insert_free_block x fli sli) Q s.
Proof.
  intros H Hf Hn Hn8 Hfit x z HQ. assert (isfree d = true → addr d ∈ [addr d]) as HdX by (intros; by left).
  destruct (cut_facts s l1 d l2 _ n H HdX Hn Hn8 Hfit) as (Pd & Hz8 & Hzo & Hno & Hx & Hend & Htop).
  pose proof (wf_bytes _ _ _ _ _ H) as Hb. pose proof Pd as [].
  eapply (wp_cut_header s l1 d l2 [addr d] n H HdX Hn Hn8 Hfit). intros m p C0 W0.
  assert (mapped m (x + 8) (x + 16)) as Hm.
  { intros k Hk. apply C0, Pd. unfold end_of, x in *. lia. }
  apply wp_bind, wp_set_prev_phys; try done; [unfold end_of, x in *; lia|by apply C0|unfold end_of in *; lia|].
  intros m1 C1 W1. apply wp_tail. cbn [heap with_heap] in *. change (with_heap m1 (with_heap m s)) with (with_heap m1 s).
  eapply (wp_cut_rest s l1 d l2 [addr d] n H HdX Hn Hn8 Hfit m1 true p).
  - eapply chg_trans; (eapply chg_weaken; [|eassumption]); intros k Hk; cbv beta in *; unfold x in *; lia.
  - eapply wd_chg; [exact C1| |exact W0]. intros k Hk. cbv beta. unfold x. lia.
  - exact W1.
  - intros s1 H1 E1. pose proof (used_free l1 d l2 Hf) as Hu.
    change x with (addr (back d n true p)). change z with (bsize (back d n true p)).
    eapply (wp_put_back s1 _ (back d n true p) [addr d]); [exact H1|set_solver|done| |].
    + intros Hx'%list_elem_of_singleton. cbn in Hx'. lia.
    + intros s2 H2 E2. eapply (HQ s2 p); [exact H2|]. eapply evo_trans; (eapply evo_weaken; [|eassumption]).
      * intros k [Hk|Hk]; [rewrite <- Hu; by eapply hdrs_touch|]. intros a y Hay.
        rewrite <- Hu in Hay. apply used_elem in Hay as (c & Hc & Hcf & <- & <-). destruct H as [B H].
        destruct (core_apart _ _ _ _ d c H) as [->|[?|?]]; [set_solver|done|congruence|unfold end_of in *; lia..].
      * intros k. replace (used l1 ++ used l2) with (used (l1 ++ front d n :: back d n true p :: l2)); [by eapply hdrs_touch|].
        rewrite used_free by exact Hf. done.
Qed.

(** What the search found is the first free block of its class. *)
Lemma free_in_bin s bs B b f c : core s bs B [] → b ∈ bs → isfree b = true → bin_of (bsize b) = (f, c) → is_bin f c ∧ addr b ∈ B f c.
Proof.
  intros H Hb Hf E. pose proof (core_placed _ _ _ _ _ H Hb) as [].
  assert (is_bin f c) as Hbin by (eapply bin_of_is_bin; [|exact E]; lia). split; [done|].
  apply (co_link _ _ _ _ H); [done|]. split; [apply not_elem_of_nil|by exists b].
Qed.
Lemma none_refuses s bs B f c n : core s bs B [] → bin_of n = (f, c) → empty_between B (bin_index (f, c)) 1024 → refuses bs n.
Proof.
  intros H E He b Hb Hf Hlt. destruct (bin_of (bsize b)) as [f' c'] eqn:Eb.
  destruct (free_in_bin s bs B b f' c') as [Hbin Hin]; [done..|]. rewrite (He f' c') in Hin; [by apply elem_of_nil in Hin|done|].
  rewrite E in Hlt. destruct Hbin. unfold bin_index in *. cbn [fst snd] in *. lia.
Qed.
Lemma small_refuses bs n c : 0 <= n <= 2 ^ 27 → 0 <= bsize c < 2 ^ 32 → c ∈ bs → isfree c = true →
  bin_index (bin_of n) <= bin_index (bin_of (bsize c)) → bsize c < n → refuses bs n.
Proof.
  intros Hn Hc Hin Hf Hle Hlt b _ _ _. exists c. split_and!; try done.
  destruct (decide (bin_index (bin_of n) < bin_index (bin_of (bsize c)))) as [H|]; [|lia].
  apply later_bin_fits in H; lia.
Qed.

Lemma wp_alloc s bs size Q :
  wf s bs [] → flags false bs → 0 <= size →
  (size = 0 ∨ 2 ^ 27 < size ∨ refuses bs (block_size_for size) → Q 0 s) →
  allocated s bs (block_size_for size) Q →
  wp (__tlsf_alloc size) Q s.
Proof.
  intros [B H] Hfl Hs Hno HQ. unfold __tlsf_alloc, TLSF_MAX_ALLOC, TLSF_FL_SHIFT.
  destruct (Z.eqb_spec size 0) as [|Hnz]; [apply wp_ret, Hno; by left|].
  destruct (Z.ltb_spec (2 ^ 27) size) as [|Hmax]; [apply wp_ret, Hno; right; by left|]. cbn [orb]. cbv zeta.
  destruct (block_size_for_spec size ltac:(lia)) as (Hn1 & Hn2 & Hn8 & _). set (n := block_size_for size) in *.
  unfold tlsf_map_search. apply wp_bind, wp_map; [lia|]. destruct (bin_of n) as [f c] eqn:Ebin.
  assert (is_bin f c) as Hbin by (eapply bin_of_is_bin; [|exact Ebin]; lia). cbv beta iota.
  apply wp_bind. eapply wp_mono; [apply (wp_search s B f c); [apply H|done]|]. intros [[block f'] c'] s' [-> Hfound].
  destruct (search_block _ _ _ _ _ _ _ _ H Hfound) as [[-> He]|(b & Hb & Hbf & <- & Eb & Hle & _)].
  { apply wp_ret, Hno. right. right. by eapply none_refuses. }
  pose proof (core_placed _ _ _ _ _ H Hb) as Pb. pose proof Pb as [].
  rewrite (proj2 (Z.eqb_neq (addr b) 0)) by lia. apply wp_bind, pl_get_size; [done|].
  destruct (Z.ltb_spec (bsize b) n) as [Hsmall|Hfit].
  { apply wp_ret, Hno. right. right. eapply (small_refuses bs n b); try done; [lia|lia|]. by rewrite Ebin, Eb. }
  apply wp_bind. eapply (wp_core_remove s bs B [] b f' c'); [done..|apply not_elem_of_nil|done|].
  intros s1 H1 E1. apply list_elem_of_split in Hb as (l1 & l2 & ->).
  pose proof (used_free l1 b l2 Hbf) as Hu.
  assert (evo (touch (used l1 ++ used l2)) s s1) as E1'.
  { eapply evo_weaken; [|exact E1]. intros k. rewrite <- Hu. apply (hdrs_touch s _ []). by exists B. }
  unfold u64, sizeof_tlsf_block, TLSF_BLOCK_MIN. rewrite (wrap_small 64 (n + 32 + 16)) by lia.
  destruct (Z.leb_spec (n + 32 + 16) (bsize b)) as [Hcut|Hwhole]; apply wp_bind.
  - cbv zeta. assert (wrap 64 (tlsf_block_to_ptr (addr b) + n) = addr b + 32 + n) as ->.
    { unfold tlsf_block_to_ptr, sizeof_tlsf_block, u64. rewrite !wrap_small by (unfold end_of in *; lia || (rewrite wrap_small; lia)). done. }
    rewrite (wrap_small 64 (bsize b - n - 32)) by lia.
    eapply (wp_alloc_cut s1 l1 b l2 n); [done|done|lia|done|lia|]. intros s2 p H2 E2.
    change (addr b) with (addr (front b n)).
    eapply (wp_hand_out s s2 l1 (front b n) (back b n true p :: l2) _ Q); [exact H2|exact Hbf|reflexivity|exact (evo_trans _ _ _ _ E1' E2)|].
    intros s3 H3 E3. eapply (HQ s3 l1 b l2); [done|done|lia|left; split; [lia|done]|exact H3|rewrite Hu; exact E3].
  - apply wp_ret. eapply (wp_hand_out s s1 l1 b l2 _ Q); [exact H1|exact Hbf|reflexivity|exact E1'|].
    intros s3 H3 E3. eapply (HQ s3 l1 b l2); [done|done|lia|right; split; [lia|done]|exact H3|rewrite Hu; exact E3].
Qed.
