(* ===== verification/TlsfMore.v ===== *)
(** * TlsfMore: initialisation, reallocation and aligned allocation *)

From S2P Require Import Prelude Std Mem.
From S2P Require Import Tlsf TlsfBlocks TlsfLists TlsfCore TlsfAlloc.
From Stdlib Require Import ZArith Lia Bool.
From stdpp Require Import base gmap list numbers.

Local Open Scope Z_scope.

(** ** [__tlsf_init] *)

(** The allocator before it is initialised: a static object, all zero. *)
Definition zero_ctl (t : tlsf) : Prop :=
  fl_bitmap t = 0 ∧ sl_bitmaps t = replicate 28 0 ∧ blocks t = replicate 28 (replicate 32 0).

Lemma zero_lists s : zero_ctl (ctl s) → lists s (fun _ _ => []).
Proof.
  intros (Hfl & Hsl & Hbl).
  assert (∀ x, ¬ listed (fun _ _ => []) x) as Hn by (intros x (f & c & _ & Hx); by apply elem_of_nil in Hx).
  split; try done; try (intros; by destruct (Hn x)).
  - split.
    + intros f Hf. exists 0. unfold row_of. rewrite Hsl, lookup_replicate_2, Hfl by lia.
      split_and!; try done. intros c _. apply Z.bits_0. apply Z.bits_0.
    + rewrite Hfl. lia.
    + intros f c [Hf Hc]. unfold head_of. rewrite Hbl, lookup_replicate_2 by lia. cbn [mbind option_bind].
      by rewrite lookup_replicate_2 by lia.
  - intros. constructor.
  - intros f c f' c' x _ _ Hx. by apply elem_of_nil in Hx.
Qed.

Section Init.
Context (s : arena) (start size : Z).
Local Abbreviation hs := (tlsf_align_up start).
Local Abbreviation he := (start + size).
Context (Hzero : zero_ctl (ctl s)) (Hb : bytes_ok (heap s)).
Context (Hs : 0 < start) (He : he < 2 ^ 64) (Hsize : 48 <= size < 2 ^ 32).
Context (Hroom : hs + 48 <= he) (Hend : he mod 8 = 0) (Hm : mapped (heap s) hs he).
(** The second bit of the first word is clear. *)
Context (v : Z) (Hw : wd (heap s) hs v) (Hclear : Z.testbit v 1 = false).

Lemma init_start : start <= hs < start + 8 ∧ hs mod 8 = 0.
Proof using Hs He Hsize.
  unfold tlsf_align_up, TLSF_ALIGNMENT. by pose proof (align_up_least start 3 ltac:(lia) ltac:(lia) ltac:(lia)).
Qed.
Local Abbreviation z := (he - hs - 32).

(** The whole heap is one free block. *)
Definition whole : list blk := [Blk hs z true false].

Lemma wp_init Q : (∀ s', wf s' whole [] → Q 0 s') → wp (__tlsf_init start size) Q s.
Proof using All.
  intros HQ. destruct init_start as [Ha Ha8].
  assert (size_ok z ∧ z mod 8 = 0) as [Hzo Hz8] by (split; [split; [lia|dlia]|dlia]).
  unfold __tlsf_init, TLSF_BLOCK_MIN, sizeof_tlsf_block, u64. rewrite (proj2 (Z.eqb_neq start 0)), (proj2 (Z.ltb_ge size _)) by lia.
  cbn [orb]. cbv zeta. rewrite (wrap_small 64 (hs - start)) by lia. destruct (Z.leb_spec size (hs - start)) as [|_]; [lia|].
  rewrite (wrap_small 64 (size - (hs - start))), (wrap_small 64 (hs + _)), (wrap_small 64 (_ - 32)) by lia.
  replace (hs + (size - (hs - start))) with he by lia. replace (size - (hs - start) - 32) with z by lia.
  apply wp_bind. unfold wp at 1, mmodify. set (s1 := with_bounds _ _ _ s).
  assert (bytes_ok (heap s1)) as Hb1 by done.
  destruct (hword_any v (wd_range _ _ _ Hb Hw)) as (z0 & f0 & p0 & -> & Hz0 & Hz04).
  rewrite hword_bit, decide_False, decide_True in Hclear by (done || lia). subst p0.
  apply wp_bind, (wp_set_size hs z0 f0 false); try done; [lia|]. intros m1 C1 W1.
  apply wp_bind, (wp_set_free hs z f0 false); try done; try (destruct Hzo; lia); [by apply C1|]. intros m2 C2 W2.
  cbn [heap with_heap] in *. assert (chg (fun k => hs <= k < hs + 8) (heap s) m2) as C12 by by eapply chg_trans.
  assert (mapped m2 hs he) as Hm2 by by eapply chg_mapped.
  apply wp_bind, wp_set_prev_phys; try done; try lia; [by apply C12|intros k Hk; apply Hm2; lia|]. intros m3 C3 W3.
  cbn [heap with_heap] in *. assert (mapped m3 hs he) as Hm3 by by eapply chg_mapped.
  assert (bytes_ok m3) as Hb3 by by apply C3, C12.
  unfold set_prev_free, off_prev_free. apply wp_bind, wp_set_link; try done; try lia; [intros k Hk; apply Hm3; lia|]. intros m4 C4 W4.
  unfold set_next_free, off_next_free. cbn [heap with_heap] in *. assert (mapped m4 hs he) as Hm4 by by eapply chg_mapped.
  apply wp_bind, wp_set_link; try done; try lia; [by apply C4|intros k Hk; apply Hm4; lia|]. intros m5 C5 W5. cbn [heap with_heap] in *.
  change (with_heap m5 _) with (with_heap m5 s1).
  assert (chg (fun k => hs + 16 <= k < hs + 32) m3 m5) as C35.
  { eapply chg_trans; (eapply chg_weaken; [|eassumption]); intros k Hk; cbv beta in *; lia. }
  assert (wf (with_heap m5 s1) whole [hs]) as H.
  { exists (fun _ _ => []). split.
    - by apply C35.
    - cbn. eapply chg_mapped; [exact C35|exact Hm3].
    - cbn. lia.
    - exact Ha8.
    - cbn. unfold TLSF_BLOCK_MIN, end_of. cbn. split_and!; try done; try lia.
      + eapply wd_chg; [exact C35|intros k Hk; cbv beta; lia|].
        eapply wd_chg; [exact C3|intros k Hk; cbv beta; lia|exact W2].
      + eapply wd_chg; [exact C35|intros k Hk; cbv beta; lia|exact W3].
    - apply (lists_heap s1); [by apply (zero_lists s1)|]. intros x k (f & c & _ & Hx). by apply elem_of_nil in Hx.
    - intros f c x _. split; [by intros ?%elem_of_nil|]. intros [Hx (b & ->%list_elem_of_singleton & <- & _)].
      destruct Hx. by left. }
  destruct H as [B H]. apply wp_bind, wp_map; [lia|]. destruct (bin_of z) as [f c] eqn:Ebin. cbv beta iota. apply wp_bind.
  eapply (wp_core_insert _ whole B [] (Blk hs z true false) f c); [exact H|by left|done|apply not_elem_of_nil|done|].
  intros s' H' _. apply wp_ret. by apply HQ.
Qed.
End Init.

(** A heap that is too small is refused. *)
Lemma init_refuses s start size : start = 0 ∨ size < 48 → __tlsf_init start size s = Ok (- EINVAL, s).
Proof.
  intros H. unfold __tlsf_init, TLSF_BLOCK_MIN, sizeof_tlsf_block.
  replace ((start =? 0) || (size <? 16 + 32)) with true; [done|]. symmetry. apply orb_true_iff.
  destruct H as [->|H]; [by left|right]. apply Z.ltb_lt. lia.
Qed.

(** ** [__tlsf_try_carve] *)

Lemma wp_carve s l1 d l2 n Q :
  wf s (l1 ++ d :: l2) [] → isfree d = false → 16 <= n < 2 ^ 63 → n mod 8 = 0 →
  (bsize d < n + 48 → Q false s) →
  (∀ s', n + 48 <= bsize d → wf s' (l1 ++ front d n :: back d n true false :: l2) [] →
     evo (touch (used (l1 ++ front d n :: l2))) s s' → Q true s') →
  wp (__tlsf_try_carve (addr d) n) Q s.
Proof.
  intros H Hf Hn Hn8 Hno HQ. pose proof (wf_here _ _ _ _ _ H) as Pd. pose proof Pd as [].
  unfold __tlsf_try_carve. apply wp_bind, pl_get_size; [done|].
  unfold sizeof_tlsf_block, TLSF_BLOCK_MIN, u64. rewrite (wrap_small 64 (n + 32 + 16)) by lia.
  destruct (Z.ltb_spec (bsize d) (n + 32 + 16)) as [Hlt|Hfit]; [apply wp_ret, Hno; lia|]. cbv zeta.
  assert (wrap 64 (tlsf_block_to_ptr (addr d) + n) = addr d + 32 + n) as ->.
  { unfold tlsf_block_to_ptr, sizeof_tlsf_block, u64. rewrite !wrap_small by (unfold end_of in *; lia || (rewrite wrap_small; lia)). done. }
  rewrite (wrap_small 64 (bsize d - n - 32)) by lia. set (x := addr d + 32 + n). set (z := bsize d - n - 32).
  assert (isfree d = true → addr d ∈ []) as HdX by (rewrite Hf; done).
  destruct (cut_facts s l1 d l2 _ n H HdX ltac:(lia) Hn8 ltac:(lia)) as (_ & Hz8 & Hzo & Hno' & Hx & Hend & Htop).
  pose proof (wf_bytes _ _ _ _ _ H) as Hb.
  eapply (wp_cut_header s l1 d l2 [] n H HdX ltac:(lia) Hn8 ltac:(lia)). intros m p C0 W0.
  apply wp_bind, (wp_unset_pfree x z true p); try done; try (destruct Hzo; unfold z, x in *; lia); [by apply C0|].
  intros m1 C1 W1. cbn [heap with_heap] in *. change (with_heap m1 (with_heap m s)) with (with_heap m1 s).
  assert (mapped m1 (x + 8) (x + 16)) as Hm.
  { intros k Hk. apply C1, C0, Pd. unfold end_of, x in *. lia. }
  apply wp_bind, wp_set_prev_phys; try done; [unfold end_of, x in *; lia|by apply C1, C0|unfold end_of in *; lia|].
  intros m2 C2 W2. apply wp_tail. cbn [heap with_heap] in *. change (with_heap m2 (with_heap m1 s)) with (with_heap m2 s).
  eapply (wp_cut_rest s l1 d l2 [] n H HdX ltac:(lia) Hn8 ltac:(lia) m2 true false).
  - eapply chg_trans; [eapply chg_trans|]; (eapply chg_weaken; [|eassumption]); intros k Hk; cbv beta in *; unfold x in *; lia.
  - eapply wd_chg; [exact C2| |exact W1]. intros k Hk. cbv beta. unfold x. lia.
  - exact W2.
  - intros s1 H1 E1. assert (bin_of z = bin_of (bsize (back d n true false))) as Ebin by done.
    apply wp_bind, wp_map; [unfold z; lia|]. destruct (bin_of z) as [f c]. cbv beta iota. apply wp_bind.
    destruct H1 as [B H1]. change x with (addr (back d n true false)).
    eapply (wp_core_insert s1 _ B [] (back d n true false) f c); [exact H1|set_solver|done|apply not_elem_of_nil|done|].
    intros s2 H2 E2. apply wp_ret, HQ; [lia|exact H2|].
    assert (used (l1 ++ front d n :: back d n true false :: l2) = used (l1 ++ front d n :: l2)) as Hu.
    { rewrite !used_used by done. done. }
    eapply evo_trans; [|apply (evo_touch _ _ _ _ _ _ (ex_intro _ B H1) Hu E2)].
    eapply evo_weaken; [|exact E1]. intros k Hk a y (e & He & Hef & <- & <-)%used_elem.
    assert (e ∈ l1 ++ front d n :: back d n true false :: l2) as He' by set_solver.
    assert (∀ g, g ∈ l1 ++ front d n :: back d n true false :: l2 → addr g <= k < addr g + 32 →
      ¬ (addr e + 32 <= k < addr e + 32 + bsize e)) as Hclear.
    { intros g Hg Hkg. pose proof (core_placed _ _ _ _ _ H1 Hg) as []. pose proof (core_placed _ _ _ _ _ H1 He') as [].
      destruct (core_apart _ _ _ _ _ _ H1 Hg He') as [->|[?|?]]; unfold end_of in *; lia. }
    destruct Hk as [(g & Hg & Hkg)|Hk].
    + assert (g = d ∨ g ∈ l1 ++ l2) as [->|Hg'] by set_solver.
      * apply (Hclear (front d n)); [set_solver|done].
      * apply (Hclear g); [set_solver|done].
    + apply (Hclear (back d n true false)); [set_solver|done].
Qed.
