(* ===== verification/TlsfLive.v ===== *)
(** * TlsfLive: the allocator as its clients see it

    A finite map from the addresses handed out to the sizes of their blocks;
    every operation is proved against it. *)

From S2P Require Import Prelude Std Mem.
From S2P Require Import Tlsf TlsfBlocks TlsfLists TlsfCore TlsfAlloc TlsfMore.
From Stdlib Require Import ZArith Lia Bool.
From stdpp Require Import base gmap list numbers relations.

Local Open Scope Z_scope.

(** ** What the flags keep *)

(** A condition on the headers that every operation keeps. *)
Class policy (K : list blk → Prop) := {
  policy_flags bs : K bs → flags false bs;
  policy_handed n l1 b l2 bs' : K (l1 ++ b :: l2) → isfree b = true → handed n l1 b l2 bs' → K bs';
  policy_freed l1 b l2 B l3 l0 C : K (l1 ++ b :: l2) → isfree b = false →
    merged_next (set_free true b) (flag_head true l2) B l3 → merged_prev l1 B l0 C → K (l0 ++ C :: l3);
  policy_split l1 d l2 n : K (l1 ++ d :: l2) → isfree d = false → K (l1 ++ front d n :: back d n false false :: l2);
}.

(** No block that says its predecessor is free is wrong. *)
#[export] Instance flags_policy : policy (flags false).
Proof.
  split; [done| | |].
  - intros n l1 b l2 bs' [F1 [F2 F3]]%flags_app Hf [[_ ->]|[_ ->]]; apply flags_app; split; [done| |done|].
    + split; [done|]. split; [done|]. cbn. by rewrite Hf in F3.
    + split; [done|]. by eapply flags_unmarked.
  - intros l1 b l2 B l3 l0 C Hfl Hf HB HC.
    destruct (merged_next_facts l1 _ _ B l3 HB eq_refl (flags_set_free _ _ _ Hfl)) as (FB & _ & _ & _ & HflB).
    by destruct (merged_prev_facts l1 B l3 l0 C HC FB HflB) as (_ & _ & HflC).
  - intros l1 d l2 n [F1 [F2 F3]]%flags_app Hf. apply flags_app. split; [done|]. split; [done|]. split; [done|].
    cbn. by rewrite Hf in F3.
Qed.

(** All flags are right, and no two free blocks are neighbours. *)
Fixpoint exact (pf : bool) (l : list blk) : Prop :=
  match l with [] => True | b :: l => pfree b = pf ∧ (pf = true → isfree b = false) ∧ exact (isfree b) l end.
Lemma exact_app pf l1 l2 : exact pf (l1 ++ l2) ↔ exact pf l1 ∧ exact (prev_free_of pf l1) l2.
Proof. revert pf. induction l1 as [|b l1 IH]; intros pf; cbn; [tauto|]. rewrite IH. tauto. Qed.
Lemma exact_flags pf l : exact pf l → flags pf l.
Proof. revert pf. induction l as [|b l IH]; intros pf; [done|]. cbn. intros (-> & _ & H). split; [done|by apply IH]. Qed.

#[export] Instance exact_policy : policy (exact false).
Proof.
  split.
  - intros bs. apply exact_flags.
  - intros n l1 b l2 bs' [F1 (F2 & F3 & F4)]%exact_app Hf [[_ ->]|[_ ->]]; apply exact_app; (split; [done|]).
    + rewrite Hf in F4. split; [done|]. split; [done|]. split; [done|]. split; [done|]. exact F4.
    + split; [done|]. split; [done|]. destruct l2 as [|c l2]; [done|]. rewrite Hf in F4. destruct F4 as (_ & _ & F4). done.
  - intros l1 b l2 B l3 l0 C [F1 (F2 & F3 & F4)]%exact_app Hf HB HC. rewrite Hf in F4.
    assert (exact true l3 ∧ pfree B = pfree b ∧ isfree B = true) as (G1 & G2 & G3).
    { destruct HB as [(-> & -> & Hno)|(c & El & Hc & ->)].
      - split; [|done]. destruct l2 as [|c l2]; [done|]. destruct F4 as (_ & _ & F4). split; [done|]. split; [|done].
        intros _. by apply (Hno (set_pfree true c) l2).
      - split; [|done]. destruct l2 as [|c' l2]; [done|]. injection El as <- <-. destruct F4 as (_ & _ & F4).
        by rewrite <- Hc. }
    destruct HC as [(-> & -> & Hp)|(a & -> & Ha & Hp & ->)]; apply exact_app.
    + split; [done|]. split; [congruence|]. split; [congruence|]. by rewrite G3.
    + apply exact_app in F1 as [F0 (A1 & A2 & _)]. split; [done|]. split; [done|]. split; [done|].
      change (exact (isfree a) l3). by rewrite Ha.
  - intros l1 d l2 n [F1 (F2 & F3 & F4)]%exact_app Hf. apply exact_app. split; [done|]. split; [done|]. split; [done|].
    rewrite Hf in F4. cbn. by rewrite Hf.
Qed.

(** ** The map *)

(** [L]: what is handed out. *)
Definition shows (bs : list blk) (L : gmap Z Z) : Prop := ∀ p z, L !! p = Some z ↔ (p - 32, z) ∈ used bs.
(** The bytes that no client owns. *)
Definition keep (L : gmap Z Z) (k : Z) : Prop := ∀ p z, L !! p = Some z → ¬ (p <= k < p + z).

Lemma shows_block bs L p z : shows bs L → L !! p = Some z ↔ ∃ b, b ∈ bs ∧ isfree b = false ∧ addr b = p - 32 ∧ bsize b = z.
Proof. intros H. rewrite (H p z). apply used_elem. Qed.
Lemma shows_keep bs L k : shows bs L → touch (used bs) k → keep L k.
Proof. intros H Ht p z Hp. apply H in Hp. apply Ht in Hp. lia. Qed.
Lemma keep_sub (L L' : gmap Z Z) k : (∀ p z, L' !! p = Some z → L !! p = Some z) → keep L k → keep L' k.
Proof. intros Hs H p z Hp. apply H. auto. Qed.

(** A block goes from the free ones to those in use, or back. *)
Lemma shows_insert s l1 b l2 X L bs' z : wf s (l1 ++ b :: l2) X → isfree b = true → shows (l1 ++ b :: l2) L →
  used bs' = used l1 ++ (addr b, z) :: used l2 → L !! (addr b + 32) = None ∧ shows bs' (<[addr b + 32 := z]> L).
Proof.
  intros H Hf HL Hu. pose proof (wf_others _ _ _ _ _ H) as Hoth.
  assert (∀ y, (addr b, y) ∉ used l1 ++ used l2) as Hnew.
  { intros y Hy. rewrite <- used_app in Hy. apply used_elem in Hy as (c & Hc & _ & Ha & _). by apply (Hoth c). }
  assert (L !! (addr b + 32) = None) as Hnone.
  { apply eq_None_not_Some. intros [y Hy]. apply HL in Hy. replace (addr b + 32 - 32) with (addr b) in Hy by lia.
    rewrite used_free in Hy by done. by apply Hnew in Hy. }
  split; [done|]. intros p y. rewrite Hu, elem_of_app, elem_of_cons. destruct (decide (p = addr b + 32)) as [->|Hne].
  - rewrite lookup_insert_eq. replace (addr b + 32 - 32) with (addr b) by lia. split.
    + intros [= ->]. right. by left.
    + intros [Hy|[[= ->]|Hy]]; [|done|]; destruct (Hnew y); set_solver.
  - rewrite lookup_insert_ne by done. rewrite (HL p y), used_free, elem_of_app by done. split; [naive_solver|].
    intros [Hy|[[= Ha _]|Hy]]; [by left|lia|by right].
Qed.
Lemma shows_delete s l1 b l2 X L bs' : wf s (l1 ++ b :: l2) X → isfree b = false → shows (l1 ++ b :: l2) L →
  used bs' = used l1 ++ used l2 → shows bs' (delete (addr b + 32) L).
Proof.
  intros H Hf HL Hu p y. pose proof (wf_others _ _ _ _ _ H) as Hoth. rewrite Hu. specialize (HL p y). rewrite used_used in HL by done.
  rewrite lookup_delete_Some, HL, elem_of_app, elem_of_app, elem_of_cons. split.
  - intros [Hne [Hy|[[= Ha _]|Hy]]]; [by left|lia|by right].
  - intros Hy. split; [|tauto]. intros Ep. rewrite <- elem_of_app, <- used_app in Hy.
    apply used_elem in Hy as (c & Hc & _ & Ha & _). apply (Hoth c Hc). lia.
Qed.

Section Live.
Context (K : list blk → Prop) `{!policy K}.
Definition holds (s : arena) (L : gmap Z Z) : Prop := ∃ bs, wf s bs [] ∧ K bs ∧ shows bs L.

Lemma holds_range s L : holds s L → heap_end (ctl s) < 2 ^ 64 ∧ 0 < heap_start (ctl s).
Proof. intros (bs & [B HB] & _). pose proof (co_range _ _ _ _ HB). lia. Qed.

(** What is handed out is aligned, inside the heap, and does not overlap. *)
Lemma holds_apart s L p z : holds s L → L !! p = Some z →
  heap_start (ctl s) + 32 <= p ∧ p + z <= heap_end (ctl s) ∧ 16 <= z ∧ p mod 8 = 0 ∧ mapped (heap s) p (p + z) ∧
  ∀ q y, L !! q = Some y → q = p ∨ p + z <= q - 32 ∨ q + y <= p - 32.
Proof.
  intros (bs & [B H] & _ & HL) Hp. apply (shows_block bs L p z HL) in Hp as (b & Hb & Hf & Ha & <-).
  pose proof (core_placed _ _ _ _ _ H Hb) as []. unfold end_of in *. split_and!; try lia.
  - dlia.
  - intros k Hk. apply pl_mapped. lia.
  - intros q y Hq. apply (shows_block bs L q y HL) in Hq as (c & Hc & _ & Hac & <-).
    destruct (core_apart _ _ _ _ _ _ H Hb Hc) as [->|[?|?]]; unfold end_of in *; [left|right..]; lia.
Qed.
Lemma holds_bytes s L : holds s L → bytes_ok (heap s).
Proof. intros (bs & H & _). destruct H as [B H]. apply H. Qed.

(** ** The operations *)

(** The block given away, or nothing. *)
Definition alloc_post (s : arena) (L : gmap Z Z) (n p : Z) (s' : arena) : Prop :=
  (p = 0 ∧ s' = s) ∨
  (∃ z, p ≠ 0 ∧ n <= z < n + 48 ∧ L !! p = None ∧ holds s' (<[p := z]> L) ∧ evo (keep L) s s').

Lemma alloc_holds s L size : holds s L → 0 <= size →
  wp (__tlsf_alloc size) (alloc_post s L (block_size_for size)) s.
Proof.
  intros (bs & H & HK & HL) Hs. pose proof (policy_flags bs HK) as Hfl. eapply wp_alloc; [done..| |].
  - intros _. by left.
  - intros s' l1 b l2 bs' -> Hf Hn Hh H' E. pose proof (wf_here _ _ _ _ _ H) as [].
    destruct (handed_facts _ _ _ _ _ Hh Hf Hn Hfl) as (Hfl' & z & Hz & Hu).
    destruct (shows_insert s l1 b l2 [] L bs' z H Hf HL Hu) as [Hnone HL'].
    right. exists z. split; [lia|]. split; [done|]. split; [done|].
    split; [exists bs'; split; [done|]; split; [by eapply policy_handed|done]|].
    eapply evo_weaken; [|exact E]. intros k. by apply shows_keep.
Qed.

Lemma free_holds s L p z : holds s L → L !! p = Some z →
  wp (__tlsf_free p) (fun _ s' => holds s' (delete p L) ∧ evo (keep (delete p L)) s s') s.
Proof.
  intros (bs & H & HK & HL) Hp. pose proof (policy_flags bs HK) as Hfl. pose proof Hp as Hp'. apply (shows_block bs L p z HL) in Hp' as (b & Hb & Hf & Ha & _).
  apply list_elem_of_split in Hb as (l1 & l2 & ->). replace p with (addr b + 32) by lia.
  eapply wp_free; [exact H|exact Hfl|exact Hf|]. intros s' B l3 l0 C HB HC H' E. rewrite used_flag_head in E.
  destruct (merged_next_facts l1 _ _ B l3 HB eq_refl (flags_set_free _ _ _ Hfl)) as (FB & _ & _ & HuB & HflB).
  destruct (merged_prev_facts l1 B l3 l0 C HC FB HflB) as (FC & HuC & HflC).
  assert (used (l0 ++ C :: l3) = used l1 ++ used l2) as Hu by (rewrite used_free by done; by rewrite HuB, HuC, used_flag_head).
  pose proof (shows_delete s l1 b l2 [] L _ H Hf HL Hu) as HL'. split.
  - exists (l0 ++ C :: l3). split; [done|]. split; [by eapply policy_freed|done].
  - eapply evo_weaken; [|exact E]. intros k. rewrite <- Hu. by apply shows_keep.
Qed.

(** A client writes into its block. *)
Lemma wf_payload s bs X b m' : wf s bs X → b ∈ bs → isfree b = false →
  chg (fun k => addr b + 32 <= k < end_of b) (heap s) m' → wf (with_heap m' s) bs X.
Proof.
  intros [B H] Hb Hf Hc. exists B. eapply core_edit; [exact H|exact Hc| | |done].
  - intros k c Hin Hcf _ Hk. cbv beta. pose proof (core_placed _ _ _ _ _ H Hin) as [].
    destruct (core_apart _ _ _ _ _ _ H Hb Hin) as [->|[?|?]]; [congruence|unfold end_of in *; lia..].
  - eapply phys_frame; [apply H|]. intros c k Hin Hk. apply Hc. cbv beta. pose proof (core_placed _ _ _ _ _ H Hin) as [].
    destruct (core_apart _ _ _ _ _ _ H Hb Hin) as [->|[?|?]]; unfold end_of in *; lia.
Qed.
Lemma write_holds s L p z m' : holds s L → L !! p = Some z → chg (fun k => p <= k < p + z) (heap s) m' →
  holds (with_heap m' s) L.
Proof.
  intros (bs & H & Hfl & HL) Hp Hc. apply (shows_block bs L p z HL) in Hp as (b & Hb & Hf & Ha & <-).
  exists bs. split; [|done]. eapply wf_payload; [done|exact Hb|done|]. eapply chg_weaken; [|exact Hc].
  intros k Hk. cbv beta in Hk. unfold end_of. lia.
Qed.

(** ** [__tlsf_realloc] *)

Lemma wp_copy dest src n s Q : 0 <= n → bytes_ok (heap s) → mapped (heap s) dest (dest + n) → mapped (heap s) src (src + n) →
  dest + n <= src ∨ src + n <= dest →
  (∀ m', chg (fun k => dest <= k < dest + n) (heap s) m' → (∀ k, 0 <= k < n → m' !! (dest + k) = heap s !! (src + k)) →
     Q tt (with_heap m' s)) → wp (copy dest src n) Q s.
Proof.
  intros Hn Hb Hd Hs Hdis HQ. destruct (memcpy_copies dest src n (heap s)) as (m' & E & Hm).
  - done.
  - intros j Hj. split; [apply Hd|apply Hs]; lia.
  - intros a v Ha. by apply (Hb a).
  - intros j j' Hj Hj'. lia.
  - unfold wp, copy. rewrite E. apply HQ.
    + split.
      * intros k Hk. rewrite Hm, decide_False by done. done.
      * intros k Hk. rewrite Hm. case_decide; [apply Hs; lia|done].
      * intros _ k v. rewrite Hm. case_decide; apply Hb.
    + intros k Hk. rewrite Hm, decide_True by lia. f_equal. lia.
Qed.

Definition moved (s : arena) (L : gmap Z Z) (p z n r : Z) (s' : arena) : Prop :=
  ∃ z', r ≠ 0 ∧ L !! r = None ∧ n <= z' < n + 48 ∧ holds s' (<[r := z']> (delete p L)) ∧ evo (keep (delete p L)) s s' ∧
    ∀ k, 0 <= k < z → heap s' !! (r + k) = heap s !! (p + k).
Definition resized (s : arena) (L : gmap Z Z) (p z n : Z) (s' : arena) : Prop :=
  ∃ z', n <= z' ∧ holds s' (<[p := z']> L) ∧ evo (keep (<[p := Z.min n z]> L)) s s'.
Definition realloc_post (s : arena) (L : gmap Z Z) (p z n r : Z) (s' : arena) : Prop :=
  (r = 0 ∧ s' = s) ∨ (r = p ∧ resized s L p z n s') ∨ moved s L p z n r s'.

Lemma copy_holds s L p z n : holds s L → L !! p = Some z → z < n → 0 < n → block_size_for n = n →
  wp (realloc_copy p n z) (realloc_post s L p z n) s.
Proof.
  intros H Hp Hzn Hn En. unfold realloc_copy. apply wp_bind.
  eapply wp_mono; [apply alloc_holds; [exact H|lia]|]. rewrite En.
  intros r s1 [[-> ->]|(z' & Hr & Hz' & Hnone & H1 & E1)]; [by apply wp_ret; left|].
  rewrite (proj2 (Z.eqb_neq r 0)) by done. assert (r ≠ p) as Hrp by congruence.
  assert (<[r := z']> L !! p = Some z) as Hp1 by by rewrite lookup_insert_ne.
  assert (<[r := z']> L !! r = Some z') as Hr1 by apply lookup_insert_eq.
  destruct (holds_apart _ _ _ _ H1 Hp1) as (P1 & P2 & P3 & _ & Pm & Papart).
  destruct (holds_apart _ _ _ _ H1 Hr1) as (R1 & R2 & R3 & _ & Rm & _).
  destruct (Papart r z' Hr1) as [|Hfar]; [done|].
  assert (mapped (heap s1) r (r + z)) as Rm' by (intros k Hk; apply Rm; lia).
  apply wp_bind, wp_copy; [lia|by eapply holds_bytes|done|done|lia|]. intros m C2 Hcp.
  assert (holds (with_heap m s1) (<[r := z']> L)) as H2.
  { eapply write_holds; [exact H1|exact Hr1|]. eapply chg_weaken; [|exact C2]. intros k Hk. cbv beta in *. lia. }
  apply wp_bind. eapply wp_mono; [apply (free_holds _ _ p z H2 Hp1)|]. intros [] s3 [H3 E3]. apply wp_ret. right. right.
  rewrite delete_insert_ne in H3, E3 by done. exists z'. split_and!; try done; try lia.
  - eapply evo_trans; [|eapply evo_trans]; [eapply evo_weaken; [|exact E1]|apply (evo_heap (keep (delete p L)) s1 m)|eapply evo_weaken; [|exact E3]].
    + intros k. apply keep_sub. intros q y [_ Hq]%lookup_delete_Some. done.
    + eapply chg_weaken; [|exact C2]. intros k Hk q y [_ Hq]%lookup_delete_Some. cbv beta in Hk.
      destruct (holds_apart _ _ _ _ H1 Hr1) as (_ & _ & _ & _ & _ & Hap).
      destruct (Hap q y) as [->|?]; [|by rewrite Hnone in Hq|lia]. rewrite lookup_insert_ne; [done|]. intros ->. by rewrite Hnone in Hq.
    + intros k. apply keep_sub. intros q y Hq. rewrite lookup_insert_ne; [done|]. intros ->.
      apply lookup_delete_Some in Hq as [_ Hq]. by rewrite Hnone in Hq.
  - intros k Hk. transitivity (m !! (r + k)).
    + apply (ev_chg _ _ _ E3). intros Hkeep. apply (Hkeep r z'); [apply lookup_insert_eq|lia].
    + rewrite Hcp by done. apply (ev_chg _ _ _ E1). intros Hkeep. apply (Hkeep p z Hp). lia.
Qed.

End Live.

(** A size that a request rounds to rounds to itself. *)
Lemma block_size_for_idem size : 0 < size <= 2 ^ 27 → block_size_for (block_size_for size) = block_size_for size.
Proof.
  intros Hs. destruct (block_size_for_spec size Hs) as (H1 & H2 & H8 & _). cbv zeta in *.
  set (n := block_size_for size) in *. unfold block_size_for, tlsf_align_up, TLSF_ALIGNMENT, TLSF_BLOCK_MIN.
  pose proof (align_up_least n 3 ltac:(lia) ltac:(lia) ltac:(lia)) as [A1 A2]. change (2 ^ 3) with 8 in *.
  assert (p2align_up n 8 = n) as -> by dlia. destruct (Z.ltb_spec n 16); [lia|done].
Qed.

(** The block [b] would grow into the free block behind it without leaving a
    rest, and the block behind that one says that its predecessor is free. *)
Definition stale_growth (bs : list blk) (b : blk) (n : Z) : Prop :=
  ∃ l1 c d l3, bs = l1 ++ b :: c :: d :: l3 ∧ isfree c = true ∧ pfree d = true ∧
    bsize b < n <= bsize b + bsize c ∧ bsize b + 32 + bsize c < n + 48.

Lemma shows_resize s bs l1 b l2 L bs' z : wf s bs [] → bs = l1 ++ b :: l2 → isfree b = false → shows bs L →
  used bs' = used l1 ++ (addr b, z) :: used l2 → shows bs' (<[addr b + 32 := z]> L).
Proof.
  intros H -> Hf HL Hu p y. pose proof (wf_others _ _ _ _ _ H) as Hoth.
  assert (∀ y, (addr b, y) ∉ used l1 ++ used l2) as Hnew.
  { intros w Hw. rewrite <- used_app in Hw. apply used_elem in Hw as (c & Hc & _ & Ha & _). by apply (Hoth c). }
  specialize (HL p y). rewrite used_used in HL by done. rewrite Hu, elem_of_app, elem_of_cons.
  destruct (decide (p = addr b + 32)) as [->|Hne].
  - rewrite lookup_insert_eq. replace (addr b + 32 - 32) with (addr b) by lia. split.
    + intros [= ->]. right. by left.
    + intros [Hy|[[= ->]|Hy]]; [|done|]; destruct (Hnew y); set_solver.
  - rewrite lookup_insert_ne, HL, elem_of_app, elem_of_cons by done. split; (intros [Hy|[[= Ha _]|Hy]]; [by left|lia|by right; right]).
Qed.

(** Shrinking in place. *)
Lemma shrink_resized s l1 b l2 L n Q :
  wf s (l1 ++ b :: l2) [] → flags false (l1 ++ b :: l2) → isfree b = false → shows (l1 ++ b :: l2) L →
  16 <= n < 2 ^ 63 → n mod 8 = 0 → n <= bsize b →
  (∀ r s', resized (flags false) s L (addr b + 32) (bsize b) n s' → Q r s') → wp (__tlsf_try_carve (addr b) n) Q s.
Proof.
  intros H Hfl Hf HL Hn Hn8 Hle HQ. eapply wp_carve; [exact H|done|lia|done| |].
  - intros _. apply HQ. exists (bsize b). split; [lia|]. split; [|apply evo_refl].
    exists (l1 ++ b :: l2). split; [done|]. split; [done|]. eapply shows_resize; try done. by rewrite used_used.
  - intros s' Hfit H' E. assert (used (l1 ++ front b n :: back b n true false :: l2) = used l1 ++ (addr b, n) :: used l2) as Hu
      by (by rewrite used_used).
    assert (shows (l1 ++ front b n :: back b n true false :: l2) (<[addr b + 32 := n]> L)) as HL' by exact (shows_resize _ _ _ _ _ _ _ _ H eq_refl Hf HL Hu).
    apply HQ. exists n. split; [lia|]. split.
    + eexists. split; [exact H'|]. split; [|exact HL']. apply flags_app in Hfl as [F1 [F2 F3]]. apply flags_app.
      split; [done|]. split; [done|]. split; [done|]. cbn. rewrite Hf in F3. by apply flags_weaken.
    + rewrite Z.min_l by lia. eapply evo_weaken; [|exact E]. intros k Hk. eapply shows_keep; [exact HL'|].
      rewrite Hu. rewrite used_used in Hk by done. exact Hk.
Qed.

Lemma wp_seq2 {A B C} (a : T A) (b : T B) (k : T C) Q s :
  wp (a ;;; b) (fun _ => wp k Q) s → wp (a ;;; b ;;; k) Q s.
Proof. unfold wp, bind. destruct (a s) as [[x s1]|]; [|done]. by destruct (b s1) as [[y s2]|]. Qed.

(** Growing in place. *)
Lemma grow_resized s l1 b c l3 L n Q :
  wf s (l1 ++ b :: c :: l3) [] → flags false (l1 ++ b :: c :: l3) → isfree b = false → isfree c = true →
  shows (l1 ++ b :: c :: l3) L → 16 <= n <= 2 ^ 27 → n mod 8 = 0 → bsize b < n → n <= bsize b + bsize c →
  ¬ stale_growth (l1 ++ b :: c :: l3) b n →
  (∀ r s', resized (flags false) s L (addr b + 32) (bsize b) n s' → Q r s') →
  wp (__tlsf_merge_next (addr b) ;;; __tlsf_try_carve (addr b) n) Q s.
Proof.
  intros H Hfl Hf Hc HL Hn Hn8 Hlt Hle Hstale HQ. apply wp_bind.
  eapply wp_merge_next; [exact H|by rewrite Hf|intros; apply not_elem_of_nil| |].
  { intros Hno. by rewrite (Hno c l3 eq_refl) in Hc. }
  intros c' l' s1 [= <- <-] _ H1 E1. apply flags_app in Hfl as [F1 [F2 [_ F3]]]. rewrite Hc in F3.
  assert (used (c :: l3) = used l3) as Huc by (cbn; by rewrite Hc).
  assert (∀ z k, bsize b <= z → touch (used l1 ++ (addr b, z) :: used l3) k → touch (used (l1 ++ b :: c :: l3)) k) as Htouch.
  { intros z k Hz Hk a y Ha. rewrite used_used, Huc in Ha by done. apply elem_of_app in Ha as [Ha|[[= -> ->]|Ha]%elem_of_cons].
    - apply Hk. set_solver.
    - pose proof (Hk (addr b) z ltac:(set_solver)). lia.
    - apply Hk. set_solver. }
  assert (evo (touch (used (l1 ++ b :: c :: l3))) s s1) as E1' by exact (evo_touch _ _ _ _ _ _ H eq_refl E1).
  assert (L !! (addr b + 32) = Some (bsize b)) as Hp.
  { apply (HL _ _). rewrite used_used by done. replace (addr b + 32 - 32) with (addr b) by lia. set_solver. }
  assert (∀ s2 bs' z, n <= z → wf s2 bs' [] → flags false bs' → used bs' = used l1 ++ (addr b, z) :: used l3 →
    evo (touch (used (l1 ++ b :: c :: l3))) s s2 → resized (flags false) s L (addr b + 32) (bsize b) n s2) as Hdone.
  { intros s2 bs' z Hz H2 Hfl2 Hu2 E2. exists z. split; [done|]. split.
    - exists bs'. split; [done|]. split; [done|].
      apply (shows_resize s _ l1 b (c :: l3) L bs' z H eq_refl Hf HL). by rewrite Huc.
    - rewrite Z.min_r, insert_id by (lia || done).
      eapply evo_weaken; [|exact E2]. intros k. by apply shows_keep. }
  change (addr b) with (addr (joined b c)). eapply wp_carve; [exact H1|exact Hf|lia|done| |].
  - cbn. intros Hsmall. apply HQ. eapply (Hdone s1 _ (bsize b + 32 + bsize c)); [lia|exact H1| | |exact E1'].
    + apply flags_app. split; [done|]. split; [done|]. cbn. rewrite Hf. destruct l3 as [|d l4]; [done|].
      destruct F3 as [_ F3]. split; [|done]. intros Hd. destruct Hstale. by exists l1, c, d, l4.
    + by rewrite used_used.
  - cbn. intros s2 Hfit H2 E2. apply HQ. eapply (Hdone s2 _ n); [lia|exact H2| | |].
    + apply flags_app. by split.
    + by rewrite used_used.
    + eapply evo_trans; [exact E1'|]. eapply evo_weaken; [|exact E2]. intros k. rewrite used_used by done. apply (Htouch n). lia.
Qed.

Lemma realloc_holds s bs L b size :
  wf s bs [] → flags false bs → shows bs L → b ∈ bs → isfree b = false → 0 < size →
  ¬ stale_growth bs b (block_size_for size) →
  wp (__tlsf_realloc (addr b + 32) size) (realloc_post (flags false) s L (addr b + 32) (bsize b) (block_size_for size)) s.
Proof.
  intros H Hfl HL Hb Hf Hs Hstale. apply list_elem_of_split in Hb as (l1 & l2 & ->).
  pose proof (wf_here _ _ _ _ _ H) as Pb. pose proof Pb as []. unfold __tlsf_realloc, TLSF_MAX_ALLOC, TLSF_FL_SHIFT.
  rewrite (proj2 (Z.eqb_neq _ 0)), (proj2 (Z.eqb_neq size 0)) by lia. apply wp_bind, wp_outside.
  unfold end_of in *. rewrite (proj2 (Z.ltb_ge _ _)), (proj2 (Z.leb_gt _ _)) by lia. cbn [orb].
  destruct (Z.ltb_spec (2 ^ 27) size) as [|Hmax]; [by apply wp_ret; left|].
  unfold tlsf_ptr_to_block, sizeof_tlsf_block, u64. replace (addr b + 32 - 32) with (addr b) by lia.
  rewrite (wrap_small 64 (addr b)) by lia. apply wp_bind, pl_get_size; [done|]. cbv zeta.
  destruct (block_size_for_spec size ltac:(lia)) as (Hn1 & Hn2 & Hn8 & _). pose proof (block_size_for_idem size ltac:(lia)) as Hid.
  set (n := block_size_for size) in *.
  assert (holds (flags false) s L) as Hh by by exists (l1 ++ b :: l2).
  assert (L !! (addr b + 32) = Some (bsize b)) as Hp.
  { apply (HL _ _). rewrite used_used by done. replace (addr b + 32 - 32) with (addr b) by lia. set_solver. }
  destruct (Z.eqb_spec (bsize b) n) as [E|Hne].
  { apply wp_ret. right. left. split; [done|]. exists (bsize b). split; [lia|]. rewrite !insert_id by (done || by rewrite Z.min_r by lia).
    split; [done|apply evo_refl]. }
  destruct (Z.ltb_spec n (bsize b)) as [Hlt|Hge].
  { apply wp_bind. eapply shrink_resized; [exact H|done..|lia|done|lia|]. intros r s' HR. apply wp_ret. right. by left. }
  apply wp_bind, pl_next; [done|]. apply wp_bind, wp_inside. rewrite (next_inside _ _ _ _ _ H).
  destruct l2 as [|c l3]; [apply wp_bind, wp_ret; apply (copy_holds (flags false)); done || lia|].
  rewrite (next_addr s l1 b (c :: l3) [] H c l3 eq_refl).
  assert (placed s c) as Pc by (apply (wf_placed s l1 b (c :: l3) [] H); set_solver). pose proof Pc as [].
  apply wp_bind, pl_is_free; [done|]. destruct (isfree c) eqn:Hcf; [|apply (copy_holds (flags false)); done || lia].
  apply wp_bind, pl_get_size; [done|]. rewrite (wrap_small 64 (bsize c + bsize b)) by lia.
  destruct (Z.leb_spec n (bsize c + bsize b)) as [Hgrow|]; [|apply (copy_holds (flags false)); done || lia].
  apply (wp_seq2 (__tlsf_merge_next (addr b)) (__tlsf_try_carve (addr b) n)).
  eapply grow_resized; [exact H|done..|lia|done|lia|lia|done|]. intros r s' HR. apply wp_ret. right. left. split; [|done].
  unfold tlsf_block_to_ptr, sizeof_tlsf_block, u64. apply wrap_small. lia.
Qed.
