(* ===== verification/TlsfAligned.v ===== *)
(** * TlsfAligned: aligned allocation

    A larger block is taken, a small header is put below the aligned address,
    and what lies in front of it is given back if it is large enough. *)

From S2P Require Import Prelude Std Mem.
From S2P Require Import Tlsf TlsfBlocks TlsfLists TlsfCore TlsfAlloc TlsfMore TlsfLive.
From Stdlib Require Import ZArith Lia Bool.
From stdpp Require Import base gmap list numbers.

Local Open Scope Z_scope.

(** ** The part in front of the header *)

Section Front.
Context (s : arena) (l1 : list blk) (d : blk) (l2 : list blk) (n : Z).
Context (H : wf s (l1 ++ d :: l2) []) (Hf : isfree d = false).
Context (Hn : 16 <= n) (Hn8 : n mod 8 = 0) (Hfit : n + 48 <= bsize d).
Local Abbreviation x := (addr d + 32 + n).
Local Abbreviation z := (bsize d - n - 32).

(** A block in use becomes two. *)
Lemma wp_split_used {A} (k : T A) Q :
  (∀ s', wf s' (l1 ++ front d n :: back d n false false :: l2) [] →
     evo (fun i => hdrs (l1 ++ d :: l2) i ∨ x <= i < x + 32) s s' → wp k Q s') →
  wp (tlsf_set_block_size x z ;;; tlsf_unset_block_free x ;;; tlsf_unset_prev_phys_free x ;;;
      set_prev_phys x (addr d) ;;; set_prev_free x 0 ;;; set_next_free x 0 ;;;
      next <~ tlsf_next_block x ;; inside <~ in_heap_before_end next ;;
      (if inside then set_prev_phys next x else ret tt) ;;; tlsf_set_block_size (addr d) n ;;; k) Q s.
Proof using All.
  intros HQ. assert (isfree d = true → addr d ∈ []) as HdX by (rewrite Hf; done).
  destruct (cut_facts s l1 d l2 _ n H HdX Hn Hn8 Hfit) as (Pd & Hz8 & Hzo & Hno & Hx & Hend & Htop).
  destruct (cut_header s l1 d l2 _ n H HdX Hn Hn8 Hfit) as (z0 & f0 & p0 & Hw & Hz0 & Hz4).
  destruct (pl_word_ok s d Pd) as (D1 & D2 & D3 & _). pose proof (wf_bytes _ _ _ _ _ H) as Hb. pose proof H as [B HB].
  pose proof Pd as []. assert (mapped (heap s) x (x + 32)) as Hm by (intros i Hi; apply Pd; unfold end_of in *; lia).
  apply wp_bind, (wp_set_size x z0 f0 p0); try done; [destruct Hzo; lia|]. intros m1 C1 W1.
  apply wp_bind, (wp_unset_free x z f0 p0); try done; try (destruct Hzo; lia); [by apply C1|]. intros m2 C2 W2.
  apply wp_bind, (wp_unset_pfree x z false p0); try done; try (destruct Hzo; lia); [by apply C2, C1|]. intros m3 C3 W3.
  cbn [heap with_heap] in *. assert (chg (fun i => x <= i < x + 8) (heap s) m3) as C13 by (do 2 (eapply chg_trans; [|eassumption]); done).
  assert (mapped m3 x (x + 32)) as Hm3 by by eapply chg_mapped.
  apply wp_bind, wp_set_prev_phys; try done; [lia|by apply C13|intros i Hi; apply Hm3; lia|]. intros m4 C4 W4.
  cbn [heap with_heap] in *. assert (mapped m4 x (x + 32)) as Hm4 by by eapply chg_mapped.
  unfold set_prev_free, set_next_free, off_prev_free, off_next_free.
  apply wp_bind, wp_set_link; try done; try lia; [by apply C4, C13|intros i Hi; apply Hm4; lia|]. intros m5 C5 W5.
  cbn [heap with_heap] in *. assert (mapped m5 x (x + 32)) as Hm5 by by eapply chg_mapped.
  apply wp_bind, wp_set_link; try done; try lia; [by apply C5, C4, C13|intros i Hi; apply Hm5; lia|]. intros m6 C6 W6.
  cbn [heap with_heap] in *. change (with_heap m6 _) with (with_heap m6 s).
  assert (chg (fun i => x + 16 <= i < x + 32) m4 m6) as C46.
  { eapply chg_trans; (eapply chg_weaken; [|eassumption]); intros i Hi; cbv beta in *; lia. }
  assert (chg (fun i => x <= i < x + 32) (heap s) m6) as C06.
  { eapply chg_trans; [eapply chg_trans|]; (eapply chg_weaken; [|eassumption]); intros i Hi; cbv beta in *; lia. }
  assert (wd m6 x (hword z false false)) as W3'.
  { eapply wd_chg; [exact C46|intros i Hi; cbv beta; lia|]. eapply wd_chg; [exact C4|intros i Hi; cbv beta; lia|exact W3]. }
  apply wp_bind, (wp_next_block x z false false); try done; try (destruct Hzo; lia).
  apply wp_bind, wp_inside. rewrite Hend. cbn [ctl with_heap]. apply wp_bind.
  pose proof (co_phys _ _ _ _ HB) as Hp. rewrite phys_middle in Hp. destruct Hp as (_ & _ & _ & _ & _ & Hp).
  eapply (wp_relink (with_heap m6 s) (addr d) (end_of d) l2); cbn [heap with_heap ctl]; [|lia|done|by apply C06|lia|].
  { eapply phys_frame; [exact Hp|]. intros y i Hy Hi. apply C06. cbv beta. apply phys_bounds in Hp as [_ Hp].
    destruct (Hp y Hy) as (? & _). lia. }
  intros m7 [C7 W7]. cbn [heap with_heap ctl] in *. change (with_heap m7 (with_heap m6 s)) with (with_heap m7 s).
  assert (chg (fun i => x <= i < x + 32 ∨ end_of d < heap_end (ctl s) ∧ end_of d + 8 <= i < end_of d + 16) (heap s) m7) as C07.
  { eapply chg_trans; (eapply chg_weaken; [|eassumption]); intros i Hi; cbv beta in *; tauto. }
  assert (wd m7 (addr d) (word_of d)) as Wd.
  { eapply wd_chg; [exact C07| |exact pl_word]. intros i Hi. cbv beta. unfold end_of in *. lia. }
  apply wp_bind, (wp_set_size (addr d) (bsize d) (isfree d) (pfree d)); try done; [by apply C07|].
  intros m8 C8 W8. cbn [heap with_heap] in *. change (with_heap m8 (with_heap m7 s)) with (with_heap m8 s).
  assert (chg (fun i => addr d <= i < addr d + 8 ∨ x <= i < x + 32 ∨
    end_of d < heap_end (ctl s) ∧ end_of d + 8 <= i < end_of d + 16) (heap s) m8) as C.
  { eapply chg_trans; (eapply chg_weaken; [|eassumption]); intros i Hi; cbv beta in *; tauto. }
  assert (∀ a w, x <= a → a + 8 <= x + 32 → wd m6 a w → wd m8 a w) as Hkeep.
  { intros a w Ha1 Ha2 Hwa. eapply wd_chg; [exact C8| |]. { intros i Hi. cbv beta. lia. }
    eapply wd_chg; [exact C7| |exact Hwa]. intros i Hi. cbv beta. destruct Hzo. lia. }
  apply HQ.
  - exists B. apply (core_split s l1 (front d n) (back d n false false) l2 d []) with (m' := m8); cbn; unfold TLSF_BLOCK_MIN; try done; try lia; try (by rewrite Hf).
    + eapply chg_weaken; [|exact C]. intros i. unfold back, end_of. cbn. unfold end_of in Hend. rewrite Hend. tauto.
    + by apply Hkeep; [lia|lia|].
    + apply Hkeep; [lia|lia|]. eapply wd_chg; [exact C46| |exact W4]. intros i Hi. cbv beta. lia.
    + unfold back, end_of. cbn. unfold end_of in Hend, W7. rewrite Hend. intros Hlt.
      eapply wd_chg; [exact C8| |by apply W7]. intros i Hi. cbv beta. lia.
  - apply evo_heap. eapply chg_weaken; [|exact C]. intros i [Hi|[Hi|[He Hi]]]; [left; exists d; split; [set_solver|lia]|by right|].
    destruct l2 as [|y l3]; cbn in Hp; [lia|]. destruct Hp as [Hy _]. left. exists y. split; [set_solver|lia].
Qed.
End Front.

Section Aligned.
Context (K : list blk → Prop) `{!policy K}.

Lemma holds_split s L o z n : holds K s L → L !! o = Some z → 16 <= n → n mod 8 = 0 → n + 48 <= z →
  ∃ l1 d l2, addr d = o - 32 ∧ bsize d = z ∧ isfree d = false ∧ wf s (l1 ++ d :: l2) [] ∧ K (l1 ++ d :: l2) ∧
    shows (l1 ++ d :: l2) L.
Proof.
  intros (bs & H & Hfl & HL) Ho Hn Hn8 Hfit. pose proof Ho as Ho'.
  apply (shows_block bs L o z HL) in Ho' as (d & Hd & Hf & Ha & Hz). apply list_elem_of_split in Hd as (l1 & l2 & ->).
  by exists l1, d, l2.
Qed.

(** The front part is given back; the rest is handed out at its own address. *)
Lemma split_holds s l1 d l2 L n s' :
  wf s (l1 ++ d :: l2) [] → K (l1 ++ d :: l2) → isfree d = false → shows (l1 ++ d :: l2) L →
  16 <= n → n + 48 <= bsize d →
  wf s' (l1 ++ front d n :: back d n false false :: l2) [] →
  evo (fun i => hdrs (l1 ++ d :: l2) i ∨ addr d + 32 + n <= i < addr d + 32 + n + 32) s s' →
  let o := addr d + 32 in let r := o + n + 32 in
  L !! r = None ∧ holds K s' (<[r := bsize d - n - 32]> (<[o := n]> L)) ∧ evo (keep (delete o L)) s s'.
Proof.
  intros H Hfl Hf HL Hn Hfit H' E o r. pose proof H as [B HB]. assert (d ∈ l1 ++ d :: l2) as Hd by set_solver.
  pose proof (wf_here _ _ _ _ _ H) as []. assert (L !! r = None) as Hnone.
  { apply eq_None_not_Some. intros [y Hy]. apply (shows_block _ L r y HL) in Hy as (c & Hc & _ & Ha & _).
    pose proof (core_placed _ _ _ _ _ HB Hc) as [].
    destruct (core_apart _ _ _ _ _ _ HB Hc Hd) as [->|[?|?]]; unfold end_of, r, o in *; lia. }
  split; [done|].
  assert (used (l1 ++ front d n :: back d n false false :: l2) =
    used l1 ++ (addr d, n) :: (addr d + 32 + n, bsize d - n - 32) :: used l2) as Hu by by rewrite used_used.
  split.
  - exists (l1 ++ front d n :: back d n false false :: l2). split; [done|]. split; [by apply policy_split|].
    assert (shows (l1 ++ front d n :: l2) (<[o := n]> L)) as HL1 by (eapply (shows_resize s _ l1 d l2); done || by rewrite used_used).
      assert (∀ p y, <[o := n]> L !! p = Some y → p ≠ r) as Hne.
      { intros p y Hp ->. rewrite lookup_insert_ne in Hp by (unfold r, o; lia). by rewrite Hnone in Hp. }
      intros p y. specialize (HL1 p y). rewrite used_used in HL1 by done.
      rewrite Hu, elem_of_app, !elem_of_cons. rewrite elem_of_app, elem_of_cons in HL1. cbn in HL1.
      destruct (decide (p = r)) as [->|Hpr].
      * rewrite lookup_insert_eq. split; [intros [= <-]; right; right; left; unfold r, o; f_equal; lia|].
        intros [Hy|[[= Ha _]|[[= _ ->]|Hy]]]; [|unfold r, o in *; lia|done|];
          exfalso; eapply (Hne r y); [apply HL1; tauto|done|apply HL1; tauto|done].
      * rewrite lookup_insert_ne by done. rewrite HL1. split; [tauto|].
        intros [Hy|[Hy|[[= Ha _]|Hy]]]; [tauto|tauto| |tauto]. unfold r, o in *. lia.
  - eapply evo_weaken; [|exact E]. intros k Hk p y [Hpo Hp]%lookup_delete_Some.
    apply (shows_block _ L p y HL) in Hp as (c & Hc & Hcf & Ha & <-).
    destruct Hk as [Hk|Hk].
    + apply (hdrs_touch s _ [] k H) in Hk. specialize (Hk (addr c) (bsize c)). rewrite Ha in Hk.
      intros Hpk. apply Hk; [|lia]. apply used_elem. by exists c.
    + destruct (core_apart _ _ _ _ _ _ HB Hc Hd) as [->|[?|?]]; unfold end_of, o in *; lia.
Qed.

(** An aligned block: where its header says it comes from. *)
Record aligned_at (s : arena) (o z p n : Z) : Prop := {
  al_lo : o + 16 <= p;
  al_hi : p + n <= o + z;
  al_origin : wd (heap s) (p - 16) o;
  al_size : wd (heap s) (p - 8) n;
}.
Definition p2alloc_post (s : arena) (L : gmap Z Z) (n alignment p : Z) (s' : arena) : Prop :=
  (p = 0 ∧ s' = s) ∨
  (∃ o z, p ≠ 0 ∧ p mod alignment = 0 ∧ L !! o = None ∧ holds K s' (<[o := z]> L) ∧ aligned_at s' o z p n ∧ evo (keep L) s s').

(** The two words below the aligned address. *)
Lemma wp_write_header s L o z p n k Q :
  holds K s (<[o := z]> L) → L !! o = None → o mod 8 = 0 → o + 16 <= p → p + n <= o + z → 0 <= n < 2 ^ 64 →
  (∀ s', holds K s' (<[o := z]> L) → aligned_at s' o z p n → evo (keep L) s s' → wp k Q s') →
  wp (wr (field (p - 16) off_original_ptr) o ;;; wr (field (p - 16) off_aligned_size) n ;;; k) (Q : Z → arena → Prop) s.
Proof.
  intros H Hnone Ho8 Hlo Hhi Hn HQ. assert (<[o := z]> L !! o = Some z) as Ho by apply lookup_insert_eq.
  destruct (holds_apart _ _ _ _ _ H Ho) as (A1 & A2 & A3 & _ & Am & _). pose proof (holds_bytes _ _ _ H) as Hb.
  assert (heap_end (ctl s) < 2 ^ 64 ∧ 0 < heap_start (ctl s)) as [He Hs0].
  { by apply (holds_range _ _ _ H). }
  unfold off_original_ptr, off_aligned_size. rewrite !field_in by lia.
  replace (p - 16 + 0) with (p - 16) by lia. replace (p - 16 + 8) with (p - 8) by lia.
  apply wp_bind, wp_wr; [done|intros i Hi; apply Am; lia|lia|]. intros m1 C1 W1. cbn [heap with_heap].
  apply wp_bind, wp_wr; [by apply C1|intros i Hi; apply C1, Am; lia|done|]. intros m2 C2 W2. cbn [heap with_heap].
  change (with_heap m2 (with_heap m1 s)) with (with_heap m2 s). cbn [heap with_heap] in *.
  assert (chg (fun i => p - 16 <= i < p) (heap s) m2) as C.
  { eapply chg_trans; (eapply chg_weaken; [|eassumption]); intros i Hi; cbv beta in *; lia. }
  apply HQ.
  - eapply write_holds; [exact H|exact Ho|]. eapply chg_weaken; [|exact C]. intros i Hi. cbv beta in *. lia.
  - split; [done|done| |exact W2]. eapply wd_chg; [exact C2| |exact W1]. intros i Hi. cbv beta. lia.
  - apply evo_heap. eapply chg_weaken; [|exact C]. intros i Hi q y Hq. cbv beta in Hi.
    assert (<[o := z]> L !! q = Some y) as Hq' by (rewrite lookup_insert_ne; [done|intros ->; by rewrite Hnone in Hq]).
    destruct (holds_apart _ _ _ _ _ H Ho) as (_ & _ & _ & _ & _ & Hap). destruct (Hap q y Hq') as [->|?]; [by rewrite Hnone in Hq|lia].
Qed.

(** The aligned address, 16 bytes or more above [o]. *)
Lemma align_above o alignment : o mod 8 = 0 → 0 <= o → 0 < alignment < 2 ^ 32 → is_pow2 alignment = true →
  o + 16 + alignment < 2 ^ 64 →
  let p := p2align_up (u64 (o + 16)) alignment in
  o + 16 <= p < o + 16 + alignment ∧ p mod alignment = 0 ∧ p mod 8 = 0.
Proof.
  intros Ho Ho0 Ha Hp Hmax. apply is_pow2_spec in Hp; [|lia]. assert (0 <= Z.log2 alignment) as Hl by apply Z.log2_nonneg.
  assert (Z.log2 alignment < 32) as Hl2 by (apply Z.log2_lt_pow2; lia).
  unfold u64. rewrite wrap_small by lia.
  pose proof (align_up_least (o + 16) (Z.log2 alignment) ltac:(lia) ltac:(lia) ltac:(lia)) as [A1 A2].
  rewrite <- Hp in A1, A2. cbv zeta. split; [done|]. split; [done|].
  destruct (decide (3 <= Z.log2 alignment)) as [Hge|Hlt].
  - assert (alignment = 8 * 2 ^ (Z.log2 alignment - 3)) as E.
    { rewrite Hp at 1. change 8 with (2 ^ 3). rewrite <- Z.pow_add_r by lia. f_equal. lia. }
    apply Z.mod_divide; [lia|]. apply Z.mod_divide in A2; [|lia]. etransitivity; [|exact A2].
    exists (2 ^ (Z.log2 alignment - 3)). lia.
  - assert (p2align_up (o + 16) alignment = o + 16) as ->; [|dlia].
    assert (alignment = 1 ∨ alignment = 2 ∨ alignment = 4) as Hcase.
    { assert (Z.log2 alignment = 0 ∨ Z.log2 alignment = 1 ∨ Z.log2 alignment = 2) as [E|[E|E]] by lia;
        rewrite E in Hp; cbn in Hp; lia. }
    destruct Hcase as [-> | [-> | ->]]; dlia.
Qed.

Lemma alloc_p2aligned_holds s L size alignment :
  holds K s L → 0 <= size → 0 < alignment < 2 ^ 32 →
  wp (__tlsf_alloc_p2aligned size alignment) (p2alloc_post s L size alignment) s.
Proof.
  intros H Hs Ha. unfold __tlsf_alloc_p2aligned, TLSF_MAX_ALLOC, TLSF_FL_SHIFT, sizeof_aligned_block, sizeof_tlsf_block, TLSF_BLOCK_MIN.
  destruct (is_pow2 alignment) eqn:Hp2; cbn [negb]; [|by apply wp_ret; left].
  destruct (Z.eqb_spec size 0) as [|Hnz]; [by apply wp_ret; left|].
  destruct (Z.ltb_spec (2 ^ 27) size) as [|Hm1]; [by apply wp_ret; left|]. cbn [orb]. cbv zeta.
  unfold u64 at 1 2. rewrite (wrap_small 64 (size + alignment + 16)) by lia. set (total := size + alignment + 16) in *.
  destruct (Z.ltb_spec (2 ^ 27) total) as [|Hm2]; [by apply wp_ret; left|].
  destruct (block_size_for_spec total ltac:(lia)) as (Hn1 & _).
  apply wp_bind. eapply wp_mono; [apply (alloc_holds K); [exact H|lia]|].
  intros o s1 [[-> ->]|(z & Ho & Hz & Hnone & H1 & E1)]; [by apply wp_ret; left|].
  rewrite (proj2 (Z.eqb_neq o 0)) by done. assert (<[o := z]> L !! o = Some z) as Hoz by apply lookup_insert_eq.
  destruct (holds_apart _ _ _ _ _ H1 Hoz) as (A1 & A2 & A3 & Ho8 & _).
  assert (heap_end (ctl s1) < 2 ^ 64 ∧ 0 < heap_start (ctl s1)) as [He Hs0].
  { by apply (holds_range _ _ _ H1). }
  destruct (align_above o alignment Ho8 ltac:(lia) Ha Hp2 ltac:(lia)) as (P1 & P2 & P8).
  set (p := p2align_up (u64 (o + 16)) alignment) in *.
  assert (u64 (p - 16) = p - 16) as Ehdr by (apply wrap_small; lia). rewrite Ehdr.
  assert (u64 (p - 16 - o) = p - 16 - o) as -> by (apply wrap_small; lia). apply wp_bind.
  destruct (Z.leb_spec (32 + 16) (p - 16 - o)) as [Hpad|Hnopad].
  - set (n := p - 16 - o - 32). assert (16 <= n ∧ n mod 8 = 0 ∧ n + 48 <= z) as (Hn & Hn8 & Hfit) by (unfold n; split_and!; [lia|dlia|lia]).
    destruct (holds_split s1 _ o z n H1 Hoz Hn Hn8 Hfit) as (l1 & d & l2 & Ea & Ez & Hdf & Hwf & Hfl & HL).
    unfold tlsf_ptr_to_block, sizeof_tlsf_block. rewrite <- Ea.
    assert (u64 (addr d) = addr d) as -> by (apply wrap_small; lia).
    assert (u64 (p - 16 - 32) = addr d + 32 + n) as -> by (unfold u64, n; rewrite wrap_small; lia).
    apply wp_bind, pl_get_size; [by eapply wf_here|].
    assert (u64 (addr d + 32 + n - o) = n) as -> by (unfold u64, n; rewrite wrap_small; lia).
    assert (u64 (bsize d - n - 32) = bsize d - n - 32) as -> by (unfold u64; rewrite wrap_small; [done|]; destruct (wf_here _ _ _ _ _ Hwf); lia).
    eapply (wp_split_used s1 l1 d l2 n Hwf Hdf Hn Hn8 ltac:(lia)). intros s2 H2 E2.
    destruct (split_holds s1 l1 d l2 _ n s2 Hwf Hfl Hdf HL Hn ltac:(lia) H2 E2) as (Hrnone & Hh2 & E2').
    replace (addr d + 32) with o in * by lia. set (r := o + n + 32) in *.
    assert (r ≠ o) as Hro by (unfold r; lia).
    apply wp_bind. eapply wp_mono; [eapply (free_holds K s2 _ o n); [exact Hh2|]|].
    { rewrite lookup_insert_ne by done. apply lookup_insert_eq. }
    intros [] s3 [H3 E3]. apply wp_ret. unfold tlsf_block_to_ptr, sizeof_tlsf_block.
    assert (u64 (o + n + 32) = r) as -> by (unfold u64; apply wrap_small; unfold n; lia).
    assert (delete o (<[r := bsize d - n - 32]> (<[o := n]> (<[o := z]> L))) = <[r := bsize d - n - 32]> L) as EL.
    { rewrite delete_insert_ne by done. rewrite !delete_insert_eq, delete_id by done. done. }
    rewrite EL in H3, E3. assert (L !! r = None) as Hrn by (rewrite lookup_insert_ne in Hrnone; done).
    assert (<[r := bsize d - n - 32]> L !! r = Some (bsize d - n - 32)) as Hrz by apply lookup_insert_eq.
    destruct (holds_apart _ _ _ _ _ H3 Hrz) as (_ & _ & _ & Hr8 & _).
    eapply (wp_write_header s3 L r (bsize d - n - 32) p size); [exact H3|done|done|unfold r, n; lia|unfold r, n; lia|lia|].
    intros s4 H4 Hal E4. apply wp_ret. right. exists r, (bsize d - n - 32). split_and!; try done; [lia|].
    eapply evo_trans; [exact E1|]. eapply evo_trans; [|eapply evo_trans; [|exact E4]].
    + eapply evo_weaken; [|exact E2']. intros k. apply keep_sub. intros q y Hq. rewrite delete_insert_eq, delete_id; done.
    + eapply evo_weaken; [|exact E3]. intros k. apply keep_sub. intros q y Hq.
      rewrite lookup_insert_ne; [done|]. intros ->. by rewrite Hrn in Hq.
  - apply wp_ret. eapply (wp_write_header s1 L o z p size); [exact H1|done|done|lia|lia|lia|].
    intros s2 H2 Hal E2. apply wp_ret. right. exists o, z. split_and!; try done; [lia|]. by eapply evo_trans.
Qed.

Lemma free_p2aligned_holds s L o z p n :
  holds K s L → L !! o = Some z → aligned_at s o z p n → 0 <= n →
  wp (__tlsf_free_p2aligned p) (fun _ s' => holds K s' (delete o L) ∧ evo (keep (delete o L)) s s') s.
Proof.
  intros H Ho [A1 A2 A3 A4] Hn. destruct (holds_apart _ _ _ _ _ H Ho) as (B1 & B2 & B3 & _).
  assert (heap_end (ctl s) < 2 ^ 64 ∧ 0 < heap_start (ctl s)) as [He Hs0].
  { by apply (holds_range _ _ _ H). }
  unfold __tlsf_free_p2aligned, sizeof_aligned_block. assert (u64 (p - 16) = p - 16) as -> by (apply wrap_small; lia). cbv zeta.
  apply wp_bind. unfold bad_header. apply wp_bind, wp_outside, wp_ret.
  rewrite (proj2 (Z.ltb_ge _ _)), (proj2 (Z.leb_gt _ _)), (proj2 (Z.leb_gt p _)) by lia. cbn [orb].
  unfold off_original_ptr. rewrite field_in by lia. replace (p - 16 + 0) with (p - 16) by lia.
  apply wp_bind, (wp_rd _ o); [done|]. by apply (free_holds K s L o z).
Qed.

Lemma keep_word L o z s s' a v : evo (keep L) s s' → L !! o = Some z → o <= a → a + 8 <= o + z →
  wd (heap s) a v → wd (heap s') a v.
Proof. intros [Hc _] Ho Ha Hz. apply (wd_chg _ _ _ _ _ Hc). intros k Hk Hkeep. apply (Hkeep o z Ho). lia. Qed.
Lemma aligned_kept L o z s s' p n : evo (keep L) s s' → L !! o = Some z → 0 <= n → aligned_at s o z p n → aligned_at s' o z p n.
Proof.
  intros E Ho Hn [A1 A2 A3 A4]. split; [done|done| |]; eapply keep_word; try done; lia.
Qed.

Definition p2moved (s : arena) (L : gmap Z Z) (o p n size alignment r : Z) (s' : arena) : Prop :=
  ∃ o' z', r ≠ 0 ∧ r mod alignment = 0 ∧ L !! o' = None ∧ holds K s' (<[o' := z']> (delete o L)) ∧
    aligned_at s' o' z' r size ∧ evo (keep (delete o L)) s s' ∧
    ∀ k, 0 <= k < Z.min n size → heap s' !! (r + k) = heap s !! (p + k).

Lemma realloc_p2aligned_holds s L o z p n size alignment :
  holds K s L → L !! o = Some z → aligned_at s o z p n → 0 <= n → 0 < size → 0 < alignment < 2 ^ 32 →
  wp (__tlsf_realloc_p2aligned p size alignment)
    (fun r s' => (r = 0 ∧ s' = s) ∨ p2moved s L o p n size alignment r s') s.
Proof.
  intros H Ho Hal Hn Hs Ha. pose proof Hal as [A1 A2 A3 A4]. destruct (holds_apart _ _ _ _ _ H Ho) as (B1 & B2 & B3 & _ & Bm & _).
  pose proof (holds_range _ _ _ H) as [He Hs0].
  unfold __tlsf_realloc_p2aligned, sizeof_aligned_block. rewrite (proj2 (Z.eqb_neq p 0)), (proj2 (Z.eqb_neq size 0)) by lia.
  assert (u64 (p - 16) = p - 16) as -> by (apply wrap_small; lia). cbv zeta.
  apply wp_bind. unfold bad_header. apply wp_bind, wp_outside, wp_ret.
  rewrite (proj2 (Z.ltb_ge _ _)), (proj2 (Z.leb_gt _ _)), (proj2 (Z.leb_gt p _)) by lia. cbn [orb].
  apply wp_bind. eapply wp_mono; [apply alloc_p2aligned_holds; [exact H|lia|done]|].
  intros r s1 [[-> ->]|(o' & z' & Hr & Hmod & Hnone & H1 & Hal1 & E1)]; [by apply wp_ret; left|].
  rewrite (proj2 (Z.eqb_neq r 0)) by done. assert (o' ≠ o) as Hoo by congruence.
  assert (<[o' := z']> L !! o = Some z) as Ho1 by by rewrite lookup_insert_ne.
  assert (<[o' := z']> L !! o' = Some z') as Ho'1 by apply lookup_insert_eq.
  destruct (holds_apart _ _ _ _ _ H1 Ho1) as (_ & _ & _ & _ & Bm1 & Hap). destruct (Hap o' z' Ho'1) as [|Hfar]; [done|].
  destruct (holds_apart _ _ _ _ _ H1 Ho'1) as (C1 & C2 & _ & _ & Cm1 & _).
  pose proof (aligned_kept _ _ _ _ _ _ _ E1 Ho Hn Hal) as [_ _ A3' A4']. pose proof Hal1 as [R1 R2 R3 R4].
  unfold off_aligned_size. rewrite field_in by lia. replace (p - 16 + 8) with (p - 8) by lia.
  apply wp_bind, (wp_rd _ n); [done|]. cbv zeta.
  assert ((if n <? size then n else size) = Z.min n size) as -> by (destruct (Z.ltb_spec n size); lia).
  set (c := Z.min n size). assert (0 <= c ∧ c <= n ∧ c <= size) as (Hc0 & Hc1 & Hc2) by lia.
  apply wp_bind, wp_copy; [lia|by eapply holds_bytes|intros k Hk; apply Cm1; lia|intros k Hk; apply Bm1; lia|lia|].
  intros m Ch Hcp.
  assert (holds K (with_heap m s1) (<[o' := z']> L)) as H2.
  { eapply write_holds; [exact H1|exact Ho'1|]. eapply chg_weaken; [|exact Ch]. intros k Hk. cbv beta in *. lia. }
  assert (aligned_at (with_heap m s1) o z p n) as Hal2.
  { split; [done|done| |]; (eapply wd_chg; [exact Ch| |eassumption]); intros k Hk; cbv beta; lia. }
  assert (aligned_at (with_heap m s1) o' z' r size) as Hal3.
  { split; [done|done| |]; (eapply wd_chg; [exact Ch| |eassumption]); intros k Hk; cbv beta; lia. }
  apply wp_bind. eapply wp_mono; [apply (free_p2aligned_holds _ _ o z p n H2 Ho1 Hal2 Hn)|].
  intros [] s3 [H3 E3]. apply wp_ret. right. rewrite delete_insert_ne in H3, E3 by done.
  assert (<[o' := z']> (delete o L) !! o' = Some z') as Ho'3 by apply lookup_insert_eq.
  assert (∀ q y, delete o L !! q = Some y → q ≠ o') as Hneq.
  { intros q y [_ Hq]%lookup_delete_Some ->. by rewrite Hnone in Hq. }
  exists o', z'. split_and!; try done.
  - eapply aligned_kept; [exact E3|exact Ho'3|lia|exact Hal3].
  - eapply evo_trans; [|eapply evo_trans]; [eapply evo_weaken; [|exact E1]|apply (evo_heap (keep (delete o L)) s1 m)|eapply evo_weaken; [|exact E3]].
    + intros k. apply keep_sub. intros q y [_ Hq]%lookup_delete_Some. done.
    + eapply chg_weaken; [|exact Ch]. intros k Hk q y Hq. cbv beta in Hk. pose proof (Hneq q y Hq) as Hne.
      apply lookup_delete_Some in Hq as [_ Hq]. destruct (holds_apart _ _ _ _ _ H1 Ho'1) as (_ & _ & _ & _ & _ & Hap').
      destruct (Hap' q y) as [->|?]; [by rewrite lookup_insert_ne|done|lia].
    + intros k. apply keep_sub. intros q y Hq. rewrite lookup_insert_ne; [done|]. intros ->. by apply (Hneq q y).
  - intros k Hk. transitivity (m !! (r + k)).
    + apply (ev_chg _ _ _ E3). intros Hkeep. apply (Hkeep o' z' Ho'3). lia.
    + rewrite Hcp by done. apply (ev_chg _ _ _ E1). intros Hkeep. apply (Hkeep o z Ho). lia.
Qed.
End Aligned.
