(* ===== verification/TlsfClient.v ===== *)
(** * TlsfClient: the allocator under any sequence of calls

    Clients allocate, free and reallocate, with and without alignment, and
    write what they were given; nothing else is assumed of them but that they
    free and write only their own. *)

From S2P Require Import Prelude Std Mem.
From S2P Require Import Tlsf TlsfBlocks TlsfLists TlsfCore TlsfAlloc TlsfMore TlsfLive TlsfAligned.
From Stdlib Require Import ZArith Lia Bool.
From stdpp Require Import base gmap list numbers relations.

Local Open Scope Z_scope.

(** What a client has: a number of bytes, from one pair of routines or the other. *)
Record grant := Grant { g_size : Z; g_aligned : bool }.
Abbreviation grants := (gmap Z grant).

(** A call that returns, with the block it writes if it is a write. *)
Inductive client_step : option Z → arena * grants → arena * grants → Prop :=
  | c_alloc s G n p s' : 0 <= n → __tlsf_alloc n s = Ok (p, s') →
      client_step None (s, G) (s', if p =? 0 then G else <[p := Grant n false]> G)
  | c_free s G p n s' : G !! p = Some (Grant n false) → __tlsf_free p s = Ok (tt, s') →
      client_step None (s, G) (s', delete p G)
  | c_alloc_p2aligned s G n alignment p s' : 0 <= n → 0 < alignment < 2 ^ 32 →
      __tlsf_alloc_p2aligned n alignment s = Ok (p, s') →
      client_step None (s, G) (s', if p =? 0 then G else <[p := Grant n true]> G)
  | c_free_p2aligned s G p n s' : G !! p = Some (Grant n true) → __tlsf_free_p2aligned p s = Ok (tt, s') →
      client_step None (s, G) (s', delete p G)
  | c_realloc_p2aligned s G p n size alignment r s' : G !! p = Some (Grant n true) → 0 < size → 0 < alignment < 2 ^ 32 →
      __tlsf_realloc_p2aligned p size alignment s = Ok (r, s') →
      client_step None (s, G) (s', if r =? 0 then G else <[r := Grant size true]> (delete p G))
  | c_write s G p g m : G !! p = Some g → chg (fun k => p <= k < p + g_size g) (heap s) m →
      client_step (Some p) (s, G) (with_heap m s, G).
Definition any_step (x y : arena * grants) : Prop := ∃ w, client_step w x y.

(** ** The invariant *)

(** The grant at [p] lies in the block at [o]. *)
Definition fits (s : arena) (o z p : Z) (g : grant) : Prop :=
  0 < g_size g ∧ if g_aligned g then aligned_at s o z p (g_size g) else p = o ∧ g_size g <= z.

Section Client.
Context (K : list blk → Prop) `{!policy K}.

(** Each grant has a block of its own, and each block in use a grant. *)
Record assigned (s : arena) (G : grants) (L : gmap Z Z) (O : Z → Z) : Prop := {
  as_grant : ∀ p g, G !! p = Some g → ∃ z, L !! O p = Some z ∧ fits s (O p) z p g;
  as_inj : ∀ p q, is_Some (G !! p) → is_Some (G !! q) → O p = O q → p = q;
  as_onto : ∀ o z, L !! o = Some z → ∃ p, is_Some (G !! p) ∧ O p = o;
}.
Definition serves_clients (s : arena) (G : grants) : Prop := ∃ L O, holds K s L ∧ assigned s G L O.

Lemma fits_inside s o z p g : fits s o z p g → o <= p ∧ p + g_size g <= o + z.
Proof. intros [Hn Hf]. destruct (g_aligned g); [destruct Hf; lia|lia]. Qed.
Lemma fits_kept s s' L o z p g : evo (keep L) s s' → L !! o = Some z → fits s o z p g → fits s' o z p g.
Proof.
  intros E Ho [Hn Hf]. split; [done|]. destruct (g_aligned g); [|done]. by eapply aligned_kept; [exact E|exact Ho|lia|].
Qed.

Section Inv.
Context (s : arena) (G : grants) (L : gmap Z Z) (O : Z → Z) (H : assigned s G L O).

Lemma grant_disjoint p g q h : holds K s L → G !! p = Some g → G !! q = Some h → p = q ∨ p + g_size g <= q ∨ q + g_size h <= p.
Proof using H.
  intros Hh Hp Hq. destruct (as_grant _ _ _ _ H p g Hp) as (z & Lz & Fp). destruct (as_grant _ _ _ _ H q h Hq) as (y & Ly & Fq).
  apply fits_inside in Fp, Fq. destruct (holds_apart K s L (O p) z Hh Lz) as (_ & _ & _ & _ & _ & Hap).
  destruct (Hap (O q) y Ly) as [E|Hfar]; [left|right; lia]. apply (as_inj _ _ _ _ H); [by eexists|by eexists|done].
Qed.
Lemma grant_in_heap p g : holds K s L → G !! p = Some g → heap_start (ctl s) < p ∧ p + g_size g <= heap_end (ctl s) ∧ mapped (heap s) p (p + g_size g).
Proof using H.
  intros Hh Hp. destruct (as_grant _ _ _ _ H p g Hp) as (z & Lz & Fp). apply fits_inside in Fp.
  destruct (holds_apart K s L (O p) z Hh Lz) as (A1 & A2 & _ & _ & Hm & _).
  split; [lia|]. split; [lia|]. intros k Hk. apply Hm. lia.
Qed.

(** A new block serves a new grant. *)
Lemma inv_add s' o z p g : L !! o = None → holds K s' (<[o := z]> L) → evo (keep L) s s' → fits s' o z p g →
  assigned s' (<[p := g]> G) (<[o := z]> L) (fun q => if decide (q = p) then o else O q).
Proof using H.
  intros Hnone Hh E Hf. assert (∀ q h, G !! q = Some h → q ≠ p ∧ O q ≠ o) as Hnew.
  { intros q h Hq. destruct (as_grant _ _ _ _ H q h Hq) as (y & Ly & Fq). split; [|intros <-; congruence]. intros ->.
    assert (O p ≠ o) as Hne by (intros <-; congruence). assert (<[o := z]> L !! O p = Some y) as Ly' by by rewrite lookup_insert_ne.
    destruct (holds_apart K s' _ o z Hh (lookup_insert_eq _ _ _)) as (_ & _ & _ & _ & _ & Hap).
    pose proof (fits_inside _ _ _ _ _ Hf). pose proof (fits_inside _ _ _ _ _ Fq). destruct Hf as [Hn _], Fq as [Hn' _].
    destruct (Hap _ _ Ly') as [|?]; [done|lia]. }
  split.
  - intros q h. rewrite lookup_insert_Some. intros [[<- <-]|[Hne Hq]].
    + rewrite decide_True by done. exists z. split; [apply lookup_insert_eq|done].
    + rewrite decide_False by done. destruct (as_grant _ _ _ _ H q h Hq) as (y & Ly & Fq). exists y.
      split; [rewrite lookup_insert_ne; [done|by destruct (Hnew q h Hq); congruence]|by eapply fits_kept].
  - intros q r. rewrite !lookup_insert_is_Some'. intros Hq Hr.
    destruct (decide (q = p)) as [->|Hq'], (decide (r = p)) as [->|Hr']; try done.
    + intros Eo. destruct Hr as [->|[h Hr]]; [done|]. by destruct (Hnew r h Hr).
    + intros Eo. destruct Hq as [->|[h Hq]]; [done|]. by destruct (Hnew q h Hq).
    + intros Eo. destruct Hq as [->|Hq], Hr as [->|Hr]; try done. by apply (as_inj _ _ _ _ H).
  - intros o' y. rewrite lookup_insert_Some. intros [[<- <-]|[Hne Ho']].
    + exists p. rewrite decide_True by done. split; [|done]. rewrite lookup_insert_eq. by eexists.
    + destruct (as_onto _ _ _ _ H o' y Ho') as (q & [h Hq] & <-). exists q. destruct (Hnew q h Hq) as [Hqp _].
      rewrite decide_False by done. split; [|done]. rewrite lookup_insert_ne by done. by eexists.
Qed.
Lemma inv_remove s' p : is_Some (G !! p) → evo (keep (delete (O p) L)) s s' →
  assigned s' (delete p G) (delete (O p) L) O.
Proof using H.
  intros Hp E.
  assert (∀ q, is_Some (G !! q) → q ≠ p → O q ≠ O p) as Hne by (intros q Hq Hqp Eo; by apply Hqp, (as_inj _ _ _ _ H)).
  split.
  - intros q h [Hqp Hq]%lookup_delete_Some. destruct (as_grant _ _ _ _ H q h Hq) as (y & Ly & Fq).
    assert (delete (O p) L !! O q = Some y) as Ly'.
    { rewrite lookup_delete_ne; [done|]. apply not_eq_sym, Hne; [by eexists|congruence]. }
    exists y. split; [done|]. by eapply fits_kept.
  - intros q r [h [_ Hq]%lookup_delete_Some] [h' [_ Hr]%lookup_delete_Some]. apply (as_inj _ _ _ _ H); by eexists.
  - intros o y [Ho Hy]%lookup_delete_Some. destruct (as_onto _ _ _ _ H o y Hy) as (q & Hq & <-). exists q.
    split; [|done]. rewrite lookup_delete_ne; [done|]. congruence.
Qed.
Lemma inv_write p g m : holds K s L → G !! p = Some g → chg (fun k => p <= k < p + g_size g) (heap s) m →
  holds K (with_heap m s) L ∧ assigned (with_heap m s) G L O.
Proof using H.
  intros Hh Hp Hc. destruct (as_grant _ _ _ _ H p g Hp) as (z & Lz & Fp). pose proof (fits_inside _ _ _ _ _ Fp) as Hin.
  split; [|split; [|apply H..]].
  - eapply write_holds; [exact Hh|exact Lz|]. eapply chg_weaken; [|exact Hc]. intros k Hk. cbv beta in Hk. lia.
  - intros q h Hq. destruct (as_grant _ _ _ _ H q h Hq) as (y & Ly & Fq). exists y. split; [done|].
    destruct Fq as [Hn Fq]. split; [done|]. destruct (g_aligned h) eqn:Ha; [|done].
    assert (∀ k, O q <= k < q → m !! k = heap s !! k) as Hsame.
    { intros k Hk. apply Hc. cbv beta. intros Hk'. destruct (decide (O q = O p)) as [E|Hne].
      - apply (as_inj _ _ _ _ H) in E as ->; [|by eexists..]. lia.
      - destruct (holds_apart K s L (O p) z Hh Lz) as (_ & _ & _ & _ & _ & Hap).
        destruct (Hap (O q) y Ly) as [|?]; [done|]. destruct Fq. lia. }
    destruct Fq as [A1 A2 A3 A4]. split; [done|done| |]; (eapply wd_same; [|eassumption]); intros k Hk; apply Hsame; lia.
Qed.
End Inv.

(** ** Every call keeps it *)

(** Grants that stay keep their bytes, and the heap stays where it is. *)
Definition contents_kept (w : option Z) (s s' : arena) (G G' : grants) : Prop :=
  same_bounds s s' ∧ ∀ p g, G !! p = Some g → G' !! p = Some g → w ≠ Some p →
    ∀ k, p <= k < p + g_size g → heap s' !! k = heap s !! k.

Lemma contents_evo s s' G G' L O (L' : gmap Z Z) : assigned s G L O → evo (keep L') s s' →
  (∀ p, is_Some (G !! p) → is_Some (G' !! p) → L' !! O p = L !! O p) → contents_kept None s s' G G'.
Proof.
  intros H [Hc Hsame] HL. split; [done|]. intros p g Hp Hp' _ k Hk. destruct (as_grant _ _ _ _ H p g Hp) as (z & Lz & Fp).
  apply Hc. intros Hkeep. pose proof (fits_inside _ _ _ _ _ Fp). apply (Hkeep (O p) z); [|lia].
  rewrite HL; [done|by eexists..].
Qed.

Section Steps.
Context (s : arena) (G : grants) (L : gmap Z Z) (O : Z → Z) (Hh : holds K s L) (H : assigned s G L O).

Lemma step_added s' o z p g : L !! o = None → holds K s' (<[o := z]> L) → evo (keep L) s s' → fits s' o z p g →
  serves_clients s' (<[p := g]> G) ∧ contents_kept None s s' G (<[p := g]> G).
Proof using H.
  intros H1 H2 H3 H4. split; [eexists _, _; split; [done|by eapply inv_add]|]. by eapply contents_evo.
Qed.
Lemma step_removed s' p : is_Some (G !! p) → holds K s' (delete (O p) L) → evo (keep (delete (O p) L)) s s' →
  serves_clients s' (delete p G) ∧ contents_kept None s s' G (delete p G).
Proof using H.
  intros Hp Hh' E. split; [eexists _, _; split; [done|by eapply inv_remove]|]. eapply contents_evo; [exact H|exact E|].
  intros q Hq [h [Hpq _]%lookup_delete_Some]. rewrite lookup_delete_ne; [done|]. intros Eo.
  apply Hpq. by apply (as_inj _ _ _ _ H).
Qed.

Lemma alloc_serves n : 0 <= n → wp (__tlsf_alloc n) (fun p s' =>
  let G' := if p =? 0 then G else <[p := Grant n false]> G in serves_clients s' G' ∧ contents_kept None s s' G G') s.
Proof using Hh H policy0.
  intros Hn. destruct (Z.eqb_spec n 0) as [->|Hnz]; [by apply wp_ret; split; [exists L, O; split|]|].
  destruct (Z.ltb_spec (2 ^ 27) n) as [Hmax|Hle].
  { unfold __tlsf_alloc, TLSF_MAX_ALLOC, TLSF_FL_SHIFT. rewrite (proj2 (Z.ltb_lt _ _)), orb_true_r by done.
    by apply wp_ret; split; [exists L, O; split|]. }
  destruct (block_size_for_spec n ltac:(lia)) as ([? _] & _).
  eapply wp_mono; [apply (alloc_holds K); [exact Hh|done]|]. intros p s' [[-> ->]|(z & Hp & Hz & Hnone & Hh' & E)].
  - by split; [exists L, O; split|].
  - rewrite (proj2 (Z.eqb_neq p 0)) by done. eapply step_added; [done..|]. split; cbn; lia.
Qed.
Lemma free_serves p n : G !! p = Some (Grant n false) → wp (__tlsf_free p) (fun _ s' =>
  serves_clients s' (delete p G) ∧ contents_kept None s s' G (delete p G)) s.
Proof using Hh H policy0.
  intros Hp. destruct (as_grant _ _ _ _ H p _ Hp) as (z & Lz & _ & Eo & _).
  eapply wp_mono; [apply (free_holds K s L p z); [exact Hh|by rewrite <- Eo in Lz]|]. intros _ s' [Hh' E].
  rewrite Eo in Hh', E at 1. apply step_removed; [by eexists|done|done].
Qed.
Lemma alloc_p2aligned_serves n alignment : 0 <= n → 0 < alignment < 2 ^ 32 → wp (__tlsf_alloc_p2aligned n alignment) (fun p s' =>
  let G' := if p =? 0 then G else <[p := Grant n true]> G in serves_clients s' G' ∧ contents_kept None s s' G G') s.
Proof using Hh H policy0.
  intros Hn Ha. destruct (Z.eqb_spec n 0) as [->|Hnz].
  { unfold __tlsf_alloc_p2aligned. destruct (is_pow2 alignment); cbn; by apply wp_ret; split; [exists L, O; split|]. }
  eapply wp_mono; [apply (alloc_p2aligned_holds K); [exact Hh|done..]|].
  intros p s' [[-> ->]|(o & z & Hp & _ & Hnone & Hh' & Hal & E)]; [by split; [exists L, O; split|]|].
  rewrite (proj2 (Z.eqb_neq p 0)) by done. eapply step_added; [done..|]. split; [cbn; lia|exact Hal].
Qed.
Lemma grant_aligned p n : G !! p = Some (Grant n true) → ∃ z, L !! O p = Some z ∧ 0 < n ∧ aligned_at s (O p) z p n.
Proof using H. intros Hp. destruct (as_grant _ _ _ _ H p _ Hp) as (z & Lz & Hn & Hal). by exists z. Qed.
Lemma free_p2aligned_serves p n : G !! p = Some (Grant n true) → wp (__tlsf_free_p2aligned p) (fun _ s' =>
  serves_clients s' (delete p G) ∧ contents_kept None s s' G (delete p G)) s.
Proof using Hh H policy0.
  intros Hp. destruct (grant_aligned p n Hp) as (z & Lz & Hn & Hal).
  eapply wp_mono; [apply (free_p2aligned_holds K s L (O p) z p n Hh Lz Hal); lia|]. intros _ s' [Hh' E].
  apply step_removed; [by eexists|done|done].
Qed.
Lemma realloc_p2aligned_serves p n size alignment : G !! p = Some (Grant n true) → 0 < size → 0 < alignment < 2 ^ 32 →
  wp (__tlsf_realloc_p2aligned p size alignment) (fun r s' =>
    let G' := if r =? 0 then G else <[r := Grant size true]> (delete p G) in
    serves_clients s' G' ∧ contents_kept None s s' G G' ∧
    (r = 0 ∧ s' = s ∨ r mod alignment = 0 ∧ ∀ k, 0 <= k < Z.min n size → heap s' !! (r + k) = heap s !! (p + k))) s.
Proof using Hh H policy0.
  intros Hp Hs Ha. destruct (grant_aligned p n Hp) as (z & Lz & Hn & Hal).
  eapply wp_mono; [apply (realloc_p2aligned_holds K s L (O p) z p n); [done..|lia|done|done]|].
  intros r s' [[-> ->]|(o & y & Hr & Hmod & Hnone & Hh' & Hal' & E & Hcp)].
  { split; [by exists L, O; split|]. split; [done|]. by left. }
  rewrite (proj2 (Z.eqb_neq r 0)) by done. cbv zeta.
  assert (assigned s (delete p G) (delete (O p) L) O) as H1 by (eapply (inv_remove s); [done|by eexists|apply evo_refl]).
  assert (delete (O p) L !! o = None) as Hnone' by (rewrite lookup_delete_None; tauto).
  split_and!; [| |by right].
  - eexists _, _. split; [exact Hh'|]. eapply (inv_add s); [exact H1|done..|]. split; [cbn; lia|exact Hal'].
  - split; [apply E|]. intros q g Hq Hq' _ k Hk. destruct (decide (q = p)) as [->|Hne].
    + rewrite lookup_insert_Some, lookup_delete_Some in Hq'. destruct Hq' as [[-> <-]|[_ [? _]]]; [|done].
      rewrite Hq in Hp. injection Hp as <-. cbn in Hk. replace k with (p + (k - p)) by lia. apply Hcp. lia.
    + destruct (as_grant _ _ _ _ H1 q g) as (w & Lw & Fq); [by rewrite lookup_delete_ne|].
      apply (ev_chg _ _ _ E). intros Hkeep. pose proof (fits_inside _ _ _ _ _ Fq). apply (Hkeep (O q) w); [done|lia].
Qed.
End Steps.

(** ** Any sequence of calls *)

(** What a call from [x] that writes at most the grant [w] leads to. *)
Definition kept (w : option Z) (x y : arena * grants) : Prop :=
  serves_clients y.1 y.2 ∧ contents_kept w x.1 y.1 x.2 y.2.
Lemma client_step_kept w x y : serves_clients x.1 x.2 → client_step w x y → kept w x y.
Proof using policy0.
  intros (L & O & Hh & H) Hstep. unfold kept.
  destruct Hstep as [s G n p s' Hn E|s G p n s' Hp E|s G n al p s' Hn Ha E|s G p n s' Hp E|s G p n size al r s' Hp Hs Ha E|s G p g m Hp Hc];
    cbn [fst snd] in *.
  - exact (wp_at _ _ _ _ _ (alloc_serves s G L O Hh H n Hn) E).
  - exact (wp_at _ _ _ _ _ (free_serves s G L O Hh H p n Hp) E).
  - exact (wp_at _ _ _ _ _ (alloc_p2aligned_serves s G L O Hh H n al Hn Ha) E).
  - exact (wp_at _ _ _ _ _ (free_p2aligned_serves s G L O Hh H p n Hp) E).
  - destruct (wp_at _ _ _ _ _ (realloc_p2aligned_serves s G L O Hh H p n size al Hp Hs Ha) E) as (H1 & H2 & _). done.
  - split; [exists L, O; by eapply inv_write|]. split; [done|]. intros q h Hq _ Hne k Hk. apply Hc. cbv beta. intros Hk'.
    destruct (grant_disjoint s G L O H p g q h) as [->|?]; [done..|lia].
Qed.
Lemma reached_serves x y : serves_clients x.1 x.2 → rtc any_step x y → serves_clients y.1 y.2.
Proof using policy0. intros Hx Hr. induction Hr as [|x1 x2 x3 [w Hstep] _ IH]; [done|]. by apply IH, (client_step_kept w x1). Qed.

(** A fresh allocator has given nothing. *)
Lemma fresh_serves s bs : wf s bs [] → K bs → used bs = [] → serves_clients s ∅.
Proof.
  intros H HK Hu. exists ∅, (fun p => p). split.
  - exists bs. split; [done|]. split; [done|]. intros p z. rewrite Hu, lookup_empty, elem_of_nil. done.
  - by split; [intros p g Hp| |]; intros.
Qed.
End Client.
