(* ===== verification/TlsfSpec.v ===== *)
(** * TlsfSpec: what the allocator promises

    The properties of the allocator, from its initialisation on, with a heap
    of one page for the witnesses. *)

From S2P Require Import Prelude Std Mem.
From S2P Require Import Tlsf TlsfBlocks TlsfLists TlsfCore TlsfAlloc TlsfMore TlsfLive TlsfAligned TlsfClient.
From Stdlib Require Import ZArith Lia Bool.
From stdpp Require Import base gmap list numbers relations.

Local Open Scope Z_scope.

(** Memory and a control structure that [__tlsf_init] can start from. *)
Record ready (s : arena) (start size : Z) : Prop := {
  rd_zero : zero_ctl (ctl s);
  rd_bytes : bytes_ok (heap s);
  rd_start : 0 < start;
  rd_top : start + size < 2 ^ 64;
  rd_size : 48 <= size < 2 ^ 32;
  rd_room : tlsf_align_up start + 48 <= start + size;
  rd_end : (start + size) mod 8 = 0;
  rd_mapped : mapped (heap s) (tlsf_align_up start) (start + size);
  rd_clear : ∃ v, wd (heap s) (tlsf_align_up start) v ∧ Z.testbit v 1 = false;
}.
(** An initialised allocator, and what clients made of it. *)
Definition reached (s : arena) (start size : Z) (s' : arena) (G : grants) : Prop :=
  ∃ s1, __tlsf_init start size s = Ok (0, s1) ∧ rtc any_step (s1, ∅) (s', G).

Lemma init_whole s start size : ready s start size → ∃ s1, __tlsf_init start size s = Ok (0, s1) ∧ wf s1 (whole start size) [].
Proof.
  intros [? ? ? ? ? ? ? ? (v & Hv & Hbit)].
  assert (wp (__tlsf_init start size) (fun r s1 => r = 0 ∧ wf s1 (whole start size) []) s) as H by by eapply wp_init.
  apply wp_run in H as (r & s1 & E & -> & H). by exists s1.
Qed.
Lemma whole_exact start size : exact false (whole start size).
Proof. done. Qed.
Lemma whole_bounds s start size : wf s (whole start size) [] →
  heap_start (ctl s) = tlsf_align_up start ∧ heap_end (ctl s) = start + size.
Proof. intros [B H]. destruct (co_phys _ _ _ _ H) as (E & _ & _ & _ & _ & E'). cbn in E, E'. unfold end_of in E'. cbn in E'. lia. Qed.

Lemma reached_bounds x y : serves_clients (exact false) x.1 x.2 → rtc any_step x y → same_bounds x.1 y.1.
Proof.
  intros Hx Hr. induction Hr as [|x1 x2 x3 [w Hstep] _ IH]; [done|].
  destruct (client_step_kept (exact false) w x1 x2 Hx Hstep) as [H2 [[E1 E2] _]]. destruct (IH H2). split; congruence.
Qed.
Lemma reached_state s start size s' G : ready s start size → reached s start size s' G →
  serves_clients (exact false) s' G ∧ heap_start (ctl s') = tlsf_align_up start ∧ heap_end (ctl s') = start + size.
Proof.
  intros Hr (s1 & E & Hsteps). destruct (init_whole s start size Hr) as (s2 & E2 & H).
  rewrite E2 in E. injection E as ->. destruct (whole_bounds _ _ _ H) as [B1 B2].
  assert (serves_clients (exact false) s1 ∅) as H1 by by apply (fresh_serves (exact false) s1 _ H).
  pose proof (reached_bounds (s1, ∅) (s', G) H1 Hsteps) as [E3 E4]. cbn [fst snd] in *.
  split; [exact (reached_serves (exact false) (s1, ∅) (s', G) H1 Hsteps)|]. split; congruence.
Qed.

(** ** The promises *)

(** The grants are apart and in the heap. *)
Definition grants_apart (lo hi : Z) (G : grants) : Prop :=
  (∀ p g, G !! p = Some g → lo < p ∧ p + g_size g <= hi) ∧
  (∀ p g q h, G !! p = Some g → G !! q = Some h → p = q ∨ p + g_size g <= q ∨ q + g_size h <= p).
(** Every call that a client may make returns. *)
Definition calls_return (s : arena) (G : grants) : Prop :=
  (∀ n, 0 <= n → ∃ p s', __tlsf_alloc n s = Ok (p, s')) ∧
  (∀ p n, G !! p = Some (Grant n false) → ∃ s', __tlsf_free p s = Ok (tt, s')) ∧
  (∀ n alignment, 0 <= n → 0 < alignment < 2 ^ 32 → ∃ p s', __tlsf_alloc_p2aligned n alignment s = Ok (p, s')) ∧
  (∀ p n, G !! p = Some (Grant n true) → ∃ s', __tlsf_free_p2aligned p s = Ok (tt, s')) ∧
  (∀ p n size alignment, G !! p = Some (Grant n true) → 0 < size → 0 < alignment < 2 ^ 32 →
     ∃ r s', __tlsf_realloc_p2aligned p size alignment s = Ok (r, s') ∧
       (r = 0 ∧ s' = s ∨ r mod alignment = 0 ∧ ∀ k, 0 <= k < Z.min n size → heap s' !! (r + k) = heap s !! (p + k))).

Lemma serves_apart s G : serves_clients (exact false) s G → grants_apart (heap_start (ctl s)) (heap_end (ctl s)) G.
Proof.
  intros (L & O & Hh & H). split.
  - intros p g Hp. destruct (grant_in_heap (exact false) s G L O H p g Hh Hp) as (? & ? & _). done.
  - intros p g q h. by apply (grant_disjoint (exact false) s G L O).
Qed.
Lemma serves_return s G : serves_clients (exact false) s G → calls_return s G.
Proof.
  intros (L & O & Hh & H). split_and!.
  - intros n Hn. destruct (proj1 (wp_run _ _ _) (alloc_serves _ s G L O Hh H n Hn)) as (p & s' & E & _). by exists p, s'.
  - intros p n Hp. destruct (proj1 (wp_run _ _ _) (free_serves _ s G L O Hh H p n Hp)) as ([] & s' & E & _). by exists s'.
  - intros n al Hn Ha. destruct (proj1 (wp_run _ _ _) (alloc_p2aligned_serves _ s G L O Hh H n al Hn Ha)) as (p & s' & E & _). by exists p, s'.
  - intros p n Hp. destruct (proj1 (wp_run _ _ _) (free_p2aligned_serves _ s G L O Hh H p n Hp)) as ([] & s' & E & _). by exists s'.
  - intros p n size al Hp Hs Ha.
    destruct (proj1 (wp_run _ _ _) (realloc_p2aligned_serves _ s G L O Hh H p n size al Hp Hs Ha)) as (r & s' & E & _ & _ & Hc).
    by exists r, s'.
Qed.

(** C14. Whatever the clients of the heap do, the allocator serves them: after
    [__tlsf_init] on memory that is [ready], and any sequence of
    [__tlsf_alloc], [__tlsf_free], [__tlsf_alloc_p2aligned],
    [__tlsf_free_p2aligned] and [__tlsf_realloc_p2aligned] (with alignments of
    32 bits other than 0, each address given back by its owner and to the
    routine that belongs to it), with any writes of the clients to their own
    memory between the calls, what is handed out lies in the heap and does not
    overlap, every such call returns, and none changes a byte of the memory that
    stays with its owner; an aligned reallocation takes the contents with it.
    [ready]: the control block is zeroed; the heap lies at an address that is
    not 0, is mapped, has room for two headers and a block, is smaller than
    4 GB and ends at a multiple of 8 that is below 2^64; and bit 1 of its first
    word is clear.  The plain [__tlsf_realloc] is not among the calls: when it
    grows a block in place it leaves a flag wrong ([realloc_gives_a_block_twice]). *)
Theorem tlsf_serves_clients s start size :
  ready s start size →
  (∃ s1, __tlsf_init start size s = Ok (0, s1)) ∧
  ∀ s' G, reached s start size s' G →
    grants_apart (tlsf_align_up start) (start + size) G ∧ calls_return s' G ∧
    ∀ w s'' G', client_step w (s', G) (s'', G') → contents_kept w s' s'' G G'.
Proof.
  intros Hr. split; [destruct (init_whole s start size Hr) as (s1 & E & _); by exists s1|]. intros s' G H.
  destruct (reached_state s start size s' G Hr H) as (Hs & <- & <-).
  split_and!; [by apply serves_apart|by apply serves_return|]. intros w s'' G' Hstep.
  by destruct (client_step_kept (exact false) w (s', G) (s'', G') Hs Hstep).
Qed.

(** A request is refused only if it is empty, too large, or if no class of
    larger blocks has one and the first block of its own class is too small;
    nothing changes then.  Otherwise it gets a block of at least its size, what
    is too much of it goes back as a block of its own, and no byte that is in
    use changes. *)
Definition alloc_result (s : arena) (bs : list blk) (size p : Z) (s' : arena) : Prop :=
  let n := block_size_for size in
  (p = 0 ∧ s' = s ∧ (size = 0 ∨ 2 ^ 27 < size ∨ refuses bs n)) ∨
  (∃ l1 b l2 bs', bs = l1 ++ b :: l2 ∧ isfree b = true ∧ n <= bsize b ∧ p = addr b + 32 ∧
     handed n l1 b l2 bs' ∧ wf s' bs' [] ∧ evo (touch (used bs)) s s').
Lemma alloc_results s bs size : wf s bs [] → flags false bs → 0 <= size → wp (__tlsf_alloc size) (alloc_result s bs size) s.
Proof.
  intros H Hfl Hs. eapply wp_alloc; [done..| |].
  - intros Hno. by left.
  - intros s' l1 b l2 bs' E Hf Hn Hh H' Ev. right. by exists l1, b, l2, bs'.
Qed.

(** C17. [__tlsf_alloc] on any well-formed heap decides as [alloc_result] says. *)
Theorem tlsf_alloc_decides s bs size :
  wf s bs [] → flags false bs → 0 <= size →
  ∃ p s', __tlsf_alloc size s = Ok (p, s') ∧ alloc_result s bs size p s'.
Proof. intros H Hfl Hs. by apply wp_run, alloc_results. Qed.

(** The class of a request is not above the class of any block that fits. *)
Lemma bin_of_request y z : 0 <= y <= z → y <= 2 ^ 27 → z < 2 ^ 32 → bin_index (bin_of y) <= bin_index (bin_of z).
Proof.
  intros Hy H27 Hz. destruct (Z.leb_spec z (2 ^ 27)); [by apply bin_of_mono|].
  transitivity (bin_index (bin_of (2 ^ 27))); [apply bin_of_mono; lia|]. rewrite (bin_of_class z) by lia.
  change (bin_index (bin_of (2 ^ 27))) with 864. unfold class_of, bin_index. rewrite (proj2 (Z.ltb_ge z 32)) by lia.
  pose proof (ceil_bounds z ltac:(lia)). assert (27 <= Z.log2 z) by (apply Z.log2_le_pow2; lia). cbv zeta.
  destruct (Z.eqb_spec (ceil_div z (Z.log2 z - 5)) 64); cbn [fst snd];
    match goal with |- context [27 <? ?x] => destruct (Z.ltb_spec 27 x) end; lia.
Qed.

(** One free block serves every request that fits. *)
Lemma whole_serves s start size n : wf s (whole start size) [] → 0 < n <= 2 ^ 27 →
  block_size_for n <= start + size - tlsf_align_up start - 32 → ∃ p s', __tlsf_alloc n s = Ok (p, s') ∧ p ≠ 0.
Proof.
  intros H Hn Hfit. destruct (proj1 (wp_run _ _ _) (alloc_results s _ n H (exact_flags _ _ (whole_exact start size)) ltac:(lia))) as (p & s' & E & HR).
  exists p, s'. split; [done|]. intros ->. destruct (block_size_for_spec n ltac:(lia)) as (? & ? & _). cbv zeta in *.
  assert (∀ b, b ∈ whole start size → placed s b) as Hpl by (intros b; destruct H as [B H]; by apply (core_placed _ _ _ _ _ H)).
  destruct HR as [(_ & _ & [?|[?|Hno]])|(l1 & b & l2 & bs' & Eb & _ & _ & Hp & _)]; [lia..| |].
  - destruct (Hpl (Blk (tlsf_align_up start) (start + size - tlsf_align_up start - 32) true false)) as []; [by left|]. cbn in *.
    destruct (Hno (Blk (tlsf_align_up start) (start + size - tlsf_align_up start - 32) true false)) as (c & Hc & _ & _ & Hlt);
      [by left|done|apply bin_of_request; cbn; lia|]. apply list_elem_of_singleton in Hc as ->. cbn in Hlt. lia.
  - destruct (Hpl b) as []; [rewrite Eb; set_solver|lia].
Qed.

(** Without blocks in use there is one free block. *)
Lemma one_block s start size bs : wf s bs [] → exact false bs → used bs = [] →
  heap_start (ctl s) = tlsf_align_up start → heap_end (ctl s) = start + size → tlsf_align_up start < start + size → bs = whole start size.
Proof.
  intros [B H] Hex Hu Es Ee Hlt. pose proof (co_phys _ _ _ _ H) as Hp. rewrite Es, Ee in Hp.
  assert (∀ b, b ∈ bs → isfree b = true) as Hall.
  { intros b Hb. destruct (isfree b) eqn:Hf; [done|]. assert ((addr b, bsize b) ∈ used bs) as Hin by (apply used_elem; by exists b).
    rewrite Hu in Hin. by apply elem_of_nil in Hin. }
  destruct bs as [|b [|c bs]]; cbn in Hp; [lia| |].
  - destruct Hex as (Hpf & _), Hp as (Ea & _ & _ & _ & _ & Eend). unfold end_of in Eend. unfold whole. f_equal.
    pose proof (Hall b ltac:(by left)) as Hf. destruct b; cbn in *. subst. f_equal. lia.
  - destruct Hex as (_ & _ & _ & Hc & _). rewrite (Hall b), (Hall c) in Hc by set_solver. by specialize (Hc eq_refl).
Qed.

(** C15. Nothing is lost: when the clients of a heap that was [ready] (as for C14,
    and with the calls of C14) have given back all that they were given, in any
    order, the heap is again the one free block that [__tlsf_init] made, and
    serves every request that fits into it and is not above the limit of the
    allocator, [TLSF_MAX_ALLOC] = 2^27 bytes. *)
Theorem tlsf_gives_all_back s start size s' :
  ready s start size → reached s start size s' ∅ →
  tlsf_get_block_size (tlsf_align_up start) s' = Ok (start + size - tlsf_align_up start - 32, s') ∧
  tlsf_block_is_free (tlsf_align_up start) s' = Ok (true, s') ∧
  ∀ n, 0 < n <= 2 ^ 27 → block_size_for n <= start + size - tlsf_align_up start - 32 →
    ∃ p s'', __tlsf_alloc n s' = Ok (p, s'') ∧ p ≠ 0.
Proof.
  intros Hr Hre. pose proof (rd_room _ _ _ Hr). destruct (reached_state s start size s' ∅ Hr Hre) as ((L & O & (bs & Hwf & HK & HL) & HO) & B1 & B2).
  assert (used bs = []) as Hu.
  { apply elem_of_nil_inv. intros [a z] Hin. assert (L !! (a + 32) = Some z) as Hz.
    { apply (HL _ _). by replace (a + 32 - 32) with a by lia. }
    destruct (as_onto _ _ _ _ HO _ _ Hz) as (q & [g Hg] & _). by rewrite lookup_empty in Hg. }
  assert (bs = whole start size) as -> by (by eapply one_block; try done; lia).
  assert (placed s' (Blk (tlsf_align_up start) (start + size - tlsf_align_up start - 32) true false)) as Hpl.
  { destruct Hwf as [B HB]. eapply core_placed; [exact HB|by left]. }
  split_and!.
  - pose proof (pl_get_size s' _ Hpl (fun v t => v = start + size - tlsf_align_up start - 32 ∧ t = s') ltac:(done)) as Hw.
    by apply wp_run in Hw as (v & t & E & -> & ->).
  - pose proof (pl_is_free s' _ Hpl (fun v t => v = true ∧ t = s') ltac:(done)) as Hw.
    by apply wp_run in Hw as (v & t & E & -> & ->).
  - intros n Hn Hfit. by eapply whole_serves.
Qed.

(** C20. The classes: every size below [2 ^ 32] has one, inside the arrays,
    and a block of a class above that of a request that is not too large is
    large enough for it. *)
Theorem tlsf_map_bounds size :
  0 <= size < 2 ^ 32 →
  ∃ fli sli, __tlsf_map size = Ok (fli, sli) ∧ 0 <= fli < TLSF_FL_COUNT ∧ 0 <= sli < TLSF_SL_COUNT ∧
    ∀ block_size fli' sli', 0 <= block_size < 2 ^ 32 → size <= TLSF_MAX_ALLOC →
      __tlsf_map block_size = Ok (fli', sli') → fli < fli' ∨ fli = fli' ∧ sli < sli' → size < block_size.
Proof.
  intros Hs. destruct (bin_of size) as [f c] eqn:E. exists f, c. rewrite map_bin, E by done. destruct (bin_of_is_bin size f c Hs E).
  unfold TLSF_FL_COUNT, TLSF_SL_COUNT. split_and!; try done; try lia. intros y f' c' Hy Hmax. rewrite map_bin by done. intros [= E'] Hlt.
  destruct (bin_of_is_bin y f' c' Hy E'). apply later_bin_fits; [done|unfold TLSF_MAX_ALLOC, TLSF_FL_SHIFT in Hmax; lia|].
  rewrite E, E'. unfold bin_index. cbn [fst snd]. lia.
Qed.

(** C16. [__tlsf_realloc] of a block in use: it returns NULL and changes
    nothing, or the block at the same address has grown or shrunk, or another
    block has the contents and this one is given back; all other blocks keep
    their bytes, and the block itself those that both sizes have.  The one
    case left out is [stale_growth]: the block would swallow its free
    neighbour whole, and leave a stale mark behind it. *)
Theorem tlsf_realloc_keeps_contents s bs L b size :
  wf s bs [] → flags false bs → shows bs L → b ∈ bs → isfree b = false → 0 < size →
  ¬ stale_growth bs b (block_size_for size) →
  ∃ r s', __tlsf_realloc (addr b + 32) size s = Ok (r, s') ∧
    realloc_post (flags false) s L (addr b + 32) (bsize b) (block_size_for size) r s'.
Proof. intros. by apply wp_run, (realloc_holds s bs L b size). Qed.

(** ** One page *)

Definition ex_ctl : tlsf := Tlsf 0 (replicate 28 0) (replicate 28 (replicate 32 0)) 0 0 0.
Definition ex_page : mem := list_to_map (map (fun k => (k, 0)) (seqZ 4096 4096)).
Definition ex_fresh : arena := Arena ex_ctl ex_page.

Lemma ex_page_lookup k : 4096 <= k < 8192 → ex_page !! k = Some 0.
Proof.
  intros Hk. apply elem_of_list_to_map_1.
  - rewrite map_map. cbn [fst]. rewrite map_id. apply NoDup_seqZ.
  - apply list_elem_of_In, in_map_iff. exists k. split; [done|]. apply list_elem_of_In, elem_of_seqZ. lia.
Qed.
Lemma ex_page_bytes : bytes_ok ex_page.
Proof.
  intros k v Hk. apply elem_of_list_to_map_2 in Hk. apply list_elem_of_In, in_map_iff in Hk as (j & [= _ <-] & _). lia.
Qed.
Lemma ex_ready : ready ex_fresh 4096 4096.
Proof.
  assert (tlsf_align_up 4096 = 4096) as E by done. pose proof ex_page_bytes as Hb.
  assert (mapped ex_page 4096 8192) as Hm by (intros k Hk; rewrite ex_page_lookup by done; by eexists).
  split; rewrite ?E; [done|exact Hb|lia..|done|exact Hm|]. exists 0. split; [by vm_compute|done].
Qed.
Lemma ex_init : ∃ s1, __tlsf_init 4096 4096 ex_fresh = Ok (0, s1) ∧ wf s1 [Blk 4096 4064 true false] [].
Proof. exact (init_whole _ _ _ ex_ready). Qed.
(** The page with one block in use. *)
Definition ex_used (n : Z) : list blk := [Blk 4096 n false false; Blk (4128 + n) (4064 - n - 32) true false].
Lemma ex_one n s1 : wf s1 [Blk 4096 4064 true false] [] → 0 < n <= 1024 → block_size_for n = n →
  ∃ s2, __tlsf_alloc n s1 = Ok (4128, s2) ∧ wf s2 (ex_used n) [].
Proof.
  intros H Hn En. destruct (whole_serves s1 4096 4096 n H ltac:(lia) ltac:(change (tlsf_align_up 4096) with 4096; lia)) as (p & s2 & E & Hp).
  destruct (proj1 (wp_run _ _ _) (alloc_results s1 _ n H (exact_flags _ _ (whole_exact 4096 4096)) ltac:(lia))) as (p' & s' & E' & HR).
  rewrite E in E'. injection E' as <- <-. exists s2. rewrite E. unfold alloc_result in HR. rewrite En in HR.
  destruct HR as [[? _]|(l1 & b & l2 & bs' & Eb & _ & _ & -> & Hh & Hwf & _)]; [done|].
  destruct l1 as [|? [|? ?]]; [|done..]. injection Eb as <- <-. split; [done|].
  destruct Hh as [[_ ->]|[Hlt _]]; [|cbn in Hlt; lia]. cbn in Hwf. unfold ex_used, set_free, front, back in *. cbn in *.
  by replace (4128 + n) with (4096 + 32 + n) by lia.
Qed.
Lemma ex_reached_one n : 0 < n <= 1024 → block_size_for n = n →
  ∃ s2, wf s2 (ex_used n) [] ∧ reached ex_fresh 4096 4096 s2 {[4128 := Grant n false]}.
Proof.
  intros Hn En. destruct ex_init as (s1 & E1 & H1). destruct (ex_one n s1 H1 Hn En) as (s2 & E2 & H2).
  exists s2. split; [done|]. exists s1. split; [done|]. apply rtc_once. exists None.
  pose proof (c_alloc s1 ∅ n 4128 s2 ltac:(lia) E2) as Hc. cbn in Hc. by rewrite insert_empty in Hc.
Qed.

Lemma tlsf_serves_clients_witness : ∃ s' G,
  ready ex_fresh 4096 4096 ∧ reached ex_fresh 4096 4096 s' G ∧ G !! 4128 = Some (Grant 104 false) ∧
  grants_apart 4096 8192 G ∧ calls_return s' G.
Proof.
  destruct (ex_reached_one 104 ltac:(lia) ltac:(done)) as (s2 & _ & Hr). exists s2, {[4128 := Grant 104 false]}.
  destruct (tlsf_serves_clients ex_fresh 4096 4096 ex_ready) as [_ H]. destruct (H _ _ Hr) as (H1 & H2 & _).
  split_and!; [exact ex_ready|exact Hr|apply lookup_singleton_eq|exact H1|exact H2].
Defined.

Lemma tlsf_alloc_decides_witness : ∃ s1 p s',
  wf s1 [Blk 4096 4064 true false] [] ∧ __tlsf_alloc 100 s1 = Ok (p, s') ∧ alloc_result s1 [Blk 4096 4064 true false] 100 p s'.
Proof.
  destruct ex_init as (s1 & _ & H1). destruct (tlsf_alloc_decides s1 [Blk 4096 4064 true false] 100 H1) as (p & s' & E & HR);
    [by split|lia|]. by exists s1, p, s'.
Defined.

Lemma tlsf_gives_all_back_witness : ∃ s2 s3,
  __tlsf_free 4128 s2 = Ok (tt, s3) ∧ reached ex_fresh 4096 4096 s2 {[4128 := Grant 104 false]} ∧
  tlsf_get_block_size 4096 s3 = Ok (4064, s3).
Proof.
  destruct (ex_reached_one 104 ltac:(lia) ltac:(done)) as (s2 & _ & Hr).
  destruct (serves_return s2 _ (proj1 (reached_state _ _ _ _ _ ex_ready Hr))) as (_ & Hfree & _).
  destruct (Hfree 4128 104 (lookup_singleton_eq _ _)) as (s3 & E). exists s2, s3. split; [done|]. split; [done|].
  assert (reached ex_fresh 4096 4096 s3 ∅) as Hr3.
  { destruct Hr as (s1 & E1 & Hsteps). exists s1. split; [done|]. eapply rtc_r; [exact Hsteps|]. exists None.
    pose proof (c_free s2 {[4128 := Grant 104 false]} 4128 104 s3 (lookup_singleton_eq _ _) E) as Hc.
    by rewrite delete_singleton_eq in Hc. }
  exact (proj1 (tlsf_gives_all_back ex_fresh 4096 4096 s3 ex_ready Hr3)).
Defined.

Lemma tlsf_map_bounds_witness : 0 <= 100 < 2 ^ 32 ∧ ∃ fli sli, __tlsf_map 100 = Ok (fli, sli) ∧ 0 <= fli < 28 ∧ 0 <= sli < 32.
Proof. split; [lia|]. destruct (tlsf_map_bounds 100 ltac:(lia)) as (f & c & E & Hf & Hc & _). by exists f, c. Defined.

Lemma tlsf_realloc_keeps_contents_witness : ∃ s r s',
  wf s (ex_used 104) [] ∧ __tlsf_realloc 4128 300 s = Ok (r, s') ∧ realloc_post (flags false) s {[4128 := 104]} 4128 104 304 r s'.
Proof.
  destruct (ex_reached_one 104 ltac:(lia) ltac:(done)) as (s2 & H2 & _).
  destruct (tlsf_realloc_keeps_contents s2 (ex_used 104) {[4128 := 104]} (Blk 4096 104 false false) 300) as (r & s' & E & HR).
  - done.
  - by split.
  - intros p z. rewrite lookup_singleton_Some. unfold ex_used, used. cbn. rewrite list_elem_of_singleton. split.
    + by intros [<- <-].
    + intros [= E ->]. split; [lia|done].
  - by left.
  - done.
  - lia.
  - intros (l1 & c & d & l3 & El & _). by destruct l1 as [|? [|? [|? ?]]].
  - by exists s2, r, s'.
Defined.

(** ** A block that is handed out twice *)

(** A block grows into the whole of its free neighbour; the block behind that
    one is freed, and believes that its predecessor is still free. *)
Definition ex_stale : T (Z * Z * Z * Z) :=
  __tlsf_init 4096 4096 ;;;
  first <~ __tlsf_alloc 16 ;; second <~ __tlsf_alloc 64 ;; third <~ __tlsf_alloc 16 ;;
  __tlsf_free second ;;;
  grown <~ __tlsf_realloc first 80 ;;
  __tlsf_free third ;;;
  block <~ __tlsf_alloc 100 ;;
  ret (first, grown, third, block).

(** [__tlsf_realloc] can lead to a block with two owners: a client grows its
    block in place and keeps it, a neighbour gives its own back, and the next
    allocation is given the address of the first client's block. *)
Example realloc_gives_a_block_twice :
  match ex_stale ex_fresh with
  | Ok ((first, grown, third, block), _) => first = 4128 ∧ grown = first ∧ third = 4272 ∧ block = first
  | Fault _ => False
  end.
Proof. by vm_compute. Qed.

(** ** A request that is refused although a larger one is served *)

(** A block of 520 bytes and one of 528 are of the same class; the first block
    of the class decides. *)
Definition ex_miss : T (Z * Z * Z) :=
  __tlsf_init 4096 4096 ;;;
  first <~ __tlsf_alloc 520 ;; __tlsf_alloc 16 ;;;
  __tlsf_free first ;;;
  refused <~ __tlsf_alloc 528 ;; served <~ __tlsf_alloc 536 ;;
  ret (first, refused, served).

(** [__tlsf_alloc] can refuse a request while the heap has a free block that is
    large enough: sizes are rounded up when blocks are put into their lists
    too, so that a list has blocks that are too small for its requests, and the
    search gives up with the first of them.  A larger request, which starts
    from the next list, is served from the same heap. *)
Example alloc_refuses_what_fits :
  match ex_miss ex_fresh with
  | Ok ((first, refused, served), _) => refused = 0 ∧ served ≠ 0 ∧ served ≠ first
  | Fault _ => False
  end.
Proof. by vm_compute. Qed.
