(* ===== verification/Vma.v ===== *)
(** * Vma: the address space of the kernel (vma.h, vma.c, vma_parser.c)

    Code that needs virtual memory registers tables of page directories; at
    the start the parser links them, in the order of the registry, into the
    part of the address space that the boot code left free.  Proved: where
    each directory comes to lie, by the walk of the processor. *)

From S2P Require Import Prelude Std.
From Stdlib Require Import ZArith Lia Bool.
From stdpp Require Import base gmap list numbers option.

Local Open Scope Z_scope.

Definition VMA_PARTITION_ENTRY_COUNT : Z := 512.
Definition PDPT_FREE_START_PML4_IDX : Z := 1.

Record vma_descriptor := VmaDescriptor { addr : Z; size : Z; num_partitions_valid : Z }.
(** [descriptor] is the number of the descriptor that the ticket points to. *)
Record vma_partition_ticket := VmaTicket { table_phys : Z; count : Z; descriptor : Z }.

Record vma := Vma {
  pml4 : list Z;
  intm_tables : list (list Z);
  descriptors : gmap Z vma_descriptor;
  initialized : bool;
}.
Abbreviation V := (M vma).

(** [va_t] *)
Definition va_of (pdpt pml4 sign : Z) : Z :=
  Z.lor (Z.shiftl (Z.land pdpt 511) 30) (Z.lor (Z.shiftl (Z.land pml4 511) 39) (Z.shiftl (Z.land sign 0xffff) 48)).
(** A [pml4e_t] or [pdpte_t] that is present and writable. *)
Definition table_entry (phys12 : Z) : Z := Z.lor 3 (Z.shiftl (Z.land phys12 (2 ^ 39 - 1)) 12).

Definition vma_init : V Z :=
  s <~ mget ;;
  if initialized s then ret (- EALREADY) else
  mmodify (fun s => Vma (pml4 s) (intm_tables s) (descriptors s) true) ;;; ret 0.
Definition is_vma_initialized (s : vma) : bool := initialized s.

Section Parser.
(** The configuration, and where [intm_tables] lies. *)
Context (NUM_PDPTS intm_phys : Z).
Definition MAX_VMA_PARTITIONS : Z := NUM_PDPTS * 512.

Definition vma_fill_descriptor (desc base_idx idx : Z) : V unit :=
  let table_idx := base_idx / 512 in
  let pdpt_idx := base_idx mod 512 in
  let pml4_idx := u32 (table_idx + PDPT_FREE_START_PML4_IDX) in
  let num_partitions := u32 (idx - base_idx) in
  let size := u32 (num_partitions * PAGE_SIZE) in
  let va := va_of pdpt_idx pml4_idx (if 256 <=? pml4_idx then 0xffff else 0) in
  mmodify (fun s => Vma (pml4 s) (intm_tables s)
    (<[desc := VmaDescriptor va size num_partitions]> (descriptors s)) (initialized s)).

Definition set_pml4 (j e : Z) : V unit :=
  s <~ mget ;;
  match pml4 s !! Z.to_nat j with
  | Some _ => mmodify (fun s => Vma (<[Z.to_nat j := e]> (pml4 s)) (intm_tables s) (descriptors s) (initialized s))
  | None => mfault FBounds
  end.
Definition set_pdpte (table_idx pdpt_idx e : Z) : V unit :=
  s <~ mget ;;
  match intm_tables s !! Z.to_nat table_idx ≫= (.!! Z.to_nat pdpt_idx) with
  | Some _ => mmodify (fun s => Vma (pml4 s) (alter <[Z.to_nat pdpt_idx := e]> (Z.to_nat table_idx) (intm_tables s))
      (descriptors s) (initialized s))
  | None => mfault FBounds
  end.

(** [k] directories of a ticket are left, from the [j]-th on.  The result is
    the next free entry and whether the parser returns. *)
Fixpoint link_ticket (k : nat) (j base_idx intm_idx : Z) (ticket : vma_partition_ticket) : V (Z * bool) :=
  match k with
  | O => ret (intm_idx, false)
  | S k =>
      if intm_idx =? MAX_VMA_PARTITIONS then
        (if negb (j =? 0) then vma_fill_descriptor (descriptor ticket) base_idx intm_idx else ret tt) ;;;
        ret (intm_idx, true)
      else
        let table_idx := intm_idx / 512 in
        let pdpt_idx := intm_idx mod 512 in
        set_pdpte table_idx pdpt_idx (table_entry (u64 (table_phys ticket + u32 (j * 4096)) / 2 ^ 12)) ;;;
        link_ticket k (j + 1) base_idx (intm_idx + 1) ticket
  end.
Fixpoint link_tickets (tickets : list vma_partition_ticket) (intm_idx : Z) : V unit :=
  match tickets with
  | [] => ret tt
  | ticket :: tickets =>
      next <~ link_ticket (Z.to_nat (count ticket)) 0 intm_idx intm_idx ticket ;;
      let '(next_idx, returned) := next in
      if returned : bool then ret tt else
      vma_fill_descriptor (descriptor ticket) intm_idx next_idx ;;;
      link_tickets tickets next_idx
  end.

Definition vma_parser_init (tickets : list vma_partition_ticket) : V unit :=
  r <~ vma_init ;;
  if r <? 0 then ret tt else
  mfor (seqZ 0 NUM_PDPTS) (fun i =>
    set_pml4 (u32 (PDPT_FREE_START_PML4_IDX + i)) (table_entry ((intm_phys + i * 4096) / 2 ^ 12))) ;;;
  link_tickets tickets 0.

(** ** The walk of the processor *)

Definition present (e : Z) : bool := Z.testbit e 0.
Definition frame (e : Z) : Z := Z.shiftl (Z.land (Z.shiftr e 12) (2 ^ 39 - 1)) 12.
Definition pml4_index_of (va : Z) : Z := Z.land (Z.shiftr va 39) 511.
Definition pdpt_index_of (va : Z) : Z := Z.land (Z.shiftr va 30) 511.

(** The address of the directory that translates [va]. *)
Definition walk (s : vma) (va : Z) : option Z :=
  e4 ← pml4 s !! Z.to_nat (pml4_index_of va);
  guard (present e4);;
  table ← (if decide (intm_phys <= frame e4) then intm_tables s !! Z.to_nat ((frame e4 - intm_phys) / 4096) else None);
  e3 ← table !! Z.to_nat (pdpt_index_of va);
  guard (present e3);;
  Some (frame e3).
End Parser.

(** ** Addresses and entries *)

Lemma va_of_sum p q s : 0 <= p < 512 → 0 <= q < 512 → 0 <= s < 2 ^ 16 → va_of p q s = p * 2 ^ 30 + (q + s * 512) * 2 ^ 39.
Proof.
  intros Hp Hq Hs. unfold va_of. change 511 with (2 ^ 9 - 1). change 0xffff with (2 ^ 16 - 1).
  rewrite !land_field, !Z.mod_small by lia. rewrite (Z.shiftl_mul_pow2 p), (Z.shiftl_mul_pow2 q) by lia.
  rewrite (lor_add 48) by lia. replace (q * 2 ^ 39 + s * 2 ^ 48) with ((q + s * 512) * 2 ^ 39) by lia.
  rewrite <- (Z.shiftl_mul_pow2 (q + s * 512) 39) by lia. rewrite lor_add by lia. by rewrite Z.shiftl_mul_pow2 by lia.
Qed.

Lemma entry_sum x : table_entry x = 3 + (x mod 2 ^ 39) * 2 ^ 12.
Proof. unfold table_entry. rewrite land_field by lia. by rewrite lor_add by lia. Qed.
Lemma entry_present x : present (table_entry x) = true.
Proof. unfold present, table_entry. by rewrite Z.lor_spec. Qed.
Lemma entry_frame a : 0 <= a < 2 ^ 51 → a mod 4096 = 0 → frame (table_entry (a / 2 ^ 12)) = a.
Proof.
  intros Ha Hm. unfold frame. rewrite entry_sum, land_field, Z.shiftl_mul_pow2, Z.shiftr_div_pow2 by lia.
  rewrite (Z.mod_small (a / 2 ^ 12)) by dlia. dlia.
Qed.

(** The address of the directory [idx] of the free part. *)
Definition dir_va (idx : Z) : Z :=
  let q := idx / 512 + 1 in va_of (idx mod 512) q (if 256 <=? q then 0xffff else 0).
Lemma dir_va_sum idx : 0 <= idx < 511 * 512 →
  dir_va idx = (idx + 512) * 2 ^ 30 + (if 255 * 512 <=? idx then 0xffff * 2 ^ 48 else 0).
Proof.
  intros Hi. unfold dir_va. rewrite va_of_sum; [|dlia|dlia|destruct (256 <=? _); lia].
  destruct (Z.leb_spec 256 (idx / 512 + 1)), (Z.leb_spec (255 * 512) idx); dlia.
Qed.
Lemma dir_va_index idx off : 0 <= idx < 511 * 512 → 0 <= off < 2 ^ 30 →
  pml4_index_of (dir_va idx + off) = idx / 512 + 1 ∧ pdpt_index_of (dir_va idx + off) = idx mod 512.
Proof.
  intros Hi Ho. rewrite dir_va_sum by done. unfold pml4_index_of, pdpt_index_of. change 511 with (2 ^ 9 - 1).
  rewrite !land_field, !Z.shiftr_div_pow2 by lia. destruct (Z.leb_spec (255 * 512) idx); split; dlia.
Qed.
(** Directories in the same half of the address space are next to each other. *)
Lemma dir_va_next idx j : 0 <= idx → 0 <= j → idx + j < 511 * 512 → (idx < 255 * 512 → idx + j < 255 * 512) →
  dir_va (idx + j) = dir_va idx + j * 2 ^ 30.
Proof. intros. rewrite !dir_va_sum by lia. destruct (Z.leb_spec (255 * 512) idx), (Z.leb_spec (255 * 512) (idx + j)); lia. Qed.

(** ** The tables *)

Section Layout.
Context (NUM_PDPTS intm_phys : Z) (Hnum : 0 < NUM_PDPTS < 512).
Local Abbreviation MAX := (MAX_VMA_PARTITIONS NUM_PDPTS).

Definition entry (s : vma) (i : Z) : option Z := intm_tables s !! Z.to_nat (i / 512) ≫= (.!! Z.to_nat (i mod 512)).
(** [D]: the directories that are linked, in their order. *)
Definition lay (s : vma) (D : list Z) : Prop :=
  ∀ i, 0 <= i < MAX → entry s i = Some (match D !! Z.to_nat i with Some pd => table_entry (pd / 2 ^ 12) | None => 0 end).
(** What linking leaves alone. *)
Definition around (s s' : vma) : Prop := pml4 s' = pml4 s ∧ initialized s' = initialized s.

Lemma wp_set_pdpte s D pd Q :
  let i := Z.of_nat (length D) in i < MAX → lay s D →
  (∀ s', lay s' (D ++ [pd]) → around s s' → descriptors s' = descriptors s → Q tt s') →
  wp (set_pdpte (i / 512) (i mod 512) (table_entry (pd / 2 ^ 12))) Q s.
Proof.
  intros i Hi Hl HQ. pose proof (Hl i ltac:(lia)) as Ei. unfold entry in Ei. unfold set_pdpte, wp, bind, mget.
  rewrite Ei. unfold mmodify. apply HQ; [|done..]. intros k Hk. unfold entry. cbn [intm_tables].
  destruct (decide (k = i)) as [->|Hne].
  - rewrite list_lookup_alter_eq. destruct (intm_tables s !! Z.to_nat (i / 512)) as [row|] eqn:Er; [|done]. cbn [fmap option_fmap option_map mbind option_bind] in *.
    rewrite list_lookup_insert_eq by (by eapply lookup_lt_Some). unfold i. by rewrite Nat2Z.id, lookup_app_r, Nat.sub_diag by lia.
  - pose proof (Hl k Hk) as Ek. unfold entry in Ek.
    assert ((D ++ [pd]) !! Z.to_nat k = D !! Z.to_nat k) as ->.
    { destruct (decide (k < i)); [by rewrite lookup_app_l by lia|].
      rewrite !lookup_ge_None_2; [done|lia|rewrite length_app; cbn; lia]. }
    rewrite <- Ek. destruct (decide (k / 512 = i / 512)) as [E|E].
    + rewrite E, list_lookup_alter_eq. destruct (intm_tables s !! Z.to_nat (i / 512)) as [row|]; [|done]. cbn [fmap option_fmap option_map mbind option_bind].
      apply list_lookup_insert_ne. intros E'. apply Hne. apply Z2Nat.inj in E'; dlia.
    + rewrite list_lookup_alter_ne; [done|]. intros E'. apply E. apply Z2Nat.inj in E'; dlia.
Qed.

Definition filled (base n : Z) : vma_descriptor := VmaDescriptor (dir_va base) (u32 (n * PAGE_SIZE)) n.
Lemma wp_fill d base n s Q : 0 <= base → 0 <= n → base + n <= MAX →
  (∀ s', s' = Vma (pml4 s) (intm_tables s) (<[d := filled base n]> (descriptors s)) (initialized s) → Q tt s') →
  wp (vma_fill_descriptor d base (base + n)) Q s.
Proof using Hnum.
  intros Hb Hn Hm HQ. unfold MAX_VMA_PARTITIONS in Hm. apply HQ. unfold vma_fill_descriptor.
  assert (u32 (base / 512 + PDPT_FREE_START_PML4_IDX) = base / 512 + 1) as -> by (unfold PDPT_FREE_START_PML4_IDX; apply wrap_small; dlia).
  assert (u32 (base + n - base) = n) as -> by (unfold u32; rewrite wrap_small; lia). done.
Qed.

(** The directories of a ticket. *)
Definition dirs (t : vma_partition_ticket) (j n : Z) : list Z := map (fun i => table_phys t + i * 4096) (seqZ j n).
Lemma dirs_cons t j n : 0 < n → dirs t j n = (table_phys t + j * 4096) :: dirs t (j + 1) (n - 1).
Proof. intros Hn. unfold dirs. by rewrite seqZ_cons. Qed.
Lemma dirs_nil t j : dirs t j 0 = [].
Proof. done. Qed.

(** Tables are aligned and lie in the physical address space. *)
Definition ticket_ok (t : vma_partition_ticket) : Prop :=
  0 <= count t < 2 ^ 32 ∧ 0 <= table_phys t < 2 ^ 50 ∧ table_phys t mod 4096 = 0.

Definition described (t : vma_partition_ticket) (base n : Z) (s s' : vma) : Prop :=
  descriptors s' = <[descriptor t := filled base n]> (descriptors s).

Lemma wp_link t (Ht : ticket_ok t) k : ∀ j base D s Q,
  0 <= j → 0 <= base → Z.of_nat (length D) = base + j → base + j <= MAX → lay s D →
  let n := Z.min (Z.of_nat k) (MAX - (base + j)) in
  (∀ s', lay s' (D ++ dirs t j n) → around s s' →
     (n < Z.of_nat k ∧ 0 < j + n → described t base (j + n) s s') →
     (¬ (n < Z.of_nat k ∧ 0 < j + n) → descriptors s' = descriptors s) →
     Q (base + j + n, bool_decide (n < Z.of_nat k)) s') →
  wp (link_ticket NUM_PDPTS k j base (base + j) t) Q s.
Proof using Hnum.
  induction k as [|k IH]; intros j base D s Q Hj Hb HD Hm Hl n HQ; cbn [link_ticket].
  - apply wp_ret. assert (n = 0) as E by lia. specialize (HQ s). rewrite E, !Z.add_0_r in HQ.
    apply HQ; [by rewrite dirs_nil, app_nil_r|done|lia|done].
  - destruct (Z.eqb_spec (base + j) MAX) as [Efull|Hroom].
    + assert (n = 0) as E by lia. rewrite E, dirs_nil, app_nil_r, bool_decide_true in HQ by lia.
      rewrite (Z.add_0_r (base + j)), (Z.add_0_r j) in HQ. apply wp_bind. destruct (Z.eqb_spec j 0) as [->|Hne]; cbn [negb].
      * apply wp_ret, wp_ret. apply HQ; [done|done|lia|done].
      * apply wp_fill; [done|lia|lia|]. intros s' ->. apply wp_ret.
        apply HQ; [done|done|done|lia].
    + assert (u64 (table_phys t + u32 (j * 4096)) = table_phys t + j * 4096) as ->.
      { unfold MAX_VMA_PARTITIONS in *. destruct Ht as (_ & ? & _). unfold u32, u64. rewrite (wrap_small 32), wrap_small; lia. }
      apply wp_bind. rewrite <- HD. apply wp_set_pdpte; [lia|done|]. intros s1 H1 A1 D1.
      replace (Z.of_nat (length D) + 1) with (base + (j + 1)) by lia.
      eapply (IH (j + 1) base (D ++ [table_phys t + j * 4096])); [lia|done|rewrite length_app, Nat2Z.inj_add; cbn [length]; lia|lia|done|]. cbv zeta.
      assert (Z.min (Z.of_nat k) (MAX - (base + (j + 1))) = n - 1) as -> by lia.
      intros s' H' A' D' D''. replace (base + (j + 1) + (n - 1)) with (base + j + n) by lia. replace (j + 1 + (n - 1)) with (j + n) in D' by lia.
      assert (bool_decide (n - 1 < Z.of_nat k) = bool_decide (n < Z.of_nat (S k))) as -> by (apply bool_decide_ext; lia).
      apply HQ.
      * rewrite (dirs_cons t j n) by lia. by rewrite <- app_assoc in H'.
      * destruct A1, A'. split; congruence.
      * intros ?. unfold described in *. rewrite D1 in D'. apply D'. lia.
      * intros ?. rewrite D'' by lia. done.
Qed.

(** ** The registry *)

(** The tickets that get room from [base] on, with their first directory and
    the number of their directories. *)
Fixpoint placing (tickets : list vma_partition_ticket) (base : Z) : list (vma_partition_ticket * Z * Z) :=
  match tickets with
  | [] => []
  | t :: tickets =>
      let n := Z.min (count t) (MAX - base) in
      if decide (n < count t) then if decide (0 < n) then [(t, base, n)] else []
      else (t, base, n) :: placing tickets (base + n)
  end.
Definition place_dirs (p : vma_partition_ticket * Z * Z) : list Z := dirs p.1.1 0 p.2.
Definition place_desc (m : gmap Z vma_descriptor) (p : vma_partition_ticket * Z * Z) : gmap Z vma_descriptor :=
  <[descriptor p.1.1 := filled p.1.2 p.2]> m.

Lemma length_dirs t j n : 0 <= n → Z.of_nat (length (dirs t j n)) = n.
Proof. intros Hn. unfold dirs. rewrite length_map, length_seqZ. lia. Qed.

Lemma wp_tickets ts : Forall ticket_ok ts → ∀ base D s Q,
  0 <= base <= MAX → Z.of_nat (length D) = base → lay s D →
  (∀ s', lay s' (D ++ concat (map place_dirs (placing ts base))) → around s s' →
     descriptors s' = foldl place_desc (descriptors s) (placing ts base) → Q tt s') →
  wp (link_tickets NUM_PDPTS ts base) Q s.
Proof using Hnum.
  induction 1 as [|t ts Ht _ IH]; intros base D s Q Hb HD Hl HQ; cbn [link_tickets placing] in *.
  - apply wp_ret, HQ; [by rewrite app_nil_r|done..].
  - set (n := Z.min (count t) (MAX - base)) in *. pose proof Ht as [Hc _].
    assert (Z.of_nat (Z.to_nat (count t)) = count t) as Ec by lia.
    apply wp_bind. pose proof (wp_link t Ht (Z.to_nat (count t)) 0 base D s) as Hw. rewrite Ec, Z.add_0_r in Hw.
    eapply Hw; [lia|lia|lia|lia|exact Hl|]. fold n. clear Hw.
    intros s1 H1 A1 D1 D1'. rewrite Z.add_0_l in D1, D1'. cbv beta iota. destruct (decide (n < count t)) as [Hfew|Hall].
    + rewrite bool_decide_true by done. apply wp_ret, HQ; [|done|].
      * destruct (decide (0 < n)); cbn; [by rewrite app_nil_r|]. assert (n = 0) as E by lia. by rewrite E, dirs_nil in H1.
      * destruct (decide (0 < n)); cbn; [by apply D1|apply D1'; lia].
    + rewrite bool_decide_false by done. apply wp_bind, wp_fill; [lia|lia|lia|]. intros s2 ->.
      eapply (IH _ (D ++ dirs t 0 n)); [lia|rewrite length_app, Nat2Z.inj_add, length_dirs by lia; lia|exact H1|].
      intros s3 H3 A3 D3. apply HQ; [|destruct A1, A3; split; cbn in *; congruence|].
      * cbn. by rewrite app_assoc.
      * cbn in D3 |- *. rewrite D3, D1' by lia. done.
Qed.

(** A directory of a ticket that has room. *)
Lemma placing_dir ts base t b n j : Forall ticket_ok ts → 0 <= base <= MAX → (t, b, n) ∈ placing ts base → 0 <= j < n →
  base <= b ∧ b + n <= MAX ∧ t ∈ ts ∧
  concat (map place_dirs (placing ts base)) !! Z.to_nat (b - base + j) = Some (table_phys t + j * 4096).
Proof.
  intros Hok. revert base. induction Hok as [|t' ts [Hc _] _ IH]; intros base Hb Hin Hj; [by apply elem_of_nil in Hin|].
  cbn [placing] in *. set (m := Z.min (count t') (MAX - base)) in *.
  assert (∀ l, 0 <= j < m → (dirs t' 0 m ++ l) !! Z.to_nat (base - base + j) = Some (table_phys t' + j * 4096)) as Hhere.
  { intros l Hjm. replace (base - base + j) with j by lia.
    rewrite lookup_app_l by (pose proof (length_dirs t' 0 m ltac:(lia)); lia). unfold dirs. rewrite list_lookup_fmap.
    rewrite lookup_seqZ_lt by lia. cbn. do 2 f_equal. lia. }
  destruct (decide (m < count t')) as [Hfew|Hall].
  - destruct (decide (0 < m)); [|by apply elem_of_nil in Hin]. apply list_elem_of_singleton in Hin as [= -> -> ->].
    split_and!; [lia|lia|by left|]. by apply Hhere.
  - apply elem_of_cons in Hin as [[= -> -> ->]|Hin].
    + split_and!; [lia|lia|by left|]. cbn [map concat]. by apply Hhere.
    + destruct (IH (base + m) ltac:(lia) Hin Hj) as (? & ? & ? & E). split_and!; [lia|done|by right|].
      cbn [map concat]. unfold place_dirs at 1. cbn [fst snd].
      rewrite lookup_app_r by (pose proof (length_dirs t' 0 m ltac:(lia)); lia). rewrite <- E. f_equal.
      pose proof (length_dirs t' 0 m ltac:(lia)). lia.
Qed.

(** ** The upper tables *)

Definition upper (s : vma) (k : Z) : Prop :=
  ∀ i, 0 <= i < k → pml4 s !! Z.to_nat (i + 1) = Some (table_entry ((intm_phys + i * 4096) / 2 ^ 12)).
Lemma wp_upper k : ∀ i s Q, 0 <= i → i + Z.of_nat k = NUM_PDPTS → length (pml4 s) = 512%nat → upper s i →
  (∀ s', upper s' NUM_PDPTS → intm_tables s' = intm_tables s → descriptors s' = descriptors s → Q tt s') →
  wp (mfor (seqZ i (Z.of_nat k)) (fun i => set_pml4 (u32 (PDPT_FREE_START_PML4_IDX + i)) (table_entry ((intm_phys + i * 4096) / 2 ^ 12)))) Q s.
Proof using Hnum.
  induction k as [|k IH]; intros i s Q Hi Hk Hlen Hup HQ.
  - apply wp_ret, HQ; [|done..]. by replace NUM_PDPTS with i by lia.
  - rewrite seqZ_cons by lia. replace (Z.pred (Z.of_nat (S k))) with (Z.of_nat k) by lia. cbn [mfor]. apply wp_bind.
    assert (u32 (PDPT_FREE_START_PML4_IDX + i) = i + 1) as -> by (unfold u32, PDPT_FREE_START_PML4_IDX; rewrite wrap_small; lia).
    unfold set_pml4, wp at 1, bind at 1, mget. assert (Z.to_nat (i + 1) < length (pml4 s))%nat as Hlt by lia.
    destruct (lookup_lt_is_Some_2 _ _ Hlt) as [e E]. rewrite E. unfold mmodify.
    apply IH; [lia|lia|cbn; by rewrite length_insert| |done].
    intros l Hl. cbn [pml4]. destruct (decide (l = i)) as [->|Hne]; [by rewrite list_lookup_insert_eq|].
    rewrite list_lookup_insert_ne by lia. apply Hup. lia.
Qed.
End Layout.

Section Walk.
Context (NUM_PDPTS intm_phys : Z) (Hnum : 0 < NUM_PDPTS < 512).
Context (Hintm : 0 <= intm_phys) (Htop : intm_phys + NUM_PDPTS * 4096 <= 2 ^ 51) (Hal : intm_phys mod 4096 = 0).
Local Abbreviation MAX := (MAX_VMA_PARTITIONS NUM_PDPTS).

(** Tables that are linked, and what the walk finds in them. *)
Definition linked (s : vma) (D : list Z) : Prop := lay NUM_PDPTS s D ∧ upper intm_phys s NUM_PDPTS.
Lemma walk_entry s D idx off : linked s D → 0 <= idx < MAX → 0 <= off < 2 ^ 30 →
  walk intm_phys s (dir_va idx + off) = e3 ← entry s idx; guard (present e3);; Some (frame e3).
Proof using All.
  intros [Hl Hu] Hi Ho. unfold MAX_VMA_PARTITIONS in Hi. unfold walk.
  destruct (dir_va_index idx off ltac:(lia) Ho) as [-> ->].
  rewrite (Hu (idx / 512)) by dlia. cbn [mbind option_bind]. rewrite entry_present, entry_frame by dlia. cbn [guard].
  rewrite decide_True by dlia. replace ((intm_phys + idx / 512 * 4096 - intm_phys) / 4096) with (idx / 512) by dlia.
  unfold entry. case_guard; [|done]. cbn [mbind option_bind]. by destruct (intm_tables s !! Z.to_nat (idx / 512)).
Qed.
Lemma walk_linked s D idx off pd : linked s D → 0 <= idx < MAX → 0 <= off < 2 ^ 30 →
  D !! Z.to_nat idx = Some pd → 0 <= pd < 2 ^ 51 → pd mod 4096 = 0 → walk intm_phys s (dir_va idx + off) = Some pd.
Proof using All.
  intros H Hi Ho HD Hpd Hm. rewrite (walk_entry s D) by done. destruct H as [Hl _]. rewrite (Hl idx Hi), HD.
  cbn [mbind option_bind]. rewrite entry_present, entry_frame by done. by case_guard.
Qed.
Lemma walk_unlinked s D idx off : linked s D → 0 <= idx < MAX → 0 <= off < 2 ^ 30 →
  Z.of_nat (length D) <= idx → walk intm_phys s (dir_va idx + off) = None.
Proof using All.
  intros H Hi Ho HD. rewrite (walk_entry s D) by done. destruct H as [Hl _]. rewrite (Hl idx Hi), lookup_ge_None_2 by lia.
  done.
Qed.
End Walk.

(** The state at the start: nothing is linked. *)
Definition unparsed (NUM_PDPTS : Z) (s : vma) : Prop :=
  initialized s = false ∧ length (pml4 s) = 512%nat ∧ intm_tables s = replicate (Z.to_nat NUM_PDPTS) (replicate 512 0).
(** Where the tables of the parser may lie. *)
Definition intm_ok (NUM_PDPTS intm_phys : Z) : Prop :=
  0 < NUM_PDPTS < 512 ∧ 0 <= intm_phys ∧ intm_phys + NUM_PDPTS * 4096 <= 2 ^ 51 ∧ intm_phys mod 4096 = 0.

Lemma unparsed_lay NUM_PDPTS s : 0 < NUM_PDPTS < 512 → unparsed NUM_PDPTS s → lay NUM_PDPTS s [].
Proof.
  intros Hn (_ & _ & Ht) i Hi. unfold MAX_VMA_PARTITIONS in Hi. unfold entry. rewrite Ht, lookup_nil, lookup_replicate_2 by dlia.
  cbn [mbind option_bind]. by rewrite lookup_replicate_2 by dlia.
Qed.
Lemma wp_parser NUM_PDPTS intm_phys ts s Q : intm_ok NUM_PDPTS intm_phys → unparsed NUM_PDPTS s → Forall ticket_ok ts →
  (∀ s', linked NUM_PDPTS intm_phys s' (concat (map place_dirs (placing NUM_PDPTS ts 0))) →
     descriptors s' = foldl place_desc (descriptors s) (placing NUM_PDPTS ts 0) → Q tt s') →
  wp (vma_parser_init NUM_PDPTS intm_phys ts) Q s.
Proof.
  intros (Hn & _) Hs Hts HQ. pose proof (unparsed_lay _ _ Hn Hs) as Hl. destruct Hs as (Hi & Hlen & Ht).
  unfold vma_parser_init, vma_init. apply wp_bind. unfold wp at 1, bind at 1, mget. rewrite Hi. cbn.
  set (s0 := Vma _ _ _ true). apply wp_bind.
  pose proof (wp_upper NUM_PDPTS intm_phys Hn (Z.to_nat NUM_PDPTS) 0 s0) as Hw. rewrite Z2Nat.id in Hw by lia.
  apply Hw; [lia|lia|done|intros ? ?; lia|]. intros s1 Hu E1 D1.
  eapply (wp_tickets NUM_PDPTS Hn ts Hts 0 []); [unfold MAX_VMA_PARTITIONS; lia|done|intros i Hi'; unfold entry; rewrite E1; by apply Hl|].
  intros s' H' [A' _] D'. apply HQ; [|by rewrite D', D1]. split; [exact H'|]. unfold upper. by rewrite A'.
Qed.

(** Later tickets do not touch the descriptors of earlier ones. *)
Lemma descs_other m l d : Forall (fun p => descriptor p.1.1 ≠ d) l → foldl place_desc m l !! d = m !! d.
Proof.
  intros H. revert m. induction H as [|p l Hp _ IH]; intros m; [done|]. cbn. rewrite IH. unfold place_desc.
  by rewrite lookup_insert_ne.
Qed.
Lemma placing_sub NUM_PDPTS ts base p : p ∈ placing NUM_PDPTS ts base → p.1.1 ∈ ts.
Proof.
  revert base. induction ts as [|t ts IH]; intros base; cbn; [by intros ?%elem_of_nil|]. repeat case_decide.
  - intros ->%list_elem_of_singleton. by left.
  - by intros ?%elem_of_nil.
  - intros [->|Hin%IH]%elem_of_cons; [by left|by right].
Qed.
Lemma placing_desc NUM_PDPTS ts m base t b n : NoDup (map descriptor ts) → (t, b, n) ∈ placing NUM_PDPTS ts base →
  foldl place_desc m (placing NUM_PDPTS ts base) !! descriptor t = Some (filled b n).
Proof.
  revert m base. induction ts as [|t' ts IH]; intros m base Hnd; cbn; [by intros ?%elem_of_nil|].
  apply list.NoDup_cons in Hnd as [Hnew Hnd]. repeat case_decide.
  - intros [= -> -> ->]%list_elem_of_singleton. cbn. unfold place_desc. apply lookup_insert_eq.
  - by intros ?%elem_of_nil.
  - intros [[= -> -> ->]|Hin]%elem_of_cons; cbn; [|by apply IH]. rewrite descs_other; [apply lookup_insert_eq|].
    apply list.Forall_forall. intros p Hp E. apply Hnew. rewrite <- E. apply list_elem_of_fmap_2. by apply placing_sub in Hp.
Qed.

Lemma placing_lower NUM_PDPTS ts base t b n : Forall ticket_ok ts → base <= MAX_VMA_PARTITIONS NUM_PDPTS →
  (t, b, n) ∈ placing NUM_PDPTS ts base → base <= b ∧ 0 <= n ∧ t ∈ ts.
Proof.
  intros Hok. revert base. induction Hok as [|t' ts [Hc _] _ IH]; intros base Hb; cbn; [by intros ?%elem_of_nil|]. repeat case_decide.
  - intros [= -> -> ->]%list_elem_of_singleton. split_and!; [lia|lia|by left].
  - by intros ?%elem_of_nil.
  - intros [[= -> -> ->]|Hin]%elem_of_cons; [split_and!; [lia|lia|by left]|].
    apply IH in Hin as (? & ? & ?); [|lia]. split_and!; [lia|done|by right].
Qed.
(** Tickets do not share directories. *)
Lemma placing_apart NUM_PDPTS ts base t b n t' b' n' : Forall ticket_ok ts → base <= MAX_VMA_PARTITIONS NUM_PDPTS →
  (t, b, n) ∈ placing NUM_PDPTS ts base → (t', b', n') ∈ placing NUM_PDPTS ts base → t = t' ∨ b + n <= b' ∨ b' + n' <= b.
Proof.
  intros Hok. revert base. induction Hok as [|t0 ts [Hc ?] Hok IH]; intros base Hb; cbn; [by intros ?%elem_of_nil|]. repeat case_decide.
  - intros [= -> -> ->]%list_elem_of_singleton [= -> -> ->]%list_elem_of_singleton. by left.
  - by intros ?%elem_of_nil.
  - intros [[= -> -> ->]|H1]%elem_of_cons [[= -> -> ->]|H2]%elem_of_cons.
    + by left.
    + apply placing_lower in H2 as (? & ? & _); [right; left; lia|done|lia].
    + apply placing_lower in H1 as (? & ? & _); [right; right; lia|done|lia].
    + by apply (IH (base + Z.min (count t0) (MAX_VMA_PARTITIONS NUM_PDPTS - base))); [lia|..].
Qed.

Lemma parser_places NUM_PDPTS intm_phys ts s :
  intm_ok NUM_PDPTS intm_phys → unparsed NUM_PDPTS s → Forall ticket_ok ts → NoDup (map descriptor ts) →
  ∃ s', vma_parser_init NUM_PDPTS intm_phys ts s = Ok (tt, s') ∧
    (∀ t base n, (t, base, n) ∈ placing NUM_PDPTS ts 0 →
      descriptors s' !! descriptor t = Some (filled base n) ∧
      ∀ j off, 0 <= j < n → 0 <= off < 2 ^ 30 → 0 <= base ∧ base + j < NUM_PDPTS * 512 ∧
        walk intm_phys s' (dir_va (base + j) + off) = Some (table_phys t + j * 4096)) ∧
    ∀ idx off, Z.of_nat (length (concat (map place_dirs (placing NUM_PDPTS ts 0)))) <= idx < NUM_PDPTS * 512 → 0 <= off < 2 ^ 30 →
      walk intm_phys s' (dir_va idx + off) = None.
Proof.
  intros Hintm Hs Hts Hnd.
  assert (wp (vma_parser_init NUM_PDPTS intm_phys ts) (fun _ s' =>
    linked NUM_PDPTS intm_phys s' (concat (map place_dirs (placing NUM_PDPTS ts 0))) ∧
    descriptors s' = foldl place_desc (descriptors s) (placing NUM_PDPTS ts 0)) s) as Hw by by apply wp_parser.
  apply wp_run in Hw as ([] & s' & E & Hl & HD). exists s'. split; [done|].
  destruct Hintm as (Hn & H0 & Htop & Hal). split.
  2:{ intros idx off [Hlo Hhi] Ho. eapply (walk_unlinked NUM_PDPTS intm_phys Hn H0 Htop Hal); [exact Hl|unfold MAX_VMA_PARTITIONS; lia|done|done]. }
  intros t base n Hin. split; [rewrite HD; by apply placing_desc|]. intros j off Hj Ho.
  destruct (placing_dir NUM_PDPTS ts 0 t base n j Hts) as (Hb & Hbn & Ht & Hdir);
    [unfold MAX_VMA_PARTITIONS; lia|done|done|]. unfold MAX_VMA_PARTITIONS in Hbn.
  eapply list.Forall_forall in Hts as (? & ? & ?); [|exact Ht]. split; [done|]. split; [lia|].
  eapply (walk_linked NUM_PDPTS intm_phys); try done.
  - unfold MAX_VMA_PARTITIONS. lia.
  - rewrite <- Hdir. f_equal. lia.
  - lia.
  - dlia.
Qed.

(** C19. What the parser of the registry promises, for any number of tickets (with
    page-aligned tables, and a descriptor each): every ticket that gets room has
    its descriptor filled with its address and the number of its directories,
    and the walk of the processor finds, for every address of the gigabyte [j]
    from there on, the directory [j] of its table (as long as the table does not
    cross the middle of the address space); behind the last of them nothing is
    mapped.  (Before the first run, with empty tables of the parser, 1 to 511 of
    them, at a page-aligned address.) *)
Theorem vma_parser_places NUM_PDPTS intm_phys ts s :
  intm_ok NUM_PDPTS intm_phys → unparsed NUM_PDPTS s → Forall ticket_ok ts → NoDup (map descriptor ts) →
  ∃ s', vma_parser_init NUM_PDPTS intm_phys ts s = Ok (tt, s') ∧
    (∀ t base n, (t, base, n) ∈ placing NUM_PDPTS ts 0 →
      ∃ d, descriptors s' !! descriptor t = Some d ∧ num_partitions_valid d = n ∧
        ∀ j off, 0 <= j < n → 0 <= off < 2 ^ 30 → (base < 255 * 512 → base + j < 255 * 512) →
          walk intm_phys s' (addr d + j * 2 ^ 30 + off) = Some (table_phys t + j * 4096)) ∧
    ∀ idx off, Z.of_nat (length (concat (map place_dirs (placing NUM_PDPTS ts 0)))) <= idx < NUM_PDPTS * 512 → 0 <= off < 2 ^ 30 →
      walk intm_phys s' (dir_va idx + off) = None.
Proof.
  intros Hintm Hs Hts Hnd. destruct (parser_places NUM_PDPTS intm_phys ts s Hintm Hs Hts Hnd) as (s' & E & H & Hno).
  exists s'. split; [done|]. split; [|exact Hno]. intros t base n Hin. destruct (H t base n Hin) as [Hd Hw]. exists (filled base n).
  split; [done|]. split; [done|]. intros j off Hj Ho Hhalf. destruct (Hw j off Hj Ho) as (Hb & Hm & Hwalk).
  destruct Hintm as (Hn & _). cbn [addr filled]. rewrite <- dir_va_next by lia. done.
Qed.

(** One table of pdptes, two directories and a table of two. *)
Definition ex_tickets : list vma_partition_ticket := [VmaTicket 0x10000 1 0; VmaTicket 0x20000 1 1; VmaTicket 0x30000 2 2].
Definition ex_unparsed : vma := Vma (replicate 512 0) [replicate 512 0] ∅ false.
Lemma ex_space_ok : intm_ok 1 0x8000 ∧ unparsed 1 ex_unparsed ∧ Forall ticket_ok ex_tickets ∧ NoDup (map descriptor ex_tickets).
Proof.
  split_and!; try done; try lia.
  - repeat constructor; cbn; done || lia.
  - cbn. repeat constructor; set_solver by lia.
Qed.
Lemma vma_parser_places_witness : ∃ s' d, vma_parser_init 1 0x8000 ex_tickets ex_unparsed = Ok (tt, s') ∧
  descriptors s' !! 2 = Some d ∧ num_partitions_valid d = 2 ∧ walk 0x8000 s' (addr d + 1 * 2 ^ 30 + 0x1234) = Some 0x31000.
Proof.
  destruct ex_space_ok as (H1 & H2 & H3 & H4). destruct (vma_parser_places 1 0x8000 ex_tickets ex_unparsed H1 H2 H3 H4) as (s' & E & H & _).
  destruct (H (VmaTicket 0x30000 2 2) 2 2) as (d & Hd & Hn & Hw); [by vm_compute; right; right; left|].
  exists s', d. split; [done|]. split; [done|]. split; [done|]. apply (Hw 1 0x1234); lia.
Defined.
