(* ===== verification/Paging.v ===== *)
(** * Paging: temporary mappings (paging.h, paging.c, tlb.c)

    Two directories of 512 pages of 2 MB, one for memory and one for devices,
    with a bitmap of their free entries, and the translations that processors
    have cached: an entry that changes has to be flushed. *)

From S2P Require Import Prelude Std Bmp Vma.
From Stdlib Require Import ZArith Lia Bool.
From stdpp Require Import base gmap list numbers option.

Local Open Scope Z_scope.

(** ** Entries of a directory *)

(** [pde_huge_t] as the macros of vma.h fill it. *)
Definition pde_huge (flags pfn : Z) : Z := Z.lor flags (Z.shiftl (Z.land pfn (2 ^ 30 - 1)) 21).
(** present, rw, ps; with pwt and pcd for devices *)
Definition PDE_MEMORY : Z := Z.lor 1 (Z.lor (2 ^ 1) (2 ^ 7)).
Definition PDE_MMIO : Z := Z.lor PDE_MEMORY (Z.lor (2 ^ 3) (2 ^ 4)).
Definition pd_index_of (va : Z) : Z := Z.land (Z.shiftr va 21) 511.

(** The directory for memory, [pd_pfn], or that for devices, [pd_pfn_io]. *)
Inductive which := Pfn | Io.
#[export] Instance which_eq_dec : EqDecision which.
Proof. solve_decision. Defined.

(** A partition and the bitmap of its mapper; the lock is that of Mcslock. *)
Record mapper := Mapper { pde : list Z; bmp : bmp512 }.
(** [tlbs]: the entries that each processor has cached, by page. *)
Record mmu := Mmu { pd_pfn : mapper; pd_pfn_io : mapper; tlbs : gmap Z (gmap Z Z) }.
Abbreviation P := (M mmu).

Definition mapper_of (w : which) (s : mmu) : mapper := match w with Pfn => pd_pfn s | Io => pd_pfn_io s end.
Definition set_mapper (w : which) (m : mapper) : P unit := mmodify (fun s =>
  match w with Pfn => Mmu m (pd_pfn_io s) (tlbs s) | Io => Mmu (pd_pfn s) m (tlbs s) end).
Definition set_bmp (w : which) (b : bmp512) : P unit :=
  s <~ mget ;; set_mapper w (Mapper (pde (mapper_of w s)) b).

Definition write_pde (w : which) (idx v : Z) : P unit :=
  massert (idx <? VMA_PARTITION_ENTRY_COUNT) ;;;
  s <~ mget ;;
  match pde (mapper_of w s) !! Z.to_nat idx with
  | Some _ => if idx <? 0 then mfault FBounds else
      set_mapper w (Mapper (<[Z.to_nat idx := v]> (pde (mapper_of w s))) (bmp (mapper_of w s)))
  | None => mfault FBounds
  end.
Definition vma_partition_unmap (w : which) (idx : Z) : P unit := write_pde w idx 0.
Definition vma_partition_remap (w : which) (idx pfn : Z) : P unit := write_pde w idx (pde_huge PDE_MEMORY pfn).
Definition vma_partition_remap_mmio (w : which) (idx pfn : Z) : P unit := write_pde w idx (pde_huge PDE_MMIO pfn).

(** ** Flushing *)

Definition page_of (va : Z) : Z := Z.shiftr va 21.
Definition flush_this_tlb_page (cpu va : Z) : P unit := mmodify (fun s =>
  Mmu (pd_pfn s) (pd_pfn_io s) (alter (delete (page_of va)) cpu (tlbs s))).

Definition flush_this_tlb (cpu : Z) : P unit := mmodify (fun s =>
  Mmu (pd_pfn s) (pd_pfn_io s) (alter (fun _ => ∅) cpu (tlbs s))).

Fixpoint flush_range_loop (fuel : nat) (cpu i aligned_end : Z) : P unit :=
  match fuel with
  | O => mfault FFuel
  | S fuel =>
      if i =? aligned_end then ret tt else
      flush_this_tlb_page cpu i ;;; flush_range_loop fuel cpu (u64 (i + PAGE_SIZE)) aligned_end
  end.
Definition flush_this_tlb_range (cpu first last : Z) : P unit :=
  let aligned_start := p2align_down first PAGE_SIZE in
  let aligned_end := p2align_down last PAGE_SIZE in
  flush_range_loop (S (Z.to_nat (u64 (aligned_end - aligned_start) / PAGE_SIZE))) cpu aligned_start aligned_end ;;;
  flush_this_tlb_page cpu aligned_end.

Section Mmu.
(** The running processor, the others, and where the directories lie. *)
Context (this num_cpus : Z) (enabled : Z → bool) (multicore_initialized : bool).
Context (desc_addr : which → Z).

(** The callers here wait: the handler has run on every other processor that
    is enabled (and active) before the call returns. *)
Definition ipi_run_func_others (func : Z → P unit) : P unit :=
  mfor (seqZ 0 num_cpus) (fun i => if negb (i =? this) && enabled i then func i else ret tt).

Definition flush_tlb_local : P unit := flush_this_tlb this.
Definition flush_tlb_ipi (cpu : Z) : P unit := flush_this_tlb cpu.
(** Under the hypervisor a hypercall does it. *)
Definition flush_tlb_global (twanvisor_on : bool) (tv_vtlb_shootdown : P unit) : P unit :=
  if twanvisor_on then tv_vtlb_shootdown else
  flush_this_tlb this ;;;
  if multicore_initialized then ipi_run_func_others flush_tlb_ipi else ret tt.
Definition flush_tlb_page_local (va : Z) : P unit := flush_this_tlb_page this va.
Definition flush_tlb_range_local (first last : Z) : P unit := flush_this_tlb_range this first last.
Definition flush_tlb_page_ipi (va : Z) (cpu : Z) : P unit := flush_this_tlb_page cpu va.
Definition flush_tlb_range_ipi (first last : Z) (cpu : Z) : P unit := flush_this_tlb_range cpu first last.
Definition flush_tlb_page_global (va : Z) : P unit :=
  flush_this_tlb_page this va ;;;
  if multicore_initialized then ipi_run_func_others (flush_tlb_page_ipi va) else ret tt.
Definition flush_tlb_range_global (first last : Z) : P unit :=
  flush_this_tlb_range this first last ;;;
  if multicore_initialized then ipi_run_func_others (flush_tlb_range_ipi first last) else ret tt.

(** ** Mapping *)

Definition init_mappers (pfn_partitions pfn_io_partitions : Z) : P unit :=
  (if pfn_partitions =? 1 then ret tt else mfault FHalt) ;;;
  (if pfn_io_partitions =? 1 then ret tt else mfault FHalt) ;;;
  s <~ mget ;; set_bmp Pfn (bmp512_set_all (bmp (pd_pfn s))) ;;;
  s <~ mget ;; set_bmp Io (bmp512_set_all (bmp (pd_pfn_io s))).

Definition remap_of (w : which) : Z → Z → P unit :=
  match w with Pfn => vma_partition_remap Pfn | Io => vma_partition_remap_mmio Io end.
(** The two mappers have the same routines. *)
Definition map_pfn_noflush (w : which) (pfn : Z) : P Z :=
  s <~ mget ;;
  let '(idx, b) := bmp512_ffs_unset (bmp (mapper_of w s)) in
  set_bmp w b ;;;
  if idx =? -1 then ret 0 else
  remap_of w idx pfn ;;;
  ret (u64 (desc_addr w + idx * PAGE_SIZE)).
Definition unmap_pfn_noflush (w : which) (va : Z) : P unit :=
  let idx := pd_index_of va in
  vma_partition_unmap w idx ;;;
  s <~ mget ;; set_bmp w (bmp512_set (bmp (mapper_of w s)) idx).
Definition map_phys_pg_noflush (w : which) (phys : Z) : P Z :=
  let pfn := u32 (Z.shiftr phys PAGE_SHIFT) in
  let offset := u32 (phys mod PAGE_SIZE) in
  if offset =? 0 then map_pfn_noflush w pfn else
  s <~ mget ;;
  match bmp512_ffs2_unset2 (bmp (mapper_of w s)) with
  | Fault f => mfault f
  | Ok (idx, b) =>
      set_bmp w b ;;;
      if idx =? -1 then ret 0 else
      remap_of w idx pfn ;;;
      remap_of w (idx + 1) (u32 (pfn + 1)) ;;;
      ret (u64 (u64 (desc_addr w + idx * PAGE_SIZE) + offset))
  end.
Definition unmap_phys_pg_noflush (w : which) (va : Z) : P unit :=
  let base := p2align_down va PAGE_SIZE in
  unmap_pfn_noflush w base ;;;
  let offset := va mod PAGE_SIZE in
  if negb (offset =? 0) then unmap_pfn_noflush w (u64 (base + PAGE_SIZE)) else ret tt.

(** For memory. *)
Definition __map_pfn_noflush : Z → P Z := map_pfn_noflush Pfn.
Definition __map_pfn_local (pfn : Z) : P Z :=
  va <~ __map_pfn_noflush pfn ;; (if negb (va =? 0) then flush_tlb_page_local va else ret tt) ;;; ret va.
Definition __unmap_pfn_noflush : Z → P unit := unmap_pfn_noflush Pfn.
Definition __unmap_pfn_local (va : Z) : P unit := __unmap_pfn_noflush va ;;; flush_tlb_page_local va.
Definition __remap_pfn_noflush (va pfn : Z) : P unit := vma_partition_remap Pfn (pd_index_of va) (u32 pfn).
Definition __remap_pfn_local (va pfn : Z) : P unit := __remap_pfn_noflush va pfn ;;; flush_tlb_page_local va.
Definition map_pfn (pfn : Z) : P Z := va <~ __map_pfn_noflush pfn ;; flush_tlb_page_global va ;;; ret va.
Definition unmap_pfn (va : Z) : P unit := __unmap_pfn_noflush va ;;; flush_tlb_page_global va.
Definition remap_pfn_local (va pfn : Z) : P unit := __remap_pfn_local va pfn.
Definition remap_pfn (va pfn : Z) : P unit := __remap_pfn_noflush va pfn ;;; flush_tlb_page_global va.
Definition __map_phys_pg_noflush : Z → P Z := map_phys_pg_noflush Pfn.
Definition __map_phys_pg_local (phys : Z) : P Z :=
  va <~ __map_phys_pg_noflush phys ;; (if negb (va =? 0) then flush_tlb_page_local va else ret tt) ;;; ret va.
Definition __unmap_phys_pg_noflush : Z → P unit := unmap_phys_pg_noflush Pfn.
Definition __unmap_phys_pg_local (va : Z) : P unit := __unmap_phys_pg_noflush va ;;; flush_tlb_page_local va.
Definition map_phys_pg (phys : Z) : P Z :=
  va <~ __map_phys_pg_noflush phys ;;
  (if negb (va =? 0) then
     flush_tlb_range_global (p2align_down va PAGE_SIZE) (p2align_down (u64 (va + PAGE_SIZE)) PAGE_SIZE)
   else ret tt) ;;; ret va.
Definition unmap_phys_pg (va : Z) : P unit :=
  __unmap_phys_pg_noflush va ;;;
  flush_tlb_range_global (p2align_down va PAGE_SIZE) (p2align_up va PAGE_SIZE).

(** For devices. *)
Definition __map_pfn_io_noflush : Z → P Z := map_pfn_noflush Io.
Definition __map_pfn_io_local (pfn : Z) : P Z :=
  va <~ __map_pfn_io_noflush pfn ;;
  (if negb (va =? 0) then flush_tlb_page_local (u64 (Z.shiftl pfn PAGE_SHIFT)) else ret tt) ;;; ret va.
Definition __unmap_pfn_io_noflush : Z → P unit := unmap_pfn_noflush Io.
Definition __unmap_pfn_io_local (va : Z) : P unit := __unmap_pfn_io_noflush va ;;; flush_tlb_page_local va.
Definition map_pfn_io (pfn : Z) : P Z :=
  va <~ __map_pfn_io_noflush pfn ;; (if negb (va =? 0) then flush_tlb_page_global va else ret tt) ;;; ret va.
Definition unmap_pfn_io (va : Z) : P unit :=
  __unmap_pfn_io_noflush va ;;; if negb (va =? 0) then flush_tlb_page_global va else ret tt.
Definition __map_phys_pg_io_noflush : Z → P Z := map_phys_pg_noflush Io.
Definition __map_phys_pg_io_local (phys : Z) : P Z :=
  va <~ __map_phys_pg_io_noflush phys ;;
  (if negb (va =? 0) then flush_tlb_range_local (p2align_down va PAGE_SIZE) (p2align_up va PAGE_SIZE) else ret tt) ;;; ret va.
Definition __unmap_phys_pg_io_noflush : Z → P unit := unmap_phys_pg_noflush Io.
Definition __unmap_phys_pg_io_local (va : Z) : P unit :=
  __unmap_phys_pg_io_noflush va ;;; flush_tlb_range_local (p2align_down va PAGE_SIZE) (p2align_up va PAGE_SIZE).
Definition map_phys_pg_io (phys : Z) : P Z :=
  va <~ __map_phys_pg_io_noflush phys ;;
  (if negb (va =? 0) then flush_tlb_range_global (p2align_down va PAGE_SIZE) (p2align_up va PAGE_SIZE) else ret tt) ;;; ret va.
Definition unmap_phys_pg_io (va : Z) : P unit :=
  __unmap_phys_pg_io_noflush va ;;; flush_tlb_range_global (p2align_down va PAGE_SIZE) (p2align_up va PAGE_SIZE).
End Mmu.
