(* ===== verification/PagingInv.v ===== *)
(** * PagingInv: the state of the mappers

    What flushes leave of the cached entries, where the pages of a mapping
    lie, and the invariant of the live mappings under a change of entries. *)

From S2P Require Import Prelude Std Bmp Vma Paging.
From Stdlib Require Import ZArith Lia Bool.
From stdpp Require Import base gmap list numbers option.

Local Open Scope Z_scope.

(** ** States *)

Definition put (w : which) (m : mapper) (s : mmu) : mmu :=
  match w with Pfn => Mmu m (pd_pfn_io s) (tlbs s) | Io => Mmu (pd_pfn s) m (tlbs s) end.
Lemma mapper_of_put w m s w' : mapper_of w' (put w m s) = if decide (w' = w) then m else mapper_of w' s.
Proof. by destruct w, w'. Qed.
Lemma tlbs_put w m s : tlbs (put w m s) = tlbs s.
Proof. by destruct w. Qed.
Lemma put_put w m m' s : put w m' (put w m s) = put w m' s.
Proof. by destruct w. Qed.
Lemma put_same w s : put w (mapper_of w s) s = s.
Proof. by destruct w, s. Qed.
Lemma wp_set_mapper w m Q s : Q tt (put w m s) → wp (set_mapper w m) Q s.
Proof. by destruct w. Qed.
Lemma wp_set_bmp w b Q s : Q tt (put w (Mapper (pde (mapper_of w s)) b) s) → wp (set_bmp w b) Q s.
Proof. intros H. unfold set_bmp. apply wp_bind. by apply (wp_set_mapper w). Qed.
Lemma wp_write_pde w i v Q s : 0 <= i < 512 → length (pde (mapper_of w s)) = 512%nat →
  Q tt (put w (Mapper (<[Z.to_nat i := v]> (pde (mapper_of w s))) (bmp (mapper_of w s))) s) → wp (write_pde w i v) Q s.
Proof.
  intros Hi Hl HQ. unfold write_pde, VMA_PARTITION_ENTRY_COUNT. rewrite (proj2 (Z.ltb_lt i 512)) by lia.
  apply wp_bind. unfold massert, wp at 1. apply wp_bind. unfold mget, wp at 1.
  destruct (lookup_lt_is_Some_2 (pde (mapper_of w s)) (Z.to_nat i)) as [e ->]; [lia|].
  rewrite (proj2 (Z.ltb_ge i 0)) by lia. by apply wp_set_mapper.
Qed.

Definition flags_of (w : which) : Z := match w with Pfn => PDE_MEMORY | Io => PDE_MMIO end.
Lemma remap_write w i pfn : remap_of w i pfn = write_pde w i (pde_huge (flags_of w) pfn).
Proof. by destruct w. Qed.

(** ** What flushes leave *)

(** [gone]: the cached entries that are no longer there. *)
Record flushed (gone : Z → Z → Prop) (s s' : mmu) : Prop := {
  fl_mapper : ∀ w, mapper_of w s' = mapper_of w s;
  fl_tlbs : ∀ c t', tlbs s' !! c = Some t' → ∃ t, tlbs s !! c = Some t ∧
    ∀ p e, t' !! p = Some e → t !! p = Some e ∧ ¬ gone c p;
}.
Lemma flushed_refl s : flushed (fun _ _ => False) s s.
Proof. split; [done|]. intros c t' H. exists t'. split; [done|]. intros p e Hp. split; [done|tauto]. Qed.
Lemma flushed_trans g1 g2 s1 s2 s3 : flushed g1 s1 s2 → flushed g2 s2 s3 → flushed (fun c p => g1 c p ∨ g2 c p) s1 s3.
Proof.
  intros [A1 A2] [B1 B2]. split; [intros w; by rewrite B1|]. intros c t3 H3. destruct (B2 c t3 H3) as (t2 & H2 & E2).
  destruct (A2 c t2 H2) as (t1 & H1 & E1). exists t1. split; [done|]. intros p e Hp.
  destruct (E2 p e Hp) as [Hp2 ?]. destruct (E1 p e Hp2) as [? ?]. by split; [|tauto].
Qed.
Lemma flushed_weaken (g g' : Z → Z → Prop) s s' : (∀ c p, g' c p → g c p) → flushed g s s' → flushed g' s s'.
Proof.
  intros Hg [A B]. split; [done|]. intros c t' H. destruct (B c t' H) as (t & Ht & E). exists t. split; [done|].
  intros p e Hp. destruct (E p e Hp). split; [done|]. auto.
Qed.

Lemma wp_flush_page c va Q s : (∀ s', flushed (fun c' p => c' = c ∧ p = page_of va) s s' → Q tt s') → wp (flush_this_tlb_page c va) Q s.
Proof.
  intros HQ. apply HQ. split; [by intros []|]. cbn. intros c' t'. destruct (decide (c' = c)) as [->|Hne].
  - rewrite lookup_alter_eq. intros (t & Ht & ->)%fmap_Some. exists t. split; [done|]. intros p e Hp.
    apply lookup_delete_Some in Hp as [? ?]. split; [done|]. naive_solver.
  - rewrite lookup_alter_ne by done. intros Ht. exists t'. split; [done|]. intros p e Hp. split; [done|]. naive_solver.
Qed.
Lemma wp_flush_all c Q s : (∀ s', flushed (fun c' p => c' = c ∧ True) s s' → Q tt s') → wp (flush_this_tlb c) Q s.
Proof.
  intros HQ. apply HQ. split; [by intros []|]. cbn. intros c' t'. destruct (decide (c' = c)) as [->|Hne].
  - rewrite lookup_alter_eq. intros (t & Ht & ->)%fmap_Some. exists t. split; [done|]. intros p e Hp. by rewrite lookup_empty in Hp.
  - rewrite lookup_alter_ne by done. intros Ht. exists t'. split; [done|]. intros p e Hp. split; [done|]. naive_solver.
Qed.
Lemma wp_flush_loop fuel c e : ∀ i Q s, 0 <= i <= e → e < 2 ^ 64 → i mod 2 ^ 21 = 0 → e mod 2 ^ 21 = 0 →
  (e - i) / 2 ^ 21 < Z.of_nat fuel →
  (∀ s', flushed (fun c' p => c' = c ∧ page_of i <= p < page_of e) s s' → Q tt s') → wp (flush_range_loop fuel c i e) Q s.
Proof.
  induction fuel as [|fuel IH]; intros i Q s Hi He Hmi Hme Hf HQ; [dlia|]. cbn [flush_range_loop].
  destruct (Z.eqb_spec i e) as [->|Hne].
  - apply wp_ret, HQ. eapply flushed_weaken; [|apply flushed_refl]. intros c' p [_ ?]. lia.
  - apply wp_bind, wp_flush_page. intros s1 F1. unfold u64, PAGE_SIZE. rewrite wrap_small by dlia.
    apply IH; [dlia|done|dlia|done|dlia|]. intros s2 F2. apply HQ.
    eapply flushed_weaken; [|eapply flushed_trans; [exact F1|exact F2]]. intros c' p [-> Hp]. unfold page_of in *.
    rewrite !Z.shiftr_div_pow2 in * by lia. assert (p = i / 2 ^ 21 ∨ (i + 2 ^ 21) / 2 ^ 21 <= p) as [->|?] by dlia; [by left|right; by split; [|lia]].
Qed.
Lemma wp_flush_range c first last Q s : 0 <= first <= last → last < 2 ^ 64 →
  (∀ s', flushed (fun c' p => c' = c ∧ page_of first <= p <= page_of last) s s' → Q tt s') → wp (flush_this_tlb_range c first last) Q s.
Proof.
  intros Hf Hl HQ. unfold flush_this_tlb_range, PAGE_SIZE. rewrite !align_down_spec by lia. cbv zeta.
  apply wp_bind, wp_flush_loop; [dlia|dlia|dlia|dlia| |].
  { unfold u64. rewrite wrap_small by dlia. pose proof (Z.div_pos (last / 2 ^ 21 * 2 ^ 21 - first / 2 ^ 21 * 2 ^ 21) (2 ^ 21)). dlia. }
  intros s1 F1. apply wp_flush_page. intros s2 F2. apply HQ.
  eapply flushed_weaken; [|eapply flushed_trans; [exact F1|exact F2]]. intros c' p [-> Hp]. unfold page_of in *.
  rewrite !Z.shiftr_div_pow2 in * by lia. assert (first / 2 ^ 21 * 2 ^ 21 / 2 ^ 21 = first / 2 ^ 21) as -> by dlia.
  assert (last / 2 ^ 21 * 2 ^ 21 / 2 ^ 21 = last / 2 ^ 21) as -> by dlia.
  assert (p < last / 2 ^ 21 ∨ p = last / 2 ^ 21) as [?|?] by lia; [left; lia|by right].
Qed.

Section Flushes.
Context (this num_cpus : Z) (enabled : Z → bool) (multicore_initialized : bool).

(** The processors that a global flush reaches. *)
Definition reaches (c : Z) : Prop := c = this ∨ multicore_initialized = true ∧ 0 <= c < num_cpus ∧ enabled c = true.

Lemma wp_on_each (f : Z → P unit) (R : Z → Prop) l :
  (∀ c Q s, (∀ s', flushed (fun c' p => c' = c ∧ R p) s s' → Q tt s') → wp (f c) Q s) → ∀ Q s,
  (∀ s', flushed (fun c p => c ∈ l ∧ c ≠ this ∧ enabled c = true ∧ R p) s s' → Q tt s') →
  wp (mfor l (fun i => if negb (i =? this) && enabled i then f i else ret tt)) Q s.
Proof.
  intros Hf. induction l as [|i l IH]; intros Q s HQ; cbn [mfor].
  - apply wp_ret, HQ. eapply flushed_weaken; [|apply flushed_refl]. intros c p (Hc & _). by apply elem_of_nil in Hc.
  - apply wp_bind. destruct (negb (i =? this) && enabled i) eqn:E.
    + apply Hf. intros s1 F1. apply IH. intros s2 F2. apply HQ.
      eapply flushed_weaken; [|eapply flushed_trans; [exact F1|exact F2]].
      intros c p (Hc & Hrest). apply elem_of_cons in Hc as [->|Hc]; [left; naive_solver|by right].
    + apply wp_ret, IH. intros s2 F2. apply HQ. eapply flushed_weaken; [|exact F2].
      intros c p (Hc & Hne & He & HR). apply elem_of_cons in Hc as [->|Hc]; [|done].
      rewrite He, (proj2 (Z.eqb_neq i this) Hne) in E. done.
Qed.
Lemma wp_global (f : Z → P unit) (R : Z → Prop) Q s :
  (∀ c Q s, (∀ s', flushed (fun c' p => c' = c ∧ R p) s s' → Q tt s') → wp (f c) Q s) →
  (∀ s', flushed (fun c p => reaches c ∧ R p) s s' → Q tt s') →
  wp (f this ;;; if multicore_initialized then ipi_run_func_others this num_cpus enabled f else ret tt) Q s.
Proof.
  intros Hf HQ. apply wp_bind, Hf. intros s1 F1. destruct multicore_initialized eqn:Em.
  - apply (wp_on_each f R); [done|]. intros s2 F2. apply HQ.
    eapply flushed_weaken; [|eapply flushed_trans; [exact F1|exact F2]]. intros c p [[->|(_ & Hc & He)] HR]; [by left|].
    destruct (decide (c = this)) as [->|Hne]; [by left|right]. split; [apply elem_of_seqZ; lia|done].
  - apply wp_ret, HQ. eapply flushed_weaken; [|exact F1]. intros c p [[->|(H & _)] HR]; [done|]. congruence.
Qed.
Lemma wp_all_global shootdown Q s : (∀ s', flushed (fun c _ => reaches c) s s' → Q tt s') →
  wp (flush_tlb_global this num_cpus enabled multicore_initialized false shootdown) Q s.
Proof.
  intros HQ. apply (wp_global flush_tlb_ipi (fun _ => True)); [intros; by apply wp_flush_all|].
  intros s' F. apply HQ. eapply flushed_weaken; [|exact F]. by split.
Qed.
Lemma wp_page_global va Q s : (∀ s', flushed (fun c p => reaches c ∧ p = page_of va) s s' → Q tt s') →
  wp (flush_tlb_page_global this num_cpus enabled multicore_initialized va) Q s.
Proof. intros HQ. apply (wp_global (flush_tlb_page_ipi va) (fun p => p = page_of va)); [|done]. intros. by apply wp_flush_page. Qed.
Lemma wp_range_global first last Q s : 0 <= first <= last → last < 2 ^ 64 →
  (∀ s', flushed (fun c p => reaches c ∧ page_of first <= p <= page_of last) s s' → Q tt s') →
  wp (flush_tlb_range_global this num_cpus enabled multicore_initialized first last) Q s.
Proof. intros Hf Hl HQ. apply (wp_global (flush_tlb_range_ipi first last) (fun p => page_of first <= p <= page_of last)); [|done]. intros. by apply wp_flush_range. Qed.
End Flushes.

(** ** Where mappings lie *)

Section Mappings.
Context (desc_addr : which → Z).
(** The two descriptors cover a gigabyte each. *)
Context (Hal : ∀ w, desc_addr w mod 2 ^ 30 = 0) (Hlow : ∀ w, 0 < desc_addr w) (Hhigh : ∀ w, desc_addr w + 2 ^ 30 < 2 ^ 64).
Context (Hne : desc_addr Pfn ≠ desc_addr Io).

(** The entry of a page. *)
Definition base_page (w : which) : Z := desc_addr w / 2 ^ 21.
Definition pde_of (s : mmu) (page : Z) : option Z :=
  if decide (base_page Pfn <= page < base_page Pfn + 512) then pde (pd_pfn s) !! Z.to_nat (page - base_page Pfn)
  else if decide (base_page Io <= page < base_page Io + 512) then pde (pd_pfn_io s) !! Z.to_nat (page - base_page Io)
  else None.

Lemma base_pages w w' p : base_page w <= p < base_page w + 512 → base_page w' <= p < base_page w' + 512 → w = w'.
Proof using Hal Hne.
  unfold base_page. intros H1 H2. pose proof (Hal Pfn). pose proof (Hal Io). destruct w, w'; [done| | |done]; exfalso; apply Hne; dlia.
Qed.
Lemma pde_of_page s w i : 0 <= i < 512 → pde_of s (base_page w + i) = pde (mapper_of w s) !! Z.to_nat i.
Proof using Hal Hne.
  intros Hi. unfold pde_of. destruct w; cbn [mapper_of].
  - rewrite decide_True by lia. do 2 f_equal. lia.
  - rewrite decide_False. 2:{ intros H. pose proof (base_pages Pfn Io (base_page Io + i) H ltac:(lia)). done. }
    rewrite decide_True by lia. do 2 f_equal. lia.
Qed.
Lemma pde_of_elsewhere s p : (∀ w, ¬ (base_page w <= p < base_page w + 512)) → pde_of s p = None.
Proof. intros H. unfold pde_of. by rewrite !decide_False by apply H. Qed.
Lemma page_case p : (∃ w i, 0 <= i < 512 ∧ p = base_page w + i) ∨ ∀ w, ¬ (base_page w <= p < base_page w + 512).
Proof.
  destruct (decide (base_page Pfn <= p < base_page Pfn + 512)); [left; exists Pfn, (p - base_page Pfn); lia|].
  destruct (decide (base_page Io <= p < base_page Io + 512)); [left; exists Io, (p - base_page Io); lia|]. right. by intros [].
Qed.

(** The addresses of an entry. *)
Lemma entry_page w i off : 0 <= i < 512 → 0 <= off < 2 ^ 21 →
  let va := desc_addr w + i * 2 ^ 21 + off in page_of va = base_page w + i ∧ pd_index_of va = i ∧ va mod 2 ^ 21 = off ∧ 0 < va < 2 ^ 64.
Proof using Hal Hlow Hhigh.
  intros Hi Ho va. pose proof (Hal w). pose proof (Hlow w). pose proof (Hhigh w). unfold page_of, pd_index_of, base_page, va.
  change 511 with (2 ^ 9 - 1). rewrite land_field, !Z.shiftr_div_pow2 by lia. change (2 ^ 30) with 1073741824 in *. split_and!; dlia.
Qed.

(** Cached translations agree with the tables, but for the pages in [X]. *)
Definition coherent_but (X : Z → Prop) (s : mmu) : Prop :=
  ∀ c t p e, tlbs s !! c = Some t → t !! p = Some e → ¬ X p → pde_of s p = Some e ∧ present e = true.
Lemma coherent_flushed X (gone : Z → Z → Prop) s s' : coherent_but X s → flushed gone s s' →
  (∀ c t p, tlbs s !! c = Some t → X p → gone c p) → coherent_but (fun _ => False) s'.
Proof.
  intros H [F1 F2] Hg c t' p e Hc Hp _. destruct (F2 c t' Hc) as (t & Ht & E). destruct (E p e Hp) as [Hp' Hgone].
  destruct (H c t p e Ht Hp') as [H1 H2]; [by intros HX%(Hg c t)|]. split; [|done]. rewrite <- H1. unfold pde_of.
  pose proof (F1 Pfn) as E1. pose proof (F1 Io) as E2. cbn in E1, E2. by rewrite E1, E2.
Qed.
End Mappings.

(** ** Live mappings *)

(** What an address was handed out for. *)
Record mapping := Mapping { m_which : which; m_phys : Z }.
Definition m_off (m : mapping) : Z := m_phys m mod 2 ^ 21.
(** An address inside a page needs the next page, too. *)
Definition extra (m : mapping) : Z := if decide (m_off m = 0) then 0 else 1.

Lemma extra_range m : 0 <= extra m <= 1.
Proof. unfold extra. case_decide; lia. Qed.

Lemma extra_zero m : extra m = 0 → m_off m = 0.
Proof. unfold extra. by case_decide. Qed.

Definition page_frame (e : Z) : Z := Z.shiftl (Z.land (Z.shiftr e 21) (2 ^ 30 - 1)) 21.
Lemma flags_small w : 0 <= flags_of w < 2 ^ 21 ∧ Z.testbit (flags_of w) 0 = true.
Proof. destruct w; (split; [by vm_compute|done]). Qed.
Lemma pde_huge_present w pfn : present (pde_huge (flags_of w) pfn) = true.
Proof. unfold present, pde_huge. rewrite Z.lor_spec. by rewrite (proj2 (flags_small w)). Qed.
Lemma pde_huge_frame w pfn : 0 <= pfn < 2 ^ 30 → page_frame (pde_huge (flags_of w) pfn) = pfn * 2 ^ 21.
Proof.
  intros Hp. destruct (flags_small w) as [Hf _]. unfold page_frame, pde_huge.
  assert (Z.land pfn (2 ^ 30 - 1) = pfn) as -> by (rewrite land_field by lia; apply Z.mod_small; lia).
  rewrite (lor_add 21) by lia. rewrite land_field, Z.shiftl_mul_pow2, Z.shiftr_div_pow2 by lia.
  replace ((flags_of w + pfn * 2 ^ 21) / 2 ^ 21) with pfn by dlia. by rewrite Z.mod_small.
Qed.

(** What a processor reaches at an address, through what it has cached. *)
Definition access (desc_addr : which → Z) (s : mmu) (cpu va : Z) : option Z :=
  e ← (match tlbs s !! cpu ≫= (.!! page_of va) with Some e => Some e | None => pde_of desc_addr s (page_of va) end);
  guard (present e);; Some (page_frame e + va mod 2 ^ 21).

Section Inv.
Context (desc_addr : which → Z).
Context (Hal : ∀ w, desc_addr w mod 2 ^ 30 = 0) (Hlow : ∀ w, 0 < desc_addr w) (Hhigh : ∀ w, desc_addr w + 2 ^ 30 < 2 ^ 64).
Context (Hne : desc_addr Pfn ≠ desc_addr Io).
Local Abbreviation base_page := (base_page desc_addr).
Local Abbreviation mappings := (gmap Z mapping).

Definition slot (r : Z) (m : mapping) : Z := page_of r - base_page (m_which m).
Definition covers (r : Z) (m : mapping) (w : which) (k : Z) : Prop := m_which m = w ∧ slot r m <= k <= slot r m + extra m.
Definition pages_of (r : Z) (m : mapping) (p : Z) : Prop :=
  base_page (m_which m) + slot r m <= p <= base_page (m_which m) + slot r m + extra m.

Record good (s : mmu) (r : Z) (m : mapping) : Prop := {
  go_phys : 0 <= m_phys m ∧ m_phys m + 2 ^ 22 <= 2 ^ 51;
  go_slot : 0 <= slot r m ∧ slot r m + extra m < 512;
  go_addr : r = desc_addr (m_which m) + slot r m * 2 ^ 21 + m_off m;
  go_pde : ∀ d, 0 <= d <= extra m → pde (mapper_of (m_which m) s) !! Z.to_nat (slot r m + d) =
    Some (pde_huge (flags_of (m_which m)) (m_phys m / 2 ^ 21 + d));
}.
(** A change of entries of one directory. *)
Lemma coherent_put X s w m' (Y : Z → Prop) : coherent_but desc_addr X s →
  (∀ i, 0 <= i < 512 → ¬ Y (base_page w + i) → pde m' !! Z.to_nat i = pde (mapper_of w s) !! Z.to_nat i) →
  coherent_but desc_addr (fun p => X p ∨ Y p) (put w m' s).
Proof using Hal Hne.
  intros H Hsame c t p e Hc Hp HX. rewrite tlbs_put in Hc. destruct (H c t p e Hc Hp) as [E Hpr]; [tauto|]. split; [|done].
  rewrite <- E. destruct (page_case desc_addr p) as [(w' & i & Hi & ->)|Hno].
  - rewrite !(pde_of_page desc_addr Hal Hne) by done. rewrite mapper_of_put. destruct (decide (w' = w)) as [->|]; [|done].
    apply Hsame; [done|tauto].
  - by rewrite !(pde_of_elsewhere desc_addr) by done.
Qed.

Lemma entry_slot w i phys : 0 <= i < 512 → slot (desc_addr w + i * 2 ^ 21 + phys mod 2 ^ 21) (Mapping w phys) = i.
Proof using Hal Hlow Hhigh.
  intros Hi. unfold slot. cbn [m_which]. destruct (entry_page desc_addr Hal Hlow Hhigh w i (phys mod 2 ^ 21) Hi) as [-> _]; [dlia|lia].
Qed.

(** The processors with cached entries. *)
Context (cpus : Z → Prop).
Record mm_inv (X : Z → Prop) (s : mmu) (M : mappings) : Prop := {
  mi_len : ∀ w, length (pde (mapper_of w s)) = 512%nat;
  mi_wf : ∀ w, bmp512_wf (bmp (mapper_of w s));
  mi_free : ∀ w k, 0 <= k < 512 →
    (bmp512_bit (bmp (mapper_of w s)) k = true ↔ ∀ r m, M !! r = Some m → ¬ covers r m w k);
  mi_good : ∀ r m, M !! r = Some m → good s r m;
  mi_apart : ∀ r m r' m' w k, M !! r = Some m → M !! r' = Some m' → covers r m w k → covers r' m' w k → r = r';
  mi_coh : coherent_but desc_addr X s;
  mi_cpus : ∀ c t, tlbs s !! c = Some t → cpus c;
}.

(** An address in a free page has not been handed out. *)
Lemma free_fresh X s M w i off : mm_inv X s M → 0 <= i < 512 → 0 <= off < 2 ^ 21 →
  bmp512_bit (bmp (mapper_of w s)) i = true → M !! (desc_addr w + i * 2 ^ 21 + off) = None.
Proof using Hal Hlow Hhigh Hne.
  intros H Hi Ho Hbit. apply eq_None_not_Some. intros [m' Hm']. pose proof (mi_good _ _ _ H _ _ Hm') as [_ Hs _ _].
  pose proof (extra_range m'). destruct (entry_page desc_addr Hal Hlow Hhigh w i off Hi Ho) as (Hpage & _). cbv zeta in Hpage.
  unfold slot in Hs. rewrite Hpage in Hs.
  assert (m_which m' = w) as Ew by (apply (base_pages desc_addr Hal Hne (m_which m') w (base_page w + i)); lia).
  apply (proj1 (mi_free _ _ _ H w i Hi) Hbit _ _ Hm'). split; [done|]. unfold slot. rewrite Hpage, Ew. lia.
Qed.

Section Change.
Context (X : Z → Prop) (s : mmu) (M : mappings) (H : mm_inv X s M).

Lemma mm_added w i phys pde' bmp' (m := Mapping w phys) (r := desc_addr w + i * 2 ^ 21 + phys mod 2 ^ 21) :
  0 <= phys → phys + 2 ^ 22 <= 2 ^ 51 → 0 <= i → i + extra m < 512 →
  (∀ k, i <= k <= i + extra m → bmp512_bit (bmp (mapper_of w s)) k = true) →
  length pde' = 512%nat → bmp512_wf bmp' →
  (∀ k, 0 <= k < 512 → bmp512_bit bmp' k = negb (bool_decide (i <= k <= i + extra m)) && bmp512_bit (bmp (mapper_of w s)) k) →
  (∀ k, 0 <= k < 512 → pde' !! Z.to_nat k =
     if decide (i <= k <= i + extra m) then Some (pde_huge (flags_of w) (phys / 2 ^ 21 + (k - i))) else pde (mapper_of w s) !! Z.to_nat k) →
  mm_inv (fun p => X p ∨ pages_of r m p) (put w (Mapper pde' bmp') s) (<[r := m]> M).
Proof using All.
  intros Hp0 Hp1 Hi0 Hi1 Hset Hlen Hwf Hbit Hpde. pose proof (extra_range m) as Hx.
  assert (slot r m = i) as Hslot by (apply entry_slot; lia).
  assert (∀ k, covers r m w k ↔ i <= k <= i + extra m) as Hcov by (intros k; unfold covers; rewrite Hslot; split; [tauto|done]).
  assert (∀ r' m' k, M !! r' = Some m' → 0 <= k < 512 → covers r m w k → ¬ covers r' m' w k) as Hnew.
  { intros r' m' k Hr' Hk Hc. apply Hcov in Hc. by apply (mi_free _ _ _ H w k Hk); [apply Hset|]. }
  assert (∀ r' m', M !! r' = Some m' → r' ≠ r) as Hfresh.
  { intros r' m' Hr' ->. unfold r in Hr'. rewrite (free_fresh X s M w i) in Hr'; [done|done|lia|dlia|]. apply Hset. lia. }
  split.
  - intros w'. rewrite mapper_of_put. case_decide; [done|apply H].
  - intros w'. rewrite mapper_of_put. case_decide; [done|apply H].
  - intros w' k Hk. rewrite mapper_of_put. destruct (decide (w' = w)) as [->|Hw]; cbn [bmp].
    + rewrite (Hbit k Hk), andb_true_iff, negb_true_iff, bool_decide_eq_false, (mi_free _ _ _ H w k Hk). split.
      * intros [Hno Hfree] r' m'. rewrite lookup_insert_Some. intros [[<- <-]|[_ Hr']]; [by rewrite Hcov|by apply Hfree].
      * intros Hfree. split; [rewrite <- Hcov; apply Hfree, lookup_insert_eq|]. intros r' m' Hr'. apply Hfree.
        rewrite lookup_insert_ne; [done|]. by apply not_eq_sym, (Hfresh r' m').
    + rewrite (mi_free _ _ _ H w' k Hk). split.
      * intros Hfree r' m'. rewrite lookup_insert_Some. intros [[<- <-]|[_ Hr']]; [by intros [? _]; cbn in *|by apply Hfree].
      * intros Hfree r' m' Hr'. apply Hfree. rewrite lookup_insert_ne; [done|]. by apply not_eq_sym, (Hfresh r' m').
  - intros r' m'. rewrite lookup_insert_Some. intros [[<- <-]|[_ Hr']].
    + split; [done|rewrite Hslot; lia|by rewrite Hslot|]. intros d Hd. rewrite mapper_of_put, decide_True, Hslot by done. cbn [pde].
      rewrite Hpde, decide_True by lia. cbn [m_which m_phys m]. do 3 f_equal. lia.
    + destruct (mi_good _ _ _ H r' m' Hr') as [A1 A2 A3 A4]. split; [done..|]. intros d Hd. rewrite mapper_of_put.
      destruct (decide (m_which m' = w)) as [Ew|]; [|by apply A4]. cbn [pde]. pose proof (extra_range m'). rewrite Hpde by lia.
      rewrite decide_False; [rewrite <- Ew; by apply A4|]. rewrite <- Hcov. intros Hc.
      apply (Hnew r' m' (slot r' m' + d) Hr'); [lia|done|]. split; [done|lia].
  - intros r1 m1 r2 m2 w' k. rewrite !lookup_insert_Some.
    intros [[<- <-]|[_ H1]] [[<- <-]|[_ H2]] C1 C2; [done| | |by eapply mi_apart].
    + destruct C1 as [C1 C1']. cbn in C1. subst w'. destruct (mi_good _ _ _ H r2 m2 H2) as [_ A2 _ _]. destruct C2 as [C2 C2'].
      exfalso. apply (Hnew r2 m2 k H2); [lia|by apply Hcov; rewrite Hslot in C1'|done].
    + destruct C2 as [C2 C2']. cbn in C2. subst w'. destruct (mi_good _ _ _ H r1 m1 H1) as [_ A1 _ _]. destruct C1 as [C1 C1'].
      exfalso. apply (Hnew r1 m1 k H1); [lia|by apply Hcov; rewrite Hslot in C2'|done].
  - apply coherent_put; [apply H|]. intros k Hk Hno. cbn [pde]. rewrite Hpde by done. rewrite decide_False; [done|].
    intros Hc. apply Hno. unfold pages_of. rewrite Hslot. cbn [m_which m]. lia.
  - intros c t. rewrite tlbs_put. apply H.
Qed.

Lemma mm_removed r m pde' bmp' (w := m_which m) : M !! r = Some m →
  length pde' = 512%nat → bmp512_wf bmp' →
  (∀ k, 0 <= k < 512 → bmp512_bit bmp' k = bool_decide (slot r m <= k <= slot r m + extra m) || bmp512_bit (bmp (mapper_of w s)) k) →
  (∀ k, 0 <= k < 512 → ¬ (slot r m <= k <= slot r m + extra m) → pde' !! Z.to_nat k = pde (mapper_of w s) !! Z.to_nat k) →
  mm_inv (fun p => X p ∨ pages_of r m p) (put w (Mapper pde' bmp') s) (delete r M).
Proof using All.
  intros Hr Hlen Hwf Hbit Hpde. pose proof (mi_good _ _ _ H r m Hr) as [_ Hs _ _].
  assert (∀ r' m' k, M !! r' = Some m' → r' ≠ r → covers r' m' w k → ¬ (slot r m <= k <= slot r m + extra m)) as Hother.
  { intros r' m' k Hr' Hne' Hc Hk. apply Hne'. eapply mi_apart; [exact H|exact Hr'|exact Hr|exact Hc|by split]. }
  split.
  - intros w'. rewrite mapper_of_put. case_decide; [done|apply H].
  - intros w'. rewrite mapper_of_put. case_decide; [done|apply H].
  - intros w' k Hk. rewrite mapper_of_put. destruct (decide (w' = w)) as [->|Hw]; cbn [bmp].
    + rewrite (Hbit k Hk), orb_true_iff, bool_decide_eq_true, (mi_free _ _ _ H w k Hk). split.
      * intros [Hin|Hfree] r' m' [Hrr Hr']%lookup_delete_Some; [|by apply Hfree]. intros Hc. by apply (Hother r' m' k Hr' (not_eq_sym Hrr) Hc).
      * intros Hfree. destruct (decide (slot r m <= k <= slot r m + extra m)) as [|Hno]; [by left|right]. intros r' m' Hr'.
        destruct (decide (r' = r)) as [->|Hrr]; [rewrite Hr in Hr'; injection Hr' as <-; by intros [_ ?]|].
        apply (Hfree r' m'). by rewrite lookup_delete_ne.
    + rewrite (mi_free _ _ _ H w' k Hk). split.
      * intros Hfree r' m' [_ Hr']%lookup_delete_Some. by apply Hfree.
      * intros Hfree r' m' Hr'. destruct (decide (r' = r)) as [->|Hrr]; [rewrite Hr in Hr'; injection Hr' as <-; by intros [? _]|].
        apply (Hfree r' m'). by rewrite lookup_delete_ne.
  - intros r' m' [Hrr Hr']%lookup_delete_Some. destruct (mi_good _ _ _ H r' m' Hr') as [A1 A2 A3 A4]. split; [done..|].
    intros d Hd. rewrite mapper_of_put. destruct (decide (m_which m' = w)) as [Ew|]; [|by apply A4]. cbn [pde].
    rewrite Hpde; [rewrite <- Ew; by apply A4|lia|]. apply (Hother r' m' _ Hr'); [by apply not_eq_sym|]. split; [done|lia].
  - intros r1 m1 r2 m2 w' k [_ H1]%lookup_delete_Some [_ H2]%lookup_delete_Some. by eapply mi_apart.
  - apply coherent_put; [apply H|]. intros k Hk Hno. cbn [pde]. apply Hpde; [done|]. intros Hc. apply Hno.
    unfold pages_of, w in *. lia.
  - intros c t. rewrite tlbs_put. apply H.
Qed.
End Change.

(** A flush of the pages that changed. *)
Lemma mm_flushed X gone s s' M : mm_inv X s M → flushed gone s s' → (∀ c p, cpus c → X p → gone c p) → mm_inv (fun _ => False) s' M.
Proof.
  intros H F Hg. pose proof F as [F1 F2]. split; try (intros; rewrite ?F1; by apply H).
  - intros r m Hr. destruct (mi_good _ _ _ H r m Hr) as [A1 A2 A3 A4]. split; [done..|]. intros d Hd. rewrite F1. by apply A4.
  - apply H.
  - eapply coherent_flushed; [apply H|exact F|]. intros c t p Hc. apply Hg. by eapply H.
  - intros c t' Hc. destruct (F2 c t' Hc) as (t & Ht & _). by eapply H.
Qed.
Lemma mm_weaken (X Y : Z → Prop) s M : (∀ p, X p → Y p) → mm_inv X s M → mm_inv Y s M.
Proof.
  intros HXY [A B C D E F G]. split; try done. intros c t p e Hc Hp HY. apply (F c t p e Hc Hp). auto.
Qed.
End Inv.
