(* ===== verification/PagingCalls.v ===== *)
(** * PagingCalls: the routines keep the invariant *)

From S2P Require Import Prelude Std Bmp Vma Paging PagingInv.
From Stdlib Require Import ZArith Lia Bool.
From stdpp Require Import base gmap list numbers option.

Local Open Scope Z_scope.

(** ** The routines *)

Section Routines.
Context (this num_cpus : Z) (enabled : Z → bool) (multicore_initialized : bool).
Context (desc_addr : which → Z).
Context (Hal : ∀ w, desc_addr w mod 2 ^ 30 = 0) (Hlow : ∀ w, 0 < desc_addr w) (Hhigh : ∀ w, desc_addr w + 2 ^ 30 < 2 ^ 64).
Context (Hne : desc_addr Pfn ≠ desc_addr Io).
Local Abbreviation cpus := (reaches this num_cpus enabled multicore_initialized).
Local Abbreviation inv := (mm_inv desc_addr cpus).
Local Abbreviation settled := (inv (fun _ => False)).

Lemma inv_same (X : Z → Prop) s M w : inv X s M → inv X (put w (Mapper (pde (mapper_of w s)) (bmp (mapper_of w s))) s) M.
Proof.
  intros H. assert (Mapper (pde (mapper_of w s)) (bmp (mapper_of w s)) = mapper_of w s) as -> by by destruct (mapper_of w s).
  by rewrite put_same.
Qed.

(** No page of a directory is left. *)
Definition full (M : gmap Z mapping) (w : which) : Prop :=
  ∀ k, 0 <= k < 512 → ∃ r m, M !! r = Some m ∧ covers desc_addr r m w k.
Lemma all_used s M w : settled s M → (∀ k, 0 <= k < 512 → bmp512_bit (bmp (mapper_of w s)) k = false) → full M w.
Proof using.
  intros H Hb k Hk. destruct (decide (map_Exists (fun r m => covers desc_addr r m w k) M)) as [(r & m & Hr & Hc)|Hno]; [by exists r, m|].
  exfalso. specialize (Hb k Hk). rewrite (proj2 (mi_free _ _ _ _ _ H w k Hk)) in Hb; [done|].
  intros r m Hr Hc. apply Hno. by exists r, m.
Qed.

(** One page. *)
Lemma wp_map_pfn_noflush w pfn s M Q : settled s M → 0 <= pfn → pfn + 2 <= 2 ^ 30 →
  (∀ s', settled s' M → full M w → Q 0 s') →
  (∀ r s', let m := Mapping w (pfn * 2 ^ 21) in M !! r = None → r ≠ 0 → inv (pages_of desc_addr r m) s' (<[r := m]> M) → Q r s') →
  wp (map_pfn_noflush desc_addr w pfn) Q s.
Proof using Hal Hlow Hhigh Hne.
  intros H Hp0 Hp1 Hnone HQ. unfold map_pfn_noflush. apply wp_bind. unfold mget, wp at 1.
  pose proof (mi_wf _ _ _ _ _ H w) as Hwf. unfold bmp512_ffs_unset.
  destruct (bmp512_ffs_spec _ Hwf) as [[E Hfull]|(Hr & Hbit & _)].
  - rewrite E. apply wp_bind, wp_set_bmp. rewrite Z.eqb_refl. cbn [negb]. apply wp_ret, Hnone; [by apply inv_same|by apply (all_used s)].
  - set (i := bmp512_ffs (bmp (mapper_of w s))) in *. rewrite (proj2 (Z.eqb_neq i (-1))) by lia. cbn [negb].
    apply wp_bind, wp_set_bmp. apply wp_bind. rewrite remap_write.
    apply wp_write_pde; [done|rewrite mapper_of_put, decide_True by done; by apply H|]. rewrite put_put, mapper_of_put, decide_True by done.
    cbn [pde bmp]. apply wp_ret. set (m := Mapping w (pfn * 2 ^ 21)).
    assert (m_off m = 0) as Hoff by (unfold m_off; cbn; by rewrite Z.mod_mul).
    assert (extra m = 0) as Hx by (unfold extra; by rewrite decide_True).
    destruct (entry_page desc_addr Hal Hlow Hhigh w i (m_off m) Hr) as (_ & _ & _ & Hrange); [rewrite Hoff; lia|].
    assert (u64 (desc_addr w + i * PAGE_SIZE) = desc_addr w + i * 2 ^ 21 + m_off m) as ->.
    { unfold u64, PAGE_SIZE. rewrite Hoff in *. rewrite wrap_small; lia. }
    apply HQ; [|lia|].
    + apply (free_fresh desc_addr Hal Hlow Hhigh Hne cpus (fun _ => False) s); [done|done|rewrite Hoff; lia|done].
    + eapply mm_weaken; [|eapply (mm_added desc_addr Hal Hlow Hhigh Hne cpus _ s M H w i (pfn * 2 ^ 21))].
      * intros p [[]|Hp]. exact Hp.
      * lia.
      * lia.
      * lia.
      * fold m. lia.
      * fold m. rewrite Hx. intros k Hk. by replace k with i by lia.
      * rewrite length_insert. apply H.
      * by apply bmp512_unset_wf.
      * intros k Hk. fold m. rewrite Hx, bmp512_unset_bit by done. f_equal. f_equal. rewrite Z.eqb_sym. destruct (Z.eqb_spec k i); symmetry.
        -- apply bool_decide_eq_true. lia.
        -- apply bool_decide_eq_false. lia.
      * intros k Hk. fold m. rewrite Hx. pose proof (mi_len _ _ _ _ _ H w). case_decide as Hc.
        -- replace k with i by lia. rewrite list_lookup_insert_eq by lia. do 2 f_equal. rewrite Z.div_mul by lia. lia.
        -- apply list_lookup_insert_ne. lia.
Qed.

Lemma wp_unmap_pfn_noflush w va s Q : let i := pd_index_of va in 0 <= i < 512 → length (pde (mapper_of w s)) = 512%nat →
  Q tt (put w (Mapper (<[Z.to_nat i := 0]> (pde (mapper_of w s))) (bmp512_set (bmp (mapper_of w s)) i)) s) →
  wp (unmap_pfn_noflush w va) Q s.
Proof.
  intros i Hi Hl HQ. unfold unmap_pfn_noflush. cbv zeta. fold i. apply wp_bind. apply wp_write_pde; [done..|].
  apply wp_bind. unfold mget, wp at 1. apply wp_set_bmp. rewrite put_put, mapper_of_put, decide_True by done. exact HQ.
Qed.

(** Any address: one page, or two. *)
Lemma wp_map_phys_pg_noflush w phys s M Q : settled s M → 0 <= phys → phys + 2 ^ 22 <= 2 ^ 51 →
  (∀ s', settled s' M → (extra (Mapping w phys) = 0 → full M w) → Q 0 s') →
  (∀ r s', let m := Mapping w phys in M !! r = None → r ≠ 0 → inv (pages_of desc_addr r m) s' (<[r := m]> M) → Q r s') →
  wp (map_phys_pg_noflush desc_addr w phys) Q s.
Proof using Hal Hlow Hhigh Hne.
  intros H Hp0 Hp1 Hnone HQ. unfold map_phys_pg_noflush, PAGE_SHIFT, PAGE_SHIFT_2MB, PAGE_SIZE. rewrite Z.shiftr_div_pow2 by lia.
  assert (u32 (phys / 2 ^ 21) = phys / 2 ^ 21) as -> by (apply wrap_small; dlia).
  assert (u32 (phys mod 2 ^ 21) = phys mod 2 ^ 21) as -> by (apply wrap_small; dlia). cbv zeta.
  destruct (Z.eqb_spec (phys mod 2 ^ 21) 0) as [Hoff|Hoff].
  { assert (phys = phys / 2 ^ 21 * 2 ^ 21) as E by dlia.
    eapply (wp_map_pfn_noflush w (phys / 2 ^ 21) s M); [done|dlia|dlia|auto|]. cbv zeta. rewrite <- E. done. }
  apply wp_bind. unfold mget, wp at 1. pose proof (mi_wf _ _ _ _ _ H w) as Hwf. pose proof (mi_len _ _ _ _ _ H w) as Hlen.
  unfold bmp512_ffs2_unset2, bmp512_ffs2.
  destruct (bmp512_ffs2_loop_spec 513 0 (bmp (mapper_of w s)) (bmp (mapper_of w s))) as (i & E & Hi); [done|lia|lia|done|lia|].
  rewrite E. cbn [rbind]. destruct Hi as [->|(Hi & Hbit & Hbit2)].
  { rewrite Z.eqb_refl. cbn [negb]. apply wp_bind, wp_set_bmp, wp_ret, Hnone; [by apply inv_same|].
    unfold extra. rewrite decide_False by done. done. }
  rewrite (proj2 (Z.eqb_neq i (-1))) by lia. cbn [negb]. apply wp_bind, wp_set_bmp. rewrite !remap_write.
  apply wp_bind, wp_write_pde; [lia|by rewrite mapper_of_put, decide_True|]. rewrite put_put, mapper_of_put, decide_True by done. cbn [pde bmp].
  apply wp_bind, wp_write_pde; [lia|rewrite mapper_of_put, decide_True by done; cbn [pde]; by rewrite length_insert|].
  rewrite put_put, mapper_of_put, decide_True by done. cbn [pde bmp]. apply wp_ret. set (m := Mapping w phys).
  assert (extra m = 1) as Hx by (unfold extra; by rewrite decide_False). assert (0 <= phys mod 2 ^ 21 < 2 ^ 21) as Ho by dlia.
  destruct (entry_page desc_addr Hal Hlow Hhigh w i (phys mod 2 ^ 21) ltac:(lia) Ho) as (_ & _ & _ & Hrange). cbv zeta in Hrange.
  assert (u64 (u64 (desc_addr w + i * 2 ^ 21) + phys mod 2 ^ 21) = desc_addr w + i * 2 ^ 21 + phys mod 2 ^ 21) as ->.
  { pose proof (Hlow w). unfold u64. rewrite (wrap_small 64 (desc_addr w + _)), wrap_small; lia. }
  assert (u32 (phys / 2 ^ 21 + 1) = phys / 2 ^ 21 + 1) as -> by (apply wrap_small; dlia).
  apply HQ; [by apply (free_fresh desc_addr Hal Hlow Hhigh Hne cpus (fun _ => False) s); try done; lia|lia|].
  eapply mm_weaken; [|eapply (mm_added desc_addr Hal Hlow Hhigh Hne cpus _ s M H w i phys)].
  - intros p [[]|Hp]. exact Hp.
  - done.
  - done.
  - lia.
  - fold m. lia.
  - fold m. rewrite Hx. intros k Hk. assert (k = i ∨ k = i + 1) as [-> | ->] by lia; done.
  - by rewrite !length_insert.
  - by apply bmp512_unset_wf, bmp512_unset_wf.
  - intros k Hk. fold m. rewrite Hx. unfold bmp512_unset2. rewrite !bmp512_unset_bit by (done || lia || by apply bmp512_unset_wf).
    rewrite andb_assoc. f_equal. destruct (Z.eqb_spec (i + 1) k), (Z.eqb_spec i k); cbn [negb andb]; symmetry;
      (apply negb_true_iff, bool_decide_eq_false || apply negb_false_iff, bool_decide_eq_true); lia.
  - intros k Hk. fold m. rewrite Hx. case_decide as Hc.
    + destruct (decide (k = i + 1)) as [->|Hk1].
      * rewrite list_lookup_insert_eq by (rewrite length_insert; lia). do 2 f_equal. lia.
      * replace k with i by lia. rewrite list_lookup_insert_ne, list_lookup_insert_eq by lia. do 2 f_equal. lia.
    + rewrite !list_lookup_insert_ne by lia. done.
Qed.

(** Giving back what was handed out. *)
Lemma wp_unmap_phys_pg_noflush r m s M Q : settled s M → M !! r = Some m →
  (∀ s', inv (pages_of desc_addr r m) s' (delete r M) → Q tt s') → wp (unmap_phys_pg_noflush (m_which m) r) Q s.
Proof using Hal Hlow Hhigh Hne.
  intros H Hr HQ. pose proof (mi_good _ _ _ _ _ H r m Hr) as [_ Hs Ha _]. pose proof (extra_range m) as Hx.
  set (w := m_which m) in *. set (i := slot desc_addr r m) in *. assert (0 <= m_off m < 2 ^ 21) as Ho by (unfold m_off; dlia).
  pose proof (Hal w) as Hw. pose proof (Hlow w). pose proof (Hhigh w). pose proof (mi_len _ _ _ _ _ H w) as Hlen.
  pose proof (mi_wf _ _ _ _ _ H w) as Hwf.
  destruct (entry_page desc_addr Hal Hlow Hhigh w i 0 ltac:(lia) ltac:(lia)) as (_ & Hidx & _ & _). cbv zeta in Hidx. rewrite Z.add_0_r in Hidx.
  destruct (entry_page desc_addr Hal Hlow Hhigh w i (m_off m) ltac:(lia) Ho) as (_ & _ & Hmod & _). cbv zeta in Hmod. rewrite <- Ha in Hmod.
  unfold unmap_phys_pg_noflush, PAGE_SIZE. rewrite align_down_spec by lia. cbv zeta.
  assert (r / 2 ^ 21 * 2 ^ 21 = desc_addr w + i * 2 ^ 21) as -> by (change (2 ^ 30) with 1073741824 in *; dlia). rewrite Hmod.
  apply wp_bind, wp_unmap_pfn_noflush; cbv zeta; rewrite ?Hidx; [lia|done|].
  destruct (Z.eqb_spec (m_off m) 0) as [Hoff|Hoff]; cbn [negb].
  - assert (extra m = 0) as Ex by (unfold extra; by rewrite decide_True). apply wp_ret, HQ.
    eapply mm_weaken; [|eapply (mm_removed desc_addr Hal Hlow Hhigh Hne cpus _ s M H r m); try done].
    + intros p [[]|Hp]. exact Hp.
    + rewrite length_insert. done.
    + apply bmp512_set_wf; [lia|done].
    + intros k Hk. fold i. rewrite Ex, bmp512_set_bit by (done || lia). f_equal. destruct (Z.eqb_spec i k); symmetry;
        [apply bool_decide_eq_true|apply bool_decide_eq_false]; lia.
    + intros k Hk Hno. fold i in Hno. rewrite Ex in Hno. apply list_lookup_insert_ne. lia.
  - assert (extra m = 1) as Ex by (unfold extra; by rewrite decide_False).
    destruct (entry_page desc_addr Hal Hlow Hhigh w (i + 1) 0 ltac:(lia) ltac:(lia)) as (_ & Hidx1 & _ & _). cbv zeta in Hidx1.
    assert (u64 (desc_addr w + i * 2 ^ 21 + 2 ^ 21) = desc_addr w + (i + 1) * 2 ^ 21 + 0) as -> by (unfold u64; rewrite wrap_small; lia).
    apply wp_unmap_pfn_noflush; cbv zeta; rewrite ?Hidx1; [lia|rewrite mapper_of_put, decide_True by done; cbn [pde]; by rewrite length_insert|].
    rewrite put_put, mapper_of_put, decide_True by done. cbn [pde bmp]. apply HQ.
    eapply mm_weaken; [|eapply (mm_removed desc_addr Hal Hlow Hhigh Hne cpus _ s M H r m); try done].
    + intros p [[]|Hp]. exact Hp.
    + rewrite !length_insert. done.
    + apply bmp512_set_wf, bmp512_set_wf; [lia|lia|done].
    + intros k Hk. fold i. rewrite Ex, !bmp512_set_bit by (done || lia || by apply bmp512_set_wf; [lia|]). rewrite orb_assoc. f_equal.
      destruct (Z.eqb_spec (i + 1) k), (Z.eqb_spec i k); symmetry; (apply bool_decide_eq_true || apply bool_decide_eq_false); lia.
    + intros k Hk Hno. fold i in Hno. rewrite Ex in Hno. rewrite !list_lookup_insert_ne by lia. done.
Qed.

(** ** The routines that flush every processor *)

Definition mapped_at (M : gmap Z mapping) (m : mapping) (r : Z) (s' : mmu) : Prop :=
  (r = 0 ∧ settled s' M ∧ (extra m = 0 → full M (m_which m))) ∨ (M !! r = None ∧ r ≠ 0 ∧ settled s' (<[r := m]> M)).

(** The pages of a mapping, as the flushes name them. *)
Lemma mapping_range X s M r m : inv X s M → M !! r = Some m →
  let down := p2align_down r (2 ^ 21) in
  0 < r ∧ r + 2 ^ 21 < 2 ^ 64 ∧ u64 (r + 2 ^ 21) = r + 2 ^ 21 ∧ 0 <= down <= r ∧ page_of down = page_of r ∧
  p2align_down (r + 2 ^ 21) (2 ^ 21) = down + 2 ^ 21 ∧ p2align_up r (2 ^ 21) = down + extra m * 2 ^ 21 ∧
  ∀ k, page_of (down + k * 2 ^ 21) = page_of r + k ∧
  ∀ p, pages_of desc_addr r m p → page_of r <= p <= page_of r + extra m.
Proof using Hal Hlow Hhigh.
  intros H Hr down. pose proof (mi_good _ _ _ _ _ H r m Hr) as [_ Hs Ha _]. pose proof (extra_range m) as Hx.
  assert (0 <= m_off m < 2 ^ 21) as Ho by (unfold m_off; dlia). pose proof (Hal (m_which m)) as Hw. pose proof (Hhigh (m_which m)). pose proof (Hlow (m_which m)).
  destruct (entry_page desc_addr Hal Hlow Hhigh (m_which m) (slot desc_addr r m) (m_off m) ltac:(lia) Ho) as (Hpage & _ & Hmod & Hrange).
  cbv zeta in *. rewrite <- Ha in *. change (2 ^ 30) with 1073741824 in *.
  assert (r + 2 ^ 22 < 2 ^ 64) as Htop by dlia.
  unfold down. rewrite !align_down_spec by dlia. unfold page_of in *. rewrite !Z.shiftr_div_pow2 in * by lia.
  assert (p2align_up r (2 ^ 21) = r / 2 ^ 21 * 2 ^ 21 + extra m * 2 ^ 21) as ->.
  { rewrite align_up_spec by lia. unfold extra. case_decide; dlia. }
  split_and!; try done; try lia; try (unfold u64; rewrite wrap_small; dlia); try dlia.
  intros k. split; [rewrite Z.shiftr_div_pow2 by lia; dlia|]. intros p. unfold pages_of. rewrite <- Hpage. lia.
Qed.

Lemma wp_after_page X s M r Q : inv X s M → (∀ p, X p → p = page_of r) →
  (∀ s', settled s' M → Q tt s') → wp (flush_tlb_page_global this num_cpus enabled multicore_initialized r) Q s.
Proof.
  intros H HX HQ. apply wp_page_global. intros s' F. apply HQ. eapply mm_flushed; [exact H|exact F|].
  intros c p Hc Hp. split; [done|by apply HX].
Qed.
Lemma wp_after_range X s M first last Q : inv X s M → 0 <= first <= last → last < 2 ^ 64 →
  (∀ p, X p → page_of first <= p <= page_of last) → (∀ s', settled s' M → Q tt s') →
  wp (flush_tlb_range_global this num_cpus enabled multicore_initialized first last) Q s.
Proof.
  intros H Hf Hl HX HQ. apply wp_range_global; [done..|]. intros s' F. apply HQ. eapply mm_flushed; [exact H|exact F|].
  intros c p Hc Hp. split; [done|by apply HX].
Qed.
Lemma aligned_pages r m p : extra m = 0 → pages_of desc_addr r m p → p = page_of r.
Proof. intros Ex. unfold pages_of, slot. rewrite Ex. lia. Qed.
Lemma pfn_extra w pfn : extra (Mapping w (pfn * 2 ^ 21)) = 0.
Proof. unfold extra. rewrite decide_True; [done|]. unfold m_off. cbn. by rewrite Z.mod_mul. Qed.

Section Calls.
Context (s : mmu) (M : gmap Z mapping) (H : settled s M).

Lemma wp_map_pfn pfn : 0 <= pfn → pfn + 2 <= 2 ^ 30 →
  wp (map_pfn this num_cpus enabled multicore_initialized desc_addr pfn) (mapped_at M (Mapping Pfn (pfn * 2 ^ 21))) s.
Proof using H Hal Hlow Hhigh Hne.
  intros H0 H1. apply wp_bind. eapply (wp_map_pfn_noflush Pfn pfn s M); [done..| |].
  - intros s1 S1 F1. apply wp_bind. eapply (wp_after_page _ s1 M 0); [exact S1|done|]. intros s2 S2.
    apply wp_ret. by left.
  - cbv zeta. intros r s1 Hn Hr I1. apply wp_bind. eapply (wp_after_page _ s1 _ r); [exact I1| |].
    + intros p. apply aligned_pages, pfn_extra.
    + intros s2 S2. apply wp_ret. by right.
Qed.
Lemma wp_map_pfn_io pfn : 0 <= pfn → pfn + 2 <= 2 ^ 30 →
  wp (map_pfn_io this num_cpus enabled multicore_initialized desc_addr pfn) (mapped_at M (Mapping Io (pfn * 2 ^ 21))) s.
Proof using H Hal Hlow Hhigh Hne.
  intros H0 H1. apply wp_bind. eapply (wp_map_pfn_noflush Io pfn s M); [done..| |].
  - intros s1 S1 F1. apply wp_bind, wp_ret, wp_ret. by left.
  - cbv zeta. intros r s1 Hn Hr I1. rewrite (proj2 (Z.eqb_neq r 0)) by done. cbn [negb]. apply wp_bind.
    eapply (wp_after_page _ s1 _ r); [exact I1| |].
    + intros p. apply aligned_pages, pfn_extra.
    + intros s2 S2. apply wp_ret. by right.
Qed.
Lemma wp_map_phys_pg phys : 0 <= phys → phys + 2 ^ 22 <= 2 ^ 51 →
  wp (map_phys_pg this num_cpus enabled multicore_initialized desc_addr phys) (mapped_at M (Mapping Pfn phys)) s.
Proof using H Hal Hlow Hhigh Hne.
  intros H0 H1. apply wp_bind. eapply (wp_map_phys_pg_noflush Pfn phys s M); [done..| |].
  - intros s1 S1 F1. apply wp_bind, wp_ret, wp_ret. by left.
  - cbv zeta. intros r s1 Hn Hr I1. rewrite (proj2 (Z.eqb_neq r 0)) by done. cbn [negb]. apply wp_bind. unfold PAGE_SIZE.
    destruct (mapping_range _ s1 _ r _ I1 (lookup_insert_eq _ _ _)) as (R1 & R0 & R2 & R3 & R4 & R5 & _ & R7). cbv zeta in *.
    rewrite R2, R5. destruct (R7 1) as [Rp Rc]. pose proof (extra_range (Mapping Pfn phys)).
    eapply (wp_after_range _ s1); [exact I1|lia|lia| |intros s2 S2; apply wp_ret; by right].
    intros p Hp. apply Rc in Hp. rewrite R4. rewrite Z.mul_1_l in Rp. lia.
Qed.
Lemma wp_map_phys_pg_io phys : 0 <= phys → phys + 2 ^ 22 <= 2 ^ 51 →
  wp (map_phys_pg_io this num_cpus enabled multicore_initialized desc_addr phys) (mapped_at M (Mapping Io phys)) s.
Proof using H Hal Hlow Hhigh Hne.
  intros H0 H1. apply wp_bind. eapply (wp_map_phys_pg_noflush Io phys s M); [done..| |].
  - intros s1 S1 F1. apply wp_bind, wp_ret, wp_ret. by left.
  - cbv zeta. intros r s1 Hn Hr I1. rewrite (proj2 (Z.eqb_neq r 0)) by done. cbn [negb]. apply wp_bind. unfold PAGE_SIZE.
    destruct (mapping_range _ s1 _ r _ I1 (lookup_insert_eq _ _ _)) as (R1 & R0 & R2 & R3 & R4 & _ & R6 & R7). cbv zeta in *.
    destruct (R7 (extra (Mapping Io phys))) as [Rp Rc]. pose proof (extra_range (Mapping Io phys)). rewrite R6.
    eapply (wp_after_range _ s1); [exact I1|lia|lia| |intros s2 S2; apply wp_ret; by right].
    intros p Hp. apply Rc in Hp. rewrite R4, Rp. lia.
Qed.

(** Of a page that was mapped alone. *)
Lemma wp_unmap_one r m Q : M !! r = Some m → extra m = 0 →
  (∀ s', inv (pages_of desc_addr r m) s' (delete r M) → Q tt s') → wp (unmap_pfn_noflush (m_which m) r) Q s.
Proof using H Hal Hlow Hhigh Hne.
  intros Hr Ex HQ. apply wp_seq_ret. pose proof (wp_unmap_phys_pg_noflush r m s M Q H Hr HQ) as Hw.
  destruct (mapping_range _ s M r m H Hr) as (R1 & R0 & _ & R3 & R4 & R5 & R6 & _). cbv zeta in *.
  pose proof (mi_good _ _ _ _ _ H r m Hr) as [_ Hs Ha _].
  pose proof (extra_zero m Ex) as Hoff.
  destruct (entry_page desc_addr Hal Hlow Hhigh (m_which m) (slot desc_addr r m) (m_off m) ltac:(lia)) as (_ & _ & Hmod & _); [rewrite Hoff; lia|].
  cbv zeta in Hmod. rewrite <- Ha in Hmod. unfold unmap_phys_pg_noflush, PAGE_SIZE in Hw. rewrite Hmod, Hoff in Hw.
  rewrite align_down_spec in Hw by lia. replace (r / 2 ^ 21 * 2 ^ 21) with r in Hw by dlia. exact Hw.
Qed.
Lemma wp_unmap_pfn r m : M !! r = Some m → m_which m = Pfn → extra m = 0 →
  wp (unmap_pfn this num_cpus enabled multicore_initialized r) (fun _ s' => settled s' (delete r M)) s.
Proof using H Hal Hlow Hhigh Hne.
  intros Hr Ew Ex. apply wp_bind. change (__unmap_pfn_noflush r) with (unmap_pfn_noflush Pfn r). rewrite <- Ew.
  eapply wp_unmap_one; [done..|]. intros s1 I1. eapply wp_after_page; [exact I1| |done]. intros p. by apply aligned_pages.
Qed.
Lemma wp_unmap_pfn_io r m : M !! r = Some m → m_which m = Io → extra m = 0 →
  wp (unmap_pfn_io this num_cpus enabled multicore_initialized r) (fun _ s' => settled s' (delete r M)) s.
Proof using H Hal Hlow Hhigh Hne.
  intros Hr Ew Ex. apply wp_bind. change (__unmap_pfn_io_noflush r) with (unmap_pfn_noflush Io r). rewrite <- Ew.
  destruct (mapping_range _ s M r m H Hr) as (R1 & _).
  eapply wp_unmap_one; [done..|]. intros s1 I1. rewrite (proj2 (Z.eqb_neq r 0)) by lia. cbn [negb].
  eapply wp_after_page; [exact I1| |done]. intros p. by apply aligned_pages.
Qed.
Lemma wp_unmap_range r m : M !! r = Some m →
  wp (unmap_phys_pg_noflush (m_which m) r ;;;
      flush_tlb_range_global this num_cpus enabled multicore_initialized (p2align_down r PAGE_SIZE) (p2align_up r PAGE_SIZE))
    (fun _ s' => settled s' (delete r M)) s.
Proof using H Hal Hlow Hhigh Hne.
  intros Hr. destruct (mapping_range _ s M r m H Hr) as (R1 & R0 & _ & R3 & R4 & _ & R6 & R7). cbv zeta in *. unfold PAGE_SIZE.
  apply wp_bind. eapply (wp_unmap_phys_pg_noflush r m s M); [done..|]. intros s1 I1. destruct (R7 (extra m)) as [Rp Rc].
  pose proof (extra_range m). rewrite R6. eapply wp_after_range; [exact I1|lia|lia| |done]. intros p Hp. apply Rc in Hp. rewrite R4, Rp. lia.
Qed.
Lemma wp_unmap_phys_pg r m : M !! r = Some m → m_which m = Pfn →
  wp (unmap_phys_pg this num_cpus enabled multicore_initialized r) (fun _ s' => settled s' (delete r M)) s.
Proof using H Hal Hlow Hhigh Hne. intros Hr Ew. pose proof (wp_unmap_range r m Hr) as Hw. rewrite Ew in Hw. exact Hw. Qed.
Lemma wp_unmap_phys_pg_io r m : M !! r = Some m → m_which m = Io →
  wp (unmap_phys_pg_io this num_cpus enabled multicore_initialized r) (fun _ s' => settled s' (delete r M)) s.
Proof using H Hal Hlow Hhigh Hne. intros Hr Ew. pose proof (wp_unmap_range r m Hr) as Hw. rewrite Ew in Hw. exact Hw. Qed.

(** Another page at the same address. *)
Lemma wp_remap_pfn r m pfn : M !! r = Some m → m_which m = Pfn → extra m = 0 → 0 <= pfn → pfn + 2 <= 2 ^ 30 →
  wp (remap_pfn this num_cpus enabled multicore_initialized r pfn)
    (fun _ s' => settled s' (<[r := Mapping Pfn (pfn * 2 ^ 21)]> M)) s.
Proof using H Hal Hlow Hhigh Hne.
  intros Hr Ew Ex H0 H1. pose proof (mi_good _ _ _ _ _ H r m Hr) as [_ Hs Ha _]. set (i := slot desc_addr r m) in *.
  rewrite Ew in *. pose proof (extra_zero m Ex) as Hoff.
  destruct (entry_page desc_addr Hal Hlow Hhigh Pfn i 0 ltac:(lia) ltac:(lia)) as (_ & Hidx & _). cbv zeta in Hidx.
  rewrite Hoff in Ha. rewrite <- Ha in Hidx. pose proof (mi_len _ _ _ _ _ H Pfn) as Hlen. pose proof (mi_wf _ _ _ _ _ H Pfn) as Hwf.
  cbn [mapper_of] in *. apply wp_bind. change (__remap_pfn_noflush r pfn) with (write_pde Pfn (pd_index_of r) (pde_huge (flags_of Pfn) (u32 pfn))).
  rewrite Hidx. assert (u32 pfn = pfn) as -> by (apply wrap_small; lia).
  apply (wp_write_pde Pfn); [lia|done|]. cbn [mapper_of].
  set (pde' := <[Z.to_nat i := _]> (pde (pd_pfn s))).
  assert (settled s M) as Hset by exact H.
  pose proof (mm_removed desc_addr Hal Hlow Hhigh Hne cpus _ s M H r m (pde (pd_pfn s)) (bmp512_set (bmp (pd_pfn s)) i) Hr) as Hrem.
  rewrite Ew, Ex in Hrem. fold i in Hrem. cbn [mapper_of] in Hrem.
  assert (mm_inv desc_addr cpus (fun p => False ∨ pages_of desc_addr r m p)
    (put Pfn (Mapper (pde (pd_pfn s)) (bmp512_set (bmp (pd_pfn s)) i)) s) (delete r M)) as I1.
  { apply Hrem; [done|apply bmp512_set_wf; [lia|done]| |done]. intros k Hk. rewrite bmp512_set_bit by (done || lia). f_equal.
    destruct (Z.eqb_spec i k); symmetry; [apply bool_decide_eq_true|apply bool_decide_eq_false]; lia. }
  assert (bmp512_bit (bmp (pd_pfn s)) i = false) as Hused.
  { apply not_true_iff_false. intros Hb. apply (proj1 (mi_free _ _ _ _ _ H Pfn i ltac:(lia)) Hb r m Hr). split; [done|]. fold i. lia. }
  pose proof (mm_added desc_addr Hal Hlow Hhigh Hne cpus _ _ _ I1 Pfn i (pfn * 2 ^ 21) pde' (bmp (pd_pfn s))) as Hadd.
  cbv zeta in Hadd. rewrite pfn_extra, put_put, Z.mod_mul in Hadd by lia. rewrite <- Ha, insert_delete_eq in Hadd. cbn [mapper_of put pde bmp pd_pfn] in Hadd.
  eapply wp_after_page; [apply Hadd| |done].
  - lia.
  - lia.
  - lia.
  - lia.
  - intros k Hk. replace k with i by lia. rewrite bmp512_set_bit by (done || lia). by rewrite Z.eqb_refl.
  - unfold pde'. by rewrite length_insert.
  - done.
  - intros k Hk. rewrite bmp512_set_bit by (done || lia). destruct (decide (k = i)) as [->|Hki].
    + by rewrite bool_decide_true by lia.
    + rewrite bool_decide_false, (proj2 (Z.eqb_neq i k)) by lia. done.
  - intros k Hk. unfold pde'. case_decide as Hc.
    + replace k with i by lia. rewrite list_lookup_insert_eq by lia. do 2 f_equal. rewrite Z.div_mul by lia. lia.
    + apply list_lookup_insert_ne. lia.
  - cbv beta. intros p [[[]|Hp]|Hp]; [by eapply aligned_pages|]. eapply aligned_pages; [|exact Hp]. apply pfn_extra.
Qed.
End Calls.
End Routines.
