(* ===== verification/PagingSpec.v ===== *)
(** * PagingSpec: what temporary mappings promise

    Any sequence of calls, with processors that cache translations between
    them; the walk of the processor through the tables that Vma has linked;
    and the routines that flush too little. *)

From S2P Require Import Prelude Std Bmp Vma Paging PagingInv PagingCalls.
From Stdlib Require Import ZArith Lia Bool.
From stdpp Require Import base gmap list numbers option relations.

Local Open Scope Z_scope.

(** ** Any sequence of calls *)

Section Client.
Context (this num_cpus : Z) (enabled : Z → bool) (multicore_initialized : bool) (desc_addr : which → Z).
Local Abbreviation mappings := (gmap Z mapping).

Definition handed_out (r : Z) (m : mapping) (G : mappings) : mappings := if r =? 0 then G else <[r := m]> G.
(** A page frame that an entry can hold, and the one behind it. *)
Definition pfn_ok (pfn : Z) : Prop := 0 <= pfn ∧ pfn + 2 <= 2 ^ 30.
Definition phys_ok (phys : Z) : Prop := 0 <= phys ∧ phys + 2 ^ 22 <= 2 ^ 51.

(** Calls that return, and processors that cache what they find. *)
Inductive mm_step : mmu * mappings → mmu * mappings → Prop :=
  | mm_map_pfn s G pfn r s' : pfn_ok pfn →
      map_pfn this num_cpus enabled multicore_initialized desc_addr pfn s = Ok (r, s') →
      mm_step (s, G) (s', handed_out r (Mapping Pfn (pfn * 2 ^ 21)) G)
  | mm_map_pfn_io s G pfn r s' : pfn_ok pfn →
      map_pfn_io this num_cpus enabled multicore_initialized desc_addr pfn s = Ok (r, s') →
      mm_step (s, G) (s', handed_out r (Mapping Io (pfn * 2 ^ 21)) G)
  | mm_map_phys_pg s G phys r s' : phys_ok phys →
      map_phys_pg this num_cpus enabled multicore_initialized desc_addr phys s = Ok (r, s') →
      mm_step (s, G) (s', handed_out r (Mapping Pfn phys) G)
  | mm_map_phys_pg_io s G phys r s' : phys_ok phys →
      map_phys_pg_io this num_cpus enabled multicore_initialized desc_addr phys s = Ok (r, s') →
      mm_step (s, G) (s', handed_out r (Mapping Io phys) G)
  | mm_unmap_pfn s G r m s' : G !! r = Some m → m_which m = Pfn → extra m = 0 →
      unmap_pfn this num_cpus enabled multicore_initialized r s = Ok (tt, s') → mm_step (s, G) (s', delete r G)
  | mm_unmap_pfn_io s G r m s' : G !! r = Some m → m_which m = Io → extra m = 0 →
      unmap_pfn_io this num_cpus enabled multicore_initialized r s = Ok (tt, s') → mm_step (s, G) (s', delete r G)
  | mm_unmap_phys_pg s G r m s' : G !! r = Some m → m_which m = Pfn →
      unmap_phys_pg this num_cpus enabled multicore_initialized r s = Ok (tt, s') → mm_step (s, G) (s', delete r G)
  | mm_unmap_phys_pg_io s G r m s' : G !! r = Some m → m_which m = Io →
      unmap_phys_pg_io this num_cpus enabled multicore_initialized r s = Ok (tt, s') → mm_step (s, G) (s', delete r G)
  | mm_remap_pfn s G r m pfn s' : G !! r = Some m → m_which m = Pfn → extra m = 0 → pfn_ok pfn →
      remap_pfn this num_cpus enabled multicore_initialized r pfn s = Ok (tt, s') →
      mm_step (s, G) (s', <[r := Mapping Pfn (pfn * 2 ^ 21)]> G)
  | mm_cache s G c t p e : tlbs s !! c = Some t → pde_of desc_addr s p = Some e → present e = true →
      mm_step (s, G) (Mmu (pd_pfn s) (pd_pfn_io s) (<[c := <[p := e]> t]> (tlbs s)), G).

Context (Hal : ∀ w, desc_addr w mod 2 ^ 30 = 0) (Hlow : ∀ w, 0 < desc_addr w) (Hhigh : ∀ w, desc_addr w + 2 ^ 30 < 2 ^ 64).
Context (Hne : desc_addr Pfn ≠ desc_addr Io).
Local Abbreviation settled := (mm_inv desc_addr (reaches this num_cpus enabled multicore_initialized) (fun _ => False)).

Lemma mapped_handed G m r s' : mapped_at this num_cpus enabled multicore_initialized desc_addr G m r s' → settled s' (handed_out r m G).
Proof.
  intros [(-> & H & _)|(_ & Hr & H)]; unfold handed_out; [done|]. by rewrite (proj2 (Z.eqb_neq r 0)).
Qed.
Lemma mm_step_settled x y : settled x.1 x.2 → mm_step x y → settled y.1 y.2.
Proof using Hal Hlow Hhigh Hne.
  intros H Hstep.
  destruct Hstep as [s G pfn r s' [P0 P1] E|s G pfn r s' [P0 P1] E|s G phys r s' [P0 P1] E|s G phys r s' [P0 P1] E
    |s G r m s' Hr Ew Ex E|s G r m s' Hr Ew Ex E|s G r m s' Hr Ew E|s G r m s' Hr Ew E|s G r m pfn s' Hr Ew Ex [P0 P1] E|s G c t p e Hc Hp Hpr];
    cbn [fst snd] in *.
  - apply mapped_handed. eapply wp_at; [by apply wp_map_pfn|exact E].
  - apply mapped_handed. eapply wp_at; [by apply wp_map_pfn_io|exact E].
  - apply mapped_handed. eapply wp_at; [by apply wp_map_phys_pg|exact E].
  - apply mapped_handed. eapply wp_at; [by apply wp_map_phys_pg_io|exact E].
  - eapply (wp_at _ (fun _ s' => settled s' (delete r G))); [by eapply wp_unmap_pfn|exact E].
  - eapply (wp_at _ (fun _ s' => settled s' (delete r G))); [by eapply wp_unmap_pfn_io|exact E].
  - eapply (wp_at _ (fun _ s' => settled s' (delete r G))); [by eapply wp_unmap_phys_pg|exact E].
  - eapply (wp_at _ (fun _ s' => settled s' (delete r G))); [by eapply wp_unmap_phys_pg_io|exact E].
  - eapply (wp_at _ (fun _ s' => settled s' (<[r := Mapping Pfn (pfn * 2 ^ 21)]> G))); [by eapply wp_remap_pfn|exact E].
  - destruct H as [A1 A2 A3 A4 A5 A6 A7]. split; try done.
    + intros r m Hr. destruct (A4 r m Hr). by split.
    + intros c' t' p' e'. cbn [tlbs]. rewrite lookup_insert_Some. intros [[<- <-]|[Hcc Hc']] Hp' HX.
      * rewrite lookup_insert_Some in Hp'. destruct Hp' as [[<- <-]|[_ Hp']]; [done|]. by apply (A6 c t).
      * by apply (A6 c' t').
    + intros c' t'. cbn [tlbs]. rewrite lookup_insert_Some. intros [[<- _]|[_ Hc']]; by eapply A7.
Qed.
Lemma mm_steps_settled x y : settled x.1 x.2 → rtc mm_step x y → settled y.1 y.2.
Proof using Hal Hlow Hhigh Hne. intros H Hr. induction Hr as [|x y z Hxy _ IH]; [done|]. by eapply IH, mm_step_settled. Qed.

(** The state at the start: empty directories, nothing cached. *)
Definition unmapped (s : mmu) : Prop :=
  (∀ w, pde (mapper_of w s) = replicate 512 0) ∧ ∀ c t, tlbs s !! c = Some t → reaches this num_cpus enabled multicore_initialized c ∧ t = ∅.
Lemma init_settled s : unmapped s → ∃ s', init_mappers 1 1 s = Ok (tt, s') ∧ settled s' ∅.
Proof.
  intros [Hp Ht]. eexists. split; [reflexivity|]. split; cbn.
  - intros w. pose proof (Hp w) as E. destruct w; cbn in *; by rewrite E.
  - intros []; apply bmp512_set_all_wf.
  - intros w k Hk. destruct w; cbn; rewrite bmp512_set_all_bit by done; done.
  - done.
  - done.
  - intros c t p e Hc Hpe. destruct (Ht c t Hc) as [_ ->]. done.
  - intros c t Hc. by destruct (Ht c t Hc).
Qed.

(** A live mapping is found by every processor. *)
Lemma settled_entry s G r m k : settled s G → G !! r = Some m → 0 <= k < 2 ^ 21 →
  ∃ d, 0 <= d <= extra m ∧ page_of (r + k) = base_page desc_addr (m_which m) + (slot desc_addr r m + d) ∧
    pd_index_of (r + k) = slot desc_addr r m + d ∧
    desc_addr (m_which m) <= r + k < desc_addr (m_which m) + 2 ^ 30 ∧
    pde_of desc_addr s (page_of (r + k)) = Some (pde_huge (flags_of (m_which m)) (m_phys m / 2 ^ 21 + d)) ∧
    (m_phys m / 2 ^ 21 + d) * 2 ^ 21 + (r + k) mod 2 ^ 21 = m_phys m + k ∧ 0 <= m_phys m / 2 ^ 21 + d < 2 ^ 30.
Proof using Hal Hlow Hhigh Hne.
  intros H Hr Hk. destruct (mi_good _ _ _ _ _ H r m Hr) as [Hph Hs Ha Hp]. set (w := m_which m) in *. set (i := slot desc_addr r m) in *.
  pose proof (extra_range m) as Hx. assert (0 <= m_off m < 2 ^ 21) as Ho by (unfold m_off; dlia).
  assert (m_phys m = m_phys m / 2 ^ 21 * 2 ^ 21 + m_off m) as Eph by (unfold m_off; dlia).
  set (d := (m_off m + k) / 2 ^ 21).
  assert (0 <= d <= extra m) as Hd.
  { unfold d. destruct (decide (m_off m = 0)) as [E|]; [rewrite E, Z.add_0_l, Z.div_small by done; lia|].
    assert (extra m = 1) as -> by (unfold extra; by rewrite decide_False). dlia. }
  assert (m_off m + k = d * 2 ^ 21 + (m_off m + k) mod 2 ^ 21) as Ek by (unfold d; dlia).
  destruct (entry_page desc_addr Hal Hlow Hhigh w (i + d) ((m_off m + k) mod 2 ^ 21) ltac:(lia) ltac:(dlia)) as (E1 & E2 & E3 & _).
  cbv zeta in *. assert (r + k = desc_addr w + (i + d) * 2 ^ 21 + (m_off m + k) mod 2 ^ 21) as Er by lia. rewrite <- Er in *.
  exists d. split; [done|]. split; [done|]. split; [done|]. split; [pose proof (Z.mod_pos_bound (m_off m + k) (2 ^ 21)); lia|].
  split; [rewrite E1, (pde_of_page desc_addr Hal Hne) by lia; by apply Hp|]. split; [lia|]. dlia.
Qed.
End Client.

(** ** The whole walk *)

(** The two directories of the mappers among the tickets of the registry. *)
Record mapper_tickets (NUM_PDPTS : Z) (ts : list vma_partition_ticket) (tk : which → vma_partition_ticket) (place : which → Z) : Prop := {
  mt_placed : ∀ w, (tk w, place w, 1) ∈ placing NUM_PDPTS ts 0;
  mt_apart : tk Pfn ≠ tk Io;
  mt_phys : table_phys (tk Pfn) ≠ table_phys (tk Io);
}.

(** What a processor reaches at [va]: through what it has cached, or through
    the tables from the root on. *)
Definition reach (intm_phys : Z) (vm : vma) (tk : which → vma_partition_ticket) (s : mmu) (cpu va : Z) : option Z :=
  e ← (match tlbs s !! cpu ≫= (.!! page_of va) with
       | Some e => Some e
       | None =>
           pd ← walk intm_phys vm va;
           let dir := if decide (pd = table_phys (tk Pfn)) then Some (pd_pfn s)
                      else if decide (pd = table_phys (tk Io)) then Some (pd_pfn_io s) else None in
           m ← dir; pde m !! Z.to_nat (pd_index_of va)
       end);
  guard (present e);; Some (page_frame e + va mod 2 ^ 21).

Section Whole.
Context (NUM_PDPTS intm_phys : Z) (ts : list vma_partition_ticket) (vm0 : vma) (tk : which → vma_partition_ticket) (place : which → Z).
Context (Hintm : intm_ok NUM_PDPTS intm_phys) (Hnum : NUM_PDPTS <= 510) (Hvm : unparsed NUM_PDPTS vm0).
Context (Hts : Forall ticket_ok ts) (Hnd : NoDup (map descriptor ts)) (Htk : mapper_tickets NUM_PDPTS ts tk place).
Local Abbreviation desc_addr := (fun w => dir_va (place w)).

Lemma whole_space : ∃ vm, vma_parser_init NUM_PDPTS intm_phys ts vm0 = Ok (tt, vm) ∧
  (∀ w, descriptors vm !! descriptor (tk w) = Some (filled (place w) 1)) ∧
  (∀ w va, desc_addr w <= va < desc_addr w + 2 ^ 30 → walk intm_phys vm va = Some (table_phys (tk w))) ∧
  (∀ w, 0 <= place w < NUM_PDPTS * 512).
Proof using Hintm Hvm Hts Hnd Htk.
  destruct (parser_places NUM_PDPTS intm_phys ts vm0 Hintm Hvm Hts Hnd) as (vm & E & H & _). exists vm. split; [done|].
  split_and!.
  - intros w. by destruct (H _ _ _ (mt_placed _ _ _ _ Htk w)).
  - intros w va Hva. destruct (H _ _ _ (mt_placed _ _ _ _ Htk w)) as [_ Hw].
    destruct (Hw 0 (va - dir_va (place w)) ltac:(lia) ltac:(lia)) as (_ & _ & Hwalk). rewrite !Z.add_0_r in Hwalk.
    by replace (dir_va (place w) + (va - dir_va (place w))) with va in Hwalk by lia.
  - intros w. destruct (H _ _ _ (mt_placed _ _ _ _ Htk w)) as [_ Hw]. destruct (Hw 0 0 ltac:(lia) ltac:(lia)) as (? & ? & _). lia.
Qed.
Lemma whole_addresses : (∀ w, 0 <= place w < NUM_PDPTS * 512) →
  (∀ w, desc_addr w mod 2 ^ 30 = 0) ∧ (∀ w, 0 < desc_addr w) ∧ (∀ w, desc_addr w + 2 ^ 30 < 2 ^ 64) ∧ desc_addr Pfn ≠ desc_addr Io.
Proof using Hintm Hnum Hts Htk.
  intros Hp. destruct Hintm as (Hn & _). change (2 ^ 30) with 1073741824.
  assert (place Pfn ≠ place Io) as Hpp.
  { destruct (placing_apart NUM_PDPTS ts 0 _ _ _ _ _ _ Hts ltac:(unfold MAX_VMA_PARTITIONS; lia)
      (mt_placed _ _ _ _ Htk Pfn) (mt_placed _ _ _ _ Htk Io)) as [E|?]; [by destruct (mt_apart _ _ _ _ Htk)|lia]. }
  split_and!.
  - intros w. specialize (Hp w). rewrite dir_va_sum by lia. destruct (_ <=? _); dlia.
  - intros w. specialize (Hp w). rewrite dir_va_sum by lia. destruct (_ <=? _); lia.
  - intros w. specialize (Hp w). rewrite dir_va_sum by lia. destruct (_ <=? _); lia.
  - pose proof (Hp Pfn). pose proof (Hp Io). rewrite !dir_va_sum by lia.
    destruct (Z.leb_spec (255 * 512) (place Pfn)), (Z.leb_spec (255 * 512) (place Io)); lia.
Qed.
End Whole.

(** Live mappings, and what processors reach at them. *)
Definition mappings_hold (reach : mmu → Z → Z → option Z) (s : mmu) (G : gmap Z mapping) : Prop :=
  (∀ r m cpu k, G !! r = Some m → 0 <= k < PAGE_SIZE → reach s cpu (r + k) = Some (m_phys m + k)) ∧
  (∀ r m r' m', G !! r = Some m → G !! r' = Some m' → r = r' ∨ r + PAGE_SIZE <= r' ∨ r' + PAGE_SIZE <= r).

Section Hold.
Context (this num_cpus : Z) (enabled : Z → bool) (multicore_initialized : bool) (desc_addr : which → Z).
Context (Hal : ∀ w, desc_addr w mod 2 ^ 30 = 0) (Hlow : ∀ w, 0 < desc_addr w) (Hhigh : ∀ w, desc_addr w + 2 ^ 30 < 2 ^ 64).
Context (Hne : desc_addr Pfn ≠ desc_addr Io).
Context (intm_phys : Z) (vm : vma) (tk : which → vma_partition_ticket) (Htk : table_phys (tk Pfn) ≠ table_phys (tk Io)).
Context (Hwalk : ∀ w va, desc_addr w <= va < desc_addr w + 2 ^ 30 → walk intm_phys vm va = Some (table_phys (tk w))).
Context (s : mmu) (G : gmap Z mapping).
Context (H : mm_inv desc_addr (reaches this num_cpus enabled multicore_initialized) (fun _ => False) s G).

Lemma settled_reach r m cpu k : G !! r = Some m → 0 <= k < PAGE_SIZE → reach intm_phys vm tk s cpu (r + k) = Some (m_phys m + k).
Proof using All.
  intros Hr Hk. destruct (settled_entry this num_cpus enabled multicore_initialized desc_addr Hal Hlow Hhigh Hne s G r m k H Hr Hk)
    as (d & Hd & Hpage & Hidx & Hva & Hpde & Hph & Hpfn).
  set (e := pde_huge (flags_of (m_which m)) (m_phys m / 2 ^ 21 + d)) in *. set (va := r + k) in *.
  assert (∀ e', e' = e → (guard (present e');; Some (page_frame e' + va mod 2 ^ 21)) = Some (m_phys m + k)) as Hdone.
  { intros e' ->. unfold e. rewrite pde_huge_present, pde_huge_frame by done. case_guard; [|done]. cbn. by rewrite Hph. }
  unfold reach. destruct (tlbs s !! cpu ≫= (.!! page_of va)) as [e'|] eqn:Et.
  - cbn [mbind option_bind]. apply Hdone. apply bind_Some in Et as (t & Hc & Hp).
    destruct (mi_coh _ _ _ _ _ H cpu t _ e' Hc Hp) as [E _]; [tauto|]. congruence.
  - rewrite (Hwalk (m_which m) va Hva). cbn [mbind option_bind]. cbv zeta.
    destruct (mi_good _ _ _ _ _ H r m Hr) as [_ _ _ Hgo].
    destruct (m_which m) eqn:Ew.
    + rewrite decide_True by done. cbn [mbind option_bind]. rewrite Hidx. cbn [mapper_of] in Hgo. rewrite (Hgo d Hd). by apply Hdone.
    + rewrite decide_False by done. rewrite decide_True by done. cbn [mbind option_bind]. rewrite Hidx. cbn [mapper_of] in Hgo.
      rewrite (Hgo d Hd). by apply Hdone.
Qed.
Lemma settled_hold : mappings_hold (reach intm_phys vm tk) s G.
Proof using All.
  split; [intros r m cpu k; apply settled_reach|]. intros r m r' m' Hr Hr'.
  destruct (decide (r + PAGE_SIZE <= r')); [tauto|]. destruct (decide (r' + PAGE_SIZE <= r)); [tauto|]. left.
  set (a := Z.max r r'). unfold PAGE_SIZE in *.
  destruct (settled_entry this num_cpus enabled multicore_initialized desc_addr Hal Hlow Hhigh Hne s G r m (a - r) H Hr ltac:(lia))
    as (d & Hd & Hpage & _).
  destruct (settled_entry this num_cpus enabled multicore_initialized desc_addr Hal Hlow Hhigh Hne s G r' m' (a - r') H Hr' ltac:(lia))
    as (d' & Hd' & Hpage' & _).
  replace (r + (a - r)) with a in Hpage by lia. replace (r' + (a - r')) with a in Hpage' by lia.
  destruct (mi_good _ _ _ _ _ H r m Hr) as [_ Hs _ _]. destruct (mi_good _ _ _ _ _ H r' m' Hr') as [_ Hs' _ _].
  assert (m_which m = m_which m') as Ew by (apply (base_pages desc_addr Hal Hne _ _ (page_of a)); lia).
  apply (mi_apart _ _ _ _ _ H r m r' m' (m_which m) (slot desc_addr r m + d)); [done|done|split; [done|lia]|].
  split; [done|]. rewrite Ew in Hpage. lia.
Qed.
End Hold.

(** Every call returns: a mapping is refused only where no page of its directory
    is left (for an address inside a page, which takes two, it may be refused
    before that), and what is live can be unmapped and mapped anew. *)
Definition calls_return (this num_cpus : Z) (enabled : Z → bool) (multicore_initialized : bool) (desc_addr : which → Z)
    (s : mmu) (G : gmap Z mapping) : Prop :=
  let served (call : P Z) m := ∃ r s', call s = Ok (r, s') ∧ (r = 0 → extra m = 0 → full desc_addr G (m_which m)) in
  let done (call : P unit) := ∃ s', call s = Ok (tt, s') in
  (∀ pfn, pfn_ok pfn →
    served (map_pfn this num_cpus enabled multicore_initialized desc_addr pfn) (Mapping Pfn (pfn * 2 ^ 21)) ∧
    served (map_pfn_io this num_cpus enabled multicore_initialized desc_addr pfn) (Mapping Io (pfn * 2 ^ 21))) ∧
  (∀ phys, phys_ok phys →
    served (map_phys_pg this num_cpus enabled multicore_initialized desc_addr phys) (Mapping Pfn phys) ∧
    served (map_phys_pg_io this num_cpus enabled multicore_initialized desc_addr phys) (Mapping Io phys)) ∧
  ∀ r m, G !! r = Some m → match m_which m with
    | Pfn => done (unmap_phys_pg this num_cpus enabled multicore_initialized r) ∧
        (extra m = 0 → done (unmap_pfn this num_cpus enabled multicore_initialized r) ∧
           ∀ pfn, pfn_ok pfn → done (remap_pfn this num_cpus enabled multicore_initialized r pfn))
    | Io => done (unmap_phys_pg_io this num_cpus enabled multicore_initialized r) ∧
        (extra m = 0 → done (unmap_pfn_io this num_cpus enabled multicore_initialized r))
    end.

Section Return.
Context (this num_cpus : Z) (enabled : Z → bool) (multicore_initialized : bool) (desc_addr : which → Z).
Context (Hal : ∀ w, desc_addr w mod 2 ^ 30 = 0) (Hlow : ∀ w, 0 < desc_addr w) (Hhigh : ∀ w, desc_addr w + 2 ^ 30 < 2 ^ 64).
Context (Hne : desc_addr Pfn ≠ desc_addr Io).

Lemma mapped_served (call : P Z) G m s : wp call (mapped_at this num_cpus enabled multicore_initialized desc_addr G m) s →
  ∃ r s', call s = Ok (r, s') ∧ (r = 0 → extra m = 0 → full desc_addr G (m_which m)).
Proof.
  intros H. apply wp_run in H as (r & s' & E & Q). exists r, s'. split; [done|]. intros ->. by destruct Q as [(_ & _ & Hf)|(_ & ? & _)].
Qed.
Lemma wp_returns (call : P unit) (Q : unit → mmu → Prop) s : wp call Q s → ∃ s', call s = Ok (tt, s').
Proof. intros H. apply wp_run in H as ([] & s' & E & _). by exists s'. Qed.

Lemma settled_return s G : mm_inv desc_addr (reaches this num_cpus enabled multicore_initialized) (fun _ => False) s G →
  calls_return this num_cpus enabled multicore_initialized desc_addr s G.
Proof using Hal Hlow Hhigh Hne.
  intros H. unfold calls_return. cbv zeta. split_and!.
  - intros pfn [P0 P1]. split; apply mapped_served; [by apply wp_map_pfn|by apply wp_map_pfn_io].
  - intros phys [P0 P1]. split; apply mapped_served; [by apply wp_map_phys_pg|by apply wp_map_phys_pg_io].
  - intros r m Hr. destruct (m_which m) eqn:Ew; split.
    + eapply wp_returns, wp_unmap_phys_pg; done.
    + intros Hx. split; [eapply wp_returns, wp_unmap_pfn; done|]. intros pfn [P0 P1]. eapply wp_returns, wp_remap_pfn; done.
    + eapply wp_returns, wp_unmap_phys_pg_io; done.
    + intros Hx. eapply wp_returns, wp_unmap_pfn_io; done.
Qed.
End Return.

(** C18. The temporary mappings of the kernel: after the parser of the registry
    has linked the directories of the two mappers and [init_mappers] has run,
    any sequence of the calls that map and unmap (those that flush every
    processor, on page frames and addresses that an entry can hold; pages are
    given back, and single pages mapped anew, by the routines of the mapper
    they came from), with processors that cache translations at any time
    between the calls, leaves every live mapping right for every processor: at
    each address of its 2 MB the walk through the tables, or what is cached of
    it, gives the address that was asked for; no two mappings share an
    address; every call returns, and one for a whole page is refused only when
    every page of its directory is in use.  (For a registry of at most 510
    tables of page directories, at aligned addresses and with descriptors of
    their own, in which each of the two mappers has a ticket for one
    directory; empty tables and nothing cached at the start; processors that
    cache are those that the broadcast of a flush reaches, and its handlers
    have run when the call that waits for them returns.) *)
Theorem kernel_mappings_hold NUM_PDPTS intm_phys ts vm0 tk place this num_cpus enabled multicore_initialized s0 :
  intm_ok NUM_PDPTS intm_phys → NUM_PDPTS <= 510 → unparsed NUM_PDPTS vm0 → Forall ticket_ok ts → NoDup (map descriptor ts) →
  mapper_tickets NUM_PDPTS ts tk place → unmapped this num_cpus enabled multicore_initialized s0 →
  ∃ vm s1, vma_parser_init NUM_PDPTS intm_phys ts vm0 = Ok (tt, vm) ∧ init_mappers 1 1 s0 = Ok (tt, s1) ∧
    (∀ w, descriptors vm !! descriptor (tk w) = Some (filled (place w) 1)) ∧
    ∀ s G, rtc (mm_step this num_cpus enabled multicore_initialized (fun w => addr (filled (place w) 1))) (s1, ∅) (s, G) →
      mappings_hold (reach intm_phys vm tk) s G ∧
      calls_return this num_cpus enabled multicore_initialized (fun w => addr (filled (place w) 1)) s G.
Proof.
  intros Hintm Hnum Hvm Hts Hnd Htk Hs0. destruct (whole_space NUM_PDPTS intm_phys ts vm0 tk place Hintm Hvm Hts Hnd Htk) as (vm & E & Hd & Hw & Hp).
  destruct (whole_addresses NUM_PDPTS intm_phys ts tk place Hintm Hnum Hts Htk Hp) as (A1 & A2 & A3 & A4).
  destruct (init_settled this num_cpus enabled multicore_initialized (fun w => dir_va (place w)) s0 Hs0) as (s1 & E1 & H1).
  exists vm, s1. split; [done|]. split; [done|]. split; [done|]. intros s G Hr.
  pose proof (mm_steps_settled this num_cpus enabled multicore_initialized _ A1 A2 A3 A4 (s1, ∅) (s, G) H1 Hr) as H2.
  split; [|by apply settled_return].
  eapply settled_hold; [exact A1|exact A2|exact A3|exact A4|exact (mt_phys _ _ _ _ Htk)|exact Hw|exact H2].
Qed.

(** ** A machine of two processors *)

Definition ex_enabled (i : Z) : bool := i <? 2.
Definition ex_unmapped : mmu :=
  Mmu (Mapper (replicate 512 0) (Bmp512 bmp_empty bmp_empty)) (Mapper (replicate 512 0) (Bmp512 bmp_empty bmp_empty)) {[0 := ∅; 1 := ∅]}.
Definition ex_ticket (w : which) : vma_partition_ticket := match w with Pfn => VmaTicket 0x10000 1 0 | Io => VmaTicket 0x20000 1 1 end.
Definition ex_place (w : which) : Z := match w with Pfn => 0 | Io => 1 end.
Lemma ex_mapper_tickets : mapper_tickets 1 ex_tickets ex_ticket ex_place.
Proof. split; [|done..]. intros []; vm_compute; [left|right; left]. Qed.
Lemma ex_unmapped_ok : unmapped 0 2 ex_enabled true ex_unmapped.
Proof.
  split; [by intros []|]. intros c t. cbn. rewrite lookup_insert_Some. intros [[<- <-]|[_ Hc]]; [by split; [left|]|].
  apply lookup_singleton_Some in Hc as [<- <-]. split; [|done]. right. by split_and!.
Qed.

Lemma ex_map_some :
  match (init_mappers 1 1 ;;; map_phys_pg 0 2 ex_enabled true (fun w => addr (filled (ex_place w) 1)) 0x12345678) ex_unmapped with
  | Ok (r, _) => negb (r =? 0)
  | Fault _ => false
  end = true.
Proof. by vm_compute. Qed.

Lemma kernel_mappings_hold_witness : ∃ vm s1 r s2,
  vma_parser_init 1 0x8000 ex_tickets ex_unparsed = Ok (tt, vm) ∧
  map_phys_pg 0 2 ex_enabled true (fun w => addr (filled (ex_place w) 1)) 0x12345678 s1 = Ok (r, s2) ∧ r ≠ 0 ∧
  mappings_hold (reach 0x8000 vm ex_ticket) s2 {[r := Mapping Pfn 0x12345678]}.
Proof.
  destruct ex_space_ok as (H1 & H2 & H3 & H4).
  destruct (kernel_mappings_hold 1 0x8000 ex_tickets ex_unparsed ex_ticket ex_place 0 2 ex_enabled true ex_unmapped
    H1 ltac:(lia) H2 H3 H4 ex_mapper_tickets ex_unmapped_ok) as (vm & s1 & E & E1 & _ & H).
  destruct (H s1 ∅ (rtc_refl _ _)) as [_ (_ & Hmap & _)].
  destruct (Hmap 0x12345678) as [(r & s2 & E2 & _) _]; [split; lia|]. exists vm, s1, r, s2. split; [done|]. split; [done|].
  assert (r ≠ 0) as Hr.
  { pose proof ex_map_some as Hsome. unfold bind in Hsome. rewrite E1, E2 in Hsome. by apply negb_true_iff, Z.eqb_neq in Hsome. }
  split; [done|]. apply H. apply rtc_once. pose proof (mm_map_phys_pg 0 2 ex_enabled true _ s1 ∅ 0x12345678 r s2 ltac:(split; lia) E2) as Hstep.
  unfold handed_out in Hstep. rewrite (proj2 (Z.eqb_neq r 0) Hr), insert_empty in Hstep. exact Hstep.
Defined.

(** ** The local routines *)

(** A processor reads at [va], and caches the entry it finds. *)
Definition read_at (desc_addr : which → Z) (cpu va : Z) : P unit :=
  s <~ mget ;;
  match tlbs s !! cpu, pde_of desc_addr s (page_of va) with
  | Some t, Some e => if present e then mput (Mmu (pd_pfn s) (pd_pfn_io s) (<[cpu := <[page_of va := e]> t]> (tlbs s))) else ret tt
  | _, _ => ret tt
  end.
(** A structure of firmware that crosses a page is mapped, read and unmapped,
    then another one. *)
Definition ex_straddle (desc_addr : which → Z) : P (Z * Z * option Z) :=
  init_mappers 1 1 ;;;
  first <~ __map_phys_pg_local 0 desc_addr 0x3ffff0 ;;
  read_at desc_addr 0 (first + 0x10) ;;;
  __unmap_phys_pg_local 0 first ;;;
  second <~ __map_phys_pg_local 0 desc_addr 0xbffff0 ;;
  s <~ mget ;;
  ret (first, second, access desc_addr s 0 (second + 0x10)).

(** The local variants flush the first page only: when a mapping of two
    pages is given back and its pages are handed out again, the processor
    reads, behind the page boundary, the memory of the earlier mapping. *)
Example local_mappings_are_stale :
  match ex_straddle (fun w => addr (filled (ex_place w) 1)) ex_unmapped with
  | Ok ((first, second, reached), _) => second = first ∧ second ≠ 0 ∧ reached = Some 0x400000
  | Fault _ => False
  end.
Proof. by vm_compute. Qed.
