(* ===== verification/SchedDsa.v ===== *)
(** * SchedDsa: the mixed-criticality run queues of the kernel

    Models src/kernel/sched/sched_dsa.c with the structures of
    include/kernel/sched/{task,sched_dsa}.h.  A run queue has one priority
    queue per criticality; a task of criticality [c] is linked into those of
    all criticalities up to [c], through the node [nodes[i]] of its own.

    The node [nodes[i]] of task [t] is the address [(t, i)], so that
    [node_to_task] is a projection.  [sq_rep] relates a run queue to a single
    list of tasks in order of arrival: each of the linked lists is that list
    filtered by criticality and priority. *)

From S2P Require Import Prelude Std Bmp Dq Priorityq.
From Stdlib Require Import ZArith Lia Bool.
From stdpp Require Import base gmap list numbers sets.

Local Open Scope Z_scope.

(** CONFIG_KERNEL_SCHED_NUM_CRITICALITIES and NUM_CPUS, at their defaults *)
Definition NUM_CRITICALITIES : nat := 5.
Definition NUM_CPUS : nat := 32.
Definition SCHED_MIN_CRITICALITY : Z := 0.
Definition SCHED_MAX_CRITICALITY : Z := Z.of_nat NUM_CRITICALITIES - 1.

(** ** Tasks and processors *)

(** [struct context]: what is saved of an interrupted task *)
Record context := Context {
  cx_cr8 : Z; cx_r15 : Z; cx_r14 : Z; cx_r13 : Z; cx_r12 : Z; cx_r11 : Z; cx_r10 : Z;
  cx_r9 : Z; cx_r8 : Z; cx_rsi : Z; cx_rdi : Z; cx_rdx : Z; cx_rcx : Z; cx_rbx : Z;
  cx_rax : Z; cx_rbp : Z; cx_rsp : Z; cx_rflags : Z; cx_rip : Z; cx_fp_context : Z;
}.

(** [task->metadata] and the flags; [t_waitq] names the wait queue *)
Record task := Task {
  t_context : context;
  t_put_callback : bool;  (* put_callback_func is not NULL *)
  t_set_callback : bool;
  t_real_priority : Z;
  t_priority : Z;
  t_real_criticality : Z;
  t_criticality : Z;
  t_queue_id : Z;
  t_waitq : option nat;
  t_preemption_count : Z;
  t_yield_request : bool;
  t_preempted_early : bool;
  t_timed_out : bool;
}.

Abbreviation tid := nat.
Abbreviation node := (nat * nat)%type.
Definition node_to_task (n : node) : tid := fst n.

Record sched_priorityq := SchedPriorityq {
  sq_bins : list (priorityq node);
  criticality_level : Z;
  aging_bitmap : bmp256;
  iteration : Z;
  sq_locked : bool;
}.

(** Calls that leave the model: callbacks of a task and the timer. *)
Inductive event : Type :=
  | EPutCallback (t : tid)
  | ESetCallback (t : tid)
  | ETimerDisable (cpu : Z)
  | ETimerEnable (cpu : Z).

Record kern := Kern {
  k_tasks : gmap tid task;
  k_nodes : gmap node (lnode node);
  k_queues : list sched_priorityq;
  k_current : gmap Z tid;       (* per_cpu.current_task *)
  k_ctx : gmap Z context;       (* per_cpu.task_ctx: the interrupted registers *)
  k_timer_pending : Z → bool;   (* the scheduler vector is pending on a cpu *)
  k_log : list event;           (* the calls made, latest last *)
}.

Definition set_nodes (s : kern) (h : gmap node (lnode node)) : kern :=
  Kern (k_tasks s) h (k_queues s) (k_current s) (k_ctx s) (k_timer_pending s) (k_log s).
Definition set_queue (s : kern) (qid : Z) (q : sched_priorityq) : kern :=
  Kern (k_tasks s) (k_nodes s) (<[Z.to_nat qid := q]> (k_queues s)) (k_current s) (k_ctx s)
    (k_timer_pending s) (k_log s).
Definition set_task (s : kern) (t : tid) (tk : task) : kern :=
  Kern (<[t := tk]> (k_tasks s)) (k_nodes s) (k_queues s) (k_current s) (k_ctx s)
    (k_timer_pending s) (k_log s).
Definition set_current (s : kern) (cpu : Z) (t : option tid) : kern :=
  Kern (k_tasks s) (k_nodes s) (k_queues s)
    (match t with Some t => <[cpu := t]> (k_current s) | None => delete cpu (k_current s) end)
    (k_ctx s) (k_timer_pending s) (k_log s).
Definition set_ctx (s : kern) (cpu : Z) (c : context) : kern :=
  Kern (k_tasks s) (k_nodes s) (k_queues s) (k_current s) (<[cpu := c]> (k_ctx s))
    (k_timer_pending s) (k_log s).
Definition emit (e : event) : M kern unit := mmodify (fun s =>
  Kern (k_tasks s) (k_nodes s) (k_queues s) (k_current s) (k_ctx s) (k_timer_pending s)
    (k_log s ++ [e])).

Definition get_task (t : tid) : M kern task := fun s =>
  match k_tasks s !! t with Some tk => Ok (tk, s) | None => Fault FDangling end.
Definition put_task (t : tid) (tk : task) : M kern unit := mmodify (fun s => set_task s t tk).

(** CONFIG_KERNEL_SCHED_GLOBAL_QUEUE is off: one queue per processor. *)
Definition cpu_to_queue_id (processor_id : Z) : Z := processor_id.
Definition queue_to_sched_priorityq (queue_id : Z) : M kern sched_priorityq := fun s =>
  if queue_id <? 0 then Fault FBounds else
  match k_queues s !! Z.to_nat queue_id with Some q => Ok (q, s) | None => Fault FBounds end.
Definition cpu_to_sched_priorityq (processor_id : Z) : M kern sched_priorityq :=
  queue_to_sched_priorityq (cpu_to_queue_id processor_id).

Definition sq_set_bin (q : sched_priorityq) (i : Z) (b : priorityq node) : sched_priorityq :=
  SchedPriorityq (<[Z.to_nat i := b]> (sq_bins q)) (criticality_level q) (aging_bitmap q)
    (iteration q) (sq_locked q).
Definition sq_set_level (q : sched_priorityq) (l : Z) : sched_priorityq :=
  SchedPriorityq (sq_bins q) l (aging_bitmap q) (iteration q) (sq_locked q).
Definition sq_set_age (q : sched_priorityq) (b : bmp256) (it : Z) : sched_priorityq :=
  SchedPriorityq (sq_bins q) (criticality_level q) b it (sq_locked q).
Definition sq_set_locked (q : sched_priorityq) (l : bool) : sched_priorityq :=
  SchedPriorityq (sq_bins q) (criticality_level q) (aging_bitmap q) (iteration q) l.

Definition sq_bin (q : sched_priorityq) (i : Z) : M kern (priorityq node) := fun s =>
  match sq_bins q !! Z.to_nat i with Some b => Ok (b, s) | None => Fault FBounds end.

(** One operation on bin [i] of queue [qid], with the shared node heap. *)
Definition on_bin {B} (qid i : Z)
    (f : gmap node (lnode node) → priorityq node → res (B * gmap node (lnode node) * priorityq node))
    : M kern B :=
  q <~ queue_to_sched_priorityq qid ;;
  b <~ sq_bin q i ;;
  fun s => let* r := f (k_nodes s) b in
           let '(x, h, b) := r in
           Ok (x, set_queue (set_nodes s h) qid (sq_set_bin q i b)).

Definition no_result {H Q} (r : res (H * Q)) : res (unit * H * Q) :=
  let* hq := r in Ok (tt, fst hq, snd hq).

Definition lift {S A} (r : res A) : M S A := fun s => let* a := r in Ok (a, s).
Definition not_null {S A} (o : option A) : M S A :=
  match o with Some a => ret a | None => mfault FNull end.

(** The iterations [i, i + 1, ...], [n] of them. *)
Fixpoint mfrom {S} (n : nat) (i : Z) (body : Z → M S unit) : M S unit :=
  match n with
  | O => ret tt
  | S n' => body i ;;; mfrom n' (i + 1) body
  end.

Definition PUSHBACK : bool := false.

(** ** sched_dsa.c *)

Definition __sched_reset_age (qid : Z) : M kern unit :=
  q <~ queue_to_sched_priorityq qid ;;
  mmodify (fun s => set_queue s qid (sq_set_age q (bmp256_set_all (aging_bitmap q)) 0)).

(** Without CONFIG_KERNEL_SCHED_AGING the lock is all there is to initialise. *)
Definition __sched_init (qid : Z) : M kern unit :=
  q <~ queue_to_sched_priorityq qid ;;
  mmodify (fun s => set_queue s qid (sq_set_locked q false)).

(** Returns the bin's index with the next priority, [None] for NULL. *)
Definition __sched_priorityq_get_bin (qid : Z) : M kern (option (Z * Z)) :=
  q <~ queue_to_sched_priorityq qid ;;
  let criticality := criticality_level q in
  bin <~ sq_bin q criticality ;;
  let priority := priorityq_awaiting_priority bin in
  if negb (priority =? -1) then ret (Some (priority, criticality)) else
  if criticality =? 0 then ret None else
  bin <~ sq_bin q 0 ;;
  let priority := priorityq_awaiting_priority bin in
  if priority =? -1 then ret None else ret (Some (priority, 0)).

Definition __sched_priorityq_push (qid : Z) (t : tid) : M kern unit :=
  tk <~ get_task t ;;
  mfrom (S (Z.to_nat (t_criticality tk))) 0 (fun i =>
    on_bin qid i (fun h b =>
      no_result (priorityq_push h b (t, Z.to_nat i) (t_priority tk) PUSHBACK))).

Definition __sched_priorityq_dequeue (t : tid) : M kern unit :=
  tk <~ get_task t ;;
  mfrom (S (Z.to_nat (t_criticality tk))) 0 (fun i =>
    on_bin (t_queue_id tk) i (fun h b =>
      no_result (priorityq_dequeue h b (t, Z.to_nat i) (t_priority tk)))).

Definition __sched_priorityq_pop (qid : Z) : M kern (option tid) :=
  r <~ __sched_priorityq_get_bin qid ;;
  match r with
  | None => ret None
  | Some (priority, criticality) =>
      q <~ queue_to_sched_priorityq qid ;;
      bin <~ sq_bin q criticality ;;
      n <~ lift (priorityq_peekfront bin) ;;
      n <~ not_null n ;;
      let t := node_to_task n in
      __sched_priorityq_dequeue t ;;; ret (Some t)
  end.

Definition __sched_age (qid : Z) (last_priority : Z) : M kern unit :=
  q <~ queue_to_sched_priorityq qid ;;
  let bitmap := bmp256_unset_all_above (aging_bitmap q) last_priority in
  mmodify (fun s => set_queue s qid (sq_set_age q bitmap (iteration q))) ;;;
  let priority := bmp256_fls bitmap in
  if (priority =? -1) || (priority =? 0) then __sched_reset_age qid
  else if iteration q =? u32 (u32 priority * 2) then
    mmodify (fun s => set_queue s qid (sq_set_age q (bmp256_unset bitmap priority) 0))
  else mmodify (fun s => set_queue s qid (sq_set_age q bitmap (u32 (iteration q + 1)))).

(** Overwrites the bitmap of bin [i]. *)
Definition set_bin_bitmap (qid i : Z) (b : bmp256) : M kern unit :=
  q <~ queue_to_sched_priorityq qid ;;
  bin <~ sq_bin q i ;;
  mmodify (fun s => set_queue s qid (sq_set_bin q i (Priorityq (priority_bins bin) b))).

Definition __sched_priorityq_pop_age (qid : Z) : M kern (option tid) :=
  r <~ __sched_priorityq_get_bin qid ;;
  match r with
  | None => ret None
  | Some (priority, criticality) =>
      q <~ queue_to_sched_priorityq qid ;;
      bin <~ sq_bin q criticality ;;
      let bitmap := priority_bitmap bin in
      set_bin_bitmap qid criticality (bmp256_and bitmap (aging_bitmap q)) ;;;
      q <~ queue_to_sched_priorityq qid ;;
      bin <~ sq_bin q criticality ;;
      let next_priority := priorityq_awaiting_priority bin in
      next_priority <~
        (if next_priority =? -1 then
           __sched_reset_age qid ;;;
           set_bin_bitmap qid criticality bitmap ;;;
           ret (bmp256_fls bitmap)
         else ret next_priority) ;;
      if next_priority =? -1 then ret None else
      t <~ __sched_priorityq_pop qid ;;
      q <~ queue_to_sched_priorityq qid ;;
      bin <~ sq_bin q criticality ;;
      let bitmap := if negb (bmp256_test (priority_bitmap bin) next_priority)
                    then bmp256_unset bitmap next_priority else bitmap in
      __sched_age qid next_priority ;;;
      set_bin_bitmap qid criticality bitmap ;;;
      ret t
  end.

Definition __sched_priorityq_highest_priority (qid : Z) : M kern Z :=
  q <~ queue_to_sched_priorityq qid ;;
  let criticality := criticality_level q in
  bin <~ sq_bin q criticality ;;
  let r := priorityq_awaiting_priority bin in
  if (r =? -1) && (0 <? criticality) then
    bin <~ sq_bin q 0 ;; ret (priorityq_awaiting_priority bin)
  else ret r.

Definition __sched_priorityq_is_queued (t : tid) : M kern bool :=
  tk <~ get_task t ;;
  q <~ queue_to_sched_priorityq (t_queue_id tk) ;;
  bin <~ sq_bin q 0 ;;
  s <~ mget ;;
  lift (priorityq_is_queued (k_nodes s) bin (t, 0%nat) (t_priority tk)).

(** The run queue's lock, as seen by the one processor that runs: taking it
    twice deadlocks. *)
Definition sched_lock (qid : Z) : M kern unit :=
  q <~ queue_to_sched_priorityq qid ;;
  if sq_locked q then mfault FDeadlock
  else mmodify (fun s => set_queue s qid (sq_set_locked q true)).
Definition sched_unlock (qid : Z) : M kern unit :=
  q <~ queue_to_sched_priorityq qid ;;
  if sq_locked q then mmodify (fun s => set_queue s qid (sq_set_locked q false))
  else mfault FUnlock.

Definition sched_priorityq_highest_priority (qid : Z) : M kern Z :=
  sched_lock qid ;;;
  r <~ __sched_priorityq_highest_priority qid ;;
  sched_unlock qid ;;; ret r.

(** ** The abstract run queues *)

Definition task_ok (tk : task) : Prop :=
  prio (t_priority tk) ∧ 0 <= t_criticality tk <= SCHED_MAX_CRITICALITY.

Definition tprio (tm : gmap tid task) (t : tid) : Z :=
  match tm !! t with Some tk => t_priority tk | None => -1 end.
Definition tcrit (tm : gmap tid task) (t : tid) : Z :=
  match tm !! t with Some tk => t_criticality tk | None => -1 end.

(** What bin [c] links at priority [p] when the tasks [Q] are queued. *)
Definition in_bin (tm : gmap tid task) (c : nat) (p : Z) (t : tid) : bool :=
  (Z.of_nat c <=? tcrit tm t) && (tprio tm t =? p).
Definition bin_ls (tm : gmap tid task) (Q : list tid) (c : nat) (p : Z) : list node :=
  (fun t => (t, c)) <$> filter (fun t => in_bin tm c p t = true) Q.

Lemma bin_ls_app tm Q1 Q2 c p : bin_ls tm (Q1 ++ Q2) c p = bin_ls tm Q1 c p ++ bin_ls tm Q2 c p.
Proof. unfold bin_ls. by rewrite list.filter_app, fmap_app. Qed.

Lemma bin_ls_cons tm t Q c p :
  bin_ls tm (t :: Q) c p = if in_bin tm c p t then (t, c) :: bin_ls tm Q c p else bin_ls tm Q c p.
Proof.
  unfold bin_ls. rewrite filter_cons. destruct (in_bin tm c p t) eqn:E.
  - by rewrite decide_True.
  - by rewrite decide_False by congruence.
Qed.

Lemma elem_bin_ls tm Q c p n :
  n ∈ bin_ls tm Q c p ↔ n.2 = c ∧ n.1 ∈ Q ∧ in_bin tm c p n.1 = true.
Proof.
  unfold bin_ls. rewrite list_elem_of_fmap. split.
  - intros (t & -> & Ht). apply list_elem_of_filter in Ht as [? ?]. done.
  - destruct n as [t c']. simpl. intros (-> & Ht & Hb). exists t. split; [done|].
    by apply list_elem_of_filter.
Qed.

(** [G qid c]: the tasks that bin [c] of queue [qid] has to link. *)
Record rep (s : kern) (G : Z → nat → list tid) : Prop := {
  r_queue qid : 0 <= qid < Z.of_nat NUM_CPUS →
    ∃ q, k_queues s !! Z.to_nat qid = Some q ∧ length (sq_bins q) = NUM_CRITICALITIES ∧
      0 <= criticality_level q <= SCHED_MAX_CRITICALITY ∧
      ∀ c b, sq_bins q !! c = Some b → pq_rep (k_nodes s) b (bin_ls (k_tasks s) (G qid c) c);
  r_len : length (k_queues s) = NUM_CPUS;
  r_nodup qid c : NoDup (G qid c);
  r_tasks qid c t : t ∈ G qid c → ∃ tk, k_tasks s !! t = Some tk ∧ task_ok tk ∧
    t_queue_id tk = qid ∧ 0 <= qid < Z.of_nat NUM_CPUS;
  r_free t tk c : k_tasks s !! t = Some tk → (c < NUM_CRITICALITIES)%nat →
    (t ∉ G (t_queue_id tk) c ∨ t_criticality tk < Z.of_nat c) → detached (k_nodes s) (t, c);
}.

(** Every task is known to the queue it is on, in all its bins. *)
Definition sched_rep (s : kern) (Q : Z → list tid) : Prop := rep s (fun qid _ => Q qid).

Definition upd_bin (G : Z → nat → list tid) (qid : Z) (c : nat) (l : list tid) : Z → nat → list tid :=
  fun qid' c' => if decide (qid' = qid ∧ c' = c) then l else G qid' c'.

Lemma upd_bin_eq G qid c l : upd_bin G qid c l qid c = l.
Proof. unfold upd_bin. by rewrite decide_True. Qed.
Lemma upd_bin_ne G qid c l qid' c' : ¬ (qid' = qid ∧ c' = c) → upd_bin G qid c l qid' c' = G qid' c'.
Proof. intros. unfold upd_bin. by rewrite decide_False. Qed.

Lemma pq_rep_frame h h' (b : priorityq node) ls fr :
  pq_rep h b ls → heap_frame h h' fr → (∀ p n, prio p → n ∈ ls p → n ∉ fr) → pq_rep h' b ls.
Proof.
  intros [H1 H2 H3 H4 H5] Hf Hd. split; try done.
  intros p Hp. destruct (H1 p Hp) as (d & Hd1 & Hd2). exists d. split; [done|].
  eapply dq_rep_frame; eauto.
Qed.

Lemma pq_rep_ext h (b : priorityq node) ls ls' :
  pq_rep h b ls → (∀ p, prio p → ls p = ls' p) → pq_rep h b ls'.
Proof.
  intros [H1 H2 H3 H4 H5] He. split; try done.
  - intros p Hp. rewrite <- He by done. by apply H1.
  - intros p p' n Hp Hp'. rewrite <- !He by done. by apply H3.
  - intros p Hp. rewrite <- He by done. by apply H5.
Qed.

(** The states between which an operation on the queues may move. *)
Definition same_sched (s s' : kern) : Prop :=
  k_tasks s' = k_tasks s ∧
  (k_current s' = k_current s ∧ k_ctx s' = k_ctx s ∧ k_timer_pending s' = k_timer_pending s ∧
   k_log s' = k_log s) ∧
  (∀ i, match k_queues s !! i, k_queues s' !! i with
        | Some q, Some q' => criticality_level q' = criticality_level q ∧
            sq_locked q' = sq_locked q ∧ aging_bitmap q' = aging_bitmap q ∧ iteration q' = iteration q
        | None, None => True
        | _, _ => False end).

Lemma same_sched_refl s : same_sched s s.
Proof. split; [done|]. split; [by split_and!|]. intros i. by destruct (k_queues s !! i). Qed.

Lemma same_sched_trans s1 s2 s3 : same_sched s1 s2 → same_sched s2 s3 → same_sched s1 s3.
Proof.
  intros (H1 & H2 & H3) (H4 & H5 & H6). split; [congruence|].
  split; [destruct H2 as (?&?&?&?), H5 as (?&?&?&?); split_and!; congruence|].
  intros i. specialize (H3 i). specialize (H6 i). repeat case_match; try done. naive_solver congruence.
Qed.

Lemma queue_lookup s G qid :
  rep s G → 0 <= qid < Z.of_nat NUM_CPUS →
  ∃ q, k_queues s !! Z.to_nat qid = Some q ∧ queue_to_sched_priorityq qid s = Ok (q, s).
Proof.
  intros Hr Hq. destruct (r_queue _ _ Hr qid Hq) as (q & Eq & _). exists q. split; [done|].
  unfold queue_to_sched_priorityq. rewrite (proj2 (Z.ltb_ge qid 0)) by lia. by rewrite Eq.
Qed.

(** An operation on one bin of one queue that changes the list of that bin
    from [G qid c] to [L] and touches the nodes of that bin only. *)
Lemma on_bin_spec {B} s G qid (c : nat) L f (x : B) h' b' :
  rep s G → 0 <= qid < Z.of_nat NUM_CPUS → (c < NUM_CRITICALITIES)%nat →
  (∀ q b, k_queues s !! Z.to_nat qid = Some q → sq_bins q !! c = Some b →
     f (k_nodes s) b = Ok (x, h', b')) →
  pq_rep h' b' (bin_ls (k_tasks s) L c) → NoDup L →
  (∀ t, t ∈ L → ∃ tk, k_tasks s !! t = Some tk ∧ task_ok tk ∧ t_queue_id tk = qid) →
  (∃ fr, heap_frame (k_nodes s) h' fr ∧
     ∀ n, n ∈ fr → n.2 = c ∧ ∃ tk, k_tasks s !! n.1 = Some tk ∧ t_queue_id tk = qid) →
  (∀ t tk, k_tasks s !! t = Some tk → t_queue_id tk = qid →
     t ∉ L ∨ t_criticality tk < Z.of_nat c → detached h' (t, c)) →
  ∃ s', on_bin qid (Z.of_nat c) f s = Ok (x, s') ∧ rep s' (upd_bin G qid c L) ∧
    same_sched s s' ∧ k_nodes s' = h'.
Proof.
  intros Hr Hq Hc Hf Hb' Hnd HL (fr & Hfr & Hfrn) Hfree.
  destruct (queue_lookup _ _ _ Hr Hq) as (q & Eq & Erun).
  destruct (r_queue _ _ Hr qid Hq) as (q0 & Eq0 & Hlen & Hlv & Hbins). simplify_eq.
  assert (is_Some (sq_bins q !! c)) as [b Eb] by (apply lookup_lt_is_Some; lia).
  unfold on_bin, bind, sq_bin. rewrite Erun. rewrite Nat2Z.id, Eb, (Hf q b Eq Eb). simpl rbind.
  eexists. split; [reflexivity|].
  assert (Z.to_nat qid < length (k_queues s))%nat as Hql by (by eapply lookup_lt_Some).
  split; [|split; [|done]].
  - split.
    + intros qid' Hq'. simpl. destruct (decide (qid' = qid)) as [->|Hne].
      * eexists. split; [by apply list_lookup_insert_eq|]. simpl.
        split; [by rewrite length_insert|]. split; [done|]. intros c' b0 Hb0.
        rewrite Nat2Z.id in Hb0. destruct (decide (c' = c)) as [->|Hnc].
        -- rewrite list_lookup_insert_eq in Hb0 by lia. simplify_eq. by rewrite upd_bin_eq.
        -- rewrite list_lookup_insert_ne in Hb0 by done. rewrite upd_bin_ne by tauto.
           eapply pq_rep_frame; [by apply Hbins|done|]. intros p n _ Hn Hin.
           apply elem_bin_ls in Hn as [Hn _]. apply Hfrn in Hin as [? _]. congruence.
      * destruct (r_queue _ _ Hr qid' Hq') as (q' & Eq' & Hlen' & Hlv' & Hbins').
        exists q'. rewrite list_lookup_insert_ne by lia. split; [done|]. split; [done|].
        split; [done|]. intros c' b0 Hb0. rewrite upd_bin_ne by tauto.
        eapply pq_rep_frame; [by apply Hbins'|done|]. intros p n _ Hn Hin.
        apply elem_bin_ls in Hn as (_ & Hn & _). apply (r_tasks _ _ Hr) in Hn as (tk & E & _ & <- & _).
        apply Hfrn in Hin as (_ & tk' & E' & Hq2). congruence.
    + simpl. rewrite length_insert. apply Hr.
    + intros qid' c'. unfold upd_bin. case_decide; [done|apply Hr].
    + intros qid' c' t. unfold upd_bin. simpl. case_decide as E; [|apply Hr].
      destruct E as [-> ->]. intros Ht. destruct (HL t Ht) as (tk & ? & ? & ?). eauto 6.
    + intros t tk c' Et Hc' Hor. simpl in *. destruct (decide (t_queue_id tk = qid ∧ c' = c)) as [[Hqt ->]|Hne].
      * apply (Hfree t tk); [done|done|]. rewrite Hqt, upd_bin_eq in Hor. done.
      * rewrite upd_bin_ne in Hor by tauto. eapply detached_frame; [by eapply (r_free _ _ Hr)|done|].
        intros Hin. apply Hfrn in Hin as (E1 & tk' & E2 & E3). simpl in *. simplify_eq. tauto.
  - split; [done|]. split; [by split_and!|]. intros i. simpl.
    destruct (decide (i = Z.to_nat qid)) as [->|].
    + rewrite Eq, list_lookup_insert_eq by lia. done.
    + rewrite list_lookup_insert_ne by done. by destruct (k_queues s !! i).
Qed.

Lemma bin_ls_nodes s G qid c p n :
  rep s G → n ∈ bin_ls (k_tasks s) (G qid c) c p →
  n.2 = c ∧ ∃ tk, k_tasks s !! n.1 = Some tk ∧ t_queue_id tk = qid.
Proof.
  intros Hr Hn. apply elem_bin_ls in Hn as (-> & Hn & _). split; [done|].
  apply (r_tasks _ _ Hr) in Hn as (tk & E & _ & Hq & _). eauto.
Qed.

(** One iteration of the push loop. *)
Lemma push_bin s G qid (c : nat) t tk :
  rep s G → 0 <= qid < Z.of_nat NUM_CPUS →
  k_tasks s !! t = Some tk → task_ok tk → t_queue_id tk = qid →
  Z.of_nat c <= t_criticality tk → t ∉ G qid c →
  ∃ s', on_bin qid (Z.of_nat c) (fun h b =>
      no_result (priorityq_push h b (t, Z.to_nat (Z.of_nat c)) (t_priority tk) PUSHBACK)) s
      = Ok (tt, s') ∧
    rep s' (upd_bin G qid c (G qid c ++ [t])) ∧ same_sched s s'.
Proof.
  intros Hr Hq Et Hok Hqt Hct Hnin.
  assert (c < NUM_CRITICALITIES)%nat as Hc.
  { destruct Hok as [_ Hcr]. unfold SCHED_MAX_CRITICALITY in Hcr. lia. }
  destruct (r_queue _ _ Hr qid Hq) as (q & Eq & Hlen & Hlv & Hbins).
  assert (is_Some (sq_bins q !! c)) as [b Eb] by (apply lookup_lt_is_Some; lia).
  pose proof (Hbins c b Eb) as Hpq.
  assert (detached (k_nodes s) (t, c)) as Hdet.
  { eapply (r_free _ _ Hr); [done|done|left; by rewrite Hqt]. }
  assert (pq_fresh (bin_ls (k_tasks s) (G qid c) c) (t, c)) as Hfresh.
  { intros p _ Hin. apply elem_bin_ls in Hin as (_ & ? & _). done. }
  destruct (priorityq_push_spec _ _ _ (t, c) (t_priority tk) PUSHBACK Hpq (proj1 Hok))
    as (h' & b' & E & Hrep & Hfr); [by rewrite Hdet|done|].
  assert (tprio (k_tasks s) t = t_priority tk) as Htp by (unfold tprio; by rewrite Et).
  assert (tcrit (k_tasks s) t = t_criticality tk) as Htc by (unfold tcrit; by rewrite Et).
  destruct (on_bin_spec s G qid c (G qid c ++ [t])
    (fun h b => no_result (priorityq_push h b (t, Z.to_nat (Z.of_nat c)) (t_priority tk) PUSHBACK))
    tt h' b' Hr Hq Hc) as (s' & E' & Hr' & Hs' & _).
  - intros q' b0 Eq' Eb'. simplify_eq. rewrite Nat2Z.id, E. done.
  - eapply pq_rep_ext; [exact Hrep|]. intros p Hp. rewrite bin_ls_app, bin_ls_cons.
    unfold in_bin. rewrite Htp, Htc, (proj2 (Z.leb_le _ _)) by lia. simpl andb.
    destruct (Z.eqb_spec (t_priority tk) p) as [<-|]; [by rewrite upd_eq|].
    rewrite upd_ne by congruence. unfold bin_ls at 3. simpl. by rewrite app_nil_r.
  - apply list.NoDup_app. split; [apply Hr|]. split; [set_solver|apply NoDup_singleton].
  - intros u Hu. apply elem_of_app in Hu as [Hu|Hu%list_elem_of_singleton].
    + apply (r_tasks _ _ Hr) in Hu as (tk' & ? & ? & ? & _). eauto.
    + subst u. eauto.
  - eexists. split; [exact Hfr|]. intros n [->|Hn]%elem_of_cons; [simpl; eauto|].
    by eapply bin_ls_nodes.
  - intros u tku Eu Hqu Hor.
    assert (u ≠ t) as Hut.
    { intros ->. simplify_eq. destruct Hor as [Hor|]; [|lia]. set_solver. }
    assert (u ∉ G qid c ∨ t_criticality tku < Z.of_nat c) as Hor'.
    { destruct Hor; [left; set_solver|by right]. }
    eapply detached_frame; [eapply (r_free _ _ Hr u tku c); [done|done|by rewrite Hqu]|exact Hfr|].
    intros [[= ?]|Hin]%elem_of_cons; [done|].
    apply elem_bin_ls in Hin as (_ & Hin & Hb). simpl in *. destruct Hor' as [?|Hlt]; [done|].
    unfold in_bin, tcrit in Hb. rewrite Eu in Hb. to_prop. lia.
  - eauto.
Qed.

(** One iteration of the dequeue loop. *)
Lemma dequeue_bin s G qid (c : nat) t tk L1 L2 :
  rep s G → 0 <= qid < Z.of_nat NUM_CPUS →
  k_tasks s !! t = Some tk → Z.of_nat c <= t_criticality tk → G qid c = L1 ++ t :: L2 →
  ∃ s', on_bin qid (Z.of_nat c) (fun h b =>
      no_result (priorityq_dequeue h b (t, Z.to_nat (Z.of_nat c)) (t_priority tk))) s
      = Ok (tt, s') ∧
    rep s' (upd_bin G qid c (L1 ++ L2)) ∧ same_sched s s'.
Proof.
  intros Hr Hq Et Hct HG.
  destruct (r_tasks _ _ Hr qid c t) as (tk0 & E0 & Hok & Hqt & _); [rewrite HG; set_solver|].
  simplify_eq.
  assert (c < NUM_CRITICALITIES)%nat as Hc.
  { destruct Hok as [_ Hcr]. unfold SCHED_MAX_CRITICALITY in Hcr. lia. }
  destruct (r_queue _ _ Hr (t_queue_id tk) Hq) as (q & Eq & Hlen & Hlv & Hbins).
  set (qid := t_queue_id tk) in *.
  assert (is_Some (sq_bins q !! c)) as [b Eb] by (apply lookup_lt_is_Some; lia).
  pose proof (Hbins c b Eb) as Hpq.
  assert (tprio (k_tasks s) t = t_priority tk) as Htp by (unfold tprio; by rewrite Et).
  assert (tcrit (k_tasks s) t = t_criticality tk) as Htc by (unfold tcrit; by rewrite Et).
  assert (∀ p, in_bin (k_tasks s) c p t = (t_priority tk =? p)) as Hib.
  { intros p. unfold in_bin. by rewrite Htp, Htc, (proj2 (Z.leb_le _ _)) by lia. }
  destruct (priorityq_dequeue_spec _ _ _ (t_priority tk) (bin_ls (k_tasks s) L1 c (t_priority tk))
    (t, c) (bin_ls (k_tasks s) L2 c (t_priority tk)) Hpq (proj1 Hok))
    as (h' & b' & E & Hrep & Hdet & Hfr).
  { rewrite HG, bin_ls_app, bin_ls_cons, Hib, Z.eqb_refl. done. }
  pose proof (r_nodup _ _ Hr qid c) as Hnd. rewrite HG in Hnd.
  destruct (on_bin_spec s G qid c (L1 ++ L2)
    (fun h b => no_result (priorityq_dequeue h b (t, Z.to_nat (Z.of_nat c)) (t_priority tk)))
    tt h' b' Hr Hq Hc) as (s' & E' & Hr' & Hs' & _).
  - intros q' b0 Eq' Eb'. simplify_eq. rewrite Nat2Z.id, E. done.
  - eapply pq_rep_ext; [exact Hrep|]. intros p Hp.
    destruct (decide (p = t_priority tk)) as [->|Hne]; [by rewrite upd_eq, bin_ls_app|].
    rewrite upd_ne, HG, !bin_ls_app, bin_ls_cons, Hib by done.
    by rewrite (proj2 (Z.eqb_neq _ _)) by done.
  - apply list.NoDup_app in Hnd as (H1 & H2 & H3). apply list.NoDup_cons in H3 as [H3 H4].
    apply list.NoDup_app. split; [done|]. split; [set_solver|done].
  - intros u Hu. assert (u ∈ G qid c) as Hu' by (rewrite HG; set_solver).
    apply (r_tasks _ _ Hr) in Hu' as (tk' & ? & ? & ? & _). eauto.
  - eexists. split; [exact Hfr|]. intros n Hn. by eapply bin_ls_nodes.
  - intros u tku Eu Hqu Hor. destruct (decide (u = t)) as [->|Hut]; [done|].
    assert (u ∉ G qid c ∨ t_criticality tku < Z.of_nat c) as Hor'.
    { destruct Hor; [left; rewrite HG; set_solver|by right]. }
    eapply detached_frame; [eapply (r_free _ _ Hr u tku c); [done|done|by rewrite Hqu]|exact Hfr|].
    intros Hin. apply elem_bin_ls in Hin as (_ & Hin & Hb). simpl in *.
    destruct Hor' as [?|Hlt]; [done|]. unfold in_bin, tcrit in Hb. rewrite Eu in Hb. to_prop. lia.
  - eauto.
Qed.

Lemma rep_change s G G' :
  rep s G →
  (∀ qid c p, prio p → bin_ls (k_tasks s) (G qid c) c p = bin_ls (k_tasks s) (G' qid c) c p) →
  (∀ qid c, NoDup (G' qid c)) →
  (∀ qid c t, t ∈ G' qid c → ∃ tk, k_tasks s !! t = Some tk ∧ task_ok tk ∧
     t_queue_id tk = qid ∧ 0 <= qid < Z.of_nat NUM_CPUS) →
  (∀ t tk c, k_tasks s !! t = Some tk → t ∉ G' (t_queue_id tk) c →
     t ∉ G (t_queue_id tk) c ∨ t_criticality tk < Z.of_nat c) →
  rep s G'.
Proof.
  intros [H1 H2 H3 H4 H5] Hb Hn Ht Hf. split; try done.
  - intros qid Hq. destruct (H1 qid Hq) as (q & E & Hlen & Hlv & Hbins). exists q.
    split; [done|]. split; [done|]. split; [done|]. intros c b Eb.
    eapply pq_rep_ext; [by apply Hbins|]. intros p Hp. by apply Hb.
  - intros t tk c Et Hc [Hor|Hor]; [|eauto]. eapply H5; eauto.
Qed.

Lemma bin_ls_drop tm Q1 t Q2 c p :
  tcrit tm t < Z.of_nat c → bin_ls tm (Q1 ++ t :: Q2) c p = bin_ls tm (Q1 ++ Q2) c p.
Proof.
  intros Hc. rewrite !bin_ls_app, bin_ls_cons. unfold in_bin.
  by rewrite (proj2 (Z.leb_gt _ _)) by done.
Qed.

(** The loop over the bins [i .. i + k), each of which gets the list [F c]. *)
Definition upd_range (G : Z → nat → list tid) (qid : Z) (i k : nat) (F : nat → list tid) :=
  fun qid' c => if decide (qid' = qid ∧ (i <= c < i + k)%nat) then F c else G qid' c.

Lemma bins_loop (body : Z → M kern unit) qid F k i s G :
  rep s G →
  (∀ s1 G1 c, rep s1 G1 → same_sched s s1 → (i <= c < i + k)%nat → G1 qid c = G qid c →
     ∃ s2, body (Z.of_nat c) s1 = Ok (tt, s2) ∧ rep s2 (upd_bin G1 qid c (F c)) ∧
       same_sched s1 s2) →
  ∃ s', mfrom k (Z.of_nat i) body s = Ok (tt, s') ∧ rep s' (upd_range G qid i k F) ∧
    same_sched s s'.
Proof.
  revert i s G. induction k as [|k IH]; intros i s G Hr Hbody.
  - exists s. split; [done|]. split; [|apply same_sched_refl].
    eapply rep_change; [done|..].
    + intros. unfold upd_range. rewrite decide_False by lia. done.
    + intros. unfold upd_range. rewrite decide_False by lia. apply Hr.
    + intros qid' c t. unfold upd_range. rewrite decide_False by lia. apply Hr.
    + intros t tk c _. unfold upd_range. rewrite decide_False by lia. by left.
  - destruct (Hbody s G i) as (s1 & E1 & Hr1 & Hs1); [done|apply same_sched_refl|lia|done|].
    destruct (IH (S i) s1 (upd_bin G qid i (F i)) Hr1) as (s2 & E2 & Hr2 & Hs2).
    { intros s3 G3 c Hr3 Hs3 Hc Hg. destruct (Hbody s3 G3 c) as (s4 & ? & ? & ?); eauto.
      - by eapply same_sched_trans.
      - lia.
      - rewrite Hg. apply upd_bin_ne. lia. }
    exists s2. split; [|split; [|by eapply same_sched_trans]].
    + cbn [mfrom]. unfold bind. rewrite E1. by replace (Z.of_nat i + 1) with (Z.of_nat (S i)) by lia.
    + assert (∀ qid' c, upd_range (upd_bin G qid i (F i)) qid (S i) k F qid' c =
                upd_range G qid i (S k) F qid' c) as Heq.
      { intros qid' c. unfold upd_range, upd_bin.
        destruct (decide (qid' = qid)) as [->|]; [|by rewrite !decide_False by tauto].
        destruct (decide (c = i)) as [->|].
        - rewrite decide_False by lia. rewrite !decide_True by (split; [done|lia]). done.
        - destruct (decide (S i <= c < S i + k)%nat).
          + rewrite !decide_True by (split; [done|lia]). done.
          + rewrite !decide_False by lia. done. }
      eapply rep_change; [exact Hr2|..].
      * intros. by rewrite Heq.
      * intros. rewrite <- Heq. apply Hr2.
      * intros qid' c t. rewrite <- Heq. apply Hr2.
      * intros t tk c _. rewrite <- Heq. by left.
Qed.

Definition upd_q (Q : Z → list tid) (qid : Z) (l : list tid) : Z → list tid :=
  fun qid' => if decide (qid' = qid) then l else Q qid'.

Lemma upd_q_eq Q qid l : upd_q Q qid l qid = l.
Proof. unfold upd_q. by rewrite decide_True. Qed.

Lemma push_spec s Q qid t tk :
  sched_rep s Q → 0 <= qid < Z.of_nat NUM_CPUS →
  k_tasks s !! t = Some tk → task_ok tk → t_queue_id tk = qid → t ∉ Q qid →
  ∃ s', __sched_priorityq_push qid t s = Ok (tt, s') ∧
    sched_rep s' (upd_q Q qid (Q qid ++ [t])) ∧ same_sched s s'.
Proof.
  intros Hr Hq Et Hok Hqt Hnin. unfold __sched_priorityq_push, bind, get_task. rewrite Et.
  destruct (bins_loop (fun i => on_bin qid i (fun h b =>
      no_result (priorityq_push h b (t, Z.to_nat i) (t_priority tk) PUSHBACK))) qid
    (fun _ => Q qid ++ [t]) (S (Z.to_nat (t_criticality tk))) 0 s _ Hr)
    as (s' & E & Hr' & Hs').
  { intros s1 G1 c Hr1 (Ht1 & Hc1 & Hq1) Hc Hg. rewrite <- Hg.
    apply push_bin; try done; try lia; [by rewrite Ht1| |by rewrite Hg].
    destruct Hok. lia. }
  exists s'. split; [exact E|]. split; [|done].
  assert (k_tasks s' !! t = Some tk) as Et' by (rewrite (proj1 Hs'); done).
  assert (tcrit (k_tasks s') t = t_criticality tk) as Htc by (unfold tcrit; by rewrite Et').
  eapply rep_change; [exact Hr'|..].
  - intros qid' c p Hp. unfold upd_range, upd_q.
    destruct (decide (qid' = qid)) as [->|]; [|by rewrite decide_False by tauto].
    destruct (decide (0 <= c < 0 + S (Z.to_nat (t_criticality tk)))%nat).
    + by rewrite decide_True by done.
    + rewrite decide_False by tauto. rewrite bin_ls_drop by lia. by rewrite app_nil_r.
  - intros qid' _. unfold upd_q. case_decide; [|apply (r_nodup _ _ Hr qid' 0)].
    apply list.NoDup_app. split; [apply (r_nodup _ _ Hr qid 0)|].
    split; [set_solver|apply NoDup_singleton].
  - intros qid' _ u. unfold upd_q. rewrite (proj1 Hs'). case_decide as Hd; [|apply (r_tasks _ _ Hr qid' 0)].
    subst qid'. intros Hu%elem_of_app. destruct Hu as [Hu|Hu%list_elem_of_singleton].
    + by apply (r_tasks _ _ Hr qid 0).
    + subst u. eauto 6.
  - intros u tku c Eu Hu. left. unfold upd_range. unfold upd_q in Hu.
    case_decide as D1; case_decide as D2; try tauto.
    rewrite D1 in *. set_solver.
Qed.

Lemma dequeue_spec s Q t tk L1 L2 :
  sched_rep s Q → k_tasks s !! t = Some tk → Q (t_queue_id tk) = L1 ++ t :: L2 →
  ∃ s', __sched_priorityq_dequeue t s = Ok (tt, s') ∧
    sched_rep s' (upd_q Q (t_queue_id tk) (L1 ++ L2)) ∧ same_sched s s'.
Proof.
  intros Hr Et HQ. set (qid := t_queue_id tk) in *.
  destruct (r_tasks _ _ Hr qid 0%nat t) as (tk0 & E0 & Hok & _ & Hq);
    [rewrite HQ; set_solver|]. assert (tk0 = tk) as -> by congruence. clear E0.
  unfold __sched_priorityq_dequeue, bind, get_task. rewrite Et.
  destruct (bins_loop (fun i => on_bin qid i (fun h b =>
      no_result (priorityq_dequeue h b (t, Z.to_nat i) (t_priority tk)))) qid
    (fun _ => L1 ++ L2) (S (Z.to_nat (t_criticality tk))) 0 s _ Hr)
    as (s' & E & Hr' & Hs').
  { intros s1 G1 c Hr1 (Ht1 & Hc1 & Hq1) Hc Hg.
    eapply dequeue_bin; try done; [by rewrite Ht1| |by rewrite Hg].
    destruct Hok. lia. }
  exists s'. split; [exact E|]. split; [|done].
  assert (tcrit (k_tasks s') t = t_criticality tk) as Htc.
  { unfold tcrit. by rewrite (proj1 Hs'), Et. }
  pose proof (r_nodup _ _ Hr qid 0%nat) as Hnd. simpl in Hnd. rewrite HQ in Hnd.
  apply list.NoDup_app in Hnd as (N1 & N2 & N3). apply list.NoDup_cons in N3 as [N3 N4].
  eapply rep_change; [exact Hr'|..].
  - intros qid' c p Hp. unfold upd_range, upd_q.
    destruct (decide (qid' = qid)) as [->|]; [|by rewrite decide_False by tauto].
    destruct (decide (0 <= c < 0 + S (Z.to_nat (t_criticality tk)))%nat).
    + by rewrite decide_True by done.
    + rewrite decide_False by tauto. rewrite HQ, bin_ls_drop by lia. done.
  - intros qid' _. unfold upd_q. case_decide; [|apply (r_nodup _ _ Hr qid' 0)].
    apply list.NoDup_app. split; [done|]. split; [set_solver|done].
  - intros qid' _ u. unfold upd_q. rewrite (proj1 Hs'). case_decide as Hd; [|apply (r_tasks _ _ Hr qid' 0)].
    subst qid'. intros Hu. apply (r_tasks _ _ Hr qid 0). rewrite HQ. set_solver.
  - intros u tku c Eu Hu. rewrite (proj1 Hs') in Eu. unfold upd_range. unfold upd_q in Hu.
    case_decide as D1; case_decide as D2; try tauto.
    rewrite D1, HQ in *. destruct (decide (u = t)) as [->|]; [|left; set_solver].
    simplify_eq. right. lia.
Qed.

(** ** Which task runs next *)

(** Of the tasks in order of arrival, the first of the highest priority. *)
Definition is_best (tm : gmap tid task) (l : list tid) (t : tid) : Prop :=
  ∃ l1 l2, l = l1 ++ t :: l2 ∧ (∀ u, u ∈ l1 → tprio tm u < tprio tm t) ∧
    (∀ u, u ∈ l2 → tprio tm u <= tprio tm t).

Definition avail (tm : gmap tid task) (level : Z) (Q : list tid) : list tid :=
  filter (fun t => level <= tcrit tm t) Q.

(** The candidates: the tasks at the current criticality level or above, or
    all of them when there is none. *)
Definition candidates (tm : gmap tid task) (level : Z) (Q : list tid) : list tid :=
  if decide (avail tm level Q = []) then Q else avail tm level Q.

Lemma bin_ls_avail tm Q c p :
  bin_ls tm Q c p = (fun t => (t, c)) <$> filter (fun t => tprio tm t = p) (avail tm (Z.of_nat c) Q).
Proof.
  unfold bin_ls, avail. f_equal. rewrite list_filter_filter.
  apply list_filter_iff. intros t. unfold in_bin.
  rewrite andb_true_iff, Z.leb_le, Z.eqb_eq. tauto.
Qed.

Lemma filter_head_split {A} (P : A → Prop) `{∀ x, Decision (P x)} l x :
  head (filter P l) = Some x → ∃ l1 l2, l = l1 ++ x :: l2 ∧ P x ∧ ∀ y, y ∈ l1 → ¬ P y.
Proof.
  induction l as [|y l IH]; [done|]. rewrite filter_cons. case_decide as Hy.
  - intros [= ->]. exists [], l. split; [done|]. split; [done|]. by intros ? ?%elem_of_nil.
  - intros Hx. destruct (IH Hx) as (l1 & l2 & -> & Hpx & Hl1). exists (y :: l1), l2.
    split; [done|]. split; [done|]. intros z [->|Hz]%elem_of_cons; auto.
Qed.

Lemma top_best tm Q c p :
  prio p → (∀ t, t ∈ Q → prio (tprio tm t)) →
  bin_ls tm Q c p ≠ [] → (∀ p', p < p' < 256 → bin_ls tm Q c p' = []) →
  ∃ t, head (bin_ls tm Q c p) = Some (t, c) ∧ tprio tm t = p ∧
    is_best tm (avail tm (Z.of_nat c) Q) t.
Proof.
  intros Hp HQ Hne Htop. rewrite bin_ls_avail in Hne |- *.
  set (l := avail tm (Z.of_nat c) Q) in *.
  destruct (filter (fun t => tprio tm t = p) l) as [|t f] eqn:Ef; [done|].
  destruct (filter_head_split (fun t => tprio tm t = p) l t) as (l1 & l2 & El & Ht & Hl1);
    [by rewrite Ef|].
  assert (∀ u, u ∈ l → tprio tm u <= p) as Hle.
  { intros u Hu. destruct (decide (p < tprio tm u)) as [Hlt|]; [|lia]. exfalso.
    assert (u ∈ Q) as HuQ by (by apply list_elem_of_filter in Hu as [_ ?]).
    specialize (HQ u HuQ). unfold prio in HQ.
    specialize (Htop (tprio tm u)). rewrite bin_ls_avail in Htop. fold l in Htop.
    assert ((u, c) ∈ ([] : list node)) as []%elem_of_nil.
    rewrite <- Htop by lia. apply list_elem_of_fmap. exists u. split; [done|].
    by apply list_elem_of_filter. }
  exists t. split; [done|]. split; [done|]. exists l1, l2. split; [done|]. rewrite Ht. split.
  - intros u Hu. specialize (Hl1 u Hu). assert (u ∈ l) as Hul by (rewrite El; set_solver).
    specialize (Hle u Hul). lia.
  - intros u Hu. apply Hle. rewrite El. set_solver.
Qed.

Section Pop.
Context (s : kern) (Q : Z → list tid) (qid : Z) (q : sched_priorityq).
Hypothesis (Hr : sched_rep s Q) (Hq : 0 <= qid < Z.of_nat NUM_CPUS).
Hypothesis (Eq : k_queues s !! Z.to_nat qid = Some q).

Let tm := k_tasks s.
Let level := criticality_level q.

Lemma queue_run : queue_to_sched_priorityq qid s = Ok (q, s).
Proof.
  unfold queue_to_sched_priorityq. rewrite (proj2 (Z.ltb_ge qid 0)) by lia. by rewrite Eq.
Qed.

Lemma level_range : 0 <= level <= SCHED_MAX_CRITICALITY.
Proof. destruct (r_queue _ _ Hr qid Hq) as (q0 & E0 & _ & Hlv & _). unfold level. congruence. Qed.

Lemma bin_run c : (c < NUM_CRITICALITIES)%nat →
  ∃ b, sq_bin q (Z.of_nat c) s = Ok (b, s) ∧ sq_bins q !! c = Some b ∧
    pq_rep (k_nodes s) b (bin_ls tm (Q qid) c).
Proof.
  intros Hc. destruct (r_queue _ _ Hr qid Hq) as (q0 & E0 & Hlen & _ & Hbins).
  assert (q0 = q) as -> by congruence.
  assert (is_Some (sq_bins q !! c)) as [b Eb] by (apply lookup_lt_is_Some; lia).
  exists b. unfold sq_bin. rewrite Nat2Z.id, Eb. split; [done|]. split; [done|]. by apply Hbins.
Qed.

Lemma queued_prio t : t ∈ Q qid → prio (tprio tm t) ∧ 0 <= tcrit tm t.
Proof.
  intros Ht. apply (r_tasks _ _ Hr qid 0%nat) in Ht as (tk & E & [Hp Hc] & _).
  unfold tprio, tcrit, tm. rewrite E. split; [done|lia].
Qed.

Lemma bin_awaiting c b : pq_rep (k_nodes s) b (bin_ls tm (Q qid) c) →
  (priorityq_awaiting_priority b = -1 ∧ avail tm (Z.of_nat c) (Q qid) = []) ∨
  (∃ t p, priorityq_awaiting_priority b = p ∧ prio p ∧ tprio tm t = p ∧
     avail tm (Z.of_nat c) (Q qid) ≠ [] ∧
     is_best tm (avail tm (Z.of_nat c) (Q qid)) t ∧
     priorityq_peekfront b = Ok (Some (t, c))).
Proof.
  intros Hb. destruct (priorityq_peekfront_spec _ _ _ Hb) as (r & Htop & Hpk).
  pose proof (is_top_unique _ _ _ Htop (priorityq_awaiting_spec _ _ _ Hb)) as Er.
  destruct Htop as [[-> Hn]|(Hp & Hne & Ht)].
  - left. split; [done|]. destruct (avail tm (Z.of_nat c) (Q qid)) as [|t l] eqn:El; [done|].
    assert (t ∈ avail tm (Z.of_nat c) (Q qid)) as Hin by (rewrite El; left).
    pose proof Hin as Hin2. apply list_elem_of_filter in Hin2 as [_ HtQ].
    destruct (queued_prio t HtQ) as [Hpt _].
    assert ((t, c) ∈ ([] : list node)) as []%elem_of_nil.
    rewrite <- (Hn (tprio tm t)) by done. rewrite bin_ls_avail, El.
    rewrite filter_cons_True by done. left.
  - right. destruct (top_best tm (Q qid) c r Hp) as (t & Hh & Htp & Hbest); [|done|done|].
    { intros t Ht'. by apply queued_prio. }
    exists t, r. split; [done|]. split; [done|]. split; [done|]. split.
    + destruct Hbest as (l1 & l2 & -> & _). by destruct l1.
    + split; [done|]. rewrite Hpk. unfold prio in Hp.
      rewrite (proj2 (Z.eqb_neq r (-1))) by lia. by rewrite Hh.
Qed.

Lemma avail_zero : avail tm 0 (Q qid) = Q qid.
Proof.
  unfold avail. assert (∀ l : list tid, (∀ t, t ∈ l → 0 <= tcrit tm t) → filter (fun t => 0 <= tcrit tm t) l = l) as Hl.
  { induction l as [|t l IH]; intros Ha; [done|]. rewrite filter_cons_True by (apply Ha; left).
    rewrite IH; [done|]. intros u Hu. apply Ha. by right. }
  apply Hl. intros t Ht. by apply queued_prio.
Qed.

(** The bin the scheduler picks, its front task and that task's priority. *)
Lemma get_bin_spec :
  (Q qid = [] ∧ __sched_priorityq_get_bin qid s = Ok (None, s)) ∨
  (∃ t (c : nat) b, is_best tm (candidates tm level (Q qid)) t ∧
     __sched_priorityq_get_bin qid s = Ok (Some (tprio tm t, Z.of_nat c), s) ∧
     sq_bin q (Z.of_nat c) s = Ok (b, s) ∧ priorityq_peekfront b = Ok (Some (t, c)) ∧
     Z.of_nat c = (if decide (avail tm level (Q qid) = []) then 0 else level)).
Proof.
  pose proof level_range as Hlv. unfold SCHED_MAX_CRITICALITY in Hlv.
  destruct (bin_run (Z.to_nat level)) as (b & Hb1 & _ & Hb2); [lia|].
  rewrite Z2Nat.id in Hb1 by lia.
  destruct (bin_run 0) as (b0 & Hb01 & _ & Hb02); [unfold NUM_CRITICALITIES; lia|].
  change (Z.of_nat 0) with 0 in Hb01.
  pose proof (bin_awaiting _ _ Hb2) as Haw. rewrite Z2Nat.id in Haw by lia.
  pose proof (bin_awaiting _ _ Hb02) as Haw0. change (Z.of_nat 0) with 0 in Haw0. rewrite !avail_zero in Haw0.
  unfold __sched_priorityq_get_bin, bind. rewrite queue_run. fold level. rewrite Hb1.
  destruct Haw as [[-> Hav]|(t & p & -> & Hp & Htp & Hne & Hbest & Hpk)].
  - change (negb (-1 =? -1)) with false. cbv iota. unfold candidates.
    rewrite !decide_True by done. destruct (Z.eqb_spec level 0) as [Hl0|Hl0].
    + left. rewrite Hl0, avail_zero in Hav. done.
    + rewrite Hb01. destruct Haw0 as [[-> Hav0]|(t & p & -> & Hp & Htp & Hne & Hbest & Hpk)].
      * left. done.
      * right. exists t, 0%nat, b0. split; [done|]. split; [|done].
        unfold prio in Hp. rewrite (proj2 (Z.eqb_neq p (-1))) by lia. by rewrite Htp.
  - right. exists t, (Z.to_nat level), b. unfold prio in Hp.
    rewrite (proj2 (Z.eqb_neq p (-1))) by lia. simpl negb. cbv iota.
    unfold candidates. rewrite !decide_False by done. rewrite Z2Nat.id by lia.
    split; [done|]. split; [by rewrite Htp|]. done.
Qed.

Lemma best_in_queue t : is_best tm (candidates tm level (Q qid)) t → t ∈ Q qid.
Proof.
  intros (l1 & l2 & E & _). assert (t ∈ candidates tm level (Q qid)) as Ht by (rewrite E; set_solver).
  unfold candidates in Ht. case_decide; [done|]. by apply list_elem_of_filter in Ht as [_ ?].
Qed.

Lemma pop_spec :
  (Q qid = [] ∧ __sched_priorityq_pop qid s = Ok (None, s)) ∨
  (∃ t L1 L2 s', is_best tm (candidates tm level (Q qid)) t ∧ Q qid = L1 ++ t :: L2 ∧
     __sched_priorityq_pop qid s = Ok (Some t, s') ∧
     sched_rep s' (upd_q Q qid (L1 ++ L2)) ∧ same_sched s s').
Proof.
  unfold __sched_priorityq_pop, bind.
  destruct get_bin_spec as [[HQ ->]|(t & c & b & Hbest & -> & Hb & Hpk & _)]; [by left|right].
  rewrite queue_run, Hb. unfold lift. rewrite Hpk. simpl rbind. cbn [not_null ret node_to_task fst].
  pose proof (best_in_queue t Hbest) as Ht. pose proof Ht as Ht2.
  apply (r_tasks _ _ Hr qid 0%nat) in Ht2 as (tk & Et & _ & Hqt & _).
  apply list_elem_of_split in Ht as (L1 & L2 & HQ).
  destruct (dequeue_spec s Q t tk L1 L2 Hr Et) as (s' & E & Hr' & Hs'); [by rewrite Hqt|].
  exists t, L1, L2, s'. rewrite E. rewrite Hqt in Hr'. done.
Qed.

Lemma highest_priority_spec :
  (Q qid = [] ∧ __sched_priorityq_highest_priority qid s = Ok (-1, s)) ∨
  (∃ t, is_best tm (candidates tm level (Q qid)) t ∧
     __sched_priorityq_highest_priority qid s = Ok (tprio tm t, s) ∧ prio (tprio tm t)).
Proof.
  pose proof level_range as Hlv. unfold SCHED_MAX_CRITICALITY in Hlv.
  destruct (bin_run (Z.to_nat level)) as (b & Hb1 & _ & Hb2); [lia|].
  rewrite Z2Nat.id in Hb1 by lia.
  destruct (bin_run 0) as (b0 & Hb01 & _ & Hb02); [unfold NUM_CRITICALITIES; lia|].
  change (Z.of_nat 0) with 0 in Hb01.
  pose proof (bin_awaiting _ _ Hb2) as Haw. rewrite Z2Nat.id in Haw by lia.
  pose proof (bin_awaiting _ _ Hb02) as Haw0. change (Z.of_nat 0) with 0 in Haw0. rewrite !avail_zero in Haw0.
  unfold __sched_priorityq_highest_priority, bind. rewrite queue_run. fold level. rewrite Hb1.
  destruct Haw as [[-> Hav]|(t & p & -> & Hp & Htp & Hne & Hbest & Hpk)].
  - change (-1 =? -1) with true. cbv iota beta delta [andb]. unfold candidates.
    rewrite !decide_True by done.
    destruct (Z.ltb_spec 0 level) as [Hl0|Hl0].
    + rewrite Hb01. destruct Haw0 as [[-> Hav0]|(t & p & -> & Hp & Htp & Hne & Hbest & Hpk)].
      * by left.
      * right. exists t. by rewrite Htp.
    + left. assert (level = 0) as E by lia. rewrite E, avail_zero in Hav. done.
  - right. exists t. unfold prio in Hp. rewrite (proj2 (Z.eqb_neq p (-1))) by lia.
    unfold candidates. rewrite !decide_False by done. rewrite Htp. done.
Qed.

Lemma is_queued_spec t tk :
  k_tasks s !! t = Some tk → t_queue_id tk = qid → task_ok tk →
  __sched_priorityq_is_queued t s = Ok (bool_decide (t ∈ Q qid), s).
Proof.
  intros Et Hqt Hok. destruct (bin_run 0) as (b & Hb & _ & Hrep); [unfold NUM_CRITICALITIES; lia|].
  unfold __sched_priorityq_is_queued, bind, get_task. rewrite Et, Hqt, queue_run.
  change (Z.of_nat 0) with 0 in Hb. rewrite Hb. unfold mget, lift.
  assert ((t, 0%nat) ∈ bin_ls tm (Q qid) 0 (t_priority tk) ↔ t ∈ Q qid) as Hiff.
  { rewrite elem_bin_ls. unfold in_bin, tcrit, tprio, tm. simpl. rewrite Et, Z.eqb_refl.
    destruct Hok as [_ Hc]. rewrite (proj2 (Z.leb_le _ _)) by lia. tauto. }
  rewrite (priorityq_is_queued_spec _ _ _ _ (t, 0%nat) Hrep); [|apply Hok|].
  - simpl. by rewrite (bool_decide_ext _ _ Hiff).
  - destruct (decide (t ∈ Q qid)); [left; by apply Hiff|right].
    eapply (r_free _ _ Hr); [done|unfold NUM_CRITICALITIES; lia|left; by rewrite Hqt].
Qed.
End Pop.
