(* ===== verification/Sched.v ===== *)
(** * Sched: the kernel scheduler over the run queues

    Models src/kernel/sched/sched_queue.c, sched_mcs.c, sched_ctx.c, the
    preemption entry of sched.c, the yields of sched_yield.c and the metadata
    of task.c.  [cpu] is this_processor_id(); the interrupted registers are
    [k_ctx]; callbacks of tasks and the timer are recorded in [k_log].

    Every operation takes the lock of the run queue for the whole of its
    access and gives it back. *)

From S2P Require Import Prelude Std Bmp Dq Priorityq SchedDsa.
From Stdlib Require Import ZArith Lia Bool.
From stdpp Require Import base gmap list numbers sets.

Local Open Scope Z_scope.


(** ** sched_mcs.c *)

Definition __sched_mcs_read_criticality_level (cpu : Z) : M kern Z :=
  q <~ cpu_to_sched_priorityq cpu ;; ret (criticality_level q).

Definition __sched_mcs_write_criticality_level (cpu criticality : Z) : M kern Z :=
  if SCHED_MAX_CRITICALITY <? criticality then ret (- EINVAL) else
  q <~ cpu_to_sched_priorityq cpu ;;
  mmodify (fun s => set_queue s (cpu_to_queue_id cpu) (sq_set_level q criticality)) ;;;
  ret 0.

(** [body] under the lock of queue [qid]. *)
Definition with_sched_lock {B} (qid : Z) (body : M kern B) : M kern B :=
  sched_lock qid ;;; r <~ body ;; sched_unlock qid ;;; ret r.

Definition sched_mcs_read_criticality_level (cpu : Z) : M kern Z :=
  with_sched_lock (cpu_to_queue_id cpu) (__sched_mcs_read_criticality_level cpu).

Definition sched_mcs_write_criticality_level (cpu criticality : Z) : M kern Z :=
  with_sched_lock (cpu_to_queue_id cpu) (__sched_mcs_write_criticality_level cpu criticality).

Definition sched_mcs_inc_criticality_level (cpu : Z) : M kern bool :=
  with_sched_lock (cpu_to_queue_id cpu)
    (q <~ cpu_to_sched_priorityq cpu ;;
     if criticality_level q <? SCHED_MAX_CRITICALITY then
       mmodify (fun s => set_queue s (cpu_to_queue_id cpu)
                           (sq_set_level q (u8 (criticality_level q + 1)))) ;;; ret true
     else ret false).

Definition sched_mcs_dec_criticality_level (cpu : Z) : M kern bool :=
  with_sched_lock (cpu_to_queue_id cpu)
    (q <~ cpu_to_sched_priorityq cpu ;;
     if SCHED_MIN_CRITICALITY <? criticality_level q then
       mmodify (fun s => set_queue s (cpu_to_queue_id cpu)
                           (sq_set_level q (u8 (criticality_level q - 1)))) ;;; ret true
     else ret false).

(** ** Fields of a task *)

Definition task_set_queue_id (tk : task) (qid : Z) : task :=
  Task (t_context tk) (t_put_callback tk) (t_set_callback tk) (t_real_priority tk)
    (t_priority tk) (t_real_criticality tk) (t_criticality tk) qid (t_waitq tk)
    (t_preemption_count tk) (t_yield_request tk) (t_preempted_early tk) (t_timed_out tk).
Definition task_set_context (tk : task) (c : context) : task :=
  Task c (t_put_callback tk) (t_set_callback tk) (t_real_priority tk)
    (t_priority tk) (t_real_criticality tk) (t_criticality tk) (t_queue_id tk) (t_waitq tk)
    (t_preemption_count tk) (t_yield_request tk) (t_preempted_early tk) (t_timed_out tk).
Definition task_set_prio (tk : task) (priority criticality : Z) : task :=
  Task (t_context tk) (t_put_callback tk) (t_set_callback tk) (t_real_priority tk)
    priority (t_real_criticality tk) criticality (t_queue_id tk) (t_waitq tk)
    (t_preemption_count tk) (t_yield_request tk) (t_preempted_early tk) (t_timed_out tk).
Definition task_set_count (tk : task) (n : Z) : task :=
  Task (t_context tk) (t_put_callback tk) (t_set_callback tk) (t_real_priority tk)
    (t_priority tk) (t_real_criticality tk) (t_criticality tk) (t_queue_id tk) (t_waitq tk)
    n (t_yield_request tk) (t_preempted_early tk) (t_timed_out tk).
Definition task_set_flags (tk : task) (yield_request preempted_early timed_out : bool) : task :=
  Task (t_context tk) (t_put_callback tk) (t_set_callback tk) (t_real_priority tk)
    (t_priority tk) (t_real_criticality tk) (t_criticality tk) (t_queue_id tk) (t_waitq tk)
    (t_preemption_count tk) yield_request preempted_early timed_out.

Definition upd_task (t : tid) (f : task → task) : M kern unit :=
  tk <~ get_task t ;; put_task t (f tk).
Definition set_yield_request t :=
  upd_task t (fun tk => task_set_flags tk true (t_preempted_early tk) (t_timed_out tk)).
Definition clear_yield_request t :=
  upd_task t (fun tk => task_set_flags tk false (t_preempted_early tk) (t_timed_out tk)).
Definition set_preempted_early t :=
  upd_task t (fun tk => task_set_flags tk (t_yield_request tk) true (t_timed_out tk)).
Definition clear_preempted_early t :=
  upd_task t (fun tk => task_set_flags tk (t_yield_request tk) false (t_timed_out tk)).

(** ** sched_queue.c *)

Definition sched_do_push (t : tid) (processor_id : Z) : M kern unit :=
  let queue_id := cpu_to_queue_id processor_id in
  upd_task t (fun tk => task_set_queue_id tk queue_id) ;;;
  with_sched_lock queue_id (__sched_priorityq_push queue_id t).

Definition sched_push (t : tid) : M kern unit :=
  tk <~ get_task t ;; sched_do_push t (t_queue_id tk).

Definition sched_pop_clean (cpu : Z) : M kern (option tid) :=
  let qid := cpu_to_queue_id cpu in
  with_sched_lock qid
    (r <~ __sched_priorityq_highest_priority qid ;;
     if negb (r =? -1) then __sched_priorityq_pop qid else ret None).

(** The loop waits for another processor to push; alone it hangs. *)
Definition sched_pop_clean_spin (cpu : Z) : M kern tid :=
  r <~ sched_pop_clean cpu ;;
  match r with Some t => ret t | None => mfault FDeadlock end.

(** The rule by which a task gives way to the next one of the queue. *)
Definition gives_way (level criticality priority next_criticality next_priority : Z) : bool :=
  if level <=? criticality then
    (level <=? next_criticality) && (priority <=? next_priority)
  else (level <=? next_criticality) || (priority <=? next_priority).

Definition sched_pop (cpu : Z) (current : tid) : M kern (option tid) :=
  let qid := cpu_to_queue_id cpu in
  with_sched_lock qid
    (r <~ __sched_priorityq_get_bin qid ;;
     match r with
     | None => ret None
     | Some (next_priority, next_criticality) =>
         cur <~ get_task current ;;
         level <~ __sched_mcs_read_criticality_level cpu ;;
         if gives_way level (t_criticality cur) (t_priority cur) next_criticality next_priority
         then __sched_priorityq_pop qid else ret None
     end).

Definition sched_should_request_yield (cpu : Z) (t : tid) : M kern bool :=
  let qid := cpu_to_queue_id cpu in
  with_sched_lock qid
    (tk <~ get_task t ;;
     level <~ __sched_mcs_read_criticality_level cpu ;;
     r <~ __sched_priorityq_get_bin qid ;;
     match r with
     | None => ret false
     | Some (next_priority, next_criticality) =>
         ret (gives_way level (t_criticality tk) (t_priority tk) next_criticality next_priority)
     end).

(** ** sched_ctx.c *)

Definition get_ctx (cpu : Z) : M kern context := fun s =>
  match k_ctx s !! cpu with Some c => Ok (c, s) | None => Fault FNull end.
Definition current_task (cpu : Z) : M kern (option tid) := mgets (fun s => k_current s !! cpu).
Definition set_current_task (cpu : Z) (t : option tid) : M kern unit :=
  mmodify (fun s => set_current s cpu t).

Definition sched_save_current_ctx (cpu : Z) (current : tid) : M kern unit :=
  regs <~ get_ctx cpu ;;
  upd_task current (fun tk => task_set_context tk
    (Context (cx_cr8 regs) (cx_r15 regs) (cx_r14 regs) (cx_r13 regs) (cx_r12 regs)
       (cx_r11 regs) (cx_r10 regs) (cx_r9 regs) (cx_r8 regs) (cx_rsi regs) (cx_rdi regs)
       (cx_rdx regs) (cx_rcx regs) (cx_rbx regs) (cx_rax regs) (cx_rbp regs) (cx_rsp regs)
       (cx_rflags regs) (cx_rip regs) (cx_fp_context regs))).

Definition sched_put_current_ctx (cpu : Z) (push : bool) : M kern unit :=
  current <~ current_task cpu ;;
  current <~ not_null current ;;
  sched_save_current_ctx cpu current ;;;
  tk <~ get_task current ;;
  (if t_put_callback tk then emit (EPutCallback current) else ret tt) ;;;
  set_current_task cpu None ;;;
  if push then sched_push current else ret tt.

Definition sched_set_ctx (cpu : Z) (t : tid) : M kern unit :=
  tk <~ get_task t ;;
  let c := t_context tk in
  _ <~ get_ctx cpu ;;
  mmodify (fun s => set_ctx s cpu
    (Context (cx_cr8 c) (cx_r15 c) (cx_r14 c) (cx_r13 c) (cx_r12 c)
       (cx_r11 c) (cx_r10 c) (cx_r9 c) (cx_r8 c) (cx_rsi c) (cx_rdi c)
       (cx_rdx c) (cx_rcx c) (cx_rbx c) (cx_rax c) (cx_rbp c) (cx_rsp c)
       (cx_rflags c) (cx_rip c) (cx_fp_context c))) ;;;
  set_current_task cpu (Some t) ;;;
  if t_set_callback tk then emit (ESetCallback t) else ret tt.

Definition sched_switch_ctx (cpu : Z) (t : tid) (push : bool) : M kern unit :=
  sched_put_current_ctx cpu push ;;; sched_set_ctx cpu t.

(** ** Preemption and yields *)

Definition sched_is_timer_pending (cpu : Z) : M kern bool :=
  mgets (fun s => k_timer_pending s cpu).
Definition sched_timer_disable (cpu : Z) : M kern unit := emit (ETimerDisable cpu).
Definition sched_timer_enable (cpu : Z) : M kern unit := emit (ETimerEnable cpu).

Definition is_preemption_enabled (tk : task) : bool := t_preemption_count tk =? 0.

Definition sched_preempt (cpu : Z) : M kern unit :=
  current <~ current_task cpu ;;
  current <~ not_null current ;;
  cur <~ get_task current ;;
  if t_preempted_early cur then clear_preempted_early current else
  if negb (is_preemption_enabled cur) then
    r <~ sched_should_request_yield cpu current ;;
    if (r : bool) then set_yield_request current else ret tt
  else
    clear_yield_request current ;;;
    t <~ sched_pop cpu current ;;
    match t with Some t => sched_switch_ctx cpu t true | None => ret tt end.

Definition sched_yield_ipi (cpu : Z) : M kern unit :=
  current <~ current_task cpu ;;
  massert (is_some current) ;;;
  current <~ not_null current ;;
  s <~ mget ;;
  massert (is_some (k_ctx s !! cpu)) ;;;
  clear_yield_request current ;;;
  clear_preempted_early current ;;;
  t <~ sched_pop cpu current ;;
  match t with
  | None => ret tt
  | Some t =>
      sched_switch_ctx cpu t true ;;;
      sched_timer_disable cpu ;;;
      p <~ sched_is_timer_pending cpu ;;
      (if (p : bool) then set_preempted_early t else ret tt) ;;;
      sched_timer_enable cpu
  end.

(** The part of [current_task_destroy_ipi] that concerns the scheduler: the
    task leaves the processor without being queued again. *)
Definition current_task_destroy_ipi (cpu : Z) : M kern unit :=
  sched_timer_disable cpu ;;;
  current <~ current_task cpu ;;
  s <~ mget ;;
  massert (is_some current) ;;;
  massert (is_some (k_ctx s !! cpu)) ;;;
  set_current_task cpu None ;;;
  t <~ sched_pop_clean_spin cpu ;;
  sched_set_ctx cpu t ;;;
  p <~ sched_is_timer_pending cpu ;;
  (if (p : bool) then set_preempted_early t else ret tt) ;;;
  sched_timer_enable cpu.

(** ** task.c *)

(** [cpu_ok]: the processor exists and is active; [fx] is what task_init puts
    in the floating-point context. *)
Definition task_init (cpu_ok : bool) (t : tid) (processor_id stack_top func arg priority
    criticality fx : Z) (put_callback set_callback : bool) : M kern Z :=
  if negb cpu_ok || (Z.of_nat NUM_CRITICALITIES <=? criticality) then ret (- EINVAL) else
  put_task t (Task
    (Context 0 0 0 0 0 0 0 0 0 0 arg 0 0 0 0 stack_top stack_top
       (Z.lor (Z.shiftl 1 9) (Z.shiftl 1 1)) func fx)
    put_callback set_callback priority priority criticality criticality
    (cpu_to_queue_id processor_id) None 0 false false false) ;;;
  (fun s => Ok (tt, set_nodes s
     (foldr (fun i h => <[(t, i) := LNode None None]> h) (k_nodes s) (seq 0 NUM_CRITICALITIES)))) ;;;
  ret 0.

Definition current_task_write (cpu priority criticality : Z) : M kern unit :=
  current <~ current_task cpu ;;
  massert (is_some current) ;;;
  massert (criticality <=? SCHED_MAX_CRITICALITY) ;;;
  current <~ not_null current ;;
  upd_task current (fun tk => task_set_prio tk priority criticality).

Definition current_task_info (cpu : Z) (handling_isr : bool) : M kern (Z * (Z * Z * Z * Z)) :=
  current <~ current_task cpu ;;
  match current with
  | None => ret (- EINVAL, (0, 0, 0, 0))
  | Some t =>
      if handling_isr then ret (- EINVAL, (0, 0, 0, 0)) else
      tk <~ get_task t ;;
      ret (0, (t_real_priority tk, t_priority tk, t_real_criticality tk, t_criticality tk))
  end.

(** ** Locks, levels and task fields do not concern the lists *)

Lemma rep_set_queue s G qid q q' :
  rep s G → 0 <= qid < Z.of_nat NUM_CPUS → k_queues s !! Z.to_nat qid = Some q →
  sq_bins q' = sq_bins q → 0 <= criticality_level q' <= SCHED_MAX_CRITICALITY →
  rep (set_queue s qid q') G.
Proof.
  intros Hr Hq Eq Hb Hl. pose proof (lookup_lt_Some _ _ _ Eq) as Hlt.
  destruct Hr as [H1 H2 H3 H4 H5]. split; try done.
  - intros qid' Hq'. destruct (H1 qid' Hq') as (q0 & E0 & Hlen & Hlv & Hbins). simpl.
    destruct (decide (qid' = qid)) as [->|Hne].
    + exists q'. rewrite list_lookup_insert_eq by done. rewrite Eq in E0. injection E0 as <-.
      rewrite Hb. done.
    + exists q0. rewrite list_lookup_insert_ne by lia. done.
  - simpl. by rewrite length_insert.
Qed.

Lemma rep_set_task_same s G t tk tk' :
  rep s G → k_tasks s !! t = Some tk →
  t_priority tk' = t_priority tk → t_criticality tk' = t_criticality tk →
  t_queue_id tk' = t_queue_id tk → rep (set_task s t tk') G.
Proof.
  intros [H1 H2 H3 H4 H5] Et Hp Hc Hq.
  assert (∀ c p u, in_bin (<[t := tk']> (k_tasks s)) c p u = in_bin (k_tasks s) c p u) as Hb.
  { intros c p u. unfold in_bin, tcrit, tprio. destruct (decide (t = u)) as [<-|].
    - by rewrite lookup_insert_eq, Et, Hp, Hc.
    - by rewrite lookup_insert_ne. }
  split; try done.
  - intros qid Hqid. destruct (H1 qid Hqid) as (q & E & Hlen & Hlv & Hbins). exists q.
    split; [done|]. split; [done|]. split; [done|]. intros c b Eb. simpl.
    eapply pq_rep_ext; [by apply Hbins|]. intros p Hp'. unfold bin_ls. f_equal.
    apply list_filter_iff. intros u. by rewrite Hb.
  - intros qid c u Hu. simpl. destruct (H4 qid c u Hu) as (tku & Eu & Hok & Hqu & Hr).
    destruct (decide (t = u)) as [<-|]; [|rewrite lookup_insert_ne by done; eauto].
    simplify_eq. rewrite lookup_insert_eq. exists tk'. split; [done|]. split; [|by split].
    unfold task_ok. by rewrite Hp, Hc.
  - intros u tku c. simpl. destruct (decide (t = u)) as [<-|].
    + rewrite lookup_insert_eq. intros [= <-] Hcn Hor. apply (H5 t tk c); [done|done|]. by rewrite <- Hq, <- Hc.
    + rewrite lookup_insert_ne by done. apply H5.
Qed.

(** A task on no queue may change its queue, priority and criticality. *)
Lemma rep_set_task_off s G t tk tk' :
  rep s G → k_tasks s !! t = Some tk → (∀ qid c, t ∉ G qid c) →
  rep (set_task s t tk') G.
Proof.
  intros [H1 H2 H3 H4 H5] Et Hoff.
  assert (∀ c p u, u ≠ t → in_bin (<[t := tk']> (k_tasks s)) c p u = in_bin (k_tasks s) c p u) as Hb.
  { intros c p u Hu. unfold in_bin, tcrit, tprio. by rewrite lookup_insert_ne. }
  split; try done.
  - intros qid Hqid. destruct (H1 qid Hqid) as (q & E & Hlen & Hlv & Hbins). exists q.
    split; [done|]. split; [done|]. split; [done|]. intros c b Eb. simpl.
    eapply pq_rep_ext; [by apply Hbins|]. intros p Hp'. unfold bin_ls. f_equal.
    pose proof (Hoff qid c) as Ho. induction (G qid c) as [|u l IH]; [done|].
    apply not_elem_of_cons in Ho as [Hu Ho]. rewrite !filter_cons, IH by done.
    rewrite Hb by congruence. done.
  - intros qid c u Hu. simpl. rewrite lookup_insert_ne; [by apply (H4 qid c)|].
    intros <-. by apply (Hoff qid c).
  - intros u tku c. simpl. destruct (decide (t = u)) as [<-|].
    + rewrite lookup_insert_eq. intros _ Hcn _. apply (H5 t tk c); [done|done|left; apply Hoff].
    + rewrite lookup_insert_ne by done. apply H5.
Qed.

(** The other fields of the state. *)
Lemma rep_same s s' G :
  rep s G → k_tasks s' = k_tasks s → k_nodes s' = k_nodes s → k_queues s' = k_queues s → rep s' G.
Proof. intros [] E1 E2 E3. split; rewrite ?E1, ?E2, ?E3; done. Qed.

Definition unlocked (s : kern) (qid : Z) : Prop :=
  ∃ q, k_queues s !! Z.to_nat qid = Some q ∧ sq_locked q = false.

Lemma unlocked_same s s' qid q :
  same_sched s s' → k_queues s !! Z.to_nat qid = Some q → sq_locked q = false → unlocked s' qid.
Proof.
  intros (_ & _ & Hq) E Hl. specialize (Hq (Z.to_nat qid)). rewrite E in Hq.
  destruct (k_queues s' !! Z.to_nat qid) as [q'|] eqn:E'; [|done].
  exists q'. split; [done|]. destruct Hq as (_ & -> & _). done.
Qed.

Lemma with_lock_run {B} s G G2 qid q (body : M kern B) r s2 :
  rep s G → 0 <= qid < Z.of_nat NUM_CPUS →
  k_queues s !! Z.to_nat qid = Some q → sq_locked q = false →
  body (set_queue s qid (sq_set_locked q true)) = Ok (r, s2) →
  same_sched (set_queue s qid (sq_set_locked q true)) s2 → rep s2 G2 →
  ∃ s3, with_sched_lock qid body s = Ok (r, s3) ∧ rep s3 G2 ∧ same_sched s s3.
Proof.
  intros Hr Hq Eq Hl Hb (Ht & Hm & Hqs) Hr2.
  destruct (queue_lookup s G qid Hr Hq) as (q0 & E0 & Erun). rewrite Eq in E0. injection E0 as <-.
  destruct (queue_lookup s2 G2 qid Hr2 Hq) as (q2 & E2 & Erun2).
  pose proof (lookup_lt_Some _ _ _ Eq) as Hlt. pose proof (lookup_lt_Some _ _ _ E2) as Hlt2.
  assert (sq_locked q2 = true ∧ criticality_level q2 = criticality_level q ∧
    aging_bitmap q2 = aging_bitmap q ∧ iteration q2 = iteration q) as (Hlk & Hlv & Hag & Hit).
  { specialize (Hqs (Z.to_nat qid)). simpl in Hqs.
    rewrite list_lookup_insert_eq, E2 in Hqs by done. simpl in Hqs. tauto. }
  exists (set_queue s2 qid (sq_set_locked q2 false)). split; [|split].
  - unfold with_sched_lock, sched_lock, sched_unlock, bind. rewrite Erun, Hl. unfold mmodify.
    rewrite Hb, Erun2, Hlk. done.
  - eapply rep_set_queue; [done|done|done|done|]. simpl.
    destruct (r_queue _ _ Hr2 qid Hq) as (q' & E' & _ & Hlv' & _). congruence.
  - split; [done|]. split; [done|]. intros i. specialize (Hqs i). simpl in *.
    destruct (decide (i = Z.to_nat qid)) as [->|Hne].
    + rewrite Eq, list_lookup_insert_eq by done. simpl. by rewrite Hl, Hlv, Hag, Hit.
    + rewrite list_lookup_insert_ne in Hqs by done. rewrite list_lookup_insert_ne by done. done.
Qed.

Lemma lock_state s G qid q :
  rep s G → 0 <= qid < Z.of_nat NUM_CPUS → k_queues s !! Z.to_nat qid = Some q →
  let s1 := set_queue s qid (sq_set_locked q true) in
  rep s1 G ∧ k_queues s1 !! Z.to_nat qid = Some (sq_set_locked q true).
Proof.
  intros Hr Hq Eq s1. split.
  - eapply rep_set_queue; [done|done|done|done|]. simpl.
    destruct (r_queue _ _ Hr qid Hq) as (q' & E' & _ & Hlv' & _). congruence.
  - simpl. apply list_lookup_insert_eq. by eapply lookup_lt_Some.
Qed.

(** ** Functional behaviour *)

Section Queue.
Context (s : kern) (Q : Z → list tid) (cpu : Z) (q : sched_priorityq).
Hypothesis (Hr : sched_rep s Q) (Hq : 0 <= cpu < Z.of_nat NUM_CPUS).
Hypothesis (Eq : k_queues s !! Z.to_nat cpu = Some q) (Hl : sq_locked q = false).

Lemma read_level_run s1 q1 : rep s1 (fun qid _ => Q qid) →
  k_queues s1 !! Z.to_nat cpu = Some q1 →
  __sched_mcs_read_criticality_level cpu s1 = Ok (criticality_level q1, s1).
Proof.
  intros Hr1 E1. unfold __sched_mcs_read_criticality_level, cpu_to_sched_priorityq,
    cpu_to_queue_id, bind. destruct (queue_lookup s1 _ cpu Hr1 Hq) as (q2 & E2 & ->).
  rewrite E1 in E2. by injection E2 as <-.
Qed.

Lemma sched_do_push_spec t tk :
  k_tasks s !! t = Some tk → task_ok tk → (∀ qid, t ∉ Q qid) →
  ∃ s', sched_do_push t cpu s = Ok (tt, s') ∧ sched_rep s' (upd_q Q cpu (Q cpu ++ [t])) ∧
    same_sched (set_task s t (task_set_queue_id tk cpu)) s'.
Proof.
  intros Et Hok Hoff. unfold sched_do_push, upd_task, bind, get_task, put_task, mmodify.
  rewrite Et. set (s0 := set_task s t (task_set_queue_id tk cpu)).
  assert (rep s0 (fun qid _ => Q qid)) as Hr0.
  { eapply rep_set_task_off; [exact Hr|done|]. intros qid _. apply Hoff. }
  assert (k_queues s0 !! Z.to_nat cpu = Some q) as Eq0 by done.
  destruct (lock_state s0 _ cpu q Hr0 Hq Eq0) as [Hr1 _].
  destruct (push_spec _ Q cpu t (task_set_queue_id tk cpu) Hr1 Hq) as (s2 & E2 & Hr2 & Hs2);
    [simpl; by rewrite lookup_insert_eq|done|done|apply Hoff|].
  destruct (with_lock_run s0 _ _ cpu q _ _ _ Hr0 Hq Eq0 Hl E2 Hs2 Hr2) as (s3 & E3 & Hr3 & Hs3).
  exists s3. done.
Qed.

Lemma sched_pop_clean_spec :
  (Q cpu = [] ∧ ∃ s', sched_pop_clean cpu s = Ok (None, s') ∧ sched_rep s' Q ∧ same_sched s s') ∨
  (∃ t L1 L2 s', is_best (k_tasks s) (candidates (k_tasks s) (criticality_level q) (Q cpu)) t ∧
     Q cpu = L1 ++ t :: L2 ∧ sched_pop_clean cpu s = Ok (Some t, s') ∧
     sched_rep s' (upd_q Q cpu (L1 ++ L2)) ∧ same_sched s s').
Proof.
  destruct (lock_state s _ cpu q Hr Hq Eq) as [Hr1 Eq1].
  set (s1 := set_queue s cpu (sq_set_locked q true)) in *.
  unfold sched_pop_clean, cpu_to_queue_id.
  destruct (highest_priority_spec s1 Q cpu _ Hr1 Hq Eq1) as [[HQ E]|(t & Hb & E & Hp)].
  - left. split; [done|]. eapply (with_lock_run s _ _ cpu q _ _ s1 Hr Hq Eq Hl);
      [|apply same_sched_refl|done].
    unfold bind. fold s1. rewrite E. done.
  - destruct (pop_spec s1 Q cpu _ Hr1 Hq Eq1) as [[HQ _]|(t' & L1 & L2 & s2 & Hb' & HQ & E2 & Hr2 & Hs2)].
    { exfalso. pose proof (best_in_queue s1 Q cpu _ Hr1 Hq Eq1 t Hb) as Hin. rewrite HQ in Hin.
      by apply elem_of_nil in Hin. }
    right. destruct (with_lock_run s _ (fun qid _ => upd_q Q cpu (L1 ++ L2) qid) cpu q
      (r <~ __sched_priorityq_highest_priority cpu ;;
       if negb (r =? -1) then __sched_priorityq_pop cpu else ret None) (Some t') s2 Hr Hq Eq Hl)
      as (s3 & E3 & Hr3 & Hs3); [|exact Hs2|exact Hr2|].
    + unfold bind. fold s1. rewrite E. unfold prio in Hp.
      rewrite (proj2 (Z.eqb_neq _ (-1))) by lia. exact E2.
    + exists t', L1, L2, s3. split; [exact Hb'|]. done.
Qed.

(** What [sched_pop] decides for a running task. *)
Lemma sched_pop_spec current cur :
  k_tasks s !! current = Some cur →
  let level := criticality_level q in
  (∃ s', sched_pop cpu current s = Ok (None, s') ∧ sched_rep s' Q ∧ same_sched s s' ∧
     ∀ t, is_best (k_tasks s) (candidates (k_tasks s) level (Q cpu)) t →
       gives_way level (t_criticality cur) (t_priority cur)
         (if decide (avail (k_tasks s) level (Q cpu) = []) then 0 else level)
         (tprio (k_tasks s) t) = false) ∨
  (∃ t L1 L2 s', is_best (k_tasks s) (candidates (k_tasks s) level (Q cpu)) t ∧
     Q cpu = L1 ++ t :: L2 ∧ sched_pop cpu current s = Ok (Some t, s') ∧
     sched_rep s' (upd_q Q cpu (L1 ++ L2)) ∧ same_sched s s' ∧
     gives_way level (t_criticality cur) (t_priority cur)
       (if decide (avail (k_tasks s) level (Q cpu) = []) then 0 else level)
       (tprio (k_tasks s) t) = true).
Proof.
  intros Et level. destruct (lock_state s _ cpu q Hr Hq Eq) as [Hr1 Eq1].
  set (s1 := set_queue s cpu (sq_set_locked q true)) in *.
  unfold sched_pop, cpu_to_queue_id.
  match goal with |- context [with_sched_lock cpu ?b] => set (body := b) end.
  destruct (get_bin_spec s1 Q cpu _ Hr1 Hq Eq1) as [[HQ E]|(t & c & b & Hb & E & _ & _ & Hc)].
  - left. destruct (with_lock_run s _ (fun qid _ => Q qid) cpu q body None s1 Hr Hq Eq Hl)
      as (s3 & E3 & Hr3 & Hs3);
      [unfold body, bind; fold s1; rewrite E; reflexivity|apply same_sched_refl|exact Hr1|].
    exists s3. split; [exact E3|]. split; [done|]. split; [done|].
    intros t Hb. pose proof (best_in_queue s Q cpu q Hr Hq Eq t Hb) as Hin. rewrite HQ in Hin.
    by apply elem_of_nil in Hin.
  - simpl in Hc, Hb. fold level in Hc, Hb.
    set (g := gives_way level (t_criticality cur) (t_priority cur) (Z.of_nat c)
                (tprio (k_tasks s) t)).
    assert (∀ u, is_best (k_tasks s) (candidates (k_tasks s) level (Q cpu)) u →
              tprio (k_tasks s) u = tprio (k_tasks s) t) as Huniq.
    { intros u (l1 & l2 & El & Hl1 & Hl2). destruct Hb as (l3 & l4 & El' & Hl3 & Hl4).
      assert (∀ a b l l' x y, candidates (k_tasks s) level (Q cpu) = l ++ x :: l' →
        a = x → b = y → y ∈ candidates (k_tasks s) level (Q cpu) →
        (∀ z, z ∈ l → tprio (k_tasks s) z < tprio (k_tasks s) x) →
        (∀ z, z ∈ l' → tprio (k_tasks s) z <= tprio (k_tasks s) x) →
        tprio (k_tasks s) y <= tprio (k_tasks s) x) as Hmax.
      { intros a b' l l' x y E' _ _ Hy Hlx Hlx'. rewrite E' in Hy.
        apply elem_of_app in Hy as [Hy|[->|Hy]%elem_of_cons];
          [specialize (Hlx _ Hy); lia|lia|by apply Hlx']. }
      apply Z.le_antisymm.
      - eapply (Hmax t u); [exact El'|done|done|rewrite El; set_solver|done|done].
      - eapply (Hmax u t); [exact El|done|done|rewrite El'; set_solver|done|done]. }
    assert (get_task current s1 = Ok (cur, s1)) as Ecur.
    { unfold get_task. simpl. by rewrite Et. }
    destruct g eqn:Eg.
    + destruct (pop_spec s1 Q cpu _ Hr1 Hq Eq1) as [[HQ _]|(t' & L1 & L2 & s2 & Hb' & HQ & E2 & Hr2 & Hs2)].
      { exfalso. pose proof (best_in_queue s Q cpu q Hr Hq Eq t Hb) as Hin. rewrite HQ in Hin.
        by apply elem_of_nil in Hin. }
      right. destruct (with_lock_run s _ (fun qid _ => upd_q Q cpu (L1 ++ L2) qid) cpu q body
        (Some t') s2 Hr Hq Eq Hl) as (s3 & E3 & Hr3 & Hs3); [|exact Hs2|exact Hr2|].
      { unfold body, bind. fold s1. rewrite E. rewrite Ecur.
        rewrite (read_level_run s1 _ Hr1 Eq1). simpl criticality_level. fold level. change (gives_way _ _ _ _ _) with g.
        rewrite Eg. exact E2. }
      exists t', L1, L2, s3. split; [exact Hb'|]. split; [exact HQ|]. split; [exact E3|].
      split; [done|]. split; [done|]. rewrite <- Hc. rewrite (Huniq t' Hb'). exact Eg.
    + left. destruct (with_lock_run s _ (fun qid _ => Q qid) cpu q body None s1 Hr Hq Eq Hl)
        as (s3 & E3 & Hr3 & Hs3); [|apply same_sched_refl|exact Hr1|].
      { unfold body, bind. fold s1. rewrite E. rewrite Ecur.
        rewrite (read_level_run s1 _ Hr1 Eq1). simpl criticality_level. fold level. change (gives_way _ _ _ _ _) with g.
        rewrite Eg. reflexivity. }
      exists s3. split; [exact E3|]. split; [done|]. split; [done|].
      intros u Hu. rewrite <- Hc, (Huniq u Hu). exact Eg.
Qed.
End Queue.

Lemma context_eta c :
  Context (cx_cr8 c) (cx_r15 c) (cx_r14 c) (cx_r13 c) (cx_r12 c) (cx_r11 c) (cx_r10 c)
    (cx_r9 c) (cx_r8 c) (cx_rsi c) (cx_rdi c) (cx_rdx c) (cx_rcx c) (cx_rbx c) (cx_rax c)
    (cx_rbp c) (cx_rsp c) (cx_rflags c) (cx_rip c) (cx_fp_context c) = c.
Proof. by destruct c. Qed.

Lemma save_ctx_run s cpu cur tk regs :
  k_ctx s !! cpu = Some regs → k_tasks s !! cur = Some tk →
  sched_save_current_ctx cpu cur s = Ok (tt, set_task s cur (task_set_context tk regs)).
Proof.
  intros Ec Et. unfold sched_save_current_ctx, upd_task, get_ctx, get_task, bind, put_task, mmodify.
  rewrite Ec, Et, context_eta. done.
Qed.

(** The state in which an interrupted task is put back. *)
Definition log_if (b : bool) (e : event) (s : kern) : kern :=
  if b then Kern (k_tasks s) (k_nodes s) (k_queues s) (k_current s) (k_ctx s)
              (k_timer_pending s) (k_log s ++ [e]) else s.
Definition put_state (s : kern) (cpu : Z) (cur : tid) (tk : task) (regs : context) : kern :=
  set_current (log_if (t_put_callback tk) (EPutCallback cur)
                 (set_task s cur (task_set_context tk regs))) cpu None.
Definition set_state (s : kern) (cpu : Z) (t : tid) (tk : task) : kern :=
  log_if (t_set_callback tk) (ESetCallback t) (set_current (set_ctx s cpu (t_context tk)) cpu (Some t)).

Lemma put_ctx_spec s Q cpu cur tk regs q :
  sched_rep s Q → k_current s !! cpu = Some cur → k_ctx s !! cpu = Some regs →
  k_tasks s !! cur = Some tk → task_ok tk → (∀ qid, cur ∉ Q qid) →
  0 <= t_queue_id tk < Z.of_nat NUM_CPUS →
  k_queues s !! Z.to_nat (t_queue_id tk) = Some q → sq_locked q = false →
  ∃ s', sched_put_current_ctx cpu true s = Ok (tt, s') ∧
    sched_rep s' (upd_q Q (t_queue_id tk) (Q (t_queue_id tk) ++ [cur])) ∧
    same_sched (put_state s cpu cur tk regs) s'.
Proof.
  intros Hr Ecur Ec Et Hok Hoff Hq Eq Hl.
  set (s2 := put_state s cpu cur tk regs).
  assert (sched_rep s2 Q) as Hr2.
  { eapply (rep_same (set_task s cur (task_set_context tk regs))).
    - by eapply rep_set_task_same.
    - unfold s2, put_state, log_if. by destruct (t_put_callback tk).
    - unfold s2, put_state, log_if. by destruct (t_put_callback tk).
    - unfold s2, put_state, log_if. by destruct (t_put_callback tk). }
  assert (k_tasks s2 !! cur = Some (task_set_context tk regs)) as Et2.
  { unfold s2, put_state, log_if. destruct (t_put_callback tk); simpl; by rewrite lookup_insert_eq. }
  assert (k_queues s2 = k_queues s) as Eqs.
  { unfold s2, put_state, log_if. by destruct (t_put_callback tk). }
  destruct (sched_do_push_spec s2 Q (t_queue_id tk) q Hr2 Hq) with (t := cur)
    (tk := task_set_context tk regs) as (s3 & E3 & Hr3 & Hs3); [by rewrite Eqs|done|done|done|done|].
  exists s3. split; [|split; [done|]].
  - unfold sched_put_current_ctx, current_task, mgets. unfold bind at 1. rewrite Ecur.
    unfold bind at 1. simpl not_null. unfold ret at 1. unfold bind at 1.
    rewrite (save_ctx_run _ _ _ _ _ Ec Et). unfold bind at 1, get_task at 1. simpl k_tasks.
    rewrite lookup_insert_eq.
    assert ((if t_put_callback (task_set_context tk regs) then emit (EPutCallback cur) else ret tt)
      (set_task s cur (task_set_context tk regs)) =
      Ok (tt, log_if (t_put_callback tk) (EPutCallback cur) (set_task s cur (task_set_context tk regs)))) as E.
    { unfold log_if. simpl. by destruct (t_put_callback tk). }
    unfold bind at 1. rewrite E. unfold bind at 1, set_current_task, mmodify.
    fold (put_state s cpu cur tk regs). fold s2. unfold sched_push, bind, get_task.
    rewrite Et2. exact E3.
  - assert (set_task s2 cur (task_set_queue_id (task_set_context tk regs) (t_queue_id tk)) = s2) as Hs2.
    { assert (task_set_queue_id (task_set_context tk regs) (t_queue_id tk) = task_set_context tk regs)
        as -> by (by destruct tk).
      unfold set_task. rewrite insert_id by done. by destruct s2. }
    by rewrite Hs2 in Hs3.
Qed.

Lemma upd_task_run s t tk f :
  k_tasks s !! t = Some tk → upd_task t f s = Ok (tt, set_task s t (f tk)).
Proof. intros Et. unfold upd_task, bind, get_task. by rewrite Et. Qed.

Lemma set_ctx_run s cpu t tk :
  k_tasks s !! t = Some tk → is_Some (k_ctx s !! cpu) →
  sched_set_ctx cpu t s = Ok (tt, set_state s cpu t tk).
Proof.
  intros Et [c Ec]. unfold sched_set_ctx, bind, get_task, get_ctx, mmodify, set_current_task.
  rewrite Et, Ec, context_eta. unfold set_state, log_if. by destruct (t_set_callback tk).
Qed.

Lemma log_if_fields b e s :
  k_tasks (log_if b e s) = k_tasks s ∧ k_nodes (log_if b e s) = k_nodes s ∧
  k_queues (log_if b e s) = k_queues s ∧ k_current (log_if b e s) = k_current s ∧
  k_ctx (log_if b e s) = k_ctx s.
Proof. unfold log_if. by destruct b. Qed.

(** Switching to a task saves the registers of the outgoing one, queues it
    behind its equals and resumes the incoming one where it was stopped. *)
Lemma switch_ctx_spec s Q cpu cur tk regs q t tkt :
  sched_rep s Q → k_current s !! cpu = Some cur → k_ctx s !! cpu = Some regs →
  k_tasks s !! cur = Some tk → task_ok tk → (∀ qid, cur ∉ Q qid) →
  0 <= t_queue_id tk < Z.of_nat NUM_CPUS →
  k_queues s !! Z.to_nat (t_queue_id tk) = Some q → sq_locked q = false →
  t ≠ cur → k_tasks s !! t = Some tkt →
  ∃ s', sched_switch_ctx cpu t true s = Ok (tt, s') ∧
    sched_rep s' (upd_q Q (t_queue_id tk) (Q (t_queue_id tk) ++ [cur])) ∧
    k_current s' = <[cpu := t]> (k_current s) ∧
    k_ctx s' = <[cpu := t_context tkt]> (k_ctx s) ∧
    k_tasks s' = <[cur := task_set_context tk regs]> (k_tasks s).
Proof.
  intros Hr Ecur Ec Et Hok Hoff Hq Eq Hl Hne Ett.
  destruct (put_ctx_spec s Q cpu cur tk regs q) as (s1 & E1 & Hr1 & Hs1); try done.
  destruct Hs1 as (Ht1 & (Hc1 & Hx1 & _ & _) & _).
  destruct (log_if_fields (t_put_callback tk) (EPutCallback cur) (set_task s cur (task_set_context tk regs)))
    as (L1 & L2 & L3 & L4 & L5).
  unfold put_state in Ht1, Hc1, Hx1. simpl in Ht1, Hc1, Hx1.
  rewrite L1 in Ht1. rewrite L4 in Hc1. rewrite L5 in Hx1. simpl in Ht1, Hc1, Hx1.
  exists (set_state s1 cpu t tkt).
  destruct (log_if_fields (t_set_callback tkt) (ESetCallback t)
    (set_current (set_ctx s1 cpu (t_context tkt)) cpu (Some t))) as (M1 & M2 & M3 & M4 & M5).
  split; [|split; [|split_and!]].
  - unfold sched_switch_ctx, bind. rewrite E1. apply set_ctx_run.
    + by rewrite Ht1, lookup_insert_ne by done.
    + rewrite Hx1. eauto.
  - eapply (rep_same s1); [done|exact M1|exact M2|exact M3].
  - unfold set_state. rewrite M4. simpl. rewrite Hc1. apply insert_delete_eq.
  - unfold set_state. rewrite M5. simpl. by rewrite Hx1.
  - unfold set_state. rewrite M1. exact Ht1.
Qed.

(** Tasks that differ in other fields only compete alike. *)
Lemma choice_ext tm tm' level l t :
  (∀ u, tprio tm' u = tprio tm u ∧ tcrit tm' u = tcrit tm u) →
  avail tm' level l = avail tm level l ∧ candidates tm' level l = candidates tm level l ∧
  (is_best tm' (candidates tm' level l) t → is_best tm (candidates tm level l) t) ∧
  (is_best tm (candidates tm level l) t → is_best tm' (candidates tm' level l) t).
Proof.
  intros He.
  assert (avail tm' level l = avail tm level l) as Ha.
  { apply list_filter_iff. intros u. by rewrite (proj2 (He u)). }
  assert (candidates tm' level l = candidates tm level l) as Hc by (unfold candidates; by rewrite Ha).
  assert (∀ m, is_best tm' m t ↔ is_best tm m t) as Hb.
  { intros m. unfold is_best. setoid_rewrite (λ u, proj1 (He u)). done. }
  rewrite Hc. split; [done|]. split; [done|]. split; apply Hb.
Qed.

Lemma set_flags_ext s t tk a b c u :
  k_tasks s !! t = Some tk →
  tprio (<[t := task_set_flags tk a b c]> (k_tasks s)) u = tprio (k_tasks s) u ∧
  tcrit (<[t := task_set_flags tk a b c]> (k_tasks s)) u = tcrit (k_tasks s) u.
Proof.
  intros Et. unfold tprio, tcrit. destruct (decide (t = u)) as [<-|].
  - by rewrite lookup_insert_eq, Et.
  - by rewrite lookup_insert_ne.
Qed.

Lemma sched_rep_ext s Q Q' : sched_rep s Q → (∀ qid, Q' qid = Q qid) → sched_rep s Q'.
Proof.
  intros Hr He. eapply rep_change; [exact Hr|..]; intros; rewrite ?He in *; try done.
  - apply (r_nodup _ _ Hr qid 0%nat).
  - by apply (r_tasks _ _ Hr qid 0%nat).
  - by left.
Qed.

(** A preemptible task's tick: its request is cleared and the next one is
    looked for. *)
Lemma preempt_start s cpu cur tk :
  k_current s !! cpu = Some cur → k_tasks s !! cur = Some tk →
  t_preempted_early tk = false → t_preemption_count tk = 0 →
  sched_preempt cpu s = (t <~ sched_pop cpu cur ;;
    match t with Some t => sched_switch_ctx cpu t true | None => ret tt end)
    (set_task s cur (task_set_flags tk false (t_preempted_early tk) (t_timed_out tk))).
Proof.
  intros Ecur Et Hearly Hcount. unfold sched_preempt, current_task, mgets.
  unfold bind at 1. rewrite Ecur. unfold bind at 1. simpl not_null. unfold ret at 1.
  unfold bind at 1, get_task at 1. rewrite Et, Hearly. unfold is_preemption_enabled.
  rewrite Hcount. change (negb (0 =? 0)) with false. cbv iota. simpl negb. cbv iota.
  unfold bind at 1. unfold clear_yield_request. by rewrite (upd_task_run s cur tk), Hearly.
Qed.

Lemma best_set_flags s cur tk a b c level Q t :
  k_tasks s !! cur = Some tk →
  is_best (k_tasks (set_task s cur (task_set_flags tk a b c)))
    (candidates (k_tasks (set_task s cur (task_set_flags tk a b c))) level Q) t ↔
  is_best (k_tasks s) (candidates (k_tasks s) level Q) t.
Proof.
  intros Et. pose proof (fun u => set_flags_ext s cur tk a b c u Et) as Hext.
  destruct (choice_ext (k_tasks s) _ level Q t Hext) as (_ & _ & ? & ?). by split.
Qed.

(** ** What the scheduler guarantees *)

(** C24.  The dispatcher's pop, for any history of pushes and pops kept by
    [sched_rep]: it returns nothing exactly when no task is queued; otherwise,
    among the tasks at the current criticality level or above (all tasks if
    there are none), the one of the highest priority that has waited longest,
    unlinked from every list while the others keep their order; the queue's
    lock is free again. *)
Theorem sched_pop_chooses s Q cpu q :
  sched_rep s Q → 0 <= cpu < Z.of_nat NUM_CPUS → k_queues s !! Z.to_nat cpu = Some q →
  sq_locked q = false →
  ∃ r s', sched_pop_clean cpu s = Ok (r, s') ∧ unlocked s' cpu ∧
    match r with
    | None => Q cpu = [] ∧ sched_rep s' Q
    | Some t => is_best (k_tasks s) (candidates (k_tasks s) (criticality_level q) (Q cpu)) t ∧
        ∃ L1 L2, Q cpu = L1 ++ t :: L2 ∧ sched_rep s' (upd_q Q cpu (L1 ++ L2))
    end.
Proof.
  intros Hr Hq Eq Hl.
  destruct (sched_pop_clean_spec s Q cpu q Hr Hq Eq Hl)
    as [(HQ & s' & E & Hr' & Hs)|(t & L1 & L2 & s' & Hb & HQ & E & Hr' & Hs)].
  - exists None, s'. split; [done|]. split; [by eapply unlocked_same|done].
  - exists (Some t), s'. split; [done|]. split; [by eapply unlocked_same|]. split; [done|].
    by exists L1, L2.
Qed.

(** Queueing a task appends it to its processor's run queue, in every
    criticality list it belongs to, and leaves the queue's lock free. *)
Theorem sched_do_push_appends s Q cpu q t tk :
  sched_rep s Q → 0 <= cpu < Z.of_nat NUM_CPUS → k_queues s !! Z.to_nat cpu = Some q →
  sq_locked q = false → k_tasks s !! t = Some tk → task_ok tk → (∀ qid, t ∉ Q qid) →
  ∃ s', sched_do_push t cpu s = Ok (tt, s') ∧ sched_rep s' (upd_q Q cpu (Q cpu ++ [t])) ∧
    unlocked s' cpu ∧ __sched_priorityq_is_queued t s' = Ok (true, s').
Proof.
  intros Hr Hq Eq Hl Et Hok Hoff.
  destruct (sched_do_push_spec s Q cpu q Hr Hq Eq Hl t tk Et Hok Hoff) as (s' & E & Hr' & Ht & Hm & Hqs).
  exists s'. split; [done|]. split; [done|].
  specialize (Hqs (Z.to_nat cpu)). simpl in Hqs. rewrite Eq in Hqs.
  destruct (k_queues s' !! Z.to_nat cpu) as [q'|] eqn:Eq'; [|done]. split.
  - exists q'. split; [done|]. destruct Hqs as (_ & -> & _). done.
  - rewrite (is_queued_spec s' _ cpu q' Hr' Hq Eq' t (task_set_queue_id tk cpu)).
    + rewrite bool_decide_true; [done|]. rewrite upd_q_eq. set_solver.
    + rewrite Ht. simpl. by rewrite lookup_insert_eq.
    + done.
    + done.
Qed.

(** The preemption tick: a preemptible task keeps the processor exactly
    when nothing queued beats it under the mixed-criticality rule; otherwise
    the best candidate is resumed with the registers it was stopped with,
    while the old task's registers are saved and it goes to the tail. *)
Theorem sched_preempt_switches s Q cpu q cur tk regs :
  sched_rep s Q → 0 <= cpu < Z.of_nat NUM_CPUS → k_queues s !! Z.to_nat cpu = Some q →
  sq_locked q = false → k_current s !! cpu = Some cur → k_ctx s !! cpu = Some regs →
  k_tasks s !! cur = Some tk → task_ok tk → t_queue_id tk = cpu → (∀ qid, cur ∉ Q qid) →
  t_preempted_early tk = false → t_preemption_count tk = 0 →
  let tm := k_tasks s in
  let level := criticality_level q in
  let next_level := if decide (avail tm level (Q cpu) = []) then 0 else level in
  let beats t := gives_way level (t_criticality tk) (t_priority tk) next_level (tprio tm t) in
  ∃ s', sched_preempt cpu s = Ok (tt, s') ∧
    ((sched_rep s' Q ∧ k_current s' = k_current s ∧ k_ctx s' = k_ctx s ∧
      ∀ t, is_best tm (candidates tm level (Q cpu)) t → beats t = false) ∨
     (∃ t tkt L1 L2, is_best tm (candidates tm level (Q cpu)) t ∧ beats t = true ∧
        Q cpu = L1 ++ t :: L2 ∧ tm !! t = Some tkt ∧
        sched_rep s' (upd_q Q cpu (L1 ++ L2 ++ [cur])) ∧
        k_current s' = <[cpu := t]> (k_current s) ∧
        k_ctx s' = <[cpu := t_context tkt]> (k_ctx s) ∧
        ∃ tk', k_tasks s' !! cur = Some tk' ∧ t_context tk' = regs)).
Proof.
  intros Hr Hq Eq Hl Ecur Ec Et Hok Hqid Hoff Hearly Hcount tm level next_level beats.
  set (tk1 := task_set_flags tk false (t_preempted_early tk) (t_timed_out tk)).
  set (s1 := set_task s cur tk1).
  assert (sched_rep s1 Q) as Hr1 by (by eapply rep_set_task_same).
  assert (k_tasks s1 !! cur = Some tk1) as Et1 by (simpl; by rewrite lookup_insert_eq).
  rewrite (preempt_start s cpu cur tk) by done. fold tk1 s1.
  pose proof (fun u => set_flags_ext s cur tk false (t_preempted_early tk) (t_timed_out tk) u Et) as Hext.
  fold tk1 in Hext.
  destruct (choice_ext (k_tasks s) _ level (Q cpu) cur Hext) as (Hav & _).
  assert (∀ t, gives_way level (t_criticality tk1) (t_priority tk1)
      (if decide (avail (k_tasks s1) level (Q cpu) = []) then 0 else level) (tprio (k_tasks s1) t) =
      beats t) as Hbeats.
  { intros t. unfold beats, next_level. simpl k_tasks. rewrite Hav.
    by rewrite (proj1 (Hext t)). }
  unfold bind.
  destruct (sched_pop_spec s1 Q cpu q Hr1 Hq Eq Hl cur tk1 Et1)
    as [(s2 & -> & Hr2 & (_ & (Hm1 & Hm2 & _) & _) & Hno)|(t & L1 & L2 & s2 & Hb & HQ & -> & Hr2 & Hs2 & Hyes)].
  - exists s2. split; [done|]. left. split_and!; try done.
    intros t Hb. rewrite <- Hbeats. apply Hno. by apply best_set_flags.
  - destruct (r_tasks _ _ Hr cpu 0%nat t (best_in_queue s1 Q cpu q Hr1 Hq Eq t Hb)) as (tkt & Ett & _).
    assert (t ≠ cur) as Hne.
    { intros ->. by apply (Hoff cpu), (best_in_queue s1 Q cpu q Hr1 Hq Eq cur). }
    destruct (unlocked_same _ _ _ _ Hs2 Eq Hl) as (q2 & Eq2 & Hl2).
    destruct Hs2 as (Ht2 & (Hc2 & Hx2 & _) & _).
    destruct (switch_ctx_spec s2 (upd_q Q cpu (L1 ++ L2)) cpu cur tk1 regs q2 t tkt)
      as (s3 & E3 & Hr3 & Hc3 & Hx3 & Ht3); try done; rewrite ?Hc2, ?Hx2, ?Ht2; try done.
    + intros qid. unfold upd_q. specialize (Hoff cpu) as Hoff'. rewrite HQ in Hoff'.
      destruct (decide (qid = cpu)); [set_solver|apply Hoff].
    + simpl. rewrite Hqid. lia.
    + simpl. by rewrite Hqid.
    + simpl. by rewrite lookup_insert_ne.
    + simpl t_queue_id in Hr3. rewrite Hqid, upd_q_eq in Hr3.
      exists s3. split; [done|]. right. exists t, tkt, L1, L2.
      split; [by apply (best_set_flags s cur tk false (t_preempted_early tk) (t_timed_out tk))|]. split; [by rewrite <- Hbeats|].
      rewrite Hc3, Hx3, Hc2, Hx2. split_and!; try done.
      * eapply sched_rep_ext; [exact Hr3|]. intros qid. unfold upd_q.
        destruct (decide (qid = cpu)); [by rewrite app_assoc|done].
      * rewrite Ht3, lookup_insert_eq. eauto.
Qed.

Lemma get_queue_run s qid q :
  0 <= qid → k_queues s !! Z.to_nat qid = Some q → queue_to_sched_priorityq qid s = Ok (q, s).
Proof.
  intros Hq E. unfold queue_to_sched_priorityq. rewrite E.
  by rewrite (proj2 (Z.ltb_ge qid 0)) by lia.
Qed.

Lemma set_queue_twice s qid q q' : set_queue (set_queue s qid q) qid q' = set_queue s qid q'.
Proof. unfold set_queue. simpl. by rewrite list_insert_insert_eq. Qed.

Lemma set_queue_lookup s qid q q' :
  k_queues s !! Z.to_nat qid = Some q → k_queues (set_queue s qid q') !! Z.to_nat qid = Some q'.
Proof. intros E. apply list_lookup_insert_eq. by eapply lookup_lt_Some. Qed.

(** A body run under the lock that sets the level to [m]. *)
Lemma level_body_run {B} s qid q m (body : M kern B) r :
  0 <= qid → k_queues s !! Z.to_nat qid = Some q → sq_locked q = false →
  body (set_queue s qid (sq_set_locked q true)) =
    Ok (r, set_queue s qid (sq_set_level (sq_set_locked q true) m)) →
  with_sched_lock qid body s = Ok (r, set_queue s qid (sq_set_level q m)).
Proof.
  intros Hq E Hl Hb. unfold with_sched_lock, sched_lock, sched_unlock, bind.
  rewrite (get_queue_run _ _ _ Hq E), Hl. unfold mmodify. rewrite Hb.
  rewrite (get_queue_run _ _ _ Hq (set_queue_lookup _ _ _ _ E)).
  change (sq_locked (sq_set_level (sq_set_locked q true) m)) with true. cbv beta iota. rewrite set_queue_twice. unfold ret. destruct q; simpl in *; by subst.
Qed.

Lemma read_level_locked s cpu q :
  0 <= cpu → k_queues s !! Z.to_nat cpu = Some q → sq_locked q = false →
  sched_mcs_read_criticality_level cpu s = Ok (criticality_level q, s).
Proof.
  intros Hq E Hl.
  assert (set_queue s cpu (sq_set_level q (criticality_level q)) = s) as Es.
  { unfold set_queue. rewrite list_insert_id; [by destruct s|]. rewrite E. by destruct q. }
  rewrite <- Es at 2. apply level_body_run; try done.
  unfold __sched_mcs_read_criticality_level, cpu_to_sched_priorityq, cpu_to_queue_id, bind.
  rewrite (get_queue_run _ _ _ Hq (set_queue_lookup _ _ _ _ E)). unfold ret. by destruct q.
Qed.

(** The criticality level of a processor stays within its range: raising
    stops at the highest level and lowering at 0, saying whether they moved; a
    write within the range is what the next read returns, and one above it is
    refused with -EINVAL; the queued tasks and the lock are as before. *)
Theorem sched_mcs_level_bounds s Q cpu q n :
  sched_rep s Q → 0 <= cpu < Z.of_nat NUM_CPUS → k_queues s !! Z.to_nat cpu = Some q →
  sq_locked q = false → 0 <= n < 256 →
  let leaves op level := sched_rep op Q ∧ unlocked op cpu ∧
    sched_mcs_read_criticality_level cpu op = Ok (level, op) in
  (∃ s', sched_mcs_inc_criticality_level cpu s =
      Ok (criticality_level q <? SCHED_MAX_CRITICALITY, s') ∧
    leaves s' (Z.min SCHED_MAX_CRITICALITY (criticality_level q + 1))) ∧
  (∃ s', sched_mcs_dec_criticality_level cpu s = Ok (0 <? criticality_level q, s') ∧
    leaves s' (Z.max 0 (criticality_level q - 1))) ∧
  (∃ s', sched_mcs_write_criticality_level cpu n s =
      Ok (if SCHED_MAX_CRITICALITY <? n then - EINVAL else 0, s') ∧
    leaves s' (if SCHED_MAX_CRITICALITY <? n then criticality_level q else n)).
Proof.
  intros Hr [Hq0 Hq] Eq Hl Hn leaves.
  assert (0 <= criticality_level q <= SCHED_MAX_CRITICALITY) as Hlv.
  { destruct (r_queue _ _ Hr cpu (conj Hq0 Hq)) as (q' & E' & _ & Hlv' & _). congruence. }
  change SCHED_MAX_CRITICALITY with 4 in *. change SCHED_MIN_CRITICALITY with 0 in *.
  assert (∀ {B} (body : M kern B) r m, 0 <= m <= 4 →
    body (set_queue s cpu (sq_set_locked q true)) =
      Ok (r, set_queue s cpu (sq_set_level (sq_set_locked q true) m)) →
    ∃ s', with_sched_lock cpu body s = Ok (r, s') ∧ leaves s' m) as Hbody.
  { intros B body r m Hm Hb. exists (set_queue s cpu (sq_set_level q m)).
    split; [by apply level_body_run|].
    pose proof (set_queue_lookup s cpu q (sq_set_level q m) Eq) as E1. split; [|split].
    - by eapply rep_set_queue.
    - by eexists.
    - by rewrite (read_level_locked _ _ _ Hq0 E1). }
  pose proof (get_queue_run _ _ _ Hq0 (set_queue_lookup s cpu q (sq_set_locked q true) Eq)) as Erun.
  assert (sq_set_level (sq_set_locked q true) (criticality_level q) = sq_set_locked q true) as Esame
    by (by destruct q).
  split; [|split]; apply Hbody; try case_match; try lia;
    unfold __sched_mcs_write_criticality_level, cpu_to_sched_priorityq, cpu_to_queue_id, bind;
    rewrite ?Erun; simpl; change SCHED_MAX_CRITICALITY with 4 in *;
    change SCHED_MIN_CRITICALITY with 0 in *.
  - destruct (Z.ltb_spec (criticality_level q) 4).
    + rewrite Z.min_r, (wrap_small 8) by lia. unfold mmodify. by rewrite set_queue_twice.
    + rewrite Z.min_l by lia. replace 4 with (criticality_level q) by lia. by rewrite Esame.
  - destruct (Z.ltb_spec 0 (criticality_level q)).
    + rewrite Z.max_r, (wrap_small 8) by lia. unfold mmodify. by rewrite set_queue_twice.
    + rewrite Z.max_l by lia. replace 0 with (criticality_level q) by lia. by rewrite Esame.
  - destruct (Z.ltb_spec 4 n); [|lia]. by rewrite Esame.
  - destruct (Z.ltb_spec 4 n); [lia|]. unfold mmodify. rewrite Erun. by rewrite set_queue_twice.
Qed.

(** ** A concrete machine *)

Definition ex_ctx (n : Z) : context := Context 0 0 0 0 0 0 0 0 0 0 0 0 0 0 0 0 n 514 n 0.
Definition ex_task (n priority criticality : Z) : task :=
  Task (ex_ctx n) false false priority priority criticality criticality 0 None 0 false false false.
Definition ex_kern : kern :=
  Kern (list_to_map [(0%nat, ex_task 0 7 2); (1%nat, ex_task 1 9 2); (2%nat, ex_task 2 30 1)])
    (list_to_map (flat_map (fun t => map (fun c => ((t, c), LNode None None)) (seq 0 5)) [0; 1; 2]%nat))
    (replicate NUM_CPUS (SchedPriorityq (replicate NUM_CRITICALITIES priorityq_zero) 2
       (Bmp256 0 0 0 0) 0 false))
    {[ 0 := 0%nat ]} {[ 0 := ex_ctx 100 ]} (fun _ => false) [].
Definition ran {A} (m : M kern A) (s : kern) : kern :=
  match m s with Ok (_, s') => s' | Fault _ => s end.
Definition ex_queued : kern := ran (sched_do_push 2%nat 0) (ran (sched_do_push 1%nat 0) ex_kern).

Lemma ex_kern_rep : sched_rep ex_kern (fun _ => []).
Proof.
  split.
  - intros qid Hq. eexists. split; [apply lookup_replicate; split; [reflexivity|lia]|].
    split; [done|]. split; [done|]. intros c b E. simpl in E.
    apply (lookup_replicate_1 5) in E as [-> _].
    eapply pq_rep_ext; [apply pq_rep_zero|]. intros p _. done.
  - done.
  - intros. apply NoDup_nil_2.
  - by intros qid c t ?%elem_of_nil.
  - intros t tk c Et Hc _. unfold NUM_CRITICALITIES in Hc.
    destruct t as [|[|[|t]]]; [| | |by cbn in Et; rewrite !lookup_insert_ne, lookup_empty in Et by lia];
      destruct c as [|[|[|[|[|c]]]]]; try lia; vm_compute; reflexivity.
Qed.

Lemma ran_ok {A} (m : M kern A) s r s' : m s = Ok (r, s') → ran m s = s'.
Proof. unfold ran. by intros ->. Qed.

Lemma ex_queued_rep : ∃ Q, sched_rep ex_queued Q ∧ Q 0 = [1; 2]%nat ∧ (∀ qid, 0%nat ∉ Q qid) ∧
  (∀ qid t, t ∈ Q qid → t = 1 ∨ t = 2)%nat.
Proof.
  set (q0 := SchedPriorityq (replicate NUM_CRITICALITIES priorityq_zero) 2 (Bmp256 0 0 0 0) 0 false).
  assert (0 <= 0 < Z.of_nat NUM_CPUS) as Hcpu by (vm_compute; split; congruence).
  assert (∀ n p c, 0 <= p < 256 → 0 <= c <= 4 → task_ok (ex_task n p c)) as Hok by (by split).
  destruct (sched_do_push_spec ex_kern (fun _ => []) 0 q0 ex_kern_rep Hcpu eq_refl eq_refl
    1%nat (ex_task 1 9 2) eq_refl (Hok 1 9 2 ltac:(lia) ltac:(lia)) (fun _ => not_elem_of_nil _))
    as (s1 & E1 & Hr1 & (Ht1 & _ & Hq1)).
  set (Q1 := upd_q (fun _ => []) 0 [1%nat]) in *.
  specialize (Hq1 0%nat). destruct (k_queues s1 !! 0%nat) as [q1|] eqn:Eq1; [|by destruct Hq1].
  destruct (sched_do_push_spec s1 Q1 0 q1 Hr1 Hcpu Eq1 ltac:(by destruct Hq1 as (_ & -> & _))
    2%nat (ex_task 2 30 1)) as (s2 & E2 & Hr2 & _).
  - rewrite Ht1. reflexivity.
  - apply Hok; lia.
  - intros qid. unfold Q1, upd_q. destruct (decide (qid = 0)); set_solver.
  - unfold ex_queued. rewrite (ran_ok _ _ _ _ E1), (ran_ok _ _ _ _ E2).
    eexists. split; [exact Hr2|]. split; [done|].
    assert (∀ qid t, t ∈ upd_q Q1 0 (Q1 0 ++ [2%nat]) qid → t = 1%nat ∨ t = 2%nat) as Hin.
    { intros qid t. unfold Q1, upd_q. simpl. destruct (decide (qid = 0)); set_solver. }
    split; [|done]. intros qid Hi. apply Hin in Hi. lia.
Qed.

Lemma ex_queued_queue : ∃ q, k_queues ex_queued !! Z.to_nat 0 = Some q ∧ sq_locked q = false ∧
  criticality_level q = 2.
Proof. eexists. split; [vm_compute; reflexivity|]. by vm_compute. Qed.

Lemma sched_pop_chooses_witness :
  ∃ Q s', sched_rep ex_queued Q ∧ Q 0 = [1; 2]%nat ∧
    sched_pop_clean 0 ex_queued = Ok (Some 1%nat, s') ∧ sched_rep s' (upd_q Q 0 [2%nat]).
Proof.
  destruct ex_queued_rep as (Q & Hr & HQ & _). destruct ex_queued_queue as (q & Eq & Hl & _).
  assert (0 <= 0 < Z.of_nat NUM_CPUS) as Hcpu by (vm_compute; split; congruence).
  destruct (sched_pop_chooses ex_queued Q 0 q Hr Hcpu Eq Hl) as (r & s' & E & _ & Hm).
  assert (r = Some 1%nat) as -> by (vm_compute in E; congruence).
  destruct Hm as (_ & L1 & L2 & HQ' & Hr').
  exists Q, s'. split; [done|]. split; [done|]. split; [done|].
  rewrite HQ in HQ'. destruct L1 as [|x L1]; simpl in *; [by injection HQ' as <-|].
  destruct L1 as [|y L1]; simpl in HQ'; [congruence|]. destruct L1; simpl in HQ'; congruence.
Defined.

Lemma sched_do_push_appends_witness :
  ∃ s', sched_do_push 1 0 ex_kern = Ok (tt, s') ∧
    sched_rep s' (upd_q (fun _ => []) 0 [1%nat]) ∧ unlocked s' 0 ∧
    __sched_priorityq_is_queued 1 s' = Ok (true, s').
Proof.
  eapply (sched_do_push_appends ex_kern (fun _ => []) 0 _ 1%nat (ex_task 1 9 2) ex_kern_rep).
  - vm_compute; split; congruence.
  - reflexivity.
  - reflexivity.
  - reflexivity.
  - by vm_compute.
  - intros _. apply not_elem_of_nil.
Defined.

Lemma sched_preempt_switches_witness :
  ∃ s', sched_preempt 0 ex_queued = Ok (tt, s') ∧ k_current s' !! 0 = Some 1%nat ∧
    k_ctx s' !! 0 = Some (ex_ctx 1) ∧ ∃ tk, k_tasks s' !! 0%nat = Some tk ∧ t_context tk = ex_ctx 100.
Proof.
  destruct ex_queued_rep as (Q & Hr & HQ & Hno & _). destruct ex_queued_queue as (q & Eq & Hl & Hlv).
  assert (0 <= 0 < Z.of_nat NUM_CPUS) as Hcpu by (vm_compute; split; congruence).
  destruct (sched_preempt_switches ex_queued Q 0 q 0%nat (ex_task 0 7 2) (ex_ctx 100) Hr Hcpu Eq Hl)
    as (s' & E & H); [vm_compute; reflexivity|vm_compute; reflexivity|vm_compute; reflexivity
    |by vm_compute|reflexivity|exact Hno|reflexivity|reflexivity|].
  exists s'. split; [exact E|].
  assert (match sched_preempt 0 ex_queued with Ok (_, s1) => k_current s1 !! 0 | _ => None end = Some 1%nat)
    as Ecur by (by vm_compute). rewrite E in Ecur.
  destruct H as [(_ & Hc & _)|(t & tkt & L1 & L2 & _ & _ & _ & Et & _ & Hc & Hx & Htk)].
  - rewrite Hc in Ecur. vm_compute in Ecur. discriminate Ecur.
  - rewrite Hc, lookup_insert_eq in Ecur. injection Ecur as ->.
    rewrite Hc, Hx, !lookup_insert_eq. vm_compute in Et. injection Et as <-.
    split; [reflexivity|]. split; [reflexivity|exact Htk].
Defined.
