(* ===== verification/Twan.v ===== *)
(** * Twan: the state of the hypervisor

    The data of include/subsys/twanvisor/: a processor's [vper_cpu] with its
    [vscheduler] (twanvisor.h, vsched_dsa.h), the [vcpu] (vcpu.h), the
    [vpartition] and the table of partitions (vpartition.h), the registers of
    a vcall (varch.h).  Virtual CPUs are named by their address: the idle one
    of a processor, or an element of a partition's array.

    The operations run on the processor [h_this]; a lock is held by it or by
    nobody (the locks themselves are proved in Spinlock, Rwlock and Mcslock),
    so taking a held lock is the fault [FDeadlock].  IPIs, timer reloads and
    other effects on the machine are recorded in [h_log]. *)

From S2P Require Import Prelude Std Bmp Dq DeltaChain SchedDsa.
From coqutil Require Import Datatypes.RecordSetters.
From Stdlib Require Import ZArith Lia Bool.
From stdpp Require Import base gmap list numbers sets.
Export TriangleBracketNotations.

Local Open Scope Z_scope.

(** CONFIG_TWANVISOR_VSCHED_NUM_CRITICALITIES and _NUM_VTIMERS, at their defaults *)
Definition VSCHED_NUM_CRITICALITIES : nat := 5.
Definition VSCHED_MIN_CRITICALITY : Z := 0.
Definition VSCHED_MAX_CRITICALITY : Z := Z.of_nat VSCHED_NUM_CRITICALITIES - 1.
Definition VNUM_VTIMERS : Z := 3.
Definition NMI : Z := 2.

(** ** Virtual CPUs *)

Inductive vptr : Type :=
  | VIdle (cpu : Z)           (* &vper_cpu_data(cpu)->vscheduler.idle_vcpu *)
  | VOf (vcpus : Z) (i : Z).  (* &vcpus[i] *)
#[export] Instance vptr_eq_dec : EqDecision vptr.
Proof. solve_decision. Defined.
#[export] Instance vptr_countable : Countable vptr.
Proof.
  refine (inj_countable'
    (fun v => match v with VIdle c => inl c | VOf b i => inr (b, i) end)
    (fun x => match x with inl c => VIdle c | inr (b, i) => VOf b i end) _).
  by intros [].
Defined.

(** The list nodes embedded in a vcpu. *)
Inductive vnode : Type :=
  | NSched (v : vptr) (criticality : nat)  (* vsched_nodes *)
  | NDisp (v : vptr) (vector : Z)          (* vdispatch_nodes *)
  | NIpi (v : vptr) (cpu : Z).             (* ipi_nodes *)
#[export] Instance vnode_eq_dec : EqDecision vnode.
Proof. solve_decision. Defined.
#[export] Instance vnode_countable : Countable vnode.
Proof.
  refine (inj_countable'
    (fun n => match n with NSched v c => inl (v, c) | NDisp v i => inr (inl (v, i))
              | NIpi v i => inr (inr (v, i)) end)
    (fun x => match x with inl (v, c) => NSched v c | inr (inl (v, i)) => NDisp v i
              | inr (inr (v, i)) => NIpi v i end) _).
  by intros [].
Defined.
(** container_of: meaningful for the node of that index only. *)
Definition vsched_node_to_vcpu (n : vnode) (criticality : Z) : option vptr :=
  match n with
  | NSched v c => if Z.of_nat c =? criticality then Some v else None
  | _ => None end.
Definition dispatch_node_to_vcpu (n : vnode) (vector : Z) : option vptr :=
  match n with NDisp v i => if i =? vector then Some v else None | _ => None end.

Inductive vcpu_state_t : Type :=
  VREADY | VRUNNING | VPAUSED | VPV_SPINNING | VTRANSITIONING | VTERMINATED | VINITIALIZING.
#[export] Instance vcpu_state_eq_dec : EqDecision vcpu_state_t.
Proof. solve_decision. Defined.
Definition vcpu_state_val (s : vcpu_state_t) : Z :=
  match s with VREADY => 0 | VRUNNING => 1 | VPAUSED => 2 | VPV_SPINNING => 3
             | VTRANSITIONING => 4 | VTERMINATED => 5 | VINITIALIZING => 6 end.

Inductive vcpu_pv_spin_state_t : Type := VSPIN_NONE | VSPIN_PAUSED | VSPIN_KICKED.
#[export] Instance vspin_eq_dec : EqDecision vcpu_pv_spin_state_t.
Proof. solve_decision. Defined.

Record vsched_metadata := VschedMetadata {
  state : vcpu_state_t;
  tlb_flush_pending : bool;
  criticality : Z;
  time_slice_ticks : Z;
  current_time_slice_ticks : Z;
  rearm : bool;
  terminate : bool;
  pv_spin_state : vcpu_pv_spin_state_t;
}.

(** [vinterrupt_delivery_data_t]: the fields of visr_pending.delivery *)
Record vinterrupt_delivery_data_t := Delivery {
  in_intl : Z;          (* 16 bits: the interrupt levels in service *)
  nmi_pending : bool;
  intl : Z;             (* 4 bits: the current level *)
  int_window_exit : bool;
  nmi_window_exit : bool;
}.

Record vtimer := Vtimer {
  tm_vector : Z;
  tm_periodic : bool;
  tm_armed : bool;
  tm_nmi : bool;
  tm_ticks : Z;
}.

Inductive interrupt_type_t : Type :=
  | INTERRUPT_TYPE_EXTERNAL | INTERRUPT_TYPE_NMI | INTERRUPT_TYPE_HARDWARE_EXCEPTION
  | INTERRUPT_TYPE_SOFTWARE_INT | INTERRUPT_TYPE_PRIV_SOFTWARE_EXCEPTION
  | INTERRUPT_TYPE_SOFTWARE_EXCEPTION | INTERRUPT_TYPE_OTHER_EVENT.

(** [vectored_events_info_t]: an event whose delivery was interrupted *)
Record vectored_events_info_t := VectoredEvent {
  vectored_event_type : interrupt_type_t;
  ve_vector : Z;
  errcode_delivered : bool;
}.

(** [voperation_queue]: what is to be done when the guest is entered again *)
Record voperations := Voperations {
  vmwrite_cr4 : bool;
  vmwrite_cr0 : bool;
  should_advance : bool;
  idt_vectoring : bool;
  use_synth_errcode : bool;
  op_cr0 : Z;
  op_cr4 : Z;
  idt_vectoring_info : vectored_events_info_t;
  synth_errcode : Z;
}.

(** What VM entry injects: [vmentry_interrupt_info_t], with the error code and
    the instruction length where they are delivered. *)
Record vmentry_event := VmentryEvent {
  ev_vector : Z;
  ev_type : interrupt_type_t;
  ev_errcode : option Z;
  ev_length : option Z;
}.

(** What the processor stored at a VM exit; an event is there if it is valid. *)
Record vmexit_info := VmexitInfo {
  basic_reason : Z;
  vmentry_failure : bool;
  exit_qualification : Z;
  vmexit_interrupt_info : option vectored_events_info_t;
  nmi_unblocking : bool;
  idt_vectoring_info_field : option vectored_events_info_t;
}.

(** The VMCS of a vcpu, as far as it is read or written here: guest state, the
    window exits of the processor-based controls, the event to inject, and
    what the processor stored at the last exit. *)
Record vmcs_guest := VmcsGuest {
  g_cr0 : Z;
  g_cr4 : Z;
  g_cs_access_rights : Z;
  g_efer : Z;
  g_rflags : Z;
  g_rip : Z;
  g_rsp : Z;
  g_interruptibility : Z;
  g_preemption_timer_value : Z;
  c_activate_vmx_preemption_timer : bool;
  c_save_vmx_preemption_timer : bool;
  c_nmi_window_exiting : bool;
  c_interrupt_window_exiting : bool;
  c_entry_interrupt_info : option vmentry_event;
  ro_instruction_length : Z;
  ro_idt_vectoring_error_code : Z;
  ro_exit : vmexit_info;
}.

Record vcpu := Vcpu {
  root : bool;
  metadata : vsched_metadata;
  preemption_count : Z;
  preempted : bool;
  yield_request : bool;
  timers : gmap Z vtimer;
  timer_nodes : gmap Z (lnode Z);
  timer_deltas : gmap Z Z;
  timer_chain : dq Z;
  processor_id : Z;
  vid : Z;
  vpartition_num_cpus : Z;
  vpartition_addr : Z;        (* vcpu->vpartition *)
  vcontext : context;
  schedule_callback : bool;   (* schedule_callback_func is not NULL *)
  vqueue_id : Z;
  wait_for_map : gmap Z Z;
  allowed_external_vectors : bmp256;
  subscribed_vectors : bmp256;
  delivery : vinterrupt_delivery_data_t;
  pending_external_interrupts : bmp256;
  operations : voperations;
}.

Definition vqueue_to_vprocessor_id (vqueue_id : Z) : Z := vqueue_id.

(** ** Partitions *)

Record vcriticality_perm_t := VcriticalityPerm {
  perm_read : bool;
  perm_write : bool;
  min_criticality_writeable : Z;
  max_criticality_writeable : Z;
}.

Record vpartition := Vpartition {
  ipi_receivers : bmp256;
  ipi_senders : bmp256;
  tlb_shootdown_receivers : bmp256;
  tlb_shootdown_senders : bmp256;
  read_vcpu_state_receivers : bmp256;
  read_vcpu_state_senders : bmp256;
  pv_spin_kick_receivers : bmp256;
  pv_spin_kick_senders : bmp256;
  criticality_perms : gmap Z vcriticality_perm_t;
  p_root : bool;
  vcpus : Z;
  vcpu_count : Z;
  num_terminated : Z;
  terminate_notification : Z * Z * bool;  (* processor_id, vector, nmi *)
  p_vid : Z;
}.

(** ** Processors *)

Record vscheduler := Vscheduler {
  queues : list (dq vnode);
  paused_queue : dq vnode;
  vcriticality_level : Z;
  kick : Z;
}.
Definition VSCHED_IDLE_KICK_UNSET : Z := 0.
Definition VSCHED_IDLE_KICK_SET : Z := 1.

(** [struct vshield]: recovery from an exception that is expected *)
Record vshield := Vshield {
  recovery_rip : Z;
  exception_vector : Z;
  sh_len : Z;
  recover_by_length : bool;
  faulted : bool;
  active : bool;
}.

(** The functions that are handed to vemulate_self_ipi: an [ipi_func_t] is the
    address of one of them. *)
Inductive ipi_func_t : Type :=
  | VSCHED_YIELD_IPI | VSCHED_PAUSE_IPI | VSCHED_RECOVER_IPI | VSCHED_IDLE_YIELD_IPI
  | VFINALIZE_TEARDOWN_IPI | VTRANSITIONING_RECOVER_IPI.
(** [struct vipi_call]; [None] is NULL *)
Record vipi_call := VipiCall { func : option ipi_func_t; arg : Z }.

Record vper_cpu := VperCpu {
  available_vectors : bmp256;
  handling_isr : bool;
  vcpu_ctx : context;          (* the registers the interrupt saved *)
  sched_timer_armed : bool;
  current_vcpu : option vptr;
  dispatch_vectors : list (dq vnode);
  vcpu_sender_dq : dq vnode;
  vsched : vscheduler;
  dead : bool;
  drain : bool;
  shield : vshield;
  is_self_ipi : bool;
  self_ipi : vipi_call;
}.

Inductive vlock : Type :=
  | LSched (cpu : Z) | LDispatch (cpu : Z) | LVipi (cpu : Z) | LPending (v : vptr)
  | LEntry (vid : Z) | LVids.
#[export] Instance vlock_eq_dec : EqDecision vlock.
Proof. solve_decision. Defined.

Inductive vevent : Type :=
  | EVipi (cpu : Z)                    (* an IPI sent to a processor *)
  | EWaitAck (cpu : Z)                 (* spin until the processor acknowledged *)
  | ETimerReload (ticks : Z)
  | EScheduleCallback (v : vptr)
  | EDebug (str : Z)
  | EInvvpid (vpid : Z)                (* the TLB entries of a virtual processor dropped *)
  | EEoi
  | EWrmsr (msr val : Z).

Record hv := Hv {
  h_this : Z;                          (* vthis_vprocessor_id() *)
  h_num_cpus : Z;                      (* vnum_cpus() *)
  h_cpus : gmap Z vper_cpu;
  h_vcpus : gmap vptr vcpu;
  h_parts : gmap Z vpartition;         (* by address *)
  h_table : gmap Z Z;                  (* the valid entries of vpartition_table *)
  h_root_vid : Z;
  h_vids : bmp256;                     (* the free ids *)
  h_locks : list vlock;                (* the MCS locks held *)
  h_readers : nat;                     (* read holds of vpartition_table_rwlock *)
  h_writer : bool;                     (* its write hold *)
  h_nodes : gmap vnode (lnode vnode);
  h_log : list vevent;
  h_vmcs : gmap vptr vmcs_guest;       (* the VMCS regions *)
  h_loaded : gmap Z vptr;              (* the VMCS that is current on a processor *)
  h_interrupts : gmap Z bool;          (* the interrupt flags of the processors, see below *)
}.

(** ** Access *)

Definition get_cpu (c : Z) : M hv vper_cpu := fun s =>
  match h_cpus s !! c with Some p => Ok (p, s) | None => Fault FBounds end.
Definition upd_cpu (c : Z) (f : vper_cpu → vper_cpu) : M hv unit :=
  p <~ get_cpu c ;; mmodify (fun s => s <| h_cpus ::= <[c := f p]> |>).
Definition get_vcpu (v : vptr) : M hv vcpu := fun s =>
  match h_vcpus s !! v with Some x => Ok (x, s) | None => Fault FDangling end.
Definition upd_vcpu (v : vptr) (f : vcpu → vcpu) : M hv unit :=
  x <~ get_vcpu v ;; mmodify (fun s => s <| h_vcpus ::= <[v := f x]> |>).
Definition get_part (p : Z) : M hv vpartition := fun s =>
  match h_parts s !! p with Some x => Ok (x, s) | None => Fault FDangling end.
Definition upd_part (p : Z) (f : vpartition → vpartition) : M hv unit :=
  x <~ get_part p ;; mmodify (fun s => s <| h_parts ::= <[p := f x]> |>).
Definition vlog (e : vevent) : M hv unit := mmodify (fun s => s <| h_log ::= fun l => l ++ [e] |>).

Definition vthis_vprocessor_id : M hv Z := mgets h_this.
Definition vnum_cpus : M hv Z := mgets h_num_cpus.
Definition vthis_cpu_data : M hv vper_cpu := c <~ vthis_vprocessor_id ;; get_cpu c.
(** vcurrent_vcpu(), which the code dereferences *)
Definition vcurrent_vcpu : M hv vptr := p <~ vthis_cpu_data ;; not_null (current_vcpu p).
(** &vpartition->vcpus[processor_id] *)
Definition vcpu_of (p : vpartition) (processor_id : Z) : vptr := VOf (vcpus p) processor_id.

(** vmread and vmwrite act on the VMCS that the processor has loaded. *)
Definition vmcs_loaded : M hv vptr := fun s =>
  match h_loaded s !! h_this s with Some v => Ok (v, s) | None => Fault FNull end.
Definition vmread {B} (f : vmcs_guest → B) : M hv B :=
  v <~ vmcs_loaded ;;
  fun s => match h_vmcs s !! v with Some g => Ok (f g, s) | None => Fault FDangling end.
Definition vmwrite (f : vmcs_guest → vmcs_guest) : M hv unit :=
  v <~ vmcs_loaded ;;
  g <~ vmread (fun g => g) ;;
  mmodify (fun s => s <| h_vmcs ::= <[v := f g]> |>).

(** ** Locks *)

Definition vmcs_lock_isr_save (l : vlock) : M hv unit := fun s =>
  if bool_decide (l ∈ h_locks s) then Fault FDeadlock
  else Ok (tt, s <| h_locks ::= cons l |>).
Definition vmcs_unlock_isr_restore (l : vlock) : M hv unit := fun s =>
  if bool_decide (l ∈ h_locks s)
  then Ok (tt, s <| h_locks ::= filter (fun l' => l' ≠ l) |>)
  else Fault FUnlock.
Definition vrw_lock_read_isr_save : M hv unit := fun s =>
  if h_writer s then Fault FDeadlock else Ok (tt, s <| h_readers ::= S |>).
Definition vrw_unlock_read_isr_restore : M hv unit := fun s =>
  match h_readers s with
  | O => Fault FUnlock
  | S n => Ok (tt, s <| h_readers := n |>)
  end.
Definition vrw_lock_write_isr_save : M hv unit := fun s =>
  if h_writer s || (0 <? h_readers s)%nat then Fault FDeadlock
  else Ok (tt, s <| h_writer := true |>).
Definition vrw_unlock_write_isr_restore : M hv unit := fun s =>
  if h_writer s then Ok (tt, s <| h_writer := false |>) else Fault FUnlock.
(** [body] under a lock. *)
Definition with_vlock {B} (l : vlock) (body : M hv B) : M hv B :=
  vmcs_lock_isr_save l ;;; r <~ body ;; vmcs_unlock_isr_restore l ;;; ret r.

(** ** The interrupt flag

    [h_interrupts] has the flag of each processor as the code sets and clears
    it.  A lock is taken with the flag saved and cleared and released with it
    restored, so while one is held no interrupt is taken.  (The sections that
    save the flag, clear it and restore it around accesses to the timer, to the
    local APIC and to registers under a shield leave it as it was, and are not
    shown.) *)
Definition is_interrupts_enabled : M hv bool := mgets (fun s =>
  default false (h_interrupts s !! h_this s) &&
  bool_decide (h_locks s = []) && (h_readers s =? 0)%nat && negb (h_writer s)).
Definition write_flags (flags : bool) : M hv unit :=
  mmodify (fun s => s <| h_interrupts ::= <[h_this s := flags]> |>).
Definition enable_interrupts : M hv unit := write_flags true.
Definition disable_interrupts : M hv unit := write_flags false.
Definition read_flags_and_disable_interrupts : M hv bool :=
  flags <~ mgets (fun s => default false (h_interrupts s !! h_this s)) ;;
  disable_interrupts ;;; ret flags.

(** ** IPIs (visr_index.c) *)


Definition vipi_async (vprocessor_id : Z) : M hv Z :=
  this <~ vthis_vprocessor_id ;;
  if this =? vprocessor_id then ret (- EINVAL) else
  n <~ vnum_cpus ;;
  if n <=? vprocessor_id then ret (- EINVAL) else
  vlog (EVipi vprocessor_id) ;;; ret 0.

(** One operation on the queue of the vcpus waiting for processor [c]. *)
Definition on_senders {B} (c : Z)
    (f : gmap vnode (lnode vnode) → dq vnode → res (B * gmap vnode (lnode vnode) * dq vnode))
    : M hv B :=
  p <~ get_cpu c ;;
  s <~ mget ;;
  r <~ lift (f (h_nodes s) (vcpu_sender_dq p)) ;;
  let '(x, h, d) := r in
  mmodify (fun s => s <| h_nodes := h |>) ;;;
  upd_cpu c (fun p => p <| vcpu_sender_dq := d |>) ;;; ret x.

Definition vipi_queue_ack (vprocessor_id : Z) (v : vptr) : M hv Z :=
  this <~ vthis_vprocessor_id ;;
  if this =? vprocessor_id then ret (- EINVAL) else
  n <~ vnum_cpus ;;
  if n <=? vprocessor_id then ret (- EINVAL) else
  with_vlock (LVipi vprocessor_id)
    (on_senders vprocessor_id (fun h d =>
       let* q := dq_is_queued h d (NIpi v vprocessor_id) in
       if (q : bool) then Ok (tt, h, d)
       else no_result (dq_pushback h d (NIpi v vprocessor_id)))) ;;;
  ret 0.

Definition vipi_ack : M hv unit :=
  this <~ vthis_vprocessor_id ;;
  with_vlock (LVipi this) (on_senders this (fun h d => no_result (dq_clear h d))).

Definition vipi_check_ack (vprocessor_id : Z) (v : vptr) : M hv Z :=
  this <~ vthis_vprocessor_id ;;
  if this =? vprocessor_id then ret (- EINVAL) else
  n <~ vnum_cpus ;;
  if n <=? vprocessor_id then ret (- EINVAL) else
  q <~ with_vlock (LVipi vprocessor_id)
         (on_senders vprocessor_id (fun h d =>
            let* q := dq_is_queued h d (NIpi v vprocessor_id) in Ok (q, h, d))) ;;
  ret (if (q : bool) then 0 else 1).
