(* ===== verification/VschedDsa.v ===== *)
(** * VschedDsa: the hypervisor's run queues

    Models src/subsys/twanvisor/vsched/vsched_dsa.c in its MCQS configuration
    and vsched_mcs.c.  A processor's scheduler has one queue per criticality
    and one of paused vcpus; a ready vcpu of criticality [c] is linked in the
    queues 0, ..., c by a node for each. *)

From S2P Require Import Prelude Std Bmp Dq DeltaChain SchedDsa Twan.
From coqutil Require Import Datatypes.RecordSetters.
From Stdlib Require Import ZArith Lia Bool.
From stdpp Require Import base gmap list numbers sets.

Local Open Scope Z_scope.

(** ** Access to a scheduler *)

Definition vthis_vscheduler : M hv vscheduler := p <~ vthis_cpu_data ;; ret (vsched p).
Definition get_vsched (c : Z) : M hv vscheduler := p <~ get_cpu c ;; ret (vsched p).
Definition upd_vsched (c : Z) (f : vscheduler → vscheduler) : M hv unit :=
  upd_cpu c (fun p => p <| vsched ::= f |>).
(** The processor of vscheduler_of(vcpu) *)
Definition vscheduler_of (v : vptr) : M hv Z :=
  x <~ get_vcpu v ;; ret (vqueue_to_vprocessor_id (vqueue_id x)).

Definition vqueue (sc : vscheduler) (i : Z) : M hv (dq vnode) :=
  match queues sc !! Z.to_nat i with Some d => ret d | None => mfault FBounds end.

(** One operation on queue [i] of processor [c]. *)
Definition on_vqueue {B} (c i : Z)
    (f : gmap vnode (lnode vnode) → dq vnode → res (B * gmap vnode (lnode vnode) * dq vnode))
    : M hv B :=
  sc <~ get_vsched c ;;
  d <~ vqueue sc i ;;
  s <~ mget ;;
  r <~ lift (f (h_nodes s) d) ;;
  let '(x, h, d) := r in
  mmodify (fun s => s <| h_nodes := h |>) ;;;
  upd_vsched c (fun sc => sc <| queues ::= <[Z.to_nat i := d]> |>) ;;; ret x.
Definition on_paused {B} (c : Z)
    (f : gmap vnode (lnode vnode) → dq vnode → res (B * gmap vnode (lnode vnode) * dq vnode))
    : M hv B :=
  sc <~ get_vsched c ;;
  s <~ mget ;;
  r <~ lift (f (h_nodes s) (paused_queue sc)) ;;
  let '(x, h, d) := r in
  mmodify (fun s => s <| h_nodes := h |>) ;;;
  upd_vsched c (fun sc => sc <| paused_queue := d |>) ;;; ret x.

(** ** vsched_mcs.c *)

Definition __vsched_mcs_read_criticality_level_local : M hv Z :=
  sc <~ vthis_vscheduler ;; ret (vcriticality_level sc).

Definition __vsched_mcs_write_criticality_level_local (criticality : Z) : M hv Z :=
  if VSCHED_MAX_CRITICALITY <? criticality then ret (- EINVAL) else
  this <~ vthis_vprocessor_id ;;
  upd_vsched this (fun sc => sc <| vcriticality_level := criticality |>) ;;; ret 0.

Definition vsched_mcs_read_criticality_level (vprocessor_id : Z) : M hv Z :=
  with_vlock (LSched vprocessor_id)
    (sc <~ get_vsched vprocessor_id ;; ret (vcriticality_level sc)).

Definition vsched_mcs_write_criticality_level (vprocessor_id criticality : Z) : M hv Z :=
  if VSCHED_MAX_CRITICALITY <? criticality then ret (- EINVAL) else
  with_vlock (LSched vprocessor_id)
    (upd_vsched vprocessor_id (fun sc => sc <| vcriticality_level := criticality |>)) ;;;
  ret 0.

(** ** vsched_dsa.c *)

(** The index of the queue chosen, which is also its criticality. *)
Definition __vsched_get_bucket : M hv (option Z) :=
  criticality_level <~ __vsched_mcs_read_criticality_level_local ;;
  sc <~ vthis_vscheduler ;;
  queue <~ vqueue sc criticality_level ;;
  if is_some (dq_peekfront queue) then ret (Some criticality_level) else
  if criticality_level =? VSCHED_MIN_CRITICALITY then ret None else
  queue <~ vqueue sc VSCHED_MIN_CRITICALITY ;;
  if negb (is_some (dq_peekfront queue)) then ret None else
  ret (Some VSCHED_MIN_CRITICALITY).

Definition __vsched_push (v : vptr) : M hv unit :=
  c <~ vscheduler_of v ;;
  x <~ get_vcpu v ;;
  let criticality := criticality (metadata x) in
  mfrom (Z.to_nat (criticality + 1)) 0 (fun i =>
    on_vqueue c i (fun h d => no_result (dq_pushback h d (NSched v (Z.to_nat i))))) ;;;
  upd_vsched c (fun sc => sc <| kick := VSCHED_IDLE_KICK_SET |>).

Definition __vsched_push_paused (v : vptr) : M hv unit :=
  c <~ vscheduler_of v ;;
  on_paused c (fun h d => no_result (dq_pushback h d (NSched v 0))).

Definition __vsched_is_current_preemptible (current : vptr) : M hv bool :=
  criticality_level <~ __vsched_mcs_read_criticality_level_local ;;
  x <~ get_vcpu current ;;
  b <~ __vsched_get_bucket ;;
  match b with
  | None => ret false
  | Some next_criticality =>
      ret ((criticality (metadata x) <? criticality_level) ||
           (criticality_level <=? next_criticality))
  end.

Definition __vsched_pop : M hv (option vptr) :=
  this <~ vthis_vprocessor_id ;;
  b <~ __vsched_get_bucket ;;
  match b with
  | None => ret None
  | Some criticality =>
      node <~ on_vqueue this criticality (fun h d => dq_popfront h d) ;;
      node <~ not_null node ;;
      v <~ not_null (vsched_node_to_vcpu node criticality) ;;
      ret (Some v)
  end.

Definition __vsched_dequeue (v : vptr) : M hv unit :=
  c <~ vscheduler_of v ;;
  x <~ get_vcpu v ;;
  mfrom (Z.to_nat (criticality (metadata x) + 1)) 0 (fun i =>
    on_vqueue c i (fun h d =>
      let node := NSched v (Z.to_nat i) in
      let* q := dq_is_queued h d node in
      if (q : bool) then no_result (dq_dequeue h d node) else Ok (tt, h, d))).

Definition __vsched_dequeue_paused (v : vptr) : M hv unit :=
  c <~ vscheduler_of v ;;
  on_paused c (fun h d =>
    let* q := dq_is_queued h d (NSched v 0) in
    if (q : bool) then no_result (dq_dequeue h d (NSched v 0)) else Ok (tt, h, d)).

Definition set_state (v : vptr) (st : vcpu_state_t) : M hv unit :=
  upd_vcpu v (fun x => x <| metadata -> state := st |>).

Definition __vsched_unpause (v : vptr) : M hv unit :=
  __vsched_dequeue_paused v ;;;
  set_state v VREADY ;;;
  __vsched_push v.

Definition __vsched_update_criticality (v : vptr) (crit : Z) : M hv unit :=
  x <~ get_vcpu v ;;
  if bool_decide (state (metadata x) = VREADY) then
    __vsched_dequeue v ;;;
    upd_vcpu v (fun x => x <| metadata -> criticality := crit |>) ;;;
    __vsched_push v
  else upd_vcpu v (fun x => x <| metadata -> criticality := crit |>).

(** ** The queues as lists *)

Abbreviation vheap := (gmap vnode (lnode vnode)).

(** [Qs i] is queue [i], [P] the queue of paused vcpus. *)
Record vq_rep (h : vheap) (sc : vscheduler) (Qs : nat → list vnode) (P : list vnode) : Prop := {
  vq_len : length (queues sc) = VSCHED_NUM_CRITICALITIES;
  vq_queue i d : queues sc !! i = Some d → dq_rep h d (Qs i);
  vq_nodes i n : n ∈ Qs i → ∃ v, n = NSched v i;
  vq_paused : dq_rep h (paused_queue sc) P;
  vq_pnodes n : n ∈ P → ∃ v, n = NSched v 0;
  vq_disj n : n ∈ P → n ∉ Qs 0%nat;
  vq_level : 0 <= vcriticality_level sc <= VSCHED_MAX_CRITICALITY;
}.

(** [s] with the scheduler of processor [c], whose other data is [p], and the
    node heap replaced. *)
Definition vq_set (s : hv) (c : Z) (p : vper_cpu) (h : vheap) (sc : vscheduler) : hv :=
  s <| h_nodes := h |> <| h_cpus ::= <[c := p <| vsched := sc |>]> |>.

Lemma vq_set_id s c p : h_cpus s !! c = Some p → vq_set s c p (h_nodes s) (vsched p) = s.
Proof.
  intros E. destruct s. unfold vq_set, apply_update, constant. cbn in *.
  rewrite insert_id; [done|]. rewrite E. by destruct p.
Qed.

Lemma vq_set_set s c p h sc h' sc' : vq_set (vq_set s c p h sc) c p h' sc' = vq_set s c p h' sc'.
Proof.
  destruct s. unfold vq_set, apply_update, constant. cbn. by rewrite insert_insert_eq.
Qed.

Lemma vq_set_cpu s c p h sc : h_cpus (vq_set s c p h sc) !! c = Some (p <| vsched := sc |>).
Proof. apply lookup_insert_eq. Qed.

Lemma upd_vsched_run s c p h sc f :
  upd_vsched c f (vq_set s c p h sc) = Ok (tt, vq_set s c p h (f sc)).
Proof.
  unfold upd_vsched, upd_cpu, get_cpu, bind. rewrite vq_set_cpu. unfold mmodify. do 2 f_equal.
  destruct s. unfold vq_set, apply_update, constant. cbn. by rewrite insert_insert_eq.
Qed.

Lemma get_vsched_run s c p h sc : get_vsched c (vq_set s c p h sc) = Ok (sc, vq_set s c p h sc).
Proof. unfold get_vsched, get_cpu, bind. by rewrite vq_set_cpu. Qed.

Lemma on_vqueue_run {B} s c p h sc i d (x : B) h' d'
    (f : vheap → dq vnode → res (B * vheap * dq vnode)) :
  queues sc !! Z.to_nat i = Some d → f h d = Ok (x, h', d') →
  on_vqueue c i f (vq_set s c p h sc) =
    Ok (x, vq_set s c p h' (sc <| queues ::= <[Z.to_nat i := d']> |>)).
Proof.
  intros Ed Ef. unfold on_vqueue. mstep (get_vsched_run s c p h sc).
  unfold vqueue. rewrite Ed. unfold ret at 1, bind at 1, mget, bind at 1, lift, bind at 1.
  change (h_nodes (vq_set s c p h sc)) with h. rewrite Ef. cbn [rbind].
  unfold mmodify, bind at 1.
  change ((vq_set s c p h sc) <| h_nodes := h' |>) with (vq_set s c p h' sc).
  by mstep (upd_vsched_run s c p h' sc (fun sc => sc <| queues ::= <[Z.to_nat i := d']> |>)).
Qed.

Lemma on_paused_run {B} s c p h sc (x : B) h' d'
    (f : vheap → dq vnode → res (B * vheap * dq vnode)) :
  f h (paused_queue sc) = Ok (x, h', d') →
  on_paused c f (vq_set s c p h sc) = Ok (x, vq_set s c p h' (sc <| paused_queue := d' |>)).
Proof.
  intros Ef. unfold on_paused. mstep (get_vsched_run s c p h sc).
  unfold mget, bind at 1, lift, bind at 1.
  change (h_nodes (vq_set s c p h sc)) with h. rewrite Ef. cbn [rbind].
  unfold mmodify, bind at 1.
  change ((vq_set s c p h sc) <| h_nodes := h' |>) with (vq_set s c p h' sc).
  by mstep (upd_vsched_run s c p h' sc (fun sc => sc <| paused_queue := d' |>)).
Qed.

(** Queue [i] becomes [l]. *)
Definition q_set (Qs : nat → list vnode) (i : nat) (l : list vnode) : nat → list vnode :=
  fun j => if decide (j = i) then l else Qs j.

Lemma vq_rep_ext h sc Qs Qs' P : vq_rep h sc Qs P → (∀ i, Qs' i = Qs i) → vq_rep h sc Qs' P.
Proof.
  intros [H1 H2 H3 H4 H5 H6 H7] He. split; try done.
  - intros i d. rewrite He. apply H2.
  - intros i n. rewrite He. apply H3.
  - intros n. rewrite He. apply H6.
Qed.

(** An operation on queue [i] that touches only nodes of its kind. *)
Lemma vq_rep_queue h h' sc Qs P i d' l fr :
  vq_rep h sc Qs P → dq_rep h' d' l → heap_frame h h' fr →
  (∀ n, n ∈ fr ++ l → (∃ v, n = NSched v i) ∧ n ∉ P) →
  vq_rep h' (sc <| queues ::= <[i := d']> |>) (q_set Qs i l) P.
Proof.
  intros [H1 H2 H3 H4 H5 H6 H7] Hd Hf Hn. unfold q_set. split; try done.
  - cbn. by rewrite length_insert.
  - intros j d. change (queues (sc <| queues ::= <[i := d']> |>)) with (<[i := d']> (queues sc)).
    destruct (decide (j = i)) as [->|Hj].
    + intros E. rewrite list_lookup_insert_eq in E; [by injection E as <-|].
      rewrite <- (length_insert (queues sc) i d'). by eapply lookup_lt_Some.
    + rewrite list_lookup_insert_ne by done. intros E. eapply dq_rep_frame; [by apply H2|done|].
      intros n Hj' Hfr. destruct (H3 _ _ Hj') as [v ->].
      destruct (Hn (NSched v j)) as [[v' E'] _]; [set_solver|]. congruence.
  - intros j n. case_decide; [subst j; intros Hl; apply Hn; set_solver|apply H3].
  - eapply dq_rep_frame; [exact H4|done|]. intros n HP Hfr. destruct (Hn n); [set_solver|done].
  - intros n HP. case_decide; [|by apply H6]. intros Hl. destruct (Hn n); [set_solver|done].
Qed.

Section Ops.
Context (s : hv) (c : Z) (p : vper_cpu) (P : list vnode).

Definition same_rest (sc sc' : vscheduler) : Prop :=
  vcriticality_level sc' = vcriticality_level sc ∧ kick sc' = kick sc ∧
  paused_queue sc' = paused_queue sc.

Lemma push_one h sc Qs v i :
  vq_rep h sc Qs P → (i < VSCHED_NUM_CRITICALITIES)%nat → is_Some (h !! NSched v i) →
  NSched v i ∉ Qs i → NSched v i ∉ P →
  ∃ h' sc', on_vqueue c (Z.of_nat i) (fun h d => no_result (dq_pushback h d (NSched v (Z.to_nat (Z.of_nat i)))))
      (vq_set s c p h sc) = Ok (tt, vq_set s c p h' sc') ∧
    vq_rep h' sc' (q_set Qs i (Qs i ++ [NSched v i])) P ∧ same_rest sc sc' ∧
    (∀ n, is_Some (h' !! n) ↔ is_Some (h !! n)).
Proof.
  intros Hr Hi Ha Hq HP. rewrite Nat2Z.id.
  destruct (queues sc !! i) as [d|] eqn:Ed;
    [|apply lookup_ge_None in Ed; rewrite (vq_len _ _ _ _ Hr) in Ed; lia].
  destruct (dq_pushback_spec h d (Qs i) (NSched v i)) as (h' & d' & E & Hd & Hf); try done.
  { by eapply vq_queue. }
  exists h', (sc <| queues ::= <[i := d']> |>). split; [|split; [|split; [done|apply Hf]]].
  - rewrite <- (Nat2Z.id i) at 2. apply (on_vqueue_run _ _ _ _ _ _ d); [by rewrite Nat2Z.id|].
    by rewrite E.
  - eapply vq_rep_queue; [done|done|done|]. intros n Hn. split.
    + assert (n = NSched v i ∨ n ∈ Qs i) as [->|?] by set_solver; [by eexists|by eapply vq_nodes].
    + assert (n = NSched v i ∨ n ∈ Qs i) as [->|Hin] by set_solver; [done|].
      intros HPn. destruct (vq_nodes _ _ _ _ Hr _ _ Hin) as [w ->].
      destruct (vq_pnodes _ _ _ _ Hr _ HPn) as [w' [= -> ->]]. by apply (vq_disj _ _ _ _ Hr _ HPn).
Qed.

Lemma push_loop v n : ∀ i h sc Qs,
  vq_rep h sc Qs P → (i + n <= VSCHED_NUM_CRITICALITIES)%nat →
  (∀ j, (i <= j < i + n)%nat → is_Some (h !! NSched v j) ∧ (NSched v j ∉ Qs j) ∧ (NSched v j ∉ P)) →
  ∃ h' sc', mfrom n (Z.of_nat i) (fun i =>
      on_vqueue c i (fun h d => no_result (dq_pushback h d (NSched v (Z.to_nat i)))))
      (vq_set s c p h sc) = Ok (tt, vq_set s c p h' sc') ∧
    vq_rep h' sc' (fun j => if decide (i <= j < i + n)%nat then Qs j ++ [NSched v j] else Qs j) P ∧
    same_rest sc sc' ∧ (∀ m, is_Some (h' !! m) ↔ is_Some (h !! m)).
Proof.
  induction n as [|n IH]; intros i h sc Qs Hr Hi Hj; cbn [mfrom].
  - exists h, sc. split; [done|]. split; [|done]. eapply vq_rep_ext; [done|].
    intros j. by rewrite decide_False by lia.
  - destruct (Hj i ltac:(lia)) as (Ha & Hq & HP).
    destruct (push_one h sc Qs v i) as (h1 & sc1 & E1 & Hr1 & Hs1 & Hd1); try done; [lia|].
    mstep E1. replace (Z.of_nat i + 1) with (Z.of_nat (S i)) by lia.
    destruct (IH (S i) h1 sc1 _ Hr1) as (h2 & sc2 & E2 & Hr2 & Hs2 & Hd2); [lia| |].
    { intros j Hj'. destruct (Hj j ltac:(lia)) as (? & ? & ?). unfold q_set.
      rewrite Hd1, decide_False by lia. done. }
    exists h2, sc2. split; [exact E2|]. split; [|split].
    + eapply vq_rep_ext; [exact Hr2|]. intros j. unfold q_set.
      repeat case_decide; try done; try lia. by subst.
    + destruct Hs1 as (?&?&?), Hs2 as (?&?&?). split_and!; congruence.
    + intros m. by rewrite Hd2.
Qed.
End Ops.

Lemma vscheduler_of_run s v x :
  h_vcpus s !! v = Some x → vscheduler_of v s = Ok (vqueue_id x, s).
Proof. intros E. unfold vscheduler_of, bind, get_vcpu. by rewrite E. Qed.

(** The nodes by which [v], of criticality [k], can be queued. *)
Definition can_queue (h : vheap) (Qs : nat → list vnode) (v : vptr) (k : nat) : Prop :=
  (k < VSCHED_NUM_CRITICALITIES)%nat ∧
  ∀ j, (j <= k)%nat → is_Some (h !! NSched v j) ∧ (NSched v j ∉ Qs j).
Definition pushed (Qs : nat → list vnode) (v : vptr) (k : nat) : nat → list vnode :=
  fun j => if decide (j <= k)%nat then Qs j ++ [NSched v j] else Qs j.

Lemma vsched_push_spec s c p h sc Qs P v x k :
  vq_rep h sc Qs P → h_vcpus s !! v = Some x → vqueue_id x = c →
  criticality (metadata x) = Z.of_nat k → can_queue h Qs v k → NSched v 0 ∉ P →
  ∃ h' sc', __vsched_push v (vq_set s c p h sc) = Ok (tt, vq_set s c p h' sc') ∧
    vq_rep h' sc' (pushed Qs v k) P ∧
    vcriticality_level sc' = vcriticality_level sc ∧ kick sc' = VSCHED_IDLE_KICK_SET ∧
    paused_queue sc' = paused_queue sc ∧ (∀ m, is_Some (h' !! m) ↔ is_Some (h !! m)).
Proof.
  intros Hr Ex Hc Hk [Hlt Hn] HP. unfold __vsched_push.
  assert (h_vcpus (vq_set s c p h sc) !! v = Some x) as Ex' by done.
  mstep (vscheduler_of_run _ _ _ Ex'). rewrite Hc. unfold get_vcpu at 1, bind at 1. rewrite Ex'.
  cbv zeta. rewrite Hk. replace (Z.to_nat (Z.of_nat k + 1)) with (S k) by lia.
  destruct (push_loop s c p P v (S k) 0 h sc Qs Hr) as (h' & sc' & E & Hr' & (Hl & _ & Hp) & Hd).
  - unfold VSCHED_NUM_CRITICALITIES in *. lia.
  - intros j Hj. destruct (Hn j ltac:(lia)) as [? ?]. split; [done|]. split; [done|].
    intros HPj. destruct (vq_pnodes _ _ _ _ Hr _ HPj) as [w [= -> ->]]. done.
  - exists h', (sc' <| kick := VSCHED_IDLE_KICK_SET |>). split; [|split; [|by split_and!]].
    + mstep E. apply upd_vsched_run.
    + assert (vq_rep h' sc' (pushed Qs v k) P) as [] ; [|by split].
      eapply vq_rep_ext; [exact Hr'|]. intros j. unfold pushed.
      repeat case_decide; try done; lia.
Qed.

Lemma vq_rep_paused h h' sc Qs P P' d' fr :
  vq_rep h sc Qs P → dq_rep h' d' P' → heap_frame h h' fr →
  (∀ n, n ∈ fr ++ P' → (∃ v, n = NSched v 0) ∧ n ∉ Qs 0%nat) →
  vq_rep h' (sc <| paused_queue := d' |>) Qs P'.
Proof.
  intros [H1 H2 H3 H4 H5 H6 H7] Hd Hf Hn. split; try done.
  - intros i d E. eapply dq_rep_frame; [by apply H2|done|]. intros n Hq Hfr.
    destruct (Hn n) as [[w ->] Hq0]; [set_solver|]. destruct (H3 _ _ Hq) as [w' [= -> <-]]. done.
  - intros n HP. apply Hn. set_solver.
  - intros n HP. apply Hn. set_solver.
Qed.

Lemma push_paused_spec s c p h sc Qs P v x :
  vq_rep h sc Qs P → h_vcpus s !! v = Some x → vqueue_id x = c →
  is_Some (h !! NSched v 0) → NSched v 0 ∉ Qs 0%nat → NSched v 0 ∉ P →
  ∃ h' sc', __vsched_push_paused v (vq_set s c p h sc) = Ok (tt, vq_set s c p h' sc') ∧
    vq_rep h' sc' Qs (P ++ [NSched v 0]) ∧ vcriticality_level sc' = vcriticality_level sc ∧
    kick sc' = kick sc ∧ queues sc' = queues sc ∧ (∀ m, is_Some (h' !! m) ↔ is_Some (h !! m)).
Proof.
  intros Hr Ex Hc Ha Hq HP. unfold __vsched_push_paused.
  assert (h_vcpus (vq_set s c p h sc) !! v = Some x) as Ex' by done.
  mstep (vscheduler_of_run _ _ _ Ex'). rewrite Hc.
  destruct (dq_pushback_spec h (paused_queue sc) P (NSched v 0)) as (h' & d' & E & Hd & Hf); try done.
  { by eapply vq_paused. }
  exists h', (sc <| paused_queue := d' |>). split; [|split; [|split_and!; try done; apply Hf]].
  - apply on_paused_run. by rewrite E.
  - eapply vq_rep_paused; [done|done|done|]. intros n Hn.
    assert (n = NSched v 0 ∨ n ∈ P) as [->|Hin] by set_solver; [by split; [eexists|]|].
    split; [by eapply vq_pnodes|by eapply vq_disj].
Qed.

Lemma dequeue_paused_spec s c p h sc Qs P1 P2 v x :
  vq_rep h sc Qs (P1 ++ NSched v 0 :: P2) → h_vcpus s !! v = Some x → vqueue_id x = c →
  ∃ h' sc', __vsched_dequeue_paused v (vq_set s c p h sc) = Ok (tt, vq_set s c p h' sc') ∧
    vq_rep h' sc' Qs (P1 ++ P2) ∧ vcriticality_level sc' = vcriticality_level sc ∧
    queues sc' = queues sc ∧ (∀ m, is_Some (h' !! m) ↔ is_Some (h !! m)) ∧
    (NSched v 0 ∉ P1 ++ P2).
Proof.
  intros Hr Ex Hc. unfold __vsched_dequeue_paused.
  assert (h_vcpus (vq_set s c p h sc) !! v = Some x) as Ex' by done.
  mstep (vscheduler_of_run _ _ _ Ex'). rewrite Hc.
  pose proof (vq_paused _ _ _ _ Hr) as HP.
  destruct (dq_dequeue_spec _ _ _ _ _ HP) as (h' & d' & E & Hd & _ & Hf).
  exists h', (sc <| paused_queue := d' |>).
  assert (NSched v 0 ∉ P1 ++ P2) as Hnot.
  { pose proof (rep_nodup _ _ _ HP) as Hn. rewrite <- Permutation_middle in Hn.
    by apply list.NoDup_cons in Hn as [? _]. }
  split; [|split; [|split_and!; try done; apply Hf]].
  - apply on_paused_run. rewrite (dq_is_queued_spec _ _ _ _ HP) by (left; set_solver).
    rewrite bool_decide_true by set_solver. cbn [rbind]. by rewrite E.
  - eapply vq_rep_paused; [done|done|done|]. intros n Hn.
    assert (n ∈ P1 ++ NSched v 0 :: P2) as Hin by set_solver.
    split; [by eapply vq_pnodes|by eapply vq_disj].
Qed.

(** ** The choice of the next vcpu *)

(** The queue that is served: the current level's, or the lowest if nothing
    of that level is ready. *)
Definition served (level : Z) (Qs : nat → list vnode) : nat :=
  if decide (Qs (Z.to_nat level) = []) then 0%nat else Z.to_nat level.

Section Choice.
Context (s : hv) (p : vper_cpu) (Qs : nat → list vnode) (P : list vnode).
Hypothesis (Ec : h_cpus s !! h_this s = Some p).
Hypothesis (Hr : vq_rep (h_nodes s) (vsched p) Qs P).
Abbreviation level := (vcriticality_level (vsched p)).

Lemma this_vsched_run : vthis_vscheduler s = Ok (vsched p, s).
Proof.
  unfold vthis_vscheduler, vthis_cpu_data, vthis_vprocessor_id, mgets, get_cpu, bind. by rewrite Ec.
Qed.
Lemma read_local_run : __vsched_mcs_read_criticality_level_local s = Ok (level, s).
Proof. unfold __vsched_mcs_read_criticality_level_local. by mstep this_vsched_run. Qed.

Lemma vqueue_run i : (i < VSCHED_NUM_CRITICALITIES)%nat →
  ∃ d, queues (vsched p) !! i = Some d ∧ dq_rep (h_nodes s) d (Qs i) ∧
    vqueue (vsched p) (Z.of_nat i) s = Ok (d, s).
Proof.
  intros Hi. destruct (queues (vsched p) !! i) as [d|] eqn:E.
  - exists d. split; [done|]. split; [by eapply vq_queue|]. unfold vqueue. by rewrite Nat2Z.id, E.
  - apply lookup_ge_None in E. rewrite (vq_len _ _ _ _ Hr) in E. lia.
Qed.

Lemma is_some_head {A} (l : list A) : is_some (head l) = bool_decide (l ≠ []).
Proof. by destruct l. Qed.

Lemma get_bucket_run : __vsched_get_bucket s =
  Ok (if decide (Qs (served level Qs) = []) then None else Some (Z.of_nat (served level Qs)), s).
Proof.
  pose proof (vq_level _ _ _ _ Hr) as Hl.
  change VSCHED_MAX_CRITICALITY with (Z.of_nat VSCHED_NUM_CRITICALITIES - 1) in Hl.
  unfold __vsched_get_bucket. mstep read_local_run. mstep this_vsched_run.
  destruct (vqueue_run (Z.to_nat level)) as (d & _ & Hd & Ev); [lia|].
  destruct (vqueue_run 0) as (d0 & _ & Hd0 & Ev0); [unfold VSCHED_NUM_CRITICALITIES; lia|].
  rewrite Z2Nat.id in Ev by lia. mstep Ev.
  rewrite (dq_peekfront_spec _ _ _ Hd), is_some_head. unfold served.
  destruct (decide (Qs (Z.to_nat level) = [])) as [El|El].
  - rewrite bool_decide_false by naive_solver.
    destruct (Z.eqb_spec level VSCHED_MIN_CRITICALITY) as [E0|E0].
    + rewrite decide_True; [done|]. rewrite E0 in El. exact El.
    + change VSCHED_MIN_CRITICALITY with (Z.of_nat 0) at 1. mstep Ev0.
      rewrite (dq_peekfront_spec _ _ _ Hd0), is_some_head.
      destruct (decide (Qs 0%nat = [])).
      * by rewrite bool_decide_false by naive_solver.
      * by rewrite bool_decide_true.
  - rewrite bool_decide_true, decide_False by done. by rewrite Z2Nat.id by lia.
Qed.

Lemma served_range : (served level Qs < VSCHED_NUM_CRITICALITIES)%nat.
Proof.
  pose proof (vq_level _ _ _ _ Hr) as Hl.
  change VSCHED_MAX_CRITICALITY with (Z.of_nat VSCHED_NUM_CRITICALITIES - 1) in Hl.
  unfold served. case_decide; [unfold VSCHED_NUM_CRITICALITIES|]; lia.
Qed.

(**  The hypervisor's dispatcher: it takes the vcpu that has waited longest
    in the queue of the processor's criticality level, or, only if nothing is
    queued there, in the lowest queue, which every ready vcpu is in; it takes
    nothing only if both are empty.  A running vcpu can be preempted exactly
    when there is such a vcpu and it is below the level itself or the other
    comes from the level's queue. *)
Theorem vsched_pop_chooses current x :
  h_vcpus s !! current = Some x →
  let i := served level Qs in
  __vsched_is_current_preemptible current s =
    Ok (bool_decide (Qs i ≠ []) &&
        ((criticality (metadata x) <? level) || (level <=? Z.of_nat i)), s) ∧
  match Qs i with
  | [] => __vsched_pop s = Ok (None, s)
  | n :: rest => ∃ v h' sc', n = NSched v i ∧
      __vsched_pop s = Ok (Some v, vq_set s (h_this s) p h' sc') ∧
      vq_rep h' sc' (q_set Qs i rest) P ∧ detached h' n ∧
      vcriticality_level sc' = level ∧ kick sc' = kick (vsched p)
  end.
Proof.
  intros Ex i. split.
  - unfold __vsched_is_current_preemptible. mstep read_local_run.
    unfold get_vcpu at 1, bind at 1. rewrite Ex. mstep get_bucket_run. fold i.
    destruct (decide (Qs i = [])); [rewrite bool_decide_false by naive_solver|rewrite bool_decide_true by done]; done.
  - assert (__vsched_pop s =
      (match (if decide (Qs i = []) then None else Some (Z.of_nat i)) with
       | None => ret None
       | Some criticality =>
           node <~ on_vqueue (h_this s) criticality (fun h d => dq_popfront h d) ;;
           node <~ not_null node ;;
           v <~ not_null (vsched_node_to_vcpu node criticality) ;;
           ret (Some v)
       end) s) as ->.
    { unfold __vsched_pop, vthis_vprocessor_id, mgets. unfold bind at 1. by mstep get_bucket_run. }
    destruct (Qs i) as [|n rest] eqn:EQ; [by rewrite decide_True|].
    rewrite decide_False by done. pose proof served_range as Hi. fold i in Hi.
    destruct (vqueue_run i Hi) as (d & Ed & Hd & _). rewrite EQ in Hd.
    destruct (dq_popfront_spec _ _ _ Hd) as (h' & d' & E & Hd' & Hdet & Hf).
    destruct (vq_nodes _ _ _ _ Hr i n) as [v ->]; [rewrite EQ; left|].
    exists v, h', ((vsched p) <| queues ::= <[i := d']> |>). split; [done|].
    split; [|split; [|by split_and!]].
    + assert (queues (vsched p) !! Z.to_nat (Z.of_nat i) = Some d) as Ed' by (by rewrite Nat2Z.id).
      pose proof (on_vqueue_run s (h_this s) p (h_nodes s) (vsched p) (Z.of_nat i) d _ h' d'
        (fun h d => dq_popfront h d) Ed' E) as Eon.
      rewrite (vq_set_id s (h_this s) p Ec) in Eon. mstep Eon.
      cbn [not_null]. unfold ret at 1, bind at 1. cbn [vsched_node_to_vcpu]. rewrite Z.eqb_refl.
      unfold ret, bind, not_null. by rewrite Nat2Z.id.
    + eapply vq_rep_queue; [done|done|done|]. intros n Hn.
      assert (n ∈ Qs i) as Hin by (rewrite EQ; set_solver).
      split; [exact (vq_nodes _ _ _ _ Hr _ _ Hin)|]. intros HP.
      destruct (vq_nodes _ _ _ _ Hr _ _ Hin) as [w ->].
      destruct (vq_pnodes _ _ _ _ Hr _ HP) as [w' [= -> Ei]]. rewrite Ei in Hin, HP.
      by apply (vq_disj _ _ _ _ Hr _ HP).
Qed.
End Choice.
