(* ===== verification/Vpartition.v ===== *)
(** * Vpartition: the table of partitions

    Models src/subsys/twanvisor/vsched/vpartition.c: the pool of ids, the
    table with a lock per entry and the reader-writer lock over it, and the
    pending interrupts of a vcpu with their injection (the part of
    vemulate_utils.c on which recovery and the scheduler depend).

    [vpartition_get] returns with the entry's lock and a read hold of the
    table, [vpartition_put] gives both back; [vpartition_start_exclusive]
    keeps everybody else out. *)

From S2P Require Import Prelude Std Bmp Dq DeltaChain SchedDsa Twan VschedDsa.
From coqutil Require Import Datatypes.RecordSetters.
From Stdlib Require Import ZArith Lia Bool.
From stdpp Require Import base gmap list numbers sets.

Local Open Scope Z_scope.

(** ** Ids *)

Definition __vpartition_id_alloc : M hv Z := fun s =>
  let r := bmp256_ffs (h_vids s) in
  Ok (r, if negb (r =? -1) then s <| h_vids := bmp256_unset (h_vids s) r |> else s).
Definition vpartition_id_alloc : M hv Z := with_vlock LVids __vpartition_id_alloc.
Definition vpartition_id_free (vid : Z) : M hv unit :=
  with_vlock LVids (mmodify (fun s => s <| h_vids ::= fun b => bmp256_set b vid |>)).

(** ** The table *)

Definition __vpartition_place (p vid : Z) : M hv unit :=
  mmodify (fun s => s <| h_table ::= <[vid := p]> |>).
Definition __vpartition_remove (vid : Z) : M hv unit :=
  mmodify (fun s => s <| h_table ::= delete vid |>).
Definition vpartition_place (p vid : Z) : M hv unit :=
  with_vlock (LEntry vid) (__vpartition_place p vid).
Definition vpartition_remove (vid : Z) : M hv unit :=
  with_vlock (LEntry vid) (__vpartition_remove vid).

Definition vpartition_get (vid : Z) : M hv (option Z) :=
  vrw_lock_read_isr_save ;;;
  vmcs_lock_isr_save (LEntry vid) ;;;
  e <~ mgets (fun s => h_table s !! vid) ;;
  match e with
  | None =>
      vmcs_unlock_isr_restore (LEntry vid) ;;;
      vrw_unlock_read_isr_restore ;;;
      ret None
  | Some p => ret (Some p)
  end.
Definition vpartition_put (vid : Z) : M hv unit :=
  vmcs_unlock_isr_restore (LEntry vid) ;;;
  vrw_unlock_read_isr_restore.

Definition vpartition_start_exclusive : M hv unit := vrw_lock_write_isr_save.
Definition vpartition_get_exclusive (vid : Z) : M hv (option Z) := mgets (fun s => h_table s !! vid).
Definition vpartition_stop_exclusive : M hv unit := vrw_unlock_write_isr_restore.

(** ** Pending interrupts (vemulate_utils.c) *)

Definition __vemu_set_interrupt_pending (v : vptr) (vector : Z) (nmi : bool) : M hv unit :=
  if nmi then upd_vcpu v (fun x => x <| delivery -> nmi_pending := true |>)
  else upd_vcpu v (fun x => x <| pending_external_interrupts ::= fun b => bmp256_set b vector |>).

Definition vemu_set_interrupt_pending (v : vptr) (vector : Z) (nmi : bool) : M hv Z :=
  if nmi && negb (vector =? NMI) then ret (- EINVAL) else
  with_vlock (LPending v) (__vemu_set_interrupt_pending v vector nmi) ;;;
  ret 0.

Definition vemu_is_interrupt_pending (v : vptr) (vector : Z) (nmi : bool) : M hv bool :=
  with_vlock (LPending v)
    (x <~ get_vcpu v ;;
     ret (if nmi then nmi_pending (delivery x)
          else bmp256_test (pending_external_interrupts x) vector)).

Definition __vemu_inject_external_interrupt (v : vptr) (vector : Z) (nmi : bool) : M hv unit :=
  c <~ vscheduler_of v ;;
  with_vlock (LSched c)
    (with_vlock (LPending v)
      (x <~ get_vcpu v ;;
       let data := delivery x in
       __vemu_set_interrupt_pending v vector nmi ;;;
       if bool_decide (state (metadata x) = VRUNNING) then
         if nmi then
           (if negb (nmi_pending data) && negb (nmi_window_exit data)
            then vipi_async c ;;; ret tt else ret tt)
         else if negb (int_window_exit data) then
           let serviced_intl := fls32 (in_intl data) in
           let i := vector_to_intl vector in
           (if (serviced_intl <? i) && (intl data <=? i)
            then vipi_async c ;;; ret tt else ret tt)
         else ret tt
       else ret tt)).

(** ** Routes

    A partition has, for each kind of route, the set of partitions it may
    send to and the set of those it accepts from. *)

Inductive vroute_type_t : Type :=
  VIPI_ROUTE | VTLB_SHOOTDOWN_ROUTE | VREAD_VCPU_STATE_ROUTE | VPV_SPIN_KICK_ROUTE.
#[export] Instance vroute_eq_dec : EqDecision vroute_type_t.
Proof. solve_decision. Defined.
Definition VNUM_ROUTE_TYPES : Z := 4.
Definition vroute_of (n : Z) : option vroute_type_t :=
  match n with 0 => Some VIPI_ROUTE | 1 => Some VTLB_SHOOTDOWN_ROUTE
             | 2 => Some VREAD_VCPU_STATE_ROUTE | 3 => Some VPV_SPIN_KICK_ROUTE
             | _ => None end.

Definition receivers (ty : vroute_type_t) (p : vpartition) : bmp256 :=
  match ty with
  | VIPI_ROUTE => ipi_receivers p
  | VTLB_SHOOTDOWN_ROUTE => tlb_shootdown_receivers p
  | VREAD_VCPU_STATE_ROUTE => read_vcpu_state_receivers p
  | VPV_SPIN_KICK_ROUTE => pv_spin_kick_receivers p
  end.
Definition senders (ty : vroute_type_t) (p : vpartition) : bmp256 :=
  match ty with
  | VIPI_ROUTE => ipi_senders p
  | VTLB_SHOOTDOWN_ROUTE => tlb_shootdown_senders p
  | VREAD_VCPU_STATE_ROUTE => read_vcpu_state_senders p
  | VPV_SPIN_KICK_ROUTE => pv_spin_kick_senders p
  end.
Definition upd_receivers (ty : vroute_type_t) (f : bmp256 → bmp256) (p : vpartition) : vpartition :=
  match ty with
  | VIPI_ROUTE => p <| ipi_receivers ::= f |>
  | VTLB_SHOOTDOWN_ROUTE => p <| tlb_shootdown_receivers ::= f |>
  | VREAD_VCPU_STATE_ROUTE => p <| read_vcpu_state_receivers ::= f |>
  | VPV_SPIN_KICK_ROUTE => p <| pv_spin_kick_receivers ::= f |>
  end.
Definition upd_senders (ty : vroute_type_t) (f : bmp256 → bmp256) (p : vpartition) : vpartition :=
  match ty with
  | VIPI_ROUTE => p <| ipi_senders ::= f |>
  | VTLB_SHOOTDOWN_ROUTE => p <| tlb_shootdown_senders ::= f |>
  | VREAD_VCPU_STATE_ROUTE => p <| read_vcpu_state_senders ::= f |>
  | VPV_SPIN_KICK_ROUTE => p <| pv_spin_kick_senders ::= f |>
  end.

(** ** Get and put *)

(** The entry of [vid] can be taken. *)
Definition entry_free (s : hv) (vid : Z) : Prop := h_writer s = false ∧ LEntry vid ∉ h_locks s.
(** [s] with the entry of [vid] taken. *)
Definition entry_taken (vid : Z) (s : hv) : hv :=
  s <| h_readers ::= S |> <| h_locks ::= cons (LEntry vid) |>.

Lemma filter_out_notin (l : vlock) (ls : list vlock) : l ∉ ls → filter (fun l' => l' ≠ l) ls = ls.
Proof.
  induction ls as [|x ls IH]; intros Hn; [done|]. apply not_elem_of_cons in Hn as [Hx Hn].
  by rewrite filter_cons_True, IH.
Qed.
Lemma filter_out_cons (l : vlock) (ls : list vlock) : l ∉ ls → filter (fun l' => l' ≠ l) (l :: ls) = ls.
Proof. intros Hn. rewrite filter_cons_False by naive_solver. by apply filter_out_notin. Qed.

Lemma hv_locks_id s : s <| h_locks := h_locks s |> = s.
Proof. by destruct s. Qed.

Lemma vlock_run s l : l ∉ h_locks s →
  vmcs_lock_isr_save l s = Ok (tt, s <| h_locks ::= cons l |>).
Proof. intros Hl. unfold vmcs_lock_isr_save. by rewrite bool_decide_false. Qed.

Lemma vunlock_run s l ls : h_locks s = l :: ls → l ∉ ls →
  vmcs_unlock_isr_restore l s = Ok (tt, s <| h_locks := ls |>).
Proof.
  intros E Hl. unfold vmcs_unlock_isr_restore. rewrite bool_decide_true by (rewrite E; left).
  change (s <| h_locks ::= filter (fun l' => l' ≠ l) |>)
    with (s <| h_locks := filter (fun l' => l' ≠ l) (h_locks s) |>).
  by rewrite E, filter_out_cons.
Qed.

Lemma vunlock_cons s (l : vlock) : l ∉ h_locks s →
  vmcs_unlock_isr_restore l (s <| h_locks ::= cons l |>) = Ok (tt, s).
Proof.
  intros Hl. etransitivity; [by apply (vunlock_run _ l (h_locks s))|]. by destruct s.
Qed.

Lemma with_vlock_run {B} s l (body : M hv B) r s' :
  l ∉ h_locks s → body (s <| h_locks ::= cons l |>) = Ok (r, s' <| h_locks ::= cons l |>) →
  h_locks s' = h_locks s → with_vlock l body s = Ok (r, s').
Proof.
  intros Hl Hb Hs. unfold with_vlock. mstep (vlock_run _ _ Hl). mstep Hb.
  by mstep (vunlock_cons s' l ltac:(by rewrite Hs)).
Qed.

Lemma vpartition_get_run s v : entry_free s v →
  vpartition_get v s = match h_table s !! v with
                       | Some p => Ok (Some p, entry_taken v s)
                       | None => Ok (None, s) end.
Proof.
  intros [Hw Hl]. unfold vpartition_get.
  pose (s1 := s <| h_readers ::= S |>).
  assert (vrw_lock_read_isr_save s = Ok (tt, s1)) as E1
    by (unfold vrw_lock_read_isr_save; by rewrite Hw).
  mstep E1. mstep (vlock_run s1 (LEntry v) Hl).
  change (s1 <| h_locks ::= cons (LEntry v) |>) with (entry_taken v s). unfold mgets, bind at 1. change (h_table (entry_taken v s)) with (h_table s).
  destruct (h_table s !! v); [done|].
  change (entry_taken v s) with (s1 <| h_locks ::= cons (LEntry v) |>).
  mstep (vunlock_cons s1 (LEntry v) Hl). by destruct s.
Qed.

Lemma vpartition_put_run s v : LEntry v ∉ h_locks s →
  vpartition_put v (entry_taken v s) = Ok (tt, s).
Proof.
  intros Hl. unfold vpartition_put. pose (s1 := s <| h_readers ::= S |>).
  change (entry_taken v s) with (s1 <| h_locks ::= cons (LEntry v) |>).
  mstep (vunlock_cons s1 (LEntry v) Hl). by destruct s.
Qed.
