(* ===== verification/Vutils.v ===== *)
(** * Vutils: the guest as the hypervisor sees it

    Models include/subsys/twanvisor/vemulate/vemulate_utils.h and the MSR
    traps of vemulate_utils.c: the guest's mode and privilege from its VMCS,
    the events queued for the next VM entry, and the bitmaps that decide which
    ports and MSRs leave the guest. *)

From S2P Require Import Prelude Std Bmp Dq DeltaChain SchedDsa Twan VschedDsa Vpartition.
From coqutil Require Import Datatypes.RecordSetters.
From Stdlib Require Import ZArith Lia Bool.
From stdpp Require Import base gmap list numbers sets.

Local Open Scope Z_scope.

(** ** Registers *)

(** [struct vregs]: the general registers of the guest *)
Record vregs := Vregs {
  r15 : Z; r14 : Z; r13 : Z; r12 : Z; r11 : Z; r10 : Z; r9 : Z; r8 : Z;
  rsi : Z; rdi : Z; rdx : Z; rcx : Z; rbx : Z; rax : Z; rbp : Z; cr8 : Z;
}.

(** The stack pointer is in the VMCS. *)
Definition vgpr_val (r : vregs) (gpr : Z) : M hv Z :=
  if gpr =? 0 then ret (rax r) else if gpr =? 1 then ret (rcx r) else
  if gpr =? 2 then ret (rdx r) else if gpr =? 3 then ret (rbx r) else
  if gpr =? 4 then vmread g_rsp else if gpr =? 5 then ret (rbp r) else
  if gpr =? 6 then ret (rsi r) else if gpr =? 7 then ret (rdi r) else
  if gpr =? 8 then ret (r8 r) else if gpr =? 9 then ret (r9 r) else
  if gpr =? 10 then ret (r10 r) else if gpr =? 11 then ret (r11 r) else
  if gpr =? 12 then ret (r12 r) else if gpr =? 13 then ret (r13 r) else
  if gpr =? 14 then ret (r14 r) else if gpr =? 15 then ret (r15 r) else massert false ;;; ret 0.

(** ** Mode and privilege *)

Inductive vop_mode_t : Type := VOP_16_BIT | VOP_32_BIT | VOP_64_BIT.

(** The bits of cr0_t, ia32_efer_t, rflags_t and access_rights_t read here. *)
Definition cr0_pe (g : vmcs_guest) : bool := Z.testbit (g_cr0 g) 0.
Definition efer_lma (g : vmcs_guest) : bool := Z.testbit (g_efer g) 10.
Definition rflags_if (g : vmcs_guest) : bool := Z.testbit (g_rflags g) 9.
Definition rflags_vm (g : vmcs_guest) : bool := Z.testbit (g_rflags g) 17.
Definition cs_dpl (g : vmcs_guest) : Z := Z.land (Z.shiftr (g_cs_access_rights g) 5) 3.
Definition cs_longmode (g : vmcs_guest) : bool := Z.testbit (g_cs_access_rights g) 13.
Definition cs_db (g : vmcs_guest) : bool := Z.testbit (g_cs_access_rights g) 14.
Definition sti_blocking (g : vmcs_guest) : bool := Z.testbit (g_interruptibility g) 0.
Definition mov_ss_blocking (g : vmcs_guest) : bool := Z.testbit (g_interruptibility g) 1.
Definition nmi_blocking (g : vmcs_guest) : bool := Z.testbit (g_interruptibility g) 3.

Definition vget_guest_mode (g : vmcs_guest) : vop_mode_t :=
  if negb (cr0_pe g) then VOP_16_BIT else
  if efer_lma g then
    if cs_longmode g then VOP_64_BIT else if cs_db g then VOP_32_BIT else VOP_16_BIT
  else if rflags_vm g then VOP_16_BIT
  else if cs_db g then VOP_32_BIT else VOP_16_BIT.

(** The mode if the guest is at the highest privilege, [None] otherwise. *)
Definition vis_guest_cpl0 (g : vmcs_guest) : option vop_mode_t :=
  if negb (cr0_pe g) then Some VOP_16_BIT else
  if negb (cs_dpl g =? 0) then None else
  if efer_lma g then
    Some (if cs_longmode g then VOP_64_BIT else if cs_db g then VOP_32_BIT else VOP_16_BIT)
  else if rflags_vm g then None
  else Some (if cs_db g then VOP_32_BIT else VOP_16_BIT).

(** Moves the guest past the instruction that left it. *)
Definition advanced (g : vmcs_guest) : vmcs_guest :=
  let rip := u64 (g_rip g + ro_instruction_length g) in
  let rip := match vget_guest_mode g with
             | VOP_16_BIT => Z.land rip 0xffff
             | VOP_32_BIT => Z.land rip 0xffffffff
             | VOP_64_BIT => rip end in
  let g := g <| g_rip := rip |> in
  if sti_blocking g || mov_ss_blocking g
  then g <| g_interruptibility := Z.clearbit (Z.clearbit (g_interruptibility g) 1) 0 |>
  else g.
Definition vadvance_guest_rip : M hv unit := vmwrite advanced.

Definition vis_in_nmi (g : vmcs_guest) : bool := nmi_blocking g.
Definition vis_nmis_blocked (g : vmcs_guest) : bool := mov_ss_blocking g || nmi_blocking g.
Definition vis_external_interrupts_blocked (g : vmcs_guest) : bool :=
  if negb (rflags_if g) then true else sti_blocking g || mov_ss_blocking g.

(** ** Events for the next entry *)

Definition vinject_interrupt (vector : Z) (type : interrupt_type_t) (deliver_errcode : bool)
    (errcode : Z) (deliver_length : bool) (length : Z) : M hv unit :=
  vmwrite (fun g => g <| c_entry_interrupt_info := Some (VmentryEvent vector type
    (if deliver_errcode then Some errcode else None)
    (if deliver_length then Some length else None)) |>).
Definition vinject_interrupt_external (vector : Z) (nmi : bool) : M hv unit :=
  vinject_interrupt vector
    (if (vector =? NMI) && nmi then INTERRUPT_TYPE_NMI else INTERRUPT_TYPE_EXTERNAL)
    false 0 false 0.

Definition DEBUG_EXCEPTION : Z := 1.
Definition INVALID_OPCODE : Z := 6.
Definition GENERAL_PROTECTION_FAULT : Z := 13.
Definition ALIGNMENT_CHECK : Z := 17.

Definition upd_operations (v : vptr) (f : voperations → voperations) : M hv unit :=
  upd_vcpu v (fun x => x <| operations ::= f |>).

Definition vqueue_advance_guest : M hv unit :=
  current <~ vcurrent_vcpu ;; upd_operations current (fun o => o <| should_advance := true |>).

Definition vqueue_idt_vectoring_info (info : vectored_events_info_t) : M hv unit :=
  current <~ vcurrent_vcpu ;;
  match vectored_event_type info with
  | INTERRUPT_TYPE_EXTERNAL =>
      vemu_set_interrupt_pending current (ve_vector info) (ve_vector info =? NMI) ;;; ret tt
  | INTERRUPT_TYPE_NMI => vemu_set_interrupt_pending current NMI true ;;; ret tt
  | _ =>
      x <~ get_vcpu current ;;
      massert (negb (idt_vectoring (operations x))) ;;;
      upd_operations current (fun o => o <| idt_vectoring := true |> <| idt_vectoring_info := info |>)
  end.

Definition vqueue_synthetic_errcode (errcode : Z) : M hv unit :=
  current <~ vcurrent_vcpu ;;
  upd_operations current (fun o => o <| use_synth_errcode := true |> <| synth_errcode := errcode |>).

Definition vqueue_inject_gp0 : M hv unit :=
  vqueue_idt_vectoring_info (VectoredEvent INTERRUPT_TYPE_HARDWARE_EXCEPTION GENERAL_PROTECTION_FAULT false) ;;;
  vqueue_synthetic_errcode 0.
Definition vqueue_inject_ud : M hv unit :=
  vqueue_idt_vectoring_info (VectoredEvent INTERRUPT_TYPE_HARDWARE_EXCEPTION INVALID_OPCODE false).
Definition vqueue_inject_db (int_type : interrupt_type_t) : M hv unit :=
  vqueue_idt_vectoring_info (VectoredEvent int_type DEBUG_EXCEPTION false).
Definition vqueue_inject_ac0 : M hv unit :=
  vqueue_idt_vectoring_info (VectoredEvent INTERRUPT_TYPE_HARDWARE_EXCEPTION ALIGNMENT_CHECK false) ;;;
  vqueue_synthetic_errcode 0.

Definition vqueue_vmwrite_cr0 (cr0 : Z) : M hv unit :=
  current <~ vcurrent_vcpu ;;
  upd_operations current (fun o => o <| vmwrite_cr0 := true |> <| op_cr0 := cr0 |>).
Definition vqueue_vmwrite_cr4 (cr4 : Z) : M hv unit :=
  current <~ vcurrent_vcpu ;;
  upd_operations current (fun o => o <| vmwrite_cr4 := true |> <| op_cr4 := cr4 |>).

(** The field has four bits. *)
Definition vset_intl (v : vptr) (l : Z) : M hv unit :=
  with_vlock (LPending v) (upd_vcpu v (fun x => x <| delivery -> intl := Z.land l 15 |>)).

(** ** Bitmaps of ports and MSRs *)

(** The arrays of [vcpu_regions_arch]: 4096 bytes each *)
Record vcpu_bitmaps := VcpuBitmaps {
  io_bitmap_a : list Z;
  io_bitmap_b : list Z;
  msr_bitmap : list Z;
}.

Definition arr_get (a : list Z) (i : Z) : res Z :=
  match a !! Z.to_nat i with Some v => Ok v | None => Fault FBounds end.
(** a[i] = f a[i], for an array of [char] *)
Definition arr_upd (a : list Z) (i : Z) (f : Z → Z) : res (list Z) :=
  let* v := arr_get a i in Ok (<[Z.to_nat i := u8 (f v)]> a).
Definition set_bit (k v : Z) : Z := Z.lor v (Z.shiftl 1 k).
Definition clear_bit (k v : Z) : Z := Z.land v (Z.lnot (Z.shiftl 1 k)).
Definition test_bit (k v : Z) : bool := negb (Z.land (Z.shiftr v k) 1 =? 0).

Definition vtrap_io (b : vcpu_bitmaps) (port : Z) : res vcpu_bitmaps :=
  if port <? 0x8000
  then let* a := arr_upd (io_bitmap_a b) (port / 8) (set_bit (port mod 8)) in
       Ok (b <| io_bitmap_a := a |>)
  else let* a := arr_upd (io_bitmap_b b) (port / 8) (set_bit (port mod 8)) in
       Ok (b <| io_bitmap_b := a |>).
Definition vuntrap_io (b : vcpu_bitmaps) (port : Z) : res vcpu_bitmaps :=
  if port <? 0x8000
  then let* a := arr_upd (io_bitmap_a b) (port / 8) (clear_bit (port mod 8)) in
       Ok (b <| io_bitmap_a := a |>)
  else let* a := arr_upd (io_bitmap_b b) (port / 8) (clear_bit (port mod 8)) in
       Ok (b <| io_bitmap_b := a |>).
Definition vis_io_trapped (b : vcpu_bitmaps) (port : Z) : res bool :=
  let* v := arr_get (if port <? 0x8000 then io_bitmap_a b else io_bitmap_b b) (port / 8) in
  Ok (test_bit (port mod 8) v).

Definition MSR_READ_LOW : Z := 0.
Definition MSR_READ_HIGH : Z := 1024.
Definition MSR_WRITE_LOW : Z := 2048.
Definition MSR_WRITE_HIGH : Z := 3072.

Definition vin_msr_bitmap_range (msr : Z) : bool :=
  (msr <=? 0x1ff) || ((0xc0000000 <=? msr) && (msr <=? 0xc0001fff)).
(** The base and the index, -1 for an MSR with no bit. *)
Definition vmap_msr_write (msr : Z) : Z * Z :=
  if msr <=? 0x1ff then (MSR_WRITE_LOW, msr)
  else if (0xc0000000 <=? msr) && (msr <=? 0xc0001fff) then (MSR_WRITE_HIGH, msr - 0xc0000000)
  else (-1, -1).
Definition vmap_msr_read (msr : Z) : Z * Z :=
  if msr <=? 0x1ff then (MSR_READ_LOW, msr)
  else if (0xc0000000 <=? msr) && (msr <=? 0xc0001fff) then (MSR_READ_HIGH, msr - 0xc0000000)
  else (-1, -1).

Definition upd_msr_bitmap (b : vcpu_bitmaps) (bi : Z * Z) (f : Z → Z → Z) : res vcpu_bitmaps :=
  let '(base, idx) := bi in
  if negb (base =? -1) && negb (idx =? -1)
  then let* a := arr_upd (msr_bitmap b) (base + idx / 8) (f (idx mod 8)) in
       Ok (b <| msr_bitmap := a |>)
  else Ok b.
Definition test_msr_bitmap (b : vcpu_bitmaps) (bi : Z * Z) : res bool :=
  let '(base, idx) := bi in
  if negb (base =? -1) && negb (idx =? -1)
  then let* v := arr_get (msr_bitmap b) (base + idx / 8) in Ok (test_bit (idx mod 8) v)
  else Ok false.

Definition vtrap_msr_write b msr := upd_msr_bitmap b (vmap_msr_write msr) set_bit.
Definition vtrap_msr_read b msr := upd_msr_bitmap b (vmap_msr_read msr) set_bit.
Definition vtrap_msr b msr : res vcpu_bitmaps :=
  let* b := vtrap_msr_read b msr in vtrap_msr_write b msr.
Definition vunvtrap_msr_write b msr := upd_msr_bitmap b (vmap_msr_write msr) clear_bit.
Definition vunvtrap_msr_read b msr := upd_msr_bitmap b (vmap_msr_read msr) clear_bit.
Definition vunvtrap_msr b msr : res vcpu_bitmaps :=
  let* b := vunvtrap_msr_read b msr in vunvtrap_msr_write b msr.
Definition vis_msr_write_trapped b msr := test_msr_bitmap b (vmap_msr_write msr).
Definition vis_msr_read_trapped b msr := test_msr_bitmap b (vmap_msr_read msr).

(** ** What the bitmaps decide *)

Lemma test_bit_spec k v : 0 <= k → test_bit k v = Z.testbit v k.
Proof.
  intros Hk. unfold test_bit. change 1 with (Z.ones 1) at 1. rewrite Z.land_ones by lia.
  change (2 ^ 1) with 2. rewrite <- Z.bit0_mod, Z.shiftr_spec, Z.add_0_l by lia.
  by destruct (Z.testbit v k).
Qed.

Lemma test_set_bit k j v : 0 <= k < 8 → 0 <= j < 8 →
  test_bit j (u8 (set_bit k v)) = (k =? j) || test_bit j v.
Proof.
  intros Hk Hj. rewrite !test_bit_spec by lia. unfold u8, set_bit. rewrite wrap_bit by lia.
  rewrite (proj2 (Z.ltb_lt j 8)) by lia. cbn [andb]. rewrite Z.lor_spec, shiftl_1, testbit_pow2 by lia.
  rewrite orb_comm. f_equal. destruct (Z.eqb_spec k j); [by rewrite bool_decide_true|by rewrite bool_decide_false].
Qed.
Lemma test_clear_bit k j v : 0 <= k < 8 → 0 <= j < 8 →
  test_bit j (u8 (clear_bit k v)) = negb (k =? j) && test_bit j v.
Proof.
  intros Hk Hj. rewrite !test_bit_spec by lia. unfold u8, clear_bit. rewrite wrap_bit by lia.
  rewrite (proj2 (Z.ltb_lt j 8)) by lia. cbn [andb].
  rewrite Z.land_spec, Z.lnot_spec, shiftl_1, testbit_pow2 by lia.
  rewrite andb_comm. do 2 f_equal. destruct (Z.eqb_spec k j); [by rewrite bool_decide_true|by rewrite bool_decide_false].
Qed.

(** The bit of an array at a bit offset. *)
Definition bit_at (a : list Z) (o : Z) : res bool :=
  let* v := arr_get a (o / 8) in Ok (test_bit (o mod 8) v).

Lemma arr_upd_bit (f : Z → Z → Z) (g : bool → bool → bool) a o :
  (∀ k j v, 0 <= k < 8 → 0 <= j < 8 → test_bit j (u8 (f k v)) = g (k =? j) (test_bit j v)) →
  (∀ b, g false b = b) → 0 <= o / 8 < Z.of_nat (length a) →
  ∃ a', arr_upd a (o / 8) (f (o mod 8)) = Ok a' ∧ length a' = length a ∧
    ∀ o', 0 <= o' → bit_at a' o' = let* b := bit_at a o' in Ok (g (o =? o') b).
Proof.
  intros Hf Hg Hi. unfold arr_upd, arr_get.
  destruct (a !! Z.to_nat (o / 8)) as [v|] eqn:E; [|apply lookup_ge_None in E; lia].
  eexists. split; [done|]. split; [apply length_insert|]. intros o' Ho'. unfold bit_at, arr_get.
  pose proof (Z.mod_pos_bound o 8 ltac:(lia)). pose proof (Z.mod_pos_bound o' 8 ltac:(lia)).
  pose proof (Z.div_mod o 8 ltac:(lia)). pose proof (Z.div_mod o' 8 ltac:(lia)).
  assert (0 <= o' / 8) by (apply Z.div_pos; lia).
  destruct (decide (o' / 8 = o / 8)) as [Ed|Ed].
  - rewrite Ed, list_lookup_insert_eq, E by (by eapply lookup_lt_Some). cbn [rbind].
    rewrite Hf by lia. do 2 f_equal.
    destruct (Z.eqb_spec (o mod 8) (o' mod 8)), (Z.eqb_spec o o'); lia || done.
  - rewrite list_lookup_insert_ne by lia. destruct (a !! Z.to_nat (o' / 8)); [|done]. cbn [rbind].
    rewrite (proj2 (Z.eqb_neq o o')), Hg by congruence. done.
Qed.

Definition bitmaps_wf (b : vcpu_bitmaps) : Prop :=
  length (io_bitmap_a b) = 4096%nat ∧ length (io_bitmap_b b) = 4096%nat ∧
  length (msr_bitmap b) = 4096%nat.

(** The offset of an MSR's bit. *)
Definition msr_offset (bi : Z * Z) : Z := fst bi * 8 + snd bi.
Lemma msr_bit b base idx : base ≠ -1 → 0 <= idx →
  test_msr_bitmap b (base, idx) = bit_at (msr_bitmap b) (msr_offset (base, idx)).
Proof.
  intros Hb Hi. unfold test_msr_bitmap, bit_at, msr_offset. cbn [fst snd].
  rewrite (proj2 (Z.eqb_neq _ _) Hb), (proj2 (Z.eqb_neq idx (-1))) by lia. cbn [negb andb].
  rewrite Z.div_add_l by lia. by rewrite (Z.add_comm (base * 8)), Z.mod_add.
Qed.

Lemma upd_msr_run (f : Z → Z → Z) (g : bool → bool → bool) b base idx :
  (∀ k j v, 0 <= k < 8 → 0 <= j < 8 → test_bit j (u8 (f k v)) = g (k =? j) (test_bit j v)) →
  (∀ c, g false c = c) → length (msr_bitmap b) = 4096%nat → base ≠ -1 → 0 <= idx →
  0 <= base + idx / 8 < 4096 →
  ∃ b', upd_msr_bitmap b (base, idx) f = Ok b' ∧ length (msr_bitmap b') = 4096%nat ∧
    io_bitmap_a b' = io_bitmap_a b ∧ io_bitmap_b b' = io_bitmap_b b ∧
    ∀ base' idx', base' ≠ -1 → 0 <= idx' → 0 <= base' + idx' / 8 →
      test_msr_bitmap b' (base', idx') =
        let* c := test_msr_bitmap b (base', idx') in
        Ok (g (msr_offset (base, idx) =? msr_offset (base', idx')) c).
Proof.
  intros Hf Hg Hl Hb Hi Hr. unfold upd_msr_bitmap.
  rewrite (proj2 (Z.eqb_neq _ _) Hb), (proj2 (Z.eqb_neq idx (-1))) by lia. cbn [negb andb].
  assert (base + idx / 8 = msr_offset (base, idx) / 8) as Ed.
  { unfold msr_offset. cbn [fst snd]. by rewrite Z.div_add_l. }
  assert (idx mod 8 = msr_offset (base, idx) mod 8) as ->.
  { unfold msr_offset. cbn [fst snd]. by rewrite (Z.add_comm (base * 8)), Z.mod_add. }
  rewrite Ed in Hr |- *.
  destruct (arr_upd_bit f g (msr_bitmap b) (msr_offset (base, idx)) Hf Hg) as (a & -> & La & Ha);
    [rewrite Hl; exact Hr|].
  eexists. split; [done|]. split; [by rewrite <- Hl|]. split; [done|]. split; [done|].
  intros base' idx' Hb' Hi' Hr'. rewrite !msr_bit by done. cbn [msr_bitmap]. apply Ha.
  unfold msr_offset. cbn [fst snd]. pose proof (Z.div_mod idx' 8). pose proof (Z.mod_pos_bound idx' 8). lia.
Qed.

(** The place of an MSR in each half of the map. *)
Definition msr_place (msr : Z) : Z := if msr <=? 0x1ff then msr else 8192 + (msr - 0xc0000000).

Lemma msr_place_inj m m' : 0 <= m → 0 <= m' →
  vin_msr_bitmap_range m = true → vin_msr_bitmap_range m' = true →
  (msr_place m =? msr_place m') = (m =? m').
Proof.
  unfold vin_msr_bitmap_range, msr_place. intros H0 H0' H H'.
  repeat match goal with |- context [?x <=? ?y] => destruct (Z.leb_spec x y) end; cbn in H, H'; lia.
Qed.

(** Where the two maps put an MSR. *)
Record msr_in (bi : Z * Z) (offset lo : Z) : Prop := {
  mi_base : fst bi ≠ -1;
  mi_idx : 0 <= snd bi;
  mi_byte : lo <= fst bi + snd bi / 8 < lo + 2048;
  mi_offset : msr_offset bi = offset;
}.

Lemma vmap_msr_spec m : 0 <= m →
  if vin_msr_bitmap_range m
  then msr_in (vmap_msr_read m) (msr_place m) 0 ∧ msr_in (vmap_msr_write m) (16384 + msr_place m) 2048
  else vmap_msr_read m = (-1, -1) ∧ vmap_msr_write m = (-1, -1).
Proof.
  intros Hm. unfold vin_msr_bitmap_range, vmap_msr_read, vmap_msr_write, msr_place.
  destruct (Z.leb_spec m 0x1ff); cbn [orb].
  - pose proof (Z.div_pos m 8). pose proof (Z.div_lt_upper_bound m 8 64).
    split; (split; [done|done|cbn [fst snd]; unfold MSR_READ_LOW, MSR_WRITE_LOW; lia|done]).
  - destruct (_ && _) eqn:E; [|done]. apply andb_true_iff in E as [?%Z.leb_le ?%Z.leb_le].
    pose proof (Z.div_pos (m - 0xc0000000) 8). pose proof (Z.div_lt_upper_bound (m - 0xc0000000) 8 1024).
    split; (split; [done|cbn [snd]; lia|cbn [fst snd]; unfold MSR_READ_HIGH, MSR_WRITE_HIGH; lia|
      unfold msr_offset, MSR_READ_HIGH, MSR_WRITE_HIGH; cbn [fst snd]; lia]).
Qed.

Lemma test_msr_ok b bi o lo : bitmaps_wf b → msr_in bi o lo → 0 <= lo <= 2048 →
  ∃ c, test_msr_bitmap b bi = Ok c.
Proof.
  intros (_ & _ & Hl) [Hb Hi Hr _] Hlo. destruct bi as [base idx]. cbn [fst snd] in *.
  unfold test_msr_bitmap, arr_get. rewrite (proj2 (Z.eqb_neq _ _) Hb), (proj2 (Z.eqb_neq idx (-1))) by lia.
  destruct (msr_bitmap b !! _) as [v|] eqn:E; [by eexists|]. apply lookup_ge_None in E. lia.
Qed.

(** An update of an MSR's bits for reading and for writing. *)
Lemma upd_msr_both (f : Z → Z → Z) (g : bool → bool → bool) b m :
  (∀ k j v, 0 <= k < 8 → 0 <= j < 8 → test_bit j (u8 (f k v)) = g (k =? j) (test_bit j v)) →
  (∀ c, g false c = c) → bitmaps_wf b → 0 <= m → vin_msr_bitmap_range m = true →
  ∃ b', (let* b := upd_msr_bitmap b (vmap_msr_read m) f in upd_msr_bitmap b (vmap_msr_write m) f) = Ok b' ∧
    bitmaps_wf b' ∧
    ∀ m', 0 <= m' → vin_msr_bitmap_range m' = true →
      vis_msr_read_trapped b' m' = (let* c := vis_msr_read_trapped b m' in Ok (g (m =? m') c)) ∧
      vis_msr_write_trapped b' m' = (let* c := vis_msr_write_trapped b m' in Ok (g (m =? m') c)).
Proof.
  intros Hf Hg Hwf Hm Hin. pose proof (vmap_msr_spec m Hm) as Hs. rewrite Hin in Hs.
  destruct Hs as [Hr Hw].
  destruct (vmap_msr_read m) as [rb ri], (vmap_msr_write m) as [wb wi], Hr as [R1 R2 R3 R4], Hw as [W1 W2 W3 W4].
  destruct (upd_msr_run f g b rb ri Hf Hg) as (b1 & -> & L1 & A1 & B1 & H1); try done; [apply Hwf|cbn in *; lia|].
  cbn [rbind].
  destruct (upd_msr_run f g b1 wb wi Hf Hg) as (b2 & -> & L2 & A2 & B2 & H2); try done; [cbn in *; lia|].
  exists b2. split; [done|]. split; [destruct Hwf as (? & ? & ?); split_and!; congruence|].
  intros m' Hm' Hin'. pose proof (vmap_msr_spec m' Hm') as Hs. rewrite Hin' in Hs.
  destruct Hs as [Hr' Hw']. unfold vis_msr_read_trapped, vis_msr_write_trapped.
  destruct (test_msr_ok b _ _ _ Hwf Hr' ltac:(lia)) as [cr Er].
  destruct (test_msr_ok b _ _ _ Hwf Hw' ltac:(lia)) as [cw Ew].
  destruct (vmap_msr_read m') as [rb' ri'], (vmap_msr_write m') as [wb' wi'],
    Hr' as [R1' R2' R3' R4'], Hw' as [W1' W2' W3' W4']. cbn [fst snd] in *.
  assert (0 <= msr_place m < 16384 ∧ 0 <= msr_place m' < 16384) as [? ?].
  { unfold msr_place, vin_msr_bitmap_range in *.
    split; repeat match goal with |- context [?x <=? ?y] => destruct (Z.leb_spec x y) end; cbn in Hin, Hin'; lia. }
  rewrite !H2, !H1, Er, Ew by (done || lia). cbn [rbind]. rewrite R4, W4, R4', W4'.
  rewrite (proj2 (Z.eqb_neq (16384 + msr_place m) (msr_place m'))) by lia.
  rewrite (proj2 (Z.eqb_neq (msr_place m) (16384 + msr_place m'))) by lia.
  assert ((16384 + msr_place m =? 16384 + msr_place m') = (msr_place m =? msr_place m')) as -> by lia.
  rewrite !msr_place_inj, !Hg by done. done.
Qed.

(** Traps of MSRs: trapping an MSR makes exactly its own reads and writes
    leave the guest, untrapping it undoes exactly that, and no access is out
    of the map; but only the MSRs up to 0x1ff and those of the high range have
    a bit, and trapping any other one changes nothing.  Among those are the
    capabilities of VMX (0x480) and the x2APIC's command register (0x830),
    which the hypervisor asks to trap. *)
Theorem msr_traps_decide b m :
  bitmaps_wf b → 0 <= m < 2 ^ 32 →
  (∃ b1 b2, vtrap_msr b m = Ok b1 ∧ vunvtrap_msr b m = Ok b2 ∧ bitmaps_wf b1 ∧ bitmaps_wf b2 ∧
    (vin_msr_bitmap_range m = false → b1 = b ∧ b2 = b) ∧
    ∀ m', 0 <= m' < 2 ^ 32 →
      ∃ r w, vis_msr_read_trapped b m' = Ok r ∧ vis_msr_write_trapped b m' = Ok w ∧
        let hit := vin_msr_bitmap_range m && (m =? m') in
        vis_msr_read_trapped b1 m' = Ok (hit || r) ∧ vis_msr_write_trapped b1 m' = Ok (hit || w) ∧
        vis_msr_read_trapped b2 m' = Ok (negb hit && r) ∧
        vis_msr_write_trapped b2 m' = Ok (negb hit && w)) ∧
  vin_msr_bitmap_range 0x480 = false ∧ vin_msr_bitmap_range 0x830 = false.
Proof.
  intros Hwf Hm. split; [|done].
  assert (∀ m', 0 <= m' → ∃ r w, vis_msr_read_trapped b m' = Ok r ∧ vis_msr_write_trapped b m' = Ok w ∧
    (vin_msr_bitmap_range m' = false → ∀ b', vis_msr_read_trapped b' m' = Ok false ∧
       vis_msr_write_trapped b' m' = Ok false)) as Hb.
  { intros m' Hm'. pose proof (vmap_msr_spec m' Hm') as Hs. unfold vis_msr_read_trapped, vis_msr_write_trapped.
    destruct (vin_msr_bitmap_range m') eqn:E.
    - destruct Hs as [Hr Hw]. destruct (test_msr_ok b _ _ _ Hwf Hr ltac:(lia)) as [r ->].
      destruct (test_msr_ok b _ _ _ Hwf Hw ltac:(lia)) as [w ->]. by exists r, w.
    - destruct Hs as [-> ->]. by exists false, false. }
  destruct (vin_msr_bitmap_range m) eqn:Hin.
  - destruct (upd_msr_both set_bit orb b m test_set_bit (fun c => eq_refl) Hwf) as (b1 & E1 & W1 & H1); [lia|done|].
    destruct (upd_msr_both clear_bit (fun h c => negb h && c) b m test_clear_bit (fun c => eq_refl) Hwf)
      as (b2 & E2 & W2 & H2); [lia|done|].
    exists b1, b2. split; [done|]. split; [done|]. split; [done|]. split; [done|]. split; [done|].
    intros m' Hm'. destruct (Hb m' ltac:(lia)) as (r & w & Er & Ew & Hout). exists r, w.
    split; [done|]. split; [done|]. cbn [andb].
    destruct (vin_msr_bitmap_range m') eqn:E.
    + destruct (H1 m' ltac:(lia) E) as [-> ->], (H2 m' ltac:(lia) E) as [-> ->]. by rewrite Er, Ew.
    + specialize (Hout eq_refl). destruct (Hout b) as [E1' E2']. rewrite Er in E1'. rewrite Ew in E2'.
      injection E1' as ->. injection E2' as ->. destruct (Hout b1) as [-> ->], (Hout b2) as [-> ->].
      rewrite andb_false_r. destruct (Z.eqb_spec m m'); [congruence|done].
  - pose proof (vmap_msr_spec m ltac:(lia)) as Hs. rewrite Hin in Hs. destruct Hs as [Hr Hw].
    exists b, b. unfold vtrap_msr, vunvtrap_msr, vtrap_msr_read, vtrap_msr_write, vunvtrap_msr_read, vunvtrap_msr_write.
    rewrite Hr, Hw. split; [done|]. split; [done|]. split; [done|]. split; [done|]. split; [done|].
    intros m' Hm'. destruct (Hb m' ltac:(lia)) as (r & w & -> & -> & _). by exists r, w.
Qed.

Lemma msr_traps_decide_witness :
  let b := VcpuBitmaps (replicate 4096 0) (replicate 4096 0) (replicate 4096 0) in
  ∃ b1, vtrap_msr b 0x3a = Ok b1 ∧ vis_msr_write_trapped b1 0x3a = Ok true ∧
    vtrap_msr b 0x480 = Ok b.
Proof.
  intros b. assert (bitmaps_wf b) as Hwf by (split_and!; apply length_replicate).
  destruct (msr_traps_decide b 0x3a Hwf ltac:(lia)) as [(b1 & b2 & E1 & _ & _ & _ & _ & H) _].
  exists b1. split; [exact E1|]. split; [|reflexivity].
  destruct (H 0x3a ltac:(lia)) as (r & w & _ & Ew & _ & Hw & _). rewrite Hw. reflexivity.
Defined.

(** Traps of ports: for the ports below 0x8000 trapping and untrapping
    decide exactly that port; from 0x8000 on the index, which is not reduced
    to the second map, is out of its bounds for every port. *)
Theorem io_traps_decide b port :
  bitmaps_wf b → 0 <= port < 2 ^ 16 →
  (port < 0x8000 → ∃ b1 b2, vtrap_io b port = Ok b1 ∧ vuntrap_io b port = Ok b2 ∧
    ∀ p, 0 <= p < 0x8000 → ∃ t, vis_io_trapped b p = Ok t ∧
      vis_io_trapped b1 p = Ok ((port =? p) || t) ∧
      vis_io_trapped b2 p = Ok (negb (port =? p) && t)) ∧
  (0x8000 <= port → vtrap_io b port = Fault FBounds ∧ vuntrap_io b port = Fault FBounds ∧
    vis_io_trapped b port = Fault FBounds).
Proof.
  intros (La & Lb & Lm) Hp. unfold vtrap_io, vuntrap_io, vis_io_trapped. split; intros Hlo.
  - rewrite (proj2 (Z.ltb_lt _ _) Hlo).
    assert (0 <= port / 8 < Z.of_nat (length (io_bitmap_a b))) as Hi.
    { rewrite La. split; [apply Z.div_pos; lia|apply Z.div_lt_upper_bound; lia]. }
    destruct (arr_upd_bit set_bit orb (io_bitmap_a b) port test_set_bit (fun c => eq_refl) Hi)
      as (a1 & -> & _ & H1).
    destruct (arr_upd_bit clear_bit (fun h c => negb h && c) (io_bitmap_a b) port test_clear_bit
      (fun c => eq_refl) Hi) as (a2 & -> & _ & H2).
    eexists _, _. split; [done|]. split; [done|]. intros p Hp'.
    rewrite (proj2 (Z.ltb_lt p 32768) ltac:(lia)). specialize (H1 p ltac:(lia)). specialize (H2 p ltac:(lia)).
    unfold bit_at in H1, H2. unfold arr_get in *. cbn [io_bitmap_a].
    destruct (io_bitmap_a b !! Z.to_nat (p / 8)) as [v|] eqn:E.
    + exists (test_bit (p mod 8) v). cbn [rbind] in *. split; [done|]. split; [exact H1|exact H2].
    + apply lookup_ge_None in E. rewrite La in E. exfalso.
      assert (p / 8 < 4096) by (apply Z.div_lt_upper_bound; lia).
      assert (0 <= p / 8) by (apply Z.div_pos; lia). lia.
  - rewrite (proj2 (Z.ltb_ge _ _) Hlo). unfold arr_upd, arr_get.
    rewrite (lookup_ge_None_2 (io_bitmap_b b)); [done|]. rewrite Lb.
    assert (4096 <= port / 8) by (apply Z.div_le_lower_bound; lia). lia.
Qed.

Lemma io_traps_decide_witness :
  let b := VcpuBitmaps (replicate 4096 0) (replicate 4096 0) (replicate 4096 0) in
  (∃ b1, vtrap_io b 0x3f8 = Ok b1 ∧ vis_io_trapped b1 0x3f8 = Ok true) ∧
  vtrap_io b 0x8000 = Fault FBounds.
Proof.
  intros b. assert (bitmaps_wf b) as Hwf by (split_and!; apply length_replicate).
  destruct (io_traps_decide b 0x3f8 Hwf ltac:(lia)) as [H _].
  destruct (io_traps_decide b 0x8000 Hwf ltac:(lia)) as [_ H'].
  split; [|apply H'; lia]. destruct H as (b1 & b2 & E & _ & H); [lia|].
  exists b1. split; [exact E|]. destruct (H 0x3f8 ltac:(lia)) as (t & _ & -> & _). reflexivity.
Defined.
