(* ===== verification/Vrecovery.v ===== *)
(** * Vrecovery: the end of a partition

    Models src/subsys/twanvisor/vportal/vrecovery.c.  A partition is torn down
    by the root's vcall or by a failure of one of its vcpus: the vcpus that
    run are told to stop by [terminate] and an IPI, the others are taken off
    their queues at once; the last one to stop unwinds the routes of the
    partition, gives back its id and notifies the root. *)

From S2P Require Import Prelude Std Bmp Dq DeltaChain SchedDsa Twan VschedDsa Vpartition.
From coqutil Require Import Datatypes.RecordSetters.
From Stdlib Require Import ZArith Lia Bool.
From stdpp Require Import base gmap list numbers sets.

Local Open Scope Z_scope.

Definition NUM_VECTORS : nat := 256.

(** One operation on the dispatch queue of [vector] on processor [c]. *)
Definition on_dispatch {B} (c vector : Z)
    (f : gmap vnode (lnode vnode) → dq vnode → res (B * gmap vnode (lnode vnode) * dq vnode))
    : M hv B :=
  p <~ get_cpu c ;;
  d <~ (match dispatch_vectors p !! Z.to_nat vector with
        | Some d => ret d | None => mfault FBounds end) ;;
  s <~ mget ;;
  r <~ lift (f (h_nodes s) d) ;;
  let '(x, h, d) := r in
  mmodify (fun s => s <| h_nodes := h |>) ;;;
  upd_cpu c (fun p => p <| dispatch_vectors ::= <[Z.to_nat vector := d]> |>) ;;; ret x.

(** Unlinks a node if it is linked. *)
Definition dequeue_if_queued (node : vnode) (h : gmap vnode (lnode vnode)) (d : dq vnode)
    : res (unit * gmap vnode (lnode vnode) * dq vnode) :=
  let* q := dq_is_queued h d node in
  if (q : bool) then no_result (dq_dequeue h d node) else Ok (tt, h, d).

Definition vdispatcher_dequeue (target : Z) (v : vptr) : M hv unit :=
  with_vlock (LDispatch target)
    (mfrom NUM_VECTORS 0 (fun i => on_dispatch target i (dequeue_if_queued (NDisp v i)))).

Definition vipi_ack_dequeue_all (v : vptr) : M hv unit :=
  mfrom NUM_CPUS 0 (fun i =>
    with_vlock (LVipi i) (on_senders i (dequeue_if_queued (NIpi v i)))).

(** One of the loops that unwind routes: [mine] is the partition's own map,
    [theirs] the map of the other end. *)
Fixpoint unwind (fuel : nat) (vid p : Z) (mine : vpartition → bmp256)
    (upd_mine upd_theirs : (bmp256 → bmp256) → vpartition → vpartition) : M hv unit :=
  match fuel with
  | O => mfault FFuel
  | S fuel =>
      x <~ get_part p ;;
      let pair_vid := bmp256_fls (mine x) in
      if pair_vid =? -1 then ret tt else
      pair <~ vpartition_get_exclusive pair_vid ;;
      massert (is_some pair) ;;;
      pair <~ not_null pair ;;
      upd_part pair (upd_theirs (fun b => bmp256_unset b vid)) ;;;
      upd_part p (upd_mine (fun b => bmp256_unset b pair_vid)) ;;;
      unwind fuel vid p mine upd_mine upd_theirs
  end.
(** Each turn clears a bit of a 256-bit map. *)
Definition unwind_fuel : nat := 257.
Definition unwind_senders (vid p : Z) (ty : vroute_type_t) : M hv unit :=
  unwind unwind_fuel vid p (senders ty) (upd_senders ty) (upd_receivers ty).
Definition unwind_receivers (vid p : Z) (ty : vroute_type_t) : M hv unit :=
  unwind unwind_fuel vid p (receivers ty) (upd_receivers ty) (upd_senders ty).
(** The second loop over ipi routes: its condition reads [ipi_senders]. *)
Definition unwind_ipi_receivers (vid p : Z) : M hv unit :=
  unwind unwind_fuel vid p (senders VIPI_ROUTE) (upd_receivers VIPI_ROUTE) (upd_senders VIPI_ROUTE).

(** The loops of [vdo_finalize_teardown], in its order. *)
Definition unwind_routes (vid p : Z) : M hv unit :=
  unwind_senders vid p VIPI_ROUTE ;;;
  unwind_ipi_receivers vid p ;;;
  unwind_senders vid p VTLB_SHOOTDOWN_ROUTE ;;;
  unwind_receivers vid p VTLB_SHOOTDOWN_ROUTE ;;;
  unwind_senders vid p VREAD_VCPU_STATE_ROUTE ;;;
  unwind_receivers vid p VREAD_VCPU_STATE_ROUTE ;;;
  unwind_senders vid p VPV_SPIN_KICK_ROUTE ;;;
  unwind_receivers vid p VPV_SPIN_KICK_ROUTE.

Definition vdo_finalize_teardown (vid : Z) : M hv unit :=
  root_vid <~ mgets h_root_vid ;;
  vpartition_start_exclusive ;;;
  p <~ vpartition_get_exclusive vid ;;
  massert (is_some p) ;;;
  p <~ not_null p ;;
  let unset b := bmp256_unset b root_vid in
  upd_part p (upd_senders VIPI_ROUTE unset) ;;;
  upd_part p (upd_senders VTLB_SHOOTDOWN_ROUTE unset) ;;;
  upd_part p (upd_senders VREAD_VCPU_STATE_ROUTE unset) ;;;
  upd_part p (upd_senders VPV_SPIN_KICK_ROUTE unset) ;;;
  x <~ get_part p ;;
  let '(processor_id, vector, nmi) := terminate_notification x in
  unwind_routes vid p ;;;
  __vpartition_remove vid ;;;
  vpartition_stop_exclusive ;;;
  vpartition_id_free vid ;;;
  root <~ vpartition_get root_vid ;;
  massert (is_some root) ;;;
  root <~ not_null root ;;
  r <~ get_part root ;;
  massert (processor_id <? vcpu_count r) ;;;
  __vemu_inject_external_interrupt (vcpu_of r processor_id) vector nmi ;;;
  vpartition_put root_vid.

(** atomic32_fetch_and_add on num_terminated, returning the new count. *)
Definition add_terminated (p n : Z) : M hv Z :=
  x <~ get_part p ;;
  upd_part p (fun x => x <| num_terminated ::= fun k => u32 (k + n) |>) ;;;
  ret (u32 (num_terminated x + n)).

(** The switch over the state of a vcpu that is told to stop, under its
    scheduler's lock: whether to unlink it from the IPI and dispatch queues,
    and whether it is now terminated. *)
Definition terminate_by_state (v : vptr) (c : Z) : M hv (bool * bool * Z) :=
  x <~ get_vcpu v ;;
  match state (metadata x) with
  | VRUNNING => vipi_async c ;;; ret (false, false, 0)
  | VREADY =>
      __vsched_dequeue v ;;; set_state v VTERMINATED ;;; ret (true, true, 1)
  | VPAUSED | VPV_SPINNING =>
      __vsched_dequeue_paused v ;;; set_state v VTERMINATED ;;; ret (false, true, 1)
  | _ => ret (false, false, 0)
  end.

(** The loop over the vcpus of a partition; [current] is the failing vcpu,
    if the partition terminates itself. *)
Fixpoint terminate_vcpus (n : nat) (i : Z) (base : Z) (current : option vptr) (count : Z)
    : M hv Z :=
  match n with
  | O => ret count
  | S n =>
      let v := VOf base i in
      c <~ vscheduler_of v ;;
      r <~ with_vlock (LSched c)
        (upd_vcpu v (fun x => x <| metadata -> terminate := true |>) ;;;
         if bool_decide (current = Some v)
         then set_state v VTERMINATED ;;; ret (false, true, 1)
         else terminate_by_state v c) ;;
      let '(should_ipi_dequeue, should_dispatcher_dequeue, k) := r in
      (if (should_ipi_dequeue : bool) then vipi_ack_dequeue_all v else ret tt) ;;;
      (if (should_dispatcher_dequeue : bool) then vdispatcher_dequeue c v else ret tt) ;;;
      terminate_vcpus n (i + 1) base current (u32 (count + k))
  end.

Definition vteardown (vid : Z) : M hv Z :=
  p <~ vpartition_get vid ;;
  match p with
  | None => ret (- EINVAL)
  | Some p =>
      x <~ get_part p ;;
      terminated_count <~ terminate_vcpus (Z.to_nat (vcpu_count x)) 0 (vcpus x) None 0 ;;
      vpartition_put vid ;;;
      num_terminated <~ add_terminated p terminated_count ;;
      (if num_terminated =? vcpu_count x then vdo_finalize_teardown vid else ret tt) ;;;
      ret 0
  end.

Definition vdo_transitioning_recover (v : vptr) : M hv unit :=
  c <~ vscheduler_of v ;;
  vdispatcher_dequeue c v ;;;
  vipi_ack_dequeue_all v ;;;
  this <~ vthis_vprocessor_id ;;
  with_vlock (LSched this) (set_state v VTERMINATED) ;;;
  x <~ get_vcpu v ;;
  num_terminated <~ add_terminated (vpartition_addr x) 1 ;;
  if num_terminated =? vpartition_num_cpus x then vdo_finalize_teardown (vid x) else ret tt.
