(* ===== verification/Vsched.v ===== *)
(** * Vsched: scheduling of virtual CPUs

    Models src/subsys/twanvisor/vsched/: vcpu.c, vsched_ctx.c, vsched_timer.c,
    vsched.c and vsched_yield.c, with the self-IPI of visr_index.c through
    which a vcpu gives up its processor, and the failure paths of vrecovery.c.

    [vcpu_ctx] of a processor is the interrupt frame: what it holds when the
    handler returns is what the processor resumes. *)

From S2P Require Import Prelude Std Bmp Dq DeltaChain SchedDsa Twan VschedDsa Vpartition Vrecovery.
From coqutil Require Import Datatypes.RecordSetters.
From Stdlib Require Import ZArith Lia Bool.
From stdpp Require Import base gmap list numbers sets.

Local Open Scope Z_scope.

(** ** vsched_timer.c *)

Definition upd_this (f : vper_cpu → vper_cpu) : M hv unit :=
  this <~ vthis_vprocessor_id ;; upd_cpu this f.

(** [oneshot_done]: what vis_lapic_oneshot_done() reads from the timer *)
Definition vis_sched_timer_done (oneshot_done : bool) : M hv bool :=
  p <~ vthis_cpu_data ;;
  let r := sched_timer_armed p && oneshot_done in
  (if r then upd_this (fun p => p <| sched_timer_armed := false |>) else ret tt) ;;;
  ret r.

Definition vsched_timer_reload (ticks : Z) : M hv unit := vlog (ETimerReload ticks).

Definition vsched_arm_timer (ticks : Z) : M hv unit :=
  if negb (ticks =? 0) then
    upd_this (fun p => p <| sched_timer_armed := true |>) ;;; vsched_timer_reload ticks
  else upd_this (fun p => p <| sched_timer_armed := false |>).

Definition vsched_start_schedule (ticks : Z) : M hv unit :=
  v <~ vcurrent_vcpu ;;
  x <~ get_vcpu v ;;
  (if schedule_callback x then vlog (EScheduleCallback v) else ret tt) ;;;
  vsched_arm_timer ticks.

(** ** vsched_ctx.c *)

Definition vsched_put_ctx (v : vptr) : M hv unit :=
  p <~ vthis_cpu_data ;;
  let regs := vcpu_ctx p in
  upd_vcpu v (fun x => x <| vcontext :=
    Context (cx_cr8 regs) (cx_r15 regs) (cx_r14 regs) (cx_r13 regs) (cx_r12 regs)
      (cx_r11 regs) (cx_r10 regs) (cx_r9 regs) (cx_r8 regs) (cx_rsi regs) (cx_rdi regs)
      (cx_rdx regs) (cx_rcx regs) (cx_rbx regs) (cx_rax regs) (cx_rbp regs) (cx_rsp regs)
      (cx_rflags regs) (cx_rip regs) (cx_fp_context regs) |>).

Definition vsched_set_ctx (v : vptr) : M hv unit :=
  x <~ get_vcpu v ;;
  let c := vcontext x in
  upd_this (fun p => p <| vcpu_ctx :=
    Context (cx_cr8 c) (cx_r15 c) (cx_r14 c) (cx_r13 c) (cx_r12 c)
      (cx_r11 c) (cx_r10 c) (cx_r9 c) (cx_r8 c) (cx_rsi c) (cx_rdi c)
      (cx_rdx c) (cx_rcx c) (cx_rbx c) (cx_rax c) (cx_rbp c) (cx_rsp c)
      (cx_rflags c) (cx_rip c) (cx_fp_context c) |>).

Definition vsched_enter_ctx (v : vptr) : M hv unit :=
  upd_this (fun p => p <| current_vcpu := Some v |>) ;;;
  set_state v VTRANSITIONING ;;;
  upd_vcpu v (fun x => x <| metadata -> current_time_slice_ticks := time_slice_ticks (metadata x) |>) ;;;
  vsched_set_ctx v.

(** ** vsched.c *)

Definition __vsched_put (v : vptr) (put_ctx : bool) : M hv unit :=
  set_state v VREADY ;;;
  upd_vcpu v (fun x => x <| metadata -> rearm := false |>) ;;;
  upd_vcpu v (fun x => x <| preempted := true |>) ;;;
  (if put_ctx then vsched_put_ctx v else ret tt) ;;;
  __vsched_push v.

Definition __vsched_put_paused (v : vptr) (pv_spin put_ctx : bool) : M hv unit :=
  set_state v (if pv_spin then VPV_SPINNING else VPAUSED) ;;;
  upd_vcpu v (fun x => x <| metadata -> rearm := false |>) ;;;
  upd_vcpu v (fun x => x <| preempted := true |>) ;;;
  (if put_ctx then vsched_put_ctx v else ret tt) ;;;
  __vsched_push_paused v.

Definition vsched_put (v : vptr) (put_ctx : bool) : M hv unit :=
  c <~ vscheduler_of v ;;
  vmcs_lock_isr_save (LSched c) ;;;
  x <~ get_vcpu v ;;
  if terminate (metadata x) then
    vmcs_unlock_isr_restore (LSched c) ;;;
    vdo_transitioning_recover v
  else
    __vsched_put v put_ctx ;;;
    vmcs_unlock_isr_restore (LSched c).

Definition set_pv_spin_state (v : vptr) (st : vcpu_pv_spin_state_t) : M hv unit :=
  upd_vcpu v (fun x => x <| metadata -> pv_spin_state := st |>).

Definition vsched_put_paused (v : vptr) (pv_spin put_ctx : bool) : M hv bool :=
  c <~ vscheduler_of v ;;
  vmcs_lock_isr_save (LSched c) ;;;
  x <~ get_vcpu v ;;
  if terminate (metadata x) then
    vmcs_unlock_isr_restore (LSched c) ;;;
    vdo_transitioning_recover v ;;;
    ret true
  else
    r <~ (if pv_spin then
            match pv_spin_state (metadata x) with
            | VSPIN_NONE =>
                __vsched_put_paused v true put_ctx ;;;
                set_pv_spin_state v VSPIN_PAUSED ;;; ret true
            | VSPIN_KICKED => set_pv_spin_state v VSPIN_NONE ;;; ret false
            | VSPIN_PAUSED => massert false ;;; ret false
            end
          else __vsched_put_paused v false put_ctx ;;; ret true) ;;
    vmcs_unlock_isr_restore (LSched c) ;;;
    ret r.

Definition __vsched_get : M hv (option vptr) :=
  v <~ __vsched_pop ;;
  match v with
  | Some v => vsched_enter_ctx v ;;; ret (Some v)
  | None => ret None
  end.

Definition vsched_get_or_idle : M hv vptr :=
  this <~ vthis_vprocessor_id ;;
  r <~ with_vlock (LSched this)
    (v <~ __vsched_get ;;
     v <~ (match v with
           | Some v => ret v
           | None =>
               vsched_enter_ctx (VIdle this) ;;;
               upd_vsched this (fun sc => sc <| kick := VSCHED_IDLE_KICK_UNSET |>) ;;;
               ret (VIdle this)
           end) ;;
     x <~ get_vcpu v ;;
     ret (v, current_time_slice_ticks (metadata x))) ;;
  vsched_start_schedule (snd r) ;;;
  ret (fst r).
Definition vsched_get_spin : M hv vptr := vsched_get_or_idle.

Definition vthis_vsched_reschedule (current : vptr) : M hv unit :=
  this <~ vthis_vprocessor_id ;;
  vmcs_lock_isr_save (LSched this) ;;;
  x <~ get_vcpu current ;;
  if terminate (metadata x) then
    vmcs_unlock_isr_restore (LSched this) ;;;
    vdo_transitioning_recover current ;;;
    vsched_get_spin ;;; ret tt
  else
    b <~ __vsched_is_current_preemptible current ;;
    (if (b : bool) then __vsched_put current true ;;; __vsched_get ;;; ret tt
     else upd_vcpu current (fun x =>
            x <| metadata -> current_time_slice_ticks := time_slice_ticks (metadata x) |>)) ;;;
    v <~ vcurrent_vcpu ;;
    x <~ get_vcpu v ;;
    let ticks := current_time_slice_ticks (metadata x) in
    vmcs_unlock_isr_restore (LSched this) ;;;
    vsched_start_schedule ticks.

(** ** vsched_yield.c *)

Definition vsched_should_request_yield (current : vptr) : M hv bool :=
  this <~ vthis_vprocessor_id ;;
  with_vlock (LSched this) (__vsched_is_current_preemptible current).

Definition set_yield_request (v : vptr) (b : bool) : M hv unit :=
  upd_vcpu v (fun x => x <| yield_request := b |>).

Definition vsched_preempt_isr : M hv unit :=
  p <~ vthis_cpu_data ;;
  match current_vcpu p with
  | None => ret tt
  | Some current =>
      x <~ get_vcpu current ;;
      if 0 <? preemption_count x then
        b <~ vsched_should_request_yield current ;;
        if (b : bool) then set_yield_request current true else
        this <~ vthis_vprocessor_id ;;
        ticks <~ with_vlock (LSched this)
          (x <~ get_vcpu current ;; ret (current_time_slice_ticks (metadata x))) ;;
        vsched_arm_timer ticks
      else
        set_yield_request current false ;;;
        vthis_vsched_reschedule current
  end.

Definition vsched_yield_ipi : M hv unit :=
  current <~ vcurrent_vcpu ;;
  set_yield_request current false ;;;
  vthis_vsched_reschedule current.

Definition vsched_pause_ipi (pv_spin : bool) : M hv unit :=
  current <~ vcurrent_vcpu ;;
  x <~ get_vcpu current ;;
  let yield_requested := yield_request x in
  set_yield_request current false ;;;
  r <~ vsched_put_paused current pv_spin true ;;
  if (r : bool) then vsched_get_spin ;;; ret tt
  else if yield_requested then set_yield_request current true
  else ret tt.

Definition vsched_recover_ipi : M hv unit := vsched_get_spin ;;; ret tt.

Definition vsched_idle_yield_ipi : M hv unit :=
  current <~ vcurrent_vcpu ;;
  vsched_put_ctx current ;;;
  vsched_get_spin ;;; ret tt.

Definition vfinalize_teardown_ipi (vid : Z) : M hv unit :=
  vdo_finalize_teardown (u8 vid) ;;; vsched_get_spin ;;; ret tt.
Definition vtransitioning_recover_ipi : M hv unit :=
  current <~ vcurrent_vcpu ;;
  vdo_transitioning_recover current ;;; vsched_get_spin ;;; ret tt.

(** A call through the pointer. *)
Definition call_ipi (f : ipi_func_t) (arg : Z) : M hv unit :=
  match f with
  | VSCHED_YIELD_IPI => vsched_yield_ipi
  | VSCHED_PAUSE_IPI => vsched_pause_ipi (negb (arg =? 0))
  | VSCHED_RECOVER_IPI => vsched_recover_ipi
  | VSCHED_IDLE_YIELD_IPI => vsched_idle_yield_ipi
  | VFINALIZE_TEARDOWN_IPI => vfinalize_teardown_ipi arg
  | VTRANSITIONING_RECOVER_IPI => vtransitioning_recover_ipi
  end.

(** ** IPIs: parts of __visr_dispatcher (visr_dispatcher.c)

    What the dispatcher does before and after it looks at the vector, and what
    it does for VIPI_VECTOR; the other vectors are in Visr. *)

Definition vdead_local : M hv unit := fun s => Fault FHalt.

(** Whether another interrupt was interrupted. *)
Definition visr_enter (frame : context) : M hv bool :=
  p <~ vthis_cpu_data ;;
  let was_in_isr := handling_isr p in
  (if was_in_isr then ret tt
   else upd_this (fun p => p <| handling_isr := true |> <| vcpu_ctx := frame |>)) ;;;
  ret was_in_isr.

Definition visr_ipi : M hv unit :=
  p <~ vthis_cpu_data ;;
  (if dead p then vdead_local else ret tt) ;;;
  if is_self_ipi p then
    let self_ipi_func := func (self_ipi p) in
    let self_ipi_arg := arg (self_ipi p) in
    (match self_ipi_func with Some f => call_ipi f self_ipi_arg | None => ret tt end) ;;;
    upd_this (fun p => p <| is_self_ipi := false |>)
  else upd_this (fun p => p <| drain := false |>).

(** The frame with which the interrupt returns. *)
Definition visr_leave (was_in_isr : bool) (frame : context) : M hv context :=
  if was_in_isr then ret frame
  else
    p <~ vthis_cpu_data ;;
    upd_this (fun p => p <| handling_isr := false |>) ;;; ret (vcpu_ctx p).

(** __vemulate_interrupt with VIPI_VECTOR: the dispatcher over the frame that is
    made of the registers.  (Visr proves that it is the dispatcher.) *)
Definition __vemulate_ipi (frame : context) : M hv context :=
  was_in_isr <~ visr_enter frame ;; visr_ipi ;;; visr_leave was_in_isr frame.

(** Outside of interrupts [vcpu_ctx] stands for the registers of the code that
    runs, and so for those of the vcpu that goes on when another was chosen.
    The interrupt flag is that of the caller, who finds it as it was when it
    goes on itself; a vcpu that goes on in its place has that of its own
    frame, which is not modelled. *)
Definition vemulate_self_ipi (f : ipi_func_t) (a : Z) : M hv unit :=
  flags <~ read_flags_and_disable_interrupts ;;
  upd_this (fun p => p <| is_self_ipi := true |> <| self_ipi := VipiCall (Some f) a |>) ;;;
  p <~ vthis_cpu_data ;;
  __vemulate_ipi (vcpu_ctx p) ;;;
  write_flags flags.

Definition vsched_yield : M hv unit := vemulate_self_ipi VSCHED_YIELD_IPI 0.
Definition vsched_pause (pv_spin : bool) : M hv unit := vemulate_self_ipi VSCHED_PAUSE_IPI (if pv_spin then 1 else 0).
Definition vsched_recover : M hv unit := vemulate_self_ipi VSCHED_RECOVER_IPI 0.
Definition vsched_idle_yield : M hv unit := vemulate_self_ipi VSCHED_IDLE_YIELD_IPI 0.

(** ** The rest of vrecovery.c *)

Definition vfinalize_teardown (vid : Z) : M hv unit := vemulate_self_ipi VFINALIZE_TEARDOWN_IPI vid.
Definition vtransitioning_recover : M hv unit := vemulate_self_ipi VTRANSITIONING_RECOVER_IPI 0.

Definition vfailure_recover : M hv unit :=
  current <~ vcurrent_vcpu ;;
  disable_interrupts ;;;
  x <~ get_vcpu current ;;
  massert (negb (root x)) ;;;  (* vpanicf_global: root failure *)
  upd_this (fun p => p <| sched_timer_armed := false |>) ;;;
  p <~ vpartition_get (vid x) ;;
  massert (is_some p) ;;;
  p <~ not_null p ;;
  part <~ get_part p ;;
  terminated_count <~ terminate_vcpus (Z.to_nat (vcpu_count part)) 0 (vcpus part) (Some current) 0 ;;
  vpartition_put (vid x) ;;;
  num_terminated <~ add_terminated p terminated_count ;;
  if num_terminated =? vpartition_num_cpus x then vfinalize_teardown (vid x)
  else vsched_recover.

(** ** vcpu.c *)

Definition vcurrent_vcpu_is_preemption_enabled : M hv bool :=
  v <~ vcurrent_vcpu ;; x <~ get_vcpu v ;; ret (preemption_count x =? 0).

Definition vcurrent_vcpu_disable_preemption : M hv unit :=
  v <~ vcurrent_vcpu ;; x <~ get_vcpu v ;;
  massert (preemption_count x <? 2 ^ 32 - 1) ;;;
  upd_vcpu v (fun x => x <| preemption_count ::= fun n => u32 (n + 1) |>).

Definition vcurrent_vcpu_enable_preemption_no_yield : M hv unit :=
  v <~ vcurrent_vcpu ;; x <~ get_vcpu v ;;
  massert (0 <? preemption_count x) ;;;
  upd_vcpu v (fun x => x <| preemption_count ::= fun n => u32 (n - 1) |>).

Definition vtry_answer_yield_request : M hv bool :=
  v <~ vcurrent_vcpu ;; x <~ get_vcpu v ;;
  let r := (preemption_count x =? 0) && yield_request x in
  (if r then vsched_yield else ret tt) ;;;
  ret r.

Definition vcurrent_vcpu_enable_preemption : M hv unit :=
  vcurrent_vcpu_enable_preemption_no_yield ;;;
  vtry_answer_yield_request ;;; ret tt.
