(* ===== verification/Vemu.v ===== *)
(** * Vemu: what one partition may do to another

    Models the operations of src/subsys/twanvisor/vemulate/vemulate_utils.c
    behind the vcalls: interrupts and wake-ups of virtual CPUs of the own
    ([_local]) and of another partition ([_far]), reads of their state, TLB
    shootdowns, the kick of a vcpu that spins on a lock, and the root's
    configuration of routes, subscriptions, criticality rights, time slices. *)

From S2P Require Import Prelude Std Bmp Dq DeltaChain SchedDsa Twan VschedDsa Vpartition Vrecovery.
From S2P Require Import Vsched.
From coqutil Require Import Datatypes.RecordSetters.
From Stdlib Require Import ZArith Lia Bool.
From stdpp Require Import base gmap list numbers sets.

Local Open Scope Z_scope.

(** ** Wake-ups *)

Definition __vemu_unpause_vcpu (v : vptr) (inject : bool) (vector : Z) (nmi : bool) : M hv Z :=
  c <~ vscheduler_of v ;;
  vmcs_lock_isr_save (LSched c) ;;;
  x <~ get_vcpu v ;;
  if negb (bool_decide (state (metadata x) = VPAUSED)) then
    vmcs_unlock_isr_restore (LSched c) ;;; ret (- EINVAL)
  else
    __vsched_unpause v ;;;
    r <~ (if inject then vemu_set_interrupt_pending v vector nmi else ret 0) ;;
    vmcs_unlock_isr_restore (LSched c) ;;;
    ret r.

(** The own partition's vcpu [processor_id]: bounds first, then [k] between
    get and put. *)
Definition vemu_unpause_vcpu_local (pid : Z) (inject : bool) (vector : Z) (nmi : bool)
    : M hv Z :=
  if inject && nmi && negb (vector =? NMI) then ret (- EINVAL) else
  current <~ vcurrent_vcpu ;;
  x <~ get_vcpu current ;;
  if vpartition_num_cpus x <=? pid then ret (- EINVAL) else
  p <~ vpartition_get (vid x) ;;
  match p with
  | None => ret (- EFAULT)
  | Some p =>
      part <~ get_part p ;;
      r <~ __vemu_unpause_vcpu (vcpu_of part pid) inject vector nmi ;;
      vpartition_put (vid x) ;;;
      ret r
  end.

Definition vemu_unpause_vcpu_far (target_vid pid : Z) (inject : bool) (vector : Z) (nmi : bool)
    : M hv Z :=
  current <~ vcurrent_vcpu ;;
  x <~ get_vcpu current ;;
  let sender_vid := vid x in
  if (sender_vid =? target_vid) || (inject && nmi && negb (vector =? NMI)) then ret (- EINVAL) else
  p <~ vpartition_get target_vid ;;
  match p with
  | None => ret (- EINVAL)
  | Some p =>
      part <~ get_part p ;;
      if negb (bmp256_test (ipi_senders part) sender_vid) || (vcpu_count part <=? pid) then
        vpartition_put target_vid ;;; ret (- EINVAL)
      else
        r <~ __vemu_unpause_vcpu (vcpu_of part pid) inject vector nmi ;;
        vpartition_put target_vid ;;;
        ret r
  end.

(** ** Interrupts *)

Definition vemu_inject_external_interrupt_local (pid vector : Z) (nmi : bool) : M hv Z :=
  if nmi && negb (vector =? NMI) then ret (- EINVAL) else
  current <~ vcurrent_vcpu ;;
  x <~ get_vcpu current ;;
  if vpartition_num_cpus x <=? pid then ret (- EINVAL) else
  if processor_id x =? pid then vemu_set_interrupt_pending current vector nmi else
  p <~ vpartition_get (vid x) ;;
  match p with
  | None => ret (- EFAULT)
  | Some p =>
      part <~ get_part p ;;
      __vemu_inject_external_interrupt (vcpu_of part pid) vector nmi ;;;
      vpartition_put (vid x) ;;;
      ret 0
  end.

Definition vemu_inject_external_interrupt_far (target_vid pid vector : Z) (nmi : bool) : M hv Z :=
  current <~ vcurrent_vcpu ;;
  x <~ get_vcpu current ;;
  let sender_vid := vid x in
  if (sender_vid =? target_vid) || (nmi && negb (vector =? NMI)) then ret (- EINVAL) else
  p <~ vpartition_get target_vid ;;
  match p with
  | None => ret (- EINVAL)
  | Some p =>
      part <~ get_part p ;;
      if negb (bmp256_test (ipi_senders part) sender_vid) || (vcpu_count part <=? pid) then
        vpartition_put target_vid ;;; ret (- EINVAL)
      else
        __vemu_inject_external_interrupt (vcpu_of part pid) (u8 vector) nmi ;;;
        vpartition_put target_vid ;;;
        ret 0
  end.

(** ** TLB shootdown *)

(** The first pass: every vcpu gets its flush, those that run are to be
    waited for. *)
Definition tlb_mark (current : vptr) (v : vptr) : M hv unit :=
  c <~ vscheduler_of v ;;
  with_vlock (LSched c)
    (x <~ get_vcpu v ;;
     let st := state (metadata x) in
     let was_pending := tlb_flush_pending (metadata x) in
     upd_vcpu v (fun x => x <| metadata -> tlb_flush_pending := true |>) ;;;
     massert (negb (bool_decide (v = current)) || bool_decide (st = VTRANSITIONING)) ;;;
     if bool_decide (st = VRUNNING) then
       vipi_queue_ack c current ;;;
       (if negb was_pending then vipi_async c ;;; ret tt else ret tt) ;;;
       upd_vcpu current (fun x => x <| wait_for_map ::= <[c := 1]> |>)
     else ret tt).

Definition vemu_tlb_invalidate (target_vid : Z) : M hv Z :=
  current <~ vcurrent_vcpu ;;
  x <~ get_vcpu current ;;
  let sender_vid := vid x in
  p <~ vpartition_get target_vid ;;
  match p with
  | None => ret (- EINVAL)
  | Some p =>
      part <~ get_part p ;;
      if negb (bmp256_test (tlb_shootdown_senders part) sender_vid) &&
         negb (sender_vid =? target_vid) then
        vpartition_put target_vid ;;; ret (- EINVAL)
      else
        num_enabled_cpus <~ vnum_cpus ;;
        mfrom (Z.to_nat num_enabled_cpus) 0 (fun i =>
          upd_vcpu current (fun x => x <| wait_for_map ::= <[i := 0]> |>)) ;;;
        mfrom (Z.to_nat (vcpu_count part)) 0 (fun i => tlb_mark current (vcpu_of part i)) ;;;
        vpartition_put target_vid ;;;
        b <~ vcurrent_vcpu_is_preemption_enabled ;;
        massert b ;;;
        b <~ is_interrupts_enabled ;;
        massert b ;;;
        (* spin_until (vipi_check_ack(i, current) == 1) *)
        mfrom (Z.to_nat num_enabled_cpus) 0 (fun i =>
          x <~ get_vcpu current ;;
          if bool_decide (wait_for_map x !! i = Some 1) then vlog (EWaitAck i) else ret tt) ;;;
        ret 0
  end.

(** ** The root's changes to a vcpu *)

Definition vemu_alter_vcpu (vid pid : Z) (alter_ticks : bool) (ticks : Z)
    (alter_criticality : bool) (crit : Z) : M hv Z :=
  p <~ vpartition_get vid ;;
  match p with
  | None => ret (- EINVAL)
  | Some p =>
      part <~ get_part p ;;
      if vcpu_count part <=? pid then vpartition_put vid ;;; ret (- EINVAL) else
      let v := vcpu_of part pid in
      c <~ vscheduler_of v ;;
      with_vlock (LSched c)
        ((if alter_ticks then
            x <~ get_vcpu v ;;
            upd_vcpu v (fun x => x <| metadata -> time_slice_ticks := ticks |>) ;;;
            if (current_time_slice_ticks (metadata x) =? 0) && negb (ticks =? 0) then
              upd_vcpu v (fun x => x <| metadata -> current_time_slice_ticks := ticks |>) ;;;
              if bool_decide (state (metadata x) = VRUNNING) then
                upd_vcpu v (fun x => x <| metadata -> rearm := true |>) ;;;
                vipi_async c ;;; ret tt
              else
                current <~ (p <~ vthis_cpu_data ;; ret (current_vcpu p)) ;;
                if bool_decide (Some v = current)
                then upd_vcpu v (fun x => x <| metadata -> rearm := true |>) else ret tt
            else ret tt
          else ret tt) ;;;
         x <~ get_vcpu v ;;
         if alter_criticality && negb (criticality (metadata x) =? crit)
         then __vsched_update_criticality v crit else ret tt) ;;;
      vpartition_put vid ;;;
      ret 0
  end.

(** ** Reading a vcpu's state *)

Definition __vemu_read_vcpu_state (v : vptr) : M hv Z :=
  c <~ vscheduler_of v ;;
  with_vlock (LSched c) (x <~ get_vcpu v ;; ret (vcpu_state_val (state (metadata x)))).

Definition vemu_read_vcpu_state_local (pid : Z) : M hv Z :=
  current <~ vcurrent_vcpu ;;
  x <~ get_vcpu current ;;
  if vpartition_num_cpus x <=? pid then ret (- EINVAL) else
  p <~ vpartition_get (vid x) ;;
  match p with
  | None => ret (- EFAULT)
  | Some p =>
      part <~ get_part p ;;
      st <~ __vemu_read_vcpu_state (vcpu_of part pid) ;;
      vpartition_put (vid x) ;;;
      ret st
  end.

Definition vemu_read_vcpu_state_far (target_vid pid : Z) : M hv Z :=
  current <~ vcurrent_vcpu ;;
  x <~ get_vcpu current ;;
  let sender_vid := vid x in
  if target_vid =? sender_vid then ret (- EINVAL) else
  p <~ vpartition_get target_vid ;;
  match p with
  | None => ret (- EINVAL)
  | Some p =>
      part <~ get_part p ;;
      if negb (bmp256_test (read_vcpu_state_senders part) sender_vid) || (vcpu_count part <=? pid)
      then vpartition_put target_vid ;;; ret (- EINVAL)
      else
        st <~ __vemu_read_vcpu_state (vcpu_of part pid) ;;
        vpartition_put target_vid ;;;
        ret st
  end.

(** ** The root's configuration *)

Definition vemu_set_route (target_vid sender_vid route_type : Z) (allow : bool) : M hv Z :=
  match vroute_of route_type with
  | None => ret (- EINVAL)
  | Some ty =>
  if sender_vid =? target_vid then ret (- EINVAL) else
  let vid1 := Z.min sender_vid target_vid in
  let vid2 := Z.max sender_vid target_vid in
  vpartition1 <~ vpartition_get vid1 ;;
  match vpartition1 with
  | None => ret (- EINVAL)
  | Some vpartition1 =>
  vpartition2 <~ vpartition_get vid2 ;;
  match vpartition2 with
  | None => vpartition_put vid1 ;;; ret (- EINVAL)
  | Some vpartition2 =>
      let sender := if vid1 =? sender_vid then vpartition1 else vpartition2 in
      let target := if vid1 =? target_vid then vpartition1 else vpartition2 in
      (if allow then
         upd_part sender (upd_receivers ty (fun b => bmp256_set b target_vid)) ;;;
         upd_part target (upd_senders ty (fun b => bmp256_set b sender_vid))
       else
         upd_part sender (upd_receivers ty (fun b => bmp256_unset b target_vid)) ;;;
         upd_part target (upd_senders ty (fun b => bmp256_unset b sender_vid))) ;;;
      vpartition_put vid2 ;;;
      vpartition_put vid1 ;;;
      ret 0
  end end end.

Definition vemu_set_vcpu_subscription_perms (vid pid vector : Z) (allow : bool) : M hv Z :=
  p <~ vpartition_get vid ;;
  match p with
  | None => ret (- EINVAL)
  | Some p =>
      part <~ get_part p ;;
      if vcpu_count part <=? pid then vpartition_put vid ;;; ret (- EINVAL) else
      let v := vcpu_of part pid in
      c <~ vscheduler_of v ;;
      cpu <~ get_cpu c ;;
      if negb (bmp256_test (available_vectors cpu) vector) then
        vpartition_put vid ;;; ret (- EINVAL)
      else
        with_vlock (LDispatch c)
          (if allow then
             upd_vcpu v (fun x => x <| allowed_external_vectors ::= fun b => bmp256_set b vector |>)
           else
             upd_vcpu v (fun x => x <| allowed_external_vectors ::= fun b => bmp256_unset b vector |>) ;;;
             upd_vcpu v (fun x => x <| subscribed_vectors ::= fun b => bmp256_unset b vector |>) ;;;
             on_dispatch c vector (dequeue_if_queued (NDisp v vector))) ;;;
        vpartition_put vid ;;;
        ret 0
  end.

Definition vemu_set_criticality_perm (vid physical_processor_id : Z) (perm : vcriticality_perm_t)
    : M hv Z :=
  let min := min_criticality_writeable perm in
  let max := max_criticality_writeable perm in
  n <~ vnum_cpus ;;
  if n <=? physical_processor_id then ret (- EINVAL) else
  if perm_write perm && ((max <? min) || (VSCHED_MAX_CRITICALITY <? max)) then ret (- EINVAL) else
  p <~ vpartition_get vid ;;
  match p with
  | None => ret (- EINVAL)
  | Some p =>
      upd_part p (fun x => x <| criticality_perms ::= <[physical_processor_id := perm]> |>) ;;;
      vpartition_put vid ;;;
      ret 0
  end.

(** vpartition->criticality_perms[physical_processor_id] *)
Definition get_perm (p physical_processor_id : Z) : M hv vcriticality_perm_t :=
  part <~ get_part p ;;
  match criticality_perms part !! physical_processor_id with
  | Some perm => ret perm | None => mfault FBounds end.

Definition vemu_read_criticality_level (requester_vid physical_processor_id : Z) : M hv Z :=
  n <~ vnum_cpus ;;
  if n <=? physical_processor_id then ret (- EINVAL) else
  p <~ vpartition_get requester_vid ;;
  match p with
  | None => ret (- EINVAL)
  | Some p =>
      perm <~ get_perm p physical_processor_id ;;
      r <~ (if perm_read perm then vsched_mcs_read_criticality_level physical_processor_id
            else ret (- EPERM)) ;;
      vpartition_put requester_vid ;;;
      ret r
  end.

Definition vemu_write_criticality_level (requester_vid physical_processor_id criticality_level : Z)
    : M hv Z :=
  n <~ vnum_cpus ;;
  if (n <=? physical_processor_id) || (VSCHED_MAX_CRITICALITY <? criticality_level)
  then ret (- EINVAL) else
  p <~ vpartition_get requester_vid ;;
  match p with
  | None => ret (- EINVAL)
  | Some p =>
      perm <~ get_perm p physical_processor_id ;;
      r <~ (if perm_write perm && (min_criticality_writeable perm <=? criticality_level) &&
               (criticality_level <=? max_criticality_writeable perm)
            then vsched_mcs_write_criticality_level physical_processor_id criticality_level
            else ret (- EINVAL)) ;;
      vpartition_put requester_vid ;;;
      ret r
  end.

(** ** The kick of a spinning vcpu *)

Definition __vemu_pv_spin_kick (v : vptr) : M hv unit :=
  c <~ vscheduler_of v ;;
  with_vlock (LSched c)
    (x <~ get_vcpu v ;;
     match pv_spin_state (metadata x) with
     | VSPIN_PAUSED =>
         massert (bool_decide (state (metadata x) = VPV_SPINNING)) ;;;
         __vsched_unpause v ;;;
         set_pv_spin_state v VSPIN_NONE
     | _ => set_pv_spin_state v VSPIN_KICKED
     end).

Definition vemu_pv_spin_kick_local (pid : Z) : M hv Z :=
  current <~ vcurrent_vcpu ;;
  x <~ get_vcpu current ;;
  if vpartition_num_cpus x <=? pid then ret (- EINVAL) else
  p <~ vpartition_get (vid x) ;;
  match p with
  | None => ret (- EINVAL)
  | Some p =>
      part <~ get_part p ;;
      __vemu_pv_spin_kick (vcpu_of part pid) ;;;
      vpartition_put (vid x) ;;;
      ret 0
  end.

Definition vemu_pv_spin_kick_far (target_vid pid : Z) : M hv Z :=
  current <~ vcurrent_vcpu ;;
  x <~ get_vcpu current ;;
  let sender_vid := vid x in
  if target_vid =? sender_vid then ret (- EINVAL) else
  p <~ vpartition_get target_vid ;;
  match p with
  | None => ret (- EINVAL)
  | Some p =>
      part <~ get_part p ;;
      if negb (bmp256_test (pv_spin_kick_senders part) sender_vid) || (vcpu_count part <=? pid)
      then vpartition_put target_vid ;;; ret (- EINVAL)
      else
        __vemu_pv_spin_kick (vcpu_of part pid) ;;;
        vpartition_put target_vid ;;;
        ret 0
  end.

(** ** Authority *)

(** [v] runs on this processor. *)
Definition running (s : hv) (v : vptr) : Prop :=
  ∃ p, h_cpus s !! h_this s = Some p ∧ current_vcpu p = Some v.

(** Partition [target] accepts [ty] from partition [sender]. *)
Definition accepts (s : hv) (ty : vroute_type_t) (target sender : Z) : bool :=
  match h_table s !! target with
  | Some p => match h_parts s !! p with
              | Some part => bmp256_test (senders ty part) sender
              | None => false end
  | None => false
  end.

(** The valid entries of the table name partitions. *)
Definition table_ok (s : hv) : Prop :=
  ∀ v p, h_table s !! v = Some p → is_Some (h_parts s !! p).

Lemma current_run s v : running s v → vcurrent_vcpu s = Ok (v, s).
Proof.
  intros (p & Ep & Ev). unfold vcurrent_vcpu, vthis_cpu_data, vthis_vprocessor_id, mgets, bind, get_cpu.
  by rewrite Ep, Ev.
Qed.

Lemma get_vcpu_run s v x : h_vcpus s !! v = Some x → get_vcpu v s = Ok (x, s).
Proof. intros E. unfold get_vcpu. by rewrite E. Qed.
Lemma get_part_run s p x : h_parts s !! p = Some x → get_part p s = Ok (x, s).
Proof. intros E. unfold get_part. by rewrite E. Qed.
Lemma upd_part_run s p x f : h_parts s !! p = Some x →
  upd_part p f s = Ok (tt, s <| h_parts ::= <[p := f x]> |>).
Proof. intros E. unfold upd_part. by mstep (get_part_run _ _ _ E). Qed.
Lemma upd_vcpu_run s v x f : h_vcpus s !! v = Some x →
  upd_vcpu v f s = Ok (tt, s <| h_vcpus ::= <[v := f x]> |>).
Proof. intros E. unfold upd_vcpu. by mstep (get_vcpu_run _ _ _ E). Qed.

(** A body between get and put that only looks at the partition and refuses. *)
Lemma refused_by (ty : vroute_type_t) s target sender (k : Z → M hv Z) :
  entry_free s target → table_ok s → accepts s ty target sender = false →
  (∀ p part s', h_parts s' !! p = Some part →
     bmp256_test (senders ty part) sender = false →
     k p s' = (vpartition_put target ;;; ret (- EINVAL)) s') →
  (p <~ vpartition_get target ;;
   match p with None => ret (- EINVAL) | Some p => k p end) s = Ok (- EINVAL, s).
Proof.
  intros Hf Hok Ha Hk. pose proof (vpartition_get_run s target Hf) as Eg.
  unfold accepts in Ha. destruct (h_table s !! target) as [p|] eqn:Et.
  - mstep Eg. destruct (Hok _ _ Et) as [part Ep]. rewrite Ep in Ha.
    rewrite (Hk p part (entry_taken target s) Ep Ha).
    by mstep (vpartition_put_run s target (proj2 Hf)).
  - by mstep Eg.
Qed.

(** C8.  Isolation of partitions: whatever a virtual CPU asks of another
    partition - an interrupt, a wake-up, the state of a vcpu, a TLB shootdown,
    a kick - is refused with -EINVAL and leaves the whole state of the
    hypervisor as it was, unless that partition accepts such requests from the
    sender's partition; so are requests to an id that names no partition. *)
Theorem far_calls_need_a_route s cur x target pid vector nmi inject :
  running s cur → h_vcpus s !! cur = Some x → vid x ≠ target →
  table_ok s → entry_free s target →
  (accepts s VIPI_ROUTE target (vid x) = false →
     vemu_inject_external_interrupt_far target pid vector nmi s = Ok (- EINVAL, s) ∧
     vemu_unpause_vcpu_far target pid inject vector nmi s = Ok (- EINVAL, s)) ∧
  (accepts s VREAD_VCPU_STATE_ROUTE target (vid x) = false →
     vemu_read_vcpu_state_far target pid s = Ok (- EINVAL, s)) ∧
  (accepts s VTLB_SHOOTDOWN_ROUTE target (vid x) = false →
     vemu_tlb_invalidate target s = Ok (- EINVAL, s)) ∧
  (accepts s VPV_SPIN_KICK_ROUTE target (vid x) = false →
     vemu_pv_spin_kick_far target pid s = Ok (- EINVAL, s)).
Proof.
  intros Hrun Ex Hne Hok Hf.
  assert (∀ {B} (k : vptr → vcpu → M hv B),
    (current <~ vcurrent_vcpu ;; x <~ get_vcpu current ;; k current x) s = k cur x s) as Hcur.
  { intros B k. mstep (current_run _ _ Hrun). by mstep (get_vcpu_run _ _ _ Ex). }
  split_and!; intros Ha.
  - split.
    + unfold vemu_inject_external_interrupt_far. rewrite Hcur.
      destruct (_ || _) eqn:E; [done|].
      apply (refused_by VIPI_ROUTE s target (vid x)); try done.
      intros p part s' Ep Hb. cbn [senders] in Hb. mstep (get_part_run _ _ _ Ep). by rewrite Hb.
    + unfold vemu_unpause_vcpu_far. rewrite Hcur.
      destruct (_ || _) eqn:E; [done|].
      apply (refused_by VIPI_ROUTE s target (vid x)); try done.
      intros p part s' Ep Hb. cbn [senders] in Hb. mstep (get_part_run _ _ _ Ep). by rewrite Hb.
  - unfold vemu_read_vcpu_state_far. rewrite Hcur. destruct (_ =? _) eqn:E; [done|].
    apply (refused_by VREAD_VCPU_STATE_ROUTE s target (vid x)); try done.
    intros p part s' Ep Hb. cbn [senders] in Hb. mstep (get_part_run _ _ _ Ep). by rewrite Hb.
  - unfold vemu_tlb_invalidate. rewrite Hcur.
    apply (refused_by VTLB_SHOOTDOWN_ROUTE s target (vid x)); try done.
    intros p part s' Ep Hb. cbn [senders] in Hb. mstep (get_part_run _ _ _ Ep).
    by rewrite Hb, (proj2 (Z.eqb_neq _ _) Hne).
  - unfold vemu_pv_spin_kick_far. rewrite Hcur. destruct (_ =? _) eqn:E; [done|].
    apply (refused_by VPV_SPIN_KICK_ROUTE s target (vid x)); try done.
    intros p part s' Ep Hb. cbn [senders] in Hb. mstep (get_part_run _ _ _ Ep). by rewrite Hb.
Qed.

(** ** Routes *)

(** Partition [sender] may name [target] as a destination. *)
Definition sends (s : hv) (ty : vroute_type_t) (sender target : Z) : bool :=
  match h_table s !! sender with
  | Some p => match h_parts s !! p with
              | Some part => bmp256_test (receivers ty part) target
              | None => false end
  | None => false
  end.

Definition table_inj (s : hv) : Prop :=
  ∀ a b p, h_table s !! a = Some p → h_table s !! b = Some p → a = b.

Lemma senders_upd ty ty' f p :
  senders ty' (upd_senders ty f p) = if decide (ty' = ty) then f (senders ty p) else senders ty' p.
Proof. by destruct ty, ty'. Qed.
Lemma receivers_upd ty ty' f p :
  receivers ty' (upd_receivers ty f p) =
    if decide (ty' = ty) then f (receivers ty p) else receivers ty' p.
Proof. by destruct ty, ty'. Qed.
Lemma senders_upd_receivers ty ty' f p : senders ty' (upd_receivers ty f p) = senders ty' p.
Proof. by destruct ty, ty'. Qed.
Lemma receivers_upd_senders ty ty' f p : receivers ty' (upd_senders ty f p) = receivers ty' p.
Proof. by destruct ty, ty'. Qed.

(** [bmp256_set] or [bmp256_unset] *)
Definition bmp256_put (b : bmp256) (i : Z) (v : bool) : bmp256 :=
  if v then bmp256_set b i else bmp256_unset b i.
Lemma bmp256_put_test b i v j : bmp256_wf b → 0 <= i < 256 → 0 <= j < 256 →
  bmp256_test (bmp256_put b i v) j = if decide (j = i) then v else bmp256_test b j.
Proof.
  intros Hb Hi Hj. rewrite !bmp256_test_bit. unfold bmp256_put.
  destruct v; rewrite ?bmp256_set_bit, ?bmp256_unset_bit by done;
    destruct (decide (j = i)) as [->|]; rewrite ?Z.eqb_refl; try done;
    by rewrite (proj2 (Z.eqb_neq i j)) by congruence.
Qed.

(** What the root relies on when it configures: no partition has two ids, and
    the maps are maps of 256 bits. *)
Record routes_ok (s : hv) : Prop := {
  ro_table : table_ok s;
  ro_inj : table_inj s;
  ro_wf : ∀ p part ty, h_parts s !! p = Some part →
    bmp256_wf (senders ty part) ∧ bmp256_wf (receivers ty part);
}.

(** The two updates of [vemu_set_route]. *)
Definition route_set (ty : vroute_type_t) (sp tp sender target : Z) (allow : bool) : M hv unit :=
  upd_part sp (upd_receivers ty (fun b => bmp256_put b target allow)) ;;;
  upd_part tp (upd_senders ty (fun b => bmp256_put b sender allow)).

Lemma route_set_run s ty sp tp xs xt sender target allow :
  h_parts s !! sp = Some xs → h_parts s !! tp = Some xt → sp ≠ tp →
  route_set ty sp tp sender target allow s = Ok (tt, s <| h_parts ::= fun m =>
    <[tp := upd_senders ty (fun b => bmp256_put b sender allow) xt]>
    (<[sp := upd_receivers ty (fun b => bmp256_put b target allow) xs]> m) |>).
Proof.
  intros Es Et Hne. unfold route_set. mstep (upd_part_run s sp xs
    (upd_receivers ty (fun b => bmp256_put b target allow)) Es).
  pose (m := <[sp := upd_receivers ty (fun b => bmp256_put b target allow) xs]> (h_parts s)).
  rewrite (upd_part_run _ tp xt); [done|].
  change (m !! tp = Some xt). unfold m. by rewrite lookup_insert_ne.
Qed.

Lemma vemu_set_route_run s n ty sender target allow :
  vroute_of n = Some ty → sender ≠ target → entry_free s sender → entry_free s target →
  vemu_set_route target sender n allow s =
    match h_table s !! sender, h_table s !! target with
    | Some sp, Some tp =>
        match route_set ty sp tp sender target allow
                (entry_taken (Z.max sender target) (entry_taken (Z.min sender target) s)) with
        | Ok (_, s') => (vpartition_put (Z.max sender target) ;;;
                         vpartition_put (Z.min sender target) ;;; ret 0) s'
        | Fault f => Fault f
        end
    | _, _ => Ok (- EINVAL, s)
    end.
Proof.
  intros Hty Hne Hf1 Hf2. unfold vemu_set_route. rewrite Hty, (proj2 (Z.eqb_neq _ _) Hne).
  assert (∀ a b, a ≠ b → entry_free s a → entry_free s b → entry_free (entry_taken a s) b) as Hfree.
  { intros a b Hab [? _] [? Hb]. split; [done|]. simpl. change (LEntry b ∉ LEntry a :: h_locks s).
    intros [?|?]%elem_of_cons; naive_solver. }
  assert (∀ a b, a ≠ b → entry_free s a → entry_free s b →
    ∀ k1 : Z → Z → M hv Z,
    (p1 <~ vpartition_get a ;; match p1 with None => ret (- EINVAL) | Some p1 =>
      p2 <~ vpartition_get b ;; match p2 with None => vpartition_put a ;;; ret (- EINVAL)
      | Some p2 => k1 p1 p2 end end) s =
    match h_table s !! a, h_table s !! b with
    | Some p1, Some p2 => k1 p1 p2 (entry_taken b (entry_taken a s))
    | _, _ => Ok (- EINVAL, s) end) as Hget.
  { intros a b Hab Ha Hb k1. pose proof (vpartition_get_run s a Ha) as E.
    destruct (h_table s !! a) as [p1|] eqn:E1; [|by mstep E]. mstep E.
    pose proof (vpartition_get_run _ b (Hfree a b Hab Ha Hb)) as E2.
    change (h_table (entry_taken a s)) with (h_table s) in E2.
    destruct (h_table s !! b) as [p2|]; mstep E2; [done|].
    by mstep (vpartition_put_run s a (proj2 Ha)). }
  destruct (Z.lt_ge_cases sender target).
  - rewrite Z.min_l, Z.max_r by lia. rewrite Hget by done. rewrite Z.eqb_refl.
    rewrite (proj2 (Z.eqb_neq sender target)) by done.
    destruct (h_table s !! sender), (h_table s !! target); try done.
    unfold bind, route_set, bmp256_put. destruct allow; done.
  - rewrite Z.min_r, Z.max_l by lia. rewrite Hget by done. rewrite Z.eqb_refl.
    rewrite (proj2 (Z.eqb_neq target sender)) by congruence.
    destruct (h_table s !! sender), (h_table s !! target); try done.
    unfold bind, route_set, bmp256_put. destruct allow; done.
Qed.

Lemma bmp256_put_wf b i v : bmp256_wf b → 0 <= i < 256 → bmp256_wf (bmp256_put b i v).
Proof. intros Hb Hi. destruct v; [by apply bmp256_set_wf|by apply bmp256_unset_wf]. Qed.

(** The maps after [route_set]. *)
Section RouteSet.
Context (s : hv) (ty : vroute_type_t) (sender target sp tp : Z) (xs xt : vpartition) (allow : bool).
Hypothesis (Hok : routes_ok s) (Hne : sender ≠ target).
Hypothesis (Hs : 0 <= sender < 256) (Ht : 0 <= target < 256).
Hypothesis (Es : h_table s !! sender = Some sp) (Et : h_table s !! target = Some tp).
Hypothesis (Exs : h_parts s !! sp = Some xs) (Ext : h_parts s !! tp = Some xt).
Definition routed : hv := s <| h_parts ::= fun m =>
  <[tp := upd_senders ty (fun b => bmp256_put b sender allow) xt]>
  (<[sp := upd_receivers ty (fun b => bmp256_put b target allow) xs]> m) |>.

Lemma routed_part p : h_parts routed !! p =
  if decide (p = tp) then Some (upd_senders ty (fun b => bmp256_put b sender allow) xt)
  else if decide (p = sp) then Some (upd_receivers ty (fun b => bmp256_put b target allow) xs)
  else h_parts s !! p.
Proof.
  change (h_parts routed) with
    (<[tp := upd_senders ty (fun b => bmp256_put b sender allow) xt]>
     (<[sp := upd_receivers ty (fun b => bmp256_put b target allow) xs]> (h_parts s))).
  destruct (decide (p = tp)) as [->|]; [by rewrite lookup_insert_eq|]. rewrite lookup_insert_ne by done.
  destruct (decide (p = sp)) as [->|]; [by rewrite lookup_insert_eq|]. by rewrite lookup_insert_ne.
Qed.

Lemma routed_ok : routes_ok routed.
Proof.
  destruct Hok as [H1 H2 H3]. split; [|exact H2|].
  - intros a p E. rewrite routed_part. repeat case_decide; try done. by eapply H1.
  - intros p part ty'. rewrite routed_part. destruct (H3 _ _ ty' Exs), (H3 _ _ ty' Ext).
    repeat case_decide; [intros [= <-]|intros [= <-]|by apply H3].
    + rewrite senders_upd, receivers_upd_senders. case_decide; [|done].
      subst. split; [by apply bmp256_put_wf|done].
    + rewrite receivers_upd, senders_upd_receivers. case_decide; [|done].
      subst. split; [done|by apply bmp256_put_wf].
Qed.

Lemma routed_accepts ty' a b : 0 <= b < 256 → accepts routed ty' a b =
  if decide (ty' = ty ∧ a = target ∧ b = sender) then allow else accepts s ty' a b.
Proof.
  intros Hb. unfold accepts. change (h_table routed) with (h_table s).
  destruct (h_table s !! a) as [p|] eqn:Ea; [|rewrite decide_False; [done|intros (_ & -> & _); congruence]].
  rewrite routed_part. destruct (decide (p = tp)) as [->|Hp].
  - assert (a = target) as -> by (by eapply (ro_inj _ Hok)).
    rewrite Ext, senders_upd. destruct (decide (ty' = ty)) as [Hty|Hty].
    + subst ty'. rewrite bmp256_put_test; [|by eapply (ro_wf _ Hok)|done|done].
      destruct (decide (b = sender)); [by rewrite decide_True|rewrite decide_False; [done|tauto]].
    + rewrite decide_False; [done|tauto].
  - assert (¬ (ty' = ty ∧ a = target ∧ b = sender)) as Hn by (intros (_ & -> & _); congruence).
    destruct (decide (p = sp)) as [->|]; rewrite decide_False by done; [|done].
    by rewrite Exs, senders_upd_receivers.
Qed.

Lemma routed_sends ty' a b : 0 <= b < 256 → sends routed ty' a b =
  if decide (ty' = ty ∧ a = sender ∧ b = target) then allow else sends s ty' a b.
Proof.
  intros Hb. unfold sends. change (h_table routed) with (h_table s).
  assert (sp ≠ tp) as Hpp by (intros <-; apply Hne; by eapply (ro_inj _ Hok)).
  destruct (h_table s !! a) as [p|] eqn:Ea; [|rewrite decide_False; [done|intros (_ & -> & _); congruence]].
  rewrite routed_part. destruct (decide (p = tp)) as [->|Hp].
  - assert (a = target) as -> by (by eapply (ro_inj _ Hok)).
    rewrite Ext, receivers_upd_senders. rewrite decide_False; [done|]. intros (_ & ? & _). congruence.
  - destruct (decide (p = sp)) as [->|Hp'].
    + assert (a = sender) as -> by (by eapply (ro_inj _ Hok)).
      rewrite Exs, receivers_upd. destruct (decide (ty' = ty)) as [Hty|Hty].
      * subst ty'. rewrite bmp256_put_test; [|by eapply (ro_wf _ Hok)|done|done].
        destruct (decide (b = target)); [by rewrite decide_True|rewrite decide_False; [done|tauto]].
      * rewrite decide_False; [done|tauto].
    + rewrite decide_False; [done|]. intros (_ & -> & _). congruence.
Qed.
End RouteSet.

(** The whole call, for two partitions. *)
Lemma vemu_set_route_sets s n ty sender target sp tp xs xt allow :
  routes_ok s → vroute_of n = Some ty → sender ≠ target →
  h_table s !! sender = Some sp → h_table s !! target = Some tp →
  h_parts s !! sp = Some xs → h_parts s !! tp = Some xt →
  entry_free s sender → entry_free s target →
  vemu_set_route target sender n allow s = Ok (0, routed s ty sender target sp tp xs xt allow).
Proof.
  intros Hok Hty Hne Es Et Exs Ext Hf1 Hf2.
  assert (sp ≠ tp) as Hpp by (intros <-; apply Hne; by eapply (ro_inj _ Hok)).
  rewrite (vemu_set_route_run s n ty) by done. rewrite Es, Et.
  set (s1 := entry_taken _ (entry_taken _ s)).
  set (s' := routed s ty sender target sp tp xs xt allow).
  assert (route_set ty sp tp sender target allow s1 =
    Ok (tt, entry_taken (Z.max sender target) (entry_taken (Z.min sender target) s'))) as ->
    by (by rewrite (route_set_run s1 ty sp tp xs xt)).
  assert ((LEntry (Z.max sender target) ∉ h_locks (entry_taken (Z.min sender target) s')) ∧
    (LEntry (Z.min sender target) ∉ h_locks s')) as [H1 H2].
  { change (h_locks (entry_taken (Z.min sender target) s')) with
      (LEntry (Z.min sender target) :: h_locks s). change (h_locks s') with (h_locks s).
    destruct Hf1, Hf2. destruct (Z.lt_ge_cases sender target);
      rewrite ?Z.min_l, ?Z.max_r, ?Z.min_r, ?Z.max_l by lia; split; try done;
      intros [?|?]%elem_of_cons; naive_solver. }
  mstep (vpartition_put_run _ _ H1). by mstep (vpartition_put_run _ _ H2).
Qed.

(**  The root decides who may reach whom: after it sets a route between
    two partitions, exactly that pair's entry of that kind of route, on both
    sides, says what it asked for; every other route of every kind, the
    vcpus, the processors and the table are as before. *)
Theorem vemu_set_route_decides s n ty sender target sp tp allow :
  routes_ok s → vroute_of n = Some ty → sender ≠ target →
  0 <= sender < 256 → 0 <= target < 256 →
  h_table s !! sender = Some sp → h_table s !! target = Some tp →
  entry_free s sender → entry_free s target →
  ∃ s', vemu_set_route target sender n allow s = Ok (0, s') ∧ routes_ok s' ∧
    (h_cpus s' = h_cpus s ∧ h_vcpus s' = h_vcpus s ∧ h_table s' = h_table s ∧
     h_locks s' = h_locks s ∧ h_readers s' = h_readers s) ∧
    ∀ ty' a b, 0 <= b < 256 →
      accepts s' ty' a b =
        (if decide (ty' = ty ∧ a = target ∧ b = sender) then allow else accepts s ty' a b) ∧
      sends s' ty' a b =
        (if decide (ty' = ty ∧ a = sender ∧ b = target) then allow else sends s ty' a b).
Proof.
  intros Hok Hty Hne Hs Ht Es Et Hf1 Hf2.
  destruct (ro_table _ Hok _ _ Es) as [xs Exs]. destruct (ro_table _ Hok _ _ Et) as [xt Ext].
  assert (sp ≠ tp) as Hpp by (intros <-; apply Hne; by eapply (ro_inj _ Hok)).
  exists (routed s ty sender target sp tp xs xt allow).
  split; [by apply vemu_set_route_sets|split; [by apply routed_ok|split; [by split_and!|]]].
  intros ty' a b Hb. split; [by apply routed_accepts|by apply routed_sends].
Qed.

(** ** Criticality levels *)

Lemma get_cpu_run s c p : h_cpus s !! c = Some p → get_cpu c s = Ok (p, s).
Proof. intros E. unfold get_cpu. by rewrite E. Qed.
Lemma upd_cpu_run s c p f : h_cpus s !! c = Some p →
  upd_cpu c f s = Ok (tt, s <| h_cpus ::= <[c := f p]> |>).
Proof. intros E. unfold upd_cpu. by mstep (get_cpu_run _ _ _ E). Qed.

(** [s] with the criticality level of processor [c], whose data is [p]. *)
Definition level_set (s : hv) (c : Z) (p : vper_cpu) (level : Z) : hv :=
  s <| h_cpus ::= <[c := p <| vsched -> vcriticality_level := level |>]> |>.

Lemma vsched_mcs_write_run s c p level :
  h_cpus s !! c = Some p → LSched c ∉ h_locks s → level <= VSCHED_MAX_CRITICALITY →
  vsched_mcs_write_criticality_level c level s = Ok (0, level_set s c p level).
Proof.
  intros E Hl Hv. unfold vsched_mcs_write_criticality_level. rewrite (proj2 (Z.ltb_ge _ _) Hv).
  assert (with_vlock (LSched c) (upd_vsched c (fun sc => sc <| vcriticality_level := level |>)) s =
    Ok (tt, level_set s c p level)) as Ew.
  { apply with_vlock_run; [done| |done]. unfold upd_vsched. by rewrite (upd_cpu_run _ c p). }
  by mstep Ew.
Qed.

Lemma vsched_mcs_read_run s c p :
  h_cpus s !! c = Some p → LSched c ∉ h_locks s →
  vsched_mcs_read_criticality_level c s = Ok (vcriticality_level (vsched p), s).
Proof.
  intros E Hl. unfold vsched_mcs_read_criticality_level. apply with_vlock_run; [done| |done].
  unfold get_vsched, bind. by rewrite (get_cpu_run _ c p).
Qed.

Lemma lsched_entry s c v : LSched c ∉ h_locks s → LSched c ∉ h_locks (entry_taken v s).
Proof.
  intros Hl. change (LSched c ∉ LEntry v :: h_locks s). intros [?|?]%elem_of_cons; naive_solver.
Qed.

(**  A partition changes the criticality level of a processor only within
    the rights the root gave it for that processor: with the right to write
    and the level inside the granted range the level becomes the requested
    one; otherwise, and for levels or processors that do not exist, the call
    is refused with -EINVAL and nothing changes; reading needs the right to
    read. *)
Theorem criticality_access_is_confined s requester pp part perm phys cpu level :
  entry_free s requester → LSched phys ∉ h_locks s →
  h_table s !! requester = Some pp → h_parts s !! pp = Some part →
  criticality_perms part !! phys = Some perm → h_cpus s !! phys = Some cpu →
  phys < h_num_cpus s →
  let allowed := perm_write perm && (min_criticality_writeable perm <=? level) &&
                 (level <=? max_criticality_writeable perm) && (level <=? VSCHED_MAX_CRITICALITY) in
  vemu_write_criticality_level requester phys level s =
    (if allowed then Ok (0, level_set s phys cpu level) else Ok (- EINVAL, s)) ∧
  vemu_read_criticality_level requester phys s =
    Ok (if perm_read perm then vcriticality_level (vsched cpu) else - EPERM, s) ∧
  ∀ phys', h_num_cpus s <= phys' →
    vemu_write_criticality_level requester phys' level s = Ok (- EINVAL, s) ∧
    vemu_read_criticality_level requester phys' s = Ok (- EINVAL, s).
Proof.
  intros Hf Hl Et Ep Eperm Ec Hn allowed.
  pose proof (vpartition_get_run s requester Hf) as Eg. rewrite Et in Eg.
  assert (get_perm pp phys (entry_taken requester s) = Ok (perm, entry_taken requester s)) as Epm.
  { unfold get_perm. mstep (get_part_run (entry_taken requester s) pp part Ep). by rewrite Eperm. }
  assert (∀ s', LEntry requester ∉ h_locks s' → ∀ r, (vpartition_put requester ;;; ret r)
    (entry_taken requester s') = Ok ((r : Z), s')) as Hput.
  { intros s' Hs' r. by mstep (vpartition_put_run s' requester Hs'). }
  destruct Hf as [Hw Hf].
  split; [|split].
  - unfold vemu_write_criticality_level, vnum_cpus, mgets, bind at 1.
    rewrite (proj2 (Z.leb_gt _ _) Hn), orb_false_l. unfold allowed.
    destruct (Z.ltb_spec VSCHED_MAX_CRITICALITY level) as [Hv|Hv].
    { rewrite (proj2 (Z.leb_gt level VSCHED_MAX_CRITICALITY)) by lia. by rewrite andb_false_r. }
    rewrite (proj2 (Z.leb_le level VSCHED_MAX_CRITICALITY)), andb_true_r by lia.
    mstep Eg. mstep Epm.
    match goal with |- context [if ?b then vsched_mcs_write_criticality_level _ _ else _] =>
      destruct b eqn:Ea end.
    + mstep (vsched_mcs_write_run (entry_taken requester s) phys cpu level Ec (lsched_entry _ _ _ Hl) Hv).
      by apply (Hput (level_set s phys cpu level)).
    + unfold ret at 1, bind at 1. by apply Hput.
  - unfold vemu_read_criticality_level, vnum_cpus, mgets, bind at 1.
    rewrite (proj2 (Z.leb_gt _ _) Hn). mstep Eg. mstep Epm. destruct (perm_read perm).
    + mstep (vsched_mcs_read_run (entry_taken requester s) phys cpu Ec (lsched_entry _ _ _ Hl)).
      by apply Hput.
    + unfold ret at 1, bind at 1. by apply Hput.
  - intros phys' Hn'. split.
    + unfold vemu_write_criticality_level, vnum_cpus, mgets, bind at 1.
      by rewrite (proj2 (Z.leb_le _ _) Hn').
    + unfold vemu_read_criticality_level, vnum_cpus, mgets, bind at 1.
      by rewrite (proj2 (Z.leb_le _ _) Hn').
Qed.

(** ** Kicks *)

(** [s] with the data of a vcpu replaced. *)
Definition vcpu_set (s : hv) (v : vptr) (x : vcpu) : hv := s <| h_vcpus ::= <[v := x]> |>.

Lemma vcpu_set_get s v x : h_vcpus (vcpu_set s v x) !! v = Some x.
Proof. apply lookup_insert_eq. Qed.
Lemma vcpu_set_set s v x x' : vcpu_set (vcpu_set s v x) v x' = vcpu_set s v x'.
Proof.
  destruct s. unfold vcpu_set, apply_update. cbn. by rewrite insert_insert_eq.
Qed.
Lemma vcpu_set_id s v x : h_vcpus s !! v = Some x → vcpu_set s v x = s.
Proof.
  intros E. destruct s. unfold vcpu_set, apply_update. cbn in *. by rewrite insert_id.
Qed.
Lemma upd_vcpu_set s v x f : upd_vcpu v f (vcpu_set s v x) = Ok (tt, vcpu_set s v (f x)).
Proof.
  rewrite (upd_vcpu_run _ _ x) by apply vcpu_set_get.
  by rewrite <- (vcpu_set_set s v x (f x)).
Qed.

Lemma put_ctx_run s v x p : h_cpus s !! h_this s = Some p →
  vsched_put_ctx v (vcpu_set s v x) = Ok (tt, vcpu_set s v (x <| vcontext := vcpu_ctx p |>)).
Proof.
  intros E. unfold vsched_put_ctx, vthis_cpu_data, vthis_vprocessor_id, mgets, bind, get_cpu.
  change (h_cpus (vcpu_set s v x) !! h_this (vcpu_set s v x)) with (h_cpus s !! h_this s).
  rewrite E. cbv zeta. rewrite upd_vcpu_set. by destruct (vcpu_ctx p).
Qed.

Lemma vq_set_same s c p h sc :
  h_cpus s !! c = Some p → h = h_nodes s → sc = vsched p → vq_set s c p h sc = s.
Proof. intros E -> ->. by apply vq_set_id. Qed.

(** What a vcpu that starts to spin looks like. *)
Definition spin_paused (x : vcpu) (regs : context) : vcpu :=
  x <| metadata -> state := VPV_SPINNING |> <| metadata -> rearm := false |>
    <| preempted := true |> <| vcontext := regs |>
    <| metadata -> pv_spin_state := VSPIN_PAUSED |>.

Section Kick.
Context (s : hv) (v : vptr) (x : vcpu) (p : vper_cpu) (k : nat).
Context (Qs : nat → list vnode) (P : list vnode).
Abbreviation c := (vqueue_id x).
Hypothesis (Ex : h_vcpus s !! v = Some x) (Ec : h_cpus s !! c = Some p).
Hypothesis (Hr : vq_rep (h_nodes s) (vsched p) Qs P).
Hypothesis (Hlock : LSched c ∉ h_locks s).

Lemma scheduler_of_run s' : h_vcpus s' !! v = Some x → vscheduler_of v s' = Ok (c, s').
Proof. apply vscheduler_of_run. Qed.

Lemma kick_awake : pv_spin_state (metadata x) ≠ VSPIN_PAUSED →
  __vemu_pv_spin_kick v s = Ok (tt, vcpu_set s v (x <| metadata -> pv_spin_state := VSPIN_KICKED |>)).
Proof.
  intros Hn. unfold __vemu_pv_spin_kick. mstep (vscheduler_of_run _ _ _ Ex).
  apply with_vlock_run; [done| |done]. set (s1 := s <| h_locks ::= _ |>).
  mstep (get_vcpu_run s1 v x Ex).
  destruct (pv_spin_state (metadata x)); try done; unfold set_pv_spin_state;
    by rewrite (upd_vcpu_run s1 v x).
Qed.

Lemma pause_kicked : terminate (metadata x) = false → pv_spin_state (metadata x) = VSPIN_KICKED →
  vsched_put_paused v true true s =
    Ok (false, vcpu_set s v (x <| metadata -> pv_spin_state := VSPIN_NONE |>)).
Proof.
  intros Ht Hp. unfold vsched_put_paused. mstep (vscheduler_of_run _ _ _ Ex).
  mstep (vlock_run s (LSched c) Hlock). set (s1 := s <| h_locks ::= _ |>).
  mstep (get_vcpu_run s1 v x Ex). rewrite Ht, Hp.
  set (s2 := vcpu_set s v (x <| metadata -> pv_spin_state := VSPIN_NONE |>)).
  assert (set_pv_spin_state v VSPIN_NONE s1 = Ok (tt, s2 <| h_locks ::= cons (LSched c) |>)) as E
    by (unfold set_pv_spin_state; by rewrite (upd_vcpu_run s1 v x)).
  unfold bind at 1. unfold bind at 1. rewrite E. unfold ret at 1.
  by mstep (vunlock_cons s2 (LSched c) Hlock).
Qed.

Lemma pause_spins : h_this s = c →
  terminate (metadata x) = false → pv_spin_state (metadata x) = VSPIN_NONE →
  is_Some (h_nodes s !! NSched v 0) → NSched v 0 ∉ Qs 0%nat → NSched v 0 ∉ P →
  ∃ h' sc', vsched_put_paused v true true s =
      Ok (true, vq_set (vcpu_set s v (spin_paused x (vcpu_ctx p))) c p h' sc') ∧
    vq_rep h' sc' Qs (P ++ [NSched v 0]) ∧ queues sc' = queues (vsched p) ∧
    (∀ m, is_Some (h' !! m) ↔ is_Some (h_nodes s !! m)).
Proof.
  intros Hthis Ht Hp Ha Hq HP.
  pose (L := fun s' : hv => s' <| h_locks ::= cons (LSched c) |>).
  pose (x1 := x <| metadata -> state := VPV_SPINNING |> <| metadata -> rearm := false |>
    <| preempted := true |> <| vcontext := vcpu_ctx p |>).
  destruct (push_paused_spec (vcpu_set (L s) v x1) c p (h_nodes s) (vsched p) Qs P v x1 Hr)
    as (h' & sc' & E & Hr' & _ & _ & Hqs & Hd); [apply vcpu_set_get|done|done|done|done|].
  rewrite vq_set_same in E by done.
  exists h', sc'. split; [|done].
  unfold vsched_put_paused. mstep (vscheduler_of_run _ _ _ Ex).
  mstep (vlock_run s (LSched c) Hlock). change (s <| h_locks ::= cons (LSched c) |>) with (L s).
  mstep (get_vcpu_run (L s) v x Ex). rewrite Ht, Hp.
  assert (__vsched_put_paused v true true (L s) = Ok (tt, vq_set (vcpu_set (L s) v x1) c p h' sc')) as E1.
  { unfold __vsched_put_paused, set_state. rewrite <- (vcpu_set_id (L s) v x Ex) at 1.
    mstep (upd_vcpu_set (L s) v x (fun x => x <| metadata -> state := VPV_SPINNING |>)).
    mstep (upd_vcpu_set (L s) v (x <| metadata -> state := VPV_SPINNING |>)
      (fun x => x <| metadata -> rearm := false |>)).
    mstep (upd_vcpu_set (L s) v (x <| metadata -> state := VPV_SPINNING |>
      <| metadata -> rearm := false |>) (fun x => x <| preempted := true |>)).
    rewrite <- Hthis in Ec. mstep (put_ctx_run (L s) v (x <| metadata -> state := VPV_SPINNING |>
      <| metadata -> rearm := false |> <| preempted := true |>) p Ec). exact E. }
  pose (s2 := vq_set (vcpu_set s v (spin_paused x (vcpu_ctx p))) c p h' sc').
  assert (set_pv_spin_state v VSPIN_PAUSED (vq_set (vcpu_set (L s) v x1) c p h' sc') =
    Ok (tt, L s2)) as E2.
  { change (vq_set (vcpu_set (L s) v x1) c p h' sc')
      with (vcpu_set (vq_set (L s) c p h' sc') v x1).
    unfold set_pv_spin_state. by rewrite upd_vcpu_set. }
  unfold bind at 1. unfold bind at 1. rewrite E1. unfold bind at 1. rewrite E2. unfold ret at 1.
  by mstep (vunlock_cons s2 (LSched c) Hlock).
Qed.

Lemma kick_paused P1 P2 : P = P1 ++ NSched v 0 :: P2 →
  pv_spin_state (metadata x) = VSPIN_PAUSED → state (metadata x) = VPV_SPINNING →
  criticality (metadata x) = Z.of_nat k → can_queue (h_nodes s) Qs v k →
  ∃ h' sc', __vemu_pv_spin_kick v s =
      Ok (tt, vq_set (vcpu_set s v (x <| metadata -> state := VREADY |>
                                      <| metadata -> pv_spin_state := VSPIN_NONE |>)) c p h' sc') ∧
    vq_rep h' sc' (pushed Qs v k) (P1 ++ P2) ∧ kick sc' = VSCHED_IDLE_KICK_SET.
Proof.
  intros HP Hp Hst Hk Hcq. subst P.
  pose (L := fun s' : hv => s' <| h_locks ::= cons (LSched c) |>).
  destruct (dequeue_paused_spec (L s) c p (h_nodes s) (vsched p) Qs P1 P2 v x Hr Ex eq_refl)
    as (h1 & sc1 & E1 & Hr1 & _ & _ & Hd1 & Hn1).
  rewrite vq_set_same in E1 by done.
  pose (x1 := x <| metadata -> state := VREADY |>).
  destruct (vsched_push_spec (vcpu_set (L s) v x1) c p h1 sc1 Qs (P1 ++ P2) v x1 k Hr1)
    as (h2 & sc2 & E2 & Hr2 & _ & Hk2 & _); [apply vcpu_set_get|done|done| |done|].
  { destruct Hcq as [? Hc]. split; [done|]. intros j Hj. rewrite Hd1. by apply Hc. }
  exists h2, sc2. split; [|done].
  unfold __vemu_pv_spin_kick. mstep (vscheduler_of_run _ _ _ Ex).
  apply with_vlock_run; [done| |done]. change (s <| h_locks ::= cons (LSched c) |>) with (L s).
  mstep (get_vcpu_run (L s) v x Ex). rewrite Hp, Hst. unfold massert at 1, bind at 1.
  rewrite bool_decide_true by done.
  assert (__vsched_unpause v (L s) = Ok (tt, vq_set (vcpu_set (L s) v x1) c p h2 sc2)) as E.
  { unfold __vsched_unpause. mstep E1. unfold set_state.
    mstep (upd_vcpu_run (vq_set (L s) c p h1 sc1) v x (fun x => x <| metadata -> state := VREADY |>) Ex).
    exact E2. }
  mstep E. change (vq_set (vcpu_set (L s) v x1) c p h2 sc2)
    with (vcpu_set (vq_set (L s) c p h2 sc2) v x1).
  unfold set_pv_spin_state. by rewrite upd_vcpu_set.
Qed.
End Kick.

(** C11.  No kick of a vcpu that spins on a lock is lost, whichever order the two
    processors take the scheduler's lock in.  If the kick comes first, the
    vcpu's request to pause is declined and the state is what it was before
    both.  If the pause comes first, the vcpu leaves its processor with its
    registers saved, and the kick makes it ready again at the tail of every
    run queue of its criticality, with the idle processor told to look. *)
Theorem pv_spin_kick_not_lost s v x p k Qs P other :
  h_vcpus s !! v = Some x → h_this s = vqueue_id x → h_cpus s !! h_this s = Some p →
  vq_rep (h_nodes s) (vsched p) Qs P → LSched (h_this s) ∉ h_locks s →
  terminate (metadata x) = false → pv_spin_state (metadata x) = VSPIN_NONE →
  criticality (metadata x) = Z.of_nat k → can_queue (h_nodes s) Qs v k → NSched v 0 ∉ P →
  let from c s := s <| h_this := c |> in
  (∃ s1, __vemu_pv_spin_kick v (from other s) = Ok (tt, s1) ∧
     vsched_put_paused v true true (from (h_this s) s1) = Ok (false, s)) ∧
  (∃ s1 x1, vsched_put_paused v true true s = Ok (true, s1) ∧
     h_vcpus s1 !! v = Some x1 ∧ state (metadata x1) = VPV_SPINNING ∧ vcontext x1 = vcpu_ctx p ∧
     ∃ s2 x2 p2, __vemu_pv_spin_kick v (from other s1) = Ok (tt, s2) ∧
       h_vcpus s2 !! v = Some x2 ∧ state (metadata x2) = VREADY ∧
       pv_spin_state (metadata x2) = VSPIN_NONE ∧ vcontext x2 = vcpu_ctx p ∧
       h_cpus s2 !! h_this s = Some p2 ∧ kick (vsched p2) = VSCHED_IDLE_KICK_SET ∧
       vq_rep (h_nodes s2) (vsched p2) (pushed Qs v k) P).
Proof.
  intros Ex Hthis Ec Hr Hl Ht Hp Hk Hcq HP from. rewrite Hthis in Ec, Hl.
  destruct Hcq as [Hk5 Hcq]. split.
  - pose (x1 := x <| metadata -> pv_spin_state := VSPIN_KICKED |>).
    pose (s1 := vcpu_set s v x1).
    exists (vcpu_set (from other s) v x1). split; [by apply kick_awake; [..|rewrite Hp]|].
    transitivity (vsched_put_paused v true true s1).
    { f_equal. }
    rewrite (pause_kicked s1 v x1) by (try done; apply vcpu_set_get).
    unfold s1. rewrite vcpu_set_set. rewrite vcpu_set_id; [done|].
    rewrite Ex. destruct x as [? m]. destruct m. cbn in *. by subst.
  - destruct (pause_spins s v x p Qs P) as (h1 & sc1 & E1 & Hr1 & Hq1 & Hd1); try done;
      [apply (Hcq 0%nat); lia|apply (Hcq 0%nat); lia|].
    pose (x1 := spin_paused x (vcpu_ctx p)).
    pose (s1 := vq_set (vcpu_set s v x1) (vqueue_id x) p h1 sc1).
    exists s1, x1. split; [exact E1|]. split; [apply vcpu_set_get|]. split; [done|]. split; [done|].
    pose (p1 := p <| vsched := sc1 |>).
    assert (h_vcpus (from other s1) !! v = Some x1) as Ex1 by apply vcpu_set_get.
    assert (h_cpus (from other s1) !! vqueue_id x1 = Some p1) as Ec1
      by exact (vq_set_cpu (vcpu_set s v x1) (vqueue_id x) p h1 sc1).
    destruct (kick_paused (from other s1) v x1 p1 k Qs (P ++ [NSched v 0]) Ex1 Ec1 Hr1 Hl P [])
      as (h2 & sc2 & E2 & Hr2 & Hk2); try done.
    { split; [done|]. intros j Hj. change (h_nodes (from other s1)) with h1. rewrite Hd1. by apply Hcq. }
    eexists _, _, _. split; [exact E2|]. split; [apply vcpu_set_get|]. split; [done|]. split; [done|].
    split; [done|]. split; [rewrite Hthis; apply vq_set_cpu|]. split; [done|].
    rewrite app_nil_r in Hr2. exact Hr2.
Qed.

(** ** Delivery *)

(** [x] with the interrupt pending. *)
Definition pended (x : vcpu) (vector : Z) (nmi : bool) : vcpu :=
  if nmi then x <| delivery -> nmi_pending := true |>
  else x <| pending_external_interrupts ::= fun b => bmp256_set b vector |>.

(** A running vcpu would take the interrupt at once: an NMI that is neither
    pending nor waited for; a vector above every level in service and not
    below the current one, with no window being waited for. *)
Definition deliverable (d : vinterrupt_delivery_data_t) (vector : Z) (nmi : bool) : bool :=
  if nmi then negb (nmi_pending d) && negb (nmi_window_exit d)
  else negb (int_window_exit d) && (fls32 (in_intl d) <? vector_to_intl vector) &&
       (intl d <=? vector_to_intl vector).

Definition injected (s : hv) (v : vptr) (x : vcpu) (vector : Z) (nmi : bool) : hv :=
  (vcpu_set s v (pended x vector nmi)) <| h_log ::= fun l => l ++
    (if bool_decide (state (metadata x) = VRUNNING) && deliverable (delivery x) vector nmi &&
        negb (h_this s =? vqueue_id x) && (vqueue_id x <? h_num_cpus s)
     then [EVipi (vqueue_id x)] else []) |>.

Lemma hv_log_nil s : s <| h_log ::= fun l => l ++ [] |> = s.
Proof. destruct s. unfold apply_update. cbn. by rewrite app_nil_r. Qed.

Lemma vipi_async_run s c : (vipi_async c ;;; ret tt) s = Ok (tt, s <| h_log ::= fun l => l ++
  (if negb (h_this s =? c) && (c <? h_num_cpus s) then [EVipi c] else []) |>).
Proof.
  unfold vipi_async, vthis_vprocessor_id, vnum_cpus, mgets, vlog, mmodify, ret, bind.
  destruct (h_this s =? c); [by rewrite hv_log_nil|].
  destruct (Z.leb_spec (h_num_cpus s) c).
  - rewrite (proj2 (Z.ltb_ge _ _)) by done. by rewrite hv_log_nil.
  - by rewrite (proj2 (Z.ltb_lt _ _)).
Qed.

Lemma inject_run s v x vector nmi :
  h_vcpus s !! v = Some x → LSched (vqueue_id x) ∉ h_locks s → LPending v ∉ h_locks s →
  __vemu_inject_external_interrupt v vector nmi s = Ok (tt, injected s v x vector nmi).
Proof.
  intros Ex H1 H2. unfold __vemu_inject_external_interrupt. mstep (vscheduler_of_run _ _ _ Ex).
  apply with_vlock_run; [done| |done]. apply with_vlock_run; [|clear H1 H2|done].
  { change (LPending v ∉ LSched (vqueue_id x) :: h_locks s).
    intros [?|?]%elem_of_cons; naive_solver. }
  set (s1 := s <| h_locks ::= _ |> <| h_locks ::= _ |>).
  mstep (get_vcpu_run s1 v x Ex).
  assert (__vemu_set_interrupt_pending v vector nmi s1 = Ok (tt, vcpu_set s1 v (pended x vector nmi))) as E.
  { unfold __vemu_set_interrupt_pending, pended. by destruct nmi; rewrite (upd_vcpu_run s1 v x). }
  mstep E. set (s2 := vcpu_set s1 v (pended x vector nmi)).
  assert (∀ b, (if (b : bool) then vipi_async (vqueue_id x) ;;; ret tt else ret tt) s2 =
    Ok (tt, s2 <| h_log ::= fun l => l ++ (if b && negb (h_this s =? vqueue_id x) &&
      (vqueue_id x <? h_num_cpus s) then [EVipi (vqueue_id x)] else []) |>)) as Hipi.
  { intros []; [by rewrite vipi_async_run|]. unfold ret. by rewrite hv_log_nil. }
  unfold injected, deliverable.
  transitivity ((if bool_decide (state (metadata x) = VRUNNING) && deliverable (delivery x) vector nmi
    then vipi_async (vqueue_id x) ;;; ret tt else ret tt) s2); [|by rewrite Hipi].
  unfold deliverable. destruct (bool_decide _), nmi; cbn [andb]; try done;
    destruct (int_window_exit (delivery x)); done.
Qed.

Lemma lock_entry_ne s l v : l ∉ h_locks s → l ≠ LEntry v → l ∉ h_locks (entry_taken v s).
Proof.
  intros Hl Hne. change (l ∉ LEntry v :: h_locks s). intros [?|?]%elem_of_cons; naive_solver.
Qed.

(**  An accepted interrupt reaches its target and nothing else: the call
    returns 0, the vector (or the NMI) is pending at the addressed vcpu, an IPI
    goes to that vcpu's processor exactly when it runs there and would take the
    interrupt at once, and every other vcpu, partition and processor is as it
    was; a vcpu index beyond the partition's is refused. *)
Theorem far_interrupt_is_delivered s cur x target p part pid y vector (nmi : bool) :
  running s cur → h_vcpus s !! cur = Some x → vid x ≠ target → (nmi = true → vector = NMI) →
  entry_free s target → h_table s !! target = Some p → h_parts s !! p = Some part →
  accepts s VIPI_ROUTE target (vid x) = true → 0 <= vector < 256 →
  let v := vcpu_of part pid in
  h_vcpus s !! v = Some y → LSched (vqueue_id y) ∉ h_locks s → LPending v ∉ h_locks s →
  vemu_inject_external_interrupt_far target pid vector nmi s =
    (if pid <? vcpu_count part then Ok (0, injected s v y vector nmi) else Ok (- EINVAL, s)).
Proof.
  intros Hrun Ex Hne Hnmi Hf Et Ep Ha Hv v Ey H1 H2.
  unfold vemu_inject_external_interrupt_far.
  mstep (current_run _ _ Hrun). mstep (get_vcpu_run _ _ _ Ex). cbv zeta.
  rewrite (proj2 (Z.eqb_neq _ _) Hne), orb_false_l.
  assert (nmi && negb (vector =? NMI) = false) as ->.
  { destruct nmi; [|done]. by rewrite Hnmi, Z.eqb_refl by done. }
  pose proof (vpartition_get_run s target Hf) as Eg. rewrite Et in Eg. mstep Eg.
  mstep (get_part_run (entry_taken target s) p part Ep).
  unfold accepts in Ha. rewrite Et, Ep in Ha. cbn [senders] in Ha. rewrite Ha, orb_false_l.
  destruct Hf as [_ Hf].
  destruct (Z.leb_spec (vcpu_count part) pid).
  - rewrite (proj2 (Z.ltb_ge _ _)) by done. by mstep (vpartition_put_run s target Hf).
  - rewrite (proj2 (Z.ltb_lt _ _)) by done. unfold u8. rewrite (wrap_small 8) by lia.
    mstep (inject_run (entry_taken target s) v y vector nmi Ey (lock_entry_ne _ _ _ H1 ltac:(done))
      (lock_entry_ne _ _ _ H2 ltac:(done))).
    change (injected (entry_taken target s) v y vector nmi)
      with (entry_taken target (injected s v y vector nmi)).
    by mstep (vpartition_put_run (injected s v y vector nmi) target Hf).
Qed.
