(* ===== verification/Vteardown.v ===== *)
(** * Vteardown: what is left of a partition that ended

    The loops of [vdo_finalize_teardown] over the routes of the partition
    (Vrecovery.v): each turn is the removal of one route, so the effect of a
    loop is stated through [accepts] and [sends] of Vemu.v. *)

From S2P Require Import Prelude Std Bmp Dq DeltaChain SchedDsa Twan VschedDsa Vpartition Vrecovery.
From S2P Require Import Vsched Vemu.
From coqutil Require Import Datatypes.RecordSetters.
From Stdlib Require Import ZArith Lia Bool.
From stdpp Require Import base gmap list numbers sets.

Local Open Scope Z_scope.

(** What the routes of a partition are not. *)
Definition shape (p : vpartition) : Z * Z * (Z * Z * bool) :=
  (vcpus p, vcpu_count p, terminate_notification p).
Lemma shape_upd_senders ty f p : shape (upd_senders ty f p) = shape p.
Proof. by destruct ty. Qed.
Lemma shape_upd_receivers ty f p : shape (upd_receivers ty f p) = shape p.
Proof. by destruct ty. Qed.

(** What the loops leave alone. *)
Definition same_but_parts (s s' : hv) : Prop :=
  h_this s' = h_this s ∧ h_num_cpus s' = h_num_cpus s ∧ h_cpus s' = h_cpus s ∧
  h_vcpus s' = h_vcpus s ∧ h_table s' = h_table s ∧ h_root_vid s' = h_root_vid s ∧
  h_vids s' = h_vids s ∧ h_locks s' = h_locks s ∧ h_readers s' = h_readers s ∧
  h_writer s' = h_writer s ∧ h_nodes s' = h_nodes s ∧ h_log s' = h_log s ∧
  ∀ q, shape <$> h_parts s' !! q = shape <$> h_parts s !! q.

Lemma same_but_parts_trans s1 s2 s3 :
  same_but_parts s1 s2 → same_but_parts s2 s3 → same_but_parts s1 s3.
Proof.
  unfold same_but_parts. intros; destruct_and!; split_and!; try congruence.
Qed.

(** One turn removes the route from [a] to [b]. *)
Lemma accepts_removed ty s s' a b pa pb xa xb :
  s' = routed s ty a b pa pb xa xb false → routes_ok s → a ≠ b → 0 <= a < 256 → 0 <= b < 256 →
  h_table s !! a = Some pa → h_table s !! b = Some pb →
  h_parts s !! pa = Some xa → h_parts s !! pb = Some xb →
  routes_ok s' ∧ same_but_parts s s' ∧
  ∀ ty' i j, 0 <= j < 256 →
    accepts s' ty' i j = (accepts s ty' i j && negb (bool_decide (ty' = ty ∧ i = b ∧ j = a))) ∧
    sends s' ty' i j = (sends s ty' i j && negb (bool_decide (ty' = ty ∧ i = a ∧ j = b))).
Proof.
  intros -> Hok Hne Ha Hb Ea Eb Exa Exb. split; [by apply routed_ok|]. split.
  { split_and!; try done. intros q. rewrite routed_part. repeat case_decide; subst; [..|done].
    - rewrite Exb. cbn. by rewrite shape_upd_senders.
    - rewrite Exa. cbn. by rewrite shape_upd_receivers. }
  intros ty' i j Hj. rewrite (routed_accepts s ty a b pa pb xa xb false) by done.
  rewrite (routed_sends s ty a b pa pb xa xb false) by done.
  split; case_decide as Hd; [rewrite bool_decide_true by done|rewrite bool_decide_false by done|
    rewrite bool_decide_true by done|rewrite bool_decide_false by done];
    by rewrite ?andb_false_r, ?andb_true_r.
Qed.

(** Every partition with a route to or from [vid] is in the table, and none
    has a route to itself. *)
Definition peers_ok (s : hv) (vid : Z) : Prop :=
  ∀ ty b, 0 <= b < 256 →
    accepts s ty vid b = true ∨ sends s ty vid b = true → b ≠ vid ∧ is_Some (h_table s !! b).

Lemma peers_ok_mono s s' vid :
  peers_ok s vid → h_table s' = h_table s →
  (∀ ty b, 0 <= b < 256 → (accepts s' ty vid b = true → accepts s ty vid b = true) ∧
     (sends s' ty vid b = true → sends s ty vid b = true)) → peers_ok s' vid.
Proof.
  intros Hp Ht Hm ty b Hb Hor. rewrite Ht. apply (Hp ty b Hb). destruct (Hm ty b Hb). naive_solver.
Qed.

(** The routes after the loop over [vid]'s senders, resp. receivers. *)
Definition no_senders (vid : Z) (ty : vroute_type_t) (s s' : hv) : Prop :=
  routes_ok s' ∧ same_but_parts s s' ∧
  ∀ ty' i j, 0 <= i < 256 → 0 <= j < 256 →
    accepts s' ty' i j = (accepts s ty' i j && negb (bool_decide (ty' = ty ∧ i = vid))) ∧
    sends s' ty' i j =
      (sends s ty' i j && negb (bool_decide (ty' = ty ∧ j = vid) && accepts s ty vid i)).
Definition no_receivers (vid : Z) (ty : vroute_type_t) (s s' : hv) : Prop :=
  routes_ok s' ∧ same_but_parts s s' ∧
  ∀ ty' i j, 0 <= i < 256 → 0 <= j < 256 →
    sends s' ty' i j = (sends s ty' i j && negb (bool_decide (ty' = ty ∧ i = vid))) ∧
    accepts s' ty' i j =
      (accepts s ty' i j && negb (bool_decide (ty' = ty ∧ j = vid) && sends s ty vid i)).

(** One turn and the rest of the loop, in terms of the relations. *)
Lemma step_bools (A S acc : bool) (ty ty' : vroute_type_t) (vid r i j : Z) :
  (i = r → acc = true) →
  A && negb (bool_decide (ty' = ty ∧ i = vid ∧ j = r)) && negb (bool_decide (ty' = ty ∧ i = vid)) =
    A && negb (bool_decide (ty' = ty ∧ i = vid)) ∧
  S && negb (bool_decide (ty' = ty ∧ i = r ∧ j = vid)) &&
    negb (bool_decide (ty' = ty ∧ j = vid) &&
          (acc && negb (bool_decide (ty = ty ∧ vid = vid ∧ i = r)))) =
    S && negb (bool_decide (ty' = ty ∧ j = vid) && acc).
Proof.
  intros Hacc. split; rewrite <- andb_assoc; f_equal.
  - destruct (bool_decide_reflect (ty' = ty ∧ i = vid)); [by rewrite andb_false_r|].
    by rewrite bool_decide_false by tauto.
  - destruct (bool_decide_reflect (ty' = ty ∧ j = vid)).
    + destruct (decide (i = r)).
      * rewrite !bool_decide_true by tauto. by rewrite Hacc.
      * rewrite !bool_decide_false by tauto. by rewrite andb_true_r.
    + by rewrite bool_decide_false by tauto.
Qed.

Lemma unwind_senders_run vid p ty fuel : ∀ s x,
  0 <= vid < 256 → routes_ok s → peers_ok s vid →
  h_table s !! vid = Some p → h_parts s !! p = Some x → bmp256_fls (senders ty x) + 2 <= Z.of_nat fuel →
  ∃ s', unwind fuel vid p (senders ty) (upd_senders ty) (upd_receivers ty) s = Ok (tt, s') ∧
    no_senders vid ty s s'.
Proof.
  induction fuel as [|fuel IH]; intros s x Hv Hok Hp Et Ex Hfuel.
  - exfalso. destruct (bmp256_fls_spec (senders ty x)) as [[? _]|[? _]]; [by eapply ro_wf|lia|lia].
  - cbn [unwind]. mstep (get_part_run _ _ _ Ex). cbv zeta.
    assert (bmp256_wf (senders ty x)) as Hwf by (by eapply ro_wf).
    assert (∀ j, accepts s ty vid j = bmp256_bit (senders ty x) j) as Hacc.
    { intros j. unfold accepts. rewrite Et, Ex. apply bmp256_test_bit. }
    destruct (bmp256_fls_spec _ Hwf) as [[Er Hnone]|(Hr & Hbit & Habove)].
    { rewrite Er, Z.eqb_refl. exists s. split; [done|]. split; [done|]. split; [by split_and!|].
      intros ty' i j Hi Hj. split.
      - destruct (bool_decide_reflect (ty' = ty ∧ i = vid)) as [[-> ->]|]; [|by rewrite andb_true_r].
        by rewrite Hacc, Hnone.
      - destruct (bool_decide_reflect (ty' = ty ∧ j = vid)) as [[-> ->]|]; [|by rewrite andb_true_r].
        by rewrite Hacc, Hnone, andb_true_r by done. }
    set (r := bmp256_fls (senders ty x)) in *. rewrite (proj2 (Z.eqb_neq r (-1))) by lia.
    destruct (Hp ty r Hr) as [Hne [q Eq]]; [left; by rewrite Hacc|].
    destruct (ro_table _ Hok _ _ Eq) as [y Ey].
    assert (q ≠ p) as Hqp by (intros ->; apply Hne; by eapply (ro_inj _ Hok)).
    set (s1 := routed s ty r vid q p y x false).
    destruct (accepts_removed ty s s1 r vid q p y x eq_refl Hok Hne Hr Hv Eq Et Ey Ex)
      as (Hok1 & Hs1 & Hrel).
    unfold vpartition_get_exclusive, mgets, bind at 1. rewrite Eq. cbn [is_some].
    unfold massert at 1, bind at 1. unfold not_null, ret at 1, bind at 1.
    pose (m1 := s <| h_parts ::= <[q := upd_receivers ty (fun b => bmp256_unset b vid) y]> |>).
    assert (upd_part q (upd_receivers ty (fun b => bmp256_unset b vid)) s = Ok (tt, m1)) as E1
      by (by rewrite (upd_part_run _ _ y)).
    assert (upd_part p (upd_senders ty (fun b => bmp256_unset b r)) m1 = Ok (tt, s1)) as E2.
    { rewrite (upd_part_run m1 p x); [done|].
      change (<[q := upd_receivers ty (fun b => bmp256_unset b vid) y]> (h_parts s) !! p = Some x).
      by rewrite lookup_insert_ne. }
    mstep E1. mstep E2.
    destruct (IH s1 (upd_senders ty (fun b => bmp256_put b r false) x)) as (s' & E & Hok' & Hs' & Hrel');
      try done.
    + eapply peers_ok_mono; [done|done|]. intros ty' b Hb. destruct (Hrel ty' vid b Hb) as [-> ->].
      by split; intros [? _]%andb_true_iff.
    + unfold s1. rewrite routed_part. by rewrite decide_True.
    + rewrite senders_upd, decide_True by done.
      destruct (bmp256_fls_spec (bmp256_put (senders ty x) r false)) as [[-> _]|(Hr' & Hb' & _)];
        [by apply bmp256_put_wf|lia|].
      rewrite <- bmp256_test_bit, bmp256_put_test in Hb' by done. case_decide as Hc; [done|].
      rewrite bmp256_test_bit in Hb'.
      destruct (decide (bmp256_fls (bmp256_put (senders ty x) r false) < r)); [lia|].
      by rewrite Habove in Hb' by lia.
    + exists s'. split; [exact E|]. split; [done|]. split; [by eapply same_but_parts_trans|].
      intros ty' i j Hi Hj. destruct (Hrel' ty' i j Hi Hj) as [-> ->].
      destruct (Hrel ty' i j Hj) as [-> ->]. destruct (Hrel ty vid i Hi) as [-> _].
      apply step_bools. intros ->. by rewrite Hacc.
Qed.

Lemma unwind_receivers_run vid p ty fuel : ∀ s x,
  0 <= vid < 256 → routes_ok s → peers_ok s vid →
  h_table s !! vid = Some p → h_parts s !! p = Some x → bmp256_fls (receivers ty x) + 2 <= Z.of_nat fuel →
  ∃ s', unwind fuel vid p (receivers ty) (upd_receivers ty) (upd_senders ty) s = Ok (tt, s') ∧
    no_receivers vid ty s s'.
Proof.
  induction fuel as [|fuel IH]; intros s x Hv Hok Hp Et Ex Hfuel.
  - exfalso. destruct (bmp256_fls_spec (receivers ty x)) as [[? _]|[? _]]; [by eapply ro_wf|lia|lia].
  - cbn [unwind]. mstep (get_part_run _ _ _ Ex). cbv zeta.
    assert (bmp256_wf (receivers ty x)) as Hwf by (by eapply ro_wf).
    assert (∀ j, sends s ty vid j = bmp256_bit (receivers ty x) j) as Hacc.
    { intros j. unfold sends. rewrite Et, Ex. apply bmp256_test_bit. }
    destruct (bmp256_fls_spec _ Hwf) as [[Er Hnone]|(Hr & Hbit & Habove)].
    { rewrite Er, Z.eqb_refl. exists s. split; [done|]. split; [done|]. split; [by split_and!|].
      intros ty' i j Hi Hj. split.
      - destruct (bool_decide_reflect (ty' = ty ∧ i = vid)) as [[-> ->]|]; [|by rewrite andb_true_r].
        by rewrite Hacc, Hnone.
      - destruct (bool_decide_reflect (ty' = ty ∧ j = vid)) as [[-> ->]|]; [|by rewrite andb_true_r].
        by rewrite Hacc, Hnone, andb_true_r by done. }
    set (r := bmp256_fls (receivers ty x)) in *. rewrite (proj2 (Z.eqb_neq r (-1))) by lia.
    destruct (Hp ty r Hr) as [Hne [q Eq]]; [right; by rewrite Hacc|].
    destruct (ro_table _ Hok _ _ Eq) as [y Ey].
    assert (q ≠ p) as Hqp by (intros ->; apply Hne; by eapply (ro_inj _ Hok)).
    set (s1 := routed s ty vid r p q x y false).
    assert (vid ≠ r) as Hne' by congruence.
    destruct (accepts_removed ty s s1 vid r p q x y eq_refl Hok Hne' Hv Hr Et Eq Ex Ey)
      as (Hok1 & Hs1 & Hrel).
    unfold vpartition_get_exclusive, mgets, bind at 1. rewrite Eq. cbn [is_some].
    unfold massert at 1, bind at 1. unfold not_null, ret at 1, bind at 1.
    pose (m1 := s <| h_parts ::= <[q := upd_senders ty (fun b => bmp256_unset b vid) y]> |>).
    assert (upd_part q (upd_senders ty (fun b => bmp256_unset b vid)) s = Ok (tt, m1)) as E1
      by (by rewrite (upd_part_run _ _ y)).
    assert (upd_part p (upd_receivers ty (fun b => bmp256_unset b r)) m1 = Ok (tt, s1)) as E2.
    { rewrite (upd_part_run m1 p x).
      - do 2 f_equal. unfold s1, routed, m1. destruct s. unfold apply_update. cbn. f_equal.
        by rewrite insert_insert_ne.
      - change (<[q := upd_senders ty (fun b => bmp256_unset b vid) y]> (h_parts s) !! p = Some x).
        by rewrite lookup_insert_ne. }
    mstep E1. mstep E2.
    destruct (IH s1 (upd_receivers ty (fun b => bmp256_put b r false) x)) as (s' & E & Hok' & Hs' & Hrel');
      try done.
    + eapply peers_ok_mono; [done|done|]. intros ty' b Hb. destruct (Hrel ty' vid b Hb) as [-> ->].
      by split; intros [? _]%andb_true_iff.
    + unfold s1. rewrite routed_part. by rewrite decide_False, decide_True by congruence.
    + rewrite receivers_upd, decide_True by done.
      destruct (bmp256_fls_spec (bmp256_put (receivers ty x) r false)) as [[-> _]|(Hr' & Hb' & _)];
        [by apply bmp256_put_wf|lia|].
      rewrite <- bmp256_test_bit, bmp256_put_test in Hb' by done. case_decide as Hc; [done|].
      rewrite bmp256_test_bit in Hb'.
      destruct (decide (bmp256_fls (bmp256_put (receivers ty x) r false) < r)); [lia|].
      by rewrite Habove in Hb' by lia.
    + exists s'. split; [exact E|]. split; [done|]. split; [by eapply same_but_parts_trans|].
      intros ty' i j Hi Hj. destruct (Hrel' ty' i j Hi Hj) as [-> ->].
      destruct (Hrel ty' i j Hj) as [-> ->]. destruct (Hrel ty vid i Hi) as [_ ->].
      apply step_bools. intros ->. by rewrite Hacc.
Qed.

(** ** The whole teardown *)

(** The partition's own senders without the root. *)
Lemma unset_root_run ty s vid p x root_vid :
  routes_ok s → 0 <= root_vid < 256 → h_table s !! vid = Some p → h_parts s !! p = Some x →
  let x' := upd_senders ty (fun b => bmp256_unset b root_vid) x in
  ∃ s', upd_part p (upd_senders ty (fun b => bmp256_unset b root_vid)) s = Ok (tt, s') ∧
    h_parts s' !! p = Some x' ∧ routes_ok s' ∧ same_but_parts s s' ∧
    ∀ ty' i j, 0 <= i < 256 → 0 <= j < 256 →
      accepts s' ty' i j = (accepts s ty' i j && negb (bool_decide (ty' = ty ∧ i = vid ∧ j = root_vid))) ∧
      sends s' ty' i j = sends s ty' i j.
Proof.
  intros Hok Hroot Et Ex x'. exists (s <| h_parts ::= <[p := x']> |>).
  assert (∀ q, h_parts (s <| h_parts ::= <[p := x']> |>) !! q =
    if decide (q = p) then Some x' else h_parts s !! q) as Hl.
  { intros q. change (h_parts (s <| h_parts ::= <[p := x']> |>)) with (<[p := x']> (h_parts s)).
    case_decide; [subst; by rewrite lookup_insert_eq|by rewrite lookup_insert_ne]. }
  split; [by rewrite (upd_part_run _ _ x)|]. split; [by rewrite Hl, decide_True|].
  destruct Hok as [H1 H2 H3]. split; [split|].
  - intros a q E. rewrite Hl. case_decide; [done|by eapply H1].
  - exact H2.
  - intros q part ty'. rewrite Hl. destruct (H3 _ _ ty' Ex). case_decide; [intros [= <-]|by apply H3].
    unfold x'. rewrite senders_upd, receivers_upd_senders. case_decide; [subst|done].
    split; [by apply bmp256_unset_wf|done].
  - split.
    { split_and!; try done. intros q. rewrite Hl. case_decide; [subst q|done].
      unfold x'. by rewrite Ex; cbn; rewrite shape_upd_senders. }
    intros ty' i j Hi Hj. unfold accepts, sends.
    change (h_table (s <| h_parts ::= <[p := x']> |>)) with (h_table s).
    destruct (h_table s !! i) as [q|] eqn:Eq; [|done]. rewrite Hl. case_decide as Hq.
    + subst q. assert (i = vid) as -> by (by eapply H2). rewrite Ex. unfold x'.
      rewrite senders_upd, receivers_upd_senders. split; [|done].
      destruct (decide (ty' = ty)) as [->|]; [|by rewrite bool_decide_false, andb_true_r by tauto].
      destruct (H3 _ _ ty Ex) as [Hwf _]. rewrite !bmp256_test_bit, bmp256_unset_bit by done.
      destruct (Z.eqb_spec root_vid j); [rewrite bool_decide_true by done|rewrite bool_decide_false by naive_solver];
        by rewrite ?andb_false_r, ?andb_true_r.
    + rewrite bool_decide_false by naive_solver. by rewrite andb_true_r.
Qed.

Lemma unwind_empty fuel vid p x mine upd_mine upd_theirs s :
  h_parts s !! p = Some x → bmp256_wf (mine x) → (∀ j, 0 <= j < 256 → bmp256_bit (mine x) j = false) →
  unwind (S fuel) vid p mine upd_mine upd_theirs s = Ok (tt, s).
Proof.
  intros Ex Hwf Hn. cbn [unwind]. mstep (get_part_run _ _ _ Ex). cbv zeta.
  destruct (bmp256_fls_spec _ Hwf) as [[-> _]|(Hr & Hb & _)]; [done|]. by rewrite Hn in Hb.
Qed.

(** A partition is paired with its peers: it accepts from those that send to
    it, the root apart, and it sends to those that accept from it; what peers
    accept of its IPIs is of no use to the loops. *)
Definition paired (s : hv) (vid : Z) : Prop :=
  ∀ ty a, 0 <= a < 256 →
    (a ≠ h_root_vid s → sends s ty a vid = true → accepts s ty vid a = true) ∧
    (ty ≠ VIPI_ROUTE → accepts s ty a vid = sends s ty vid a).

(** What holds between the loops. *)
Record unwinding (vid p : Z) (s : hv) : Prop := {
  un_ok : routes_ok s;
  un_peers : peers_ok s vid;
  un_table : h_table s !! vid = Some p;
}.

Lemma unwind_senders_step vid p ty s : 0 <= vid < 256 → unwinding vid p s →
  ∃ s', unwind_senders vid p ty s = Ok (tt, s') ∧ unwinding vid p s' ∧ no_senders vid ty s s'.
Proof.
  intros Hv [Hok Hp Et]. destruct (ro_table _ Hok _ _ Et) as [x Ex].
  destruct (unwind_senders_run vid p ty unwind_fuel s x) as (s' & E & Hn); try done.
  { destruct (bmp256_fls_spec (senders ty x)) as [[-> _]|[? _]]; [by eapply ro_wf| |];
      unfold unwind_fuel; lia. }
  exists s'. split; [done|]. split; [|done]. destruct Hn as (Hok' & Hs & Hrel).
  assert (h_table s' = h_table s) as Ht by apply Hs. split; [done| |by rewrite Ht].
  eapply peers_ok_mono; [done|done|]. intros ty' b Hb. destruct (Hrel ty' vid b Hv Hb) as [-> ->].
  by split; intros [? _]%andb_true_iff.
Qed.

Lemma unwind_receivers_step vid p ty s : 0 <= vid < 256 → unwinding vid p s →
  ∃ s', unwind_receivers vid p ty s = Ok (tt, s') ∧ unwinding vid p s' ∧ no_receivers vid ty s s'.
Proof.
  intros Hv [Hok Hp Et]. destruct (ro_table _ Hok _ _ Et) as [x Ex].
  destruct (unwind_receivers_run vid p ty unwind_fuel s x) as (s' & E & Hn); try done.
  { destruct (bmp256_fls_spec (receivers ty x)) as [[-> _]|[? _]]; [by eapply ro_wf| |];
      unfold unwind_fuel; lia. }
  exists s'. split; [done|]. split; [|done]. destruct Hn as (Hok' & Hs & Hrel).
  assert (h_table s' = h_table s) as Ht by apply Hs. split; [done| |by rewrite Ht].
  eapply peers_ok_mono; [done|done|]. intros ty' b Hb. destruct (Hrel ty' vid b Hv Hb) as [-> ->].
  by split; intros [? _]%andb_true_iff.
Qed.

Lemma unwind_ipi_receivers_step vid p s : 0 <= vid < 256 → unwinding vid p s →
  (∀ j, 0 <= j < 256 → accepts s VIPI_ROUTE vid j = false) →
  unwind_ipi_receivers vid p s = Ok (tt, s).
Proof.
  intros Hv [Hok Hp Et] Hnone. destruct (ro_table _ Hok _ _ Et) as [x Ex].
  unfold unwind_ipi_receivers, unwind_fuel. change 257%nat with (S 256).
  eapply unwind_empty; [done|by eapply ro_wf|]. intros j Hj. specialize (Hnone j Hj).
  unfold accepts in Hnone. by rewrite Et, Ex, bmp256_test_bit in Hnone.
Qed.

(** [vid] and its peers agree on their routes of kind [ty], after the root [r]
    has left the senders of [vid]. *)
Definition agree (r : Z) (s : hv) (vid : Z) (ty : vroute_type_t) : Prop :=
  accepts s ty vid r = false ∧
  ∀ a, 0 <= a < 256 → (a ≠ r → sends s ty a vid = true → accepts s ty vid a = true) ∧
    (ty ≠ VIPI_ROUTE → accepts s ty a vid = sends s ty vid a).

(** After both loops for [ty] nothing of that kind involves [vid], but that the
    root may send to it. *)
Definition no_routes (r vid : Z) (ty : vroute_type_t) (s s' : hv) : Prop :=
  same_but_parts s s' ∧
  ∀ ty' i j, 0 <= i < 256 → 0 <= j < 256 →
    accepts s' ty' i j = (accepts s ty' i j && negb (bool_decide (ty' = ty ∧ (i = vid ∨ j = vid)))) ∧
    sends s' ty' i j = (sends s ty' i j && negb (bool_decide (ty' = ty ∧ (i = vid ∨ j = vid ∧ i ≠ r)))).

(** Decides the propositions inside [bool_decide]s of the goal. *)
Ltac decide_bools :=
  repeat match goal with
  | |- context [bool_decide ?P] =>
      first [rewrite (bool_decide_true P) by intuition congruence
            |rewrite (bool_decide_false P) by intuition congruence]
  end.

Lemma unwind_both r vid p ty s :
  0 <= vid < 256 → 0 <= r < 256 → vid ≠ r → ty ≠ VIPI_ROUTE → unwinding vid p s → agree r s vid ty →
  ∃ s1 s', unwind_senders vid p ty s = Ok (tt, s1) ∧ unwind_receivers vid p ty s1 = Ok (tt, s') ∧
    unwinding vid p s' ∧ no_routes r vid ty s s'.
Proof.
  intros Hv Hr Hne Hipi Hu [Har Ha]. destruct (unwind_senders_step vid p ty s Hv Hu) as (s1 & E1 & Hu1 & _ & Hs1 & Hrel1).
  destruct (unwind_receivers_step vid p ty s1 Hv Hu1) as (s2 & E2 & Hu2 & _ & Hs2 & Hrel2).
  exists s1, s2. split; [done|]. split; [done|]. split; [done|]. split; [by eapply same_but_parts_trans|].
  intros ty' i j Hi Hj. destruct (Hrel2 ty' i j Hi Hj) as [-> ->].
  destruct (Hrel1 ty' i j Hi Hj) as [-> ->]. destruct (Hrel1 ty vid i Hv Hi) as [_ ->].
  destruct (decide (ty' = ty)) as [->|Hty]; [|decide_bools; by rewrite !andb_true_r].
  destruct (Ha i Hi) as [Hs Hacc]. specialize (Hacc Hipi).
  destruct (decide (i = vid)) as [->|Hni].
  { split; decide_bools; cbn [negb]; by rewrite !andb_false_r. }
  destruct (decide (j = vid)) as [->|Hnj]; [|decide_bools; by rewrite !andb_true_r].
  destruct (decide (i = r)) as [->|Hnr]; decide_bools; cbn [negb andb]; rewrite Hacc, ?Har, ?andb_true_r, ?andb_false_r.
  - split; [by destruct (sends s ty vid r)|done].
  - split; [by destruct (sends s ty vid i)|]. destruct (sends s ty i vid); [by rewrite Hs|done].
Qed.

Lemma agree_same r s s' vid ty :
  0 <= vid < 256 → 0 <= r < 256 → agree r s vid ty →
  (∀ i j, 0 <= i < 256 → 0 <= j < 256 →
     accepts s' ty i j = accepts s ty i j ∧ sends s' ty i j = sends s ty i j) →
  agree r s' vid ty.
Proof.
  intros Hv Hr [Har Ha] He. split; [by destruct (He vid r Hv Hr) as [-> _]|].
  intros a Hra. destruct (Ha a Hra) as [H1 H2].
  destruct (He vid a Hv Hra) as [-> ->]. by destruct (He a vid Hra Hv) as [-> ->].
Qed.

(** What the loops leave of the routes; an entry of a peer's map of accepted
    IPI senders survives, since no loop visits the IPI receivers. *)
Definition survives_accepts (vid : Z) (ty : vroute_type_t) (i j : Z) : bool :=
  negb (bool_decide (i = vid ∨ j = vid ∧ ty ≠ VIPI_ROUTE)).
Definition survives_sends (r vid : Z) (ty : vroute_type_t) (i j : Z) : bool :=
  negb (bool_decide (j = vid ∧ i ≠ r ∨ i = vid ∧ ty ≠ VIPI_ROUTE)).

Lemma unwind_routes_run r vid p s :
  0 <= vid < 256 → 0 <= r < 256 → vid ≠ r → unwinding vid p s → (∀ ty, agree r s vid ty) →
  ∃ s', unwind_routes vid p s = Ok (tt, s') ∧ unwinding vid p s' ∧ same_but_parts s s' ∧
    ∀ ty i j, 0 <= i < 256 → 0 <= j < 256 →
      accepts s' ty i j = accepts s ty i j && survives_accepts vid ty i j ∧
      sends s' ty i j = sends s ty i j && survives_sends r vid ty i j.
Proof.
  intros Hv Hr Hne Hu Ha.
  destruct (unwind_senders_step vid p VIPI_ROUTE s Hv Hu) as (s1 & E1 & Hu1 & _ & Hs1 & Hr1).
  assert (∀ ty i j, ty ≠ VIPI_ROUTE → 0 <= i < 256 → 0 <= j < 256 →
    accepts s1 ty i j = accepts s ty i j ∧ sends s1 ty i j = sends s ty i j) as Hn1.
  { intros ty i j Hty Hi Hj. destruct (Hr1 ty i j Hi Hj) as [-> ->].
    by rewrite !bool_decide_false, !andb_true_r by tauto. }
  assert (∀ j, 0 <= j < 256 → accepts s1 VIPI_ROUTE vid j = false) as Hnone.
  { intros j Hj. destruct (Hr1 VIPI_ROUTE vid j Hv Hj) as [-> _].
    by rewrite bool_decide_true, andb_false_r. }
  pose proof (unwind_ipi_receivers_step vid p s1 Hv Hu1 Hnone) as E2.
  destruct (unwind_both r vid p VTLB_SHOOTDOWN_ROUTE s1 Hv Hr Hne ltac:(done) Hu1) as (a3 & s3 & F3 & G3 & Hu3 & Hs3 & Hr3).
  { eapply agree_same; [done|done|apply Ha|]. intros; by apply Hn1. }
  assert (∀ ty i j, ty ≠ VTLB_SHOOTDOWN_ROUTE → 0 <= i < 256 → 0 <= j < 256 →
    accepts s3 ty i j = accepts s1 ty i j ∧ sends s3 ty i j = sends s1 ty i j) as Hn3.
  { intros ty i j Hty Hi Hj. destruct (Hr3 ty i j Hi Hj) as [-> ->].
    by rewrite !bool_decide_false, !andb_true_r by tauto. }
  destruct (unwind_both r vid p VREAD_VCPU_STATE_ROUTE s3 Hv Hr Hne ltac:(done) Hu3) as (a4 & s4 & F4 & G4 & Hu4 & Hs4 & Hr4).
  { eapply agree_same; [done|done| |intros; by apply Hn3].
    eapply agree_same; [done|done|apply Ha|intros; by apply Hn1]. }
  assert (∀ ty i j, ty ≠ VREAD_VCPU_STATE_ROUTE → 0 <= i < 256 → 0 <= j < 256 →
    accepts s4 ty i j = accepts s3 ty i j ∧ sends s4 ty i j = sends s3 ty i j) as Hn4.
  { intros ty i j Hty Hi Hj. destruct (Hr4 ty i j Hi Hj) as [-> ->].
    by rewrite !bool_decide_false, !andb_true_r by tauto. }
  destruct (unwind_both r vid p VPV_SPIN_KICK_ROUTE s4 Hv Hr Hne ltac:(done) Hu4) as (a5 & s5 & F5 & G5 & Hu5 & Hs5 & Hr5).
  { eapply agree_same; [done|done| |intros; by apply Hn4]. eapply agree_same; [done|done| |intros; by apply Hn3].
    eapply agree_same; [done|done|apply Ha|intros; by apply Hn1]. }
  exists s5. split; [|split; [done|split]].
  - unfold unwind_routes. mstep E1. mstep E2. mstep F3. mstep G3. mstep F4. mstep G4. by mstep F5.
  - repeat (eapply same_but_parts_trans; [eassumption|]). by split_and!.
  - intros ty i j Hi Hj. unfold survives_accepts, survives_sends.
    destruct (Hr5 ty i j Hi Hj) as [-> ->]. destruct (Hr4 ty i j Hi Hj) as [-> ->].
    destruct (Hr3 ty i j Hi Hj) as [-> ->]. destruct (Hr1 ty i j Hi Hj) as [-> ->].
    destruct (Ha ty) as [Har Ha']. destruct (Ha' i Hi) as [Hs _].
    destruct (decide (i = vid)), (decide (j = vid)), (decide (i = r)); subst; try done; destruct ty; decide_bools;
      cbn [negb andb]; rewrite ?Har, ?andb_true_r, ?andb_false_r; split; try done.
    all: destruct (sends s _ _ _); try done; by rewrite Hs.
Qed.

(** The root leaves the senders of all four kinds. *)
Lemma unset_roots_run {B} s vid p x root_vid (k : M hv B) :
  0 <= vid < 256 → routes_ok s → h_table s !! vid = Some p → 0 <= root_vid < 256 → h_parts s !! p = Some x →
  let unset b := bmp256_unset b root_vid in
  ∃ s' x', (upd_part p (upd_senders VIPI_ROUTE unset) ;;;
         upd_part p (upd_senders VTLB_SHOOTDOWN_ROUTE unset) ;;;
         upd_part p (upd_senders VREAD_VCPU_STATE_ROUTE unset) ;;;
         upd_part p (upd_senders VPV_SPIN_KICK_ROUTE unset) ;;; k) s = k s' ∧
    h_parts s' !! p = Some x' ∧ routes_ok s' ∧ same_but_parts s s' ∧
    ∀ ty i j, 0 <= i < 256 → 0 <= j < 256 →
      accepts s' ty i j = (accepts s ty i j && negb (bool_decide (i = vid ∧ j = root_vid))) ∧
      sends s' ty i j = sends s ty i j.
Proof.
  intros Hv Hok Et Hroot Ex unset.
  destruct (unset_root_run VIPI_ROUTE s vid p x root_vid Hok Hroot Et Ex)
    as (s1 & E1 & Ex1 & Hok1 & Hs1 & Hr1). assert (h_table s1 = h_table s) as Ht1 by apply Hs1.
  rewrite <- Ht1 in Et.
  destruct (unset_root_run VTLB_SHOOTDOWN_ROUTE s1 vid p _ root_vid Hok1 Hroot Et Ex1)
    as (s2 & E2 & Ex2 & Hok2 & Hs2 & Hr2). assert (h_table s2 = h_table s1) as Ht2 by apply Hs2.
  rewrite <- Ht2 in Et.
  destruct (unset_root_run VREAD_VCPU_STATE_ROUTE s2 vid p _ root_vid Hok2 Hroot Et Ex2)
    as (s3 & E3 & Ex3 & Hok3 & Hs3 & Hr3). assert (h_table s3 = h_table s2) as Ht3 by apply Hs3.
  rewrite <- Ht3 in Et.
  destruct (unset_root_run VPV_SPIN_KICK_ROUTE s3 vid p _ root_vid Hok3 Hroot Et Ex3)
    as (s4 & E4 & Ex4 & Hok4 & Hs4 & Hr4). assert (h_table s4 = h_table s3) as Ht4 by apply Hs4.
  assert (same_but_parts s s4) as Hs.
  { repeat (eapply same_but_parts_trans; [eassumption|]). by split_and!. }
  assert (∀ ty i j, 0 <= i < 256 → 0 <= j < 256 →
      accepts s4 ty i j = (accepts s ty i j && negb (bool_decide (i = vid ∧ j = root_vid))) ∧
      sends s4 ty i j = sends s ty i j) as Hrel.
  { intros ty i j Hi Hj. destruct (Hr4 ty i j Hi Hj) as [-> ->]. destruct (Hr3 ty i j Hi Hj) as [-> ->].
    destruct (Hr2 ty i j Hi Hj) as [-> ->]. destruct (Hr1 ty i j Hi Hj) as [-> ->]. split; [|done].
    destruct (decide (i = vid ∧ j = root_vid)) as [[-> ->]|Hn]; destruct ty; decide_bools;
      cbn [negb andb]; by rewrite ?andb_true_r, ?andb_false_r. }
  eexists s4, _. split; [|split; [exact Ex4|split; [exact Hok4|split; [exact Hs|exact Hrel]]]].
  mstep E1. mstep E2. mstep E3. by mstep E4.
Qed.

Lemma paired_agree s s' vid ty :
  0 <= vid < 256 → 0 <= h_root_vid s < 256 → vid ≠ h_root_vid s → paired s vid →
  (∀ ty i j, 0 <= i < 256 → 0 <= j < 256 →
     accepts s' ty i j = (accepts s ty i j && negb (bool_decide (i = vid ∧ j = h_root_vid s))) ∧
     sends s' ty i j = sends s ty i j) → agree (h_root_vid s) s' vid ty.
Proof.
  intros Hv Hr Hne Hp Hrel. split.
  { destruct (Hrel ty vid (h_root_vid s) Hv Hr) as [-> _]. by rewrite bool_decide_true, andb_false_r. }
  intros a Ha. destruct (Hp ty a Ha) as [Hs Hacc].
  destruct (Hrel ty vid a Hv Ha) as [-> ->]. destruct (Hrel ty a vid Ha Hv) as [-> ->]. split.
  - intros Hnr Hsend. rewrite Hs by done. by rewrite bool_decide_false by naive_solver.
  - intros Hty. rewrite Hacc by done. rewrite bool_decide_false by naive_solver. by rewrite andb_true_r.
Qed.

Lemma lookup_shape (s s' : hv) q x : same_but_parts s s' → h_parts s !! q = Some x →
  ∃ x', h_parts s' !! q = Some x' ∧ shape x' = shape x.
Proof.
  intros Hs E. assert (shape <$> h_parts s' !! q = Some (shape x)) as H.
  { transitivity (shape <$> h_parts s !! q); [apply Hs|by rewrite E]. }
  destruct (h_parts s' !! q) as [x'|]; [|done]. exists x'. split; [done|]. by apply (inj Some) in H.
Qed.

(** The id leaves the table, exclusive access ends, and the id is free. *)
Definition retired (vid : Z) (s : hv) : hv :=
  s <| h_table ::= delete vid |> <| h_writer := false |> <| h_vids ::= fun b => bmp256_set b vid |>.

Lemma retire_run s vid (k : M hv unit) : h_writer s = true → h_locks s = [] →
  (__vpartition_remove vid ;;; vpartition_stop_exclusive ;;; vpartition_id_free vid ;;; k) s =
    k (retired vid s).
Proof.
  intros Hw Hl. pose (s1 := s <| h_table ::= delete vid |>). pose (s2 := s1 <| h_writer := false |>).
  assert (__vpartition_remove vid s = Ok (tt, s1)) as E1 by done. mstep E1.
  assert (vpartition_stop_exclusive s1 = Ok (tt, s2)) as E2.
  { unfold vpartition_stop_exclusive, vrw_unlock_write_isr_restore.
    change (h_writer s1) with (h_writer s). by rewrite Hw. }
  mstep E2. assert (vpartition_id_free vid s2 = Ok (tt, retired vid s)) as E3.
  { apply with_vlock_run; [change (h_locks s2) with (h_locks s); rewrite Hl; apply not_elem_of_nil|done|done]. }
  by mstep E3.
Qed.

(** The interrupt that tells the root's vcpu: the end of
    [vdo_finalize_teardown]. *)
Definition notify_root (root_vid pid vec : Z) (nmi : bool) : M hv unit :=
  root <~ vpartition_get root_vid ;;
  massert (is_some root) ;;;
  root <~ not_null root ;;
  r <~ get_part root ;;
  massert (pid <? vcpu_count r) ;;;
  __vemu_inject_external_interrupt (vcpu_of r pid) vec nmi ;;;
  vpartition_put root_vid.

Lemma notify_root_run s root_vid rp r y pid vec nmi :
  h_writer s = false → h_locks s = [] → h_table s !! root_vid = Some rp →
  h_parts s !! rp = Some r → pid < vcpu_count r → h_vcpus s !! vcpu_of r pid = Some y →
  notify_root root_vid pid vec nmi s = Ok (tt, injected s (vcpu_of r pid) y vec nmi).
Proof.
  unfold notify_root.
  intros Hw Hl Er Erp Hpid Ey.
  assert (entry_free s root_vid) as Hf by (split; [done|rewrite Hl; apply not_elem_of_nil]).
  pose proof (vpartition_get_run s root_vid Hf) as E1. rewrite Er in E1. mstep E1.
  cbn [is_some]. unfold massert at 1, bind at 1. unfold not_null, ret at 1, bind at 1.
  mstep (get_part_run (entry_taken root_vid s) rp r Erp).
  rewrite (proj2 (Z.ltb_lt _ _) Hpid). unfold massert at 1, bind at 1.
  assert (∀ l, l ≠ LEntry root_vid → l ∉ h_locks (entry_taken root_vid s)) as Hlk.
  { intros l Hn. change (l ∉ LEntry root_vid :: h_locks s). rewrite Hl. set_solver. }
  mstep (inject_run (entry_taken root_vid s) (vcpu_of r pid) y vec nmi Ey
    (Hlk (LSched (vqueue_id y)) ltac:(done)) (Hlk (LPending (vcpu_of r pid)) ltac:(done))).
  change (injected (entry_taken root_vid s) (vcpu_of r pid) y vec nmi)
    with (entry_taken root_vid (injected s (vcpu_of r pid) y vec nmi)).
  by rewrite (vpartition_put_run (injected s (vcpu_of r pid) y vec nmi) root_vid (proj2 Hf)).
Qed.

Lemma retired_routes s s' vid ty i j :
  h_parts s' = h_parts s → h_table s' = delete vid (h_table s) →
  accepts s' ty i j = (accepts s ty i j && negb (i =? vid)) ∧
  sends s' ty i j = (sends s ty i j && negb (i =? vid)).
Proof.
  intros Ep Et. unfold accepts, sends. rewrite Ep, Et. destruct (Z.eqb_spec i vid) as [->|].
  - rewrite lookup_delete_eq. by rewrite !andb_false_r.
  - by rewrite lookup_delete_ne, !andb_true_r by congruence.
Qed.

(** The loops, from the state in which exclusive access starts. *)
Lemma unwound_run s vid p x pid vec nmi (k : Z → Z → bool → M hv unit) :
  0 <= vid < 256 → 0 <= h_root_vid s < 256 → vid ≠ h_root_vid s →
  unwinding vid p s → paired s vid → h_parts s !! p = Some x →
  terminate_notification x = (pid, vec, nmi) →
  let unset b := bmp256_unset b (h_root_vid s) in
  ∃ s', (upd_part p (upd_senders VIPI_ROUTE unset) ;;;
         upd_part p (upd_senders VTLB_SHOOTDOWN_ROUTE unset) ;;;
         upd_part p (upd_senders VREAD_VCPU_STATE_ROUTE unset) ;;;
         upd_part p (upd_senders VPV_SPIN_KICK_ROUTE unset) ;;;
         x <~ get_part p ;;
         let '(pid, vec, nmi) := terminate_notification x in
         unwind_routes vid p ;;; k pid vec nmi) s = k pid vec nmi s' ∧
    same_but_parts s s' ∧ routes_ok s' ∧
    ∀ ty i j, 0 <= i < 256 → 0 <= j < 256 →
      accepts s' ty i j = (accepts s ty i j && negb (bool_decide (i = vid ∧ j = h_root_vid s)) &&
                           survives_accepts vid ty i j) ∧
      sends s' ty i j = (sends s ty i j && survives_sends (h_root_vid s) vid ty i j).
Proof.
  intros Hv Hroot Hne Hu Hpair Ex Htn unset.
  match goal with
  | |- context [(upd_part p _ ;;; (upd_part p _ ;;; (upd_part p _ ;;; (upd_part p _ ;;; ?k)))) s] =>
      destruct (unset_roots_run s vid p x (h_root_vid s) k Hv (un_ok _ _ _ Hu) (un_table _ _ _ Hu) Hroot Ex)
        as (s1 & x1 & E1 & Ex1 & Hok1 & Hs1 & Hr1)
  end.
  assert (unwinding vid p s1) as Hu1.
  { destruct Hu as [_ Hp Et]. split; [exact Hok1| |rewrite <- Et; f_equal; apply Hs1].
    eapply peers_ok_mono; [exact Hp|apply Hs1|]. intros ty b Hb. destruct (Hr1 ty vid b Hv Hb) as [-> ->].
    by split; [intros [? _]%andb_true_iff|]. }
  cbv zeta in E1. unfold unset. rewrite E1. clear E1.
  assert (terminate_notification x1 = (pid, vec, nmi)) as Htn1.
  { destruct (lookup_shape s s1 p x Hs1 Ex) as (x1' & Ex1' & Hsh). rewrite Ex1 in Ex1'.
    injection Ex1' as <-. rewrite <- Htn. unfold shape in Hsh. congruence. }
  destruct (unwind_routes_run (h_root_vid s) vid p s1 Hv Hroot Hne Hu1) as (s2 & E2 & Hu2 & Hs2 & Hr2).
  { intros ty. by apply (paired_agree s s1 vid ty). }
  exists s2. split; [|split; [exact (same_but_parts_trans _ _ _ Hs1 Hs2)|split; [apply Hu2|]]].
  - mstep (get_part_run s1 p x1 Ex1). rewrite Htn1. by mstep E2.
  - intros ty i j Hi Hj. destruct (Hr2 ty i j Hi Hj) as [-> ->].
    by destruct (Hr1 ty i j Hi Hj) as [-> ->].
Qed.

(** The teardown up to the notification. *)
Lemma teardown_reaches_root s vid p x pid vec nmi :
  0 <= vid < 256 → 0 <= h_root_vid s < 256 → vid ≠ h_root_vid s →
  routes_ok s → peers_ok s vid → paired s vid →
  h_table s !! vid = Some p → h_parts s !! p = Some x → terminate_notification x = (pid, vec, nmi) →
  h_writer s = false → h_readers s = 0%nat → h_locks s = [] →
  ∃ s2, vdo_finalize_teardown vid s = notify_root (h_root_vid s) pid vec nmi (retired vid s2) ∧
    routes_ok s2 ∧ same_but_parts (s <| h_writer := true |>) s2 ∧
    ∀ ty i j, 0 <= i < 256 → 0 <= j < 256 →
      accepts s2 ty i j = (accepts s ty i j && negb (bool_decide (i = vid ∧ j = h_root_vid s)) &&
                           survives_accepts vid ty i j) ∧
      sends s2 ty i j = (sends s ty i j && survives_sends (h_root_vid s) vid ty i j).
Proof.
  intros Hv Hroot Hne Hok Hp Hpair Et Ex Htn Hw Hrd Hl.
  unfold vdo_finalize_teardown. unfold mgets at 1, bind at 1.
  pose (s0 := s <| h_writer := true |>).
  assert (vpartition_start_exclusive s = Ok (tt, s0)) as E0.
  { unfold vpartition_start_exclusive, vrw_lock_write_isr_save. by rewrite Hw, Hrd. }
  mstep E0. unfold vpartition_get_exclusive at 1, mgets at 1, bind at 1.
  change (h_table s0 !! vid) with (h_table s !! vid). rewrite Et. cbn [is_some].
  unfold massert at 1, bind at 1. unfold not_null at 1, ret at 1, bind at 1. cbv zeta.
  edestruct (unwound_run s0 vid p x pid vec nmi) as (s2 & E2 & Hs & Hok2 & Hr2);
    [exact Hv|exact Hroot|exact Hne|by split; [destruct Hok|..]|exact Hpair|exact Ex|exact Htn|].
  rewrite E2. clear E2. exists s2. split; [|split; [exact Hok2|split; [exact Hs|exact Hr2]]].
  pose proof Hs as (_ & _ & _ & _ & _ & _ & _ & Slocks & _ & Swr & _).
  change (h_locks s0) with (h_locks s) in Slocks. rewrite Hl in Slocks.
  by rewrite retire_run by done.
Qed.

(** The routes after it. *)
Lemma retired_relations s s2 s5 vid ty i j :
  h_parts s5 = h_parts s2 → h_table s5 = delete vid (h_table s2) → vid ≠ h_root_vid s →
  accepts s2 ty i j = (accepts s ty i j && negb (bool_decide (i = vid ∧ j = h_root_vid s)) &&
                       survives_accepts vid ty i j) →
  sends s2 ty i j = (sends s ty i j && survives_sends (h_root_vid s) vid ty i j) →
  accepts s5 ty i j = (accepts s ty i j && negb (i =? vid) &&
                       negb ((j =? vid) && negb (bool_decide (ty = VIPI_ROUTE)))) ∧
  sends s5 ty i j = (sends s ty i j && negb (i =? vid) && negb ((j =? vid) && negb (i =? h_root_vid s))).
Proof.
  intros Ep Et Hne Ha Hs. destruct (retired_routes s2 s5 vid ty i j Ep Et) as [-> ->].
  rewrite Ha, Hs. unfold survives_accepts, survives_sends.
  destruct (Z.eqb_spec i vid), (Z.eqb_spec j vid), (Z.eqb_spec i (h_root_vid s)), ty; try lia; decide_bools;
    cbn [negb andb]; by rewrite ?andb_true_r, ?andb_false_r.
Qed.

(** C9. The end of a partition that is not the root, whose peers (those it accepts
    from or may send to) are other partitions that are alive, and whose routes
    agree with theirs: it returns; its id names nothing and can be given out
    again, the root's vcpu that asked for it has the notification pending, no
    other partition but the root may send to the id any more, and for TLB
    shootdowns, state reads and kicks none accepts from it; routes between the
    others are as before.  Only the IPI senders accepted by others are left as
    they were, so that a partition that accepts IPIs from the dead one has, from
    then on, a peer that is not alive: to its own end this theorem does not
    apply (C10).  (In a state with consistent routes and no lock held, where the
    root has the vcpu to be notified.) *)
Theorem teardown_unwinds_routes s vid p x rp r y pid vec nmi :
  0 <= vid < 256 → 0 <= h_root_vid s < 256 → vid ≠ h_root_vid s →
  routes_ok s → peers_ok s vid → paired s vid →
  h_table s !! vid = Some p → h_parts s !! p = Some x → terminate_notification x = (pid, vec, nmi) →
  h_table s !! h_root_vid s = Some rp → h_parts s !! rp = Some r → pid < vcpu_count r →
  h_vcpus s !! vcpu_of r pid = Some y → bmp256_wf (h_vids s) →
  h_writer s = false → h_readers s = 0%nat → h_locks s = [] →
  ∃ s', vdo_finalize_teardown vid s = Ok (tt, s') ∧
    h_table s' = delete vid (h_table s) ∧ bmp256_test (h_vids s') vid = true ∧
    h_vcpus s' !! vcpu_of r pid = Some (pended y vec nmi) ∧
    (h_writer s' = false ∧ h_readers s' = 0%nat ∧ h_locks s' = []) ∧
    ∀ ty i j, 0 <= i < 256 → 0 <= j < 256 →
      accepts s' ty i j = (accepts s ty i j && negb (i =? vid) &&
                           negb ((j =? vid) && negb (bool_decide (ty = VIPI_ROUTE)))) ∧
      sends s' ty i j = (sends s ty i j && negb (i =? vid) && negb ((j =? vid) && negb (i =? h_root_vid s))).
Proof.
  intros Hv Hroot Hne Hok Hp Hpair Et Ex Htn Er Erp Hpid Ey Hwf Hw Hrd Hl.
  destruct (teardown_reaches_root s vid p x pid vec nmi) as (s2 & -> & _ & Hs & Hr2); try done.
  destruct (lookup_shape _ s2 rp r Hs Erp) as (r2 & Er2 & Hsh).
  unfold shape in Hsh. assert (vcpu_count r2 = vcpu_count r) as Hcnt by congruence.
  assert (vcpu_of r2 pid = vcpu_of r pid) as Hof by (unfold vcpu_of; congruence).
  destruct Hs as (_ & _ & _ & Svcpus & Stable & _ & Svids & Slocks & Sread & Swr & _).
  set (s4 := retired vid s2).
  assert (h_table s4 = delete vid (h_table s)) as Ht4.
  { change (h_table s4) with (delete vid (h_table s2)). by rewrite Stable. }
  assert (h_locks s4 = []) as Hl4 by (change (h_locks s4) with (h_locks s2); by rewrite Slocks).
  rewrite <- Hof. rewrite (notify_root_run s4 (h_root_vid s) rp r2 y pid vec nmi); try done.
  2: by rewrite Ht4, lookup_delete_ne by done.
  2: by rewrite Hcnt.
  2: { rewrite Hof. change (h_vcpus s4) with (h_vcpus s2). by rewrite Svcpus. }
  set (s5 := injected s4 (vcpu_of r2 pid) y vec nmi).
  exists s5. split; [done|]. split; [exact Ht4|]. split; [|split; [apply vcpu_set_get|split; [|]]].
  - change (h_vids s5) with (bmp256_set (h_vids s2) vid). rewrite Svids, bmp256_test_bit, bmp256_set_bit by done.
    by rewrite Z.eqb_refl.
  - split_and!; [done|change (h_readers s5) with (h_readers s2); by rewrite Sread|exact Hl4].
  - intros ty i j Hi Hj. destruct (Hr2 ty i j Hi Hj) as [Ha Hse].
    by apply (retired_relations s s2 s5).
Qed.
