(* ===== verification/Vcreate.v ===== *)
(** * Vcreate: creation of partitions

    Models src/subsys/twanvisor/vportal/vcreate.c up to the entry of a new
    virtual CPU: the checks of what the root hands in, the initialisation of
    the partition and its vcpus, and their placement in the table and on the
    run queues.  [vcpu_entry], which programs the VMCS, is in Vboot.v.

    The root fills in a [struct vpartition] and its vcpus in its own memory;
    what only the checks read of them is in [vcpu_conf] and [vpartition_conf]. *)

From S2P Require Import Prelude Std Bmp Dq DeltaChain SchedDsa Twan VschedDsa Vpartition Vrecovery.
From S2P Require Import Vsched Vemu.
From coqutil Require Import Datatypes.RecordSetters.
From Stdlib Require Import ZArith Lia Bool.
From stdpp Require Import base gmap list numbers sets.

Local Open Scope Z_scope.

Inductive vcpu_vboot_state_t : Type := VBOOT_NONE | VBOOT_READY | VBOOT_PAUSED.

Record vcpu_conf := VcpuConf {
  vpid_enabled : bool;
  vpid : Z;
  ept_ve : bool;
  vlaunch_rip : Z;
  vboot_state : vcpu_vboot_state_t;
  io_bitmap_a_phys : Z;
  io_bitmap_b_phys : Z;
  msr_bitmap_phys : Z;
  vmcs_phys : Z;
  ve_info_area_phys : Z;
  vexit_load_count : Z;
  vexit_msr_load_area_phys : Z;
  msr_load_save_count : Z;
  msr_load_save_area_phys : Z;
}.

(** [vper_cpu_arch_support_t] and [vcache] of a processor *)
Record vper_cpu_arch_support_t := ArchSupport {
  unrestricted_guest : bool;
  ept : bool;
  vpid_support : bool;
  ept_ve_support : bool;
  invvpid_single : bool;
  msr_area_max : Z;
}.

Record vpartition_conf := VpartitionConf {
  ept_enabled : bool;
  ept_caching_policy : Z;
}.
Definition EPT_RESERVED0 : Z := 2.
Definition EPT_RESERVED1 : Z := 3.
Definition EPT_CACHING_POLICY_GUARD : Z := 7.

Definition vis_vboot_state_valid (b : vcpu_vboot_state_t) : bool :=
  match b with VBOOT_READY | VBOOT_PAUSED => true | VBOOT_NONE => false end.

(** ((~a) & b) == 0, word by word *)
Definition bmp256_within (allowed available : bmp256) : bool :=
  (Z.land (cnot 64 (bmp0 available)) (bmp0 allowed) =? 0) &&
  (Z.land (cnot 64 (bmp1 available)) (bmp1 allowed) =? 0) &&
  (Z.land (cnot 64 (bmp2 available)) (bmp2 allowed) =? 0) &&
  (Z.land (cnot 64 (bmp3 available)) (bmp3 allowed) =? 0).

Definition aligned (phys mask : Z) : bool := Z.land phys mask =? 0.

Section Create.
Context (conf : vptr → vcpu_conf) (pconf : Z → vpartition_conf).
Context (support : Z → vper_cpu_arch_support_t) (root_num_vcpus : Z).
(** The address of [vcpu_entry], the top of a vcpu's stack, and the floating
    point area [fp] with the control words reset. *)
Context (entry_rip : Z) (vexit_stack : vptr → Z) (reset_fp : Z → Z).

Definition vcpu_precheck (v : vptr) : M hv Z :=
  x <~ get_vcpu v ;;
  let vprocessor_id := vqueue_to_vprocessor_id (vqueue_id x) in
  n <~ vnum_cpus ;;
  if n <=? vprocessor_id then ret (- EINVAL) else
  target <~ get_cpu vprocessor_id ;;
  let sup := support vprocessor_id in
  let c := conf v in
  if negb (unrestricted_guest sup) || negb (ept sup) then ret (- EOPNOTSUPP) else
  if vpid_enabled c && (negb (vpid_support sup) || negb (invvpid_single sup))
  then ret (- EOPNOTSUPP) else
  if vpid_enabled c && (vpid c =? 0) then ret (- EINVAL) else
  if ept_ve c && negb (ept_ve_support sup) then ret (- EOPNOTSUPP) else
  if negb (Z.shiftr (vlaunch_rip c) 16 =? 0) then ret (- EINVAL) else
  if terminate (metadata x) then ret (- EINVAL) else
  if VSCHED_MAX_CRITICALITY <? criticality (metadata x) then ret (- EINVAL) else
  if 0 <? preemption_count x then ret (- EINVAL) else
  if negb (vis_vboot_state_valid (vboot_state c)) then ret (- EINVAL) else
  if negb (aligned (io_bitmap_a_phys c) 0xfff) then ret (- EINVAL) else
  if negb (aligned (io_bitmap_b_phys c) 0xfff) then ret (- EINVAL) else
  if negb (aligned (msr_bitmap_phys c) 0xfff) then ret (- EINVAL) else
  if negb (aligned (vmcs_phys c) 0xfff) then ret (- EINVAL) else
  if negb (aligned (ve_info_area_phys c) 0xfff) then ret (- EINVAL) else
  if negb (vexit_load_count c =? 0) &&
     (negb (aligned (vexit_msr_load_area_phys c) 0xf) || (msr_area_max sup <? vexit_load_count c))
  then ret (- EINVAL) else
  if negb (msr_load_save_count c =? 0) &&
     (negb (aligned (msr_load_save_area_phys c) 0xf) || (msr_area_max sup <? msr_load_save_count c))
  then ret (- EINVAL) else
  if negb (bmp256_ffs (subscribed_vectors x) =? -1) then ret (- EINVAL) else
  if negb (bmp256_within (allowed_external_vectors x) (available_vectors target))
  then ret (- EINVAL) else
  ret 0.

(** The loop over [criticality_perms]: the permission at [i] and the next
    [n - 1] are sound. *)
Fixpoint precheck_perms (n : nat) (i : Z) (perms : gmap Z vcriticality_perm_t) : M hv Z :=
  match n with
  | O => ret 0
  | S n =>
      match perms !! i with
      | None => mfault FBounds
      | Some perm =>
          if perm_write perm && (VSCHED_MAX_CRITICALITY <? max_criticality_writeable perm)
          then ret (- EINVAL) else precheck_perms n (i + 1) perms
      end
  end.

Fixpoint precheck_vcpus (n : nat) (i base : Z) : M hv Z :=
  match n with
  | O => ret 0
  | S n =>
      if (base =? 0) && (i =? 0) then ret (- EINVAL) else
      err <~ vcpu_precheck (VOf base i) ;;
      if err <? 0 then ret err else precheck_vcpus n (i + 1) base
  end.

Definition vpartition_precheck (p : Z) : M hv Z :=
  if p =? 0 then ret (- EINVAL) else
  part <~ get_part p ;;
  let c := pconf p in
  if negb (ept_enabled c) then ret (- EOPNOTSUPP) else
  if p_root part then ret (- EINVAL) else
  if (ept_caching_policy c =? EPT_RESERVED0) || (ept_caching_policy c =? EPT_RESERVED1) ||
     (EPT_CACHING_POLICY_GUARD <=? ept_caching_policy c) then ret (- EINVAL) else
  if negb (num_terminated part =? 0) then ret (- EINVAL) else
  let '(processor_id, vector, nmi) := terminate_notification part in
  if root_num_vcpus <=? processor_id then ret (- EINVAL) else
  if nmi && negb (vector =? NMI) then ret (- EINVAL) else
  err <~ precheck_perms NUM_CPUS 0 (criticality_perms part) ;;
  if negb (err =? 0) then ret err else
  if vcpu_count part =? 0 then ret (- EINVAL) else
  err <~ precheck_vcpus (Z.to_nat (vcpu_count part)) 0 (vcpus part) ;;
  if err <? 0 then ret err else
  if negb (bmp256_ffs (ipi_receivers part) =? -1) ||
     negb (bmp256_ffs (ipi_senders part) =? -1) ||
     negb (bmp256_ffs (tlb_shootdown_receivers part) =? -1) ||
     negb (bmp256_ffs (tlb_shootdown_senders part) =? -1) ||
     negb (bmp256_ffs (read_vcpu_state_receivers part) =? -1) ||
     negb (bmp256_ffs (read_vcpu_state_senders part) =? -1) ||
     negb (bmp256_ffs (pv_spin_kick_receivers part) =? -1) ||
     negb (bmp256_ffs (pv_spin_kick_senders part) =? -1)
  then ret (- EINVAL) else
  ret 0.

(** The list nodes embedded in [v], cleared by [memset]. *)
Definition vcpu_nodes (v : vptr) : list vnode :=
  map (fun i => NSched v i) (seq 0 VSCHED_NUM_CRITICALITIES) ++
  map (fun i => NDisp v (Z.of_nat i)) (seq 0 NUM_VECTORS) ++
  map (fun i => NIpi v (Z.of_nat i)) (seq 0 NUM_CPUS).
Definition clear_nodes (ns : list vnode) (h : gmap vnode (lnode vnode)) : gmap vnode (lnode vnode) :=
  foldr (fun n => <[n := LNode None None]>) h ns.

Definition timer_ids : list Z := map Z.of_nat (seq 0 (Z.to_nat VNUM_VTIMERS)).

Definition vcpu_setup (p : Z) (v : vptr) (pid : Z) : M hv unit :=
  part <~ get_part p ;;
  upd_vcpu v (fun x => x
    <| metadata -> tlb_flush_pending := false |>
    <| metadata -> current_time_slice_ticks := 0 |>
    <| metadata -> rearm := false |>
    <| metadata -> state := VINITIALIZING |>
    <| metadata -> pv_spin_state := VSPIN_NONE |>
    <| preempted := false |> <| yield_request := false |>
    <| processor_id := pid |>
    <| vid := p_vid part |>
    <| vpartition_num_cpus := vcpu_count part |>
    <| vpartition_addr := p |>
    <| timers := list_to_map (map (fun i => (i, Vtimer 0 false false false 0)) timer_ids) |>
    <| timer_nodes := list_to_map (map (fun i => (i, LNode None None)) timer_ids) |>
    <| timer_deltas := list_to_map (map (fun i => (i, 0)) timer_ids) |>
    <| timer_chain := dq_init |>) ;;;
  mmodify (fun s => s <| h_nodes ::= clear_nodes (vcpu_nodes v) |>) ;;;
  upd_vcpu v (fun x =>
    let c := vcontext x in
    x
    <| delivery := Delivery 0 false 0 false false |>
    <| pending_external_interrupts ::= bmp256_unset_all |>
    <| operations -> vmwrite_cr4 := false |>
    <| operations -> vmwrite_cr0 := false |>
    <| operations -> should_advance := false |>
    <| operations -> idt_vectoring := false |>
    <| operations -> use_synth_errcode := false |>
    <| vcontext :=
      Context (cx_cr8 c) (cx_r15 c) (cx_r14 c) (cx_r13 c) (cx_r12 c) (cx_r11 c) (cx_r10 c)
        (cx_r9 c) (cx_r8 c) (cx_rsi c) (cx_rdi c) (cx_rdx c) (cx_rcx c) (cx_rbx c) (cx_rax c)
        (vexit_stack v) (vexit_stack v) 2 entry_rip (reset_fp (cx_fp_context c)) |>).

Definition vpartition_setup (p new_vid : Z) : M hv unit :=
  root_vid <~ mgets h_root_vid ;;
  upd_part p (fun x => x <| p_vid := new_vid |>) ;;;
  upd_part p (fun x => x <| ipi_senders ::= fun b => bmp256_set b root_vid |>) ;;;
  upd_part p (fun x => x <| tlb_shootdown_senders ::= fun b => bmp256_set b root_vid |>) ;;;
  upd_part p (fun x => x <| read_vcpu_state_senders ::= fun b => bmp256_set b root_vid |>) ;;;
  upd_part p (fun x => x <| pv_spin_kick_senders ::= fun b => bmp256_set b root_vid |>) ;;;
  part <~ get_part p ;;
  mfrom (Z.to_nat (vcpu_count part)) 0 (fun i => vcpu_setup p (VOf (vcpus part) i) i).

(** The vcpus are put on their run queues in the order of their ids. *)
Definition push_vcpus (p : Z) : M hv unit :=
  part <~ get_part p ;;
  mfrom (Z.to_nat (vcpu_count part)) 0 (fun i =>
    let v := VOf (vcpus part) i in
    match vboot_state (conf v) with
    | VBOOT_READY => vsched_put v false
    | VBOOT_PAUSED => vsched_put_paused v false false ;;; ret tt
    | VBOOT_NONE => massert false
    end).
Definition vpartition_push (p : Z) : M hv unit :=
  part <~ get_part p ;;
  vpartition_place p (p_vid part) ;;;
  push_vcpus p.

(** ** What the checks establish *)

Lemma early_ret {S} (c : bool) (e : Z) (k : M S Z) s s' :
  (if c then ret e else k) s = Ok (0, s') → e ≠ 0 → c = false ∧ k s = Ok (0, s').
Proof. destruct c; [intros [= -> _]; done|done]. Qed.

Lemma bind_inv {S A B} (m : M S A) (k : A → M S B) s b s' :
  bind m k s = Ok (b, s') → ∃ a s1, m s = Ok (a, s1) ∧ k a s1 = Ok (b, s').
Proof. unfold bind. destruct (m s) as [[a s1]|]; [|done]. intros H. by exists a, s1. Qed.

(** One check of a precheck that returned 0 was passed. *)
Ltac passed H E := apply early_ret in H as [E H]; [|done].

(** What an accepted vcpu satisfies. *)
Record vcpu_sound (s : hv) (v : vptr) (x : vcpu) : Prop := {
  vs_cpu : vqueue_id x < h_num_cpus s;
  vs_target : is_Some (h_cpus s !! vqueue_id x);
  vs_alive : terminate (metadata x) = false;
  vs_criticality : criticality (metadata x) <= VSCHED_MAX_CRITICALITY;
  vs_preemptible : preemption_count x <= 0;
  vs_boot : vboot_state (conf v) ≠ VBOOT_NONE;
  vs_rip : Z.shiftr (vlaunch_rip (conf v)) 16 = 0;
  vs_unsubscribed : bmp256_ffs (subscribed_vectors x) = -1;
  vs_vectors : ∀ p, h_cpus s !! vqueue_id x = Some p →
    bmp256_within (allowed_external_vectors x) (available_vectors p) = true;
  vs_isolated : unrestricted_guest (support (vqueue_id x)) = true ∧ ept (support (vqueue_id x)) = true;
  vs_vpid : vpid_enabled (conf v) = true →
    vpid_support (support (vqueue_id x)) = true ∧ invvpid_single (support (vqueue_id x)) = true;
  vs_ve : ept_ve (conf v) = true → ept_ve_support (support (vqueue_id x)) = true;
}.

Lemma vcpu_precheck_sound v s s' : vcpu_precheck v s = Ok (0, s') →
  s' = s ∧ ∃ x, h_vcpus s !! v = Some x ∧ vcpu_sound s v x.
Proof.
  intros H. unfold vcpu_precheck in H. apply bind_inv in H as (x & s1 & E1 & H).
  unfold get_vcpu in E1. destruct (h_vcpus s !! v) as [x'|] eqn:Ex; [|done]. injection E1 as -> <-.
  cbv zeta in H. unfold vnum_cpus, mgets, bind at 1 in H. passed H C1.
  apply bind_inv in H as (tg & s2 & E2 & H). unfold get_cpu in E2.
  destruct (h_cpus s !! _) as [tg'|] eqn:Ec; [|done]. injection E2 as -> <-.
  passed H C2. passed H C3. passed H C4. passed H C5. passed H C6. passed H C7. passed H C8.
  passed H C9. passed H C10. passed H C11. passed H C12. passed H C13. passed H C14.
  passed H C15. passed H C16. passed H C17. passed H C18. passed H C19. injection H as <-.
  split; [done|]. exists x. split; [done|].
  split; try (by apply Z.leb_gt in C1); try done.
  - by apply Z.ltb_ge in C8.
  - by apply Z.ltb_ge in C9.
  - intros E. rewrite E in C10. done.
  - by apply negb_false_iff, Z.eqb_eq in C6.
  - by apply negb_false_iff, Z.eqb_eq in C18.
  - intros p Ep. unfold vqueue_to_vprocessor_id in Ec. rewrite Ec in Ep. injection Ep as <-.
    by apply negb_false_iff in C19.
  - apply orb_false_iff in C2 as [?%negb_false_iff ?%negb_false_iff]. done.
  - intros Ev. rewrite Ev in C3. apply orb_false_iff in C3 as [?%negb_false_iff ?%negb_false_iff]. done.
  - intros Ev. rewrite Ev in C5. by apply negb_false_iff in C5.
Qed.

Lemma vcpu_precheck_err v s r s' : vcpu_precheck v s = Ok (r, s') → r <= 0.
Proof.
  intros H. unfold vcpu_precheck in H. apply bind_inv in H as (x & s2 & _ & H). cbv zeta in H.
  unfold vnum_cpus, mgets, bind at 1 in H.
  destruct (_ <=? _) in H; [injection H; unfold EINVAL; lia|].
  apply bind_inv in H as (tg & s3 & _ & H).
  repeat (match type of H with (if ?c then _ else _) _ = _ => destruct c end;
    [injection H; unfold EINVAL, EOPNOTSUPP; lia|]). injection H. lia.
Qed.
Lemma precheck_vcpus_err n : ∀ i base s r s', precheck_vcpus n i base s = Ok (r, s') → r <= 0.
Proof.
  induction n as [|n IH]; intros i base s r s' H; cbn [precheck_vcpus] in H; [injection H; lia|].
  destruct (_ && _); [injection H; unfold EINVAL; lia|].
  apply bind_inv in H as (err & s1 & E1 & H). apply vcpu_precheck_err in E1.
  destruct (err <? 0); [by injection H as <- _|by eapply IH].
Qed.

Lemma precheck_vcpus_sound n : ∀ i base s s', precheck_vcpus n i base s = Ok (0, s') →
  s' = s ∧ ∀ j, i <= j < i + Z.of_nat n →
    ∃ x, h_vcpus s !! VOf base j = Some x ∧ vcpu_sound s (VOf base j) x.
Proof.
  induction n as [|n IH]; intros i base s s' H; cbn [precheck_vcpus] in H.
  - injection H as <-. split; [done|]. lia.
  - passed H C1. apply bind_inv in H as (err & s1 & E1 & H).
    destruct (Z.ltb_spec err 0) as [Hneg|Hpos]; [injection H as -> _; lia|].
    assert (err = 0) as -> by (apply vcpu_precheck_err in E1; lia).
    apply vcpu_precheck_sound in E1 as [-> Hx]. apply IH in H as [-> Hr]. split; [done|].
    intros j Hj. destruct (decide (j = i)) as [->|]; [done|]. apply Hr. lia.
Qed.

(** What an accepted partition satisfies. *)
Record partition_sound (s : hv) (p : Z) (part : vpartition) : Prop := {
  ps_root : p_root part = false;
  ps_ept : ept_enabled (pconf p) = true;
  ps_running : num_terminated part = 0;
  ps_notification : ∀ pid vec nmi, terminate_notification part = (pid, vec, nmi) →
    pid < root_num_vcpus ∧ (nmi = true → vec = NMI);
  ps_count : vcpu_count part ≠ 0;
  ps_perms : ∀ i, 0 <= i < Z.of_nat NUM_CPUS → ∃ perm, criticality_perms part !! i = Some perm ∧
    (perm_write perm = true → max_criticality_writeable perm <= VSCHED_MAX_CRITICALITY);
  ps_routes : ∀ ty, bmp256_ffs (senders ty part) = -1 ∧ bmp256_ffs (receivers ty part) = -1;
  ps_vcpus : ∀ j, 0 <= j < vcpu_count part →
    ∃ x, h_vcpus s !! VOf (vcpus part) j = Some x ∧ vcpu_sound s (VOf (vcpus part) j) x;
}.

Lemma precheck_perms_sound n : ∀ i perms s s' r, precheck_perms n i perms s = Ok (r, s') →
  s' = s ∧ (r = 0 → ∀ j, i <= j < i + Z.of_nat n → ∃ perm, perms !! j = Some perm ∧
    (perm_write perm = true → max_criticality_writeable perm <= VSCHED_MAX_CRITICALITY)).
Proof.
  induction n as [|n IH]; intros i perms s s' r H; cbn [precheck_perms] in H.
  - injection H as <- <-. split; [done|]. lia.
  - destruct (perms !! i) as [perm|] eqn:E; [|done]. destruct (_ && _) eqn:C.
    + by injection H as <- <-.
    + apply IH in H as [-> Hr]. split; [done|]. intros H0 j Hj.
      destruct (decide (j = i)) as [->|]; [|apply Hr; [done|lia]]. exists perm. split; [done|].
      intros Hw. rewrite Hw in C. by apply Z.ltb_ge in C.
Qed.

Lemma vpartition_precheck_sound p s s' : vpartition_precheck p s = Ok (0, s') →
  s' = s ∧ p ≠ 0 ∧ ∃ part, h_parts s !! p = Some part ∧ partition_sound s p part.
Proof.
  intros H. unfold vpartition_precheck in H. passed H C0. apply Z.eqb_neq in C0.
  apply bind_inv in H as (part & s1 & E1 & H). unfold get_part in E1.
  destruct (h_parts s !! p) as [part'|] eqn:Ep; [|done]. injection E1 as -> <-. cbv zeta in H.
  passed H C1. passed H C2. passed H C3. passed H C4.
  destruct (terminate_notification part) as [[pid vec] nmi] eqn:Et. passed H C5. passed H C6.
  apply bind_inv in H as (r & s2 & E2 & H). apply precheck_perms_sound in E2 as [-> Hperms].
  destruct (Z.eqb_spec r 0) as [->|]; [|by injection H as -> _]. cbn [negb] in H.
  passed H C7. apply bind_inv in H as (err & s3 & E3 & H).
  destruct (Z.ltb_spec err 0) as [Hneg|Hpos]; [injection H as -> _; lia|].
  passed H C8. injection H as ->.
  assert (err = 0) as -> by (apply precheck_vcpus_err in E3; lia).
  apply precheck_vcpus_sound in E3 as [-> Hv]. split; [done|]. split; [done|].
  exists part. split; [done|].
  repeat (apply orb_false_iff in C8 as [C8 ?]).
  repeat match goal with H : negb (_ =? _) = false |- _ => apply negb_false_iff, Z.eqb_eq in H end.
  split; try done.
  - by apply negb_false_iff in C1.
  - rewrite Et. intros ? ? ? [= <- <- <-]. split; [by apply Z.leb_gt in C5|].
    intros ->. by apply negb_false_iff, Z.eqb_eq in C6.
  - by apply Z.eqb_neq in C7.
  - intros i Hi. apply Hperms; [done|lia].
  - intros []; by split.
  - intros j Hj. apply Hv. lia.
Qed.

(** ** What the initialisation leaves *)

(** A vcpu of the partition [p] as it starts. *)
Definition vcpu_new (p : Z) (part : vpartition) (v : vptr) (pid : Z) (x : vcpu) : vcpu :=
  x <| metadata := VschedMetadata VINITIALIZING false (criticality (metadata x))
         (time_slice_ticks (metadata x)) 0 false (terminate (metadata x)) VSPIN_NONE |>
    <| preempted := false |> <| yield_request := false |>
    <| processor_id := pid |> <| vid := p_vid part |>
    <| vpartition_num_cpus := vcpu_count part |> <| vpartition_addr := p |>
    <| timers := list_to_map (map (fun i => (i, Vtimer 0 false false false 0)) timer_ids) |>
    <| timer_nodes := list_to_map (map (fun i => (i, LNode None None)) timer_ids) |>
    <| timer_deltas := list_to_map (map (fun i => (i, 0)) timer_ids) |>
    <| timer_chain := dq_init |>
    <| delivery := Delivery 0 false 0 false false |>
    <| pending_external_interrupts := bmp_empty |>
    <| operations := Voperations false false false false false (op_cr0 (operations x))
         (op_cr4 (operations x)) (idt_vectoring_info (operations x)) (synth_errcode (operations x)) |>
    <| vcontext := let c := vcontext x in
        Context (cx_cr8 c) (cx_r15 c) (cx_r14 c) (cx_r13 c) (cx_r12 c) (cx_r11 c) (cx_r10 c)
          (cx_r9 c) (cx_r8 c) (cx_rsi c) (cx_rdi c) (cx_rdx c) (cx_rcx c) (cx_rbx c) (cx_rax c)
          (vexit_stack v) (vexit_stack v) 2 entry_rip (reset_fp (cx_fp_context c)) |>.

Definition vcpu_started (s : hv) (p : Z) (part : vpartition) (v : vptr) (pid : Z) (x : vcpu) : hv :=
  (vcpu_set s v (vcpu_new p part v pid x)) <| h_nodes ::= clear_nodes (vcpu_nodes v) |>.

Lemma vcpu_setup_run s p part v pid x :
  h_parts s !! p = Some part → h_vcpus s !! v = Some x →
  vcpu_setup p v pid s = Ok (tt, vcpu_started s p part v pid x).
Proof.
  intros Ep Ex. unfold vcpu_setup. mstep (get_part_run _ _ _ Ep).
  destruct s. unfold upd_vcpu, get_vcpu, bind, mmodify. cbn -[clear_nodes vcpu_nodes timer_ids] in Ex |- *. rewrite Ex.
  unfold vcpu_started, vcpu_set, apply_update, constant. cbn -[clear_nodes vcpu_nodes timer_ids].
  rewrite lookup_insert_eq. cbn -[clear_nodes vcpu_nodes timer_ids]. rewrite insert_insert_eq.
  by destruct x as [? []].
Qed.

Definition same_but_vcpus (s s' : hv) : Prop :=
  h_this s' = h_this s ∧ h_num_cpus s' = h_num_cpus s ∧ h_cpus s' = h_cpus s ∧
  h_parts s' = h_parts s ∧ h_table s' = h_table s ∧ h_root_vid s' = h_root_vid s ∧
  h_vids s' = h_vids s ∧ h_locks s' = h_locks s ∧ h_readers s' = h_readers s ∧
  h_writer s' = h_writer s ∧ h_log s' = h_log s ∧ h_vmcs s' = h_vmcs s ∧
  h_loaded s' = h_loaded s.

Lemma setup_loop p part n : ∀ i s,
  h_parts s !! p = Some part →
  (∀ j, i <= j < i + Z.of_nat n → is_Some (h_vcpus s !! VOf (vcpus part) j)) →
  ∃ s', mfrom n i (fun i => vcpu_setup p (VOf (vcpus part) i) i) s = Ok (tt, s') ∧
    same_but_vcpus s s' ∧
    (∀ j x, i <= j < i + Z.of_nat n → h_vcpus s !! VOf (vcpus part) j = Some x →
       h_vcpus s' !! VOf (vcpus part) j = Some (vcpu_new p part (VOf (vcpus part) j) j x)) ∧
    (∀ v, (∀ j, i <= j < i + Z.of_nat n → v ≠ VOf (vcpus part) j) →
       h_vcpus s' !! v = h_vcpus s !! v).
Proof.
  induction n as [|n IH]; intros i s Ep Hv; cbn [mfrom].
  - exists s. split; [done|]. split; [by split_and!|]. split; [lia|done].
  - destruct (Hv i ltac:(lia)) as [x Ex]. mstep (vcpu_setup_run s p part _ i x Ep Ex).
    set (s1 := vcpu_started s p part (VOf (vcpus part) i) i x).
    assert (∀ v, h_vcpus s1 !! v = <[VOf (vcpus part) i := vcpu_new p part (VOf (vcpus part) i) i x]>
      (h_vcpus s) !! v) as H1 by done.
    destruct (IH (i + 1) s1 Ep) as (s' & E & Hs & Hnew & Hold).
    { intros j Hj. rewrite H1, lookup_insert_ne by (intros [= ?]; lia). apply Hv. lia. }
    exists s'. split; [exact E|]. split; [exact Hs|]. split.
    + intros j y Hj Ey. destruct (decide (j = i)) as [->|Hne].
      * rewrite Hold by (intros k Hk [= ?]; lia). rewrite H1, lookup_insert_eq. congruence.
      * apply Hnew; [lia|]. rewrite H1, lookup_insert_ne by (intros [= ?]; lia). done.
    + intros v Hne. rewrite Hold by (intros j Hj; apply Hne; lia).
      rewrite H1, lookup_insert_ne; [done|]. intros Hv'. apply (Hne i); [lia|done].
Qed.

(** The partition with its id and the root as its only sender. *)
Definition partition_new (s : hv) (new_vid : Z) (part : vpartition) : vpartition :=
  let root b := bmp256_set b (h_root_vid s) in
  part <| p_vid := new_vid |> <| ipi_senders ::= root |> <| tlb_shootdown_senders ::= root |>
       <| read_vcpu_state_senders ::= root |> <| pv_spin_kick_senders ::= root |>.

Lemma vpartition_setup_run s p part new_vid :
  h_parts s !! p = Some part →
  (∀ j, 0 <= j < vcpu_count part → is_Some (h_vcpus s !! VOf (vcpus part) j)) →
  ∃ s', vpartition_setup p new_vid s = Ok (tt, s') ∧
    same_but_vcpus (s <| h_parts ::= <[p := partition_new s new_vid part]> |>) s' ∧
    (∀ j x, 0 <= j < vcpu_count part → h_vcpus s !! VOf (vcpus part) j = Some x →
       h_vcpus s' !! VOf (vcpus part) j =
         Some (vcpu_new p (partition_new s new_vid part) (VOf (vcpus part) j) j x)) ∧
    (∀ v, (∀ j, 0 <= j < vcpu_count part → v ≠ VOf (vcpus part) j) →
       h_vcpus s' !! v = h_vcpus s !! v).
Proof.
  intros Ep Hv. set (s1 := s <| h_parts ::= <[p := partition_new s new_vid part]> |>).
  assert (h_parts s1 !! p = Some (partition_new s new_vid part)) as Ep1 by apply lookup_insert_eq.
  destruct (setup_loop p (partition_new s new_vid part) (Z.to_nat (vcpu_count part)) 0 s1 Ep1)
    as (s' & E & Hs & Hnew & Hold).
  { intros j Hj. apply Hv. lia. }
  exists s'. split; [|split; [exact Hs|split]].
  - rewrite <- E. unfold vpartition_setup, mgets, upd_part, get_part, bind, mmodify.
    destruct s. cbn in Ep |- *. rewrite Ep. unfold apply_update. cbn.
    repeat (rewrite lookup_insert_eq; cbn). rewrite !insert_insert_eq. by destruct part.
  - intros j x Hj Ex. apply Hnew; [lia|exact Ex].
  - intros v Hne. apply Hold. intros j Hj. apply Hne. lia.
Qed.
End Create.
