(* ===== verification/Vcalls.v ===== *)
(** * Vcalls: what a guest can ask of the hypervisor

    Models src/subsys/twanvisor/vportal/vcalls.c with the registers of
    vcalls.h: one definition per vcall, the table and the dispatcher, and the
    stubs of include/lib/libtwanvisor/libvcalls.h through which a guest calls.

    A handler runs with preemption disabled until it enables it; if a yield
    was requested meanwhile, the vcpu gives up the processor there and the
    rest of the handler runs when it is scheduled again.  [resume] stands for
    what the machine does in between. *)

From S2P Require Import Prelude Std Bmp Dq DeltaChain SchedDsa Twan VschedDsa Vpartition Vutils.
From S2P Require Import Vrecovery Vsched Vemu Vcreate.
From coqutil Require Import Datatypes.RecordSetters.
From Stdlib Require Import ZArith Lia Bool.
From stdpp Require Import base gmap list numbers sets.

Local Open Scope Z_scope.

(** ** vcalls.h *)

Definition vcall_id (r : vregs) : Z := rax r.
Definition vcall_set_retval (r : vregs) (v : Z) : vregs := r <| rax := u64 v |>.

Definition vcall_arg1_8 (r : vregs) : Z := Z.land (rdi r) 0xff.
Definition vcall_arg1_32 (r : vregs) : Z := Z.land (rdi r) 0xffffffff.
Definition vcall_arg1_64 (r : vregs) : Z := Z.land (rdi r) 0xffffffffffffffff.
Definition vcall_arg2_8 (r : vregs) : Z := Z.land (rsi r) 0xff.
Definition vcall_arg2_32 (r : vregs) : Z := Z.land (rsi r) 0xffffffff.
Definition vcall_arg3_8 (r : vregs) : Z := Z.land (rdx r) 0xff.
Definition vcall_arg3_32 (r : vregs) : Z := Z.land (rdx r) 0xffffffff.
Definition vcall_arg4_8 (r : vregs) : Z := Z.land (rcx r) 0xff.
Definition vcall_arg4_32 (r : vregs) : Z := Z.land (rcx r) 0xffffffff.
Definition vcall_arg5_32 (r : vregs) : Z := Z.land (r8 r) 0xffffffff.

(** An integer converted to [bool]. *)
Definition to_bool (v : Z) : bool := negb (v =? 0).

Definition VIPI_DM_EXTERNAL : Z := 0.
Definition VIPI_DM_UNPAUSE : Z := 1.
Definition INTL_MAX : Z := 15.

(** [vcriticality_perm_t] as the bit field it is passed in. *)
Definition vcriticality_perm_of (v : Z) : vcriticality_perm_t :=
  VcriticalityPerm (Z.testbit v 0) (Z.testbit v 1)
    (Z.land (Z.shiftr v 2) 0xff) (Z.land (Z.shiftr v 10) 0xff).

Section Vcalls.
Context (resume : vptr → M hv unit).
Context (conf : vptr → vcpu_conf) (pconf : Z → vpartition_conf).
Context (support : Z → vper_cpu_arch_support_t) (root_num_vcpus : Z).
Context (entry_rip : Z) (vexit_stack : vptr → Z) (reset_fp : Z → Z).

(** The rest of a handler runs when [v] has the processor. *)
Definition wait_resumed (v : vptr) : M hv unit :=
  p <~ vthis_cpu_data ;;
  if bool_decide (current_vcpu p = Some v) then ret tt else resume v.
Definition enable_preemption : M hv unit :=
  v <~ vcurrent_vcpu ;;
  vcurrent_vcpu_enable_preemption ;;;
  wait_resumed v.
(** A call that gives up the processor. *)
Definition giving_up (call : M hv unit) : M hv unit :=
  v <~ vcurrent_vcpu ;; call ;;; wait_resumed v.

(** ** External interrupts *)

Definition vsubscribe_external_interrupt_vector (r : vregs) : M hv Z :=
  enable_preemption ;;;
  let vector := vcall_arg1_8 r in
  current <~ vcurrent_vcpu ;;
  this <~ vthis_vprocessor_id ;;
  with_vlock (LDispatch this)
    (x <~ get_vcpu current ;;
     if bmp256_test (allowed_external_vectors x) vector then
       pend <~ vemu_is_interrupt_pending current vector (vector =? NMI) ;;
       upd_vcpu current (fun x => x <| subscribed_vectors ::= fun b => bmp256_set b vector |>) ;;;
       (if (pend : bool) then ret tt else
        on_dispatch this vector (fun h d =>
          let* q := dq_is_queued h d (NDisp current vector) in
          if (q : bool) then Ok (tt, h, d)
          else no_result (dq_pushback h d (NDisp current vector)))) ;;;
       ret 0
     else ret (- EPERM)).

Definition vunsubscribe_external_interrupt_vector (r : vregs) : M hv Z :=
  enable_preemption ;;;
  let vector := vcall_arg1_8 r in
  current <~ vcurrent_vcpu ;;
  this <~ vthis_vprocessor_id ;;
  with_vlock (LDispatch this)
    (x <~ get_vcpu current ;;
     if bmp256_test (allowed_external_vectors x) vector then
       upd_vcpu current (fun x => x <| subscribed_vectors ::= fun b => bmp256_unset b vector |>) ;;;
       on_dispatch this vector (dequeue_if_queued (NDisp current vector)) ;;;
       ret 0
     else ret (- EPERM)).

(** ** Interrupts and TLBs of other vcpus *)

Definition vipi (r : vregs) : M hv Z :=
  enable_preemption ;;;
  let target_processor_id := vcall_arg1_32 r in
  let delivery_mode := vcall_arg2_32 r in
  let vector := vcall_arg3_8 r in
  let nmi := to_bool (vcall_arg4_32 r) in
  if delivery_mode =? VIPI_DM_EXTERNAL then
    vemu_inject_external_interrupt_local target_processor_id vector nmi
  else if delivery_mode =? VIPI_DM_UNPAUSE then
    v <~ vcurrent_vcpu ;; x <~ get_vcpu v ;;
    if processor_id x =? target_processor_id then ret (- EINVAL)
    else vemu_unpause_vcpu_local target_processor_id true vector nmi
  else ret (- EINVAL).

Definition vipi_far (r : vregs) : M hv Z :=
  enable_preemption ;;;
  let vid := vcall_arg1_8 r in
  let processor_id := vcall_arg2_32 r in
  let delivery_mode := vcall_arg3_32 r in
  let vector := vcall_arg4_8 r in
  let nmi := to_bool (vcall_arg5_32 r) in
  if delivery_mode =? VIPI_DM_EXTERNAL then
    vemu_inject_external_interrupt_far vid processor_id vector nmi
  else if delivery_mode =? VIPI_DM_UNPAUSE then
    vemu_unpause_vcpu_far vid processor_id true vector nmi
  else ret (- EINVAL).

Definition vtlb_shootdown (r : vregs) : M hv Z :=
  enable_preemption ;;; vemu_tlb_invalidate (vcall_arg1_8 r).

(** ** Timers *)

Definition get_timer (v : vptr) (n : Z) : M hv vtimer :=
  x <~ get_vcpu v ;;
  match timers x !! n with Some t => ret t | None => mfault FBounds end.
Definition upd_timer (v : vptr) (n : Z) (f : vtimer → vtimer) : M hv unit :=
  t <~ get_timer v n ;; upd_vcpu v (fun x => x <| timers ::= <[n := f t]> |>).

(** One operation on the timer chain of [v]. *)
Definition on_chain (v : vptr)
    (f : gmap Z (lnode Z) → gmap Z Z → dq Z → res (gmap Z (lnode Z) * gmap Z Z * dq Z)) : M hv unit :=
  x <~ get_vcpu v ;;
  r <~ lift (f (timer_nodes x) (timer_deltas x) (timer_chain x)) ;;
  let '(h, ds, d) := r in
  upd_vcpu v (fun x => x <| timer_nodes := h |> <| timer_deltas := ds |> <| timer_chain := d |>).
Definition write_delta (n delta : Z) (h : gmap Z (lnode Z)) (ds : gmap Z Z) (d : dq Z)
    : res (gmap Z (lnode Z) * gmap Z Z * dq Z) :=
  let* ds := set_delta ds n delta in Ok (h, ds, d).

(** The preemption timer of the VMX is counted down by the processor and
    saved in the VMCS at each exit: together, or not at all. *)
Definition activate_timer (on : bool) : M hv unit :=
  vmwrite (fun g => g <| c_activate_vmx_preemption_timer := on |>
                      <| c_save_vmx_preemption_timer := on |>).
Definition vmwrite_timer (v : Z) : M hv unit :=
  vmwrite (fun g => g <| g_preemption_timer_value := u32 v |>).

(** The part of varm_timern that sets the clock: it runs for the new timer if
    that is the next to fire, and the delta of the front is what is left of it. *)
Definition arm_clock (current : vptr) (ticks : Z) : M hv unit :=
  x <~ get_vcpu current ;;
  if delta_chain_is_empty (timer_chain x) then
    vmwrite_timer ticks ;;;
    activate_timer true
  else
    rem <~ vmread g_preemption_timer_value ;;
    current_timer <~ not_null (delta_chain_peekfront (timer_chain x)) ;;
    (if ticks <? rem then vmwrite_timer ticks else ret tt) ;;;
    on_chain current (write_delta current_timer rem).

Definition varm_timern (r : vregs) : M hv Z :=
  let vector := vcall_arg1_8 r in
  let timer_n := vcall_arg2_8 r in
  let ticks := vcall_arg3_32 r in
  let periodic := to_bool (vcall_arg4_32 r) in
  let nmi := to_bool (vcall_arg5_32 r) in
  if (VNUM_VTIMERS <=? timer_n) || (nmi && negb (vector =? NMI)) then
    enable_preemption ;;; ret (- EINVAL)
  else
  current <~ vcurrent_vcpu ;;
  t <~ get_timer current timer_n ;;
  if tm_armed t then enable_preemption ;;; ret (- EALREADY)
  else
  arm_clock current ticks ;;;
  enable_preemption ;;;
  upd_timer current timer_n (fun _ => Vtimer vector periodic true nmi ticks) ;;;
  on_chain current (fun h ds d => delta_chain_insert h ds d timer_n ticks) ;;;
  ret 0.

(** The part of vdisarm_timern that sets the clock. *)
Definition disarm_clock (current : vptr) (timer_n : Z) : M hv unit :=
  x <~ get_vcpu current ;;
  if delta_chain_is_front (timer_chain x) timer_n then
    nd <~ lift (load (timer_nodes x) timer_n) ;;
    match next nd with
    | None => activate_timer false
    | Some next_node =>
        rem <~ vmread g_preemption_timer_value ;;
        delta <~ lift (get_delta (timer_deltas x) next_node) ;;
        vmwrite_timer (u64 (rem + delta)) ;;;
        on_chain current (write_delta timer_n rem)
    end
  else ret tt.

Definition vdisarm_timern (r : vregs) : M hv Z :=
  let timer_n := vcall_arg1_8 r in
  if VNUM_VTIMERS <=? timer_n then enable_preemption ;;; ret (- EINVAL)
  else
  current <~ vcurrent_vcpu ;;
  t <~ get_timer current timer_n ;;
  if negb (tm_armed t) then enable_preemption ;;; ret (- EINVAL)
  else
  disarm_clock current timer_n ;;;
  enable_preemption ;;;
  on_chain current (fun h ds d => delta_chain_dequeue_no_callback h ds d timer_n) ;;;
  upd_timer current timer_n (fun t => t <| tm_armed := false |>) ;;;
  ret 0.

(** ** Scheduling attributes *)

Definition valter_vcpu_timeslice (r : vregs) : M hv Z :=
  enable_preemption ;;;
  current <~ vcurrent_vcpu ;; x <~ get_vcpu current ;;
  if negb (root x) then ret (- EPERM) else
  vemu_alter_vcpu (vcall_arg1_8 r) (vcall_arg2_32 r) true (vcall_arg3_32 r) false 0.

Definition valter_vcpu_criticality (r : vregs) : M hv Z :=
  enable_preemption ;;;
  current <~ vcurrent_vcpu ;; x <~ get_vcpu current ;;
  if negb (root x) then ret (- EPERM) else
  vemu_alter_vcpu (vcall_arg1_8 r) (vcall_arg2_32 r) false 0 true (vcall_arg3_8 r).

(** ** The own interrupts *)

Definition vis_serviced (r : vregs) : M hv Z :=
  enable_preemption ;;;
  current <~ vcurrent_vcpu ;;
  let intl := vcall_arg1_8 r in
  if INTL_MAX <? intl then ret (- EINVAL) else
  in_intl <~ with_vlock (LPending current) (x <~ get_vcpu current ;; ret (in_intl (delivery x))) ;;
  ret (if negb (Z.land (Z.shiftr in_intl intl) 1 =? 0) then 1 else 0).

Definition vis_pending (r : vregs) : M hv Z :=
  enable_preemption ;;;
  let vector := vcall_arg1_8 r in
  let nmi := to_bool (vcall_arg2_32 r) in
  if nmi && negb (vector =? NMI) then ret (- EINVAL) else
  current <~ vcurrent_vcpu ;;
  is_pending <~ with_vlock (LPending current)
    (x <~ get_vcpu current ;;
     ret (if nmi then nmi_pending (delivery x)
          else bmp256_test (pending_external_interrupts x) vector)) ;;
  ret (if (is_pending : bool) then 1 else 0).

(** Removes the highest level in service; the field has sixteen bits. *)
Definition end_of_interrupt (d : vinterrupt_delivery_data_t) : vinterrupt_delivery_data_t :=
  let serviced_intl := fls32 (in_intl d) in
  if negb (serviced_intl =? -1) then
    d <| in_intl ::= fun i => Z.land i (cnot 32 (Z.shiftl 1 serviced_intl)) |>
  else d.
Definition veoi (r : vregs) : M hv Z :=
  enable_preemption ;;;
  current <~ vcurrent_vcpu ;;
  with_vlock (LPending current) (upd_vcpu current (fun x => x <| delivery ::= end_of_interrupt |>)) ;;;
  ret 0.

(** ** Giving up the processor *)

Definition vyield (r : vregs) : M hv Z := giving_up vsched_yield ;;; enable_preemption ;;; ret 0.
Definition vpause (r : vregs) : M hv Z := giving_up (vsched_pause false) ;;; enable_preemption ;;; ret 0.

Definition vpv_spin_pause (r : vregs) : M hv Z :=
  giving_up (vsched_pause true) ;;; enable_preemption ;;; ret 0.
Definition vpv_spin_kick (r : vregs) : M hv Z :=
  enable_preemption ;;; vemu_pv_spin_kick_local (vcall_arg1_32 r).
Definition vpv_spin_kick_far (r : vregs) : M hv Z :=
  enable_preemption ;;; vemu_pv_spin_kick_far (vcall_arg1_8 r) (vcall_arg2_32 r).

(** ** States and rights *)

Definition vread_vcpu_state (r : vregs) : M hv Z :=
  enable_preemption ;;; vemu_read_vcpu_state_local (vcall_arg1_32 r).
Definition vread_vcpu_state_far (r : vregs) : M hv Z :=
  enable_preemption ;;; vemu_read_vcpu_state_far (vcall_arg1_8 r) (vcall_arg2_32 r).

Definition vset_route (r : vregs) : M hv Z :=
  enable_preemption ;;;
  v <~ vcurrent_vcpu ;; x <~ get_vcpu v ;;
  let sender_vid := vcall_arg2_8 r in
  if negb (root x) then ret (- EPERM) else
  if sender_vid =? vid x then ret (- EINVAL) else
  vemu_set_route (vcall_arg1_8 r) sender_vid (vcall_arg3_32 r) (to_bool (vcall_arg4_32 r)).

Definition vset_vcpu_subscription_perm (r : vregs) : M hv Z :=
  enable_preemption ;;;
  v <~ vcurrent_vcpu ;; x <~ get_vcpu v ;;
  let target := vcall_arg1_8 r in
  if negb (root x) then ret (- EPERM) else
  if target =? vid x then ret (- EINVAL) else
  vemu_set_vcpu_subscription_perms target (vcall_arg2_32 r) (vcall_arg3_8 r) (to_bool (vcall_arg4_32 r)).

Definition vset_criticality_perm (r : vregs) : M hv Z :=
  enable_preemption ;;;
  v <~ vcurrent_vcpu ;; x <~ get_vcpu v ;;
  let target := vcall_arg1_8 r in
  if negb (root x) then ret (- EPERM) else
  if target =? vid x then ret (- EINVAL) else
  vemu_set_criticality_perm target (vcall_arg2_32 r) (vcriticality_perm_of (vcall_arg3_32 r)).

(** A negative processor id stands for the own processor. *)
Definition or_this_cpu (phys_processor_id : Z) : M hv Z :=
  if s32 phys_processor_id <? 0 then vthis_vprocessor_id else ret phys_processor_id.

Definition vread_criticality_level (r : vregs) : M hv Z :=
  enable_preemption ;;;
  v <~ vcurrent_vcpu ;; x <~ get_vcpu v ;;
  phys_processor_id <~ or_this_cpu (vcall_arg1_32 r) ;;
  vemu_read_criticality_level (vid x) phys_processor_id.
Definition vwrite_criticality_level (r : vregs) : M hv Z :=
  enable_preemption ;;;
  v <~ vcurrent_vcpu ;; x <~ get_vcpu v ;;
  phys_processor_id <~ or_this_cpu (vcall_arg1_32 r) ;;
  vemu_write_criticality_level (vid x) phys_processor_id (vcall_arg2_8 r).

(** ** The root's own *)

Definition vkdbg (r : vregs) : M hv Z :=
  enable_preemption ;;;
  let str := vcall_arg1_64 r in
  v <~ vcurrent_vcpu ;; x <~ get_vcpu v ;;
  if negb (root x) then ret (- EPERM) else
  if str =? 0 then ret (- EINVAL) else
  vlog (EDebug str) ;;; ret 0.

Definition vcreate_partition (r : vregs) : M hv Z :=
  enable_preemption ;;;
  v <~ vcurrent_vcpu ;; x <~ get_vcpu v ;;
  if negb (root x) then ret (- EPERM) else
  let vpartition := vcall_arg1_64 r in
  err <~ vpartition_precheck conf pconf support root_num_vcpus vpartition ;;
  if err <? 0 then ret err else
  vid <~ vpartition_id_alloc ;;
  if vid <? 0 then ret (- ENOSPC) else
  vpartition_setup entry_rip vexit_stack reset_fp vpartition vid ;;;
  vpartition_push conf vpartition ;;;
  ret vid.

Definition vdestroy_partition (r : vregs) : M hv Z :=
  enable_preemption ;;;
  let target := vcall_arg1_8 r in
  v <~ vcurrent_vcpu ;; x <~ get_vcpu v ;;
  if negb (root x) then ret (- EPERM) else
  if target =? vid x then ret (- EINVAL) else
  vteardown target.

(** Frames exist with the other scheduler only. *)
Definition vframe_set (r : vregs) : M hv Z := enable_preemption ;;; ret (- EINVAL).
Definition vframe_unset (r : vregs) : M hv Z := enable_preemption ;;; ret (- EINVAL).

(** ** The dispatcher *)

Definition vcall_table : list (vregs → M hv Z) :=
  [ vsubscribe_external_interrupt_vector; vunsubscribe_external_interrupt_vector;
    vipi; vipi_far; vtlb_shootdown;
    varm_timern; vdisarm_timern;
    valter_vcpu_timeslice; valter_vcpu_criticality;
    vis_serviced; vis_pending; veoi;
    vyield; vpause;
    vread_vcpu_state; vread_vcpu_state_far;
    vset_route; vset_vcpu_subscription_perm; vset_criticality_perm;
    vread_criticality_level; vwrite_criticality_level;
    vpv_spin_pause; vpv_spin_kick; vpv_spin_kick_far;
    vkdbg;
    vcreate_partition; vdestroy_partition;
    vframe_set; vframe_unset ].

Definition vcall_dispatcher (r : vregs) : M hv vregs :=
  mode <~ vmread vis_guest_cpl0 ;;
  match mode with
  | None => enable_preemption ;;; vqueue_inject_gp0 ;;; ret r
  | Some mode =>
      out <~ (let id := vcall_id r in
              if Z.of_nat (length vcall_table) <=? id then enable_preemption ;;; ret (- EINVAL)
              else func <~ not_null (vcall_table !! Z.to_nat id) ;; func r) ;;
      let out := match mode with VOP_64_BIT => out | _ => Z.land out 0xffffffff end in
      ret (vcall_set_retval r out)
  end.

(** ** Enabling preemption *)

(** Preemption is disabled and enabling it yields to nobody. *)
Definition calm (x : vcpu) : Prop :=
  0 < preemption_count x < 2 ^ 32 ∧ (yield_request x = false ∨ 1 < preemption_count x).
(** [v] after its preemption is enabled once. *)
Definition enabled (s : hv) (v : vptr) (x : vcpu) : hv :=
  vcpu_set s v (x <| preemption_count := preemption_count x - 1 |>).

Lemma running_set s v w x : running s v → running (vcpu_set s w x) v.
Proof. done. Qed.

Lemma wait_resumed_run s v : running s v → wait_resumed v s = Ok (tt, s).
Proof.
  intros (p & Ep & Ev). unfold wait_resumed, vthis_cpu_data, vthis_vprocessor_id, mgets, bind, get_cpu.
  rewrite Ep, Ev. by rewrite bool_decide_eq_true_2.
Qed.

Lemma no_yield_run s v x : running s v → h_vcpus s !! v = Some x → 0 < preemption_count x < 2 ^ 32 →
  vcurrent_vcpu_enable_preemption_no_yield s = Ok (tt, enabled s v x).
Proof.
  intros Hr Ex Hc. unfold vcurrent_vcpu_enable_preemption_no_yield. mstep (current_run _ _ Hr).
  mstep (get_vcpu_run _ _ _ Ex). rewrite (proj2 (Z.ltb_lt _ _)) by lia. unfold massert, bind.
  rewrite (upd_vcpu_run _ _ _ _ Ex). unfold enabled, vcpu_set, apply_update, constant.
  destruct s, x. cbn in Hc |- *. unfold u32. by rewrite wrap_small by lia.
Qed.

Lemma no_answer_run s v x : running s v → h_vcpus s !! v = Some x →
  (preemption_count x =? 0) && yield_request x = false → vtry_answer_yield_request s = Ok (false, s).
Proof.
  intros Hr Ex E. unfold vtry_answer_yield_request. mstep (current_run _ _ Hr).
  mstep (get_vcpu_run _ _ _ Ex). by rewrite E.
Qed.

Lemma enable_run s v x : running s v → h_vcpus s !! v = Some x → calm x →
  enable_preemption s = Ok (tt, enabled s v x).
Proof.
  intros Hr Ex [Hc Hy]. unfold enable_preemption. mstep (current_run _ _ Hr).
  assert (vcurrent_vcpu_enable_preemption s = Ok (tt, enabled s v x)) as E.
  { unfold vcurrent_vcpu_enable_preemption. mstep (no_yield_run _ _ _ Hr Ex Hc).
    assert (vtry_answer_yield_request (enabled s v x) = Ok (false, enabled s v x)) as En; [|by mstep En].
    apply (no_answer_run _ v (x <| preemption_count := preemption_count x - 1 |>));
      [exact Hr|apply lookup_insert_eq|].
    change ((preemption_count x - 1 =? 0) && yield_request x = false).
    destruct Hy as [-> | Hy]; [by rewrite andb_false_r|].
    by rewrite (proj2 (Z.eqb_neq (preemption_count x - 1) 0)) by lia. }
  mstep E. apply (wait_resumed_run (enabled s v x) v). exact Hr.
Qed.

(** ** Guards of the dispatcher *)

(** What is stored to rax for a result. *)
Definition truncated (mode : vop_mode_t) (out : Z) : Z :=
  match mode with VOP_64_BIT => out | _ => Z.land out 0xffffffff end.
(** The vcalls that only the root may make. *)
Definition privileged_ids : list Z := [7; 8; 16; 17; 18; 24; 25; 26].

(** The vcpu [v] is current, runs on this processor's VMCS [g], and can make
    a call. *)
Record calling (s : hv) (v : vptr) (x : vcpu) (g : vmcs_guest) : Prop := {
  calling_running : running s v;
  calling_vcpu : h_vcpus s !! v = Some x;
  calling_calm : calm x;
  calling_loaded : h_loaded s !! h_this s = Some v;
  calling_vmcs : h_vmcs s !! v = Some g;
}.

Lemma vmread_run {B} s v x g (f : vmcs_guest → B) : calling s v x g → vmread f s = Ok (f g, s).
Proof.
  intros []. unfold vmread, vmcs_loaded, bind. by rewrite calling_loaded0, calling_vmcs0.
Qed.

(** The calls that begin by enabling preemption and looking at who calls. *)
Lemma root_only_run s v x g (k : vptr → vcpu → M hv Z) : calling s v x g → root x = false →
  (enable_preemption ;;; v <~ vcurrent_vcpu ;; x <~ get_vcpu v ;;
   if negb (root x) then ret (- EPERM) else k v x) s = Ok (- EPERM, enabled s v x).
Proof.
  intros [Hr Ex Hc _ _] Hroot. mstep (enable_run s v x Hr Ex Hc). mstep (current_run (enabled s v x) v Hr).
  assert (h_vcpus (enabled s v x) !! v = Some (x <| preemption_count := preemption_count x - 1 |>)) as Ex'
    by apply lookup_insert_eq.
  mstep (get_vcpu_run _ _ _ Ex'). destruct x. cbn in Hroot |- *. by rewrite Hroot.
Qed.

(** C27.  Guards of the vcalls: a guest that is not at its highest privilege
    gets a general protection fault and no register changes; an id out of the
    table is refused with -EINVAL; and a vcpu that is not the root's is
    refused with -EPERM what belongs to the root: changing time slices,
    criticalities, routes, subscriptions and permissions, printing, creating
    and destroying partitions.  Nothing else of the hypervisor's state
    changes, whatever the arguments. *)
Theorem vcall_dispatcher_guards s v x g r :
  calling s v x g →
  (vis_guest_cpl0 g = None → idt_vectoring (operations x) = false →
     vcall_dispatcher r s = Ok (r, vcpu_set s v (x <| preemption_count := preemption_count x - 1 |>
       <| operations -> idt_vectoring := true |>
       <| operations -> idt_vectoring_info :=
            VectoredEvent INTERRUPT_TYPE_HARDWARE_EXCEPTION GENERAL_PROTECTION_FAULT false |>
       <| operations -> use_synth_errcode := true |>
       <| operations -> synth_errcode := 0 |>))) ∧
  ∀ mode, vis_guest_cpl0 g = Some mode →
    (29 <= vcall_id r →
       vcall_dispatcher r s = Ok (vcall_set_retval r (truncated mode (- EINVAL)), enabled s v x)) ∧
    (root x = false → vcall_id r ∈ privileged_ids →
       vcall_dispatcher r s = Ok (vcall_set_retval r (truncated mode (- EPERM)), enabled s v x)).
Proof.
  intros H. pose proof H as [Hr Ex Hc _ _]. unfold vcall_dispatcher.
  rewrite (bind_ok _ _ _ _ _ (vmread_run _ _ _ _ _ H)). split; [intros -> Hi|intros mode ->; split].
  - mstep (enable_run s v x Hr Ex Hc). destruct s, x. cbn in Hi, Ex, Hr |- *.
    destruct Hr as (p & Ep & Ev). cbn in Ep.
    match goal with o : voperations |- _ => destruct o end. cbn in Hi. subst.
    unfold vqueue_inject_gp0, vqueue_idt_vectoring_info, vqueue_synthetic_errcode, upd_operations, upd_vcpu,
      vcurrent_vcpu, vthis_cpu_data, vthis_vprocessor_id, get_vcpu, get_cpu, mgets, bind, enabled, vcpu_set,
      mmodify, apply_update, constant. cbn. rewrite Ep. cbn. rewrite Ev. cbn.
    repeat (rewrite lookup_insert_eq; cbn). rewrite Ep. cbn. rewrite Ev. cbn.
    repeat (rewrite lookup_insert_eq; cbn). by rewrite !insert_insert_eq.
  - intros Hid. rewrite (proj2 (Z.leb_le _ _)) by exact Hid. unfold bind at 1.
    rewrite (bind_ok _ _ _ _ _ (enable_run s v x Hr Ex Hc)). by destruct mode.
  - intros Hroot Hin.
    assert (∃ f : vregs → M hv Z, vcall_table !! Z.to_nat (vcall_id r) = Some f ∧ vcall_id r < 29 ∧
      f r s = Ok (- EPERM, enabled s v x)) as (f & Ef & Hlt & E).
    { unfold privileged_ids in Hin. repeat (apply elem_of_cons in Hin as [-> | Hin];
        [eexists; split; [reflexivity|]; split; [lia|apply (root_only_run _ _ _ g _ H Hroot)]|]).
      by apply elem_of_nil in Hin. }
    rewrite (proj2 (Z.leb_gt _ _)) by exact Hlt. rewrite Ef. unfold bind at 1. cbn [not_null].
    unfold bind, ret. rewrite E. by destruct mode.
Qed.
End Vcalls.
