(* ===== verification/Vlib.v ===== *)
(** * Vlib: the guest's side of the vcalls

    Models include/lib/libtwanvisor/libvcalls.h: the registers with which each
    stub executes VMCALL and the value it returns.  The round trip with the
    handlers of Vcalls is at the end. *)

From S2P Require Import Prelude Std Bmp Dq DeltaChain SchedDsa Twan VschedDsa Vpartition Vutils.
From S2P Require Import Vrecovery Vsched Vemu Vcreate Vcalls.
From coqutil Require Import Datatypes.RecordSetters.
From Stdlib Require Import ZArith Lia Bool.
From stdpp Require Import base gmap list numbers sets.

Local Open Scope Z_scope.

(** The registers of [r] when [tv_vcall] executes VMCALL.  Integers are
    converted to u64, so a negative [int] is sign-extended. *)
Definition tv_vcall (id arg1 arg2 arg3 arg4 arg5 arg6 : Z) (r : vregs) : vregs :=
  r <| rax := u64 id |> <| rdi := u64 arg1 |> <| rsi := u64 arg2 |> <| rdx := u64 arg3 |>
    <| rcx := u64 arg4 |> <| r8 := u64 arg5 |> <| r9 := u64 arg6 |>.
(** What it returns after the hypervisor has come back with [r]. *)
Definition tv_vcall_ret (r : vregs) : Z := s64 (rax r).

Definition tv_vsubscribe_external_interrupt_vector (vector : Z) := tv_vcall 0 vector 0 0 0 0 0.
Definition tv_vunsubscribe_external_interrupt_vector (vector : Z) := tv_vcall 1 vector 0 0 0 0 0.
Definition tv_vipi (processor_id delivery_mode vector : Z) (nmi : bool) :=
  tv_vcall 2 processor_id delivery_mode vector (b2z nmi) 0 0.
Definition tv_vipi_far (vid processor_id delivery_mode vector : Z) (nmi : bool) :=
  tv_vcall 3 vid processor_id delivery_mode vector (b2z nmi) 0.
Definition tv_vtlb_shootdown (target_vid : Z) := tv_vcall 4 target_vid 0 0 0 0 0.
Definition tv_varm_timern (vector timer_n ticks : Z) (periodic nmi : bool) :=
  tv_vcall 5 vector timer_n ticks (b2z periodic) (b2z nmi) 0.
Definition tv_vdisarm_timern (timer_n : Z) := tv_vcall 6 timer_n 0 0 0 0 0.
Definition tv_valter_vcpu_timeslice (vid processor_id ticks : Z) := tv_vcall 7 vid processor_id ticks 0 0 0.
Definition tv_valter_vcpu_criticality (vid processor_id criticality : Z) :=
  tv_vcall 8 vid processor_id criticality 0 0 0.
Definition tv_vis_serviced (intl : Z) := tv_vcall 9 intl 0 0 0 0 0.
Definition tv_vis_pending (vector : Z) (nmi : bool) := tv_vcall 10 vector (b2z nmi) 0 0 0 0.
Definition tv_veoi := tv_vcall 11 0 0 0 0 0 0.
Definition tv_vyield := tv_vcall 12 0 0 0 0 0 0.
Definition tv_vpause := tv_vcall 13 0 0 0 0 0 0.
Definition tv_vread_vcpu_state (processor_id : Z) := tv_vcall 14 processor_id 0 0 0 0 0.
Definition tv_vread_vcpu_state_far (vid processor_id : Z) := tv_vcall 15 vid processor_id 0 0 0 0.
Definition tv_vset_route (target_vid sender_vid route_type : Z) (allow : bool) :=
  tv_vcall 16 target_vid sender_vid route_type (b2z allow) 0 0.
Definition tv_vset_vcpu_subscription_perm (vid processor_id vector : Z) (allow : bool) :=
  tv_vcall 17 vid processor_id vector (b2z allow) 0 0.
Definition tv_vset_criticality_perm (vid processor_id perm : Z) := tv_vcall 18 vid processor_id perm 0 0 0.
Definition tv_vread_criticality_level (physical_processor_id : Z) :=
  tv_vcall 19 physical_processor_id 0 0 0 0 0.
Definition tv_vwrite_criticality_level (physical_processor_id criticality_level : Z) :=
  tv_vcall 20 physical_processor_id criticality_level 0 0 0 0.
Definition tv_vpv_spin_pause := tv_vcall 21 0 0 0 0 0 0.
Definition tv_vpv_spin_kick (processor_id : Z) := tv_vcall 22 processor_id 0 0 0 0 0.
Definition tv_vpv_spin_kick_far (vid processor_id : Z) := tv_vcall 23 vid processor_id 0 0 0 0.
Definition tv_vkdbg (str : Z) := tv_vcall 24 str 0 0 0 0 0.
Definition tv_vcreate_partition (vpartition : Z) := tv_vcall 25 vpartition 0 0 0 0 0.
Definition tv_vdestroy_partition (vid : Z) := tv_vcall 26 vid 0 0 0 0 0.
Definition tv_vframe_set (vid processor_id frame_id : Z) := tv_vcall 27 vid processor_id frame_id 0 0 0.
Definition tv_vframe_unset (physical_processor_id frame_id : Z) :=
  tv_vcall 28 physical_processor_id frame_id 0 0 0 0.

(** ** Round trip *)

Lemma arg_8 a : 0 <= a < 2 ^ 8 → Z.land (u64 a) 0xff = a.
Proof.
  intros Ha. unfold u64. rewrite wrap_small by lia. change 0xff with (Z.ones 8).
  rewrite Z.land_ones by lia. by apply Z.mod_small.
Qed.
Lemma arg_32 a : 0 <= a < 2 ^ 32 → Z.land (u64 a) 0xffffffff = a.
Proof.
  intros Ha. unfold u64. rewrite wrap_small by lia. change 0xffffffff with (Z.ones 32).
  rewrite Z.land_ones by lia. by apply Z.mod_small.
Qed.
Lemma arg_bool b : to_bool (Z.land (u64 (b2z b)) 0xffffffff) = b.
Proof. by destruct b. Qed.
(** An [int] comes back from 32 of the 64 bits. *)
Lemma arg_int a : - 2 ^ 31 <= a < 2 ^ 31 → s32 (Z.land (u64 a) 0xffffffff) = a.
Proof.
  intros Ha. change 0xffffffff with (Z.ones 32). rewrite Z.land_ones by lia. unfold u64, wrap, s32.
  rewrite Z.mod_mod_divide by (by exists (2 ^ 32)).
  rewrite Zplus_mod_idemp_l. rewrite Z.mod_small; lia.
Qed.
Lemma s64_u64 a : - 2 ^ 63 <= a < 2 ^ 63 → s64 (u64 a) = a.
Proof.
  intros Ha. unfold u64, wrap, s64. rewrite Zplus_mod_idemp_l. rewrite Z.mod_small; lia.
Qed.
Lemma arg_int_unsigned a : 0 <= a < 2 ^ 31 → Z.land (u64 a) 0xffffffff = a.
Proof. intros. apply arg_32. lia. Qed.

Section Args.
Context (id a1 a2 a3 a4 a5 a6 : Z) (b : bool) (r : vregs).
Abbreviation q := (tv_vcall id a1 a2 a3 a4 a5 a6 r).
Lemma tv_arg1_8 : 0 <= a1 < 2 ^ 8 → vcall_arg1_8 q = a1.
Proof. apply arg_8. Qed.
Lemma tv_arg1_32 : 0 <= a1 < 2 ^ 32 → vcall_arg1_32 q = a1.
Proof. apply arg_32. Qed.
Lemma tv_arg2_8 : 0 <= a2 < 2 ^ 8 → vcall_arg2_8 q = a2.
Proof. apply arg_8. Qed.
Lemma tv_arg2_32 : 0 <= a2 < 2 ^ 32 → vcall_arg2_32 q = a2.
Proof. apply arg_32. Qed.
Lemma tv_arg3_8 : 0 <= a3 < 2 ^ 8 → vcall_arg3_8 q = a3.
Proof. apply arg_8. Qed.
Lemma tv_arg3_32 : 0 <= a3 < 2 ^ 32 → vcall_arg3_32 q = a3.
Proof. apply arg_32. Qed.
Lemma tv_arg4_8 : 0 <= a4 < 2 ^ 8 → vcall_arg4_8 q = a4.
Proof. apply arg_8. Qed.
End Args.
Lemma tv_arg2_bool id a1 b a3 a4 a5 a6 r : to_bool (vcall_arg2_32 (tv_vcall id a1 (b2z b) a3 a4 a5 a6 r)) = b.
Proof. apply arg_bool. Qed.
Lemma tv_arg4_bool id a1 a2 a3 b a5 a6 r : to_bool (vcall_arg4_32 (tv_vcall id a1 a2 a3 (b2z b) a5 a6 r)) = b.
Proof. apply arg_bool. Qed.
Lemma tv_arg5_bool id a1 a2 a3 a4 b a6 r : to_bool (vcall_arg5_32 (tv_vcall id a1 a2 a3 a4 (b2z b) a6 r)) = b.
Proof. apply arg_bool. Qed.

Section RoundTrip.
Context (resume : vptr → M hv unit).
Context (conf : vptr → vcpu_conf) (pconf : Z → vpartition_conf).
Context (support : Z → vper_cpu_arch_support_t) (root_num_vcpus : Z).
Context (entry_rip : Z) (vexit_stack : vptr → Z) (reset_fp : Z → Z).
Abbreviation enable := (enable_preemption resume).

(** The handler that the dispatcher runs for [r]. *)
Definition handler (r : vregs) : option (M hv Z) :=
  (fun f => f r) <$> vcall_table resume conf pconf support root_num_vcpus entry_rip vexit_stack reset_fp
    !! Z.to_nat (vcall_id r).

Lemma handler_at id (f : vregs → M hv Z) a1 a2 a3 a4 a5 a6 r :
  vcall_table resume conf pconf support root_num_vcpus entry_rip vexit_stack reset_fp !! Z.to_nat id = Some f →
  0 <= id < 29 → handler (tv_vcall id a1 a2 a3 a4 a5 a6 r) = Some (f (tv_vcall id a1 a2 a3 a4 a5 a6 r)).
Proof.
  intros Ef Hn. unfold handler, vcall_id. change (rax (tv_vcall _ _ _ _ _ _ _ r)) with (u64 id).
  unfold u64. rewrite wrap_small by lia. by rewrite Ef.
Qed.

(** *** The calls by their arguments

    The calls of the library with the arguments of their C types; a pointer is
    its address.  [stub] is the function of the library, [serve] what the call
    means: each operation as a function of the arguments. *)
Inductive request : Type :=
  | Subscribe (vector : Z) | Unsubscribe (vector : Z)
  | Ipi (processor_id delivery_mode vector : Z) (nmi : bool)
  | IpiFar (vid processor_id delivery_mode vector : Z) (nmi : bool)
  | TlbShootdown (target_vid : Z)
  | ArmTimer (vector timer_n ticks : Z) (periodic nmi : bool) | DisarmTimer (timer_n : Z)
  | AlterTimeslice (vid processor_id ticks : Z) | AlterCriticality (vid processor_id criticality : Z)
  | IsServiced (intl : Z) | IsPending (vector : Z) (nmi : bool) | Eoi | Yield | Pause
  | ReadState (processor_id : Z) | ReadStateFar (vid processor_id : Z)
  | SetRoute (target_vid sender_vid route_type : Z) (allow : bool)
  | SetSubscriptionPerm (vid processor_id vector : Z) (allow : bool)
  | SetCriticalityPerm (vid processor_id : Z) (perm : vcriticality_perm_t)
  | ReadLevel (physical_processor_id : Z) | WriteLevel (physical_processor_id criticality_level : Z)
  | SpinPause | SpinKick (processor_id : Z) | SpinKickFar (vid processor_id : Z)
  | Kdbg (str : Z) | CreatePartition (vpartition : Z) | DestroyPartition (vid : Z)
  | FrameSet (vid processor_id frame_id : Z) | FrameUnset (physical_processor_id frame_id : Z).

Definition is_u8 (a : Z) : Prop := 0 <= a < 2 ^ 8.
Definition is_u32 (a : Z) : Prop := 0 <= a < 2 ^ 32.
Definition is_u64 (a : Z) : Prop := 0 <= a < 2 ^ 64.
Definition is_int (a : Z) : Prop := - 2 ^ 31 <= a < 2 ^ 31.
Definition well_typed (q : request) : Prop :=
  match q with
  | Subscribe a | Unsubscribe a | TlbShootdown a | DisarmTimer a | IsServiced a | DestroyPartition a
  | IsPending a _ => is_u8 a
  | Ipi a b c _ => is_u32 a ∧ is_u32 b ∧ is_u8 c
  | IpiFar a b c d _ => is_u8 a ∧ is_u32 b ∧ is_u32 c ∧ is_u8 d
  | ArmTimer a b c _ _ => is_u8 a ∧ is_u8 b ∧ is_u32 c
  | AlterTimeslice a b c | FrameSet a b c => is_u8 a ∧ is_u32 b ∧ is_u32 c
  | AlterCriticality a b c | SetSubscriptionPerm a b c _ => is_u8 a ∧ is_u32 b ∧ is_u8 c
  | ReadState a | SpinKick a => is_u32 a
  | ReadStateFar a b | SpinKickFar a b => is_u8 a ∧ is_u32 b
  | SetRoute a b c _ => is_u8 a ∧ is_u8 b ∧ is_u32 c
  | SetCriticalityPerm a b p =>
      is_u8 a ∧ is_u32 b ∧ is_u8 (min_criticality_writeable p) ∧ is_u8 (max_criticality_writeable p)
  | ReadLevel a => is_int a
  | WriteLevel a b => is_int a ∧ is_u8 b
  | FrameUnset a b => is_int a ∧ is_u32 b
  | Kdbg a | CreatePartition a => is_u64 a
  | Eoi | Yield | Pause | SpinPause => True
  end.

(** [perm.val] *)
Definition perm_val (p : vcriticality_perm_t) : Z :=
  b2z (perm_read p) + 2 * b2z (perm_write p) + 4 * min_criticality_writeable p + 1024 * max_criticality_writeable p.

Definition stub (q : request) : vregs → vregs :=
  match q with
  | Subscribe a => tv_vsubscribe_external_interrupt_vector a
  | Unsubscribe a => tv_vunsubscribe_external_interrupt_vector a
  | Ipi a b c d => tv_vipi a b c d
  | IpiFar a b c d e => tv_vipi_far a b c d e
  | TlbShootdown a => tv_vtlb_shootdown a
  | ArmTimer a b c d e => tv_varm_timern a b c d e
  | DisarmTimer a => tv_vdisarm_timern a
  | AlterTimeslice a b c => tv_valter_vcpu_timeslice a b c
  | AlterCriticality a b c => tv_valter_vcpu_criticality a b c
  | IsServiced a => tv_vis_serviced a
  | IsPending a b => tv_vis_pending a b
  | Eoi => tv_veoi
  | Yield => tv_vyield
  | Pause => tv_vpause
  | ReadState a => tv_vread_vcpu_state a
  | ReadStateFar a b => tv_vread_vcpu_state_far a b
  | SetRoute a b c d => tv_vset_route a b c d
  | SetSubscriptionPerm a b c d => tv_vset_vcpu_subscription_perm a b c d
  | SetCriticalityPerm a b p => tv_vset_criticality_perm a b (perm_val p)
  | ReadLevel a => tv_vread_criticality_level a
  | WriteLevel a b => tv_vwrite_criticality_level a b
  | SpinPause => tv_vpv_spin_pause
  | SpinKick a => tv_vpv_spin_kick a
  | SpinKickFar a b => tv_vpv_spin_kick_far a b
  | Kdbg a => tv_vkdbg a
  | CreatePartition a => tv_vcreate_partition a
  | DestroyPartition a => tv_vdestroy_partition a
  | FrameSet a b c => tv_vframe_set a b c
  | FrameUnset a b => tv_vframe_unset a b
  end.

(** For the root only: [k] with its id. *)
Definition as_root (k : Z → M hv Z) : M hv Z :=
  v <~ vcurrent_vcpu ;; x <~ get_vcpu v ;; if negb (root x) then ret (- EPERM) else k (vid x).
(** A negative processor id stands for the own processor. *)
Definition at_level (processor_id : Z) (k : Z → Z → M hv Z) : M hv Z :=
  v <~ vcurrent_vcpu ;; x <~ get_vcpu v ;;
  c <~ (if processor_id <? 0 then vthis_vprocessor_id else ret processor_id) ;; k (vid x) c.
(** [k] on the queue of those of the own processor that wait for the vector, if
    the caller may subscribe to it. *)
Definition on_subscription (vector : Z) (k : vptr → Z → M hv unit) : M hv Z :=
  current <~ vcurrent_vcpu ;;
  this <~ vthis_vprocessor_id ;;
  with_vlock (LDispatch this)
    (x <~ get_vcpu current ;;
     if bmp256_test (allowed_external_vectors x) vector then k current this ;;; ret 0 else ret (- EPERM)).

Definition serve (q : request) : M hv Z :=
  match q with
  | Subscribe vector => enable ;;;
      on_subscription vector (fun v this =>
        pending <~ vemu_is_interrupt_pending v vector (vector =? NMI) ;;
        upd_vcpu v (fun x => x <| subscribed_vectors ::= fun b => bmp256_set b vector |>) ;;;
        if (pending : bool) then ret tt else
        on_dispatch this vector (fun h d =>
          let* q := dq_is_queued h d (NDisp v vector) in
          if (q : bool) then Ok (tt, h, d) else no_result (dq_pushback h d (NDisp v vector))))
  | Unsubscribe vector => enable ;;;
      on_subscription vector (fun v this =>
        upd_vcpu v (fun x => x <| subscribed_vectors ::= fun b => bmp256_unset b vector |>) ;;;
        on_dispatch this vector (dequeue_if_queued (NDisp v vector)))
  | Ipi pid mode vector nmi => enable ;;;
      if mode =? VIPI_DM_EXTERNAL then vemu_inject_external_interrupt_local pid vector nmi
      else if mode =? VIPI_DM_UNPAUSE then
        v <~ vcurrent_vcpu ;; x <~ get_vcpu v ;;
        if processor_id x =? pid then ret (- EINVAL) else vemu_unpause_vcpu_local pid true vector nmi
      else ret (- EINVAL)
  | IpiFar vid pid mode vector nmi => enable ;;;
      if mode =? VIPI_DM_EXTERNAL then vemu_inject_external_interrupt_far vid pid vector nmi
      else if mode =? VIPI_DM_UNPAUSE then vemu_unpause_vcpu_far vid pid true vector nmi
      else ret (- EINVAL)
  | TlbShootdown vid => enable ;;; vemu_tlb_invalidate vid
  | ArmTimer vector n ticks periodic nmi =>
      if (VNUM_VTIMERS <=? n) || (nmi && negb (vector =? NMI)) then enable ;;; ret (- EINVAL) else
      v <~ vcurrent_vcpu ;; t <~ get_timer v n ;;
      if tm_armed t then enable ;;; ret (- EALREADY) else
      arm_clock v ticks ;;; enable ;;;
      upd_timer v n (fun _ => Vtimer vector periodic true nmi ticks) ;;;
      on_chain v (fun h ds d => delta_chain_insert h ds d n ticks) ;;; ret 0
  | DisarmTimer n =>
      if VNUM_VTIMERS <=? n then enable ;;; ret (- EINVAL) else
      v <~ vcurrent_vcpu ;; t <~ get_timer v n ;;
      if negb (tm_armed t) then enable ;;; ret (- EINVAL) else
      disarm_clock v n ;;; enable ;;;
      on_chain v (fun h ds d => delta_chain_dequeue_no_callback h ds d n) ;;;
      upd_timer v n (fun t => t <| tm_armed := false |>) ;;; ret 0
  | AlterTimeslice vid pid ticks => enable ;;; as_root (fun _ => vemu_alter_vcpu vid pid true ticks false 0)
  | AlterCriticality vid pid level => enable ;;; as_root (fun _ => vemu_alter_vcpu vid pid false 0 true level)
  | IsServiced intl => enable ;;;
      v <~ vcurrent_vcpu ;;
      if INTL_MAX <? intl then ret (- EINVAL) else
      in_service <~ with_vlock (LPending v) (x <~ get_vcpu v ;; ret (in_intl (delivery x))) ;;
      ret (if negb (Z.land (Z.shiftr in_service intl) 1 =? 0) then 1 else 0)
  | IsPending vector nmi => enable ;;;
      if nmi && negb (vector =? NMI) then ret (- EINVAL) else
      v <~ vcurrent_vcpu ;;
      pending <~ with_vlock (LPending v)
        (x <~ get_vcpu v ;;
         ret (if nmi then nmi_pending (delivery x) else bmp256_test (pending_external_interrupts x) vector)) ;;
      ret (if (pending : bool) then 1 else 0)
  | Eoi => enable ;;;
      v <~ vcurrent_vcpu ;;
      with_vlock (LPending v) (upd_vcpu v (fun x => x <| delivery ::= end_of_interrupt |>)) ;;; ret 0
  | Yield => giving_up resume vsched_yield ;;; enable ;;; ret 0
  | Pause => giving_up resume (vsched_pause false) ;;; enable ;;; ret 0
  | ReadState pid => enable ;;; vemu_read_vcpu_state_local pid
  | ReadStateFar vid pid => enable ;;; vemu_read_vcpu_state_far vid pid
  | SetRoute target sender type allow => enable ;;;
      as_root (fun me => if sender =? me then ret (- EINVAL) else vemu_set_route target sender type allow)
  | SetSubscriptionPerm vid pid vector allow => enable ;;;
      as_root (fun me => if vid =? me then ret (- EINVAL) else vemu_set_vcpu_subscription_perms vid pid vector allow)
  | SetCriticalityPerm vid pid perm => enable ;;;
      as_root (fun me => if vid =? me then ret (- EINVAL) else vemu_set_criticality_perm vid pid perm)
  | ReadLevel pid => enable ;;; at_level pid vemu_read_criticality_level
  | WriteLevel pid level => enable ;;; at_level pid (fun vid c => vemu_write_criticality_level vid c level)
  | SpinPause => giving_up resume (vsched_pause true) ;;; enable ;;; ret 0
  | SpinKick pid => enable ;;; vemu_pv_spin_kick_local pid
  | SpinKickFar vid pid => enable ;;; vemu_pv_spin_kick_far vid pid
  | Kdbg str => enable ;;; as_root (fun _ => if str =? 0 then ret (- EINVAL) else vlog (EDebug str) ;;; ret 0)
  | CreatePartition vpartition => enable ;;;
      as_root (fun _ =>
        err <~ vpartition_precheck conf pconf support root_num_vcpus vpartition ;;
        if err <? 0 then ret err else
        vid <~ vpartition_id_alloc ;;
        if vid <? 0 then ret (- ENOSPC) else
        vpartition_setup entry_rip vexit_stack reset_fp vpartition vid ;;;
        vpartition_push conf vpartition ;;; ret vid)
  | DestroyPartition vid => enable ;;; as_root (fun me => if vid =? me then ret (- EINVAL) else vteardown vid)
  | FrameSet _ _ _ | FrameUnset _ _ => enable ;;; ret (- EINVAL)
  end.

Lemma perm_round_trip p : is_u8 (min_criticality_writeable p) → is_u8 (max_criticality_writeable p) →
  vcriticality_perm_of (Z.land (u64 (perm_val p)) 0xffffffff) = p.
Proof.
  destruct p as [r w mn mx]. unfold is_u8, perm_val. cbn [min_criticality_writeable max_criticality_writeable perm_read perm_write].
  intros Hmn Hmx. assert (0 <= b2z r <= 1 ∧ 0 <= b2z w <= 1) as [Hr Hw] by (destruct r, w; cbn; lia).
  rewrite arg_32 by lia. set (v := _ + _ + _ + _). unfold vcriticality_perm_of.
  change 0xff with (Z.ones 8). rewrite !Z.land_ones, !Z.shiftr_div_pow2 by lia.
  rewrite !Z.testbit_eqb by lia. change (2 ^ 0) with 1. change (2 ^ 1) with 2. change (2 ^ 2) with 4.
  change (2 ^ 10) with 1024. change (2 ^ 8) with 256.
  assert (v / 4 mod 256 = mn) as -> by (subst v; dlia).
  assert (v / 1024 mod 256 = mx) as -> by (subst v; dlia).
  f_equal; subst v; destruct r, w; cbn [b2z]; (apply Z.eqb_eq; dlia) || (apply Z.eqb_neq; dlia).
Qed.

(** The arguments that the handlers read. *)
Ltac decode := rewrite ?tv_arg1_8, ?tv_arg1_32, ?tv_arg2_8, ?tv_arg2_32, ?tv_arg3_8, ?tv_arg3_32, ?tv_arg4_8,
  ?tv_arg2_bool, ?tv_arg4_bool, ?tv_arg5_bool by (unfold is_u8, is_u32 in *; lia).
(** Both sides run the same steps, grouped differently. *)
Lemma bind_regroup {S A B C} (m : M S A) (f : A → M S B) (g : B → M S C) s :
  bind (bind m f) g s = bind m (fun a => bind (f a) g) s.
Proof. unfold bind. by destruct (m s) as [[]|]. Qed.
Lemma bind_ext {S A B} (m : M S A) (f g : A → M S B) s : (∀ a s, f a s = g a s) → bind m f s = bind m g s.
Proof. intros H. unfold bind. destruct (m s) as [[]|]; [apply H|done]. Qed.
Lemma with_vlock_ext {A} l (m n : M hv A) s : (∀ s, m s = n s) → with_vlock l m s = with_vlock l n s.
Proof. intros H. unfold with_vlock, bind. destruct (vmcs_lock_isr_save l s) as [[]|]; [by rewrite H|done]. Qed.
Ltac regroup := unfold as_root, at_level, on_subscription, or_this_cpu;
  repeat first [reflexivity | apply with_vlock_ext; intros ? | rewrite bind_regroup | apply bind_ext; intros ? ?
    | match goal with |- (if ?b then _ else _) _ = _ => destruct b end].
Lemma tv_level id a1 a2 a3 a4 a5 a6 r : is_int a1 →
  or_this_cpu (vcall_arg1_32 (tv_vcall id a1 a2 a3 a4 a5 a6 r)) = if a1 <? 0 then vthis_vprocessor_id else ret a1.
Proof.
  intros Ha. unfold is_int in Ha. unfold or_this_cpu, vcall_arg1_32. change (rdi (tv_vcall _ _ _ _ _ _ _ r)) with (u64 a1).
  rewrite arg_int by done. destruct (Z.ltb_spec a1 0); [done|]. by rewrite arg_32 by lia.
Qed.
Lemma tv_arg1_64 id a1 a2 a3 a4 a5 a6 r : is_u64 a1 → vcall_arg1_64 (tv_vcall id a1 a2 a3 a4 a5 a6 r) = a1.
Proof.
  unfold is_u64, vcall_arg1_64. intros Ha. change (rdi (tv_vcall _ _ _ _ _ _ _ r)) with (u64 a1).
  unfold u64. rewrite wrap_small by lia. change 0xffffffffffffffff with (Z.ones 64).
  rewrite Z.land_ones by lia. by apply Z.mod_small.
Qed.
(** The call has the number [n] and the handler [f], which is [g] with the parameters. *)
Ltac reach n f g :=
  eexists; split; [exact (handler_at n f _ _ _ _ _ _ _ eq_refl ltac:(lia))|unfold g; decode; try reflexivity].

Lemma handler_serves q r s : well_typed q → ∃ f, handler (stub q r) = Some f ∧ f s = serve q s.
Proof.
  intros Hq. destruct q; cbn [stub well_typed serve] in *; destruct_and?.
  - reach 0 (vsubscribe_external_interrupt_vector resume) vsubscribe_external_interrupt_vector. regroup.
  - reach 1 (vunsubscribe_external_interrupt_vector resume) vunsubscribe_external_interrupt_vector. regroup.
  - reach 2 (vipi resume) vipi.
  - reach 3 (vipi_far resume) vipi_far.
  - reach 4 (vtlb_shootdown resume) vtlb_shootdown.
  - reach 5 (varm_timern resume) varm_timern.
  - reach 6 (vdisarm_timern resume) vdisarm_timern.
  - reach 7 (valter_vcpu_timeslice resume) valter_vcpu_timeslice.
  - reach 8 (valter_vcpu_criticality resume) valter_vcpu_criticality.
  - reach 9 (vis_serviced resume) vis_serviced.
  - reach 10 (vis_pending resume) vis_pending. 
  - reach 11 (veoi resume) veoi.
  - reach 12 (vyield resume) vyield.
  - reach 13 (vpause resume) vpause.
  - reach 14 (vread_vcpu_state resume) vread_vcpu_state.
  - reach 15 (vread_vcpu_state_far resume) vread_vcpu_state_far.
  - reach 16 (vset_route resume) vset_route.
  - reach 17 (vset_vcpu_subscription_perm resume) vset_vcpu_subscription_perm.
  - reach 18 (vset_criticality_perm resume) vset_criticality_perm. unfold vcall_arg3_32.
    change (rdx _) with (u64 (perm_val perm)). by rewrite perm_round_trip.
  - reach 19 (vread_criticality_level resume) vread_criticality_level. by rewrite tv_level.
  - reach 20 (vwrite_criticality_level resume) vwrite_criticality_level. by rewrite tv_level.
  - reach 21 (vpv_spin_pause resume) vpv_spin_pause.
  - reach 22 (vpv_spin_kick resume) vpv_spin_kick.
  - reach 23 (vpv_spin_kick_far resume) vpv_spin_kick_far.
  - reach 24 (vkdbg resume) vkdbg. by rewrite tv_arg1_64.
  - reach 25 (vcreate_partition resume conf pconf support root_num_vcpus entry_rip vexit_stack reset_fp) vcreate_partition.
    by rewrite tv_arg1_64.
  - reach 26 (vdestroy_partition resume) vdestroy_partition.
  - reach 27 (vframe_set resume) vframe_set.
  - reach 28 (vframe_unset resume) vframe_unset.
Qed.

Lemma stub_id q r : 0 <= rax (stub q r) < 29.
Proof. destruct q; vm_compute; split; congruence. Qed.

(** C29.  The library and the hypervisor agree on every call: for each of the 29
    calls, with any arguments of their C types (a negative processor id of the
    criticality calls stands for the own processor, a permission travels as its
    bit field), the stub of the library, executed by 64-bit code at CPL 0, runs
    through the dispatcher exactly the operation of its name with the arguments
    it was given; the library returns what the operation returned (64 bits with
    sign), and the guest's other registers stay as the stub had set them. *)
Theorem libvcalls_reach_their_handlers q r s :
  well_typed q → vmread vis_guest_cpl0 s = Ok (Some VOP_64_BIT, s) →
  match vcall_dispatcher resume conf pconf support root_num_vcpus entry_rip vexit_stack reset_fp (stub q r) s, serve q s with
  | Ok (r', s1), Ok (out, s2) => s1 = s2 ∧ (- 2 ^ 63 <= out < 2 ^ 63 → tv_vcall_ret r' = out) ∧
      r' = (stub q r) <| rax := rax r' |>
  | Fault f1, Fault f2 => f1 = f2
  | _, _ => False
  end.
Proof.
  intros Hq Hg. unfold vcall_dispatcher. mstep Hg. pose proof (stub_id q r) as Hid.
  destruct (handler_serves q r s Hq) as (f & Ef & E). unfold handler in Ef.
  destruct (vcall_table _ _ _ _ _ _ _ _ !! Z.to_nat (vcall_id (stub q r))) as [g|] eqn:Et; [|discriminate].
  injection Ef as <-. cbv beta iota zeta. rewrite (proj2 (Z.leb_gt _ _)) by exact (proj2 Hid).
  cbn [not_null]. unfold bind, ret. rewrite E.
  destruct (serve q s) as [[out s1]|]; [|done]. cbn. split; [done|]. split; [intros; by apply s64_u64|done].
Qed.
End RoundTrip.
