(* ===== verification/Vtimers.v ===== *)
(** * Vtimers: the virtual timers of a vcpu

    The specification of varm_timern and vdisarm_timern (vcalls.c).  A vcpu
    keeps its armed timers in a delta chain whose front is counted down by the
    preemption timer of the VMX; the [delta] of the front is only brought up
    to date when the chain changes.  [due] is the abstract state: each armed
    timer with the ticks left until it fires. *)

From S2P Require Import Prelude Std Bmp Dq DeltaChain SchedDsa Twan VschedDsa Vpartition Vutils.
From S2P Require Import Vrecovery Vsched Vemu Vcreate Vcalls.
From coqutil Require Import Datatypes.RecordSetters.
From Stdlib Require Import ZArith Lia Bool.
From stdpp Require Import base gmap list numbers sets.

Local Open Scope Z_scope.

(** The chain with the delta of its front replaced. *)
Definition with_front (rem : Z) (ps : list (Z * Z)) : list (Z * Z) :=
  match ps with [] => [] | (n, _) :: ps => (n, rem) :: ps end.
Definition due (g : vmcs_guest) (ps : list (Z * Z)) : list (Z * Z) :=
  expiries 0 (with_front (g_preemption_timer_value g) ps).
Definition is_nil {A} (l : list A) : bool := match l with [] => true | _ => false end.

(** The timers of [x] are those of the chain [ps], and the hardware counts
    down the first of them. *)
Record vtimers_rep (x : vcpu) (g : vmcs_guest) (ps : list (Z * Z)) : Prop := {
  vt_chain : dc_rep (timer_nodes x) (timer_deltas x) (timer_chain x) ps;
  vt_timers : ∀ n, 0 <= n < VNUM_VTIMERS → ∃ t, timers x !! n = Some t ∧
    is_Some (timer_nodes x !! n) ∧ is_Some (timer_deltas x !! n) ∧ (tm_armed t = true ↔ n ∈ ps.*1);
  vt_only : ∀ n, n ∈ ps.*1 → 0 <= n < VNUM_VTIMERS;
  vt_active : c_activate_vmx_preemption_timer g = negb (is_nil ps) ∧
    c_save_vmx_preemption_timer g = negb (is_nil ps);
  vt_value : 0 <= g_preemption_timer_value g;
  vt_due : Forall (fun p => p.2 < 2 ^ 32) (due g ps);
}.

(** Like [mstep], for an equation whose state is convertible to that of the goal. *)
Ltac mconv H :=
  match goal with |- context [bind ?m ?k ?s] => rewrite (bind_ok m k s _ _ H) end; cbv beta.

(** ** The two records the calls change *)

Definition tm_set (s : hv) (v : vptr) (x : vcpu) (g : vmcs_guest) : hv :=
  s <| h_vcpus ::= <[v := x]> |> <| h_vmcs ::= <[v := g]> |>.

Lemma tm_set_id s v x g : h_vcpus s !! v = Some x → h_vmcs s !! v = Some g → tm_set s v x g = s.
Proof.
  intros Ex Eg. destruct s. unfold tm_set, apply_update. cbn in *. by rewrite !insert_id.
Qed.

(** The updates by name. *)
Definition with_deltas (x : vcpu) (ds : gmap Z Z) : vcpu := x <| timer_deltas := ds |>.
Definition with_timer (x : vcpu) (n : Z) (t : vtimer) : vcpu := x <| timers ::= <[n := t]> |>.
Definition with_chain (x : vcpu) (h : gmap Z (lnode Z)) (ds : gmap Z Z) (d : dq Z) : vcpu :=
  x <| timer_nodes := h |> <| timer_deltas := ds |> <| timer_chain := d |>.
(** [x] after its preemption is enabled once. *)
Definition enabled_vcpu (x : vcpu) : vcpu := x <| preemption_count := preemption_count x - 1 |>.

Section Ops.
Context (resume : vptr → M hv unit) (s : hv) (v : vptr) (x0 : vcpu) (g0 : vmcs_guest).
Context (H : calling s v x0 g0).
Implicit Types (x : vcpu) (g : vmcs_guest).

Lemma tm_calling x g : calm x → calling (tm_set s v x g) v x g.
Proof.
  destruct H. split; [done|apply lookup_insert_eq|done|done|apply lookup_insert_eq].
Qed.
Lemma tm_current x g : vcurrent_vcpu (tm_set s v x g) = Ok (v, tm_set s v x g).
Proof. apply current_run. apply H. Qed.
Lemma tm_get x g : get_vcpu v (tm_set s v x g) = Ok (x, tm_set s v x g).
Proof. apply get_vcpu_run, lookup_insert_eq. Qed.
Lemma tm_upd f x g : upd_vcpu v f (tm_set s v x g) = Ok (tt, tm_set s v (f x) g).
Proof.
  rewrite (upd_vcpu_run _ _ x) by apply lookup_insert_eq. unfold tm_set, apply_update. destruct s. cbn.
  by rewrite insert_insert_eq.
Qed.
Lemma tm_read {B} (f : vmcs_guest → B) x g : vmread f (tm_set s v x g) = Ok (f g, tm_set s v x g).
Proof.
  unfold vmread, vmcs_loaded, bind. cbn [h_loaded h_this tm_set].
  change (h_loaded (tm_set s v x g)) with (h_loaded s). change (h_this (tm_set s v x g)) with (h_this s).
  rewrite (calling_loaded _ _ _ _ H). unfold tm_set, apply_update. destruct s. cbn. by rewrite lookup_insert_eq.
Qed.
Lemma tm_write f x g : vmwrite f (tm_set s v x g) = Ok (tt, tm_set s v x (f g)).
Proof.
  unfold vmwrite. assert (vmcs_loaded (tm_set s v x g) = Ok (v, tm_set s v x g)) as E.
  { unfold vmcs_loaded. change (h_loaded (tm_set s v x g)) with (h_loaded s).
    change (h_this (tm_set s v x g)) with (h_this s). by rewrite (calling_loaded _ _ _ _ H). }
  mstep E. mstep (tm_read (fun g => g) x g). unfold mmodify, tm_set, apply_update. destruct s. cbn.
  by rewrite insert_insert_eq.
Qed.
Lemma tm_timer n t x g : timers x !! n = Some t →
  get_timer v n (tm_set s v x g) = Ok (t, tm_set s v x g).
Proof. intros E. unfold get_timer. mstep (tm_get x g). by rewrite E. Qed.
Lemma tm_upd_timer n t f x g : timers x !! n = Some t →
  upd_timer v n f (tm_set s v x g) = Ok (tt, tm_set s v (with_timer x n (f t)) g).
Proof. intros E. unfold upd_timer. mstep (tm_timer n t x g E). apply tm_upd. Qed.
Lemma tm_chain f x g h ds d : f (timer_nodes x) (timer_deltas x) (timer_chain x) = Ok (h, ds, d) →
  on_chain v f (tm_set s v x g) =
  Ok (tt, tm_set s v (with_chain x h ds d) g).
Proof.
  intros E. unfold on_chain. mstep (tm_get x g). unfold bind at 1, lift. rewrite E. cbv beta iota.
  cbn [rbind]. by rewrite tm_upd.
Qed.
Lemma tm_enable x g : calm x → enable_preemption resume (tm_set s v x g) =
  Ok (tt, tm_set s v (enabled_vcpu x) g).
Proof.
  intros Hc. destruct (tm_calling x g Hc). rewrite (enable_run resume _ v x) by done.
  unfold enabled, vcpu_set, tm_set, apply_update. destruct s. cbn. by rewrite insert_insert_eq.
Qed.
End Ops.

(** ** Arming *)

Lemma calm_less x x' : preemption_count x' = preemption_count x → yield_request x' = yield_request x →
  calm x → calm x'.
Proof. intros E1 E2. unfold calm. by rewrite E1, E2. Qed.

Lemma delta_insert_bound n t ps acc k : Forall (fun p : Z * Z => p.2 < k) (expiries acc ps) → acc + t < k →
  Forall (fun p : Z * Z => p.2 < k) (expiries acc (delta_insert n t ps)).
Proof.
  rewrite expiries_delta_insert. generalize (expiries acc ps). intros xs. revert t.
  induction xs as [|[m y] xs IH]; intros t Hxs Ht; cbn.
  - by repeat constructor.
  - apply list.Forall_cons in Hxs as [Hy Hxs]. case_match; repeat constructor; try done. by apply IH.
Qed.

Lemma with_front_fst rem ps : (with_front rem ps).*1 = ps.*1.
Proof. by destruct ps as [|[n x] ps]. Qed.

Lemma dc_rep_set_front (h : gmap Z (lnode Z)) (ds : gmap Z Z) (d : dq Z) n y ps rem : dc_rep h ds d ((n, y) :: ps) → 0 <= rem < 2 ^ 64 →
  dc_rep h (<[n := rem]> ds) d ((n, rem) :: ps).
Proof.
  intros [Hr Hd] Hb. split; [exact Hr|]. apply list.Forall_cons in Hd as [_ Hd].
  constructor; [cbn; split; [by rewrite lookup_insert_eq|done]|].
  pose proof (rep_nodup _ _ _ Hr) as Hnd. apply list.NoDup_cons in Hnd as [Hn _].
  eapply deltas_ok_frame; [exact Hd| |].
  - intros m Hm. apply lookup_insert_ne. intros ->. apply Hm. by left.
  - intros m Hm [-> | Hm']%elem_of_cons; [done|by apply elem_of_nil in Hm'].
Qed.

Section Arm.
Context (resume : vptr → M hv unit) (s : hv) (v : vptr) (x0 : vcpu) (g0 : vmcs_guest).
Context (H : calling s v x0 g0).

(** The clock after arming a timer of [ticks]. *)
Definition clock_armed (ticks : Z) (ps : list (Z * Z)) (g : vmcs_guest) : vmcs_guest :=
  match ps with
  | [] => g <| g_preemption_timer_value := ticks |>
            <| c_activate_vmx_preemption_timer := true |> <| c_save_vmx_preemption_timer := true |>
  | _ => if ticks <? g_preemption_timer_value g then g <| g_preemption_timer_value := ticks |> else g
  end.
(** The deltas with that of the front brought up to date. *)
Definition front_updated (rem : Z) (ps : list (Z * Z)) (ds : gmap Z Z) : gmap Z Z :=
  match ps with [] => ds | (n, _) :: _ => <[n := rem]> ds end.

Lemma arm_clock_run x g ps ticks : vtimers_rep x g ps → 0 <= ticks < 2 ^ 32 →
  arm_clock v ticks (tm_set s v x g) = Ok (tt, tm_set s v
    (x <| timer_deltas := front_updated (g_preemption_timer_value g) ps (timer_deltas x) |>)
    (clock_armed ticks ps g)).
Proof.
  intros Hv Ht. unfold arm_clock. mstep (tm_get s v x g).
  pose proof (dc_dq _ _ _ _ (vt_chain _ _ _ Hv)) as Hdq. unfold delta_chain_is_empty.
  rewrite (dq_is_empty_spec _ _ _ Hdq). unfold vmwrite_timer.
  assert (u32 ticks = ticks) as Eu by (apply wrap_small; lia).
  destruct ps as [|[n y] ps].
  - rewrite bool_decide_eq_true_2 by done. mstep (tm_write s v x0 g0 H (fun g => g <| g_preemption_timer_value := u32 ticks |>) x g).
    unfold activate_timer. rewrite (tm_write s v x0 g0 H), Eu. cbn. by destruct x.
  - rewrite bool_decide_eq_false_2 by done. mstep (tm_read s v x0 g0 H g_preemption_timer_value x g). unfold delta_chain_peekfront.
    rewrite (dq_peekfront_spec _ _ _ Hdq). cbn [head fmap list_fmap fst not_null]. unfold bind at 1. cbn [ret].
    assert (∀ g', on_chain v (write_delta n (g_preemption_timer_value g)) (tm_set s v x g') =
      Ok (tt, tm_set s v (x <| timer_deltas := <[n := g_preemption_timer_value g]> (timer_deltas x) |>) g')) as E.
    { intros g'. rewrite (tm_chain s v x0 g0 H _ x g' (timer_nodes x)
        (<[n := g_preemption_timer_value g]> (timer_deltas x)) (timer_chain x)); [by destruct x|].
      unfold write_delta. pose proof (dc_delta _ _ _ _ (vt_chain _ _ _ Hv)) as Hd.
      apply list.Forall_cons in Hd as [[Hd _] _]. cbn in Hd. by rewrite set_delta_ok by eauto. }
    cbn [clock_armed front_updated]. destruct (ticks <? g_preemption_timer_value g); cbn [bool_decide].
    + mstep (tm_write s v x0 g0 H (fun g => g <| g_preemption_timer_value := u32 ticks |>) x g). by rewrite Eu, E.
    + unfold bind, ret. by rewrite E.
Qed.

(** The chain once its front is up to date. *)
Lemma front_updated_rep x g ps : vtimers_rep x g ps →
  dc_rep (timer_nodes x) (front_updated (g_preemption_timer_value g) ps (timer_deltas x)) (timer_chain x)
    (with_front (g_preemption_timer_value g) ps).
Proof.
  intros [Hc _ _ _ Hval Hdue]. destruct ps as [|[m y] ps]; [done|].
  apply list.Forall_cons in Hdue as [Hlt _]. cbn in Hlt. apply (dc_rep_set_front _ _ _ _ y); [done|lia].
Qed.

Lemma front_updated_dom rem ps (ds : gmap Z Z) n : is_Some (ds !! n) → is_Some (front_updated rem ps ds !! n).
Proof.
  intros Hn. destruct ps as [|[m y] ps]; [done|]. cbn. destruct (decide (m = n)) as [->|].
  - by rewrite lookup_insert_eq.
  - by rewrite lookup_insert_ne.
Qed.

(** The clock stands at the delta of the new front. *)
Lemma clock_armed_front n ticks g ps :
  let rem := g_preemption_timer_value g in
  with_front (g_preemption_timer_value (clock_armed ticks ps g)) (delta_insert n ticks (with_front rem ps)) =
  delta_insert n ticks (with_front rem ps).
Proof.
  destruct ps as [|[m y] ps]; [done|]. cbn. by destruct (Z.ltb_spec ticks (g_preemption_timer_value g)).
Qed.

Lemma arm_rep x g ps n ticks t h' ds' d' :
  vtimers_rep x g ps → 0 <= n < VNUM_VTIMERS → 0 <= ticks < 2 ^ 32 → tm_armed t = true →
  let ps' := delta_insert n ticks (with_front (g_preemption_timer_value g) ps) in
  dc_rep h' ds' d' ps' → (∀ m, is_Some (h' !! m) ↔ is_Some (timer_nodes x !! m)) →
  (∀ m, m ≠ n → is_Some (timer_deltas x !! m) → is_Some (ds' !! m)) →
  vtimers_rep (with_timer (with_chain (enabled_vcpu x) h' ds' d') n t) (clock_armed ticks ps g) ps' ∧
  due (clock_armed ticks ps g) ps' = exp_insert n ticks (due g ps).
Proof.
  intros [Hc Hts Honly Hact Hval Hdue] Hn Ht Harm ps' Hc' Hh Hds.
  assert (due (clock_armed ticks ps g) ps' = expiries 0 ps') as Ed by (unfold due, ps'; by rewrite clock_armed_front).
  assert (∀ m, m ∈ ps'.*1 ↔ m = n ∨ m ∈ ps.*1) as Hin.
  { intros m. unfold ps'. by rewrite delta_insert_fst, with_front_fst. }
  split; [split|]; cbn -[ps'].
  - by destruct x.
  - intros m Hm. destruct (Hts m Hm) as (t' & Et & En & Edm & Ha).
    destruct x. cbn -[ps'] in *. unfold apply_update, constant.
    destruct (decide (m = n)) as [->|Hne].
    + exists t. rewrite lookup_insert_eq, Harm, Hin, Hh. split; [done|]. split; [done|]. split; [|tauto].
      pose proof (dc_delta _ _ _ _ Hc') as Hd. assert (n ∈ ps'.*1) as Hnp by (apply Hin; by left).
      apply list_elem_of_fmap in Hnp as ([k y] & -> & Hk).
      by destruct (proj1 (list.Forall_forall _ _) Hd _ Hk) as [-> _].
    + exists t'. rewrite lookup_insert_ne by done. rewrite Hin, Hh.
      split; [done|]. split; [done|]. split; [by apply Hds|]. split; [tauto|].
      intros [-> | Hm']; [done|]. tauto.
  - intros m Hm. apply Hin in Hm as [-> | Hm]; [exact Hn|by apply Honly].
  - assert (is_nil ps' = false) as ->.
    { destruct ps' as [|p l] eqn:E; [|done]. assert (n ∈ @nil Z) as Hx by (apply Hin; by left).
      by apply elem_of_nil in Hx. }
    destruct ps as [|[m y] ps]; [done|]. cbn. by destruct (ticks <? _).
  - destruct ps as [|[m y] ps]; [cbn; unfold constant; lia|].
    cbn [clock_armed]. destruct (ticks <? _); [cbn; unfold constant; lia|done].
  - rewrite Ed. unfold ps'. apply delta_insert_bound; [exact Hdue|lia].
  - rewrite Ed. unfold ps'. apply expiries_delta_insert.
Qed.


(** C28.  Arming a timer: an unarmed timer is armed with what the caller asked
    for and will fire after exactly [ticks] more ticks, the timers already
    armed keep the time they had left (a timer due at the same tick stays
    first), and the hardware counts down the first of them.  An armed timer, a
    bad id or a bad vector is refused and nothing changes. *)
Theorem varm_timern_arms x g ps r :
  let n := vcall_arg2_8 r in let ticks := vcall_arg3_32 r in
  let bad := (VNUM_VTIMERS <=? n) || (to_bool (vcall_arg5_32 r) && negb (vcall_arg1_8 r =? NMI)) in
  calm x → vtimers_rep x g ps → 0 <= n → 0 <= ticks < 2 ^ 32 →
  (bad = true → varm_timern resume r (tm_set s v x g) = Ok (- EINVAL, tm_set s v (enabled_vcpu x) g)) ∧
  (bad = false → ∀ t, timers x !! n = Some t →
    (tm_armed t = true →
       varm_timern resume r (tm_set s v x g) = Ok (- EALREADY, tm_set s v (enabled_vcpu x) g)) ∧
    (tm_armed t = false → ∃ x' g' ps',
       varm_timern resume r (tm_set s v x g) = Ok (0, tm_set s v x' g') ∧ vtimers_rep x' g' ps' ∧
       due g' ps' = exp_insert n ticks (due g ps) ∧
       timers x' = <[n := Vtimer (vcall_arg1_8 r) (to_bool (vcall_arg4_32 r)) true
                            (to_bool (vcall_arg5_32 r)) ticks]> (timers x))).
Proof.
  intros n ticks bad Hcalm Hv Hn0 Ht. unfold varm_timern. fold n ticks bad. split; [intros ->|].
  { mstep (tm_enable resume s v x0 g0 H x g Hcalm). done. }
  intros Hbad t Et. rewrite Hbad. mstep (tm_current s v x0 g0 H x g). mstep (tm_timer s v n t x g Et).
  split; intros Ha; rewrite Ha.
  { mstep (tm_enable resume s v x0 g0 H x g Hcalm). done. }
  apply orb_false_iff in Hbad as [Hn _]. apply Z.leb_gt in Hn. assert (0 <= n < VNUM_VTIMERS) as Hnr by lia.
  mstep (arm_clock_run x g ps ticks Hv Ht). pose proof (front_updated_rep _ _ _ Hv) as Hc1.
  set (ds1 := front_updated _ _ _) in *. set (g1 := clock_armed ticks ps g) in *.
  mconv (tm_enable resume s v x0 g0 H (with_deltas x ds1) g1 Hcalm).
  destruct (vt_timers _ _ _ Hv n Hnr) as (t' & Et' & En & Ed & Hin). rewrite Et in Et'. injection Et' as <-.
  assert (n ∉ (with_front (g_preemption_timer_value g) ps).*1) as Hnin.
  { rewrite with_front_fst. intros Hx. apply Hin in Hx. congruence. }
  set (tm := Vtimer _ _ true _ ticks).
  assert (is_Some (ds1 !! n)) as Ed1 by (by apply front_updated_dom).
  destruct (delta_chain_insert_spec _ _ _ _ n ticks Hc1 En Ed1 Hnin ltac:(lia))
    as (h' & ds' & d' & E & Hr & Hf & Hdf).
  mconv (tm_upd_timer s v x0 g0 H n t (fun _ => tm) (enabled_vcpu (with_deltas x ds1)) g1 Et).
  mconv (tm_chain s v x0 g0 H (fun h ds d => delta_chain_insert h ds d n ticks) (with_timer (enabled_vcpu
    (with_deltas x ds1)) n tm) g1 h' ds' d' E).
  destruct (arm_rep x g ps n ticks tm h' ds' d' Hv Hnr Ht eq_refl Hr (proj2 Hf)) as [Hrep Hdue].
  { intros m Hne Hm. destruct (decide (m ∈ (with_front (g_preemption_timer_value g) ps).*1)) as [Hm'|Hm'].
    - assert (m ∈ (delta_insert n ticks (with_front (g_preemption_timer_value g) ps)).*1) as Hk
        by (apply delta_insert_fst; by right).
      apply list_elem_of_fmap in Hk as ([k y] & -> & Hk).
      by destruct (proj1 (list.Forall_forall _ _) (dc_delta _ _ _ _ Hr) _ Hk) as [-> _].
    - rewrite Hdf; [by apply front_updated_dom|]. intros [-> | Hx]%elem_of_cons; done. }
  eexists _, g1, _. split; [reflexivity|]. split; [|split; [exact Hdue|]]; by destruct x.
Qed.
End Arm.

(** ** Disarming *)

(** [g] counts down the front of the chain [ps], and [due] gives what is left. *)
Record clock_for (g : vmcs_guest) (ps : list (Z * Z)) (left : list (Z * Z)) : Prop := {
  clock_active : c_activate_vmx_preemption_timer g = negb (is_nil ps) ∧
    c_save_vmx_preemption_timer g = negb (is_nil ps);
  clock_value : 0 <= g_preemption_timer_value g;
  clock_left : due g ps = left;
}.

Lemma is_nil_app {A} (l1 l2 : list A) : is_nil (l1 ++ l2) = is_nil l1 && is_nil l2.
Proof. by destruct l1. Qed.
Lemma is_nil_give x ps : is_nil (delta_give (A := Z) x ps) = is_nil ps.
Proof. by destruct ps as [|[]]. Qed.

(** The deltas behind a node are within what is left until they fire. *)
Lemma deltas_below (acc k : Z) ps : 0 <= acc → Forall (fun p : Z * Z => 0 <= p.2) ps →
  Forall (fun p : Z * Z => p.2 < k) (expiries acc ps) → Forall (fun p : Z * Z => p.2 < k) ps.
Proof.
  revert acc. induction ps as [|[m z] ps IH]; intros acc Hacc Hnn Hlt; [constructor|]. cbn in *.
  apply list.Forall_cons in Hnn as [Hz Hnn], Hlt as [Hm Hlt]. cbn in Hz, Hm.
  constructor; [cbn; lia|]. apply (IH (acc + z)); [lia|done|done].
Qed.

Lemma give_bound (acc k : Z) ps1 n y ps2 : 0 <= acc → Forall (fun p : Z * Z => 0 <= p.2) (ps1 ++ (n, y) :: ps2) →
  Forall (fun p : Z * Z => p.2 < k) (expiries acc (ps1 ++ (n, y) :: ps2)) →
  Forall (fun p : Z * Z => p.2 < k) (delta_give y ps2).
Proof.
  revert acc. induction ps1 as [|[m z] ps1 IH]; intros acc Hacc Hnn Hlt; cbn in *;
    apply list.Forall_cons in Hnn as [Hz Hnn], Hlt as [_ Hlt]; cbn in Hz.
  - apply (deltas_below acc); [done| |].
    + destruct ps2 as [|[q w] ps2]; [done|]. apply list.Forall_cons in Hnn as [Hw Hnn].
      constructor; [cbn in *; lia|done].
    + destruct ps2 as [|[q w] ps2]; [done|]. cbn in *. by replace (acc + (w + y)) with (acc + y + w) by lia.
  - apply (IH (acc + z)); [lia|done|done].
Qed.

Section Disarm.
Context (resume : vptr → M hv unit) (s : hv) (v : vptr) (x0 : vcpu) (g0 : vmcs_guest).
Context (H : calling s v x0 g0).

Lemma front_is (x : vcpu) ps1 n (y : Z) ps2 :
  dq_rep (timer_nodes x) (timer_chain x) (ps1 ++ (n, y) :: ps2).*1 →
  delta_chain_is_front (timer_chain x) n = is_nil ps1.
Proof.
  intros Hdq. unfold delta_chain_is_front, delta_chain_peekfront. rewrite (dq_peekfront_spec _ _ _ Hdq).
  pose proof (rep_nodup _ _ _ Hdq) as Hnd. destruct ps1 as [|[m z] ps1]; cbn [app fmap list_fmap head fst is_nil] in *.
  - by apply bool_decide_eq_true_2.
  - apply bool_decide_eq_false_2. intros [= ->]. apply list.NoDup_cons in Hnd as [Hn _]. apply Hn.
    rewrite fmap_app. apply elem_of_app. right. left.
Qed.

(** Setting the clock before the timer [n] leaves the chain: what has to hold
    of the new deltas, of the delta of [n] and of the clock. *)
Record clock_ready (x : vcpu) (g : vmcs_guest) ps1 n ps2 left (ds1 : gmap Z Z) (y1 : Z) (g1 : vmcs_guest) : Prop := {
  ready_chain : dc_rep (timer_nodes x) ds1 (timer_chain x) (ps1 ++ (n, y1) :: ps2);
  ready_dom : ∀ m, is_Some (timer_deltas x !! m) → is_Some (ds1 !! m);
  ready_bound : Forall (fun p => p.2 < 2 ^ 64) (delta_give y1 ps2);
  ready_clock : clock_for g1 (ps1 ++ delta_give y1 ps2) (filter (fun p => p.1 ≠ n) left);
}.

Lemma with_deltas_id x : with_deltas x (timer_deltas x) = x.
Proof. by destruct x. Qed.

Lemma nonneg_front rem (h : gmap Z (lnode Z)) ds d ps : dc_rep h ds d ps → 0 <= rem →
  Forall (fun p : Z * Z => 0 <= p.2) (with_front rem ps).
Proof.
  intros Hc Hr. pose proof (dc_rep_expiries_nonneg _ _ _ _ Hc) as Hnn. destruct ps as [|[m z] ps]; [done|].
  apply list.Forall_cons in Hnn as [_ Hnn]. by constructor.
Qed.

(** A timer behind the front leaves the clock alone. *)
Lemma ready_behind x g m z ps1 n y ps2 : vtimers_rep x g ((m, z) :: ps1 ++ (n, y) :: ps2) →
  clock_ready x g ((m, z) :: ps1) n ps2 (due g ((m, z) :: ps1 ++ (n, y) :: ps2)) (timer_deltas x) y g.
Proof.
  intros [Hc _ _ Hact Hval Hdue]. pose proof (nonneg_front _ _ _ _ _ Hc Hval) as Hnn.
  split; [exact Hc|done| |].
  - unfold due in Hdue. cbn [with_front] in Hdue, Hnn.
    assert (Forall (fun p : Z * Z => p.2 < 2 ^ 32) (delta_give y ps2)) as Hb
      by exact (give_bound 0 (2 ^ 32) ((m, _) :: ps1) n y ps2 ltac:(lia) Hnn Hdue).
    eapply list.Forall_impl; [exact Hb|]. cbn. lia.
  - split; [by destruct Hact as [-> ->]|done|]. unfold due. cbn [with_front app].
    exact (expiries_remove 0 ((m, g_preemption_timer_value g) :: ps1) n y ps2 (rep_nodup _ _ _ (dc_dq _ _ _ _ Hc))).
Qed.

(** The front hands what is left of it to the next timer. *)
Lemma ready_front x g n y m z ps2 : vtimers_rep x g ((n, y) :: (m, z) :: ps2) →
  let rem := g_preemption_timer_value g in
  clock_ready x g [] n ((m, z) :: ps2) (due g ((n, y) :: (m, z) :: ps2))
    (<[n := rem]> (timer_deltas x)) rem (g <| g_preemption_timer_value := u32 (u64 (rem + z)) |>).
Proof.
  intros [Hc _ _ Hact Hval Hdue] rem. fold rem in Hval.
  pose proof (nonneg_front rem _ _ _ _ Hc Hval) as Hnn. unfold due in *. fold rem in Hdue |- *.
  cbn [with_front expiries] in *.
  apply list.Forall_cons in Hnn as [_ Hnn]. apply list.Forall_cons in Hnn as [Hz Hnn].
  pose proof Hdue as Hdue'.
  apply list.Forall_cons in Hdue as [Hr Hdue]. apply list.Forall_cons in Hdue as [Hrz Hdue]. cbn [snd] in *.
  split.
  - apply (dc_rep_set_front _ _ _ _ y); [exact Hc|lia].
  - intros k Hk. destruct (decide (k = n)) as [->|]; [by rewrite lookup_insert_eq|by rewrite lookup_insert_ne].
  - assert (Forall (fun p : Z * Z => p.2 < 2 ^ 32) (delta_give rem ((m, z) :: ps2))) as Hb.
    { apply (give_bound 0 (2 ^ 32) [] n rem); [lia| |exact Hdue']. by repeat constructor. }
    eapply list.Forall_impl; [exact Hb|]. cbn. lia.
  - split; [by destruct g|cbn; unfold constant; apply wrap_range; lia|].
    unfold due. cbn -[u32 u64]. unfold constant.
    assert (u32 (u64 (rem + z)) = 0 + rem + z) as ->.
    { unfold u32, u64. rewrite (wrap_small 64) by lia. rewrite wrap_small by lia. lia. }
    pose proof (rep_nodup _ _ _ (dc_dq _ _ _ _ Hc)) as Hnd. cbn in Hnd.
    pose proof (expiries_remove 0 [] n rem ((m, z) :: ps2) Hnd) as E. cbn in E. cbn. rewrite <- E.
    by replace (z + rem) with (rem + z) by lia.
Qed.

(** The last timer stops the clock. *)
Lemma ready_last x g n y : vtimers_rep x g [(n, y)] →
  clock_ready x g [] n [] (due g [(n, y)]) (timer_deltas x) y
    (g <| c_activate_vmx_preemption_timer := false |> <| c_save_vmx_preemption_timer := false |>).
Proof.
  intros [Hc _ _ _ Hval _]. split; [exact Hc|done|constructor|].
  split; [by destruct g|done|]. unfold due. cbn [with_front expiries delta_give app].
  by rewrite filter_cons_False by (cbn; tauto).
Qed.

Lemma disarm_clock_run x g ps1 n y ps2 : vtimers_rep x g (ps1 ++ (n, y) :: ps2) →
  ∃ ds1 y1 g1, disarm_clock v n (tm_set s v x g) = Ok (tt, tm_set s v (with_deltas x ds1) g1) ∧
    clock_ready x g ps1 n ps2 (due g (ps1 ++ (n, y) :: ps2)) ds1 y1 g1.
Proof.
  intros Hv. pose proof (dc_dq _ _ _ _ (vt_chain _ _ _ Hv)) as Hdq. unfold disarm_clock. mstep (tm_get s v x g).
  rewrite (front_is x ps1 n y ps2 Hdq). destruct ps1 as [|[c w] ps1]; cbn [is_nil app] in *; cycle 1.
  { eexists _, _, g. split; [by rewrite <- (with_deltas_id x) at 1|]. by apply ready_behind. }
  pose proof (rep_cons_lookup _ _ n _ Hdq) as El. destruct ps2 as [|[m z] ps2].
  - eexists _, _, _. split; [|by apply ready_last]. rewrite <- (with_deltas_id x) at 2.
    unfold bind at 1, lift at 1. rewrite (load_ok _ _ _ El). cbn [rbind next hd_or fmap list_fmap].
    unfold activate_timer. by rewrite (tm_write s v x0 g0 H).
  - eexists _, _, _. split; [|by apply ready_front].
    unfold bind at 1, lift at 1. rewrite (load_ok _ _ _ El). cbn [rbind next hd_or fmap list_fmap fst].
    mstep (tm_read s v x0 g0 H g_preemption_timer_value x g).
    pose proof (dc_delta _ _ _ _ (vt_chain _ _ _ Hv)) as Hd. apply list.Forall_cons in Hd as [[En _] Hd].
    apply list.Forall_cons in Hd as [[Em _] _]. cbn [fst snd] in En, Em.
    unfold bind at 1, lift at 1. rewrite (get_delta_ok _ _ _ Em). cbn [rbind].
    unfold vmwrite_timer. mconv (tm_write s v x0 g0 H
      (fun g' => g' <| g_preemption_timer_value := u32 (u64 (g_preemption_timer_value g + z)) |>) x g).
    rewrite (tm_chain s v x0 g0 H _ x _ (timer_nodes x) (<[n := g_preemption_timer_value g]> (timer_deltas x))
      (timer_chain x)); [by destruct x|]. unfold write_delta. by rewrite set_delta_ok by eauto.
Qed.

Lemma disarm_rep x g ps1 n y ps2 ds1 y1 g1 t h' ds' d' :
  vtimers_rep x g (ps1 ++ (n, y) :: ps2) →
  clock_ready x g ps1 n ps2 (due g (ps1 ++ (n, y) :: ps2)) ds1 y1 g1 → tm_armed t = false →
  dc_rep h' ds' d' (ps1 ++ delta_give y1 ps2) → (∀ m, is_Some (h' !! m) ↔ is_Some (timer_nodes x !! m)) →
  (∀ m, is_Some (timer_deltas x !! m) → is_Some (ds' !! m)) →
  vtimers_rep (with_timer (with_chain (enabled_vcpu x) h' ds' d') n t) g1 (ps1 ++ delta_give y1 ps2).
Proof.
  intros [Hc Hts Honly Hact Hval Hdue] [Hc1 _ _ [Ha1 Hv1 Hd1]] Harm Hc' Hh Hds.
  pose proof (rep_nodup _ _ _ (dc_dq _ _ _ _ Hc)) as Hnd.
  assert (∀ m, m ∈ (ps1 ++ delta_give y1 ps2).*1 ↔ m ∈ (ps1 ++ (n, y) :: ps2).*1 ∧ m ≠ n) as Hin.
  { intros m. assert ((delta_give y1 ps2).*1 = ps2.*1) as Eg by (by destruct ps2 as [|[]]).
    rewrite !fmap_app, Eg, fmap_cons in *. cbn [fst] in *. apply list.NoDup_app in Hnd as (_ & Hdis & Hnd).
    apply list.NoDup_cons in Hnd as [Hn2 _]. rewrite !elem_of_app, elem_of_cons. split.
    - intros [Hm | Hm]; (split; [tauto|]); intros ->; [apply (Hdis _ Hm); left|done].
    - tauto. }
  split; [by destruct x| | |done|done|].
  - intros m Hm. destruct (Hts m Hm) as (t' & Et & En & Ed & Ha).
    assert (timers (with_timer (with_chain (enabled_vcpu x) h' ds' d') n t) = <[n := t]> (timers x)) as ->
      by (by destruct x).
    assert (timer_nodes (with_timer (with_chain (enabled_vcpu x) h' ds' d') n t) = h' ∧
      timer_deltas (with_timer (with_chain (enabled_vcpu x) h' ds' d') n t) = ds') as [-> ->] by (by destruct x).
    destruct (decide (m = n)) as [->|Hne].
    + exists t. rewrite lookup_insert_eq, Harm, Hin, Hh. split; [done|]. split; [done|]. split; [by apply Hds|]. split; [done|tauto].
    + exists t'. rewrite lookup_insert_ne by done. rewrite Hin, Hh.
      split; [done|]. split; [done|]. split; [by apply Hds|]. tauto.
  - intros m Hm. apply Hin in Hm as [Hm _]. by apply Honly.
  - rewrite Hd1. apply list.Forall_forall. intros p [_ Hp]%list_elem_of_filter.
    exact (proj1 (list.Forall_forall _ _) Hdue p Hp).
Qed.

(** Disarming a timer: an armed timer will not fire, the others keep the
    time they had left, and the hardware counts down the first of those, or
    stops if there is none.  A bad id or a timer that is not armed is refused
    and nothing changes. *)
Theorem vdisarm_timern_disarms x g ps r :
  let n := vcall_arg1_8 r in
  calm x → vtimers_rep x g ps → 0 <= n →
  (VNUM_VTIMERS <= n → vdisarm_timern resume r (tm_set s v x g) = Ok (- EINVAL, tm_set s v (enabled_vcpu x) g)) ∧
  (n < VNUM_VTIMERS → ∀ t, timers x !! n = Some t →
    (tm_armed t = false →
       vdisarm_timern resume r (tm_set s v x g) = Ok (- EINVAL, tm_set s v (enabled_vcpu x) g)) ∧
    (tm_armed t = true → ∃ x' g' ps',
       vdisarm_timern resume r (tm_set s v x g) = Ok (0, tm_set s v x' g') ∧ vtimers_rep x' g' ps' ∧
       due g' ps' = filter (fun p => p.1 ≠ n) (due g ps) ∧
       timers x' = <[n := t <| tm_armed := false |>]> (timers x))).
Proof.
  intros n Hcalm Hv Hn0. unfold vdisarm_timern. fold n. split; [intros Hn|intros Hn t Et].
  { rewrite (proj2 (Z.leb_le _ _) Hn). by mstep (tm_enable resume s v x0 g0 H x g Hcalm). }
  rewrite (proj2 (Z.leb_gt _ _) Hn). mstep (tm_current s v x0 g0 H x g). mstep (tm_timer s v n t x g Et).
  split; intros Ha; rewrite Ha; cbn [negb].
  { by mstep (tm_enable resume s v x0 g0 H x g Hcalm). }
  destruct (vt_timers _ _ _ Hv n ltac:(lia)) as (t' & Et' & _ & _ & Hin). rewrite Et in Et'. injection Et' as <-.
  apply Hin in Ha as Hps. apply list_elem_of_fmap in Hps as ([k y] & Hk & Hps). cbn in Hk. subst k.
  apply list_elem_of_split in Hps as (ps1 & ps2 & ->).
  destruct (disarm_clock_run x g ps1 n y ps2 Hv) as (ds1 & y1 & g1 & E & Hready). mstep E.
  mconv (tm_enable resume s v x0 g0 H (with_deltas x ds1) g1 Hcalm).
  destruct (delta_chain_dequeue_no_callback_spec _ _ _ _ _ _ _ (ready_chain _ _ _ _ _ _ _ _ _ Hready)
    (ready_bound _ _ _ _ _ _ _ _ _ Hready)) as (h' & ds' & d' & Ed & Hr & _ & Hf & Hdf).
  mconv (tm_chain s v x0 g0 H (fun h ds d => delta_chain_dequeue_no_callback h ds d n)
    (enabled_vcpu (with_deltas x ds1)) g1 h' ds' d' Ed).
  mconv (tm_upd_timer s v x0 g0 H n t (fun t => t <| tm_armed := false |>)
    (with_chain (enabled_vcpu (with_deltas x ds1)) h' ds' d') g1 Et).
  eexists _, g1, _. split; [reflexivity|]. split; [|split; [|by destruct x]].
  - assert (with_chain (enabled_vcpu (with_deltas x ds1)) h' ds' d' = with_chain (enabled_vcpu x) h' ds' d') as ->
      by (by destruct x).
    apply (disarm_rep x g ps1 n y ps2 ds1 y1); [exact Hv|exact Hready|by destruct t|exact Hr|apply Hf|].
    intros m Hm. apply (ready_dom _ _ _ _ _ _ _ _ _ Hready) in Hm. destruct (decide (m ∈ ps2.*1)) as [Hm2|Hm2].
    + assert (m ∈ (ps1 ++ delta_give y1 ps2).*1) as Hk.
      { rewrite fmap_app, elem_of_app. right. by destruct ps2 as [|[]]. }
      apply list_elem_of_fmap in Hk as ([k z] & -> & Hk).
      by destruct (proj1 (list.Forall_forall _ _) (dc_delta _ _ _ _ Hr) _ Hk) as [-> _].
    + by rewrite Hdf.
  - apply (clock_left _ _ _ (ready_clock _ _ _ _ _ _ _ _ _ Hready)).
Qed.
End Disarm.
