(* ===== verification/Vcreation.v ===== *)
(** * Vcreation: a new partition is isolated

    The specification of vcreate_partition (vcalls.c with vcreate.c): which id
    the partition gets, whom it can reach and who can reach it when its vcpus
    are about to be queued. *)

From S2P Require Import Prelude Std Bmp Dq DeltaChain SchedDsa Twan VschedDsa Vpartition Vutils.
From S2P Require Import Vrecovery Vsched Vemu Vcreate Vcalls.
From coqutil Require Import Datatypes.RecordSetters.
From Stdlib Require Import ZArith Lia Bool.
From stdpp Require Import base gmap list numbers sets.

Local Open Scope Z_scope.

(** An id in the pool names no partition. *)
Record ids_ok (s : hv) : Prop := {
  ids_wf : bmp256_wf (h_vids s);
  ids_free : ∀ i, 0 <= i < 256 → bmp256_bit (h_vids s) i = true → h_table s !! i = None;
}.

(** [s] with the id [new_vid] taken from the pool, and with the entry of the table. *)
Definition vid_taken (s : hv) (new_vid : Z) : hv := s <| h_vids := bmp256_unset (h_vids s) new_vid |>.
Definition placed (s : hv) (new_vid p : Z) : hv := s <| h_table ::= <[new_vid := p]> |>.

Lemma id_alloc_run s : LVids ∉ h_locks s →
  vpartition_id_alloc s = Ok (bmp256_ffs (h_vids s),
    if bmp256_ffs (h_vids s) =? -1 then s
    else vid_taken s (bmp256_ffs (h_vids s))).
Proof.
  intros Hl. unfold vpartition_id_alloc. apply with_vlock_run; [done| |by destruct (_ =? _)].
  unfold __vpartition_id_alloc. destruct s. cbn. by destruct (_ =? _).
Qed.

Lemma place_run s p vid : LEntry vid ∉ h_locks s →
  vpartition_place p vid s = Ok (tt, placed s vid p).
Proof. intros Hl. unfold vpartition_place. by apply with_vlock_run. Qed.

(** No route of a set without members. *)
Lemma ffs_empty b i : bmp256_wf b → bmp256_ffs b = -1 → 0 <= i < 256 → bmp256_test b i = false.
Proof.
  intros Hb E Hi. pose proof (bmp256_ffs_spec b Hb) as H. rewrite bmp256_test_bit.
  destruct H as [[_ H]|[H _]]; [by apply H|lia].
Qed.

Section Routes.
Context (s s1 : hv) (new_vid p : Z) (part pn : vpartition).
Hypothesis Hok : routes_ok s.
Hypothesis Hpart : h_parts s !! p = Some part.
Hypothesis Hfresh : ∀ a, h_table s !! a ≠ Some p.
Hypothesis Hfree : h_table s !! new_vid = None.
Hypothesis Htable : h_table s1 = <[new_vid := p]> (h_table s).
Hypothesis Hparts : h_parts s1 = <[p := pn]> (h_parts s).
Hypothesis Hroot : 0 <= h_root_vid s < 256.
Hypothesis Hsenders : ∀ ty, senders ty pn = bmp256_set (senders ty part) (h_root_vid s).
Hypothesis Hreceivers : ∀ ty, receivers ty pn = receivers ty part.
Hypothesis Hempty : ∀ ty, bmp256_ffs (senders ty part) = -1 ∧ bmp256_ffs (receivers ty part) = -1.

Lemma created_ok : routes_ok s1.
Proof.
  destruct Hok as [Ht Hi Hw]. split.
  - intros a q. rewrite Htable, Hparts. rewrite lookup_insert_Some. intros [[<- <-]|[Hne E]].
    + rewrite lookup_insert_eq. by eexists.
    + rewrite lookup_insert_ne by (intros ->; by apply (Hfresh a)). by apply (Ht a).
  - intros a b q. rewrite Htable, !lookup_insert_Some.
    intros [[<- <-]|[Ha Ea]] [[<- Eq]|[Hb Eb]]; [done| | |by apply (Hi a b q)]; exfalso.
    + by apply (Hfresh b).
    + subst q. by apply (Hfresh a).
  - intros q y ty. rewrite Hparts, lookup_insert_Some. intros [[<- <-]|[Hne E]]; [|by apply (Hw q)].
    rewrite Hsenders, Hreceivers. destruct (Hw _ _ ty Hpart). split; [|done]. by apply bmp256_set_wf.
Qed.

Lemma created_accepts ty a b : 0 <= b < 256 →
  accepts s1 ty a b = if a =? new_vid then b =? h_root_vid s else accepts s ty a b.
Proof.
  intros Hb. unfold accepts. rewrite Htable, Hparts. destruct (Z.eqb_spec a new_vid) as [->|Hne].
  - rewrite !lookup_insert_eq, Hsenders. destruct (ro_wf _ Hok _ _ ty Hpart) as [Hw _].
    pose proof (ffs_empty _ b Hw (proj1 (Hempty ty)) Hb) as Hf. rewrite bmp256_test_bit in Hf |- *.
    rewrite bmp256_set_bit by done. rewrite Hf, orb_false_r. apply Z.eqb_sym.
  - rewrite lookup_insert_ne by done. destruct (h_table s !! a) as [q|] eqn:E; [|done].
    rewrite lookup_insert_ne; [done|]. intros ->. by apply (Hfresh a).
Qed.

Lemma created_sends ty a b : 0 <= b < 256 →
  sends s1 ty a b = if a =? new_vid then false else sends s ty a b.
Proof.
  intros Hb. unfold sends. rewrite Htable, Hparts. destruct (Z.eqb_spec a new_vid) as [->|Hne].
  - rewrite !lookup_insert_eq, Hreceivers. destruct (ro_wf _ Hok _ _ ty Hpart) as [_ Hw].
    by apply (ffs_empty _ b Hw (proj2 (Hempty ty))).
  - rewrite lookup_insert_ne by done. destruct (h_table s !! a) as [q|] eqn:E; [|done].
    rewrite lookup_insert_ne; [done|]. intros ->. by apply (Hfresh a).
Qed.
End Routes.

(** What holds of a vcpu of the partition before it is queued for the first
    time. *)
Record vcpu_isolated (x : vcpu) (new_vid pid : Z) : Prop := {
  vi_state : state (metadata x) = VINITIALIZING;
  vi_vid : vid x = new_vid;
  vi_id : processor_id x = pid;
  vi_alive : terminate (metadata x) = false;
  vi_criticality : criticality (metadata x) <= VSCHED_MAX_CRITICALITY;
  vi_quiet : delivery x = Delivery 0 false 0 false false ∧ pending_external_interrupts x = bmp_empty;
  vi_unsubscribed : bmp256_ffs (subscribed_vectors x) = -1;
}.

Section Create.
Context (resume : vptr → M hv unit).
Context (conf : vptr → vcpu_conf) (pconf : Z → vpartition_conf).
Context (support : Z → vper_cpu_arch_support_t) (root_num_vcpus : Z).
Context (entry_rip : Z) (vexit_stack : vptr → Z) (reset_fp : Z → Z).
Abbreviation precheck := (vpartition_precheck conf pconf support root_num_vcpus).
Abbreviation create := (vcreate_partition resume conf pconf support root_num_vcpus entry_rip vexit_stack reset_fp).

(** The state [s1] in which the vcpus of the partition at [p] are queued. *)
Record created (s s1 : hv) (p new_vid : Z) (part : vpartition) : Prop := {
  cr_vid : 0 <= new_vid < 256;
  cr_fresh : h_table s !! new_vid = None;
  cr_table : h_table s1 = <[new_vid := p]> (h_table s);
  cr_part : ∃ q, h_parts s1 !! p = Some q ∧ vcpus q = vcpus part ∧ vcpu_count q = vcpu_count part;
  cr_rest : h_root_vid s1 = h_root_vid s ∧ h_locks s1 = h_locks s ∧ h_readers s1 = h_readers s ∧
    h_writer s1 = h_writer s;
  cr_routes : routes_ok s1;
  cr_ids : ids_ok s1;
  cr_accepts ty a b : 0 <= b < 256 →
    accepts s1 ty a b = if a =? new_vid then b =? h_root_vid s else accepts s ty a b;
  cr_sends ty a b : 0 <= b < 256 → sends s1 ty a b = if a =? new_vid then false else sends s ty a b;
  cr_vcpus j : 0 <= j < vcpu_count part →
    ∃ y, h_vcpus s1 !! VOf (vcpus part) j = Some y ∧ vcpu_isolated y new_vid j;
}.

(** Initialising and placing the partition under a free id. *)
Lemma setup_created s p part :
  routes_ok s → ids_ok s → h_locks s = [] → 0 <= h_root_vid s < 256 → (∀ a, h_table s !! a ≠ Some p) →
  h_parts s !! p = Some part → partition_sound conf pconf support root_num_vcpus s p part →
  bmp256_ffs (h_vids s) ≠ -1 →
  let new_vid := bmp256_ffs (h_vids s) in
  ∃ s1, (vpartition_setup entry_rip vexit_stack reset_fp p new_vid ;;; vpartition_push conf p)
      (vid_taken s new_vid) = push_vcpus conf p s1 ∧
    created s s1 p new_vid part.
Proof.
  intros Hok Hids Hl Hroot Hfresh Ep Hps Hffs new_vid.
  pose proof (bmp256_ffs_spec _ (ids_wf _ Hids)) as [[E _]|(Hr & Hbit & _)]; [done|]. fold new_vid in Hr, Hbit.
  pose proof (ids_free _ Hids _ Hr Hbit) as Hfree.
  destruct (vpartition_setup_run entry_rip vexit_stack reset_fp
    (vid_taken s new_vid) p part new_vid Ep)
    as (s' & E & Hs & Hnew & _).
  { intros j Hj. destruct (ps_vcpus _ _ _ _ _ _ _ Hps j Hj) as (y & Ey & _). by exists y. }
  destruct Hs as (_ & _ & _ & Hparts & Htable & Hrv & Hvids & Hlocks & Hrd & Hwr & _).
  exists (placed s' new_vid p). split.
  - mstep E. unfold vpartition_push. assert (h_parts s' !! p = Some (partition_new s new_vid part)) as Ep'
      by (rewrite Hparts; apply lookup_insert_eq).
    mstep (get_part_run _ _ _ Ep'). change (p_vid (partition_new s new_vid part)) with new_vid.
    assert (LEntry new_vid ∉ h_locks s') as Hn. { rewrite Hlocks.
      change (LEntry new_vid ∉ h_locks s). rewrite Hl. apply not_elem_of_nil. }
    by mstep (place_run s' p new_vid Hn).
  - set (s1 := placed s' new_vid p).
    assert (h_table s1 = <[new_vid := p]> (h_table s)) as Ht 
      by (change (h_table s1) with (<[new_vid := p]> (h_table s')); by rewrite Htable).
    assert (h_parts s1 = <[p := partition_new s new_vid part]> (h_parts s)) as Hp by exact Hparts.
    assert (∀ ty, senders ty (partition_new s new_vid part) = bmp256_set (senders ty part) (h_root_vid s)) as Hse
      by (by intros []).
    assert (∀ ty, receivers ty (partition_new s new_vid part) = receivers ty part) as Hre by (by intros []).
    pose proof (ps_routes _ _ _ _ _ _ _ Hps) as Hempty. split; try done.
    + exists (partition_new s new_vid part). rewrite Hp. split; [apply lookup_insert_eq|done].
    + by eapply (created_ok s s1 new_vid p part).
    + assert (h_vids s1 = bmp256_unset (h_vids s) new_vid) as Hv by exact Hvids. split.
      * rewrite Hv. apply bmp256_unset_wf, Hids.
      * intros i Hi. rewrite Hv, bmp256_unset_bit by (done || apply Hids). rewrite Ht.
        destruct (Z.eqb_spec new_vid i) as [->|Hne]; [done|]. intros Hb.
        rewrite lookup_insert_ne by done. by apply Hids.
    + intros ty a b. by apply (created_accepts s s1 new_vid p part (partition_new s new_vid part)).
    + intros ty a b. by apply (created_sends s s1 new_vid p part (partition_new s new_vid part)).
    + intros j Hj. destruct (ps_vcpus _ _ _ _ _ _ _ Hps j Hj) as (y & Ey & Hvs).
      eexists. split; [exact (Hnew j y Hj Ey)|]. destruct Hvs, y as [? []]. by split.
Qed.

(** The call up to the checks. *)
Lemma create_reaches_checks s v x g r :
  calling s v x g → root x = true →
  create r s = (err <~ precheck (vcall_arg1_64 r) ;;
    if err <? 0 then ret err else vid <~ vpartition_id_alloc ;;
    if vid <? 0 then ret (- ENOSPC) else
    vpartition_setup entry_rip vexit_stack reset_fp (vcall_arg1_64 r) vid ;;;
    vpartition_push conf (vcall_arg1_64 r) ;;; ret vid) (enabled s v x).
Proof.
  intros [Hr Ex Hc _ _] Hroot. set (s0 := enabled s v x).
  unfold vcreate_partition. mstep (enable_run resume s v x Hr Ex Hc). fold s0.
  mstep (current_run s0 v Hr). assert (∃ y, h_vcpus s0 !! v = Some y ∧ root y = true) as (y & Ey & Hy).
  { eexists. split; [apply lookup_insert_eq|by destruct x]. }
  mstep (get_vcpu_run s0 v y Ey). by rewrite Hy.
Qed.

(** What the checks accept, from the choice of the id on. *)
Lemma accepted_created s0 p part :
  routes_ok s0 → ids_ok s0 → h_locks s0 = [] → 0 <= h_root_vid s0 < 256 → (∀ a, h_table s0 !! a ≠ Some p) →
  h_parts s0 !! p = Some part → partition_sound conf pconf support root_num_vcpus s0 p part →
  let rest := (vid <~ vpartition_id_alloc ;;
    if vid <? 0 then ret (- ENOSPC) else
    vpartition_setup entry_rip vexit_stack reset_fp p vid ;;; vpartition_push conf p ;;; ret vid) s0 in
  (bmp256_ffs (h_vids s0) = -1 → rest = Ok (- ENOSPC, s0)) ∧
  (bmp256_ffs (h_vids s0) ≠ -1 → ∃ new_vid s1,
     rest = (push_vcpus conf p ;;; ret new_vid) s1 ∧ created s0 s1 p new_vid part).
Proof.
  intros Hok Hids Hl Hrv Hfresh Ep Hps rest. unfold rest.
  assert (LVids ∉ h_locks s0) as Hlv by (rewrite Hl; apply not_elem_of_nil).
  mstep (id_alloc_run s0 Hlv). split; intros Hffs; [by rewrite Hffs|].
  pose proof (bmp256_ffs_spec _ (ids_wf _ Hids)) as [[Hx _]|(Hvr & _)]; [done|].
  destruct (setup_created s0 p part Hok Hids Hl Hrv Hfresh Ep Hps Hffs) as (s1 & E1 & Hcreated).
  rewrite (proj2 (Z.eqb_neq _ _) Hffs), (proj2 (Z.ltb_ge _ _)) by lia.
  exists (bmp256_ffs (h_vids s0)), s1. split; [|exact Hcreated].
  unfold bind in E1 |- *. by destruct (vpartition_setup _ _ _ _ _ _) as [[[] s2]|]; [rewrite E1|rewrite <- E1].
Qed.

(** C6.  A new partition is isolated: the root's call gives it an id that
    nobody has, and when its vcpus are about to be queued it accepts requests
    from the root only, may send to nobody, and its vcpus have nothing pending
    and no subscriptions; the routes of the others are as before, and ids and
    routes stay consistent.  A partition that fails the checks, or for which
    no id is left, is refused and nothing changes. *)
Theorem vcreate_partition_isolates s v x g r p :
  calling s v x g → root x = true → routes_ok s → ids_ok s → h_locks s = [] → 0 <= h_root_vid s < 256 →
  p = vcall_arg1_64 r → (∀ a, h_table s !! a ≠ Some p) →
  (∀ err, err < 0 → precheck p (enabled s v x) = Ok (err, enabled s v x) →
     create r s = Ok (err, enabled s v x)) ∧
  (precheck p (enabled s v x) = Ok (0, enabled s v x) →
     (bmp256_ffs (h_vids s) = -1 → create r s = Ok (- ENOSPC, enabled s v x)) ∧
     (bmp256_ffs (h_vids s) ≠ -1 → ∃ new_vid part s1,
        create r s = (push_vcpus conf p ;;; ret new_vid) s1 ∧ h_parts s !! p = Some part ∧
        created s s1 p new_vid part)).
Proof.
  intros H Hroot Hok Hids Hl Hrv -> Hfresh. rewrite (create_reaches_checks s v x g r H Hroot).
  set (s0 := enabled s v x). set (p := vcall_arg1_64 r). split.
  - intros err Herr E. mstep E. by rewrite (proj2 (Z.ltb_lt _ _) Herr).
  - intros E. mstep E. change (0 <? 0) with false. cbv iota.
    apply vpartition_precheck_sound in E as (_ & _ & part & Ep & Hps).
    assert (routes_ok s0) as Hok0 by (destruct Hok; by split).
    assert (ids_ok s0) as Hids0 by (destruct Hids; by split).
    destruct (accepted_created s0 p part Hok0 Hids0 Hl Hrv Hfresh Ep Hps) as [Hno Hyes].
    split; [exact Hno|]. intros Hffs. destruct (Hyes Hffs) as (new_vid & s1 & E1 & Hc).
    exists new_vid, part, s1. split; [exact E1|]. split; [exact Ep|by destruct Hc; split].
Qed.
End Create.
