(* ===== verification/Vframe.v ===== *)
(** * Vframe: what an operation leaves alone

    A computation stays within a relation on states if every execution of it
    that returns does.  The rules follow the structure of a computation; the
    hints of [frame] know the operations on the state and the run queues, so
    that [frame] proves what a whole routine leaves alone. *)

From S2P Require Import Prelude Std Bmp Dq DeltaChain SchedDsa Twan VschedDsa Vpartition Vutils.
From S2P Require Import Vrecovery Vsched Vemu Vcreate Vcalls Vcreation.
From coqutil Require Import Datatypes.RecordSetters.
From Stdlib Require Import ZArith Lia Bool.
From stdpp Require Import base gmap list numbers sets.

Local Open Scope Z_scope.

Definition stays {S A} (R : S → S → Prop) (m : M S A) : Prop := ∀ s a s', m s = Ok (a, s') → R s s'.

Create HintDb frame.

Section Stays.
Context {S : Type} (R : S → S → Prop) `{!PreOrder R}.

Lemma stays_ret {A} (a : A) : stays R (ret a).
Proof. intros s b s' [= _ <-]. reflexivity. Qed.
Lemma stays_fault {A} f : stays R (mfault (A:=A) f).
Proof. by intros s b s'. Qed.
Lemma stays_mgets {A} (f : S → A) : stays R (mgets f).
Proof. intros s b s' [= _ <-]. reflexivity. Qed.
Lemma stays_mget : stays R mget.
Proof. intros s b s' [= _ <-]. reflexivity. Qed.
Lemma stays_massert b : stays R (massert b).
Proof. intros s [] s'. unfold massert. destruct b; [|done]. intros [= <-]. reflexivity. Qed.
Lemma stays_not_null {A} (o : option A) : stays R (not_null o).
Proof. destruct o; [apply stays_ret|apply stays_fault]. Qed.
Lemma stays_lift {A} (r : res A) : stays R (lift r).
Proof. intros s b s'. unfold lift. destruct r; simpl; [intros [= _ <-]; reflexivity|done]. Qed.
Lemma stays_mmodify f : (∀ s, R s (f s)) → stays R (mmodify f).
Proof. intros H s [] s' [= <-]. apply H. Qed.
Lemma stays_bind {A B} (m : M S A) (k : A → M S B) : stays R m → (∀ a, stays R (k a)) → stays R (bind m k).
Proof.
  intros Hm Hk s b s' H. apply bind_inv in H as (a & s1 & E1 & E2).
  transitivity s1; [by eapply Hm|by eapply Hk].
Qed.
Lemma stays_mfrom n body : (∀ i, stays R (body i)) → ∀ i, stays R (mfrom n i body).
Proof. intros H. induction n as [|n IH]; intros i; cbn [mfrom]; [apply stays_ret|by apply stays_bind]. Qed.
End Stays.

#[export] Hint Resolve stays_ret stays_fault stays_mgets stays_mget stays_massert stays_not_null stays_lift : frame.
#[export] Hint Unfold vthis_vprocessor_id vnum_cpus : frame.

(** Goes through a computation; what is left are the state changes that no hint
    covers. *)
Ltac frame :=
  repeat first
    [ progress (intros; cbv beta zeta)
    | solve [eauto with frame typeclass_instances]
    | apply stays_bind; [typeclasses eauto|..]
    | apply stays_mfrom; [typeclasses eauto|..]
    | match goal with
      | |- stays _ (match ?x with _ => _ end) => destruct x
      | |- stays _ (if ?c then _ else _) => destruct c
      | |- stays _ (let '(_, _) := ?x in _) => destruct x
      end ].

(** ** Reading *)

Lemma reads_get_part R `{!PreOrder R} p : stays R (get_part p).
Proof. intros s a s'. unfold get_part. destruct (_ !! _); [|done]. intros [= _ <-]. reflexivity. Qed.
Lemma reads_get_vcpu R `{!PreOrder R} v : stays R (get_vcpu v).
Proof. intros s a s'. unfold get_vcpu. destruct (_ !! _); [|done]. intros [= _ <-]. reflexivity. Qed.
Lemma reads_get_cpu R `{!PreOrder R} c : stays R (get_cpu c).
Proof. intros s a s'. unfold get_cpu. destruct (_ !! _); [|done]. intros [= _ <-]. reflexivity. Qed.
#[export] Hint Resolve reads_get_part reads_get_vcpu reads_get_cpu : frame.

Lemma vcpu_precheck_reads conf support v : stays eq (vcpu_precheck conf support v).
Proof. unfold vcpu_precheck, vnum_cpus. frame. Qed.
#[export] Hint Resolve vcpu_precheck_reads : frame.

Lemma precheck_vcpus_reads conf support n : ∀ i base, stays eq (precheck_vcpus conf support n i base).
Proof. induction n as [|n IH]; intros i base; cbn [precheck_vcpus]; frame. Qed.
Lemma precheck_perms_reads n : ∀ i perms, stays (S:=hv) eq (precheck_perms n i perms).
Proof. induction n as [|n IH]; intros i perms; cbn [precheck_perms]; frame. Qed.
#[export] Hint Resolve precheck_vcpus_reads precheck_perms_reads : frame.

(** The checks of a description read only. *)
Lemma vpartition_precheck_reads conf pconf support n p : stays eq (vpartition_precheck conf pconf support n p).
Proof. unfold vpartition_precheck. frame. Qed.

(** ** Routes *)

Definition alive (s : hv) (v : vptr) : Prop :=
  ∃ x, h_vcpus s !! v = Some x ∧ terminate (metadata x) = false.

(** The table, the maps of routes, the ids and the locks are the same. *)
Record same_routes (s s' : hv) : Prop := {
  sm_table : h_table s' = h_table s;
  sm_parts : h_parts s' = h_parts s;
  sm_root : h_root_vid s' = h_root_vid s;
  sm_vids : h_vids s' = h_vids s;
  sm_locks : h_locks s' = h_locks s ∧ h_readers s' = h_readers s ∧ h_writer s' = h_writer s;
}.
(** And no vcpu is told to stop. *)
Record queues_only (s s' : hv) : Prop := {
  qo_routes : same_routes s s';
  qo_alive : ∀ v, alive s v → alive s' v;
}.
#[export] Instance same_routes_preorder : PreOrder same_routes.
Proof.
  split; [by split|]. intros s1 s2 s3 [] []. split; try congruence. destruct_and!. split_and!; congruence.
Qed.
#[export] Instance queues_only_preorder : PreOrder queues_only.
Proof. split; [by split|]. intros s1 s2 s3 [] []. split; [by transitivity s2|auto]. Qed.

Lemma queues_only_vcpus s f v x :
  h_vcpus s !! v = Some x → terminate (metadata (f x)) = terminate (metadata x) →
  queues_only s (s <| h_vcpus ::= <[v := f x]> |>).
Proof.
  intros Ex Hf. split; [by split|]. intros w (y & Ey & Hy).
  change (∃ z, <[v := f x]> (h_vcpus s) !! w = Some z ∧ terminate (metadata z) = false).
  destruct (decide (w = v)) as [->|]; [|rewrite lookup_insert_ne by done; by exists y].
  rewrite lookup_insert_eq. exists (f x). split; [done|]. congruence.
Qed.

Lemma stays_upd_vcpu v f :
  (∀ x, terminate (metadata (f x)) = terminate (metadata x)) → stays queues_only (upd_vcpu v f).
Proof.
  intros Hf s [] s'. unfold upd_vcpu, get_vcpu, bind. destruct (h_vcpus s !! v) as [x|] eqn:Ex; [|done].
  intros [= <-]. by apply queues_only_vcpus.
Qed.
Lemma stays_upd_cpu c f : stays queues_only (upd_cpu c f).
Proof.
  intros s [] s'. unfold upd_cpu, get_cpu, bind. destruct (_ !! _); [|done]. intros [= <-]. by split; [split|].
Qed.
Lemma stays_nodes h : stays queues_only (mmodify (fun s => s <| h_nodes := h |>)).
Proof. apply stays_mmodify. by split; [split|]. Qed.
#[export] Hint Resolve stays_upd_cpu stays_nodes : frame.
#[export] Hint Extern 2 (stays queues_only (upd_vcpu _ _)) => apply stays_upd_vcpu; reflexivity : frame.

Lemma on_vqueue_stays {B} c i (f : _ → _ → res (B * _ * _)) : stays queues_only (on_vqueue c i f).
Proof. unfold on_vqueue, get_vsched, vqueue, upd_vsched. frame. Qed.
Lemma on_paused_stays {B} c (f : _ → _ → res (B * _ * _)) : stays queues_only (on_paused c f).
Proof. unfold on_paused, get_vsched, upd_vsched. frame. Qed.
Lemma vscheduler_of_stays R `{!PreOrder R} v : stays R (vscheduler_of v).
Proof. unfold vscheduler_of. frame. Qed.
#[export] Hint Resolve on_vqueue_stays on_paused_stays vscheduler_of_stays : frame.

Lemma __vsched_put_stays v : stays queues_only (__vsched_put v false).
Proof. unfold __vsched_put, set_state, __vsched_push, upd_vsched. frame. Qed.
Lemma __vsched_put_paused_stays v : stays queues_only (__vsched_put_paused v false false).
Proof. unfold __vsched_put_paused, set_state, __vsched_push_paused. frame. Qed.

(** A lock that is taken, a body, and the lock given back. *)
Lemma locked_stays {B} l (m : M hv B) s b s' :
  stays queues_only m →
  (vmcs_lock_isr_save l ;;; r <~ m ;; vmcs_unlock_isr_restore l ;;; ret r) s = Ok (b, s') →
  queues_only s s'.
Proof.
  intros Hm H. apply bind_inv in H as ([] & s1 & E1 & H). unfold vmcs_lock_isr_save in E1.
  case_bool_decide as Hl; [done|]. injection E1 as <-.
  apply bind_inv in H as (r & s2 & E2 & H). apply Hm in E2 as [[? ? ? ? (L & ? & ?)] Ha].
  apply bind_inv in H as ([] & s3 & E3 & H). injection H as _ <-. unfold vmcs_unlock_isr_restore in E3.
  case_bool_decide as Hl2; [|done]. injection E3 as <-. split; [|done]. split; try done.
  split; [|done]. change (filter (λ l', l' ≠ l) (h_locks s2) = h_locks s). rewrite L.
  change (filter (λ l', l' ≠ l) (l :: h_locks s) = h_locks s). by apply filter_out_cons.
Qed.

Lemma lock_vcpus l s u s' : vmcs_lock_isr_save l s = Ok (u, s') → h_vcpus s' = h_vcpus s.
Proof. unfold vmcs_lock_isr_save. case_bool_decide; [done|]. by intros [= _ <-]. Qed.

(** Queueing a vcpu that is not told to stop. *)
Lemma vsched_put_stays v s u s' : alive s v → vsched_put v false s = Ok (u, s') → queues_only s s'.
Proof.
  intros (x & Ex & Hx) H. unfold vsched_put in H. apply bind_inv in H as (c & s1 & E1 & H).
  unfold vscheduler_of, get_vcpu, bind, ret in E1. rewrite Ex in E1. injection E1 as _ <-.
  apply (locked_stays (LSched c) (__vsched_put v false) s u s'); [apply __vsched_put_stays|].
  apply bind_inv in H as ([] & s1 & E1 & H). mstep E1.
  rewrite <- (lock_vcpus _ _ _ _ E1) in Ex. rewrite (bind_ok _ _ _ _ _ (get_vcpu_run s1 v x Ex)) in H.
  cbv beta in H. rewrite Hx in H. apply bind_inv in H as ([] & s2 & E3 & H). mstep E3. destruct u. by mstep H.
Qed.
Lemma vsched_put_paused_stays v s b s' : alive s v → vsched_put_paused v false false s = Ok (b, s') → queues_only s s'.
Proof.
  intros (x & Ex & Hx) H. unfold vsched_put_paused in H. apply bind_inv in H as (c & s1 & E1 & H).
  unfold vscheduler_of, get_vcpu, bind, ret in E1. rewrite Ex in E1. injection E1 as _ <-.
  apply (locked_stays (LSched c) (__vsched_put_paused v false false ;;; ret true) s b s').
  { apply stays_bind; [typeclasses eauto|apply __vsched_put_paused_stays|]. frame. }
  apply bind_inv in H as ([] & s1 & E1 & H). mstep E1.
  rewrite <- (lock_vcpus _ _ _ _ E1) in Ex. rewrite (bind_ok _ _ _ _ _ (get_vcpu_run s1 v x Ex)) in H.
  cbv beta in H. rewrite Hx in H. exact H.
Qed.

(** The vcpus of a new partition are queued. *)
Lemma push_vcpus_stays conf p part s u s' :
  h_parts s !! p = Some part → (∀ j, 0 <= j < vcpu_count part → alive s (VOf (vcpus part) j)) →
  push_vcpus conf p s = Ok (u, s') → queues_only s s'.
Proof.
  intros Ep Ha H. unfold push_vcpus in H. apply bind_inv in H as (q & s1 & E1 & H).
  unfold get_part in E1. rewrite Ep in E1. injection E1 as <- <-.
  assert (∀ n i s u s', 0 <= i → (∀ j, i <= j < i + Z.of_nat n → alive s (VOf (vcpus part) j)) →
    mfrom n i (fun i => let v := VOf (vcpus part) i in
      match vboot_state (conf v) with
      | VBOOT_READY => vsched_put v false
      | VBOOT_PAUSED => vsched_put_paused v false false ;;; ret tt
      | VBOOT_NONE => massert false end) s = Ok (u, s') → queues_only s s') as Hloop.
  { clear. induction n as [|n IH]; intros i s u s' Hi Ha H; cbn [mfrom] in H.
    - injection H as _ <-. reflexivity.
    - apply bind_inv in H as ([] & s1 & E1 & H). assert (queues_only s s1) as H1.
      { cbv zeta in E1. destruct (vboot_state _); [done| |].
        - eapply vsched_put_stays; [|done]. apply Ha. lia.
        - apply bind_inv in E1 as (b & s2 & E2 & E1). injection E1 as <-.
          eapply vsched_put_paused_stays; [|done]. apply Ha. lia. }
      transitivity s1; [done|]. eapply IH; [|  |exact H]; [lia|].
      intros j Hj. apply (qo_alive _ _ H1), Ha. lia. }
  eapply Hloop; [|  |exact H]; [lia|]. intros j Hj. apply Ha. lia.
Qed.
