(* ===== verification/Vroutes.v ===== *)
(** * Vroutes: who may reach whom, over the life of partitions

    Partitions are created, connected and torn down in any order.  The
    specification keeps the partitions that are alive and what the root
    granted since both ends exist; the maps of routes in the hypervisor
    implement it, in every state that is reached from the start, but for the
    IPI senders a partition accepts: a torn down sender stays in that map, so
    whoever gets its id inherits the permission, and the teardown of the
    partition that accepts it fails its assertion. *)

From S2P Require Import Prelude Std Bmp Dq DeltaChain SchedDsa Twan VschedDsa Vpartition Vutils.
From S2P Require Import Vrecovery Vsched Vemu Vteardown Vcreate Vcalls Vcreation Vframe.
From coqutil Require Import Datatypes.RecordSetters.
From Stdlib Require Import ZArith Lia Bool.
From stdpp Require Import base gmap list numbers sets relations.

Local Open Scope Z_scope.

(** ** The specification *)

(** The partitions, and what is granted from a sender to a target. *)
Record rights := Rights {
  live : gset Z;
  granted : vroute_type_t → Z → Z → bool;
}.

Definition only_root (root : Z) : rights := Rights {[root]} (fun _ _ _ => false).
Definition with_partition (root n : Z) (R : rights) : rights :=
  Rights ({[n]} ∪ live R)
    (fun ty a b => if b =? n then a =? root else if a =? n then false else granted R ty a b).
Definition with_grant (ty : vroute_type_t) (sender target : Z) (allow : bool) (R : rights) : rights :=
  Rights (live R)
    (fun ty' a b => if decide (ty' = ty ∧ a = sender ∧ b = target) then allow else granted R ty' a b).
Definition without_partition (n : Z) (R : rights) : rights :=
  Rights (live R ∖ {[n]}) (fun ty a b => granted R ty a b && negb (a =? n) && negb (b =? n)).

(** What happened, by the calls that were made and what they answered: a
    partition was created with an id; a route of a type, by its number, was set
    or withdrawn; a partition ended. *)
Inductive life_event : Type :=
  | Created (n : Z)
  | Connected (route_type sender target : Z) (allow : bool)
  | Ended (n : Z).

Definition effect (root : Z) (R : rights) (e : life_event) : rights :=
  match e with
  | Created n => with_partition root n R
  | Connected n sender target allow =>
      match vroute_of n with Some ty => with_grant ty sender target allow R | None => R end
  | Ended n => without_partition n R
  end.
(** The rights after all that happened, the first event first. *)
Definition rights_of (root : Z) (es : list life_event) : rights :=
  foldl (effect root) (only_root root) es.

(** What an event decides of a right: it gives it, takes it, or neither.  A new
    partition accepts the root; the end of either partition takes the right. *)
Definition verdict (root : Z) (ty : vroute_type_t) (a b : Z) (e : life_event) : option bool :=
  match e with
  | Created n => if b =? n then Some (a =? root) else if a =? n then Some false else None
  | Connected n sender target allow =>
      if decide (vroute_of n = Some ty ∧ a = sender ∧ b = target) then Some allow else None
  | Ended n => if (a =? n) || (b =? n) then Some false else None
  end.

Lemma effect_verdict root R e ty a b :
  granted (effect root R e) ty a b = default (granted R ty a b) (verdict root ty a b e).
Proof.
  destruct e as [n|n sender target allow|n]; cbn.
  - destruct (b =? n), (a =? n); done.
  - destruct (vroute_of n) as [ty'|]; cbn; repeat case_decide; naive_solver.
  - destruct (granted R ty a b), (a =? n), (b =? n); done.
Qed.

(** A right is held when an event gave it and none took it since. *)
Lemma granted_since root es ty a b :
  granted (rights_of root es) ty a b = true ↔
  ∃ es1 e es2, es = es1 ++ e :: es2 ∧ verdict root ty a b e = Some true ∧
    ∀ e', e' ∈ es2 → verdict root ty a b e' ≠ Some false.
Proof.
  induction es as [|e es IH] using rev_ind; [split; [done|by intros ([|??] & ? & ? & ? & _)]|].
  unfold rights_of. rewrite foldl_snoc, effect_verdict. fold (rights_of root es). split.
  - destruct (verdict root ty a b e) as [[]|] eqn:Ev; cbn; [|done|].
    + intros _. exists es, e, []. split; [done|]. split; [done|]. by intros ? ?%elem_of_nil.
    + intros (es1 & e1 & es2 & -> & He & Hno)%IH. exists es1, e1, (es2 ++ [e]).
      rewrite <- app_assoc. split; [done|]. split; [done|].
      intros e' [?| ->%list_elem_of_singleton]%elem_of_app; [by apply Hno|by rewrite Ev].
  - intros (es1 & e1 & es2 & E & He & Hno). destruct es2 as [|e2 es2 _] using rev_ind.
    + apply app_inj_tail in E as [_ <-]. by rewrite He.
    + rewrite app_comm_cons, app_assoc in E. apply app_inj_tail in E as [-> <-].
      assert (verdict root ty a b e ≠ Some false) by (apply Hno; set_solver).
      destruct (verdict root ty a b e) as [[]|]; [done|done|]. cbn. apply IH.
      exists es1, e1, es2. split; [done|]. split; [done|]. intros e' ?. apply Hno. set_solver.
Qed.

(** The hypervisor's maps say what the rights are. *)
Record implements (root : Z) (R : rights) (s : hv) : Prop := {
  im_live : ∀ i, i ∈ live R ↔ is_Some (h_table s !! i);
  im_accepts : ∀ ty a b, 0 <= a < 256 → 0 <= b < 256 → ty ≠ VIPI_ROUTE →
    accepts s ty b a = granted R ty a b;
  im_sends : ∀ ty a b, 0 <= a < 256 → 0 <= b < 256 → a ≠ root → sends s ty a b = granted R ty a b;
  im_served : ∀ ty a b, 0 <= a < 256 → 0 <= b < 256 → granted R ty a b = true → accepts s ty b a = true;
}.

(** The invariant. *)
Record routes_inv (root : Z) (R : rights) (s : hv) : Prop := {
  ri_ok : routes_ok s;
  ri_ids : ids_ok s;
  ri_unlocked : h_locks s = [] ∧ h_readers s = 0%nat ∧ h_writer s = false;
  ri_root : h_root_vid s = root ∧ root ∈ live R;
  ri_range : ∀ i, i ∈ live R → 0 <= i < 256;
  ri_granted : ∀ ty a b, granted R ty a b = true → a ∈ live R ∧ b ∈ live R ∧ a ≠ b;
  ri_self : ∀ i, 0 <= i < 256 → accepts s VIPI_ROUTE i i = false;
  ri_implements : implements root R s;
}.

Lemma implements_same root R s s' : same_routes s s' → implements root R s → implements root R s'.
Proof.
  intros [Ht Hp _ _ _] [A B C D].
  assert (∀ ty i j, accepts s' ty i j = accepts s ty i j ∧ sends s' ty i j = sends s ty i j) as E
    by (intros; unfold accepts, sends; by rewrite Ht, Hp).
  split; intros.
  - by rewrite Ht.
  - rewrite (proj1 (E _ _ _)). by apply B.
  - rewrite (proj2 (E _ _ _)). by apply C.
  - rewrite (proj1 (E _ _ _)). by apply D.
Qed.

Lemma routes_inv_same root R s s' : same_routes s s' → routes_inv root R s → routes_inv root R s'.
Proof.
  intros Hs [[O1 O2 O3] [I1 I2] (U1 & U2 & U3) [Er Hr] Hra Hg Hself Him].
  pose proof Hs as [Ht Hp Hroot Hv (L1 & L2 & L3)]. split; try done.
  - split; unfold table_ok, table_inj in *; rewrite ?Ht, ?Hp; done.
  - split; rewrite Hv; [done|]. by rewrite Ht.
  - split_and!; congruence.
  - split; [congruence|done].
  - intros i Hi. unfold accepts. rewrite Ht, Hp. by apply Hself.
  - by eapply implements_same.
Qed.

Lemma entry_unlocked s v : h_locks s = [] ∧ h_readers s = 0%nat ∧ h_writer s = false → entry_free s v.
Proof. intros (Hl & _ & Hw). split; [done|]. rewrite Hl. apply not_elem_of_nil. Qed.

(** A partition that is not alive takes no part. *)
Lemma not_granted root R s ty a b : routes_inv root R s → a ∉ live R ∨ b ∉ live R → granted R ty a b = false.
Proof.
  intros H Hn. destruct (granted R ty a b) eqn:E; [|done]. apply (ri_granted _ _ _ H) in E. naive_solver.
Qed.

(** ** Creation *)

Lemma inv_created root R s s1 p n part :
  routes_inv root R s → created s s1 p n part →
  (n ∉ live R) ∧ routes_inv root (with_partition root n R) s1.
Proof.
  intros H [Hv Hfr Ht _ (Hrt & Hl & Hrd & Hw) Hok Hids Ha' Hs _].
  pose proof H as [_ _ (L1 & L2 & L3) [Er Hr] Hra Hg Hself [Il Ia Is Iv]].
  assert (∀ ty a b, 0 <= b < 256 → accepts s1 ty a b = if a =? n then b =? root else accepts s ty a b)
    as Ha by (rewrite <- Er; exact Ha').
  assert (n ∉ live R) as Hn by (rewrite Il, Hfr; by intros []).
  assert (n ≠ root) as Hnr by congruence. split; [exact Hn|].
  assert (∀ ty a b, granted (with_partition root n R) ty a b =
    if b =? n then a =? root else granted R ty a b) as Hgr.
  { intros ty a b. cbn. destruct (b =? n); [done|]. destruct (Z.eqb_spec a n) as [->|]; [|done].
    symmetry. eapply not_granted; [exact H|by left]. }
  split; try done.
  - split_and!; congruence.
  - split; [congruence|]. cbn. set_solver.
  - cbn. intros i. rewrite elem_of_union, elem_of_singleton. naive_solver.
  - intros ty a b. rewrite Hgr. cbn. destruct (Z.eqb_spec b n) as [->|].
    + intros ->%Z.eqb_eq. set_solver.
    + intros E%Hg. set_solver.
  - intros i Hi. rewrite Ha by done. destruct (Z.eqb_spec i n) as [->|]; [by apply Z.eqb_neq|by apply Hself].
  - split.
    + intros i. cbn. rewrite Ht, lookup_insert_is_Some, elem_of_union, elem_of_singleton, Il.
      destruct (decide (n = i)); naive_solver.
    + intros ty a b Hra' Hrb Hty. rewrite Ha, Hgr by done. destruct (b =? n); [done|by apply Ia].
    + intros ty a b Hra' Hrb Hne. rewrite Hs, Hgr by done. destruct (Z.eqb_spec a n) as [->|Han].
      * symmetry. destruct (b =? n); [by apply Z.eqb_neq|]. eapply not_granted; [exact H|by left].
      * rewrite Is by done. destruct (Z.eqb_spec b n) as [->|]; [|done].
        rewrite (proj2 (Z.eqb_neq _ _) Hne). eapply not_granted; [exact H|by right].
    + intros ty a b Hra' Hrb. rewrite Ha, Hgr by done. destruct (b =? n); [done|by apply Iv].
Qed.

(** ** Routes *)

Lemma inv_routed root R s ty sender target sp tp xs xt allow :
  routes_inv root R s → sender ≠ target → 0 <= sender < 256 → 0 <= target < 256 →
  h_table s !! sender = Some sp → h_table s !! target = Some tp →
  h_parts s !! sp = Some xs → h_parts s !! tp = Some xt →
  routes_inv root (with_grant ty sender target allow R) (routed s ty sender target sp tp xs xt allow).
Proof.
  intros H Hne Hrs Hrt Es Et Exs Ext.
  pose proof H as [Hok [I1 I2] Hun [Er Hr] Hra Hg Hself [Il Ia Is Iv]].
  assert (∀ ty' a b, 0 <= b < 256 → accepts (routed s ty sender target sp tp xs xt allow) ty' a b =
    if decide (ty' = ty ∧ a = target ∧ b = sender) then allow else accepts s ty' a b) as Ha
    by (intros; by apply routed_accepts).
  assert (∀ ty' a b, 0 <= b < 256 → sends (routed s ty sender target sp tp xs xt allow) ty' a b =
    if decide (ty' = ty ∧ a = sender ∧ b = target) then allow else sends s ty' a b) as Hs
    by (intros; by apply routed_sends).
  assert (∀ ty' a b, (ty' = ty ∧ b = target ∧ a = sender) ↔ (ty' = ty ∧ a = sender ∧ b = target)) as Hsw
    by naive_solver.
  split; try done.
  - by apply routed_ok.
  - intros ty' a b. cbn. case_decide as Hd; [|by apply Hg]. intros _. destruct Hd as (_ & -> & ->).
    rewrite !Il, Es, Et. by split_and!; [eexists|eexists|].
  - intros i Hi. rewrite Ha, decide_False by (done || naive_solver). by apply Hself.
  - split; [exact Il| | |].
    + intros ty' a b Hra' Hrb Hty. rewrite Ha by done. cbn.
      destruct (decide (ty' = ty ∧ a = sender ∧ b = target)); [by rewrite decide_True by naive_solver|].
      rewrite decide_False by naive_solver. by apply Ia.
    + intros ty' a b Hra' Hrb Hner. rewrite Hs by done. cbn. case_decide; [done|by apply Is].
    + intros ty' a b Hra' Hrb. rewrite Ha by done. cbn.
      destruct (decide (ty' = ty ∧ a = sender ∧ b = target)); [by rewrite decide_True by naive_solver|].
      rewrite decide_False by naive_solver. by apply Iv.
Qed.

Lemma set_route_inv root R s n sender target allow e s' :
  routes_inv root R s → 0 <= sender < 256 → 0 <= target < 256 →
  vemu_set_route target sender n allow s = Ok (e, s') →
  if e =? 0 then routes_inv root (effect root R (Connected n sender target allow)) s' else s' = s.
Proof.
  intros H Hrs Hrt E. cbn [effect]. destruct (vroute_of n) as [ty|] eqn:Hty.
  2: { unfold vemu_set_route in E. rewrite Hty in E. by injection E as <- <-. }
  destruct (decide (sender = target)) as [->|Hne].
  { unfold vemu_set_route in E. rewrite Hty, Z.eqb_refl in E. by injection E as <- <-. }
  pose proof (ri_unlocked _ _ _ H) as Hun.
  destruct (h_table s !! sender) as [sp|] eqn:Es, (h_table s !! target) as [tp|] eqn:Et.
  2-4: rewrite (vemu_set_route_run s n ty) in E by (done || by apply entry_unlocked);
    rewrite Es, ?Et in E; by injection E as <- <-.
  destruct (ro_table _ (ri_ok _ _ _ H) _ _ Es) as [xs Exs]. destruct (ro_table _ (ri_ok _ _ _ H) _ _ Et) as [xt Ext].
  rewrite (vemu_set_route_sets s n ty sender target sp tp xs xt) in E
    by (done || apply H || by apply entry_unlocked).
  injection E as <- <-. by apply inv_routed.
Qed.

(** ** The end of a partition *)

Lemma notify_root_inv s root_vid pid vec nmi u s' :
  h_locks s = [] ∧ h_readers s = 0%nat ∧ h_writer s = false → table_ok s →
  notify_root root_vid pid vec nmi s = Ok (u, s') → same_routes s s'.
Proof.
  intros Hun Hok E. pose proof (entry_unlocked s root_vid Hun) as Hf. destruct Hun as (Hl & Hr & Hw).
  pose proof (vpartition_get_run s root_vid Hf) as E1.
  destruct (h_table s !! root_vid) as [rp|] eqn:Et; cbv beta iota in E1.
  2: { unfold notify_root in E. rewrite (bind_ok _ _ _ _ _ E1) in E. done. }
  destruct (Hok _ _ Et) as [r Er]. destruct (decide (pid < vcpu_count r)) as [Hpid|Hpid].
  2: { unfold notify_root in E. rewrite (bind_ok _ _ _ _ _ E1) in E. cbn [is_some] in E.
       unfold massert at 1, bind at 1 in E. unfold not_null, ret at 1, bind at 1 in E.
       rewrite (bind_ok _ _ _ _ _ (get_part_run (entry_taken root_vid s) rp r Er)) in E.
       by rewrite (proj2 (Z.ltb_ge _ _)) in E by lia. }
  destruct (h_vcpus s !! vcpu_of r pid) as [y|] eqn:Ey.
  - rewrite (notify_root_run s root_vid rp r y) in E by done. injection E as _ <-. by split.
  - unfold notify_root in E. rewrite (bind_ok _ _ _ _ _ E1) in E. cbn [is_some] in E.
    unfold massert at 1, bind at 1 in E. unfold not_null, ret at 1, bind at 1 in E.
    rewrite (bind_ok _ _ _ _ _ (get_part_run (entry_taken root_vid s) rp r Er)) in E.
    rewrite (proj2 (Z.ltb_lt _ _) Hpid) in E. unfold massert at 1, bind at 1 in E.
    apply bind_inv in E as (a & s1 & E & _).
    unfold __vemu_inject_external_interrupt, vscheduler_of, get_vcpu, bind in E.
    change (h_vcpus (entry_taken root_vid s)) with (h_vcpus s) in E. by rewrite Ey in E.
Qed.

(** Unwinding the IPI senders meets one that is gone. *)
Lemma unwind_stale vid p b fuel : ∀ s x u s',
  routes_ok s → h_table s !! vid = Some p → h_parts s !! p = Some x → 0 <= vid < 256 → 0 <= b < 256 →
  accepts s VIPI_ROUTE vid vid = false → accepts s VIPI_ROUTE vid b = true → h_table s !! b = None →
  unwind fuel vid p (senders VIPI_ROUTE) (upd_senders VIPI_ROUTE) (upd_receivers VIPI_ROUTE) s ≠ Ok (u, s').
Proof.
  induction fuel as [|fuel IH]; intros s x u s' Hok Et Ex Hv Hb Hself Hacc Hgone; [done|].
  cbn [unwind]. mstep (get_part_run _ _ _ Ex). cbv zeta.
  assert (bmp256_wf (senders VIPI_ROUTE x)) as Hwf by (by eapply ro_wf).
  assert (∀ j, accepts s VIPI_ROUTE vid j = bmp256_bit (senders VIPI_ROUTE x) j) as Ha.
  { intros j. unfold accepts. rewrite Et, Ex. apply bmp256_test_bit. }
  destruct (bmp256_fls_spec _ Hwf) as [[_ Hnone]|(Hr & Hbit & _)]; [by rewrite Ha, Hnone in Hacc|].
  set (r := bmp256_fls (senders VIPI_ROUTE x)) in *. rewrite (proj2 (Z.eqb_neq r (-1))) by lia.
  rewrite <- Ha in Hbit. assert (r ≠ vid) as Hne by congruence.
  unfold vpartition_get_exclusive, mgets, bind at 1.
  destruct (h_table s !! r) as [q|] eqn:Eq; [|done]. cbn [is_some].
  unfold massert at 1, bind at 1. unfold not_null, ret at 1, bind at 1.
  destruct (ro_table _ Hok _ _ Eq) as [y Ey].
  assert (q ≠ p) as Hqp by (intros ->; apply Hne; by eapply (ro_inj _ Hok)).
  set (s1 := routed s VIPI_ROUTE r vid q p y x false).
  destruct (accepts_removed VIPI_ROUTE s s1 r vid q p y x eq_refl Hok Hne Hr Hv Eq Et Ey Ex)
    as (Hok1 & Hs1 & Hrel).
  pose (m1 := s <| h_parts ::= <[q := upd_receivers VIPI_ROUTE (fun b => bmp256_unset b vid) y]> |>).
  assert (upd_part q (upd_receivers VIPI_ROUTE (fun b => bmp256_unset b vid)) s = Ok (tt, m1)) as E1
    by (by rewrite (upd_part_run _ _ y)).
  assert (upd_part p (upd_senders VIPI_ROUTE (fun b => bmp256_unset b r)) m1 = Ok (tt, s1)) as E2.
  { rewrite (upd_part_run m1 p x); [done|].
    change (<[q := upd_receivers VIPI_ROUTE (fun b => bmp256_unset b vid) y]> (h_parts s) !! p = Some x).
    by rewrite lookup_insert_ne. }
  mstep E1. mstep E2. assert (b ≠ r) as Hbr by congruence.
  eapply IH; [exact Hok1|exact Et| |exact Hv|exact Hb| | |exact Hgone].
  - unfold s1. rewrite routed_part. by rewrite decide_True.
  - destruct (Hrel VIPI_ROUTE vid vid Hv) as [-> _]. by rewrite Hself.
  - destruct (Hrel VIPI_ROUTE vid b Hb) as [-> _]. rewrite Hacc. by rewrite bool_decide_false by naive_solver.
Qed.

(** So the teardown does not return. *)
Lemma teardown_stale s vid b u s' :
  routes_ok s → h_locks s = [] ∧ h_readers s = 0%nat ∧ h_writer s = false →
  0 <= vid < 256 → 0 <= h_root_vid s < 256 → 0 <= b < 256 → b ≠ h_root_vid s →
  accepts s VIPI_ROUTE vid vid = false → accepts s VIPI_ROUTE vid b = true → h_table s !! b = None →
  vdo_finalize_teardown vid s ≠ Ok (u, s').
Proof.
  intros Hok (Hl & Hrd & Hw) Hv Hroot Hb Hbr Hself Hacc Hgone.
  unfold vdo_finalize_teardown. unfold mgets at 1, bind at 1.
  pose (s0 := s <| h_writer := true |>).
  assert (vpartition_start_exclusive s = Ok (tt, s0)) as E0.
  { unfold vpartition_start_exclusive, vrw_lock_write_isr_save. by rewrite Hw, Hrd. }
  mstep E0. unfold vpartition_get_exclusive at 1, mgets at 1, bind at 1.
  change (h_table s0 !! vid) with (h_table s !! vid).
  destruct (h_table s !! vid) as [p|] eqn:Et; [|unfold accepts in Hacc; by rewrite Et in Hacc].
  destruct (ro_table _ Hok _ _ Et) as [x Ex]. cbn [is_some].
  unfold massert at 1, bind at 1. unfold not_null at 1, ret at 1, bind at 1. cbv zeta.
  assert (routes_ok s0) as Hok0 by (by destruct Hok; split).
  match goal with
  | |- (upd_part p _ ;;; (upd_part p _ ;;; (upd_part p _ ;;; (upd_part p _ ;;; ?k)))) s0 ≠ _ =>
      destruct (unset_roots_run s0 vid p x (h_root_vid s) k Hv Hok0 Et Hroot Ex)
        as (s1 & x1 & E1 & Ex1 & Hok1 & Hs1 & Hr1)
  end.
  cbv zeta in E1. rewrite E1. clear E1. mstep (get_part_run s1 p x1 Ex1).
  destruct (terminate_notification x1) as [[pid vec] nmi]. assert (h_table s1 = h_table s) as Ht by apply Hs1.
  intros (a & s2 & E & _)%bind_inv. apply bind_inv in E as (a' & s3 & E & _).
  eapply (unwind_stale vid p b) in E; [done|done|by rewrite Ht|exact Ex1|done|done| | |by rewrite Ht].
  - destruct (Hr1 VIPI_ROUTE vid vid Hv Hv) as [-> _]. change (accepts s0) with (accepts s). by rewrite Hself.
  - destruct (Hr1 VIPI_ROUTE vid b Hv Hb) as [-> _]. change (accepts s0) with (accepts s).
    rewrite Hacc. by rewrite bool_decide_false by naive_solver.
Qed.

Lemma teardown_inv root R s vid u s' :
  routes_inv root R s → 0 <= vid < 256 → vid ≠ root → vdo_finalize_teardown vid s = Ok (u, s') →
  vid ∈ live R ∧ routes_inv root (without_partition vid R) s' ∧
  ∀ i j, 0 <= i < 256 → 0 <= j < 256 → accepts s' VIPI_ROUTE i j = accepts s VIPI_ROUTE i j && negb (i =? vid).
Proof.
  intros H Hv Hne E. pose proof H as [Hok [I1 I2] Hun [Er Hr] Hra Hg Hself [Il Ia Is Iv]].
  assert (0 <= h_root_vid s < 256) as Hroot by (rewrite Er; auto).
  destruct (h_table s !! vid) as [p|] eqn:Et.
  2: { exfalso. destruct Hun as (_ & Hrd & Hw). unfold vdo_finalize_teardown in E.
       unfold mgets at 1, bind at 1 in E. pose (s0 := s <| h_writer := true |>).
       assert (vpartition_start_exclusive s = Ok (tt, s0)) as E0.
       { unfold vpartition_start_exclusive, vrw_lock_write_isr_save. by rewrite Hw, Hrd. }
       rewrite (bind_ok _ _ _ _ _ E0) in E. cbv beta in E.
       unfold vpartition_get_exclusive at 1, mgets at 1, bind at 1 in E.
       change (h_table s0 !! vid) with (h_table s !! vid) in E. by rewrite Et in E. }
  destruct (ro_table _ Hok _ _ Et) as [x Ex].
  assert (∀ b, 0 <= b < 256 → b ≠ root → accepts s VIPI_ROUTE vid b = true → is_Some (h_table s !! b)) as Hpeer.
  { intros b Hb Hbr Hacc. destruct (h_table s !! b) eqn:Eb; [by eexists|].
    exfalso. eapply (teardown_stale s vid b); try done; [congruence|by apply Hself]. }
  assert (peers_ok s vid) as Hpo.
  { intros ty b Hb [Hacc|Hs].
    - destruct (decide (ty = VIPI_ROUTE)) as [->|Hty].
      + split; [intros ->; by rewrite Hself in Hacc|]. destruct (decide (b = root)) as [->|]; [by apply Il|auto].
      + rewrite (Ia ty b vid) in Hacc by done. apply Hg in Hacc as (Hlb & _ & ?). split; [done|by apply Il].
    - rewrite (Is ty vid b) in Hs by done. apply Hg in Hs as (_ & Hlb & ?). split; [done|by apply Il]. }
  assert (paired s vid) as Hpair.
  { intros ty a Hra'. rewrite Er. split.
    - intros Har Hs. rewrite (Is ty a vid) in Hs by done. by apply Iv.
    - intros Hty. rewrite (Ia ty vid a), (Is ty vid a) by done. done. }
  destruct (terminate_notification x) as [[pid vec] nmi] eqn:Htn.
  pose proof Hun as (Hl & Hrd & Hw).
  destruct (teardown_reaches_root s vid p x pid vec nmi) as (s2 & E2 & Hok2 & Hs2 & Hr2); try done; [congruence|].
  rewrite E2 in E. destruct Hs2 as (_ & _ & _ & _ & St & Sr & Sv & Sl & Srd & _ & _).
  change (h_table s2 = h_table s) in St. change (h_root_vid s2 = h_root_vid s) in Sr.
  change (h_vids s2 = h_vids s) in Sv. change (h_locks s2 = h_locks s) in Sl. change (h_readers s2 = h_readers s) in Srd.
  set (s4 := retired vid s2) in *.
  assert (h_table s4 = delete vid (h_table s)) as Ht4 by (by rewrite <- St).
  assert (table_ok s4) as Hto.
  { intros a q. rewrite Ht4. intros [_ Ea]%lookup_delete_Some. rewrite <- St in Ea. by apply (ro_table _ Hok2 a). }
  apply notify_root_inv in E; [|split_and!; [by change (h_locks s2 = []); rewrite Sl|by change (h_readers s2 = 0%nat); rewrite Srd|done]|done].
  split; [apply Il; by rewrite Et|].
  assert (∀ ty i j, 0 <= i < 256 → 0 <= j < 256 →
    accepts s4 ty i j = (accepts s ty i j && negb (i =? vid) &&
                       negb ((j =? vid) && negb (bool_decide (ty = VIPI_ROUTE)))) ∧
    sends s4 ty i j = (sends s ty i j && negb (i =? vid) && negb ((j =? vid) && negb (i =? root)))) as Hrel.
  { intros ty i j Hi Hj. destruct (Hr2 ty i j Hi Hj) as [A B]. rewrite <- Er.
    apply (retired_relations s s2 s4); try done. congruence. }
  split.
  2: { intros i j Hi Hj. destruct (Hrel VIPI_ROUTE i j Hi Hj) as [A _].
       rewrite bool_decide_true, andb_false_r, andb_true_r in A by done. rewrite <- A.
       unfold accepts. by rewrite (sm_table _ _ E), (sm_parts _ _ E). }
  eapply routes_inv_same; [exact E|]. clear E E2 s'. split.
  - split; [done| |].
    + intros a b q. rewrite Ht4. intros [_ Ea]%lookup_delete_Some [_ Eb]%lookup_delete_Some.
      by eapply (ro_inj _ Hok).
    + intros q part ty. by apply (ro_wf _ Hok2).
  - assert (h_vids s4 = bmp256_set (h_vids s) vid) as Hvs by (by rewrite <- Sv). split.
    + rewrite Hvs. by apply bmp256_set_wf.
    + intros i Hi. rewrite Hvs, bmp256_set_bit, Ht4 by done. destruct (Z.eqb_spec vid i) as [->|Hni].
      * intros _. apply lookup_delete_eq.
      * rewrite lookup_delete_ne by done. by apply I2.
  - split_and!; [by change (h_locks s2 = []); rewrite Sl|by change (h_readers s2 = 0%nat); rewrite Srd|done].
  - split; [by change (h_root_vid s2 = root); rewrite Sr|]. cbn. set_solver.
  - cbn. intros i Hi. apply Hra. set_solver.
  - intros ty a b. cbn. intros [[Hgr Ha%negb_true_iff]%andb_true_iff Hb%negb_true_iff]%andb_true_iff.
    apply Hg in Hgr as (? & ? & ?). apply Z.eqb_neq in Ha, Hb. set_solver.
  - intros i Hi. destruct (Hrel VIPI_ROUTE i i Hi Hi) as [-> _]. by rewrite Hself.
  - split.
    + intros i. cbn [live without_partition]. rewrite Ht4, lookup_delete_is_Some, elem_of_difference, elem_of_singleton, Il. naive_solver.
    + intros ty a b Ha Hb Hty. destruct (Hrel ty b a Hb Ha) as [-> _]. cbn [granted without_partition]. rewrite Ia by done.
      rewrite bool_decide_false by done. cbn [negb]. rewrite andb_true_r.
      by destruct (granted R ty a b), (a =? vid), (b =? vid).
    + intros ty a b Ha Hb Har. destruct (Hrel ty a b Ha Hb) as [_ ->]. cbn [granted without_partition]. rewrite Is by done.
      rewrite (proj2 (Z.eqb_neq a root)) by done. cbn [negb]. rewrite andb_true_r. done.
    + intros ty a b Ha Hb. cbn [granted without_partition]. intros [[Hgr Hn1]%andb_true_iff Hn2]%andb_true_iff.
      destruct (Hrel ty b a Hb Ha) as [-> _]. rewrite (Iv ty a b), Hn2 by done. cbn [negb andb].
      apply negb_true_iff in Hn1. by rewrite Hn1.
Qed.

(** A sender of IPIs that is torn down stays among those that its target
    accepts. *)
Lemma stale_ipi root R s a b u s' :
  routes_inv root R s → 0 <= a < 256 → 0 <= b < 256 → a ≠ root → b ≠ root →
  granted R VIPI_ROUTE a b = true → vdo_finalize_teardown a s = Ok (u, s') →
  accepts s' VIPI_ROUTE b a = true ∧
  (∀ v s'', vdo_finalize_teardown b s' ≠ Ok (v, s'')) ∧
  ∀ p part s2, created s' s2 p a part →
    accepts s2 VIPI_ROUTE b a = true ∧ sends s2 VIPI_ROUTE a b = false.
Proof.
  intros H Ha Hb Har Hbr Hg E. pose proof (ri_granted _ _ _ H _ _ _ Hg) as (_ & _ & Hab).
  pose proof (im_served _ _ _ (ri_implements _ _ _ H) _ _ _ Ha Hb Hg) as Hacc.
  destruct (teardown_inv root R s a u s' H Ha Har E) as (_ & H' & Hrel).
  assert (accepts s' VIPI_ROUTE b a = true) as Hstale.
  { rewrite Hrel, Hacc by done. by rewrite (proj2 (Z.eqb_neq b a)) by congruence. }
  split; [exact Hstale|]. split.
  - intros v s''. pose proof (ri_root _ _ _ H') as [Er Hr].
    apply (teardown_stale s' b a); [apply H'|apply H'|done| |done|congruence| |done|].
    + rewrite Er. by apply (ri_range _ _ _ H').
    + by apply (ri_self _ _ _ H').
    + apply eq_None_not_Some. rewrite <- (im_live _ _ _ (ri_implements _ _ _ H')). cbn. set_solver.
  - intros p part s2 Hc. rewrite (cr_accepts _ _ _ _ _ Hc), (proj2 (Z.eqb_neq b a)) by (congruence || done).
    split; [exact Hstale|]. by rewrite (cr_sends _ _ _ _ _ Hc), Z.eqb_refl by done.
Qed.

(** ** The life of partitions *)

(** The routes at the start: the root alone, which accepts nothing. *)
Record opening (root : Z) (s : hv) : Prop := {
  op_ok : routes_ok s;
  op_ids : ids_ok s;
  op_unlocked : h_locks s = [] ∧ h_readers s = 0%nat ∧ h_writer s = false;
  op_root : h_root_vid s = root ∧ 0 <= root < 256;
  op_table : ∃ rp, h_table s = {[root := rp]};
  op_closed : ∀ ty i j, accepts s ty i j = false;
}.

Lemma opening_inv root s : opening root s → routes_inv root (only_root root) s.
Proof.
  intros [Hok Hids Hun [Er Hr] [rp Ht] Hc].
  assert (∀ i, i ∈ live (only_root root) ↔ is_Some (h_table s !! i)) as Hl.
  { intros i. cbn. rewrite Ht, lookup_singleton_is_Some. set_solver. }
  split; try done.
  - split; [done|]. cbn. set_solver.
  - cbn. set_solver.
  - split; [exact Hl|by intros; rewrite Hc| |done].
    intros ty a b _ _ Har. unfold sends. by rewrite Ht, lookup_singleton_ne.
Qed.

Lemma precheck_perms_err n : ∀ i perms s r s', precheck_perms n i perms s = Ok (r, s') → r <= 0.
Proof.
  induction n as [|n IH]; intros i perms s r s' H; cbn [precheck_perms] in H; [injection H; lia|].
  destruct (perms !! i); [|done]. destruct (_ && _); [injection H; unfold EINVAL; lia|by eapply IH].
Qed.
Lemma vpartition_precheck_err conf pconf support n p s r s' :
  vpartition_precheck conf pconf support n p s = Ok (r, s') → r <= 0.
Proof.
  unfold vpartition_precheck. intros H.
  destruct (p =? 0); [injection H; unfold EINVAL; lia|].
  apply bind_inv in H as (part & s1 & _ & H). cbv zeta in H.
  repeat (match type of H with (if ?c then _ else _) _ = _ => destruct c end;
    [injection H; unfold EINVAL, EOPNOTSUPP; lia|]).
  destruct (terminate_notification part) as [[pid vec] nmi].
  repeat (match type of H with (if ?c then _ else _) _ = _ => destruct c end;
    [injection H; unfold EINVAL, EOPNOTSUPP; lia|]).
  apply bind_inv in H as (e & s2 & E2 & H). apply precheck_perms_err in E2.
  destruct (negb (e =? 0)); [by injection H as <- _|].
  destruct (_ =? 0); [injection H; unfold EINVAL; lia|].
  apply bind_inv in H as (e2 & s3 & E3 & H). apply precheck_vcpus_err in E3.
  destruct (e2 <? 0); [by injection H as <- _|].
  destruct (_ || _); injection H; unfold EINVAL; lia.
Qed.

Section Life.
Context (resume : vptr → M hv unit).
Context (conf : vptr → vcpu_conf) (pconf : Z → vpartition_conf).
Context (support : Z → vper_cpu_arch_support_t) (root_num_vcpus : Z).
Context (entry_rip : Z) (vexit_stack : vptr → Z) (reset_fp : Z → Z).
Abbreviation create := (vcreate_partition resume conf pconf support root_num_vcpus entry_rip vexit_stack reset_fp).

(** What happens to the partitions, and the event it is by its arguments and its
    answer: the root creates one whose memory is not in the table; a route is
    set or withdrawn, by the service or by the hypercall of the root; one ends;
    or something happens that leaves the table and the routes alone. *)
Inductive life_step : list life_event → hv → hv → Prop :=
  | life_create s v x g r n s' :
      calling s v x g → root x = true → (∀ a, h_table s !! a ≠ Some (vcall_arg1_64 r)) →
      create r s = Ok (n, s') → life_step (if n <? 0 then [] else [Created n]) s s'
  | life_route s target sender n allow e s' :
      0 <= sender < 256 → 0 <= target < 256 →
      vemu_set_route target sender n allow s = Ok (e, s') →
      life_step (if e =? 0 then [Connected n sender target allow] else []) s s'
  | life_call s v x g r e s' :
      calling s v x g → root x = true → vset_route resume r s = Ok (e, s') →
      life_step (if e =? 0 then [Connected (vcall_arg3_32 r) (vcall_arg2_8 r) (vcall_arg1_8 r)
                                   (to_bool (vcall_arg4_32 r))] else []) s s'
  | life_end s vid s' :
      0 <= vid < 256 → vid ≠ h_root_vid s → vdo_finalize_teardown vid s = Ok (tt, s') →
      life_step [Ended vid] s s'
  | life_other s s' : same_routes s s' → life_step [] s s'.

Inductive life : list life_event → hv → hv → Prop :=
  | life_start s : life [] s s
  | life_next es es' s s1 s2 : life_step es s s1 → life es' s1 s2 → life (es ++ es') s s2.

Lemma life_once es s s' : life_step es s s' → life es s s'.
Proof. intros H. rewrite <- (app_nil_r es). eapply life_next; [exact H|apply life_start]. Qed.
Lemma life_app es es' s s1 s2 : life es s s1 → life es' s1 s2 → life (es ++ es') s s2.
Proof.
  intros H. revert es' s2. induction H as [|es0 es' s s1 s2 Hs _ IH]; intros es2 s3 H2; [done|].
  rewrite <- app_assoc. eapply life_next; [done|by apply IH].
Qed.

Lemma create_inv root0 R s v x g r n s' :
  routes_inv root0 R s → calling s v x g → root x = true → (∀ a, h_table s !! a ≠ Some (vcall_arg1_64 r)) →
  create r s = Ok (n, s') →
  if n <? 0 then same_routes s s' else routes_inv root0 (effect root0 R (Created n)) s'.
Proof.
  intros H Hcall Hroot Hfresh E. rewrite (create_reaches_checks _ _ _ _ _ _ _ _ s v x g r Hcall Hroot) in E.
  set (s0 := enabled s v x) in E. assert (same_routes s s0) as Hs0 by (by split).
  apply bind_inv in E as (err & s2 & E1 & E). pose proof (vpartition_precheck_err _ _ _ _ _ _ _ _ E1) as Herr.
  pose proof (vpartition_precheck_reads _ _ _ _ _ _ _ _ E1) as <-.
  destruct (Z.ltb_spec err 0) as [Hneg|Hpos].
  { injection E as <- <-. by rewrite (proj2 (Z.ltb_lt _ _) Hneg). }
  assert (err = 0) as -> by lia.
  apply vpartition_precheck_sound in E1 as (_ & _ & part & Ep & Hps).
  pose proof (routes_inv_same _ _ _ _ Hs0 H) as H0. pose proof (ri_root _ _ _ H0) as [Er Hr].
  destruct (accepted_created conf pconf support root_num_vcpus entry_rip vexit_stack reset_fp s0 (vcall_arg1_64 r) part)
    as [Hno Hyes]; [apply H0|apply H0|apply H0|rewrite Er; by apply (ri_range _ _ _ H0)|done|done|done|].
  destruct (decide (bmp256_ffs (h_vids s0) = -1)) as [Hffs|Hffs].
  { rewrite (Hno Hffs) in E. by injection E as <- <-. }
  destruct (Hyes Hffs) as (new_vid & s1 & E1 & Hc). rewrite E1 in E.
  apply bind_inv in E as (u & s3 & E3 & E). injection E as <- <-.
  destruct (inv_created root0 R s0 s1 _ new_vid part H0 Hc) as [_ H1].
  rewrite (proj2 (Z.ltb_ge _ _)) by (pose proof (cr_vid _ _ _ _ _ Hc); lia).
  eapply routes_inv_same; [|exact H1].
  destruct (cr_part _ _ _ _ _ Hc) as (q & Eq & Hvc & Hcnt).
  apply (push_vcpus_stays conf _ q s1 u s3 Eq); [|exact E3]. intros j Hj. rewrite Hcnt in Hj. rewrite Hvc.
  destruct (cr_vcpus _ _ _ _ _ Hc j Hj) as (y & Ey & Hy). exists y. split; [exact Ey|apply Hy].
Qed.

Lemma land_8 z : 0 <= Z.land z 0xff < 256.
Proof. change 0xff with (Z.ones 8). rewrite Z.land_ones by lia. apply Z.mod_pos_bound. lia. Qed.

(** The hypercall up to the service. *)
Lemma set_route_call s v x g r e s' :
  calling s v x g → root x = true → vset_route resume r s = Ok (e, s') →
  (e = - EINVAL ∧ s' = enabled s v x) ∨
  vemu_set_route (vcall_arg1_8 r) (vcall_arg2_8 r) (vcall_arg3_32 r) (to_bool (vcall_arg4_32 r)) (enabled s v x) = Ok (e, s').
Proof.
  intros [Hr Ex Hc _ _] Hroot E. set (s0 := enabled s v x). unfold vset_route in E.
  rewrite (bind_ok _ _ _ _ _ (enable_run resume s v x Hr Ex Hc)) in E. fold s0 in E.
  rewrite (bind_ok _ _ _ _ _ (current_run s0 v Hr)) in E.
  assert (∃ y, h_vcpus s0 !! v = Some y ∧ root y = true) as (y & Ey & Hy).
  { eexists. split; [apply lookup_insert_eq|by destruct x]. }
  rewrite (bind_ok _ _ _ _ _ (get_vcpu_run s0 v y Ey)), Hy in E. cbn [negb] in E.
  destruct (_ =? vid y); [injection E as <- <-; by left|by right].
Qed.

(** Each step does to the rights what its event says. *)
Lemma life_simulates root0 R es s s' :
  routes_inv root0 R s → life_step es s s' → routes_inv root0 (foldl (effect root0) R es) s'.
Proof.
  intros H Hstep.
  destruct Hstep as [s v x g r n s' Hcall Hroot Hfresh E|s t f n al e s' Hf Ht E|s v x g r e s' Hcall Hroot E
                    |s vid s' Hv Hne E|s s' Hs].
  - pose proof (create_inv root0 R s v x g r n s' H Hcall Hroot Hfresh E) as H1.
    destruct (n <? 0); [by eapply routes_inv_same|done].
  - pose proof (set_route_inv root0 R s n f t al e s' H Hf Ht E) as H1.
    destruct (e =? 0); [done|by subst s'].
  - assert (routes_inv root0 R (enabled s v x)) as H0 by (by eapply routes_inv_same; [|exact H]).
    destruct (set_route_call s v x g r e s' Hcall Hroot E) as [[-> ->]|E1]; [exact H0|].
    pose proof (set_route_inv root0 R _ _ _ _ _ e s' H0 (land_8 _) (land_8 _) E1) as H1.
    destruct (e =? 0); [exact H1|by subst s'].
  - rewrite (proj1 (ri_root _ _ _ H)) in Hne. by destruct (teardown_inv root0 R s vid tt s' H Hv Hne E) as (_ & H' & _).
  - by eapply routes_inv_same.
Qed.

Lemma life_inv root0 s0 es s :
  opening root0 s0 → life es s0 s → routes_inv root0 (rights_of root0 es) s.
Proof.
  intros Ho%opening_inv Hl. unfold rights_of. revert Ho. generalize (only_root root0).
  induction Hl as [s|es es' s s1 s2 Hstep _ IH]; intros R H; [done|].
  rewrite foldl_app. by eapply IH, life_simulates.
Qed.

(** C5. Rights over the life of partitions: from the start, the partitions are
    created, connected and ended in any order and with ids used again, and
    each call is an event by its arguments and its answer.  Then the
    partitions and the maps of routes are what the events say, applied one
    after the other: a partition accepts TLB shootdowns, state reads and kicks
    from exactly those that hold the right, and (the root apart) may name as
    targets exactly those it holds it for; for IPIs it accepts at least those.
    A right is held exactly when an accepted call gave it, or the target was
    created and the holder is the root, and since then no call withdrew it and
    neither partition was created anew or ended.  Rights are between different
    partitions that are alive, and ids and routes stay consistent.  (The calls
    are those that return; the memory a partition is created from is not in the
    table yet, the root does not end, and all else that happens leaves the table
    and the routes alone.) *)
Theorem routes_implement_rights root0 s0 es s :
  opening root0 s0 → life es s0 s →
  implements root0 (rights_of root0 es) s ∧
  (∀ ty a b, granted (rights_of root0 es) ty a b = true ↔
     ∃ es1 e es2, es = es1 ++ e :: es2 ∧ verdict root0 ty a b e = Some true ∧
       ∀ e', e' ∈ es2 → verdict root0 ty a b e' ≠ Some false) ∧
  (∀ ty a b, granted (rights_of root0 es) ty a b = true →
     a ∈ live (rights_of root0 es) ∧ b ∈ live (rights_of root0 es) ∧ a ≠ b) ∧
  routes_ok s ∧ ids_ok s.
Proof.
  intros Ho Hl. pose proof (life_inv root0 s0 es s Ho Hl) as H.
  split; [apply H|]. split; [intros; apply granted_since|]. split; [apply H|]. split; apply H.
Qed.

(** C10. What the unwinding of IPI routes forgets.  In any state that is reached
    from the start, let the partition [a] be allowed to send IPIs to [b], neither
    of them the root, and let [a] be torn down: then [b] still accepts IPIs from the id
    [a]; as long as no partition has that id, the teardown of [b] does not
    return; and a new partition that gets it is accepted by [b] although it has
    no route to [b]. *)
Theorem stale_ipi_permission root0 s0 es s a b s' :
  opening root0 s0 → life es s0 s →
  0 <= a < 256 → 0 <= b < 256 → a ≠ root0 → b ≠ root0 → sends s VIPI_ROUTE a b = true →
  vdo_finalize_teardown a s = Ok (tt, s') →
  accepts s' VIPI_ROUTE b a = true ∧
  (∀ v s'', vdo_finalize_teardown b s' ≠ Ok (v, s'')) ∧
  ∀ p part s2, created s' s2 p a part →
    accepts s2 VIPI_ROUTE b a = true ∧ sends s2 VIPI_ROUTE a b = false.
Proof.
  intros Ho Hl Ha Hb Har Hbr Hs E. pose proof (life_inv root0 s0 es s Ho Hl) as H.
  rewrite (im_sends _ _ _ (ri_implements _ _ _ H)) in Hs by done. by eapply stale_ipi.
Qed.
End Life.
