(* ===== verification/Venter.v ===== *)
(** * Venter: entering the guest

    Models src/subsys/twanvisor/vportal/venter.c: the last steps before a
    guest runs.  What was queued for the entry is carried out, and of the
    interrupts that are pending the one that comes first is injected; for
    those that have to wait, the guest is made to exit as soon as it can take
    them.

    [__venter] returns [false] where the code does not return: the vcpu is
    then gone and another one has the processor. *)

From S2P Require Import Prelude Std Bmp Dq DeltaChain SchedDsa Twan VschedDsa Vpartition Vutils.
From S2P Require Import Vrecovery Vsched Vemu Vcreate Vcalls Vtimers.
From coqutil Require Import Datatypes.RecordSetters.
From Stdlib Require Import ZArith Lia Bool.
From stdpp Require Import base gmap list numbers sets.

Local Open Scope Z_scope.

Inductive venter_inject_state_t : Type :=
  VINJECT_NONE | VINJECTED_EXCEPTION | VINJECTED_NMI | VNMI_WINDOW_EXITING | VINT_WINDOW_EXITING.
#[export] Instance venter_inject_state_eq_dec : EqDecision venter_inject_state_t.
Proof. solve_decision. Defined.

(** ** Injection, in the order of precedence *)

(** The types whose delivery carries the length of the instruction. *)
Definition is_software (t : interrupt_type_t) : bool :=
  match t with
  | INTERRUPT_TYPE_SOFTWARE_INT | INTERRUPT_TYPE_PRIV_SOFTWARE_EXCEPTION
  | INTERRUPT_TYPE_SOFTWARE_EXCEPTION => true
  | _ => false end.

Definition inject_queued (o : voperations) : M hv venter_inject_state_t :=
  if idt_vectoring o then
    let info := idt_vectoring_info o in
    let int_type := vectored_event_type info in
    let errcode_valid := errcode_delivered info in
    errcode <~ (if errcode_valid then vmread ro_idt_vectoring_error_code
                else ret (if use_synth_errcode o then synth_errcode o else 0)) ;;
    let len_valid := is_software int_type in
    len <~ (if len_valid then vmread ro_instruction_length else ret 0) ;;
    vinject_interrupt (ve_vector info) int_type (errcode_valid || use_synth_errcode o) errcode len_valid len ;;;
    ret VINJECTED_EXCEPTION
  else ret VINJECT_NONE.

(** These return the new state and the vector injected, or -1. *)
Definition inject_nmi (v : vptr) (data : vinterrupt_delivery_data_t) (st : venter_inject_state_t)
    : M hv (venter_inject_state_t * Z) :=
  if nmi_pending data then
    blocked <~ vmread vis_nmis_blocked ;;
    if blocked || bool_decide (st = VINJECTED_EXCEPTION) then ret (VNMI_WINDOW_EXITING, -1)
    else
      vinject_interrupt_external NMI true ;;;
      upd_vcpu v (fun x => x <| delivery -> nmi_pending := false |>) ;;;
      ret (VINJECTED_NMI, NMI)
  else ret (st, -1).

Definition inject_external (v : vptr) (data : vinterrupt_delivery_data_t) (pending_vector : Z)
    (st : venter_inject_state_t) (external_vector : Z) : M hv (venter_inject_state_t * Z) :=
  if 0 <=? pending_vector then
    let pending_intl := vector_to_intl pending_vector in
    if (fls32 (in_intl data) <? pending_intl) && (intl data <=? pending_intl) then
      in_nmi <~ vmread vis_in_nmi ;;
      if in_nmi || bool_decide (st = VINJECTED_NMI) || bool_decide (st = VNMI_WINDOW_EXITING)
      then ret (VNMI_WINDOW_EXITING, external_vector)
      else
      blocked <~ vmread vis_external_interrupts_blocked ;;
      if blocked || bool_decide (st = VINJECTED_EXCEPTION) then ret (VINT_WINDOW_EXITING, external_vector)
      else if bool_decide (st = VINJECT_NONE) then
        vinject_interrupt_external pending_vector false ;;;
        upd_vcpu v (fun x => x <| pending_external_interrupts ::= fun b => bmp256_unset b pending_vector |>) ;;;
        upd_vcpu v (fun x => x <| delivery -> in_intl ::= fun i => Z.lor i (Z.shiftl 1 pending_intl) |>) ;;;
        ret (st, pending_vector)
      else ret (st, external_vector)
    else ret (st, external_vector)
  else ret (st, external_vector).

Definition set_windows (v : vptr) (data : vinterrupt_delivery_data_t) (st : venter_inject_state_t) : M hv unit :=
  let new_nmi := bool_decide (st = VNMI_WINDOW_EXITING) in
  let new_int := bool_decide (st = VINT_WINDOW_EXITING) in
  if negb (eqb new_nmi (nmi_window_exit data)) || negb (eqb new_int (int_window_exit data)) then
    vmwrite (fun g => g <| c_nmi_window_exiting := new_nmi |> <| c_interrupt_window_exiting := new_int |>) ;;;
    upd_vcpu v (fun x => x <| delivery -> nmi_window_exit := new_nmi |>
                           <| delivery -> int_window_exit := new_int |>)
  else ret tt.

(** The part of [__venter] under the lock of the pending interrupts; [o] is
    what was queued. *)
Definition inject_pending (v : vptr) (o : voperations) : M hv Z :=
  with_vlock (LPending v)
    (x <~ get_vcpu v ;;
     let data := delivery x in
     let pending_vector := bmp256_fls (pending_external_interrupts x) in
     st <~ inject_queued o ;;
     r <~ inject_nmi v data st ;;
     r <~ inject_external v data pending_vector (fst r) (snd r) ;;
     set_windows v data (fst r) ;;;
     ret (snd r)).

(** The vcpu waits again for an interrupt to which it subscribed. *)
Definition resubscribe (v : vptr) (external_vector : Z) : M hv unit :=
  if negb (external_vector =? -1) then
    this <~ vthis_vprocessor_id ;;
    with_vlock (LDispatch this)
      (x <~ get_vcpu v ;;
       on_dispatch this external_vector (fun h d =>
         if bmp256_test (subscribed_vectors x) external_vector then
           let* q := dq_is_queued h d (NDisp v external_vector) in
           if (q : bool) then Ok (tt, h, d)
           else no_result (dq_pushback h d (NDisp v external_vector))
         else Ok (tt, h, d)))
  else ret tt.

(** ** The entry *)

Section Enter.
(** [vmptrld_ok v]: the processor accepts the VMCS of [v]. *)
Context (conf : vptr → vcpu_conf) (vmptrld_ok : vptr → bool).

Definition __vmptrld (v : vptr) : M hv bool :=
  if vmptrld_ok v then
    mmodify (fun s => s <| h_loaded ::= <[h_this s := v]> |>) ;;; ret true
  else ret false.

Definition carry_out (v : vptr) (o : voperations) : M hv unit :=
  (if vmwrite_cr0 o then vmwrite (fun g => g <| g_cr0 := op_cr0 o |>) else ret tt) ;;;
  (if vmwrite_cr4 o then vmwrite (fun g => g <| g_cr4 := op_cr4 o |>) else ret tt) ;;;
  (if should_advance o then vadvance_guest_rip else ret tt) ;;;
  upd_operations v (fun o => o <| vmwrite_cr4 := false |> <| vmwrite_cr0 := false |>
    <| should_advance := false |> <| idt_vectoring := false |> <| use_synth_errcode := false |>).

Definition __venter : M hv bool :=
  disable_interrupts ;;;
  current <~ vcurrent_vcpu ;;
  x <~ get_vcpu current ;;
  loaded <~ (if preempted x then
               ok <~ __vmptrld current ;;
               (if (ok : bool) then upd_vcpu current (fun x => x <| preempted := false |>) else ret tt) ;;;
               ret ok
             else ret true) ;;
  if negb loaded then vfailure_recover ;;; ret false else
  this <~ vthis_vprocessor_id ;;
  vmcs_lock_isr_save (LSched this) ;;;
  x <~ get_vcpu current ;;
  if terminate (metadata x) then
    vmcs_unlock_isr_restore (LSched this) ;;; vtransitioning_recover ;;; ret false
  else
  set_state current VRUNNING ;;;
  let invvpid := tlb_flush_pending (metadata x) && vpid_enabled (conf current) in
  upd_vcpu current (fun x => x <| metadata -> tlb_flush_pending := false |>) ;;;
  let ticks := current_time_slice_ticks (metadata x) in
  let reearm := rearm (metadata x) in
  upd_vcpu current (fun x => x <| metadata -> rearm := false |>) ;;;
  vmcs_unlock_isr_restore (LSched this) ;;;
  x <~ get_vcpu current ;;
  let o := operations x in
  (if invvpid then vlog (EInvvpid (vpid (conf current))) else ret tt) ;;;
  (if reearm then vsched_arm_timer ticks else ret tt) ;;;
  carry_out current o ;;;
  external_vector <~ inject_pending current o ;;
  resubscribe current external_vector ;;;
  ret true.
End Enter.

(** ** The choice as a function *)

(** [vector] may interrupt what is in service, and the guest lets it. *)
Definition eligible (d : vinterrupt_delivery_data_t) (vector : Z) : bool :=
  (0 <=? vector) && ((fls32 (in_intl d) <? vector_to_intl vector) && (intl d <=? vector_to_intl vector)).

Inductive choice : Type := Nothing | Queued | Nmi | External.
#[export] Instance choice_eq_dec : EqDecision choice.
Proof. solve_decision. Defined.

(** What is injected: a queued event, else an NMI, else the external interrupt
    [best], the first of those pending. *)
Definition chosen (o : voperations) (d : vinterrupt_delivery_data_t) (best : Z) (g : vmcs_guest) : choice :=
  if idt_vectoring o then Queued else
  if nmi_pending d && negb (vis_nmis_blocked g) then Nmi else
  if eligible d best && negb (nmi_pending d || vis_in_nmi g || vis_external_interrupts_blocked g)
  then External else Nothing.
(** An NMI, or something behind an NMI, has to wait; an external interrupt has to wait. *)
Definition nmi_window (o : voperations) (d : vinterrupt_delivery_data_t) (best : Z) (g : vmcs_guest) : bool :=
  (nmi_pending d && (vis_nmis_blocked g || idt_vectoring o)) ||
  (eligible d best && (nmi_pending d || vis_in_nmi g)).
Definition int_window (o : voperations) (d : vinterrupt_delivery_data_t) (best : Z) (g : vmcs_guest) : bool :=
  negb (nmi_window o d best g) && eligible d best &&
  (vis_external_interrupts_blocked g || idt_vectoring o).

Definition queued_event (o : voperations) (g : vmcs_guest) : vmentry_event :=
  let info := idt_vectoring_info o in
  VmentryEvent (ve_vector info) (vectored_event_type info)
    (if errcode_delivered info then Some (ro_idt_vectoring_error_code g)
     else if use_synth_errcode o then Some (synth_errcode o) else None)
    (if is_software (vectored_event_type info) then Some (ro_instruction_length g) else None).
Definition event_of (c : choice) (o : voperations) (best : Z) (g : vmcs_guest) : option vmentry_event :=
  match c with
  | Nothing => c_entry_interrupt_info g
  | Queued => Some (queued_event o g)
  | Nmi => Some (VmentryEvent NMI INTERRUPT_TYPE_NMI None None)
  | External => Some (VmentryEvent best INTERRUPT_TYPE_EXTERNAL None None)
  end.

(** The delivery data and the pending set after the choice [c]. *)
Definition delivered (c : choice) (best : Z) (d : vinterrupt_delivery_data_t) : vinterrupt_delivery_data_t :=
  match c with
  | Nmi => d <| nmi_pending := false |>
  | External => d <| in_intl ::= fun i => Z.lor i (Z.shiftl 1 (vector_to_intl best)) |>
  | _ => d end.
Definition still_pending (c : choice) (best : Z) (b : bmp256) : bmp256 :=
  match c with External => bmp256_unset b best | _ => b end.
Definition vector_of (c : choice) (best : Z) : Z :=
  match c with Nmi => NMI | External => best | _ => -1 end.

Definition windowed (nmi int : bool) (d : vinterrupt_delivery_data_t) : vinterrupt_delivery_data_t :=
  d <| nmi_window_exit := nmi |> <| int_window_exit := int |>.
(** The vcpu and its VMCS after the entry. *)
Definition vcpu_entered (o : voperations) (x : vcpu) (g : vmcs_guest) : vcpu :=
  let d := delivery x in let best := bmp256_fls (pending_external_interrupts x) in
  let c := chosen o d best g in
  x <| delivery := windowed (nmi_window o d best g) (int_window o d best g) (delivered c best d) |>
    <| pending_external_interrupts := still_pending c best (pending_external_interrupts x) |>.
Definition vmcs_entered (o : voperations) (x : vcpu) (g : vmcs_guest) : vmcs_guest :=
  let d := delivery x in let best := bmp256_fls (pending_external_interrupts x) in
  g <| c_entry_interrupt_info := event_of (chosen o d best g) o best g |>
    <| c_nmi_window_exiting := nmi_window o d best g |>
    <| c_interrupt_window_exiting := int_window o d best g |>.

(** The window exits of the VMCS are those the vcpu remembers. *)
Definition windows_ok (x : vcpu) (g : vmcs_guest) : Prop :=
  c_nmi_window_exiting g = nmi_window_exit (delivery x) ∧
  c_interrupt_window_exiting g = int_window_exit (delivery x).

Section Inject.
Context (s : hv) (v : vptr) (x0 : vcpu) (g0 : vmcs_guest).
Context (H : calling s v x0 g0).
Implicit Types (x : vcpu) (g : vmcs_guest) (d : vinterrupt_delivery_data_t).

Definition with_event g (e : vmentry_event) : vmcs_guest := g <| c_entry_interrupt_info := Some e |>.

Lemma inject_event_run x g vector type b1 errcode b2 len :
  vinject_interrupt vector type b1 errcode b2 len (tm_set s v x g) =
  Ok (tt, tm_set s v x (with_event g (VmentryEvent vector type
    (if b1 then Some errcode else None) (if b2 then Some len else None)))).
Proof. apply (tm_write s v x0 g0 H). Qed.

Lemma inject_queued_run x g o :
  inject_queued o (tm_set s v x g) =
  if idt_vectoring o then Ok (VINJECTED_EXCEPTION, tm_set s v x (with_event g (queued_event o g)))
  else Ok (VINJECT_NONE, tm_set s v x g).
Proof.
  unfold inject_queued. destruct (idt_vectoring o); [|done]. cbv zeta. unfold queued_event.
  set (t := vectored_event_type _). set (e := errcode_delivered _). set (w := ve_vector _).
  assert (∀ errcode,
    (len <~ (if is_software t then vmread ro_instruction_length else ret 0) ;;
     vinject_interrupt w t (e || use_synth_errcode o) errcode (is_software t) len ;;;
     ret VINJECTED_EXCEPTION) (tm_set s v x g) =
    Ok (VINJECTED_EXCEPTION, tm_set s v x (with_event g (VmentryEvent w t
      (if e || use_synth_errcode o then Some errcode else None)
      (if is_software t then Some (ro_instruction_length g) else None))))) as Hlen.
  { intros errcode. destruct (is_software t).
    - mstep (tm_read s v x0 g0 H ro_instruction_length x g). unfold bind. by rewrite inject_event_run.
    - unfold bind, ret. by rewrite inject_event_run. }
  destruct e.
  - mstep (tm_read s v x0 g0 H ro_idt_vectoring_error_code x g). rewrite Hlen. done.
  - unfold bind at 1, ret at 1. rewrite Hlen. by destruct (use_synth_errcode o).
Qed.

Definition nmi_event : vmentry_event := VmentryEvent NMI INTERRUPT_TYPE_NMI None None.
Definition ext_event (vector : Z) : vmentry_event := VmentryEvent vector INTERRUPT_TYPE_EXTERNAL None None.
Definition no_nmi x : vcpu := x <| delivery -> nmi_pending := false |>.
Definition in_service x (vector : Z) : vcpu :=
  x <| pending_external_interrupts ::= fun b => bmp256_unset b vector |>
    <| delivery -> in_intl ::= fun i => Z.lor i (Z.shiftl 1 (vector_to_intl vector)) |>.

Lemma inject_nmi_run x g d st :
  inject_nmi v d st (tm_set s v x g) =
  if nmi_pending d then
    if vis_nmis_blocked g || bool_decide (st = VINJECTED_EXCEPTION)
    then Ok ((VNMI_WINDOW_EXITING, -1), tm_set s v x g)
    else Ok ((VINJECTED_NMI, NMI), tm_set s v (no_nmi x) (with_event g nmi_event))
  else Ok ((st, -1), tm_set s v x g).
Proof.
  unfold inject_nmi. destruct (nmi_pending d); [|done].
  mstep (tm_read s v x0 g0 H vis_nmis_blocked x g). destruct (_ || _); [done|].
  unfold vinject_interrupt_external. rewrite Z.eqb_refl. cbn [andb].
  rewrite (bind_ok _ _ _ _ _ (inject_event_run x g NMI INTERRUPT_TYPE_NMI false 0 false 0)). cbv beta.
  by rewrite (bind_ok _ _ _ _ _ (tm_upd s v x0 g0 H (fun x => x <| delivery -> nmi_pending := false |>) x _)).
Qed.

Lemma inject_external_run x g d best st ext :
  inject_external v d best st ext (tm_set s v x g) =
  if eligible d best then
    if vis_in_nmi g || bool_decide (st = VINJECTED_NMI) || bool_decide (st = VNMI_WINDOW_EXITING)
    then Ok ((VNMI_WINDOW_EXITING, ext), tm_set s v x g)
    else if vis_external_interrupts_blocked g || bool_decide (st = VINJECTED_EXCEPTION)
    then Ok ((VINT_WINDOW_EXITING, ext), tm_set s v x g)
    else if bool_decide (st = VINJECT_NONE)
    then Ok ((st, best), tm_set s v (in_service x best) (with_event g (ext_event best)))
    else Ok ((st, ext), tm_set s v x g)
  else Ok ((st, ext), tm_set s v x g).
Proof.
  unfold inject_external, eligible. destruct (0 <=? best); [|done]. cbn [andb]. cbv zeta.
  destruct (_ && _); [|done].
  mstep (tm_read s v x0 g0 H vis_in_nmi x g). destruct (_ || _); [done|].
  mstep (tm_read s v x0 g0 H vis_external_interrupts_blocked x g). destruct (_ || _); [done|].
  destruct (bool_decide (st = VINJECT_NONE)); [|done].
  unfold vinject_interrupt_external. rewrite andb_false_r.
  rewrite (bind_ok _ _ _ _ _ (inject_event_run x g best INTERRUPT_TYPE_EXTERNAL false 0 false 0)). cbv beta.
  rewrite (bind_ok _ _ _ _ _ (tm_upd s v x0 g0 H
    (fun x => x <| pending_external_interrupts ::= fun b => bmp256_unset b best |>) x _)). cbv beta.
  by rewrite (bind_ok _ _ _ _ _ (tm_upd s v x0 g0 H
    (fun x => x <| delivery -> in_intl ::= fun i => Z.lor i (Z.shiftl 1 (vector_to_intl best)) |>) _ _)).
Qed.

Lemma set_windows_run x g d st :
  c_nmi_window_exiting g = nmi_window_exit d → c_interrupt_window_exiting g = int_window_exit d →
  nmi_window_exit (delivery x) = nmi_window_exit d → int_window_exit (delivery x) = int_window_exit d →
  let nmi := bool_decide (st = VNMI_WINDOW_EXITING) in let int := bool_decide (st = VINT_WINDOW_EXITING) in
  set_windows v d st (tm_set s v x g) =
  Ok (tt, tm_set s v (x <| delivery ::= windowed nmi int |>)
    (g <| c_nmi_window_exiting := nmi |> <| c_interrupt_window_exiting := int |>)).
Proof.
  intros Hgn Hgi Hxn Hxi. unfold set_windows. cbv zeta.
  generalize (bool_decide (st = VNMI_WINDOW_EXITING)) (bool_decide (st = VINT_WINDOW_EXITING)). intros nmi int.
  destruct (negb _ || negb _) eqn:E.
  - rewrite (bind_ok _ _ _ _ _ (tm_write s v x0 g0 H
      (fun g => g <| c_nmi_window_exiting := nmi |> <| c_interrupt_window_exiting := int |>) x g)). cbv beta.
    rewrite (tm_upd s v x0 g0 H). unfold windowed. by destruct x.
  - apply orb_false_iff in E as [E1 E2]. apply negb_false_iff, eqb_prop in E1, E2. subst nmi int.
    unfold windowed. destruct x as [? ? ? ? ? ? ? ? ? ? ? ? ? ? ? ? ? ? ? []], g. cbn in *.
    unfold apply_update, constant. cbn. by subst.
Qed.

(** The body of [inject_pending]. *)
Definition inject_all (o : voperations) : M hv Z :=
  x <~ get_vcpu v ;;
  let data := delivery x in
  let pending_vector := bmp256_fls (pending_external_interrupts x) in
  st <~ inject_queued o ;;
  r <~ inject_nmi v data st ;;
  r <~ inject_external v data pending_vector (fst r) (snd r) ;;
  set_windows v data (fst r) ;;;
  ret (snd r).

Lemma windowed_eq x nmi int c best :
  x <| delivery := windowed nmi int (delivered c best (delivery x)) |>
    <| pending_external_interrupts := still_pending c best (pending_external_interrupts x) |> =
  match c with Nmi => no_nmi x | External => in_service x best | _ => x end
    <| delivery ::= windowed nmi int |>.
Proof. by destruct c, x as [? ? ? ? ? ? ? ? ? ? ? ? ? ? ? ? ? ? ? []]. Qed.

(** Decides the equalities between the states of the injection. *)
Ltac decide_states :=
  repeat match goal with
  | |- context [@bool_decide (@eq venter_inject_state_t ?a ?b) ?dec] =>
      let r := eval vm_compute in (@bool_decide (@eq venter_inject_state_t a b) dec) in
      change (@bool_decide (@eq venter_inject_state_t a b) dec) with r
  end; cbn [andb orb negb fst snd].

Lemma inject_all_run x g o : windows_ok x g →
  inject_all o (tm_set s v x g) =
  Ok (vector_of (chosen o (delivery x) (bmp256_fls (pending_external_interrupts x)) g)
        (bmp256_fls (pending_external_interrupts x)), tm_set s v (vcpu_entered o x g) (vmcs_entered o x g)).
Proof.
  intros [Hn Hi]. unfold inject_all. mstep (tm_get s v x g). cbv zeta.
  unfold vcpu_entered, vmcs_entered. cbv zeta. rewrite windowed_eq.
  unfold bind. rewrite inject_queued_run. unfold chosen, int_window, nmi_window.
  destruct (idt_vectoring o); rewrite inject_nmi_run;
    change (vis_nmis_blocked (with_event g ?e)) with (vis_nmis_blocked g);
    (destruct (nmi_pending (delivery x)), (vis_nmis_blocked g)); decide_states;
    rewrite inject_external_run;
    repeat change (vis_in_nmi (with_event g ?e)) with (vis_in_nmi g);
    repeat change (vis_external_interrupts_blocked (with_event g ?e)) with (vis_external_interrupts_blocked g);
    (destruct (eligible (delivery x) _), (vis_in_nmi g), (vis_external_interrupts_blocked g)); decide_states.
  all: rewrite set_windows_run by (first [exact Hn|exact Hi|reflexivity|by destruct x as [? ? ? ? ? ? ? ? ? ? ? ? ? ? ? ? ? ? ? []]]);
    decide_states; reflexivity.
Qed.
End Inject.

(** ** Levels of interrupts *)

Lemma fls32_above w : 0 <= w < 2 ^ 32 → -1 <= fls32 w < 32 ∧ ∀ j, fls32 w < j → Z.testbit w j = false.
Proof.
  intros Hw. destruct (decide (w = 0)) as [->|Hne].
  - rewrite fls32_0. split; [lia|]. intros. apply Z.bits_0.
  - rewrite fls32_spec by lia. assert (0 <= Z.log2 w < 32) as Hl.
    { split; [apply Z.log2_nonneg|apply Z.log2_lt_pow2; lia]. }
    split; [lia|]. intros j Hj. apply Z.bits_above_log2; lia.
Qed.

(** A level above those in service becomes the highest, and removing the
    highest then restores them. *)
Lemma level_push w i : 0 <= w < 2 ^ 16 → fls32 w < i → 0 <= i < 16 →
  0 <= Z.lor w (Z.shiftl 1 i) < 2 ^ 16 ∧ fls32 (Z.lor w (Z.shiftl 1 i)) = i ∧
  Z.land (Z.lor w (Z.shiftl 1 i)) (cnot 32 (Z.shiftl 1 i)) = w.
Proof.
  intros Hw Hlt Hi. rewrite shiftl_1 by lia. pose proof (pow2_word 16 i ltac:(lia)) as Hp.
  pose proof (lor_word 16 w (2 ^ i) ltac:(lia) Hw Hp) as Hlor.
  destruct (fls32_above w ltac:(lia)) as [_ Habove]. split; [exact Hlor|]. split.
  - rewrite fls32_spec.
    + rewrite Z.log2_lor, Z.log2_pow2 by lia. apply Z.max_r.
      destruct (decide (w = 0)) as [->|]; [cbn; lia|]. rewrite fls32_spec in Hlt by lia. lia.
    + split; [|lia]. assert (Z.testbit (Z.lor w (2 ^ i)) i = true) as Hb.
      { rewrite Z.lor_spec, Z.pow2_bits_true by lia. apply orb_true_r. }
      destruct (decide (Z.lor w (2 ^ i) = 0)) as [E|]; [|lia]. rewrite E, Z.bits_0 in Hb. done.
  - apply (word_ext 32); [apply land_word; lia|lia|]. intros j Hj.
    rewrite Z.land_spec, cnot_bit, Z.lor_spec, testbit_pow2 by lia.
    destruct (bool_decide_reflect (i = j)) as [->|Hne]; cbn [negb].
    + rewrite andb_false_r. symmetry. by apply Habove.
    + by rewrite orb_false_r, andb_true_r.
Qed.

Lemma intl_mono a b : a <= b → vector_to_intl a <= vector_to_intl b.
Proof. intros. unfold vector_to_intl. apply Z.div_le_mono; lia. Qed.
Lemma intl_range vector : 0 <= vector < 256 → 0 <= vector_to_intl vector < 16.
Proof.
  intros. unfold vector_to_intl. split; [apply Z.div_pos; lia|apply Z.div_lt_upper_bound; lia].
Qed.

(** ** What an entry delivers *)

(** The pending interrupts of a vcpu and its view of the window exits. *)
Record delivery_ok (x : vcpu) (g : vmcs_guest) : Prop := {
  do_windows : windows_ok x g;
  do_pending : bmp256_wf (pending_external_interrupts x);
  do_levels : 0 <= in_intl (delivery x) < 2 ^ 16;
}.

Abbreviation pend x := (bmp256_bit (pending_external_interrupts x)).
Abbreviation best x := (bmp256_fls (pending_external_interrupts x)).

(** [best] is the first of the pending ones. *)
Lemma best_spec x : bmp256_wf (pending_external_interrupts x) →
  (best x = -1 ∧ ∀ i, 0 <= i < 256 → pend x i = false) ∨
  (0 <= best x < 256 ∧ pend x (best x) = true ∧ ∀ i, 0 <= i < 256 → pend x i = true → i <= best x).
Proof.
  intros Hw. destruct (bmp256_fls_spec _ Hw) as [?|(Hr & Hb & Ha)]; [by left|right].
  split; [done|]. split; [done|]. intros i Hi E. destruct (Z.le_gt_cases i (best x)) as [|Hgt]; [done|].
  rewrite Ha in E by lia. done.
Qed.

(** If anything pending is eligible then the first of it is. *)
Lemma eligible_best x vector : bmp256_wf (pending_external_interrupts x) → 0 <= vector < 256 →
  pend x vector = true → eligible (delivery x) vector = true → eligible (delivery x) (best x) = true.
Proof.
  intros Hw Hv Hp He. destruct (best_spec x Hw) as [[_ Hn]|(Hr & _ & Hmax)]; [rewrite Hn in Hp; done|].
  pose proof (intl_mono _ _ (Hmax _ Hv Hp)) as Hm. unfold eligible in *. to_prop.
  rewrite !andb_true_iff, Z.leb_le, Z.ltb_lt, Z.leb_le. lia.
Qed.

Lemma chosen_external o d b g : chosen o d b g = External → eligible d b = true.
Proof.
  unfold chosen. by destruct (idt_vectoring o), (nmi_pending d && negb (vis_nmis_blocked g)), (eligible d b).
Qed.

Lemma entered_delivery o x g :
  delivery (vcpu_entered o x g) = windowed (nmi_window o (delivery x) (best x) g)
    (int_window o (delivery x) (best x) g) (delivered (chosen o (delivery x) (best x) g) (best x) (delivery x)).
Proof. by destruct x. Qed.
Lemma entered_pending o x g :
  pending_external_interrupts (vcpu_entered o x g) =
  still_pending (chosen o (delivery x) (best x) g) (best x) (pending_external_interrupts x).
Proof. by destruct x. Qed.
Lemma entered_nmi o x g : nmi_pending (delivery (vcpu_entered o x g)) =
  nmi_pending (delivery x) && negb (bool_decide (chosen o (delivery x) (best x) g = Nmi)).
Proof.
  rewrite entered_delivery. change (nmi_pending (windowed ?n ?i ?d)) with (nmi_pending d).
  destruct (chosen _ _ _ _); cbn [delivered];
    rewrite ?bool_decide_eq_true_2, ?bool_decide_eq_false_2 by done;
    cbn [negb]; rewrite ?andb_true_r, ?andb_false_r; done.
Qed.

Section Entry.
Context (s : hv) (v : vptr) (x0 : vcpu) (g0 : vmcs_guest).
Context (H : calling s v x0 g0) (Hl : LPending v ∉ h_locks s).

Lemma inject_pending_run x g o : windows_ok x g →
  inject_pending v o (tm_set s v x g) =
  Ok (vector_of (chosen o (delivery x) (best x) g) (best x), tm_set s v (vcpu_entered o x g) (vmcs_entered o x g)).
Proof.
  intros Hw. unfold inject_pending. apply with_vlock_run; [done| |done].
  assert (calling (s <| h_locks ::= cons (LPending v) |>) v x0 g0) as H' by (destruct H; by split).
  exact (inject_all_run _ v x0 g0 H' x g o Hw).
Qed.

Lemma entered_ok o x g : delivery_ok x g → delivery_ok (vcpu_entered o x g) (vmcs_entered o x g).
Proof.
  intros [[Hn Hi] Hp Hlv]. split.
  - split; by rewrite entered_delivery.
  - rewrite entered_pending. destruct (chosen _ _ _ _); try done. by apply bmp256_unset_wf.
  - rewrite entered_delivery. change (in_intl (windowed ?n ?i ?d)) with (in_intl d).
    destruct (chosen _ _ _ _) eqn:Ec; try (by destruct (delivery x)).
    apply chosen_external in Ec. destruct (best_spec x Hp) as [[Eb _]|(Hr & _)]; [by rewrite Eb in Ec|].
    unfold eligible in Ec. to_prop. destruct (level_push (in_intl (delivery x)) (vector_to_intl (best x))) as (Hx & _);
      [done|lia|by apply intl_range|]. by destruct (delivery x).
Qed.

(** C30.  Precedence of injection: on entry at most one event is injected - the
    one that was queued, else an NMI if one is pending and not blocked, else
    the external interrupt with the highest vector if its level is above those
    in service and not below the guest's own, nothing blocks it and no NMI
    waits - and exactly what is injected stops being pending. *)
Theorem venter_injects_by_precedence x g o :
  delivery_ok x g →
  let d := delivery x in let c := chosen o d (best x) g in
  ∃ x' g', inject_pending v o (tm_set s v x g) = Ok (vector_of c (best x), tm_set s v x' g') ∧
    delivery_ok x' g' ∧
    c_entry_interrupt_info g' = event_of c o (best x) g ∧
    (∀ vec, 0 <= vec < 256 → pend x' vec = pend x vec && negb (bool_decide (c = External ∧ vec = best x))) ∧
    nmi_pending (delivery x') = nmi_pending d && negb (bool_decide (c = Nmi)) ∧
    (c = External → pend x (best x) = true ∧ fls32 (in_intl d) < vector_to_intl (best x) ∧
       ∀ vec, 0 <= vec < 256 → pend x vec = true → vec <= best x).
Proof.
  intros Hok d c. pose proof Hok as [Hw Hp _]. exists (vcpu_entered o x g), (vmcs_entered o x g).
  split; [by apply inject_pending_run|]. split; [by apply entered_ok|]. split; [done|].
  assert (c = External → eligible d (best x) = true) as He by apply chosen_external.
  assert (c = External → 0 <= best x < 256 ∧ pend x (best x) = true ∧
    ∀ i, 0 <= i < 256 → pend x i = true → i <= best x) as Hb.
  { intros Ec. apply He in Ec. destruct (best_spec x Hp) as [[Eb _]|?]; [by rewrite Eb in Ec|done]. }
  split; [|split].
  - intros vec Hv. rewrite entered_pending. fold d c. destruct c eqn:Ec; cbn [still_pending];
      try (rewrite bool_decide_eq_false_2 by (intros [? _]; done); by rewrite andb_true_r).
    destruct (Hb eq_refl) as (Hr & _). rewrite bmp256_unset_bit by done.
    destruct (Z.eqb_spec (best x) vec) as [->|Hne].
    + rewrite bool_decide_eq_true_2 by done. cbn. by rewrite ?andb_false_r.
    + rewrite bool_decide_eq_false_2 by (intros [_ ?]; congruence). cbn. by rewrite ?andb_true_r, ?andb_true_l.
  - apply entered_nmi.
  - intros Ec. destruct (Hb Ec) as (_ & Hx & Hm). split; [done|]. split; [|done].
    apply He in Ec. unfold eligible in Ec. to_prop. lia.
Qed.

(** What is eligible depends on the levels only. *)
Lemma eligible_same d d' vec : in_intl d' = in_intl d → intl d' = intl d → eligible d' vec = eligible d vec.
Proof. intros E1 E2. unfold eligible. by rewrite E1, E2. Qed.

Lemma delivered_levels c b d : c ≠ External →
  in_intl (delivered c b d) = in_intl d ∧ intl (delivered c b d) = intl d.
Proof. by destruct c, d. Qed.

(** After an injection nothing that is left may interrupt it. *)
Lemma injected_blocks_rest o x g vec : delivery_ok x g → chosen o (delivery x) (best x) g = External →
  0 <= vec < 256 → pend x vec = true → eligible (delivery (vcpu_entered o x g)) vec = false.
Proof.
  intros [_ Hp Hlv] Ec Hv Hpv. rewrite entered_delivery, Ec.
  apply chosen_external in Ec as He. destruct (best_spec x Hp) as [[_ Hn]|(Hr & _ & Hmax)]; [by rewrite Hn in Hpv|].
  pose proof (intl_mono _ _ (Hmax _ Hv Hpv)) as Hm. unfold eligible in He. to_prop.
  destruct (level_push (in_intl (delivery x)) (vector_to_intl (best x))) as (_ & Ef & _);
    [done|lia|by apply intl_range|].
  unfold eligible. change (in_intl (windowed ?n ?i (delivered External (best x) (delivery x)))) with
    (Z.lor (in_intl (delivery x)) (Z.shiftl 1 (vector_to_intl (best x)))).
  rewrite Ef, (proj2 (Z.ltb_ge _ _)) by lia. by rewrite andb_false_r.
Qed.

(** C31.  No interrupt is forgotten: if after the entry an NMI, or an interrupt
    that the guest's levels would let through, is still pending, the guest is
    made to exit as soon as it can take it; and it is made to exit for nothing
    else. *)
Theorem venter_forgets_nothing x g o :
  delivery_ok x g →
  ∃ vector x' g', inject_pending v o (tm_set s v x g) = Ok (vector, tm_set s v x' g') ∧
    let waiting vec := 0 <= vec < 256 ∧ pend x' vec = true ∧ eligible (delivery x') vec = true in
    (nmi_pending (delivery x') = true → c_nmi_window_exiting g' = true) ∧
    (∀ vec, waiting vec → c_nmi_window_exiting g' || c_interrupt_window_exiting g' = true) ∧
    (c_nmi_window_exiting g' || c_interrupt_window_exiting g' = true →
       nmi_pending (delivery x') = true ∨ ∃ vec, waiting vec).
Proof.
  intros Hok. pose proof Hok as [Hw Hp _]. eexists _, (vcpu_entered o x g), (vmcs_entered o x g).
  split; [by apply inject_pending_run|]. cbv zeta.
  change (c_nmi_window_exiting (vmcs_entered o x g)) with (nmi_window o (delivery x) (best x) g).
  change (c_interrupt_window_exiting (vmcs_entered o x g)) with (int_window o (delivery x) (best x) g).
  rewrite entered_nmi.
  assert (chosen o (delivery x) (best x) g ≠ External → ∀ vec,
    pend (vcpu_entered o x g) vec = pend x vec ∧
    eligible (delivery (vcpu_entered o x g)) vec = eligible (delivery x) vec) as Hsame.
  { intros Hne vec. rewrite entered_pending, entered_delivery. destruct (delivered_levels _ (best x) (delivery x) Hne).
    split; [by destruct (chosen _ _ _ _)|by apply eligible_same]. }
  destruct (decide (chosen o (delivery x) (best x) g = External)) as [Ec|Ec].
  - assert (∀ vec, 0 <= vec < 256 → pend (vcpu_entered o x g) vec = true →
      eligible (delivery (vcpu_entered o x g)) vec = true → False) as Hno.
    { intros vec Hv Hpv He. rewrite (injected_blocks_rest o x g vec) in He; try done.
      rewrite entered_pending, Ec in Hpv. cbn in Hpv. destruct (best_spec x Hp) as [[Eb _]|(Hr & _)].
      - apply chosen_external in Ec. by rewrite Eb in Ec.
      - rewrite bmp256_unset_bit in Hpv by done. by apply andb_true_iff in Hpv as [_ ?]. }
    rewrite Ec. unfold chosen, int_window, nmi_window in *.
    destruct (idt_vectoring o), (nmi_pending (delivery x)), (vis_nmis_blocked g), (eligible (delivery x) (best x)),
      (vis_in_nmi g), (vis_external_interrupts_blocked g); try discriminate Ec;
      (split; [done|split; [intros vec (Hv & Hpv & He); by destruct (Hno vec)|done]]).
  - specialize (Hsame Ec). split; [|split].
    + unfold chosen, nmi_window in *.
      by destruct (idt_vectoring o), (nmi_pending (delivery x)), (vis_nmis_blocked g), (eligible (delivery x) (best x)).
    + intros vec (Hv & Hpv & He). destruct (Hsame vec) as [E1 E2]. rewrite E1 in Hpv. rewrite E2 in He.
      pose proof (eligible_best x vec Hp Hv Hpv He) as Hb. unfold chosen, int_window, nmi_window in *.
      rewrite Hb in *. destruct (idt_vectoring o), (nmi_pending (delivery x)), (vis_nmis_blocked g),
        (vis_in_nmi g), (vis_external_interrupts_blocked g); done.
    + intros Hwin. destruct (eligible (delivery x) (best x)) eqn:He.
      * right. exists (best x). destruct (Hsame (best x)) as [E1 E2]. rewrite E1, E2.
        destruct (best_spec x Hp) as [[Eb _]|(? & ? & _)]; [by rewrite Eb in He|done].
      * left. unfold chosen, int_window, nmi_window in *. rewrite He in *.
        by destruct (idt_vectoring o), (nmi_pending (delivery x)), (vis_nmis_blocked g).
Qed.

Lemma veoi_run resume r x g : calm x →
  veoi resume r (tm_set s v x g) =
  Ok (0, tm_set s v (enabled_vcpu x <| delivery ::= end_of_interrupt |>) g).
Proof.
  intros Hc. unfold veoi. mstep (tm_enable resume s v x0 g0 H x g Hc).
  mstep (tm_current s v x0 g0 H (enabled_vcpu x) g).
  assert (with_vlock (LPending v) (upd_vcpu v (fun x => x <| delivery ::= end_of_interrupt |>))
    (tm_set s v (enabled_vcpu x) g) = Ok (tt, tm_set s v (enabled_vcpu x <| delivery ::= end_of_interrupt |>) g)) as E;
    [|by mstep E].
  apply with_vlock_run; [done| |done].
  assert (calling (s <| h_locks ::= cons (LPending v) |>) v x0 g0) as H' by (destruct H; by split).
  exact (tm_upd _ v x0 g0 H' (fun x => x <| delivery ::= end_of_interrupt |>) (enabled_vcpu x) g).
Qed.

(** The levels in service are a stack: an external interrupt that is
    injected has a level above all those in service and becomes the highest of
    them, and the guest's next end of interrupt takes back exactly that level.
    An end of interrupt with nothing in service changes nothing. *)
Theorem interrupt_levels_nest resume r x g o :
  delivery_ok x g → calm x →
  (chosen o (delivery x) (best x) g = External →
     let level := vector_to_intl (best x) in
     ∃ x' x'' g', inject_pending v o (tm_set s v x g) = Ok (best x, tm_set s v x' g') ∧
       (∀ j, level <= j → Z.testbit (in_intl (delivery x)) j = false) ∧
       (∀ j, 0 <= j → Z.testbit (in_intl (delivery x')) j = (j =? level) || Z.testbit (in_intl (delivery x)) j) ∧
       veoi resume r (tm_set s v x' g') = Ok (0, tm_set s v x'' g') ∧
       in_intl (delivery x'') = in_intl (delivery x)) ∧
  (in_intl (delivery x) = 0 → veoi resume r (tm_set s v x g) = Ok (0, tm_set s v (enabled_vcpu x) g)).
Proof.
  intros Hok Hc. pose proof Hok as [Hw Hp Hlv]. split.
  - intros Ec level. apply chosen_external in Ec as He. destruct (best_spec x Hp) as [[Eb _]|(Hr & _)];
      [by rewrite Eb in He|]. unfold eligible in He. fold level in He. to_prop.
    pose proof (intl_range _ Hr) as Hlr. fold level in Hlr.
    destruct (level_push (in_intl (delivery x)) level Hlv ltac:(lia) Hlr) as (Hl16 & Ef & Er).
    assert (in_intl (delivery (vcpu_entered o x g)) = Z.lor (in_intl (delivery x)) (Z.shiftl 1 level)) as Ein
      by (by rewrite entered_delivery, Ec).
    exists (vcpu_entered o x g). eexists. exists (vmcs_entered o x g).
    split; [rewrite inject_pending_run by done; by rewrite Ec|]. split; [|split; [|split]].
    + intros j Hj. apply (fls32_above (in_intl (delivery x))); lia.
    + intros j Hj. rewrite Ein, shiftl_1, Z.lor_spec, testbit_pow2 by lia. rewrite orb_comm. f_equal.
      destruct (Z.eqb_spec j level), (bool_decide_reflect (level = j)); congruence.
    + apply veoi_run. by destruct x.
    + assert (∀ y d, in_intl (delivery (enabled_vcpu y <| delivery ::= d |>)) = in_intl (d (delivery y))) as ->
        by (by intros []). unfold end_of_interrupt. rewrite Ein, Ef, (proj2 (Z.eqb_neq _ _)) by lia. cbn [negb].
      change (in_intl (?d <| in_intl ::= ?f |>)) with (f (in_intl d)). cbv beta. by rewrite Ein, Er.
  - intros E0. rewrite veoi_run by done.
    assert (end_of_interrupt (delivery x) = delivery x) as Ee by (unfold end_of_interrupt; by rewrite E0).
    assert (enabled_vcpu x <| delivery ::= end_of_interrupt |> = enabled_vcpu x) as ->; [|done].
    destruct x. cbn in Ee |- *. by rewrite Ee.
Qed.
End Entry.
