(* ===== verification/Visr.v ===== *)
(** * Visr: interrupts that reach the hypervisor

    Models src/subsys/twanvisor/visr/: visr_index.c (the vectors, draining the
    IPIs, stopping), visr_dispatcher.c (what an interrupt does) and vshield.c
    (recovery from an exception that is expected).

    The local APIC of a processor is outside: [read_lapic c l] is what the one
    of the processor [c] shows after the events [l].  [arrivals] are the
    interrupts that come while the processor waits for an IPI. *)

From S2P Require Import Prelude Std Bmp Dq DeltaChain SchedDsa Twan VschedDsa Vpartition Vutils.
From S2P Require Import Vrecovery Vsched Vemu.
From coqutil Require Import Datatypes.RecordSetters.
From Stdlib Require Import ZArith Lia Bool.
From stdpp Require Import base gmap list numbers sets.

Local Open Scope Z_scope.

(** ** Vectors *)

Definition VSCHED_TIMER_VECTOR : Z := 255.
Definition VIPI_VECTOR : Z := 254.
Definition VSPURIOUS_INT_VECTOR : Z := 239.
Definition DOUBLE_FAULT : Z := 8.
Definition MACHINE_CHECK : Z := 18.

Definition vreserved_exception_vectors : list Z :=
  [0; 1; 3; 4; 5; 6; 7; 8; 9; 10; 11; 12; 13; 14; 16; 17; 19; 20; 21].

Definition vset_available_vectors (available_vectors : bmp256) : bmp256 :=
  let b := bmp256_set_all available_vectors in
  let b := bmp256_unset b DOUBLE_FAULT in
  let b := bmp256_unset b MACHINE_CHECK in
  let b := bmp256_unset b VSPURIOUS_INT_VECTOR in
  let b := bmp256_unset b VSCHED_TIMER_VECTOR in
  bmp256_unset b VIPI_VECTOR.

Definition vis_exception_vector (vector : Z) : bool :=
  existsb (fun v => v =? vector) vreserved_exception_vectors.

(** ** Shields *)

Definition venter_shield_local (vector rip : Z) : M hv Z :=
  p <~ vthis_cpu_data ;;
  massert (negb (handling_isr p)) ;;;
  if negb (vis_exception_vector vector) then ret (- EINVAL) else
  upd_this (fun p => p <| shield ::= fun sh =>
    sh <| exception_vector := vector |> <| recovery_rip := rip |> <| faulted := false |>
       <| recover_by_length := false |> <| active := true |> |>) ;;;
  ret 0.

Definition venter_shield_local_length (vector length : Z) : M hv Z :=
  p <~ vthis_cpu_data ;;
  massert (negb (handling_isr p)) ;;;
  if negb (vis_exception_vector vector) then ret (- EINVAL) else
  upd_this (fun p => p <| shield ::= fun sh =>
    sh <| exception_vector := vector |> <| faulted := false |> <| recover_by_length := true |>
       <| sh_len := length |> <| active := true |> |>) ;;;
  ret 0.

Definition vexit_shield_local : M hv bool :=
  p <~ vthis_cpu_data ;;
  massert (negb (handling_isr p)) ;;;
  let ret_ := faulted (shield p) in
  upd_this (fun p => p <| shield -> active := false |>) ;;;
  ret ret_.

(** ** Stopping *)

Fixpoint vdead_others (me : Z) (i : Z) (n : nat) : M hv unit :=
  match n with
  | O => ret tt
  | S n =>
      (if negb (i =? me) then upd_cpu i (fun p => p <| dead := true |>) ;;; vipi_async i ;;; ret tt
       else ret tt) ;;;
      vdead_others me (i + 1) n
  end.
Definition vdead_global : M hv unit :=
  me <~ vthis_vprocessor_id ;;
  n <~ vnum_cpus ;;
  vdead_others me 0 (Z.to_nat n) ;;;
  vdead_local.

(** The trace is printed and everything stops. *)
Definition vpanic_exception : M hv unit := vdead_global.

(** ** Waking those who wait for an interrupt *)

Definition dispatch_queue (vector : Z) : M hv (dq vnode) :=
  p <~ vthis_cpu_data ;;
  fun s => match dispatch_vectors p !! Z.to_nat vector with Some d => Ok (d, s) | None => Fault FBounds end.

Fixpoint vdispatch_loop (fuel : nat) (vector : Z) (cur : option vnode) : M hv unit :=
  match cur with
  | None => ret tt
  | Some n =>
      match fuel with
      | O => fun s => Fault FFuel
      | S fuel =>
          v <~ not_null (dispatch_node_to_vcpu n vector) ;;
          vemu_set_interrupt_pending v vector (vector =? NMI) ;;;
          s <~ mget ;;
          node <~ lift (load (h_nodes s) n) ;;
          mmodify (fun s => s <| h_nodes ::= <[n := LNode None None]> |>) ;;;
          vdispatch_loop fuel vector (next node)
      end
  end.

(** No node is visited twice, so as many steps as there are nodes are enough. *)
Definition vdispatch_interrupt (vector : Z) : M hv unit :=
  this <~ vthis_vprocessor_id ;;
  with_vlock (LDispatch this)
    (d <~ dispatch_queue vector ;;
     s <~ mget ;;
     vdispatch_loop (size (h_nodes s)) vector (front d) ;;;
     upd_this (fun p => p <| dispatch_vectors ::= <[Z.to_nat vector := dq_init]> |>)).

(** ** The dispatchers *)

Record lapic := Lapic {
  isr_set : Z → bool;      (* vis_lapic_isr_set *)
  irr_set : Z → bool;      (* vis_lapic_irr_set *)
  oneshot_done : bool;     (* vis_lapic_oneshot_done *)
}.

Section Isr.
Context (read_lapic : Z → list vevent → lapic) (arrivals : list vevent → list Z) (here : context).

Definition lapic_now : M hv lapic := mgets (fun s => read_lapic (h_this s) (h_log s)).
Definition vlapic_eoi : M hv unit := vlog EEoi.

Definition vacknowledge_interrupt (vector : Z) : M hv unit :=
  l <~ lapic_now ;;
  if isr_set l vector then vlapic_eoi else ret tt.

(** The frame with which the interrupt returns: the one that [vcpu_ctx] points
    to, unless another interrupt was interrupted. *)
Definition move_rip (was_in_isr : bool) (frame : context) (f : Z → Z) : M hv context :=
  if was_in_isr then ret (frame <| cx_rip ::= f |>)
  else upd_this (fun p => p <| vcpu_ctx -> cx_rip ::= f |>) ;;; ret frame.

(** Its parts around the vector and for the IPIs are in Vsched. *)
Definition __visr_dispatcher (vector : Z) (emulated : bool) (frame : context) : M hv context :=
  was_in_isr <~ visr_enter frame ;;
  r <~ (if vector =? VSCHED_TIMER_VECTOR then
          l <~ lapic_now ;;
          done <~ vis_sched_timer_done (oneshot_done l) ;;
          (if (done : bool) then vsched_preempt_isr else ret tt) ;;; ret (false, frame)
        else if vector =? VIPI_VECTOR then visr_ipi ;;; ret (false, frame)
        else if vector =? VSPURIOUS_INT_VECTOR then ret (false, frame)
        else
          l <~ lapic_now ;;
          if isr_set l vector then
            massert (negb (vector =? DOUBLE_FAULT)) ;;;
            massert (negb (vector =? MACHINE_CHECK)) ;;;
            ret (true, frame)
          else
            massert (negb (vector =? NMI)) ;;;
            if vis_exception_vector vector then
              p <~ vthis_cpu_data ;;
              let sh := shield p in
              if active sh && (exception_vector sh =? vector) then
                upd_this (fun p => p <| shield -> faulted := true |>) ;;;
                frame <~ move_rip was_in_isr frame
                  (fun rip => if recover_by_length sh then u64 (rip + sh_len sh) else recovery_rip sh) ;;
                ret (false, frame)
              else vpanic_exception ;;; ret (false, frame)
            else ret (false, frame)) ;;
  (if fst r then vdispatch_interrupt vector else ret tt) ;;;
  (if negb emulated then vacknowledge_interrupt vector else ret tt) ;;;
  visr_leave was_in_isr (snd r).

(** An interrupt or exception where the hypervisor runs. *)
Definition interrupted (vector : Z) : M hv unit := __visr_dispatcher vector false here ;;; ret tt.

Fixpoint interrupted_by (vectors : list Z) : M hv unit :=
  match vectors with
  | [] => ret tt
  | v :: vs => interrupted v ;;; interrupted_by vs
  end.

(** An interrupt that the processor had accepted but not delivered when the
    guest exited. *)
Definition drain_vector (i : Z) : M hv unit :=
  l <~ lapic_now ;;
  if isr_set l i then
    (if i =? VSCHED_TIMER_VECTOR then
       done <~ vis_sched_timer_done (oneshot_done l) ;;
       (if (done : bool) then v <~ vcurrent_vcpu ;; set_yield_request v true else ret tt)
     else if i =? VIPI_VECTOR then
       p <~ vthis_cpu_data ;;
       (if dead p then vdead_local else ret tt)
     else vdispatch_interrupt i) ;;;
    vlapic_eoi
  else ret tt.

Fixpoint drain_vectors (n : nat) (i : Z) : M hv unit :=
  match n with O => ret tt | S n => drain_vector i ;;; drain_vectors n (i - 1) end.
(** for (int i = 255; i >= 240; i--) *)
Definition vhandle_buggy_lapic_isr : M hv unit := drain_vectors 16 255.

(** If [drain] is still set when no more interrupts come, the wait is endless. *)
Definition vipi_drain_no_yield : M hv unit :=
  vhandle_buggy_lapic_isr ;;;
  l <~ lapic_now ;;
  if irr_set l VIPI_VECTOR then
    upd_this (fun p => p <| drain := true |>) ;;;
    vcurrent_vcpu_disable_preemption ;;;
    vs <~ mgets (fun s => arrivals (h_log s)) ;;
    interrupted_by vs ;;;
    p <~ vthis_cpu_data ;;
    (if drain p then (fun s => Fault FFuel) else ret tt) ;;;
    vcurrent_vcpu_enable_preemption_no_yield
  else ret tt.

(** An interrupt that made the guest exit. *)
Definition vexit_ext_dispatcher (vector : Z) : M hv unit :=
  (if vector =? VSCHED_TIMER_VECTOR then
     l <~ lapic_now ;;
     done <~ vis_sched_timer_done (oneshot_done l) ;;
     (if (done : bool) then v <~ vcurrent_vcpu ;; set_yield_request v true else ret tt)
   else if vector =? VIPI_VECTOR then
     p <~ vthis_cpu_data ;;
     (if dead p then vdead_local else ret tt)
   else if vector =? VSPURIOUS_INT_VECTOR then ret tt
   else
     massert (negb (vector =? DOUBLE_FAULT)) ;;;
     massert (negb (vector =? MACHINE_CHECK)) ;;;
     vdispatch_interrupt vector) ;;;
  vacknowledge_interrupt vector ;;;
  vipi_drain_no_yield.
End Isr.

(** ** Dispatch wakes those who wait, and only them *)

Section Dispatch.
Context (vector : Z).

Fixpoint wake (vs : list vptr) (m : gmap vptr vcpu) : gmap vptr vcpu :=
  match vs with
  | [] => m
  | v :: vs => wake vs (alter (fun x => pended x vector (vector =? NMI)) v m)
  end.
Fixpoint detach (vs : list vptr) (h : gmap vnode (lnode vnode)) : gmap vnode (lnode vnode) :=
  match vs with
  | [] => h
  | v :: vs => detach vs (<[NDisp v vector := LNode None None]> h)
  end.

Lemma wake_lookup vs m v : NoDup vs →
  wake vs m !! v = if decide (v ∈ vs) then (fun x => pended x vector (vector =? NMI)) <$> m !! v else m !! v.
Proof.
  revert m. induction vs as [|w vs IH]; intros m Hnd; [done|]. apply NoDup_cons in Hnd as [Hw Hnd].
  cbn [wake]. rewrite IH by done. destruct (decide (v = w)) as [-> | Hne].
  - rewrite decide_False by done. rewrite lookup_alter_eq. rewrite decide_True by apply list_elem_of_here. done.
  - rewrite lookup_alter_ne by done. destruct (decide (v ∈ vs)) as [Hin|Hin].
    + by rewrite decide_True by by apply list_elem_of_further.
    + rewrite decide_False; [done|]. by intros [->|?]%elem_of_cons.
Qed.

Lemma detach_lookup vs h n :
  detach vs h !! n = if decide (n ∈ (fun v => NDisp v vector) <$> vs) then Some (LNode None None) else h !! n.
Proof.
  revert h. induction vs as [|w vs IH]; intros h; [done|]. cbn [detach fmap list_fmap].
  rewrite IH. destruct (decide (n ∈ (fun v => NDisp v vector) <$> vs)) as [Hin|Hin].
  - by rewrite decide_True by by apply list_elem_of_further.
  - destruct (decide (n = NDisp w vector)) as [-> | Hne].
    + by rewrite lookup_insert_eq, decide_True by apply list_elem_of_here.
    + rewrite lookup_insert_ne by congruence. rewrite decide_False; [done|]. by intros [->|?]%elem_of_cons.
Qed.

Definition dispatch_nodes (vs : list vptr) : list vnode := (fun v => NDisp v vector) <$> vs.

Lemma alter_known (f : vcpu → vcpu) (m : gmap vptr vcpu) (v : vptr) x : m !! v = Some x → alter f v m = <[v := f x]> m.
Proof.
  intros E. apply map_eq. intros w. destruct (decide (v = w)) as [<- | Hne].
  - by rewrite lookup_alter_eq, lookup_insert_eq, E.
  - by rewrite lookup_alter_ne, lookup_insert_ne.
Qed.

(** The loop, over the nodes of [vs]. *)
Definition dispatched (vs : list vptr) (s : hv) : hv :=
  s <| h_vcpus ::= wake vs |> <| h_nodes ::= detach vs |>.

Definition woken (s : hv) (v : vptr) (x : vcpu) : hv :=
  s <| h_vcpus ::= <[v := pended x vector (vector =? NMI)]> |>.
Definition unlinked (s : hv) (n : vnode) : hv := s <| h_nodes ::= <[n := LNode None None]> |>.

Lemma set_pending_run s v x : h_vcpus s !! v = Some x → LPending v ∉ h_locks s →
  vemu_set_interrupt_pending v vector (vector =? NMI) s =
  Ok (0, woken s v x).
Proof.
  intros Ex Hl. unfold vemu_set_interrupt_pending.
  assert ((vector =? NMI) && negb (vector =? NMI) = false) as -> by by destruct (_ =? _).
  assert (with_vlock (LPending v) (__vemu_set_interrupt_pending v vector (vector =? NMI)) s =
    Ok (tt, woken s v x)) as E; [|by mstep E].
  apply with_vlock_run; [done| |done]. unfold __vemu_set_interrupt_pending, woken, pended.
  destruct (vector =? NMI); match goal with |- upd_vcpu v ?f ?s' = _ => by rewrite (upd_vcpu_run s' v x f Ex) end.
Qed.

(** Those who wait are there and nobody holds the lock of their interrupts. *)
Definition can_wake (s : hv) (vs : list vptr) : Prop :=
  ∀ v, v ∈ vs → is_Some (h_vcpus s !! v) ∧ LPending v ∉ h_locks s.

Lemma vdispatch_loop_run vs : ∀ fuel pv s,
  NoDup vs → can_wake s vs → linked (h_nodes s) pv (dispatch_nodes vs) None → (length vs ≤ fuel)%nat →
  vdispatch_loop fuel vector (hd_or (dispatch_nodes vs) None) s = Ok (tt, dispatched vs s).
Proof.
  induction vs as [|v vs IH]; intros fuel pv s Hnd Hw Hl Hf; [by destruct fuel, s|].
  destruct fuel as [|fuel]; cbn in Hf; [lia|]. apply NoDup_cons in Hnd as [Hv Hnd].
  destruct Hl as [Hn Hl]. destruct (Hw v ltac:(left)) as [[x Ex] Hlk].
  cbn [dispatch_nodes fmap list_fmap hd_or vdispatch_loop dispatch_node_to_vcpu]. rewrite Z.eqb_refl.
  mstep (eq_refl : not_null (Some v) s = Ok (v, s)). mstep (set_pending_run s v x Ex Hlk).
  mstep (eq_refl : mget (woken s v x) = Ok (woken s v x, woken s v x)).
  assert (lift (load (h_nodes (woken s v x)) (NDisp v vector)) (woken s v x) =
    Ok (LNode (hd_or (dispatch_nodes vs) None) pv, woken s v x)) as E
    by (unfold lift; change (h_nodes (woken s v x)) with (h_nodes s); by rewrite (load_ok _ _ _ Hn)).
  mstep E. clear E. unfold mmodify, bind at 1. cbn [next].
  etrans; [apply (IH fuel (Some (NDisp v vector)) (unlinked (woken s v x) (NDisp v vector)) Hnd); [| |lia]|].
  - intros w Hin. destruct (Hw w ltac:(by right)) as [[y Ey] Hlw]. split; [|done].
    change (is_Some (<[v := pended x vector (vector =? NMI)]> (h_vcpus s) !! w)).
    apply lookup_insert_is_Some'. by right; exists y.
  - change (h_nodes (unlinked (woken s v x) (NDisp v vector))) with (<[NDisp v vector := LNode None None]> (h_nodes s)).
    eapply linked_frame; [|exact Hl]. intros m Hm. apply lookup_insert_ne. intros <-.
    apply list_elem_of_fmap in Hm as (w & E & Hin). by injection E as ->.
  - unfold dispatched, woken, unlinked, apply_update. destruct s. cbn in Ex |- *. by rewrite (alter_known _ _ _ _ Ex).
Qed.

Lemma this_cpu_run s p : h_cpus s !! h_this s = Some p → vthis_cpu_data s = Ok (p, s).
Proof.
  intros E. unfold vthis_cpu_data. mstep (eq_refl : vthis_vprocessor_id s = Ok (h_this s, s)).
  exact (get_cpu_run _ _ _ E).
Qed.
Lemma upd_this_run s p f : h_cpus s !! h_this s = Some p →
  upd_this f s = Ok (tt, s <| h_cpus ::= <[h_this s := f p]> |>).
Proof.
  intros E. unfold upd_this. mstep (eq_refl : vthis_vprocessor_id s = Ok (h_this s, s)).
  by rewrite (upd_cpu_run s _ p).
Qed.

(** The processor [c], whose data is [p], after the dispatch. *)
Definition emptied (c : Z) (p : vper_cpu) (s : hv) : hv :=
  s <| h_cpus ::= <[c := p <| dispatch_vectors ::= <[Z.to_nat vector := dq_init]> |>]> |>.
Definition locked (l : vlock) (s : hv) : hv := s <| h_locks ::= cons l |>.

Lemma dispatch_nodes_nodup vs : NoDup (dispatch_nodes vs) → NoDup vs.
Proof. apply NoDup_fmap_1. Qed.

Lemma vdispatch_interrupt_run s p d vs :
  h_cpus s !! h_this s = Some p → dispatch_vectors p !! Z.to_nat vector = Some d →
  dq_rep (h_nodes s) d (dispatch_nodes vs) → can_wake s vs → LDispatch (h_this s) ∉ h_locks s →
  vdispatch_interrupt vector s = Ok (tt, emptied (h_this s) p (dispatched vs s)).
Proof.
  intros Ep Ed [Hnd Hl Hf _] Hw Hlk. unfold vdispatch_interrupt.
  mstep (eq_refl : vthis_vprocessor_id s = Ok (h_this s, s)). apply with_vlock_run; [done| |done].
  pose (s1 := locked (LDispatch (h_this s)) s).
  match goal with |- ?b _ = _ =>
    change (b s1 = Ok (tt, emptied (h_this s) p (dispatched vs s1))) end.
  assert (dispatch_queue vector s1 = Ok (d, s1)) as E
    by (unfold dispatch_queue; mstep (this_cpu_run s1 p Ep); by rewrite Ed).
  mstep E. mstep (eq_refl : mget s1 = Ok (s1, s1)). rewrite Hf.
  assert (can_wake s1 vs) as Hw1.
  { intros v Hv. destruct (Hw v Hv) as [Hx Hn]. split; [done|].
    change (LPending v ∉ LDispatch (h_this s) :: h_locks s). by intros [?|?]%elem_of_cons. }
  assert (length vs ≤ size (h_nodes s1))%nat as Hsz.
  { rewrite <- (length_fmap (fun v => NDisp v vector)). eapply linked_length; [exact Hnd|exact Hl]. }
  mstep (vdispatch_loop_run vs _ None s1 (dispatch_nodes_nodup _ Hnd) Hw1 Hl Hsz).
  by rewrite (upd_this_run (dispatched vs s1) p).
Qed.

(** C34.  An interrupt that arrives is given to everybody who waits for it and to
    nobody else: each vcpu in the dispatch queue of the vector gets it pending,
    the queue is left empty with all its nodes free to be queued again, and
    nothing else changes. *)
Theorem vdispatch_interrupt_wakes_all s p d vs :
  h_cpus s !! h_this s = Some p → dispatch_vectors p !! Z.to_nat vector = Some d →
  dq_rep (h_nodes s) d (dispatch_nodes vs) → can_wake s vs → LDispatch (h_this s) ∉ h_locks s →
  ∃ s', vdispatch_interrupt vector s = Ok (tt, s') ∧
    (∀ v, h_vcpus s' !! v =
       if decide (v ∈ vs) then (fun x => pended x vector (vector =? NMI)) <$> h_vcpus s !! v else h_vcpus s !! v) ∧
    (∀ c, h_cpus s' !! c =
       if c =? h_this s then Some (p <| dispatch_vectors ::= <[Z.to_nat vector := dq_init]> |>) else h_cpus s !! c) ∧
    (∀ v, v ∈ vs → detached (h_nodes s') (NDisp v vector)) ∧
    (∀ n, n ∉ dispatch_nodes vs → h_nodes s' !! n = h_nodes s !! n) ∧
    h_locks s' = h_locks s ∧ h_log s' = h_log s ∧ h_vmcs s' = h_vmcs s.
Proof.
  intros Ep Ed Hr Hw Hlk. exists (emptied (h_this s) p (dispatched vs s)).
  split; [by apply (vdispatch_interrupt_run s p d vs)|].
  pose proof (dispatch_nodes_nodup _ (rep_nodup _ _ _ Hr)) as Hnd. split; [|split; [|split; [|split; [|done]]]].
  - intros v. exact (wake_lookup vs (h_vcpus s) v Hnd).
  - intros c. destruct (Z.eqb_spec c (h_this s)) as [-> | Hne].
    + exact (lookup_insert_eq (h_cpus s) (h_this s) _).
    + by apply (lookup_insert_ne (h_cpus s)).
  - intros v Hv. pose proof (detach_lookup vs (h_nodes s) (NDisp v vector)) as E.
    rewrite decide_True in E by (apply list_elem_of_fmap; by exists v). exact E.
  - intros n Hn. pose proof (detach_lookup vs (h_nodes s) n) as E.
    rewrite decide_False in E by done. exact E.
Qed.
End Dispatch.

(** ** Exceptions of the hypervisor *)

Section Shields.
Context (read_lapic : Z → list vevent → lapic) (here : context).

(** The shield for [vector]; what it becomes when the exception comes. *)
Definition shield_for (vector length : Z) (sh : vshield) : vshield :=
  sh <| exception_vector := vector |> <| faulted := false |> <| recover_by_length := true |>
     <| sh_len := length |> <| active := true |>.

(** Every processor that is enabled has its data. *)
Definition cpus_ok (s : hv) : Prop := ∀ i, 0 <= i < h_num_cpus s → is_Some (h_cpus s !! i).

Lemma vipi_async_keeps s i : 0 <= i → ∃ r s', vipi_async i s = Ok (r, s') ∧
  h_cpus s' = h_cpus s ∧ h_num_cpus s' = h_num_cpus s.
Proof.
  intros Hi. unfold vipi_async. mstep (eq_refl : vthis_vprocessor_id s = Ok (h_this s, s)).
  destruct (_ =? _); [by eexists _, _|]. mstep (eq_refl : vnum_cpus s = Ok (h_num_cpus s, s)).
  destruct (_ <=? _); by eexists _, _.
Qed.

Lemma vdead_others_run me n : ∀ i s, cpus_ok s → 0 <= i → i + Z.of_nat n = h_num_cpus s →
  ∃ s', vdead_others me i n s = Ok (tt, s').
Proof.
  induction n as [|n IH]; intros i s Hok Hi Hn; [by eexists|]. cbn [vdead_others].
  destruct (i =? me).
  - mstep (eq_refl : ret tt s = Ok (tt, s)). apply IH; [done|lia|lia].
  - cbn [negb]. destruct (Hok i ltac:(lia)) as [p Ep].
    unfold bind at 1. unfold bind at 1. rewrite (upd_cpu_run s i p) by done. unfold bind at 1.
    match goal with |- context [vipi_async i ?s'] => destruct (vipi_async_keeps s' i Hi) as (r & s2 & -> & Ec & En) end.
    cbv beta iota. unfold ret at 1. cbv iota beta. apply IH; [|lia|rewrite En; change (i + 1 + Z.of_nat n = h_num_cpus s)].
    + intros j Hj. rewrite Ec. rewrite En in Hj. apply (lookup_insert_is_Some' (h_cpus s)). right. by apply Hok.
    + lia.
Qed.

Lemma vdead_global_halts s : cpus_ok s → 0 <= h_num_cpus s → vdead_global s = Fault FHalt.
Proof.
  intros Hok Hn. unfold vdead_global. mstep (eq_refl : vthis_vprocessor_id s = Ok (h_this s, s)).
  mstep (eq_refl : vnum_cpus s = Ok (h_num_cpus s, s)).
  destruct (vdead_others_run (h_this s) (Z.to_nat (h_num_cpus s)) 0 s) as (s' & E); [done|lia|lia|].
  by mstep E.
Qed.

(** What makes a vector an exception to the dispatcher. *)
Lemma exception_vectors vector : vis_exception_vector vector = true →
  (vector =? VSCHED_TIMER_VECTOR) = false ∧ (vector =? VIPI_VECTOR) = false ∧
  (vector =? VSPURIOUS_INT_VECTOR) = false ∧ (vector =? NMI) = false.
Proof.
  unfold vis_exception_vector. intros (v & Hv & E)%existsb_exists. apply Z.eqb_eq in E as ->.
  unfold vreserved_exception_vectors in Hv. cbn [In] in Hv.
  repeat (destruct Hv as [<- | Hv]; [by vm_compute|]). destruct Hv.
Qed.

(** No exception vector is in service: interrupts have other vectors. *)
Definition exceptions_free (s : hv) : Prop :=
  ∀ v, vis_exception_vector v = true → isr_set (read_lapic (h_this s) (h_log s)) v = false.

(** [s] with the data [p] of this processor. *)
Definition this_set (s : hv) (p : vper_cpu) : hv := s <| h_cpus ::= <[h_this s := p]> |>.
Lemma this_set_lookup s p : h_cpus (this_set s p) !! h_this (this_set s p) = Some p.
Proof. exact (lookup_insert_eq (h_cpus s) _ p). Qed.
Lemma this_cpu_set s p : vthis_cpu_data (this_set s p) = Ok (p, this_set s p).
Proof. apply this_cpu_run, this_set_lookup. Qed.
Lemma upd_this_set s p f : upd_this f (this_set s p) = Ok (tt, this_set s (f p)).
Proof.
  rewrite (upd_this_run _ p) by apply this_set_lookup. unfold this_set, apply_update. destruct s. cbn.
  by rewrite insert_insert_eq.
Qed.
Lemma this_set_id s p : h_cpus s !! h_this s = Some p → this_set s p = s.
Proof. intros E. destruct s. unfold this_set, apply_update. cbn in *. by rewrite insert_id. Qed.

Definition resumed (sh : vshield) (frame : context) : context :=
  frame <| cx_rip := if recover_by_length sh then u64 (cx_rip frame + sh_len sh) else recovery_rip sh |>.
Definition caught (p : vper_cpu) (frame : context) : vper_cpu :=
  p <| shield -> faulted := true |> <| vcpu_ctx := resumed (shield p) frame |>.

Definition in_isr (p : vper_cpu) (frame : context) : vper_cpu :=
  p <| handling_isr := true |> <| vcpu_ctx := frame |>.

Lemma visr_enter_run s p frame :
  visr_enter frame (this_set s p) = Ok (handling_isr p, this_set s (if handling_isr p then p else in_isr p frame)).
Proof.
  unfold visr_enter. mstep (this_cpu_set s p). cbv zeta. destruct (handling_isr p) eqn:E; [done|].
  by mstep (upd_this_set s p (fun p => in_isr p frame)).
Qed.
Lemma visr_leave_run s p frame : visr_leave false frame (this_set s p) =
  Ok (vcpu_ctx p, this_set s (p <| handling_isr := false |>)).
Proof. unfold visr_leave. mstep (this_cpu_set s p). by mstep (upd_this_set s p (fun p => p <| handling_isr := false |>)). Qed.

Lemma exception_shielded s p vector frame :
  exceptions_free s → vis_exception_vector vector = true →
  handling_isr p = false → active (shield p) = true → exception_vector (shield p) = vector →
  __visr_dispatcher read_lapic vector false frame (this_set s p) =
  Ok (resumed (shield p) frame, this_set s (caught p frame)).
Proof.
  intros Hfree Hv Hi Ha He. destruct (exception_vectors vector Hv) as (E1 & E2 & E3 & E4).
  unfold __visr_dispatcher. mstep (visr_enter_run s p frame). rewrite Hi, E1, E2, E3.
  match goal with |- bind ?m _ _ = _ =>
    assert (m (this_set s (in_isr p frame)) =
      Ok ((false, frame), this_set s (in_isr (caught p frame) (resumed (shield p) frame)))) as E end.
  { mstep (eq_refl : lapic_now read_lapic (this_set s (in_isr p frame)) =
      Ok (read_lapic (h_this s) (h_log s), this_set s (in_isr p frame))).
    rewrite Hfree, E4, Hv by done.
    mstep (eq_refl : massert (negb false) (this_set s (in_isr p frame)) = Ok (tt, this_set s (in_isr p frame))).
    mstep (this_cpu_set s (in_isr p frame)). change (shield (in_isr p frame)) with (shield p).
    rewrite Ha, He, Z.eqb_refl. cbn [andb].
    mstep (upd_this_set s (in_isr p frame) (fun p => p <| shield -> faulted := true |>)).
    unfold move_rip. unfold bind at 1. unfold bind at 1. rewrite upd_this_set. unfold ret. repeat f_equal. }
  mstep E. clear E. cbn [fst snd negb]. unfold ret at 1, bind at 1.
  assert (∀ q, vacknowledge_interrupt read_lapic vector (this_set s q) = Ok (tt, this_set s q)) as E.
  { intros q. unfold vacknowledge_interrupt.
    mstep (eq_refl : lapic_now read_lapic (this_set s q) = Ok (read_lapic (h_this s) (h_log s), this_set s q)).
    by rewrite Hfree. }
  mstep (E (in_isr (caught p frame) (resumed (shield p) frame))). rewrite visr_leave_run.
  repeat f_equal. unfold in_isr, caught. destruct p. cbn in Hi |- *. by rewrite Hi.
Qed.

Lemma exception_unshielded s p vector frame :
  exceptions_free s → vis_exception_vector vector = true → cpus_ok s → 0 <= h_num_cpus s →
  active (shield p) && (exception_vector (shield p) =? vector) = false →
  __visr_dispatcher read_lapic vector false frame (this_set s p) = Fault FHalt.
Proof.
  intros Hfree Hv Hc Hn Ha. destruct (exception_vectors vector Hv) as (E1 & E2 & E3 & E4).
  unfold __visr_dispatcher. mstep (visr_enter_run s p frame). rewrite E1, E2, E3.
  set (q := if handling_isr p then p else in_isr p frame).
  assert (shield q = shield p) as Eq by (unfold q; by destruct (handling_isr p)).
  unfold bind at 1.
  match goal with |- match ?m _ with _ => _ end = _ => assert (m (this_set s q) = Fault FHalt) as ->; [|done] end.
  mstep (eq_refl : lapic_now read_lapic (this_set s q) = Ok (read_lapic (h_this s) (h_log s), this_set s q)).
  rewrite Hfree, E4, Hv by done. mstep (eq_refl : massert (negb false) (this_set s q) = Ok (tt, this_set s q)).
  mstep (this_cpu_set s q). rewrite Eq, Ha. unfold bind, vpanic_exception. rewrite vdead_global_halts; [done| |done].
  intros i Hi. apply (lookup_insert_is_Some' (h_cpus s)). right. by apply Hc.
Qed.

(** The processor is under the shield for [vector]. *)
Record guarded (vector length : Z) (q : vper_cpu) : Prop := {
  gd_isr : handling_isr q = false;
  gd_active : active (shield q) = true;
  gd_vector : exception_vector (shield q) = vector;
  gd_by_length : recover_by_length (shield q) = true;
  gd_length : sh_len (shield q) = length;
}.

Definition skipped (length : Z) : context := here <| cx_rip := u64 (cx_rip here + length) |>.

Lemma caught_guarded vector length q :
  guarded vector length q → guarded vector length (caught q here) ∧ vcpu_ctx (caught q here) = skipped length.
Proof.
  intros [H1 H2 H3 H4 H5]. split; [by split|]. unfold caught, resumed, skipped. cbn. by rewrite H4, H5.
Qed.

Lemma interrupted_by_run s vector length raised : ∀ q,
  exceptions_free s → cpus_ok s → 0 <= h_num_cpus s → vis_exception_vector vector = true →
  forallb vis_exception_vector raised = true → guarded vector length q →
  match interrupted_by read_lapic here raised (this_set s q) with
  | Ok (_, s') => raised = replicate (List.length raised) vector ∧
      ∃ q', s' = this_set s q' ∧ guarded vector length q' ∧
        (raised = [] → q' = q) ∧ (raised ≠ [] → faulted (shield q') = true ∧ vcpu_ctx q' = skipped length)
  | Fault f => f = FHalt ∧ ∃ v, v ∈ raised ∧ v ≠ vector
  end.
Proof.
  induction raised as [|v raised IH]; intros q Hfree Hc Hn Hv Hr Hq; cbn [interrupted_by].
  - split; [done|]. by exists q.
  - apply andb_true_iff in Hr as [Hv' Hr]. destruct (caught_guarded _ _ _ Hq) as [Hq' Hctx].
    destruct (decide (v = vector)) as [-> | Hne].
    + assert (interrupted read_lapic here vector (this_set s q) = Ok (tt, this_set s (caught q here))) as E
        by (unfold interrupted; destruct Hq; by mstep (exception_shielded s q vector here Hfree Hv' gd_isr0 gd_active0 gd_vector0)).
      mstep E. clear E. specialize (IH (caught q here) Hfree Hc Hn Hv Hr Hq').
      destruct (interrupted_by _ _ _ _) as [[[] s']|f].
      * destruct IH as (Er & q' & -> & Hg & H0 & H1). split; [cbn; by f_equal|]. exists q'.
        split; [done|]. split; [done|]. split; [done|]. intros _.
        destruct raised; [by rewrite (H0 eq_refl)|by apply H1].
      * destruct IH as (-> & w & Hw & Hwn). split; [done|]. exists w. split; [by right|done].
    + unfold interrupted, bind. rewrite exception_unshielded; try done; [split; [done|]|].
      * exists v. split; [by left|done].
      * destruct Hq. rewrite gd_active0, gd_vector0. by apply Z.eqb_neq.
Qed.

Definition shielded (vector length : Z) (p : vper_cpu) : vper_cpu :=
  p <| shield ::= shield_for vector length |>.
Definition unshielded (p : vper_cpu) : vper_cpu := p <| shield -> active := false |>.

Lemma enter_shield_run s p vector length : handling_isr p = false → vis_exception_vector vector = true →
  venter_shield_local_length vector length (this_set s p) = Ok (0, this_set s (shielded vector length p)).
Proof.
  intros Hi Hv. unfold venter_shield_local_length. mstep (this_cpu_set s p). rewrite Hi, Hv.
  mstep (eq_refl : massert (negb false) (this_set s p) = Ok (tt, this_set s p)). cbn [negb].
  by mstep (upd_this_set s p (shielded vector length)).
Qed.

Lemma exit_shield_run s p : handling_isr p = false →
  vexit_shield_local (this_set s p) = Ok (faulted (shield p), this_set s (unshielded p)).
Proof.
  intros Hi. unfold vexit_shield_local. mstep (this_cpu_set s p). rewrite Hi.
  mstep (eq_refl : massert (negb false) (this_set s p) = Ok (tt, this_set s p)).
  by mstep (upd_this_set s p unshielded).
Qed.

(** C33.  A shield catches the exception it was raised for, and nothing else
    goes on after an exception of the hypervisor: with a shield for [vector]
    around code that raises the exceptions [raised], the code is resumed
    behind each instruction that raised [vector] and leaving the shield tells
    whether there was one; any other exception stops the machine. *)
Theorem shield_catches_its_exception s p vector length raised :
  h_cpus s !! h_this s = Some p → handling_isr p = false → exceptions_free s → cpus_ok s → 0 <= h_num_cpus s →
  vis_exception_vector vector = true → forallb vis_exception_vector raised = true →
  match (venter_shield_local_length vector length ;;; interrupted_by read_lapic here raised ;;; vexit_shield_local) s with
  | Ok (caught_one, s') =>
      raised = replicate (List.length raised) vector ∧ caught_one = negb (bool_decide (raised = [])) ∧
      ∃ p', s' = this_set s p' ∧ active (shield p') = false ∧ handling_isr p' = false ∧
        (raised ≠ [] → vcpu_ctx p' = here <| cx_rip := u64 (cx_rip here + length) |>)
  | Fault f => f = FHalt ∧ ∃ v, v ∈ raised ∧ v ≠ vector
  end.
Proof.
  intros Ep Hi Hfree Hc Hn Hv Hr. rewrite <- (this_set_id s p Ep).
  mstep (enter_shield_run s p vector length Hi Hv). rewrite (this_set_id s p Ep).
  pose proof (interrupted_by_run s vector length raised (shielded vector length p) Hfree Hc Hn Hv Hr
    ltac:(by split)) as H. unfold bind at 1.
  destruct (interrupted_by _ _ _ _) as [[[] s']|f]; [|exact H].
  destruct H as (Er & q & -> & [Hqi Hqa _ _ _] & H0 & H1).
  rewrite (exit_shield_run s q Hqi). split; [done|]. split.
  - destruct raised; [by rewrite (H0 eq_refl)|by destruct (H1 ltac:(done)) as [-> _]].
  - exists (unshielded q). split; [done|]. split; [done|]. split; [exact Hqi|].
    intros Hne. exact (proj2 (H1 Hne)).
Qed.
End Shields.

