(* ===== verification/Vswitch.v ===== *)
(** * Vswitch: giving the processor away

    A vcpu pauses, yields or ends by a self-IPI (visr_index.c): the function
    and its argument are stored, the interrupt is emulated, the dispatcher
    finds them, runs them with interrupts off and clears the request, and the
    frame that the function left is what the processor resumes.  Proved for
    the pause: the caller is saved and queued as paused, and the processor goes
    on with the vcpu that the scheduler chooses. *)

From S2P Require Import Prelude Std Bmp Dq DeltaChain SchedDsa Twan VschedDsa Vpartition Vutils.
From S2P Require Import Vrecovery Vsched Vemu Visr.
From coqutil Require Import Datatypes.RecordSetters.
From Stdlib Require Import ZArith Lia Bool.
From stdpp Require Import base gmap list numbers sets.

Local Open Scope Z_scope.

(** ** The emulated interrupt *)

(** It is the dispatcher, whatever the local APIC shows. *)
Theorem vemulated_ipi_dispatches read_lapic frame s :
  __visr_dispatcher read_lapic VIPI_VECTOR true frame s = __vemulate_ipi frame s.
Proof.
  unfold __visr_dispatcher, __vemulate_ipi. change (VIPI_VECTOR =? VSCHED_TIMER_VECTOR) with false.
  change (VIPI_VECTOR =? VIPI_VECTOR) with true. cbv iota. unfold bind, ret.
  destruct (visr_enter frame s) as [[was s1]|]; [|done]. by destruct (visr_ipi s1) as [[[] s2]|].
Qed.

(** ** States of the running processor *)

(** [s] with the data [q] of this processor, the nodes [h], the vcpus [M], the
    locks [L], the events [l] and the interrupt flag [i]. *)
Definition cf (s : hv) (q : vper_cpu) (h : vheap) (M : gmap vptr vcpu) (L : list vlock) (l : list vevent) (i : bool) : hv :=
  s <| h_cpus ::= <[h_this s := q]> |> <| h_nodes := h |> <| h_vcpus := M |> <| h_locks := L |> <| h_log := l |>
    <| h_interrupts ::= <[h_this s := i]> |>.

Implicit Types (s : hv) (q : vper_cpu) (h : vheap) (M : gmap vptr vcpu) (L : list vlock) (l : list vevent) (i : bool).

Lemma cf_this_cpu s q h M L l i : vthis_cpu_data (cf s q h M L l i) = Ok (q, cf s q h M L l i).
Proof. apply this_cpu_run. exact (lookup_insert_eq (h_cpus s) _ q). Qed.

Lemma cf_upd_this s f q h M L l i : upd_this f (cf s q h M L l i) = Ok (tt, cf s (f q) h M L l i).
Proof.
  rewrite (upd_this_run _ q) by exact (lookup_insert_eq (h_cpus s) _ q).
  destruct s. unfold cf, apply_update, constant. cbn. by rewrite insert_insert_eq.
Qed.

Lemma cf_current s v q h M L l i : current_vcpu q = Some v → vcurrent_vcpu (cf s q h M L l i) = Ok (v, cf s q h M L l i).
Proof. intros E. unfold vcurrent_vcpu. mstep (cf_this_cpu s q h M L l i). by rewrite E. Qed.

Lemma cf_get s v x q h M L l i : M !! v = Some x → get_vcpu v (cf s q h M L l i) = Ok (x, cf s q h M L l i).
Proof. intros E. by apply get_vcpu_run. Qed.

Lemma cf_upd s v x f q h M L l i : M !! v = Some x →
  upd_vcpu v f (cf s q h M L l i) = Ok (tt, cf s q h (<[v := f x]> M) L l i).
Proof. intros E. rewrite (upd_vcpu_run _ v x) by done. by destruct s. Qed.

Lemma cf_lock s k q h M L l i : k ∉ L → vmcs_lock_isr_save k (cf s q h M L l i) = Ok (tt, cf s q h M (k :: L) l i).
Proof. intros Hk. rewrite vlock_run by done. by destruct s. Qed.
Lemma cf_unlock s k q h M L l i : k ∉ L → vmcs_unlock_isr_restore k (cf s q h M (k :: L) l i) = Ok (tt, cf s q h M L l i).
Proof. intros Hk. rewrite (vunlock_run _ k L) by done. by destruct s. Qed.
Lemma cf_log s e q h M L l i : vlog e (cf s q h M L l i) = Ok (tt, cf s q h M L (l ++ [e]) i).
Proof. by destruct s. Qed.
Lemma cf_flags s b q h M L l i : write_flags b (cf s q h M L l i) = Ok (tt, cf s q h M L l b).
Proof.
  unfold write_flags, mmodify. destruct s as [t ? ? ? ? ? ? ? ? ? ? ? ? ? ? f]. unfold cf, apply_update, constant. cbn.
  by rewrite insert_insert_eq.
Qed.

Lemma cf_vq_set s p sc q h h' M L l i : vq_set (cf s p h' M L l i) (h_this s) q h sc = cf s (q <| vsched := sc |>) h M L l i.
Proof. destruct s. unfold cf, vq_set, apply_update, constant. cbn. by rewrite insert_insert_eq. Qed.

Lemma vsched_eta q : q <| vsched := vsched q |> = q.
Proof. by destruct q. Qed.

Lemma cf_push_paused s v x Qs P q h M L l i :
  vq_rep h (vsched q) Qs P → M !! v = Some x → vqueue_id x = h_this s → is_Some (h !! NSched v 0) →
  (∀ j, NSched v j ∉ Qs j) → NSched v 0 ∉ P →
  ∃ h' sc', __vsched_push_paused v (cf s q h M L l i) = Ok (tt, cf s (q <| vsched := sc' |>) h' M L l i) ∧
    vq_rep h' sc' Qs (P ++ [NSched v 0]) ∧ vcriticality_level sc' = vcriticality_level (vsched q).
Proof.
  intros Hr Ex Hc Hn Hq HP.
  destruct (push_paused_spec (cf s q h M L l i) (h_this s) q h (vsched q) Qs P v x) as (h' & sc' & E & Hr' & Hl & _); try done.
  rewrite !cf_vq_set, vsched_eta in E. by exists h', sc'.
Qed.

Lemma cf_pop s Qs P q h M L l i v x :
  vq_rep h (vsched q) Qs P → M !! v = Some x →
  let j := served (vcriticality_level (vsched q)) Qs in
  match Qs j with
  | [] => __vsched_pop (cf s q h M L l i) = Ok (None, cf s q h M L l i)
  | n :: rest => ∃ w h' sc', n = NSched w j ∧
      __vsched_pop (cf s q h M L l i) = Ok (Some w, cf s (q <| vsched := sc' |>) h' M L l i) ∧
      vq_rep h' sc' (q_set Qs j rest) P
  end.
Proof.
  intros Hr Ex j.
  pose proof (vsched_pop_chooses (cf s q h M L l i) q Qs P) as H.
  destruct (H (lookup_insert_eq (h_cpus s) _ q) Hr v x Ex) as [_ Hp]. clear H. cbv zeta in Hp. fold j in Hp.
  destruct (Qs j) as [|n rest]; [done|]. destruct Hp as (w & h' & sc' & -> & E & Hr' & _).
  change (h_this (cf s q h M L l i)) with (h_this s) in E. rewrite cf_vq_set in E. by exists w, h', sc'.
Qed.

(** What is where in a map of vcpus. *)
Ltac look := first [eassumption | apply lookup_insert_eq | rewrite lookup_insert_ne by congruence; look].

(** Runs one step of a computation whose outcome a lemma on [cf] gives. *)
Ltac crun tac := let H := fresh "H" in
  match goal with |- bind ?m _ ?s = _ => eassert (m s = _) as H by tac; mstep H; clear H end.
Ltac cstep := first
  [ crun ltac:(apply cf_this_cpu) | crun ltac:(apply cf_upd_this) | crun ltac:(apply cf_log)
  | crun ltac:(apply cf_flags) | crun ltac:(eapply cf_get; look) | crun ltac:(eapply cf_upd; look)
  | crun ltac:(by apply cf_lock) | crun ltac:(by apply cf_unlock)
  | match goal with |- bind vthis_vprocessor_id _ (cf ?s ?q ?h ?M ?L ?l ?i) = _ =>
      mstep (eq_refl : vthis_vprocessor_id (cf s q h M L l i) = Ok (h_this s, cf s q h M L l i)) end ].

(** ** Switching *)

(** The vcpu after it was saved as paused, with the registers [ctx]; the one
    that is switched to. *)
Definition switched_out (x : vcpu) (ctx : context) : vcpu :=
  x <| yield_request := false |> <| metadata -> state := VPAUSED |> <| metadata -> rearm := false |>
    <| preempted := true |> <| vcontext := ctx |>.
Definition switched_in (y : vcpu) : vcpu :=
  y <| metadata -> state := VTRANSITIONING |>
    <| metadata -> current_time_slice_ticks := time_slice_ticks (metadata y) |>.

(** A running vcpu [v], in no queue, on a processor that handles no interrupt;
    those that can be chosen are there. *)
Record pausing (s : hv) (p : vper_cpu) (v : vptr) (x : vcpu) (Qs : nat → list vnode) (P : list vnode) : Prop := {
  pa_cpu : h_cpus s !! h_this s = Some p;
  pa_calm : handling_isr p = false ∧ dead p = false;
  pa_current : current_vcpu p = Some v ∧ v ≠ VIdle (h_this s);
  pa_vcpu : h_vcpus s !! v = Some x;
  pa_home : vqueue_id x = h_this s;
  pa_alive : terminate (metadata x) = false;
  pa_lock : LSched (h_this s) ∉ h_locks s;
  pa_queues : vq_rep (h_nodes s) (vsched p) Qs P;
  pa_node : is_Some (h_nodes s !! NSched v 0) ∧ (∀ j, NSched v j ∉ Qs j) ∧ NSched v 0 ∉ P;
  pa_others : ∀ w j, NSched w j ∈ Qs j → is_Some (h_vcpus s !! w);
  pa_idle : is_Some (h_vcpus s !! VIdle (h_this s));
}.

(** The vcpu that the scheduler chooses, and the queues without it. *)
Definition next_up (s : hv) (level : Z) (Qs : nat → list vnode) : vptr :=
  match Qs (served level Qs) with NSched w _ :: _ => w | _ => VIdle (h_this s) end.
Definition without_next (level : Z) (Qs : nat → list vnode) : nat → list vnode :=
  q_set Qs (served level Qs) (tail (Qs (served level Qs))).

Lemma vcontext_eta c :
  Context (cx_cr8 c) (cx_r15 c) (cx_r14 c) (cx_r13 c) (cx_r12 c) (cx_r11 c) (cx_r10 c) (cx_r9 c) (cx_r8 c)
    (cx_rsi c) (cx_rdi c) (cx_rdx c) (cx_rcx c) (cx_rbx c) (cx_rax c) (cx_rbp c) (cx_rsp c) (cx_rflags c) (cx_rip c)
    (cx_fp_context c) = c.
Proof. by destruct c. Qed.

(** The choice is entered: its registers are those of the frame. *)
Lemma enter_ctx_run s w y q h M L l i : M !! w = Some y →
  vsched_enter_ctx w (cf s q h M L l i) =
  Ok (tt, cf s (q <| current_vcpu := Some w |> <| vcpu_ctx := vcontext y |>) h (<[w := switched_in y]> M) L l i).
Proof.
  intros E. unfold vsched_enter_ctx, set_state. do 3 cstep. rewrite insert_insert_eq.
  unfold vsched_set_ctx. cstep. cbv zeta. rewrite vcontext_eta. by rewrite cf_upd_this.
Qed.

Lemma put_paused_run s v x Qs P q h M L l i :
  vq_rep h (vsched q) Qs P → M !! v = Some x → vqueue_id x = h_this s → terminate (metadata x) = false →
  LSched (h_this s) ∉ L → is_Some (h !! NSched v 0) → (∀ j, NSched v j ∉ Qs j) → NSched v 0 ∉ P →
  ∃ h' sc', vsched_put_paused v false true (cf s q h M L l i) =
      Ok (true, cf s (q <| vsched := sc' |>) h'
        (<[v := x <| metadata -> state := VPAUSED |> <| metadata -> rearm := false |> <| preempted := true |>
                  <| vcontext := vcpu_ctx q |>]> M) L l i) ∧
    vq_rep h' sc' Qs (P ++ [NSched v 0]) ∧ vcriticality_level sc' = vcriticality_level (vsched q).
Proof.
  intros Hr Ex Hc Ht Hl Hn Hq HP. unfold vsched_put_paused. mstep (vscheduler_of_run _ _ _ (Ex : h_vcpus (cf s q h M L l i) !! v = _)).
  rewrite Hc. unfold __vsched_put_paused, set_state, vsched_put_ctx.
  set (x1 := x <| metadata -> state := VPAUSED |> <| metadata -> rearm := false |> <| preempted := true |>
                  <| vcontext := vcpu_ctx q |>).
  destruct (cf_push_paused s v x1 Qs P q h (<[v := x1]> M) (LSched (h_this s) :: L) l i) as (h' & sc' & E & Hr' & Hl');
    [done|apply lookup_insert_eq|done..|]. exists h', sc'. split; [|by split].
  do 2 cstep. rewrite Ht. cbv iota.
  match goal with |- bind ?m _ ?s0 = _ =>
    assert (m s0 = Ok (true, cf s (q <| vsched := sc' |>) h' (<[v := x1]> M) (LSched (h_this s) :: L) l i)) as E1 end.
  { match goal with |- bind ?m _ ?s0 = _ =>
      assert (m s0 = Ok (tt, cf s (q <| vsched := sc' |>) h' (<[v := x1]> M) (LSched (h_this s) :: L) l i)) as E2 end.
    { do 3 cstep. rewrite !insert_insert_eq.
      match goal with |- bind ?m _ ?s0 = _ =>
        assert (m s0 = Ok (tt, cf s q h (<[v := x1]> M) (LSched (h_this s) :: L) l i)) as E3 end.
      { cstep. cbv zeta. rewrite vcontext_eta. erewrite cf_upd by look. by rewrite insert_insert_eq. }
      mstep E3. exact E. }
    by mstep E2. }
  mstep E1. by cstep.
Qed.

Lemma cf_upd_vsched s f q h M L l i :
  upd_vsched (h_this s) f (cf s q h M L l i) = Ok (tt, cf s (q <| vsched ::= f |>) h M L l i).
Proof. exact (cf_upd_this s (fun p => p <| vsched ::= f |>) q h M L l i). Qed.

(** The timer of the time slice, and the callback of the vcpu. *)
Lemma start_schedule_run s w y ticks q h M L l i : current_vcpu q = Some w → M !! w = Some y →
  ∃ armed l', vsched_start_schedule ticks (cf s q h M L l i) =
    Ok (tt, cf s (q <| sched_timer_armed := armed |>) h M L l' i).
Proof.
  intros Ew Ey. set (l1 := if schedule_callback y then l ++ [EScheduleCallback w] else l).
  exists (negb (ticks =? 0)), (if ticks =? 0 then l1 else l1 ++ [ETimerReload ticks]).
  unfold vsched_start_schedule, vsched_arm_timer, vsched_timer_reload.
  mstep (cf_current s w q h M L l i Ew). cstep.
  match goal with |- bind ?m _ ?s0 = _ => assert (m s0 = Ok (tt, cf s q h M L l1 i)) as E end.
  { unfold l1. destruct (schedule_callback y); [apply cf_log|done]. }
  mstep E. destruct (ticks =? 0); cbn [negb]; [apply cf_upd_this|]. cstep. apply cf_log.
Qed.

(** Whoever is next runs: from the queues, or the idle vcpu. *)
Lemma get_spin_run s Qs P q h M L l i :
  vq_rep h (vsched q) Qs P → LSched (h_this s) ∉ L → is_Some (M !! VIdle (h_this s)) →
  (∀ w j, NSched w j ∈ Qs j → is_Some (M !! w)) →
  let w := next_up s (vcriticality_level (vsched q)) Qs in
  ∃ y h' sc' armed l', M !! w = Some y ∧
    vsched_get_spin (cf s q h M L l i) =
      Ok (w, cf s (q <| vsched := sc' |> <| current_vcpu := Some w |> <| vcpu_ctx := vcontext y |>
                     <| sched_timer_armed := armed |>) h' (<[w := switched_in y]> M) L l' i) ∧
    vq_rep h' sc' (without_next (vcriticality_level (vsched q)) Qs) P.
Proof.
  intros Hr Hl [z Ez] Hw w. set (j := served (vcriticality_level (vsched q)) Qs) in *.
  pose proof (cf_pop s Qs P q h M (LSched (h_this s) :: L) l i _ z Hr Ez) as Hp. cbv zeta in Hp. fold j in Hp.
  assert (∃ y h' sc', M !! w = Some y ∧
    (v <~ __vsched_get ;;
     v <~ (match v with
           | Some v => ret v
           | None =>
               vsched_enter_ctx (VIdle (h_this s)) ;;;
               upd_vsched (h_this s) (fun sc => sc <| kick := VSCHED_IDLE_KICK_UNSET |>) ;;;
               ret (VIdle (h_this s))
           end) ;;
     x <~ get_vcpu v ;;
     ret (v, current_time_slice_ticks (metadata x))) (cf s q h M (LSched (h_this s) :: L) l i) =
    Ok ((w, time_slice_ticks (metadata y)),
        cf s (q <| vsched := sc' |> <| current_vcpu := Some w |> <| vcpu_ctx := vcontext y |>) h' (<[w := switched_in y]> M)
          (LSched (h_this s) :: L) l i) ∧
    vq_rep h' sc' (without_next (vcriticality_level (vsched q)) Qs) P) as (y & h' & sc' & Ey & E & Hr').
  { subst w. unfold next_up, without_next, __vsched_get. fold j. destruct (Qs j) as [|n rest] eqn:EQ.
    - exists z, h, ((vsched q) <| kick := VSCHED_IDLE_KICK_UNSET |>). split; [done|]. split.
      + unfold bind at 1. mstep Hp. unfold ret at 1. cbv beta iota.
        unfold bind at 1. mstep (enter_ctx_run s _ z q h M (LSched (h_this s) :: L) l i Ez).
        mstep (cf_upd_vsched s (fun sc => sc <| kick := VSCHED_IDLE_KICK_UNSET |>)
          (q <| current_vcpu := Some (VIdle (h_this s)) |> <| vcpu_ctx := vcontext z |>) h
          (<[VIdle (h_this s) := switched_in z]> M) (LSched (h_this s) :: L) l i).
        unfold ret at 1. cbv beta iota. cstep. done.
      + eapply vq_rep_ext; [|intros k; unfold q_set; cbn [tail]; by destruct (decide _) as [-> |]].
        destruct Hr; by split.
    - destruct Hp as (v & h' & sc' & -> & E & Hr'). destruct (Hw v j) as [y Ey]; [rewrite EQ; left|].
      exists y, h', sc'. split; [done|]. split; [|exact Hr'].
      unfold bind at 1. mstep E. mstep (enter_ctx_run s v y (q <| vsched := sc' |>) h' M (LSched (h_this s) :: L) l i Ey).
      unfold ret at 1. cbv beta iota. unfold ret at 1, bind at 1. cstep. done. }
  exists y, h', sc'. destruct (start_schedule_run s w (switched_in y) (time_slice_ticks (metadata y))
    (q <| vsched := sc' |> <| current_vcpu := Some w |> <| vcpu_ctx := vcontext y |>) h' (<[w := switched_in y]> M) L l i)
    as (armed & l' & E'); [done|apply lookup_insert_eq|]. exists armed, l'. split; [done|]. split; [|done].
  unfold vsched_get_spin, vsched_get_or_idle.
  mstep (eq_refl : vthis_vprocessor_id (cf s q h M L l i) = Ok (h_this s, cf s q h M L l i)).
  unfold with_vlock.
  match goal with |- bind ?m _ ?s0 = _ =>
    assert (m s0 = Ok ((w, time_slice_ticks (metadata y)), cf s (q <| vsched := sc' |> <| current_vcpu := Some w |>
      <| vcpu_ctx := vcontext y |>) h' (<[w := switched_in y]> M) L l i)) as E2 end.
  { cstep. mstep E. by cstep. }
  mstep E2. cbn [fst snd]. by mstep E'.
Qed.

(** ** The self-IPI *)

(** The data of the processor when the function starts. *)
Definition requested (f : ipi_func_t) (a : Z) (p : vper_cpu) : vper_cpu :=
  p <| is_self_ipi := true |> <| self_ipi := VipiCall (Some f) a |> <| handling_isr := true |>.

(** The function runs with interrupts off; then the request is gone. *)
Lemma self_ipi_run s p f a h' M' L' l' i' q :
  h_cpus s !! h_this s = Some p → handling_isr p = false → dead p = false →
  call_ipi f a (cf s (requested f a p) (h_nodes s) (h_vcpus s) (h_locks s) (h_log s) false) =
    Ok (tt, cf s q h' M' L' l' i') →
  vemulate_self_ipi f a s =
    Ok (tt, cf s (q <| is_self_ipi := false |> <| handling_isr := false |>) h' M' L' l'
              (default false (h_interrupts s !! h_this s))).
Proof.
  intros Ep Hi Hd E. unfold vemulate_self_ipi.
  assert (read_flags_and_disable_interrupts s = Ok (default false (h_interrupts s !! h_this s),
    cf s p (h_nodes s) (h_vcpus s) (h_locks s) (h_log s) false)) as E1.
  { unfold read_flags_and_disable_interrupts, disable_interrupts, write_flags, mmodify, mgets, bind, ret.
    destruct s. unfold cf, apply_update, constant. cbn in *. by rewrite (insert_id h_cpus). }
  mstep E1. cstep. cstep.
  match goal with |- bind ?m _ ?s0 = _ =>
    assert (m s0 = Ok (vcpu_ctx q, cf s (q <| is_self_ipi := false |> <| handling_isr := false |>) h' M' L' l' i')) as E2 end.
  { unfold __vemulate_ipi.
    match goal with |- bind ?m _ ?s0 = _ =>
      assert (m s0 = Ok (false, cf s (requested f a p) (h_nodes s) (h_vcpus s) (h_locks s) (h_log s) false)) as E3 end.
    { unfold visr_enter. cstep. cbv zeta. change (handling_isr _) with (handling_isr p). rewrite Hi. cbv iota. cstep.
      unfold requested, ret. by destruct p. }
    mstep E3. clear E3.
    match goal with |- bind ?m _ ?s0 = _ =>
      assert (m s0 = Ok (tt, cf s (q <| is_self_ipi := false |>) h' M' L' l' i')) as E3 end.
    { unfold visr_ipi. cstep. change (dead _) with (dead p). rewrite Hd. unfold ret at 1, bind at 1.
      change (is_self_ipi (requested f a p)) with true. cbv iota zeta. change (func _) with (Some f).
      change (arg _) with a. cbv iota. mstep E. apply cf_upd_this. }
    mstep E3. clear E3. unfold visr_leave. do 2 cstep. done. }
  mstep E2. apply cf_flags.
Qed.

(** C35.  A vcpu that pauses (by [vsched_pause], not as the waiter of a lock) gives
    its processor away through an interrupt that it sends to itself: with the
    function and its argument stored for the dispatcher, the vcpu is saved with
    its registers and queued as paused; the processor has as its current vcpu
    the one that the scheduler chooses (the first of the queue that is served,
    else the idle one) and as the frame to resume that vcpu's saved registers;
    the request is cleared, so that the next IPI does not run the function
    again, the processor is out of the interrupt, the flag that
    [vemulate_self_ipi] saved is written back for the code that called it, and
    no other vcpu, processor or lock is touched.  (For
    a vcpu that is alive and in no queue, on a processor that handles no
    interrupt and is not stopped, with queues that represent lists whose vcpus
    exist.) *)
Theorem vsched_pause_switches s p v x Qs P :
  pausing s p v x Qs P →
  let w := next_up s (vcriticality_level (vsched p)) Qs in
  ∃ y s' p', vsched_pause false s = Ok (tt, s') ∧ h_vcpus s !! w = Some y ∧ w ≠ v ∧
    h_vcpus s' = <[w := switched_in y]> (<[v := switched_out x (vcpu_ctx p)]> (h_vcpus s)) ∧
    h_cpus s' = <[h_this s := p']> (h_cpus s) ∧
    (current_vcpu p' = Some w ∧ vcpu_ctx p' = vcontext y ∧ handling_isr p' = false ∧ is_self_ipi p' = false) ∧
    vq_rep (h_nodes s') (vsched p') (without_next (vcriticality_level (vsched p)) Qs) (P ++ [NSched v 0]) ∧
    default false (h_interrupts s' !! h_this s) = default false (h_interrupts s !! h_this s) ∧
    h_locks s' = h_locks s ∧ h_this s' = h_this s.
Proof.
  intros [Ep [Hi Hd] [Ev Hne] Ex Hc Ht Hl Hr (Hn & Hq & HP) Ho [z Ez]] w.
  set (q := requested VSCHED_PAUSE_IPI 0 p). set (x0 := x <| yield_request := false |>).
  destruct (put_paused_run s v x0 Qs P q (h_nodes s) (<[v := x0]> (h_vcpus s)) (h_locks s) (h_log s) false)
    as (h1 & sc1 & E1 & Hr1 & Hl1); [exact Hr|apply lookup_insert_eq|done..|].
  rewrite insert_insert_eq in E1. change (vcpu_ctx q) with (vcpu_ctx p) in E1.
  change (x0 <| metadata -> state := VPAUSED |> <| metadata -> rearm := false |> <| preempted := true |>
    <| vcontext := vcpu_ctx p |>) with (switched_out x (vcpu_ctx p)) in E1.
  set (M1 := <[v := switched_out x (vcpu_ctx p)]> (h_vcpus s)) in *.
  destruct (get_spin_run s Qs (P ++ [NSched v 0]) (q <| vsched := sc1 |>) h1 M1 (h_locks s) (h_log s) false)
    as (y & h2 & sc2 & armed & l2 & Ey & E2 & Hr2); [done|done| | |].
  { unfold M1. rewrite lookup_insert_ne by done. by exists z. }
  { intros u j Hu. unfold M1. apply lookup_insert_is_Some'. right. by eapply Ho. }
  change (vcriticality_level (vsched (q <| vsched := sc1 |>))) with (vcriticality_level sc1) in *.
  rewrite Hl1 in *. change (vsched q) with (vsched p) in *. fold w in Ey, E2.
  assert (w ≠ v) as Hwv.
  { unfold w, next_up. destruct (Qs (served _ Qs)) as [|n rest] eqn:EQ; [done|].
    destruct n as [u k| |]; [|done..]. intros ->. apply (Hq (served (vcriticality_level (vsched p)) Qs)).
    assert (NSched v k ∈ Qs (served (vcriticality_level (vsched p)) Qs)) as Hin by (rewrite EQ; left).
    by destruct (vq_nodes _ _ _ _ Hr _ _ Hin) as [? [= -> ->]]. }
  unfold M1 in Ey. rewrite lookup_insert_ne in Ey by done.
  exists y. eexists _, _. split; [|split; [exact Ey|split; [exact Hwv|]]].
  - eapply self_ipi_run; [done..|]. fold q. cbn [call_ipi]. change (negb (0 =? 0)) with false.
    unfold vsched_pause_ipi, set_yield_request.
    mstep (cf_current s v q (h_nodes s) (h_vcpus s) (h_locks s) (h_log s) false Ev). do 2 cstep. fold x0.
    mstep E1. cbv iota. mstep E2. reflexivity.
  - split; [reflexivity|]. split; [reflexivity|]. split; [done|]. split; [exact Hr2|].
    split; [|done]. cbn. by rewrite lookup_insert_eq.
Qed.
