(* ===== verification/Vinfo.v ===== *)
(** * Vinfo: what the hypervisor tells its guests

    Models src/subsys/twanvisor/vemulate/vinfo.c: the cpuid leaves that are
    the hypervisor's own.  A leaf is answered from the state of the processor
    and of the vcpu; the values that are constant after the start of a
    processor are [support] and [flags]. *)

From S2P Require Import Prelude Std Bmp Dq DeltaChain SchedDsa Twan VschedDsa Vpartition Vutils Vcreate.
From coqutil Require Import Datatypes.RecordSetters.
From Stdlib Require Import ZArith Lia Bool.
From stdpp Require Import base gmap list numbers sets.

Local Open Scope Z_scope.

Definition VCPUID_BASE_B : Z := 0x5477616e.
Definition VCPUID_BASE_C : Z := 0x48765477.
Definition VCPUID_BASE_D : Z := 0x616e4876.
Definition VCPUID_BASE : Z := 0x40000000.
Definition VCPUID_COMPAT : Z := 0x40000001.
Definition VCPUID_ROOT_INFO : Z := 0x40000002.
Definition VCPUID_EMULATION_FEATURES : Z := 0x40000003.
Definition VCPUID_VPARTITION_INFO : Z := 0x40000004.
Definition VCPUID_VCPU_INFO : Z := 0x40000005.
Definition VCPUID_MAX_LEAF : Z := VCPUID_VCPU_INFO.

(** The rest of [vper_cpu_arch_flags] and [vper_cpu_trap_cache_t], as far as
    it is told. *)
Record vinfo_flags := VinfoFlags {
  ia32_arch_capabilities_r : bool;
  ia32_feature_control_rw : bool;
  wbinvd_exiting : bool;
  ept_pml4 : bool;
  ept_pml5 : bool;
  ept_2mb : bool;
  ept_1gb : bool;
  ept_wb : bool;
  ept_uc : bool;
  ept_accessed_dirty : bool;
  pt_use_gpa : bool;
  lapic_frequency_hz : Z;
  lapic_period_fs : Z;
  vmx_preempt_frequency_hz : Z;
  vmx_preempt_period_fs : Z;
}.

(** A word of bit fields, the lowest first. *)
Fixpoint fields_of (bs : list bool) : Z :=
  match bs with [] => 0 | b :: bs => Z.b2z b + 2 * fields_of bs end.

Definition set_abcd (r : vregs) (a b c d : Z) : vregs :=
  r <| rax := a |> <| rbx := b |> <| rcx := c |> <| rdx := d |>.
Definition low32 (v : Z) : Z := Z.land v 0xffffffff.
Definition high32 (v : Z) : Z := Z.shiftr v 32.

Section Vinfo.
Context (support : Z → vper_cpu_arch_support_t) (flags : Z → vinfo_flags).

Definition vinfo_base (r : vregs) : vregs :=
  set_abcd r VCPUID_MAX_LEAF VCPUID_BASE_B VCPUID_BASE_C VCPUID_BASE_D.

Definition vinfo_compat (r : vregs) : vregs := set_abcd r 0 0 0 0.

Definition vinfo_root_info (r : vregs) : M hv vregs :=
  v <~ vcurrent_vcpu ;;
  x <~ get_vcpu v ;;
  if negb (root x) then ret (set_abcd r 0 0 0 0) else
  p <~ vthis_cpu_data ;;
  this <~ vthis_vprocessor_id ;;
  n <~ vnum_cpus ;;
  let subleaf := low32 (rcx r) in
  let hz := lapic_frequency_hz (flags this) in
  let fs := lapic_period_fs (flags this) in
  let word i := bmp_get (available_vectors p) i in
  if subleaf =? 0 then ret (set_abcd r 3 this n (fields_of [true; true]))
  else if subleaf =? 1 then ret (set_abcd r (low32 hz) (high32 hz) (low32 fs) (high32 fs))
  else if subleaf =? 2 then ret (set_abcd r (low32 (word 0)) (high32 (word 0)) (low32 (word 1)) (high32 (word 1)))
  else if subleaf =? 3 then ret (set_abcd r (low32 (word 2)) (high32 (word 2)) (low32 (word 3)) (high32 (word 3)))
  else ret (set_abcd r 0 0 0 0).

Definition emulation_features0_b (f : vinfo_flags) (s : vper_cpu_arch_support_t) (is_root : bool) : Z :=
  fields_of [false; ia32_feature_control_rw f; ia32_arch_capabilities_r f; false; ept_ve_support s; false;
             wbinvd_exiting f; true; is_root; true; true].
Definition emulation_features0_d (f : vinfo_flags) (s : vper_cpu_arch_support_t) : Z :=
  fields_of [false; false; ept s; ept_pml4 f; ept_pml5 f; ept_2mb f; ept_1gb f; ept_wb f; ept_uc f;
             ept_accessed_dirty f; vpid_support s && invvpid_single s; unrestricted_guest s; pt_use_gpa f].

Definition vinfo_emulation_features (r : vregs) : M hv vregs :=
  this <~ vthis_vprocessor_id ;;
  v <~ vcurrent_vcpu ;;
  x <~ get_vcpu v ;;
  let subleaf := low32 (rcx r) in
  let f := flags this in
  let s := support this in
  if subleaf =? 0 then
    ret (set_abcd r 1 (emulation_features0_b f s (root x))
           (VNUM_VTIMERS + Z.shiftl (Z.land (msr_area_max s) 0xffffff) 8) (emulation_features0_d f s))
  else if subleaf =? 1 then
    ret (set_abcd r (low32 (vmx_preempt_frequency_hz f)) (high32 (vmx_preempt_frequency_hz f))
           (low32 (vmx_preempt_period_fs f)) (high32 (vmx_preempt_period_fs f)))
  else ret (set_abcd r 0 0 0 0).

Definition vinfo_vpartition_info (r : vregs) : M hv vregs :=
  v <~ vcurrent_vcpu ;;
  x <~ get_vcpu v ;;
  ret (set_abcd r 0 (Z.lor (Z.shiftl (Z.b2z (root x)) 8) (vid x)) (vpartition_num_cpus x) 0).

Definition vinfo_vcpu_info (r : vregs) : M hv vregs :=
  v <~ vcurrent_vcpu ;;
  x <~ get_vcpu v ;;
  ret (set_abcd r 0 (processor_id x) 0 0).

Definition vinfo_dispatcher (r : vregs) : M hv vregs :=
  let leaf := low32 (rax r) in
  if leaf =? VCPUID_BASE then ret (vinfo_base r)
  else if leaf =? VCPUID_COMPAT then ret (vinfo_compat r)
  else if leaf =? VCPUID_ROOT_INFO then vinfo_root_info r
  else if leaf =? VCPUID_EMULATION_FEATURES then vinfo_emulation_features r
  else if leaf =? VCPUID_VPARTITION_INFO then vinfo_vpartition_info r
  else if leaf =? VCPUID_VCPU_INFO then vinfo_vcpu_info r
  else ret (set_abcd r 0 0 0 0).
End Vinfo.
