(* ===== verification/Vexit.v ===== *)
(** * Vexit: why a guest exited

    Models src/subsys/twanvisor/vportal/vexit.c: the handler of each kind of
    VM exit and their dispatch, from the exit to the next entry.

    A handler changes the registers of the guest; [None] stands for a handler
    that does not return, because the vcpu is gone and the processor runs
    another one.  What the processor stored about the exit is [ro_exit] of the
    VMCS.  The processor itself is outside: [cpuid], [rdmsr] and [wrmsr_ok]
    are its answers, [None] and [false] being a general-protection fault. *)

From S2P Require Import Prelude Std Bmp Dq DeltaChain SchedDsa Twan VschedDsa Vpartition Vutils.
From S2P Require Import Vrecovery Vsched Vemu Vcreate Vcalls Vtimers Venter Visr Vinfo.
From coqutil Require Import Datatypes.RecordSetters.
From Stdlib Require Import ZArith Lia Bool.
From stdpp Require Import base gmap list numbers sets.

Local Open Scope Z_scope.

(** ** Model-specific registers *)

Definition IA32_ARCH_CAPABILITIES : Z := 0x10A.
Definition IA32_VIRTUAL_ENUMERATION : Z := 0x50000000.
Definition IA32_VIRTUAL_MITIGATION_ENUM : Z := 0x50000001.
Definition IA32_VIRTUAL_MITIGATION_CTRL : Z := 0x50000002.
Definition IA32_FEATURE_CONTROL : Z := 0x3A.

Definition msr_blocklist : list Z :=
  [ 0xC0000103;                                          (* IA32_TSC_AUX *)
    0xda0;                                               (* IA32_XSS *)
    0x1c; 0x2f;                                          (* IA32_USER_MSR_CTL, IA32_BARRIER *)
    0x985; 0x986; 0x987; 0x988; 0x989; 0x98a; 0x1b00;    (* IA32_UINTR_* *)
    0x1d4; 0x1cc; 0x1cd; 0x1ce; 0x1cf;                   (* IA32_FRED_CONFIG, _RSP0-3 *)
    0x1d0; 0x1d1; 0x1d2; 0x1d3;                          (* IA32_FRED_STKLVLS, _SSP1-3 *)
    0xe1; 0x151; 0xd90; 0x06;                            (* IA32_UMWAIT_CONTROL, _SR_BIOS_DONE, _BNDCFGS,
                                                            _MONITOR_FILTER_SIZE *)
    0x480; 0x481; 0x482; 0x483; 0x484; 0x485; 0x486; 0x487; 0x488; 0x489; 0x48A;
    0x48B; 0x48C; 0x48D; 0x48E; 0x48F; 0x490; 0x491; 0x492; 0x493; (* IA32_VMX_* *)
    0x1b; 0xbd;                                          (* IA32_APIC_BASE, IA32_XAPIC_DISABLE_STATUS *)
    0x802; 0x803; 0x808; 0x80a; 0x80b; 0x80d; 0x80f;     (* IA32_X2APIC_* from here on *)
    0x810; 0x811; 0x812; 0x813; 0x814; 0x815; 0x816; 0x817;
    0x818; 0x819; 0x81a; 0x81b; 0x81c; 0x81d; 0x81e; 0x81f;
    0x820; 0x821; 0x822; 0x823; 0x824; 0x825; 0x826; 0x827;
    0x828; 0x82f; 0x830;
    0x832; 0x833; 0x834; 0x835; 0x836; 0x837; 0x838; 0x839; 2110; 2111 ].

Definition vis_msr_blocked (msr : Z) : bool := existsb (fun m => m =? msr) msr_blocklist.

(** ** Bit fields *)

(** [v] with the field of [width] bits at [pos] cleared, or set to a bit. *)
Definition clear_field (v : Z) (f : Z * Z) : Z := Z.ldiff v (Z.shiftl (Z.ones (snd f)) (fst f)).
Definition clear_fields (v : Z) (fs : list (Z * Z)) : Z := fold_left clear_field fs v.
Definition put_bit (v pos : Z) (b : bool) : Z := Z.lor (clear_field v (pos, 1)) (Z.shiftl (Z.b2z b) pos).

(** [vper_cpu_feature_flags_t], the flags that are used *)
Record vfeatures := Vfeatures {
  f_umip : bool; f_la57 : bool; f_fsgsbase : bool; f_pcid : bool; f_kl : bool; f_smep : bool;
  f_smap : bool; f_pke : bool; f_cet : bool; f_pks : bool; f_lass : bool; f_lam : bool;
}.

(** cr0_t: nw, cd *)
Definition cr0_valid (cr0 : Z) : bool := negb (Z.testbit cr0 30) && negb (Z.testbit cr0 29).

Definition CR4_VMXE : Z := 13.
Definition cr4_valid (f : vfeatures) (cr4 : Z) : bool :=
  let clear bit := negb (Z.testbit cr4 bit) in
  clear 6 &&                         (* mce *)
  (f_umip f || clear 11) &&
  (f_la57 f || clear 12) &&
  clear 14 &&                        (* smxe *)
  (f_fsgsbase f || clear 16) &&
  (f_pcid f || clear 17) &&
  clear 18 &&                        (* osxsave *)
  (f_kl f || clear 19) &&
  (f_smep f || clear 20) &&
  (f_smap f || clear 21) &&
  negb (f_pke f) &&
  (f_cet f || clear 23) &&
  (f_pks f || clear 24) &&
  clear 25 &&                        (* uintr *)
  (f_lass f || clear 27) &&
  (f_lam f || clear 28) &&
  clear 32 &&                        (* fred *)
  clear 15 && clear 26 && (clear 29 && clear 30 && clear 31) &&
  (Z.shiftr cr4 33 =? 0).

(** ** The emulated leaves of cpuid *)

Definition CPUID_FEATURE_BITS : Z := 1.
Definition CPUID_EXTENDED_FEATURES : Z := 7.
Definition CPUID_EXTENDED_SIG : Z := 0x80000001.

Definition regs4 : Type := Z * Z * Z * Z.

Definition hide_cpuid (is_root : bool) (leaf subleaf : Z) (r : regs4) : regs4 :=
  let '(a, b, c, d) := r in
  if leaf =? CPUID_FEATURE_BITS then
    (a, clear_fields b [(16, 8); (24, 8)],                               (* max_addressible_ids, lapic_id *)
     put_bit (clear_fields c [(3, 1); (5, 1); (6, 1); (26, 1); (27, 1); (21, 1)]) 31 true,
                                             (* monitor_mwait, vmx, smx, xsave, osxsave, x2apic; hypervisor *)
     clear_fields d [(7, 1); (9, 1); (28, 1)])                           (* mce, apic, htt *)
  else if leaf =? CPUID_EXTENDED_FEATURES then
    if subleaf =? 0 then
      (a, clear_fields b [(14, 1)],                                      (* mpx *)
       clear_fields c [(5, 1); (22, 1); (3, 1); (17, 5)],                (* waitpkg, rdpid, pku, mawau *)
       clear_fields d [(5, 1); (18, 1); (15, 1)])                        (* uintr, pconfig, hybrid *)
    else if subleaf =? 1 then
      (clear_fields a [(27, 1); (17, 1); (20, 1); (30, 1)], b, c,        (* msrlist, fred, nmi_src, cachewarp *)
       clear_fields d [(13, 1); (15, 1); (17, 1); (23, 1)])              (* uintr_timer, user_msr, uiret, mwait *)
    else if subleaf =? 2 then (a, b, c, clear_fields d [(7, 1)])         (* monitor_mitigation_no *)
    else (a, b, c, d)
  else if leaf =? CPUID_EXTENDED_SIG then (a, b, c, clear_fields d [(27, 1)])  (* rdtscp *)
  else if leaf =? 4 then (if is_root then (a, b, c, d) else (0, 0, 0, 0))
  else if existsb (fun l => leaf =? l) [5; 0x0b; 0x0d; 0x1f] then (0, 0, 0, 0)
  else (a, b, c, d).

(** [struct vper_cpu_cache] without the flags that [vinfo_flags] has, and what
    the security flags of a processor say *)
Record vper_cpu_cache := VperCpuCache {
  via32_feature_ctrl_low : Z;
  via32_feature_ctrl_high : Z;
  its_no : bool;
}.

Section Vexit.
Context (resume : vptr → M hv unit) (conf : vptr → vcpu_conf) (pconf : Z → vpartition_conf).
Context (support : Z → vper_cpu_arch_support_t) (flags : Z → vinfo_flags) (root_num_vcpus : Z).
Context (entry_rip : Z) (vexit_stack : vptr → Z) (reset_fp : Z → Z) (vmptrld_ok : vptr → bool).
Context (read_lapic : Z → list vevent → lapic) (arrivals : list vevent → list Z) (here : context).
Context (features : Z → vfeatures) (vcache : Z → vper_cpu_cache).
Context (cpuid : regs4 → regs4) (rdmsr : Z → list vevent → option Z) (wrmsr_ok : Z → Z → bool).

Definition handler_t : Type := vregs → M hv (option vregs).

(** ** Handlers without state of their own *)

Definition vexit_nop (r : vregs) : M hv (option vregs) := enable_preemption resume ;;; ret (Some r).

Definition vexit_nop_advance (r : vregs) : M hv (option vregs) :=
  enable_preemption resume ;;; vqueue_advance_guest ;;; ret (Some r).

Definition vexit_failure_recover (r : vregs) : M hv (option vregs) :=
  enable_preemption resume ;;; vfailure_recover ;;; ret None.

Definition vexit_gp0 (r : vregs) : M hv (option vregs) :=
  enable_preemption resume ;;; vqueue_inject_gp0 ;;; ret (Some r).

Definition vexit_ud (r : vregs) : M hv (option vregs) :=
  enable_preemption resume ;;; vqueue_inject_ud ;;; ret (Some r).

Definition vexit_mce_during_entry (r : vregs) : M hv (option vregs) := enable_preemption resume ;;; ret (Some r).

Definition vexit_vmcall (r : vregs) : M hv (option vregs) :=
  r <~ vcall_dispatcher resume conf pconf support root_num_vcpus entry_rip vexit_stack reset_fp r ;;
  vqueue_advance_guest ;;;
  ret (Some r).

(** ** Events *)

(** NMIs are blocked again after an IRET that did not complete. *)
Definition reblock_nmis : M hv unit :=
  unblocked <~ vmread (fun g => nmi_unblocking (ro_exit g)) ;;
  if (unblocked : bool) then vmwrite (fun g => g <| g_interruptibility ::= fun i => Z.lor i 8 |>) else ret tt.

Definition vexit_exception (r : vregs) : M hv (option vregs) :=
  info <~ vmread (fun g => vmexit_interrupt_info (ro_exit g)) ;;
  massert (is_some info) ;;;
  info <~ not_null info ;;
  reblock_nmis ;;;
  (if ve_vector info =? DEBUG_EXCEPTION then vqueue_inject_db (vectored_event_type info)
   else if ve_vector info =? ALIGNMENT_CHECK then
     massert (errcode_delivered info) ;;;
     errcode <~ vmread ro_idt_vectoring_error_code ;;
     massert (errcode =? 0) ;;;
     vqueue_inject_ac0
   else massert false) ;;;
  enable_preemption resume ;;;
  ret (Some r).

Definition vexit_ext_intr (r : vregs) : M hv (option vregs) :=
  info <~ vmread (fun g => vmexit_interrupt_info (ro_exit g)) ;;
  massert (is_some info) ;;;
  info <~ not_null info ;;
  massert (match vectored_event_type info with INTERRUPT_TYPE_EXTERNAL => true | _ => false end) ;;;
  reblock_nmis ;;;
  vexit_ext_dispatcher read_lapic arrivals here (ve_vector info) ;;;
  enable_preemption resume ;;;
  ret (Some r).

(** ** cpuid *)

Definition vexit_cpuid (r : vregs) : M hv (option vregs) :=
  enable_preemption resume ;;;
  current <~ vcurrent_vcpu ;;
  let leaf := low32 (rax r) in
  let subleaf := low32 (rcx r) in
  if (VCPUID_BASE <=? leaf) && (leaf <=? VCPUID_MAX_LEAF) then
    r <~ vinfo_dispatcher support flags r ;;
    vqueue_advance_guest ;;;
    ret (Some r)
  else
  x <~ get_vcpu current ;;
  let '(a, b, c, d) := hide_cpuid (root x) leaf subleaf (cpuid (leaf, low32 (rbx r), subleaf, low32 (rdx r))) in
  vqueue_advance_guest ;;;
  ret (Some (set_abcd r a b c d)).

(** ** Control registers *)

Definition qual_cr (qual : Z) : Z := Z.land qual 15.
Definition qual_gpr (qual : Z) : Z := Z.land (Z.shiftr qual 8) 15.

Definition vexit_cr_access (r : vregs) : M hv (option vregs) :=
  qual <~ vmread (fun g => exit_qualification (ro_exit g)) ;;
  enable_preemption resume ;;;
  current <~ vcurrent_vcpu ;;
  val <~ vgpr_val r (qual_gpr qual) ;;
  let cr := qual_cr qual in
  if cr =? 0 then
    if negb (cr0_valid val) then vqueue_inject_gp0 ;;; ret (Some r) else
    vqueue_vmwrite_cr0 val ;;; vqueue_advance_guest ;;; ret (Some r)
  else if cr =? 4 then
    this <~ vthis_vprocessor_id ;;
    let cr4 := Z.lor val (Z.shiftl 1 CR4_VMXE) in
    if negb (cr4_valid (features this) cr4) then vqueue_inject_gp0 ;;; ret (Some r) else
    vqueue_vmwrite_cr4 cr4 ;;; vqueue_advance_guest ;;; ret (Some r)
  else if cr =? 8 then
    if negb (Z.shiftr val 4 =? 0) then vqueue_inject_gp0 ;;; ret (Some r) else
    vset_intl current val ;;; vqueue_advance_guest ;;; ret (Some (r <| cr8 := val |>))
  else massert false ;;; vqueue_advance_guest ;;; ret (Some r).

(** ** Model-specific registers *)

(** An instruction that faults leaves its outputs as they were; nobody uses them. *)
Definition __rdmsrl (msr : Z) : M hv Z :=
  log <~ mgets h_log ;;
  match rdmsr msr log with
  | Some val => ret val
  | None => interrupted read_lapic here GENERAL_PROTECTION_FAULT ;;; ret 0
  end.
Definition __wrmsrl (msr val : Z) : M hv unit :=
  if wrmsr_ok msr val then vlog (EWrmsr msr val) else interrupted read_lapic here GENERAL_PROTECTION_FAULT.

Definition refuse (r : vregs) : M hv (option vregs) := vqueue_inject_gp0 ;;; ret (Some r).
Definition advance (r : vregs) : M hv (option vregs) := vqueue_advance_guest ;;; ret (Some r).
Definition set_da (r : vregs) (a d : Z) : vregs := r <| rax := a |> <| rdx := d |>.

Definition vexit_rdmsr (r : vregs) : M hv (option vregs) :=
  enable_preemption resume ;;;
  let msr := low32 (rcx r) in
  this <~ vthis_vprocessor_id ;;
  current <~ vcurrent_vcpu ;;
  x <~ get_vcpu current ;;
  let fl := flags this in
  if msr =? IA32_ARCH_CAPABILITIES then
    val <~ __rdmsrl IA32_ARCH_CAPABILITIES ;;
    let arch_cap := clear_field val (21, 1) in                          (* xapic_disable_status *)
    let arch_cap := put_bit arch_cap 62 (its_no (vcache this)) in
    let arch_cap := put_bit arch_cap 63 true in                         (* msr_virtual_enumeration_supported *)
    advance (set_da r (low32 arch_cap) (high32 arch_cap))
  else if msr =? IA32_VIRTUAL_ENUMERATION then
    if ia32_arch_capabilities_r fl then advance (set_da r 1 0) else refuse r
  else if (msr =? IA32_VIRTUAL_MITIGATION_ENUM) || (msr =? IA32_VIRTUAL_MITIGATION_CTRL) then
    if ia32_arch_capabilities_r fl then advance (set_da r 0 0) else refuse r
  else if msr =? IA32_FEATURE_CONTROL then
    if ia32_feature_control_rw fl
    then advance (set_da r (via32_feature_ctrl_low (vcache this)) (via32_feature_ctrl_high (vcache this)))
    else refuse r
  else if negb (root x) || vis_msr_blocked msr then refuse r
  else
    venter_shield_local_length GENERAL_PROTECTION_FAULT 2 ;;;
    val <~ __rdmsrl msr ;;
    fault <~ vexit_shield_local ;;
    if (fault : bool) then refuse r else advance (set_da r (low32 val) (high32 val)).

Definition vexit_wrmsr (r : vregs) : M hv (option vregs) :=
  enable_preemption resume ;;;
  let msr := low32 (rcx r) in
  let eax := low32 (rax r) in
  let edx := low32 (rdx r) in
  this <~ vthis_vprocessor_id ;;
  current <~ vcurrent_vcpu ;;
  x <~ get_vcpu current ;;
  let fl := flags this in
  if msr =? IA32_VIRTUAL_MITIGATION_CTRL then
    if negb (ia32_arch_capabilities_r fl) || negb (eax =? 0) || negb (edx =? 0) then refuse r else advance r
  else if msr =? IA32_FEATURE_CONTROL then
    if negb (ia32_feature_control_rw fl) then refuse r else
    if negb (eax =? via32_feature_ctrl_low (vcache this)) || negb (edx =? via32_feature_ctrl_high (vcache this))
    then refuse r else advance r
  else if negb (root x) || vis_msr_blocked msr then refuse r
  else
    venter_shield_local_length GENERAL_PROTECTION_FAULT 2 ;;;
    __wrmsrl msr (Z.lor (Z.shiftl edx 32) eax) ;;;
    fault <~ vexit_shield_local ;;
    if (fault : bool) then refuse r else advance r.

(** ** The timers of the guest *)

(** The timer at the front has run out. *)
Definition pop_timer (current : vptr) : M hv Z :=
  x <~ get_vcpu current ;;
  popped <~ lift (delta_chain_popfront_noupdate (timer_nodes x) (timer_chain x)) ;;
  let '(node, h, d) := popped in
  upd_vcpu current (fun x => x <| timer_nodes := h |> <| timer_chain := d |>) ;;;
  not_null node.

(** The clock runs for the timer that is now at the front. *)
Definition restart_clock (current : vptr) : M hv unit :=
  x <~ get_vcpu current ;;
  match delta_chain_peekfront (timer_chain x) with
  | Some next_node => delta <~ lift (get_delta (timer_deltas x) next_node) ;; vmwrite_timer delta
  | None => activate_timer false
  end.

Definition vexit_vmx_preempt (r : vregs) : M hv (option vregs) :=
  current <~ vcurrent_vcpu ;;
  node <~ pop_timer current ;;
  timer <~ get_timer current node ;;
  (if tm_periodic timer
   then on_chain current (fun h ds d => delta_chain_insert h ds d node (tm_ticks timer))
   else upd_timer current node (fun t => t <| tm_armed := false |>)) ;;;
  restart_clock current ;;;
  enable_preemption resume ;;;
  vemu_set_interrupt_pending current (tm_vector timer) (tm_nmi timer) ;;;
  ret (Some r).

(** ** Dispatch *)

Definition EXIT_REASON_EXT_INTR : Z := 1.

Definition vexit_table : list (option handler_t) :=
  [ Some vexit_exception; Some vexit_ext_intr; Some vexit_failure_recover; Some vexit_failure_recover;
    Some vexit_failure_recover; None; None; Some vexit_nop; Some vexit_nop; Some vexit_gp0;      (* .. 9 *)
    Some vexit_cpuid; Some vexit_ud; None; Some vexit_nop_advance; None; None; None; None;
    Some vexit_vmcall; Some vexit_ud;                                                            (* .. 19 *)
    Some vexit_ud; Some vexit_ud; Some vexit_ud; Some vexit_ud; Some vexit_ud; Some vexit_ud;
    Some vexit_ud; Some vexit_ud; Some vexit_cr_access; None;                                    (* .. 29 *)
    Some vexit_gp0; Some vexit_rdmsr; Some vexit_wrmsr; None; None; None; Some vexit_ud; None;
    None; Some vexit_ud;                                                                         (* .. 39 *)
    None; Some vexit_mce_during_entry; None; None; None; None; None; None;
    Some vexit_failure_recover; Some vexit_failure_recover;                                      (* .. 49 *)
    Some vexit_ud; None; Some vexit_vmx_preempt; Some vexit_ud; Some vexit_nop_advance; Some vexit_ud ].

Definition vexit_dispatcher (r : vregs) : M hv (option vregs) :=
  exit <~ vmread ro_exit ;;
  if vmentry_failure exit || (Z.of_nat (length vexit_table) <=? basic_reason exit)
  then vfailure_recover ;;; ret None else
  match nth (Z.to_nat (basic_reason exit)) vexit_table None with
  | None => vfailure_recover ;;; ret None
  | Some func =>
      vcurrent_vcpu_disable_preemption ;;;
      current <~ vcurrent_vcpu ;;
      this <~ vthis_vprocessor_id ;;
      with_vlock (LSched this) (set_state current VTRANSITIONING) ;;;
      vipi_ack ;;;
      (if negb (basic_reason exit =? EXIT_REASON_EXT_INTR) then vipi_drain_no_yield read_lapic arrivals here
       else ret tt) ;;;
      x <~ get_vcpu current ;;
      if terminate (metadata x) then enable_preemption resume ;;; vtransitioning_recover ;;; ret None else
      enable_interrupts ;;;
      idt <~ vmread (fun g => idt_vectoring_info_field (ro_exit g)) ;;
      r <~ func r ;;
      match r with
      | None => ret None
      | Some r =>
          enabled <~ vcurrent_vcpu_is_preemption_enabled ;;
          massert enabled ;;;
          (match idt with Some info => vqueue_idt_vectoring_info info | None => ret tt end) ;;;
          entered <~ __venter conf vmptrld_ok ;;
          ret (if (entered : bool) then Some r else None)
      end
  end.
End Vexit.
