(* ===== verification/Vexpiry.v ===== *)
(** * Vexpiry: a virtual timer runs out

    The specification of vexit_vmx_preempt (vexit.c), the exit with which the
    processor reports that the timer it counts down has reached zero, over the
    abstract timers of Vtimers. *)

From S2P Require Import Prelude Std Bmp Dq DeltaChain SchedDsa Twan VschedDsa Vpartition Vutils.
From S2P Require Import Vrecovery Vsched Vemu Vcreate Vcalls Vtimers Visr Vexit.
From coqutil Require Import Datatypes.RecordSetters.
From Stdlib Require Import ZArith Lia Bool.
From stdpp Require Import base gmap list numbers sets.

Local Open Scope Z_scope.

Section Expiry.
Context (resume : vptr → M hv unit) (s : hv) (v : vptr) (x0 : vcpu) (g0 : vmcs_guest).
Context (H : calling s v x0 g0).
Implicit Types (x : vcpu) (g : vmcs_guest).

(** The rest of the chain once its front is gone. *)
Lemma pop_timer_run x g n y ps : vtimers_rep x g ((n, y) :: ps) →
  ∃ h' d', pop_timer v (tm_set s v x g) = Ok (n, tm_set s v (with_chain x h' (timer_deltas x) d') g) ∧
    dc_rep h' (timer_deltas x) d' ps ∧ (∀ m, is_Some (h' !! m) ↔ is_Some (timer_nodes x !! m)).
Proof.
  intros Hv. destruct (vt_chain _ _ _ Hv) as [Hdq Hd].
  destruct (dq_popfront_spec _ _ _ Hdq) as (h' & d' & E & Hr & _ & _ & Hf).
  exists h', d'. apply list.Forall_cons in Hd as [_ Hd]. split; [|split; [by split|done]].
  unfold pop_timer. mstep (tm_get s v x g). unfold lift, delta_chain_popfront_noupdate. unfold bind at 1. rewrite E.
  cbn [rbind]. mstep (tm_upd s v x0 g0 H (fun x => x <| timer_nodes := h' |> <| timer_chain := d' |>) x g).
  unfold not_null, ret. repeat f_equal.
Qed.

(** The clock once it runs for the chain [ps]. *)
Definition clock_restarted (ps : list (Z * Z)) (g : vmcs_guest) : vmcs_guest :=
  match ps with
  | [] => g <| c_activate_vmx_preemption_timer := false |> <| c_save_vmx_preemption_timer := false |>
  | (_, y) :: _ => g <| g_preemption_timer_value := u32 y |>
  end.

Lemma restart_clock_run x g ps : dc_rep (timer_nodes x) (timer_deltas x) (timer_chain x) ps →
  restart_clock v (tm_set s v x g) = Ok (tt, tm_set s v x (clock_restarted ps g)).
Proof.
  intros [Hdq Hd]. unfold restart_clock. mstep (tm_get s v x g).
  unfold delta_chain_peekfront. rewrite (dq_peekfront_spec _ _ _ Hdq). destruct ps as [|[n y] ps].
  - exact (tm_write s v x0 g0 H _ x g).
  - cbn [fmap list_fmap head fst]. apply list.Forall_cons in Hd as [[En _] _]. cbn [fst snd] in En.
    unfold lift. unfold bind at 1. rewrite (get_delta_ok _ _ _ En). exact (tm_write s v x0 g0 H _ x g).
Qed.

(** What the clock shows then is what is left of every timer. *)
Lemma restarted_due ps g : Forall (fun p : Z * Z => 0 <= p.2) ps →
  Forall (fun p : Z * Z => p.2 < 2 ^ 32) (expiries 0 ps) → 0 <= g_preemption_timer_value g →
  due (clock_restarted ps g) ps = expiries 0 ps ∧ 0 <= g_preemption_timer_value (clock_restarted ps g).
Proof.
  intros Hnn Hb Hg. destruct ps as [|[n y] ps]; [by destruct g|].
  apply list.Forall_cons in Hnn as [Hy _]. apply list.Forall_cons in Hb as [Hb _]. cbn in Hy, Hb.
  unfold due. cbn [clock_restarted with_front].
  assert (g_preemption_timer_value (g <| g_preemption_timer_value := u32 y |>) = y) as ->; [|done].
  destruct g. cbn. unfold constant. apply wrap_small. lia.
Qed.

Lemma set_pending_nmi x g vector nmi : LPending v ∉ h_locks s → (nmi = true → vector = NMI) →
  vemu_set_interrupt_pending v vector nmi (tm_set s v x g) = Ok (0, tm_set s v (pended x vector nmi) g).
Proof.
  intros Hl Hn. unfold vemu_set_interrupt_pending.
  assert (nmi && negb (vector =? NMI) = false) as ->.
  { destruct nmi; [|done]. by rewrite Hn. }
  assert (with_vlock (LPending v) (__vemu_set_interrupt_pending v vector nmi) (tm_set s v x g) =
    Ok (tt, tm_set s v (pended x vector nmi) g)) as E; [|by mstep E].
  apply with_vlock_run; [done| |done].
  assert (calling (locked (LPending v) s) v x0 g0) as H' by (destruct H; by split).
  unfold __vemu_set_interrupt_pending, pended. destruct nmi; exact (tm_upd (locked (LPending v) s) v x0 g0 H' _ x g).
Qed.

(** The vcpu after the exit: the timer [n] is now [t], the chain has changed. *)
Definition expired x (h : gmap Z (lnode Z)) (ds : gmap Z Z) (d : dq Z) n t : vcpu :=
  pended (enabled_vcpu (with_timer (with_chain x h ds d) n t)) (tm_vector t) (tm_nmi t).

Lemma expired_rep x g n y ps h ds d t ps2 : vtimers_rep x g ((n, y) :: ps) →
  dc_rep h ds d ps2 → (∀ m, is_Some (h !! m) ↔ is_Some (timer_nodes x !! m)) →
  (∀ m, is_Some (timer_deltas x !! m) → is_Some (ds !! m)) →
  (∀ m, m ∈ ps2.*1 ↔ m ∈ ps.*1 ∨ (m = n ∧ tm_armed t = true)) →
  Forall (fun p : Z * Z => p.2 < 2 ^ 32) (expiries 0 ps2) →
  vtimers_rep (expired x h ds d n t) (clock_restarted ps2 g) ps2 ∧ due (clock_restarted ps2 g) ps2 = expiries 0 ps2.
Proof.
  intros [Hc Hts Honly Hact Hval _] Hc2 Hh Hds Hin Hb.
  pose proof (dc_rep_expiries_nonneg _ _ _ _ Hc2) as Hnn.
  destruct (restarted_due ps2 g Hnn Hb Hval) as [Hdue Hv2]. split; [|exact Hdue].
  assert (timer_nodes (expired x h ds d n t) = h ∧ timer_deltas (expired x h ds d n t) = ds ∧
    timer_chain (expired x h ds d n t) = d ∧ timers (expired x h ds d n t) = <[n := t]> (timers x)) as (E1 & E2 & E3 & E4)
    by (unfold expired, pended; by destruct x, (tm_nmi t)).
  pose proof (rep_nodup _ _ _ (dc_dq _ _ _ _ Hc)) as Hnd. apply list.NoDup_cons in Hnd as [Hn _]. cbn [fst] in Hn.
  split.
  - by rewrite E1, E2, E3.
  - intros m Hm. rewrite E1, E2, E4. destruct (Hts m Hm) as (t' & Et & En & Ed & Ha).
    destruct (decide (m = n)) as [-> | Hne].
    + exists t. rewrite lookup_insert_eq, Hh, Hin. split; [done|]. split; [done|]. split; [by apply Hds|].
      split; [by right|]. intros [Hx | [_ Hx]]; [|done]. done.
    + exists t'. rewrite lookup_insert_ne by done. rewrite Hh, Hin, Ha. split; [done|]. split; [done|].
      split; [by apply Hds|]. cbn [fmap list_fmap fst]. rewrite elem_of_cons. tauto.
  - intros m Hm. apply Honly. apply Hin in Hm as [Hm | [-> _]]; [by right|by left].
  - destruct ps2 as [|[m z] ps2]; [by destruct g|]. destruct Hact as [A1 A2]. cbn [is_nil negb] in *.
    destruct g. cbn in A1, A2 |- *. done.
  - exact Hv2.
  - by rewrite Hdue.
Qed.

(** What becomes of the timer that ran out. *)
Definition rearmed (t : vtimer) : vtimer := t <| tm_armed := tm_periodic t |>.

Lemma rearm_run x g n y ps t h1 d1 : vtimers_rep x g ((n, y) :: ps) → timers x !! n = Some t →
  0 <= tm_ticks t < 2 ^ 32 → dc_rep h1 (timer_deltas x) d1 ps →
  (∀ m, is_Some (h1 !! m) ↔ is_Some (timer_nodes x !! m)) →
  let ps2 := if tm_periodic t then delta_insert n (tm_ticks t) ps else ps in
  ∃ h ds d, (if tm_periodic t then on_chain v (fun h ds d => delta_chain_insert h ds d n (tm_ticks t))
             else upd_timer v n (fun t => t <| tm_armed := false |>))
      (tm_set s v (with_chain x h1 (timer_deltas x) d1) g) =
      Ok (tt, tm_set s v (with_timer (with_chain x h ds d) n (rearmed t)) g) ∧
    dc_rep h ds d ps2 ∧ (∀ m, is_Some (h !! m) ↔ is_Some (timer_nodes x !! m)) ∧
    (∀ m, is_Some (timer_deltas x !! m) → is_Some (ds !! m)).
Proof.
  intros Hv Et Htk Hc Hh ps2. pose proof (rep_nodup _ _ _ (dc_dq _ _ _ _ (vt_chain _ _ _ Hv))) as Hnd.
  apply list.NoDup_cons in Hnd as [Hn _]. cbn [fst] in Hn.
  destruct (vt_timers _ _ _ Hv n) as (t' & Et' & En & Ed & Ha);
    [apply (vt_only _ _ _ Hv); by left|]. rewrite Et in Et'. injection Et' as <-.
  unfold ps2, rearmed. destruct (tm_periodic t) eqn:Ep; cycle 1.
  { exists h1, (timer_deltas x), d1. split; [|done].
    exact (tm_upd_timer s v x0 g0 H n t (fun t => t <| tm_armed := false |>) (with_chain x h1 (timer_deltas x) d1) g Et). }
  destruct (delta_chain_insert_spec h1 (timer_deltas x) d1 ps n (tm_ticks t) Hc) as (h & ds & d & E & Hr & Hf & Hdf);
    [by apply Hh|done|done|lia|]. exists h, ds, d. split; [|split; [done|split]].
  - rewrite (tm_chain s v x0 g0 H _ (with_chain x h1 (timer_deltas x) d1) g h ds d E). repeat f_equal.
    assert (tm_armed t = true) as Hat by (apply Ha; by left). destruct t. cbn in Hat, Ep. subst. symmetry.
    unfold with_timer, with_chain, apply_update. destruct x. cbn in Et |- *. unfold constant. by rewrite insert_id.
  - intros m. rewrite (proj2 Hf). apply Hh.
  - intros m Hm. destruct (decide (m ∈ n :: ps.*1)) as [Hin|Hin]; [|by rewrite Hdf].
    assert (m ∈ (delta_insert n (tm_ticks t) ps).*1) as Hk by (apply delta_insert_fst; by apply elem_of_cons in Hin).
    apply list_elem_of_fmap in Hk as ([k z] & -> & Hk).
    by destruct (proj1 (list.Forall_forall _ _) (dc_delta _ _ _ _ Hr) _ Hk) as [-> _].
Qed.

(** C36.  A timer that runs out is delivered once: the exit pops the timer whose
    time has come and makes its interrupt pending; a periodic timer is armed
    again for its full period, any other is disarmed; every other timer keeps
    the time it had left, and the processor counts down the first of them. *)
Theorem vexit_vmx_preempt_expires x g n y ps t r :
  calm x → vtimers_rep x g ((n, y) :: ps) → g_preemption_timer_value g = 0 → timers x !! n = Some t →
  0 <= tm_ticks t < 2 ^ 32 → (tm_nmi t = true → tm_vector t = NMI) → LPending v ∉ h_locks s →
  ∃ x' g' ps', vexit_vmx_preempt resume r (tm_set s v x g) = Ok (Some r, tm_set s v x' g') ∧
    vtimers_rep x' g' ps' ∧
    (∃ rest, due g ((n, y) :: ps) = (n, 0) :: rest ∧
       due g' ps' = if tm_periodic t then exp_insert n (tm_ticks t) rest else rest) ∧
    timers x' !! n = Some (t <| tm_armed := tm_periodic t |>) ∧
    (if tm_nmi t then nmi_pending (delivery x') = true
     else pending_external_interrupts x' = bmp256_set (pending_external_interrupts x) (tm_vector t)).
Proof.
  intros Hcalm Hv H0 Et Htk Hnmi Hlk. unfold vexit_vmx_preempt. mstep (tm_current s v x0 g0 H x g).
  destruct (pop_timer_run x g n y ps Hv) as (h1 & d1 & E1 & Hc1 & Hh1). mstep E1.
  mconv (tm_timer s v n t (with_chain x h1 (timer_deltas x) d1) g Et).
  assert (due g ((n, y) :: ps) = (n, 0) :: expiries 0 ps) as Hdue
    by (unfold due; cbn [with_front expiries]; by rewrite H0).
  pose proof (vt_due _ _ _ Hv) as Hb. rewrite Hdue in Hb. apply list.Forall_cons in Hb as [_ Hb].
  destruct (rearm_run x g n y ps t h1 d1 Hv Et Htk Hc1 Hh1) as (h & ds & d & E2 & Hc2 & Hh2 & Hds).
  mconv E2. mconv (restart_clock_run (with_timer (with_chain x h ds d) n (rearmed t)) g _ Hc2).
  set (ps2 := if tm_periodic t then _ else ps) in *. set (g2 := clock_restarted ps2 g) in *.
  mconv (tm_enable resume s v x0 g0 H (with_timer (with_chain x h ds d) n (rearmed t)) g2 Hcalm).
  mconv (set_pending_nmi (enabled_vcpu (with_timer (with_chain x h ds d) n (rearmed t))) g2 (tm_vector t) (tm_nmi t) Hlk Hnmi).
  destruct (expired_rep x g n y ps h ds d (rearmed t) ps2 Hv Hc2 Hh2 Hds) as [Hrep Hdue2].
  { intros m. unfold ps2, rearmed. destruct t as [? [] ? ? ?]; cbn; [rewrite delta_insert_fst|]; naive_solver. }
  { unfold ps2. destruct (tm_periodic t); [|exact Hb]. apply delta_insert_bound; [exact Hb|lia]. }
  exists (expired x h ds d n (rearmed t)), g2, ps2. split; [by destruct t|]. split; [exact Hrep|]. split; [|split].
  - exists (expiries 0 ps). split; [exact Hdue|]. fold g2 in Hdue2. rewrite Hdue2. unfold ps2.
    destruct (tm_periodic t); [|done]. by rewrite expiries_delta_insert.
  - unfold expired, pended, rearmed. destruct x, t as [? ? ? [] ?]; cbn; unfold apply_update, constant; cbn;
      by rewrite lookup_insert_eq.
  - unfold expired, pended, rearmed. by destruct x, t as [? ? ? [] ?].
Qed.
End Expiry.
