(* ===== verification/Vconfine.v ===== *)
(** * Vconfine: what a guest can reach through its exits

    The specification of the exits with which a guest asks for privileged
    state (vexit.c): control registers and model-specific registers; and of
    the way from an exit to its handler. *)

From S2P Require Import Prelude Std Bmp Dq DeltaChain SchedDsa Twan VschedDsa Vpartition Vutils.
From S2P Require Import Vrecovery Vsched Vemu Vcreate Vcalls Vtimers Venter Visr Vinfo Vexit.
From coqutil Require Import Datatypes.RecordSetters.
From Stdlib Require Import ZArith Lia Bool.
From stdpp Require Import base gmap list numbers sets.

Local Open Scope Z_scope.

(** ** What is queued for the next entry *)

Definition with_operations (x : vcpu) (f : voperations → voperations) : vcpu := x <| operations ::= f |>.
(** A general-protection fault with the error code 0. *)
Definition gp0_queued (o : voperations) : voperations :=
  o <| idt_vectoring := true |>
    <| idt_vectoring_info := VectoredEvent INTERRUPT_TYPE_HARDWARE_EXCEPTION GENERAL_PROTECTION_FAULT false |>
    <| use_synth_errcode := true |> <| synth_errcode := 0 |>.
Definition advance_queued (o : voperations) : voperations := o <| should_advance := true |>.
Definition cr0_queued (val : Z) (o : voperations) : voperations := o <| vmwrite_cr0 := true |> <| op_cr0 := val |>.
Definition cr4_queued (val : Z) (o : voperations) : voperations := o <| vmwrite_cr4 := true |> <| op_cr4 := val |>.

Section Queue.
Context (s : hv) (v : vptr) (x0 : vcpu) (g0 : vmcs_guest).
Context (H : calling s v x0 g0).
Implicit Types (x : vcpu) (g : vmcs_guest).

Lemma tm_operations f x g :
  upd_operations v f (tm_set s v x g) = Ok (tt, tm_set s v (with_operations x f) g).
Proof. exact (tm_upd s v x0 g0 H (fun x => with_operations x f) x g). Qed.

Lemma tm_advance x g :
  vqueue_advance_guest (tm_set s v x g) = Ok (tt, tm_set s v (with_operations x advance_queued) g).
Proof. unfold vqueue_advance_guest. mstep (tm_current s v x0 g0 H x g). apply tm_operations. Qed.

Lemma tm_gp0 x g : idt_vectoring (operations x) = false →
  vqueue_inject_gp0 (tm_set s v x g) = Ok (tt, tm_set s v (with_operations x gp0_queued) g).
Proof.
  intros Hi. unfold vqueue_inject_gp0, vqueue_idt_vectoring_info. unfold bind at 1.
  mstep (tm_current s v x0 g0 H x g). cbn [vectored_event_type].
  mstep (tm_get s v x g). rewrite Hi. mstep (eq_refl : massert (negb false) (tm_set s v x g) = Ok (tt, tm_set s v x g)).
  rewrite tm_operations. unfold vqueue_synthetic_errcode.
  mstep (tm_current s v x0 g0 H (with_operations x (fun o => o <| idt_vectoring := true |> <| idt_vectoring_info :=
    VectoredEvent INTERRUPT_TYPE_HARDWARE_EXCEPTION GENERAL_PROTECTION_FAULT false |>)) g).
  rewrite tm_operations. repeat f_equal.
Qed.

Lemma tm_cr0 val x g :
  vqueue_vmwrite_cr0 val (tm_set s v x g) = Ok (tt, tm_set s v (with_operations x (cr0_queued val)) g).
Proof. unfold vqueue_vmwrite_cr0. mstep (tm_current s v x0 g0 H x g). apply tm_operations. Qed.
Lemma tm_cr4 val x g :
  vqueue_vmwrite_cr4 val (tm_set s v x g) = Ok (tt, tm_set s v (with_operations x (cr4_queued val)) g).
Proof. unfold vqueue_vmwrite_cr4. mstep (tm_current s v x0 g0 H x g). apply tm_operations. Qed.

Lemma tm_intl l x g : LPending v ∉ h_locks s → vset_intl v l (tm_set s v x g) =
  Ok (tt, tm_set s v (x <| delivery -> intl := Z.land l 15 |>) g).
Proof.
  intros Hl. apply with_vlock_run; [done| |done].
  assert (calling (locked (LPending v) s) v x0 g0) as H' by (destruct H; by split).
  exact (tm_upd (locked (LPending v) s) v x0 g0 H' _ x g).
Qed.
End Queue.

(** ** Control registers *)

(** The value of a general register; the stack pointer is in the VMCS. *)
Definition gpr_of (r : vregs) (g : vmcs_guest) (n : Z) : option Z :=
  [rax r; rcx r; rdx r; rbx r; g_rsp g; rbp r; rsi r; rdi r; r8 r; r9 r; r10 r; r11 r; r12 r; r13 r; r14 r; r15 r]
    !! Z.to_nat n.

(** The bits a guest may not set. *)
Definition cr0_forbidden : list Z := [29; 30].
Definition cr4_forbidden (f : vfeatures) : list Z :=
  [6; 14; 15; 18; 25; 26; 29; 30; 31; 32] ++
  concat (map (fun bf : Z * bool => if snd bf then [] else [fst bf])
    [(11, f_umip f); (12, f_la57 f); (16, f_fsgsbase f); (17, f_pcid f); (19, f_kl f); (20, f_smep f); (21, f_smap f);
     (23, f_cet f); (24, f_pks f); (27, f_lass f); (28, f_lam f)]).

Lemma cr0_valid_spec val : cr0_valid val = true ↔ ∀ b, b ∈ cr0_forbidden → Z.testbit val b = false.
Proof.
  unfold cr0_valid, cr0_forbidden. rewrite andb_true_iff, !negb_true_iff. split.
  - intros [H1 H2] b Hb. repeat (apply elem_of_cons in Hb as [-> | Hb]; [done|]). by apply elem_of_nil in Hb.
  - intros Hb. split; apply Hb; set_solver.
Qed.

Lemma cr4_valid_spec f val : 0 <= val →
  cr4_valid f val = true ↔
  f_pke f = false ∧ (∀ b, b ∈ cr4_forbidden f → Z.testbit val b = false) ∧ (∀ b, 33 <= b → Z.testbit val b = false).
Proof.
  intros Hv.
  assert ((Z.shiftr val 33 =? 0) = true ↔ ∀ b, 33 <= b → Z.testbit val b = false) as Hs.
  { rewrite Z.eqb_eq. split.
    - intros E b Hb. replace b with (b - 33 + 33) by lia. by rewrite <- Z.shiftr_spec, E, Z.testbit_0_l by lia.
    - intros Hb. apply Z.bits_inj'. intros n Hn. rewrite Z.shiftr_spec, Z.testbit_0_l by lia. apply Hb. lia. }
  rewrite <- Hs. unfold cr4_valid, cr4_forbidden. cbn [map fst snd].
  assert (∀ (b : bool) n, (b || negb (Z.testbit val n)) = true ↔
    ∀ k, k ∈ (if b then [] else [n]) → Z.testbit val k = false) as Hc.
  { intros [] n; cbn; [split; [intros _ k Hk; by apply elem_of_nil in Hk|done]|]. rewrite negb_true_iff. split.
    - by intros Hn k ->%list_elem_of_singleton.
    - intros Hn. apply Hn. by apply list_elem_of_singleton. }
  rewrite !andb_true_iff, !Hc, !negb_true_iff. cbn [concat]. setoid_rewrite elem_of_app. repeat setoid_rewrite elem_of_app.
  split.
  - intros Hall. split; [tauto|]. split; [|tauto]. intros b [Hb|Hb].
    + repeat (apply elem_of_cons in Hb as [-> | Hb]; [tauto|]). by apply elem_of_nil in Hb.
    + destruct_and!. repeat match type of Hb with _ ∨ _ => destruct Hb as [Hb|Hb]; [by eauto|] end. by apply elem_of_nil in Hb.
  - intros (Hp & Hb & Hsh).
    assert (∀ b, In b [6; 14; 15; 18; 25; 26; 29; 30; 31; 32] → Z.testbit val b = false) as H1
      by (intros b Hin; apply Hb; left; by apply list_elem_of_In).
    assert (∀ b, _ → Z.testbit val b = false) as H2 by (intros b Hin; apply Hb; right; exact Hin).
    repeat split; try exact Hp; try exact Hsh; try (apply H1; cbn; tauto); intros k Hk; apply H2; tauto.
Qed.

Section Registers.
Context (resume : vptr → M hv unit) (s : hv) (v : vptr) (x0 : vcpu) (g0 : vmcs_guest).
Context (H : calling s v x0 g0).
Implicit Types (x : vcpu) (g : vmcs_guest).

Lemma vgpr_val_run r x g n val : 0 <= n → gpr_of r g n = Some val →
  vgpr_val r n (tm_set s v x g) = Ok (val, tm_set s v x g).
Proof.
  intros Hn E. assert (n < 16) as Hlt by (apply lookup_lt_Some in E; cbn in E; lia). unfold vgpr_val.
  assert (n ∈ seqZ 0 16) as Hin by (apply elem_of_seqZ; lia). cbn in Hin.
  repeat (apply elem_of_cons in Hin as [-> | Hin];
    [cbn in E |- *; injection E as <-; first [done|exact (tm_read s v x0 g0 H g_rsp x g)]|]).
  by apply elem_of_nil in Hin.
Qed.

(** The guest is refused, or goes on behind the instruction. *)
Definition refused x : vcpu := with_operations (enabled_vcpu x) gp0_queued.
Definition granted x (f : voperations → voperations) : vcpu :=
  with_operations (with_operations (enabled_vcpu x) f) advance_queued.

Definition with_cr8 (r : vregs) (val : Z) : vregs := r <| cr8 := val |>.
Definition with_level x (l : Z) : vcpu := x <| delivery -> intl := Z.land l 15 |>.
Definition vmxe (val : Z) : Z := Z.lor val (Z.shiftl 1 CR4_VMXE).

(** C32. A move to a control register is refused with a general-protection
    fault, and changes nothing, or is queued for the next entry exactly as the
    guest wrote it: CR0 if no bit is set that disables caching; CR4 (with VMXE,
    which the processor demands), on a processor without protection keys, if no
    bit is set that is reserved, not offered to guests, or of a feature that the
    processor lacks; CR8 if it is a level, which at once
    becomes the level of the guest.  On a processor with protection keys every
    write of CR4 is refused, whatever its value.  (For the running vcpu,
    preempted by nobody, with no event queued for its entry and the lock of its
    pending state free, and a general register as the operand.) *)
Theorem vexit_cr_access_filters features r x g val :
  let qual := exit_qualification (ro_exit g) in
  let run := vexit_cr_access resume features r (tm_set s v x g) in
  let refuse := Ok (Some r, tm_set s v (refused x) g) in
  calm x → idt_vectoring (operations x) = false → LPending v ∉ h_locks s →
  gpr_of r g (qual_gpr qual) = Some val → 0 <= val < 2 ^ 64 →
  (qual_cr qual = 0 →
     run = if forallb (fun b => negb (Z.testbit val b)) cr0_forbidden
           then Ok (Some r, tm_set s v (granted x (cr0_queued val)) g) else refuse) ∧
  (qual_cr qual = 4 →
     ((f_pke (features (h_this s)) = false ∧ (∀ b, 0 <= b → Z.testbit (vmxe val) b = true →
        (b ∉ cr4_forbidden (features (h_this s))) ∧ b < 33)) →
      run = Ok (Some r, tm_set s v (granted x (cr4_queued (vmxe val))) g)) ∧
     ((f_pke (features (h_this s)) = true ∨ (∃ b, 0 <= b ∧ Z.testbit (vmxe val) b = true ∧
        (b ∈ cr4_forbidden (features (h_this s)) ∨ 33 <= b))) → run = refuse)) ∧
  (qual_cr qual = 8 →
     (val < 16 → ∃ x', run = Ok (Some (with_cr8 r val), tm_set s v x' g) ∧
        intl (delivery x') = val ∧ operations x' = advance_queued (operations x)) ∧
     (16 <= val → run = refuse)).
Proof.
  intros qual run refuse Hc Hi Hl Hg Hval.
  assert ((vqueue_inject_gp0 ;;; ret (Some r)) (tm_set s v (enabled_vcpu x) g) = refuse) as Href
    by (by mstep (tm_gp0 s v x0 g0 H (enabled_vcpu x) g Hi)).
  assert (∀ f (r' : vregs), (vqueue_advance_guest ;;; ret (Some r')) (tm_set s v (with_operations (enabled_vcpu x) f) g) =
    Ok (Some r', tm_set s v (granted x f) g)) as Hadv
    by (intros f r'; by mstep (tm_advance s v x0 g0 H (with_operations (enabled_vcpu x) f) g)).
  subst run. unfold vexit_cr_access.
  mstep (tm_read s v x0 g0 H (fun g => exit_qualification (ro_exit g)) x g). fold qual.
  mstep (tm_enable resume s v x0 g0 H x g Hc). mstep (tm_current s v x0 g0 H (enabled_vcpu x) g).
  assert (0 <= qual_gpr qual) as Hq by (apply Z.land_nonneg; by right).
  mstep (vgpr_val_run r (enabled_vcpu x) g _ _ Hq Hg).
  split; [|split]; intros ->; cbn [Z.eqb Pos.eqb].
  - replace (forallb _ cr0_forbidden) with (cr0_valid val) by (unfold cr0_valid; cbn; by rewrite andb_comm, andb_true_r).
    destruct (cr0_valid val); cbn [negb]; [|exact Href]. mstep (tm_cr0 s v x0 g0 H val (enabled_vcpu x) g). apply Hadv.
  - mstep (eq_refl : vthis_vprocessor_id (tm_set s v (enabled_vcpu x) g) = Ok (h_this s, tm_set s v (enabled_vcpu x) g)).
    assert (0 <= vmxe val) as Hv by (apply Z.lor_nonneg; split; [lia|by vm_compute]). fold (vmxe val).
    pose proof (cr4_valid_spec (features (h_this s)) (vmxe val) Hv) as Hs.
    assert (∀ b, Z.testbit (vmxe val) b = true → 0 <= b) as Hnn.
    { intros b Ht. destruct (Z.neg_nonneg_cases b); [by rewrite Z.testbit_neg_r in Ht|done]. }
    split; [intros [Hp Hb]|intros Hb].
    + rewrite (proj2 Hs); [cbn [negb]; mstep (tm_cr4 s v x0 g0 H (vmxe val) (enabled_vcpu x) g); apply Hadv|].
      split; [done|]. split; intros b Hin; apply not_true_iff_false; intros Ht;
        destruct (Hb b (Hnn b Ht) Ht) as [Hn1 Hn2]; [done|lia].
    + assert (cr4_valid (features (h_this s)) (vmxe val) = false) as ->; [|exact Href].
      apply not_true_iff_false. intros (Hp & Hf & H33)%Hs. destruct Hb as [Hb | (b & Hb0 & Ht & [Hb|Hb])];
        [congruence|by rewrite Hf in Ht|by rewrite H33 in Ht].
  - rewrite Z.shiftr_div_pow2 by lia. change (2 ^ 4) with 16. split; intros Hlt.
    + rewrite (Z.div_small val 16) by lia. cbn [negb Z.eqb].
      exists (with_operations (with_level (enabled_vcpu x) val) advance_queued).
      mstep (tm_intl s v x0 g0 H val (enabled_vcpu x) g Hl).
      mconv (tm_advance s v x0 g0 H (with_level (enabled_vcpu x) val) g). split; [done|]. split; [|by destruct x].
      assert (Z.land val 15 = val) as E by (change 15 with (Z.ones 4); rewrite Z.land_ones, Z.mod_small by lia; done).
      destruct x as [? ? ? ? ? ? ? ? ? ? ? ? ? ? ? ? ? ? ? [] ? ?]. exact E.
    + rewrite (proj2 (Z.eqb_neq _ _)); [exact Href|]. pose proof (Z.div_le_mono 16 val 16 ltac:(lia) Hlt) as Hd. change (16 / 16) with 1 in Hd. lia.
Qed.
End Registers.

(** ** Model-specific registers *)

Section Msrs.
Context (resume : vptr → M hv unit) (flags : Z → vinfo_flags) (vcache : Z → vper_cpu_cache).
Context (read_lapic : Z → list vevent → lapic) (here : context) (wrmsr_ok : Z → Z → bool).
Context (s : hv) (v : vptr) (x0 : vcpu) (g0 : vmcs_guest) (p : vper_cpu).
Context (H : calling s v x0 g0) (Hp : h_cpus s !! h_this s = Some p) (Hisr : handling_isr p = false).
Implicit Types (x : vcpu) (g : vmcs_guest).

Definition emulated_write (msr : Z) : bool := (msr =? IA32_VIRTUAL_MITIGATION_CTRL) || (msr =? IA32_FEATURE_CONTROL).
(** The value of edx:eax. *)
Definition edx_eax (r : vregs) : Z := Z.lor (Z.shiftl (low32 (rdx r)) 32) (low32 (rax r)).

(** What an emulated register takes. *)
Definition emulated_ok (r : vregs) : bool :=
  if low32 (rcx r) =? IA32_VIRTUAL_MITIGATION_CTRL
  then ia32_arch_capabilities_r (flags (h_this s)) && (low32 (rax r) =? 0) && (low32 (rdx r) =? 0)
  else ia32_feature_control_rw (flags (h_this s)) &&
    (low32 (rax r) =? via32_feature_ctrl_low (vcache (h_this s))) &&
    (low32 (rdx r) =? via32_feature_ctrl_high (vcache (h_this s))).

(** The write reaches the processor; the guest goes on. *)
Definition write_passes x (r : vregs) : bool :=
  negb (emulated_write (low32 (rcx r))) && (root x && negb (vis_msr_blocked (low32 (rcx r))) &&
    wrmsr_ok (low32 (rcx r)) (edx_eax r)).
Definition write_granted x (r : vregs) : bool :=
  if emulated_write (low32 (rcx r)) then emulated_ok r else write_passes x r.

(** What a shield leaves behind. *)
Definition scratched (p : vper_cpu) (sh : vshield) (ctx : context) : vper_cpu :=
  p <| shield := sh |> <| vcpu_ctx := ctx |>.
Definition logged (e : list vevent) (s : hv) : hv := s <| h_log ::= fun l => l ++ e |>.

(** [s] after the processor was used: its data is [q], the events [l] happened. *)
Definition used (q : vper_cpu) (l : list vevent) : hv := logged l (this_set s q).

Lemma used_calling q l : current_vcpu q = current_vcpu p → calling (used q l) v x0 g0.
Proof.
  intros E. destruct H as [(p' & Ep & Ev) ? ? ? ?]. split; try done. exists q.
  split; [exact (this_set_lookup s q)|]. rewrite E. rewrite Hp in Ep. by injection Ep as ->.
Qed.

Lemma refuse_run x g r q l : current_vcpu q = current_vcpu p → idt_vectoring (operations x) = false →
  refuse r (tm_set (used q l) v x g) = Ok (Some r, tm_set (used q l) v (with_operations x gp0_queued) g).
Proof. intros Eq Hi. unfold refuse. by mstep (tm_gp0 (used q l) v x0 g0 (used_calling q l Eq) x g Hi). Qed.

Lemma advance_run x g r q l : current_vcpu q = current_vcpu p →
  advance r (tm_set (used q l) v x g) = Ok (Some r, tm_set (used q l) v (with_operations x advance_queued) g).
Proof. intros Eq. unfold advance. by mstep (tm_advance (used q l) v x0 g0 (used_calling q l Eq) x g). Qed.

Lemma decide_run (b : bool) x g r q l : current_vcpu q = current_vcpu p → idt_vectoring (operations x) = false →
  (if b then refuse r else advance r) (tm_set (used q l) v x g) =
  Ok (Some r, tm_set (used q l) v (with_operations x (if negb b then advance_queued else gp0_queued)) g).
Proof. intros Eq Hi. destruct b; [by apply refuse_run|by apply advance_run]. Qed.

Lemma unused x g : tm_set (used p []) v x g = tm_set s v x g.
Proof.
  unfold used. rewrite (this_set_id s p Hp). unfold logged, tm_set, apply_update. destruct s. cbn. by rewrite app_nil_r.
Qed.

(** The shield around an access of the processor. *)
Lemma shielded_write x g msr val : exceptions_free read_lapic s →
  ∃ sh ctx, active sh = false ∧ ∀ k : bool → M hv (option vregs),
    (venter_shield_local_length GENERAL_PROTECTION_FAULT 2 ;;; __wrmsrl read_lapic here wrmsr_ok msr val ;;;
     fault <~ vexit_shield_local ;; k fault) (tm_set s v x g) =
    k (negb (wrmsr_ok msr val))
      (tm_set (used (scratched p sh ctx) (if wrmsr_ok msr val then [EWrmsr msr val] else [])) v x g).
Proof.
  intros Hfree. pose (q := shielded GENERAL_PROTECTION_FAULT 2 p).
  assert (venter_shield_local_length GENERAL_PROTECTION_FAULT 2 (tm_set s v x g) = Ok (0, this_set (tm_set s v x g) q)) as E1.
  { rewrite <- (this_set_id (tm_set s v x g) p Hp) at 1. exact (enter_shield_run (tm_set s v x g) p GENERAL_PROTECTION_FAULT 2 Hisr eq_refl). }
  destruct (wrmsr_ok msr val) eqn:Ew.
  - exists (shield (unshielded q)), (vcpu_ctx p). split; [done|]. intros k. mstep E1.
    unfold __wrmsrl. rewrite Ew.
    mstep (eq_refl : vlog (EWrmsr msr val) (this_set (tm_set s v x g) q) =
      Ok (tt, this_set (tm_set (logged [EWrmsr msr val] s) v x g) q)).
    by mstep (exit_shield_run (tm_set (logged [EWrmsr msr val] s) v x g) q Hisr).
  - exists (shield (unshielded (caught q here))), (vcpu_ctx (caught q here)). split; [done|]. intros k. mstep E1.
    unfold __wrmsrl. rewrite Ew.
    assert (interrupted read_lapic here GENERAL_PROTECTION_FAULT (this_set (tm_set s v x g) q) =
      Ok (tt, this_set (tm_set s v x g) (caught q here))) as E2
      by (unfold interrupted; by mstep (exception_shielded read_lapic (tm_set s v x g) q GENERAL_PROTECTION_FAULT here
        Hfree eq_refl Hisr eq_refl eq_refl)).
    mstep E2. mstep (exit_shield_run (tm_set s v x g) (caught q here) Hisr).
    cbn [negb]. f_equal. unfold used, logged, tm_set, this_set, apply_update. destruct s. cbn. by rewrite app_nil_r.
Qed.

(** C23.  A guest never writes a model-specific register that is not its own: a
    write reaches the processor only if the root wrote a register that is not
    blocked; the two emulated registers take the value they have and no
    other; whatever is refused becomes a general-protection fault of the
    guest, also when it is the processor that refuses, and the hypervisor
    stays as it was. *)
Theorem vexit_wrmsr_is_confined x g r :
  calm x → idt_vectoring (operations x) = false → exceptions_free read_lapic s →
  ∃ p', (p' = p ∨ ∃ sh ctx, p' = scratched p sh ctx ∧ active sh = false) ∧
    vexit_wrmsr resume flags read_lapic here vcache wrmsr_ok r (tm_set s v x g) =
    Ok (Some r, tm_set (logged (if write_passes x r then [EWrmsr (low32 (rcx r)) (edx_eax r)] else []) (this_set s p'))
      v (with_operations (enabled_vcpu x) (if write_granted x r then advance_queued else gp0_queued)) g).
Proof.
  intros Hc Hi Hfree. unfold vexit_wrmsr, write_granted, write_passes.
  mstep (tm_enable resume s v x0 g0 H x g Hc).
  set (msr := low32 (rcx r)). set (S0 := tm_set s v (enabled_vcpu x) g).
  mstep (eq_refl : vthis_vprocessor_id S0 = Ok (h_this s, S0)). mstep (tm_current s v x0 g0 H (enabled_vcpu x) g).
  mstep (tm_get s v (enabled_vcpu x) g). change (root (enabled_vcpu x)) with (root x).
  unfold emulated_write, emulated_ok. fold msr.
  subst S0. rewrite <- (unused (enabled_vcpu x) g).
  destruct (msr =? IA32_VIRTUAL_MITIGATION_CTRL) eqn:E1; [|destruct (msr =? IA32_FEATURE_CONTROL) eqn:E2]; cbn [orb negb andb].
  - exists p. split; [by left|]. rewrite decide_run by done. rewrite !negb_orb, !negb_involutive. done.
  - exists p. split; [by left|].
    destruct (ia32_feature_control_rw _); cbn [negb andb]; [|by apply (decide_run true)].
    rewrite decide_run by done. by rewrite negb_orb, !negb_involutive.
  - destruct (root x) eqn:Er; cbn [negb orb andb]; [|exists p; split; [by left|by apply (decide_run true)]].
    destruct (vis_msr_blocked msr) eqn:Eb; cbn [negb andb]; [exists p; split; [by left|by apply (decide_run true)]|].
    destruct (shielded_write (enabled_vcpu x) g msr (edx_eax r) Hfree) as (sh & ctx & Ha & E).
    exists (scratched p sh ctx). split; [right; by eauto|].
    rewrite unused. etrans; [exact (E (fun fault => if fault then refuse r else advance r))|].
    rewrite decide_run by done. by rewrite negb_involutive.
Qed.

Definition emulated_read (msr : Z) : bool :=
  existsb (fun m => msr =? m) [IA32_ARCH_CAPABILITIES; IA32_VIRTUAL_ENUMERATION; IA32_VIRTUAL_MITIGATION_ENUM;
    IA32_VIRTUAL_MITIGATION_CTRL; IA32_FEATURE_CONTROL].

Lemma shielded_read rdmsr x g msr : exceptions_free read_lapic s →
  ∃ sh ctx, active sh = false ∧ ∀ k : Z → bool → M hv (option vregs),
    (venter_shield_local_length GENERAL_PROTECTION_FAULT 2 ;;; val <~ __rdmsrl read_lapic here rdmsr msr ;;
     fault <~ vexit_shield_local ;; k val fault) (tm_set s v x g) =
    k (default 0 (rdmsr msr (h_log s))) (negb (is_some (rdmsr msr (h_log s))))
      (tm_set (used (scratched p sh ctx) []) v x g).
Proof.
  intros Hfree. pose (q := shielded GENERAL_PROTECTION_FAULT 2 p).
  assert (venter_shield_local_length GENERAL_PROTECTION_FAULT 2 (tm_set s v x g) = Ok (0, this_set (tm_set s v x g) q)) as E1.
  { rewrite <- (this_set_id (tm_set s v x g) p Hp) at 1. exact (enter_shield_run (tm_set s v x g) p GENERAL_PROTECTION_FAULT 2 Hisr eq_refl). }
  assert (∀ q', this_set (tm_set s v x g) q' = tm_set (used q' []) v x g) as Eu
    by (intros q'; unfold used, logged, tm_set, this_set, apply_update; destruct s; cbn; by rewrite app_nil_r).
  destruct (rdmsr msr (h_log s)) as [val|] eqn:Er.
  - exists (shield (unshielded q)), (vcpu_ctx p). split; [done|]. intros k. mstep E1.
    assert (__rdmsrl read_lapic here rdmsr msr (this_set (tm_set s v x g) q) = Ok (val, this_set (tm_set s v x g) q)) as E2
      by (unfold __rdmsrl, mgets, bind; change (h_log (this_set (tm_set s v x g) q)) with (h_log s); by rewrite Er).
    mstep E2. mstep (exit_shield_run (tm_set s v x g) q Hisr). rewrite Eu. done.
  - exists (shield (unshielded (caught q here))), (vcpu_ctx (caught q here)). split; [done|]. intros k. mstep E1.
    assert (__rdmsrl read_lapic here rdmsr msr (this_set (tm_set s v x g) q) =
      Ok (0, this_set (tm_set s v x g) (caught q here))) as E2.
    { unfold __rdmsrl, mgets, bind at 1. change (h_log (this_set (tm_set s v x g) q)) with (h_log s). rewrite Er.
      unfold interrupted. unfold bind at 1. unfold bind at 1.
      by rewrite (exception_shielded read_lapic (tm_set s v x g) q GENERAL_PROTECTION_FAULT here Hfree eq_refl Hisr eq_refl eq_refl). }
    mstep E2. mstep (exit_shield_run (tm_set s v x g) (caught q here) Hisr). rewrite Eu. done.
Qed.

(** What a guest reads tells it nothing about the processor that it is
    not to know: the result of an exit for a register that is emulated or
    blocked, or of a guest that is not the root, depends on none of the
    registers but the capabilities it is shown; for the rest the root gets
    what the processor has, or its fault. *)
Theorem vexit_rdmsr_is_confined rdmsr x g r :
  calm x → idt_vectoring (operations x) = false → exceptions_free read_lapic s →
  let msr := low32 (rcx r) in
  let run rdmsr := vexit_rdmsr resume flags read_lapic here vcache rdmsr r (tm_set s v x g) in
  (emulated_read msr || negb (root x) || vis_msr_blocked msr = true → ∀ rdmsr',
     rdmsr' IA32_ARCH_CAPABILITIES = rdmsr IA32_ARCH_CAPABILITIES → run rdmsr' = run rdmsr) ∧
  (emulated_read msr || negb (root x) || vis_msr_blocked msr = false → ∃ sh ctx, active sh = false ∧
     run rdmsr = match rdmsr msr (h_log s) with
       | Some val => Ok (Some (set_da r (low32 val) (high32 val)), tm_set (used (scratched p sh ctx) []) v
                           (with_operations (enabled_vcpu x) advance_queued) g)
       | None => Ok (Some r, tm_set (used (scratched p sh ctx) []) v (with_operations (enabled_vcpu x) gp0_queued) g)
       end).
Proof.
  intros Hc Hi Hfree msr run. subst run. cbv beta. unfold vexit_rdmsr. fold msr.
  set (S0 := tm_set s v (enabled_vcpu x) g). unfold emulated_read. cbn [existsb].
  split; [intros Hor rdmsr' E|intros Hor];
    do 2 try mstep (tm_enable resume s v x0 g0 H x g Hc); fold S0;
    do 2 try mstep (eq_refl : vthis_vprocessor_id S0 = Ok (h_this s, S0));
    do 2 try mstep (tm_current s v x0 g0 H (enabled_vcpu x) g); fold S0;
    do 2 try mstep (tm_get s v (enabled_vcpu x) g); change (root (enabled_vcpu x)) with (root x);
    revert Hor; destruct (msr =? IA32_ARCH_CAPABILITIES); try done; try (unfold __rdmsrl, mgets, bind; by rewrite E);
    destruct (msr =? IA32_VIRTUAL_ENUMERATION); try done;
    destruct (msr =? IA32_VIRTUAL_MITIGATION_ENUM); try done;
    destruct (msr =? IA32_VIRTUAL_MITIGATION_CTRL); try done;
    destruct (msr =? IA32_FEATURE_CONTROL); try done; cbn [orb]; intros ->; try done.
  destruct (shielded_read rdmsr (enabled_vcpu x) g msr Hfree) as (sh & ctx & Ha & E).
  exists sh, ctx. split; [done|].
  etrans; [exact (E (fun val fault => if fault then refuse r else advance (set_da r (low32 val) (high32 val))))|].
  destruct (rdmsr msr (h_log s)); [exact (advance_run (enabled_vcpu x) g _ (scratched p sh ctx) [] eq_refl)|
    exact (refuse_run (enabled_vcpu x) g r (scratched p sh ctx) [] eq_refl Hi)].
Qed.
End Msrs.
