(* ===== verification/Vmcs.v ===== *)
(** * Vmcs: the fields of a VMCS and what the hypervisor puts in them

    Models of src/include/lib/x86_index.h what src/src/subsys/twanvisor/ uses
    to set up a guest: the encodings of the VMCS fields, the positions of the
    bits of the control words, and the numbers of model-specific registers. *)

From Stdlib Require Import ZArith Lia Bool.
From stdpp Require Import base gmap list numbers.
From S2P Require Import Prelude Vexit.
Local Open Scope Z_scope.

(** ** Encodings of the fields *)

Inductive vmcs_access_t : Type := full | high.
Inductive vmcs_type_t : Type := control | vm_exit | guest_state | host_state.
Inductive vmcs_width_t : Type := word | qword | dword | natural.

Definition access_val (a : vmcs_access_t) : Z := match a with full => 0 | high => 1 end.
Definition type_val (t : vmcs_type_t) : Z :=
  match t with control => 0 | vm_exit => 1 | guest_state => 2 | host_state => 3 end.
Definition width_val (w : vmcs_width_t) : Z :=
  match w with word => 0 | qword => 1 | dword => 2 | natural => 3 end.

Definition ENC_VMCS_COMPONENT (access : vmcs_access_t) (index : Z) (type : vmcs_type_t)
    (width : vmcs_width_t) : Z :=
  Z.lor (Z.lor (Z.lor (access_val access) (Z.shiftl index 1))
           (Z.shiftl (type_val type) 10)) (Z.shiftl (width_val width) 13).
Definition ENC_VMCS_COMPONENT_FULL := ENC_VMCS_COMPONENT full.
Definition ENC_VMCS_COMPONENT_FULL_16 (i : Z) t := ENC_VMCS_COMPONENT_FULL i t word.
Definition ENC_VMCS_COMPONENT_FULL_32 (i : Z) t := ENC_VMCS_COMPONENT_FULL i t dword.
Definition ENC_VMCS_COMPONENT_FULL_64 (i : Z) t := ENC_VMCS_COMPONENT_FULL i t qword.
Definition ENC_VMCS_COMPONENT_FULL_NAT (i : Z) t := ENC_VMCS_COMPONENT_FULL i t natural.

Definition VMCS_CTRL_VPID : Z := ENC_VMCS_COMPONENT_FULL_16 0 control.
Definition VMCS_GUEST_ES_SELECTOR : Z := ENC_VMCS_COMPONENT_FULL_16 0 guest_state.
Definition VMCS_GUEST_CS_SELECTOR : Z := ENC_VMCS_COMPONENT_FULL_16 1 guest_state.
Definition VMCS_GUEST_SS_SELECTOR : Z := ENC_VMCS_COMPONENT_FULL_16 2 guest_state.
Definition VMCS_GUEST_DS_SELECTOR : Z := ENC_VMCS_COMPONENT_FULL_16 3 guest_state.
Definition VMCS_GUEST_FS_SELECTOR : Z := ENC_VMCS_COMPONENT_FULL_16 4 guest_state.
Definition VMCS_GUEST_GS_SELECTOR : Z := ENC_VMCS_COMPONENT_FULL_16 5 guest_state.
Definition VMCS_GUEST_LDTR_SELECTOR : Z := ENC_VMCS_COMPONENT_FULL_16 6 guest_state.
Definition VMCS_GUEST_TR_SELECTOR : Z := ENC_VMCS_COMPONENT_FULL_16 7 guest_state.
Definition VMCS_HOST_ES_SELECTOR : Z := ENC_VMCS_COMPONENT_FULL_16 0 host_state.
Definition VMCS_HOST_CS_SELECTOR : Z := ENC_VMCS_COMPONENT_FULL_16 1 host_state.
Definition VMCS_HOST_SS_SELECTOR : Z := ENC_VMCS_COMPONENT_FULL_16 2 host_state.
Definition VMCS_HOST_DS_SELECTOR : Z := ENC_VMCS_COMPONENT_FULL_16 3 host_state.
Definition VMCS_HOST_FS_SELECTOR : Z := ENC_VMCS_COMPONENT_FULL_16 4 host_state.
Definition VMCS_HOST_GS_SELECTOR : Z := ENC_VMCS_COMPONENT_FULL_16 5 host_state.
Definition VMCS_HOST_TR_SELECTOR : Z := ENC_VMCS_COMPONENT_FULL_16 6 host_state.
Definition VMCS_CTRL_IO_BITMAP_A : Z := ENC_VMCS_COMPONENT_FULL_64 0 control.
Definition VMCS_CTRL_IO_BITMAP_B : Z := ENC_VMCS_COMPONENT_FULL_64 1 control.
Definition VMCS_CTRL_MSR_BITMAPS : Z := ENC_VMCS_COMPONENT_FULL_64 2 control.
Definition VMCS_CTRL_VMEXIT_MSR_STORE_ADDRESS : Z := ENC_VMCS_COMPONENT_FULL_64 3 control.
Definition VMCS_CTRL_VMEXIT_MSR_LOAD_ADDRESS : Z := ENC_VMCS_COMPONENT_FULL_64 4 control.
Definition VMCS_CTRL_VMENTRY_MSR_LOAD_ADDRESS : Z := ENC_VMCS_COMPONENT_FULL_64 5 control.
Definition VMCS_CTRL_EPTP : Z := ENC_VMCS_COMPONENT_FULL_64 13 control.
Definition VMCS_CTRL_VIRT_EXCEPTION_INFORMATION_ADDRESS : Z := ENC_VMCS_COMPONENT_FULL_64 21 control.
Definition VMCS_CTRL_SECONDARY_VMEXIT_CONTROLS : Z := ENC_VMCS_COMPONENT_FULL_64 34 control.
Definition VMCS_GUEST_VMCS_LINK_POINTER : Z := ENC_VMCS_COMPONENT_FULL_64 0 guest_state.
Definition VMCS_GUEST_IA32_DEBUGCTL : Z := ENC_VMCS_COMPONENT_FULL_64 1 guest_state.
Definition VMCS_GUEST_IA32_PAT : Z := ENC_VMCS_COMPONENT_FULL_64 2 guest_state.
Definition VMCS_GUEST_IA32_EFER : Z := ENC_VMCS_COMPONENT_FULL_64 3 guest_state.
Definition VMCS_HOST_IA32_PAT : Z := ENC_VMCS_COMPONENT_FULL_64 0 host_state.
Definition VMCS_HOST_IA32_EFER : Z := ENC_VMCS_COMPONENT_FULL_64 1 host_state.
Definition VMCS_CTRL_PINBASED_CONTROLS : Z := ENC_VMCS_COMPONENT_FULL_32 0 control.
Definition VMCS_CTRL_PROCBASED_CTLS : Z := ENC_VMCS_COMPONENT_FULL_32 1 control.
Definition VMCS_CTRL_EXCEPTION_BITMAP : Z := ENC_VMCS_COMPONENT_FULL_32 2 control.
Definition VMCS_CTRL_PRIMARY_VMEXIT_CONTROLS : Z := ENC_VMCS_COMPONENT_FULL_32 6 control.
Definition VMCS_CTRL_VMEXIT_MSR_STORE_COUNT : Z := ENC_VMCS_COMPONENT_FULL_32 7 control.
Definition VMCS_CTRL_VMEXIT_MSR_LOAD_COUNT : Z := ENC_VMCS_COMPONENT_FULL_32 8 control.
Definition VMCS_CTRL_VMENTRY_CONTROLS : Z := ENC_VMCS_COMPONENT_FULL_32 9 control.
Definition VMCS_CTRL_VMENTRY_MSR_LOAD_COUNT : Z := ENC_VMCS_COMPONENT_FULL_32 10 control.
Definition VMCS_CTRL_PROCBASED_CTLS2 : Z := ENC_VMCS_COMPONENT_FULL_32 15 control.
Definition VMCS_GUEST_ES_LIMIT : Z := ENC_VMCS_COMPONENT_FULL_32 0 guest_state.
Definition VMCS_GUEST_CS_LIMIT : Z := ENC_VMCS_COMPONENT_FULL_32 1 guest_state.
Definition VMCS_GUEST_SS_LIMIT : Z := ENC_VMCS_COMPONENT_FULL_32 2 guest_state.
Definition VMCS_GUEST_DS_LIMIT : Z := ENC_VMCS_COMPONENT_FULL_32 3 guest_state.
Definition VMCS_GUEST_FS_LIMIT : Z := ENC_VMCS_COMPONENT_FULL_32 4 guest_state.
Definition VMCS_GUEST_GS_LIMIT : Z := ENC_VMCS_COMPONENT_FULL_32 5 guest_state.
Definition VMCS_GUEST_LDTR_LIMIT : Z := ENC_VMCS_COMPONENT_FULL_32 6 guest_state.
Definition VMCS_GUEST_TR_LIMIT : Z := ENC_VMCS_COMPONENT_FULL_32 7 guest_state.
Definition VMCS_GUEST_GDTR_LIMIT : Z := ENC_VMCS_COMPONENT_FULL_32 8 guest_state.
Definition VMCS_GUEST_IDTR_LIMIT : Z := ENC_VMCS_COMPONENT_FULL_32 9 guest_state.
Definition VMCS_GUEST_ES_ACCESS_RIGHTS : Z := ENC_VMCS_COMPONENT_FULL_32 10 guest_state.
Definition VMCS_GUEST_CS_ACCESS_RIGHTS : Z := ENC_VMCS_COMPONENT_FULL_32 11 guest_state.
Definition VMCS_GUEST_SS_ACCESS_RIGHTS : Z := ENC_VMCS_COMPONENT_FULL_32 12 guest_state.
Definition VMCS_GUEST_DS_ACCESS_RIGHTS : Z := ENC_VMCS_COMPONENT_FULL_32 13 guest_state.
Definition VMCS_GUEST_FS_ACCESS_RIGHTS : Z := ENC_VMCS_COMPONENT_FULL_32 14 guest_state.
Definition VMCS_GUEST_GS_ACCESS_RIGHTS : Z := ENC_VMCS_COMPONENT_FULL_32 15 guest_state.
Definition VMCS_GUEST_LDTR_ACCESS_RIGHTS : Z := ENC_VMCS_COMPONENT_FULL_32 16 guest_state.
Definition VMCS_GUEST_TR_ACCESS_RIGHTS : Z := ENC_VMCS_COMPONENT_FULL_32 17 guest_state.
Definition VMCS_GUEST_ACTIVITY_STATE : Z := ENC_VMCS_COMPONENT_FULL_32 19 guest_state.
Definition VMCS_CTRL_CR0_GUEST_HOST_MASK : Z := ENC_VMCS_COMPONENT_FULL_NAT 0 control.
Definition VMCS_CTRL_CR4_GUEST_HOST_MASK : Z := ENC_VMCS_COMPONENT_FULL_NAT 1 control.
Definition VMCS_CTRL_CR0_READ_SHADOW : Z := ENC_VMCS_COMPONENT_FULL_NAT 2 control.
Definition VMCS_CTRL_CR4_READ_SHADOW : Z := ENC_VMCS_COMPONENT_FULL_NAT 3 control.
Definition VMCS_GUEST_CR0 : Z := ENC_VMCS_COMPONENT_FULL_NAT 0 guest_state.
Definition VMCS_GUEST_CR3 : Z := ENC_VMCS_COMPONENT_FULL_NAT 1 guest_state.
Definition VMCS_GUEST_CR4 : Z := ENC_VMCS_COMPONENT_FULL_NAT 2 guest_state.
Definition VMCS_GUEST_CS_BASE : Z := ENC_VMCS_COMPONENT_FULL_NAT 4 guest_state.
Definition VMCS_GUEST_FS_BASE : Z := ENC_VMCS_COMPONENT_FULL_NAT 7 guest_state.
Definition VMCS_GUEST_GS_BASE : Z := ENC_VMCS_COMPONENT_FULL_NAT 8 guest_state.
Definition VMCS_GUEST_LDTR_BASE : Z := ENC_VMCS_COMPONENT_FULL_NAT 9 guest_state.
Definition VMCS_GUEST_TR_BASE : Z := ENC_VMCS_COMPONENT_FULL_NAT 10 guest_state.
Definition VMCS_GUEST_GDTR_BASE : Z := ENC_VMCS_COMPONENT_FULL_NAT 11 guest_state.
Definition VMCS_GUEST_IDTR_BASE : Z := ENC_VMCS_COMPONENT_FULL_NAT 12 guest_state.
Definition VMCS_GUEST_DR7 : Z := ENC_VMCS_COMPONENT_FULL_NAT 13 guest_state.
Definition VMCS_GUEST_RSP : Z := ENC_VMCS_COMPONENT_FULL_NAT 14 guest_state.
Definition VMCS_GUEST_RIP : Z := ENC_VMCS_COMPONENT_FULL_NAT 15 guest_state.
Definition VMCS_GUEST_RFLAGS : Z := ENC_VMCS_COMPONENT_FULL_NAT 16 guest_state.
Definition VMCS_HOST_CR0 : Z := ENC_VMCS_COMPONENT_FULL_NAT 0 host_state.
Definition VMCS_HOST_CR3 : Z := ENC_VMCS_COMPONENT_FULL_NAT 1 host_state.
Definition VMCS_HOST_CR4 : Z := ENC_VMCS_COMPONENT_FULL_NAT 2 host_state.
Definition VMCS_HOST_FS_BASE : Z := ENC_VMCS_COMPONENT_FULL_NAT 3 host_state.
Definition VMCS_HOST_GS_BASE : Z := ENC_VMCS_COMPONENT_FULL_NAT 4 host_state.
Definition VMCS_HOST_TR_BASE : Z := ENC_VMCS_COMPONENT_FULL_NAT 5 host_state.
Definition VMCS_HOST_GDTR_BASE : Z := ENC_VMCS_COMPONENT_FULL_NAT 6 host_state.
Definition VMCS_HOST_IDTR_BASE : Z := ENC_VMCS_COMPONENT_FULL_NAT 7 host_state.
Definition VMCS_HOST_RSP : Z := ENC_VMCS_COMPONENT_FULL_NAT 10 host_state.
Definition VMCS_HOST_RIP : Z := ENC_VMCS_COMPONENT_FULL_NAT 11 host_state.

(** All of them. *)
Definition vmcs_fields : list Z :=
  [ VMCS_CTRL_VPID; VMCS_GUEST_ES_SELECTOR;
    VMCS_GUEST_CS_SELECTOR; VMCS_GUEST_SS_SELECTOR;
    VMCS_GUEST_DS_SELECTOR; VMCS_GUEST_FS_SELECTOR;
    VMCS_GUEST_GS_SELECTOR; VMCS_GUEST_LDTR_SELECTOR;
    VMCS_GUEST_TR_SELECTOR; VMCS_HOST_ES_SELECTOR;
    VMCS_HOST_CS_SELECTOR; VMCS_HOST_SS_SELECTOR;
    VMCS_HOST_DS_SELECTOR; VMCS_HOST_FS_SELECTOR;
    VMCS_HOST_GS_SELECTOR; VMCS_HOST_TR_SELECTOR;
    VMCS_CTRL_IO_BITMAP_A; VMCS_CTRL_IO_BITMAP_B;
    VMCS_CTRL_MSR_BITMAPS; VMCS_CTRL_VMEXIT_MSR_STORE_ADDRESS;
    VMCS_CTRL_VMEXIT_MSR_LOAD_ADDRESS; VMCS_CTRL_VMENTRY_MSR_LOAD_ADDRESS;
    VMCS_CTRL_EPTP; VMCS_CTRL_VIRT_EXCEPTION_INFORMATION_ADDRESS;
    VMCS_CTRL_SECONDARY_VMEXIT_CONTROLS; VMCS_GUEST_VMCS_LINK_POINTER;
    VMCS_GUEST_IA32_DEBUGCTL; VMCS_GUEST_IA32_PAT;
    VMCS_GUEST_IA32_EFER; VMCS_HOST_IA32_PAT;
    VMCS_HOST_IA32_EFER; VMCS_CTRL_PINBASED_CONTROLS;
    VMCS_CTRL_PROCBASED_CTLS; VMCS_CTRL_EXCEPTION_BITMAP;
    VMCS_CTRL_PRIMARY_VMEXIT_CONTROLS; VMCS_CTRL_VMEXIT_MSR_STORE_COUNT;
    VMCS_CTRL_VMEXIT_MSR_LOAD_COUNT; VMCS_CTRL_VMENTRY_CONTROLS;
    VMCS_CTRL_VMENTRY_MSR_LOAD_COUNT; VMCS_CTRL_PROCBASED_CTLS2;
    VMCS_GUEST_ES_LIMIT; VMCS_GUEST_CS_LIMIT;
    VMCS_GUEST_SS_LIMIT; VMCS_GUEST_DS_LIMIT;
    VMCS_GUEST_FS_LIMIT; VMCS_GUEST_GS_LIMIT;
    VMCS_GUEST_LDTR_LIMIT; VMCS_GUEST_TR_LIMIT;
    VMCS_GUEST_GDTR_LIMIT; VMCS_GUEST_IDTR_LIMIT;
    VMCS_GUEST_ES_ACCESS_RIGHTS; VMCS_GUEST_CS_ACCESS_RIGHTS;
    VMCS_GUEST_SS_ACCESS_RIGHTS; VMCS_GUEST_DS_ACCESS_RIGHTS;
    VMCS_GUEST_FS_ACCESS_RIGHTS; VMCS_GUEST_GS_ACCESS_RIGHTS;
    VMCS_GUEST_LDTR_ACCESS_RIGHTS; VMCS_GUEST_TR_ACCESS_RIGHTS;
    VMCS_GUEST_ACTIVITY_STATE; VMCS_CTRL_CR0_GUEST_HOST_MASK;
    VMCS_CTRL_CR4_GUEST_HOST_MASK; VMCS_CTRL_CR0_READ_SHADOW;
    VMCS_CTRL_CR4_READ_SHADOW; VMCS_GUEST_CR0;
    VMCS_GUEST_CR3; VMCS_GUEST_CR4;
    VMCS_GUEST_CS_BASE; VMCS_GUEST_FS_BASE;
    VMCS_GUEST_GS_BASE; VMCS_GUEST_LDTR_BASE;
    VMCS_GUEST_TR_BASE; VMCS_GUEST_GDTR_BASE;
    VMCS_GUEST_IDTR_BASE; VMCS_GUEST_DR7;
    VMCS_GUEST_RSP; VMCS_GUEST_RIP;
    VMCS_GUEST_RFLAGS; VMCS_HOST_CR0;
    VMCS_HOST_CR3; VMCS_HOST_CR4;
    VMCS_HOST_FS_BASE; VMCS_HOST_GS_BASE;
    VMCS_HOST_TR_BASE; VMCS_HOST_GDTR_BASE;
    VMCS_HOST_IDTR_BASE; VMCS_HOST_RSP;
    VMCS_HOST_RIP ].

(** ** Model-specific registers *)

Definition IA32_XSS : Z := 0xda0.
Definition IA32_USER_MSR_CTL : Z := 0x1c.
Definition IA32_BARRIER : Z := 0x2f.
Definition IA32_UINTR_RR : Z := 0x985.
Definition IA32_UINTR_HANDLER : Z := 0x986.
Definition IA32_UINTR_STACKADJUST : Z := 0x987.
Definition IA32_UINTR_MISC : Z := 0x988.
Definition IA32_UINTR_PD : Z := 0x989.
Definition IA32_UINTR_TT : Z := 0x98a.
Definition IA32_UINTR_TIMER : Z := 0x1b00.
Definition IA32_FRED_CONFIG : Z := 0x1d4.
Definition IA32_FRED_RSP0 : Z := 0x1cc.
Definition IA32_FRED_RSP1 : Z := 0x1cd.
Definition IA32_FRED_RSP2 : Z := 0x1ce.
Definition IA32_FRED_RSP3 : Z := 0x1cf.
Definition IA32_FRED_STKLVLS : Z := 0x1d0.
Definition IA32_FRED_SSP1 : Z := 0x1d1.
Definition IA32_FRED_SSP2 : Z := 0x1d2.
Definition IA32_FRED_SSP3 : Z := 0x1d3.
Definition IA32_UMWAIT_CONTROL : Z := 0xe1.
Definition IA32_XAPIC_DISABLE_STATUS : Z := 0xbd.
Definition IA32_TSC_AUX : Z := 0xC0000103.
Definition IA32_SR_BIOS_DONE : Z := 0x151.
Definition IA32_BNDCFGS : Z := 0xd90.
Definition IA32_X2APIC_ID : Z := 0x802.
Definition IA32_X2APIC_VERSION : Z := 0x803.
Definition IA32_X2APIC_TPR : Z := 0x808.
Definition IA32_X2APIC_PPR : Z := 0x80a.
Definition IA32_X2APIC_EOI : Z := 0x80b.
Definition IA32_X2APIC_LDR : Z := 0x80d.
Definition IA32_X2APIC_SIVR : Z := 0x80f.
Definition IA32_X2APIC_ISR0 : Z := 0x810.
Definition IA32_X2APIC_ISR1 : Z := 0x811.
Definition IA32_X2APIC_ISR2 : Z := 0x812.
Definition IA32_X2APIC_ISR3 : Z := 0x813.
Definition IA32_X2APIC_ISR4 : Z := 0x814.
Definition IA32_X2APIC_ISR5 : Z := 0x815.
Definition IA32_X2APIC_ISR6 : Z := 0x816.
Definition IA32_X2APIC_ISR7 : Z := 0x817.
Definition IA32_X2APIC_TMR0 : Z := 0x818.
Definition IA32_X2APIC_TMR1 : Z := 0x819.
Definition IA32_X2APIC_TMR2 : Z := 0x81a.
Definition IA32_X2APIC_TMR3 : Z := 0x81b.
Definition IA32_X2APIC_TMR4 : Z := 0x81c.
Definition IA32_X2APIC_TMR5 : Z := 0x81d.
Definition IA32_X2APIC_TMR6 : Z := 0x81e.
Definition IA32_X2APIC_TMR7 : Z := 0x81f.
Definition IA32_X2APIC_IRR0 : Z := 0x820.
Definition IA32_X2APIC_IRR1 : Z := 0x821.
Definition IA32_X2APIC_IRR2 : Z := 0x822.
Definition IA32_X2APIC_IRR3 : Z := 0x823.
Definition IA32_X2APIC_IRR4 : Z := 0x824.
Definition IA32_X2APIC_IRR5 : Z := 0x825.
Definition IA32_X2APIC_IRR6 : Z := 0x826.
Definition IA32_X2APIC_IRR7 : Z := 0x827.
Definition IA32_X2APIC_ESR : Z := 0x828.
Definition IA32_X2APIC_LVT_CMCI : Z := 0x82f.
Definition IA32_X2APIC_ICR : Z := 0x830.
Definition IA32_X2APIC_LVT_TIMER : Z := 0x832.
Definition IA32_X2APIC_LVT_THERMAL : Z := 0x833.
Definition IA32_X2APIC_LVT_PMI : Z := 0x834.
Definition IA32_X2APIC_LVT_LINT0 : Z := 0x835.
Definition IA32_X2APIC_LVT_LINT1 : Z := 0x836.
Definition IA32_X2APIC_LVT_ERROR : Z := 0x837.
Definition IA32_X2APIC_LVT_INIT_COUNT : Z := 0x838.
Definition IA32_X2APIC_LVT_CUR_COUNT : Z := 0x839.
Definition IA32_X2APIC_DIV_CONF : Z := 2110.
Definition IA32_X2APIC_SELF_IPI : Z := 2111.
Definition IA32_MONITOR_FILTER_SIZE : Z := 0x06.
Definition IA32_VMX_BASIC : Z := 0x480.
Definition IA32_VMX_PINBASED_CTLS : Z := 0x481.
Definition IA32_VMX_PROCBASED_CTLS : Z := 0x482.
Definition IA32_VMX_EXIT_CTLS : Z := 0x483.
Definition IA32_VMX_ENTRY_CTLS : Z := 0x484.
Definition IA32_VMX_MISC : Z := 0x485.
Definition IA32_VMX_CR0_FIXED0 : Z := 0x486.
Definition IA32_VMX_CR0_FIXED1 : Z := 0x487.
Definition IA32_VMX_CR4_FIXED0 : Z := 0x488.
Definition IA32_VMX_CR4_FIXED1 : Z := 0x489.
Definition IA32_VMX_VMCS_ENUM : Z := 0x48A.
Definition IA32_VMX_PROCBASED_CTLS2 : Z := 0x48B.
Definition IA32_VMX_EPT_VPID_CAP : Z := 0x48C.
Definition IA32_VMX_TRUE_PINBASED_CTLS : Z := 0x48D.
Definition IA32_VMX_TRUE_PROCBASED_CTLS : Z := 0x48E.
Definition IA32_VMX_TRUE_EXIT_CTLS : Z := 0x48F.
Definition IA32_VMX_TRUE_ENTRY_CTLS : Z := 0x490.
Definition IA32_VMX_VMFUNC : Z := 0x491.
Definition IA32_VMX_PROCBASED_CTLS3 : Z := 0x492.
Definition IA32_VMX_EXIT_CTLS2 : Z := 0x493.
Definition IA32_APIC_BASE : Z := 0x1b.
Definition IA32_SPEC_CTRL : Z := 0x48.
Definition IA32_MCG_CAP : Z := 0x179.
Definition IA32_UARCH_MISC_CTRL : Z := 0x1b01.
Definition IA32_PBOPT_CTRL : Z := 0xbf.
Definition IA32_MCU_OPT_CTRL : Z := 0x123.
Definition IA32_PAT : Z := 0x277.
Definition IA32_EFER : Z := 0xC0000080.
Definition IA32_DEBUG_CTL : Z := 0x1D9.
Definition IA32_FS_BASE : Z := 0xC0000100.
Definition IA32_GS_BASE : Z := 0xC0000101.

(** ** Bits of the control words *)

Definition exc_debug : Z := 1.
Definition exc_alignment_check : Z := 17.

Definition pin_external_interrupt_exiting : Z := 0.
Definition pin_nmi_exiting : Z := 3.
Definition pin_virtual_nmis : Z := 5.
Definition pin_activate_vmx_preemption_timer : Z := 6.

Definition proc_interrupt_window_exiting : Z := 2.
Definition proc_mwait_exiting : Z := 10.
Definition proc_cr8_load_exiting : Z := 19.
Definition proc_cr8_store_exiting : Z := 20.
Definition proc_nmi_window_exiting : Z := 22.
Definition proc_use_io_bitmaps : Z := 25.
Definition proc_use_msr_bitmaps : Z := 28.
Definition proc_monitor_exiting : Z := 29.
Definition proc_activate_secondary_controls : Z := 31.

Definition proc2_enable_ept : Z := 1.
Definition proc2_enable_vpid : Z := 5.
Definition proc2_wbinvd_exiting : Z := 6.
Definition proc2_unrestricted_guest : Z := 7.
Definition proc2_enable_invpcid : Z := 12.
Definition proc2_ept_violation_ve : Z := 18.
Definition proc2_conceal_vmx_from_pt : Z := 19.
Definition proc2_intel_pt_use_guest_phys_addr : Z := 24.

Definition exit_save_debug_controls : Z := 2.
Definition exit_host_address_space_size : Z := 9.
Definition exit_load_ia32_perf_global_ctrl : Z := 12.
Definition exit_acknowledge_interrupt_on_exit : Z := 15.
Definition exit_save_ia32_pat : Z := 18.
Definition exit_load_ia32_pat : Z := 19.
Definition exit_save_ia32_efer : Z := 20.
Definition exit_load_ia32_efer : Z := 21.
Definition exit_save_vmx_preemption_timer : Z := 22.
Definition exit_conceal_vmx_from_pt : Z := 24.
Definition exit_load_cet_state : Z := 28.
Definition exit_load_pkrs : Z := 29.
Definition exit_save_ia32_perf_global_ctl : Z := 30.
Definition exit_activate_secondary_controls : Z := 31.

Definition exit2_save_fred : Z := 0.
Definition exit2_load_fred : Z := 1.

Definition entry_load_debug_controls : Z := 2.
Definition entry_ia32e_mode_guest : Z := 9.
Definition entry_load_ia32_perf_global_ctrl : Z := 13.
Definition entry_load_ia32_pat : Z := 14.
Definition entry_load_ia32_efer : Z := 15.
Definition entry_load_ia32_bndcfgs : Z := 16.
Definition entry_conceal_vmx_from_pt : Z := 17.
Definition entry_load_ia32_rtit_ctl : Z := 18.
Definition entry_load_uinv : Z := 19.
Definition entry_load_cet_state : Z := 20.
Definition entry_load_ia32_lbr_ctl : Z := 21.
Definition entry_load_pkrs : Z := 22.
Definition entry_load_fred : Z := 23.

Definition cr0_et : Z := 4.
Definition cr0_ne : Z := 5.
Definition cr0_nw : Z := 29.
Definition cr0_cd : Z := 30.

Definition cr4_mce : Z := 6.
Definition cr4_umip : Z := 11.
Definition cr4_la57 : Z := 12.
Definition cr4_vmxe : Z := 13.
Definition cr4_smxe : Z := 14.
Definition cr4_fsgsbase : Z := 16.
Definition cr4_pcide : Z := 17.
Definition cr4_osxsave : Z := 18.
Definition cr4_kl : Z := 19.
Definition cr4_smep : Z := 20.
Definition cr4_smap : Z := 21.
Definition cr4_pke : Z := 22.
Definition cr4_cet : Z := 23.
Definition cr4_pks : Z := 24.
Definition cr4_uintr : Z := 25.
Definition cr4_lass : Z := 27.
Definition cr4_lam : Z := 28.
Definition cr4_fred : Z := 32.

Definition ar_descriptor_type : Z := 4.
Definition ar_p : Z := 7.
Definition ar_g : Z := 15.
Definition ar_segment_unusable : Z := 16.

Definition rflags_reserved0 : Z := 1.
Definition rflags_if : Z := 9.
(** ** Control words *)

(** The word whose bits are those listed. *)
Definition word_of (bits : list Z) : Z := foldr (fun b w => Z.lor (Z.shiftl 1 b) w) 0 bits.
(** A bit-field that is [c]. *)
Definition only (c : bool) (bit : Z) : list Z := if c then [bit] else [].

Lemma word_of_bit bits i :
  Forall (fun b => 0 <= b) bits → Z.testbit (word_of bits) i = bool_decide (i ∈ bits).
Proof.
  induction 1 as [|b bits Hb _ IH]; simpl.
  - by rewrite Z.bits_0.
  - rewrite Z.lor_spec, shiftl_1, testbit_pow2, IH by done.
    destruct (bool_decide_reflect (b = i)) as [->|Hne]; simpl.
    + symmetry. apply bool_decide_eq_true. by left.
    + apply bool_decide_ext. rewrite elem_of_cons. naive_solver.
Qed.

Definition access_rights_t (segment_type : Z) (bits : list Z) : Z := Z.lor segment_type (word_of bits).

(** What the processor makes of a requested control word: the low half of the
    capability register has the bits that must be 1, the high half those that
    may be. *)
Definition adjusted (cap val : Z) : Z :=
  Z.land (Z.lor val (Z.land cap 0xffffffff)) (Z.shiftr cap 32).

Definition forced (cap bit : Z) : bool := Z.testbit cap bit.
Definition allowed (cap bit : Z) : bool := Z.testbit cap (32 + bit).

Lemma adjusted_bit cap val i :
  0 <= i < 32 →
  Z.testbit (adjusted cap val) i = (Z.testbit val i || forced cap i) && allowed cap i.
Proof.
  intros Hi. unfold adjusted, forced, allowed.
  rewrite Z.land_spec, Z.lor_spec, Z.land_spec, Z.shiftr_spec by lia.
  change 0xffffffff with (Z.ones 32). rewrite Z.ones_spec_low, andb_true_r by lia.
  by rewrite (Z.add_comm 32).
Qed.

(** ** Writes of fields *)

Definition write_all (m : gmap Z Z) (l : list (Z * Z)) : gmap Z Z :=
  fold_left (fun m p => <[fst p := snd p]> m) l m.
(** The last value a list of writes gives to a field. *)
Definition last_write (l : list (Z * Z)) (f : Z) : option Z :=
  fold_left (fun r p => if fst p =? f then Some (snd p) else r) l None.

Lemma last_write_from l f r :
  fold_left (fun r (p : Z * Z) => if fst p =? f then Some (snd p) else r) l r =
  match last_write l f with Some v => Some v | None => r end.
Proof.
  unfold last_write. revert r. induction l as [|[f' v] l IH]; intros r; simpl; [done|].
  rewrite IH, (IH (if f' =? f then Some v else None)).
  destruct (fold_left _ l None); [done|]. by destruct (f' =? f).
Qed.

Lemma last_write_app l1 l2 f :
  last_write (l1 ++ l2) f =
  match last_write l2 f with Some v => Some v | None => last_write l1 f end.
Proof. unfold last_write. by rewrite fold_left_app, last_write_from. Qed.

Lemma write_all_lookup m l f :
  write_all m l !! f = match last_write l f with Some v => Some v | None => m !! f end.
Proof.
  revert m. induction l as [|[f' v] l IH]; intros m; simpl; [done|].
  rewrite IH. change (?p :: l) with ([p] ++ l). rewrite (last_write_app [(f', v)]).
  destruct (last_write l f); [done|]. unfold last_write. simpl.
  destruct (Z.eqb_spec f' f) as [->|Hne]; [by rewrite lookup_insert_eq|].
  by rewrite lookup_insert_ne.
Qed.

(** No two fields have the same encoding. *)
Lemma vmcs_fields_distinct : NoDup vmcs_fields.
Proof. apply (bool_decide_unpack _). vm_compute. exact I. Qed.
