(* ===== verification/Vboot.v ===== *)
(** * Vboot: the first entry of a virtual CPU

    Models what a new vcpu does before its guest runs: [vcpu_entry] of
    src/src/subsys/twanvisor/vportal/vcreate.c, which fills in the VMCS, and
    [vsetup_traps] of src/src/subsys/twanvisor/vemulate/vtrap.c, which decides
    the accesses to model-specific registers that leave the guest.

    The state [boot] is that of the hypervisor with the fields of each VMCS,
    the bitmaps and the revision id of each vcpu.  The fields that the rest of
    the hypervisor reads are also in [h_vmcs]; a write changes both.  The
    code's statements [__vmwrite(field, value)] are the entries of a list, in
    their order.  What the processor answers (its capability and control
    registers) and the addresses of the program are parameters. *)

From S2P Require Import Prelude Std Bmp Dq DeltaChain SchedDsa Twan VschedDsa Vpartition Vutils.
From S2P Require Import Vrecovery Vsched Vemu Vcreate Vcalls Vtimers Venter Visr Vinfo Vexit Vconfine Vmcs.
From coqutil Require Import Datatypes.RecordSetters.
From Stdlib Require Import ZArith Lia Bool.
From stdpp Require Import base gmap list numbers sets.

Local Open Scope Z_scope.

(** The rest of what is detected of a processor: features, trap cache, security
    flags, support and the numbers of the capability registers. *)
Record vboot_flags := VbootFlags {
  f_mce : bool; f_smx : bool; f_xsave : bool; f_uintr : bool; f_fred : bool;
  t_user_msr : bool; t_uintr_timer : bool; t_waitpkg : bool;
  t_xapic_disable_status : bool; t_tsc_aux : bool; t_mpx : bool;
  sr_bios_done : bool;
  procbased_ctls2 : bool; exit_ctls2 : bool; x2apic : bool;
  revision_id : Z;
  ia32_vmx_pinbased_ctls : Z; ia32_vmx_procbased_ctls : Z;
  ia32_vmx_exit_ctls : Z; ia32_vmx_entry_ctls : Z;
}.

(** ** vtrap.c *)

Fixpoint vtrap_msrs (l : list Z) (b : vcpu_bitmaps) : res vcpu_bitmaps :=
  match l with
  | [] => Ok b
  | msr :: l => let* b := vtrap_msr b msr in vtrap_msrs l b
  end.

Definition IA32_X2APIC_ALL : list Z :=
  [ IA32_X2APIC_ID; IA32_X2APIC_VERSION; IA32_X2APIC_TPR; IA32_X2APIC_PPR; IA32_X2APIC_EOI;
    IA32_X2APIC_LDR; IA32_X2APIC_SIVR;
    IA32_X2APIC_ISR0; IA32_X2APIC_ISR1; IA32_X2APIC_ISR2; IA32_X2APIC_ISR3;
    IA32_X2APIC_ISR4; IA32_X2APIC_ISR5; IA32_X2APIC_ISR6; IA32_X2APIC_ISR7;
    IA32_X2APIC_TMR0; IA32_X2APIC_TMR1; IA32_X2APIC_TMR2; IA32_X2APIC_TMR3;
    IA32_X2APIC_TMR4; IA32_X2APIC_TMR5; IA32_X2APIC_TMR6; IA32_X2APIC_TMR7;
    IA32_X2APIC_IRR0; IA32_X2APIC_IRR1; IA32_X2APIC_IRR2; IA32_X2APIC_IRR3;
    IA32_X2APIC_IRR4; IA32_X2APIC_IRR5; IA32_X2APIC_IRR6; IA32_X2APIC_IRR7;
    IA32_X2APIC_ESR; IA32_X2APIC_LVT_CMCI; IA32_X2APIC_ICR;
    IA32_X2APIC_LVT_TIMER; IA32_X2APIC_LVT_THERMAL; IA32_X2APIC_LVT_PMI; IA32_X2APIC_LVT_LINT0;
    IA32_X2APIC_LVT_LINT1; IA32_X2APIC_LVT_ERROR; IA32_X2APIC_LVT_INIT_COUNT;
    IA32_X2APIC_LVT_CUR_COUNT; IA32_X2APIC_DIV_CONF; IA32_X2APIC_SELF_IPI ].
Definition IA32_VMX_ALL : list Z :=
  [ IA32_VMX_BASIC; IA32_VMX_PINBASED_CTLS; IA32_VMX_PROCBASED_CTLS; IA32_VMX_EXIT_CTLS;
    IA32_VMX_ENTRY_CTLS; IA32_VMX_MISC; IA32_VMX_CR0_FIXED0; IA32_VMX_CR0_FIXED1;
    IA32_VMX_CR4_FIXED0; IA32_VMX_CR4_FIXED1; IA32_VMX_VMCS_ENUM; IA32_VMX_PROCBASED_CTLS2;
    IA32_VMX_EPT_VPID_CAP; IA32_VMX_TRUE_PINBASED_CTLS; IA32_VMX_TRUE_PROCBASED_CTLS;
    IA32_VMX_TRUE_EXIT_CTLS; IA32_VMX_TRUE_ENTRY_CTLS; IA32_VMX_VMFUNC;
    IA32_VMX_PROCBASED_CTLS3; IA32_VMX_EXIT_CTLS2 ].

(** The registers that are trapped for a processor, after IA32_FEATURE_CONTROL
    and the reads of IA32_ARCH_CAPABILITIES, in the order of the code. *)
Definition trap_list (d : vboot_flags) : list Z :=
  (if f_xsave d then [IA32_XSS] else []) ++
  (if t_user_msr d then [IA32_USER_MSR_CTL; IA32_BARRIER] else []) ++
  (if f_uintr d then [IA32_UINTR_RR; IA32_UINTR_HANDLER; IA32_UINTR_STACKADJUST;
                      IA32_UINTR_MISC; IA32_UINTR_PD; IA32_UINTR_TT] else []) ++
  (if t_uintr_timer d then [IA32_UINTR_TIMER] else []) ++
  (if f_fred d then [IA32_FRED_CONFIG; IA32_FRED_RSP0; IA32_FRED_RSP1; IA32_FRED_RSP2;
                     IA32_FRED_RSP3; IA32_FRED_STKLVLS; IA32_FRED_SSP1; IA32_FRED_SSP2;
                     IA32_FRED_SSP3] else []) ++
  (if t_waitpkg d then [IA32_UMWAIT_CONTROL] else []) ++
  (if t_xapic_disable_status d then [IA32_XAPIC_DISABLE_STATUS] else []) ++
  (if t_tsc_aux d then [IA32_TSC_AUX] else []) ++
  (if sr_bios_done d then [IA32_SR_BIOS_DONE] else []) ++
  (if t_mpx d then [IA32_BNDCFGS] else []) ++
  (if x2apic d then IA32_X2APIC_ALL else []) ++
  [IA32_MONITOR_FILTER_SIZE] ++ IA32_VMX_ALL ++ [IA32_APIC_BASE].

Definition vsetup_traps (arch_capabilities_r : bool) (d : vboot_flags) (b : vcpu_bitmaps)
    : res vcpu_bitmaps :=
  let* b := vtrap_msr b IA32_FEATURE_CONTROL in
  let* b := if arch_capabilities_r then vtrap_msr_read b IA32_ARCH_CAPABILITIES else Ok b in
  vtrap_msrs (trap_list d) b.

(** ** The state *)

Record boot := Boot {
  b_hv : hv;
  b_vmcs : gmap vptr (gmap Z Z);        (* the fields of each VMCS *)
  b_bitmaps : gmap vptr vcpu_bitmaps;
  b_revision : gmap vptr Z;             (* arch.vmcs.header.fields.revision_id *)
}.

Definition in_hv {A} (m : M hv A) : M boot A := fun s =>
  match m (b_hv s) with
  | Ok (a, h) => Ok (a, Boot h (b_vmcs s) (b_bitmaps s) (b_revision s))
  | Fault f => Fault f
  end.

Definition wrote (v : vptr) (F : gmap Z Z) (h : hv) (s : boot) : boot :=
  Boot h (<[v := F]> (b_vmcs s)) (b_bitmaps s) (b_revision s).
Definition with_bitmaps (v : vptr) (b : vcpu_bitmaps) (s : boot) : boot :=
  Boot (b_hv s) (b_vmcs s) (<[v := b]> (b_bitmaps s)) (b_revision s).
Definition with_revision (v : vptr) (r : Z) (s : boot) : boot :=
  Boot (b_hv s) (b_vmcs s) (b_bitmaps s) (<[v := r]> (b_revision s)).

(** A field that the rest of the hypervisor reads. *)
Definition guest_sync (g : vmcs_guest) (w : Z * Z) : vmcs_guest :=
  let '(f, val) := w in
  if f =? VMCS_GUEST_CR0 then g <| g_cr0 := val |>
  else if f =? VMCS_GUEST_CR4 then g <| g_cr4 := val |>
  else if f =? VMCS_GUEST_CS_ACCESS_RIGHTS then g <| g_cs_access_rights := val |>
  else if f =? VMCS_GUEST_IA32_EFER then g <| g_efer := val |>
  else if f =? VMCS_GUEST_RFLAGS then g <| g_rflags := val |>
  else if f =? VMCS_GUEST_RIP then g <| g_rip := val |>
  else if f =? VMCS_GUEST_RSP then g <| g_rsp := val |>
  else if f =? VMCS_CTRL_PINBASED_CONTROLS
  then g <| c_activate_vmx_preemption_timer := Z.testbit val pin_activate_vmx_preemption_timer |>
  else if f =? VMCS_CTRL_PRIMARY_VMEXIT_CONTROLS
  then g <| c_save_vmx_preemption_timer := Z.testbit val exit_save_vmx_preemption_timer |>
  else if f =? VMCS_CTRL_PROCBASED_CTLS
  then g <| c_nmi_window_exiting := Z.testbit val proc_nmi_window_exiting |>
         <| c_interrupt_window_exiting := Z.testbit val proc_interrupt_window_exiting |>
  else g.

Definition __vmwrite (f val : Z) : M boot unit := fun s =>
  match vmcs_loaded (b_hv s) with
  | Fault e => Fault e
  | Ok (v, _) =>
      match vmwrite (fun g => guest_sync g (f, val)) (b_hv s) with
      | Fault e => Fault e
      | Ok (_, h) => Ok (tt, wrote v (<[f := val]> (default ∅ (b_vmcs s !! v))) h s)
      end
  end.
Fixpoint vmwrites (l : list (Z * Z)) : M boot unit :=
  match l with
  | [] => ret tt
  | (f, val) :: l => __vmwrite f val ;;; vmwrites l
  end.

(** ** vcpu_entry *)

(** What the processor and the program's image supply for the host state. *)
Record vhost := Vhost {
  host_cr0 : Z; host_cr3 : Z; host_cr4 : Z;
  host_tr : Z;
  fs_base : Z; gs_base : Z; tss_base : Z; gdtr_base : Z; idtr_base : Z;
  vexit_rip : Z;
  host_efer : Z; host_pat : Z;
}.

Definition VKERNEL_CS : Z := Z.shiftl 1 3.
Definition VKERNEL_DS : Z := Z.shiftl 2 3.
Definition GUEST_ACTIVE : Z := 0.

Section Vboot.
Context (conf : vptr → vcpu_conf) (pconf : Z → vpartition_conf).
Context (support : Z → vper_cpu_arch_support_t) (flags : Z → vinfo_flags) (bflags : Z → vboot_flags).
Context (features : Z → vfeatures) (vmclear_ok vmptrld_ok : vptr → bool).
Context (host : Z → vhost) (vexit_stack : vptr → Z) (rdmsr : Z → Z → Z).
(** [vlaunch.cs] of a vcpu and [ept_state.ept_base_phys] of a partition, which
    the root fills in. *)
Context (vlaunch_cs : vptr → Z) (ept_base_phys : Z → Z).

(** [vmwrite_adjusted(msr, field, val)] *)
Definition vmwrite_adjusted (this msr field val : Z) : Z * Z :=
  (field, adjusted (rdmsr this msr) val).

Definition exception_bmp : Z := word_of [exc_debug; exc_alignment_check].
Definition pin_ctls : Z :=
  word_of [pin_external_interrupt_exiting; pin_nmi_exiting; pin_virtual_nmis].
Definition proc_ctls : Z :=
  word_of [proc_mwait_exiting; proc_monitor_exiting; proc_cr8_store_exiting; proc_use_io_bitmaps;
           proc_use_msr_bitmaps; proc_activate_secondary_controls].
Definition exit_ctls : Z :=
  word_of [exit_activate_secondary_controls; exit_host_address_space_size;
           exit_acknowledge_interrupt_on_exit; exit_save_debug_controls; exit_save_ia32_efer;
           exit_save_ia32_pat; exit_save_ia32_perf_global_ctl; exit_load_ia32_efer;
           exit_load_ia32_pat; exit_load_ia32_perf_global_ctrl; exit_load_pkrs;
           exit_load_cet_state; exit_conceal_vmx_from_pt].
Definition entry_ctls : Z :=
  word_of [entry_conceal_vmx_from_pt; entry_load_cet_state; entry_load_debug_controls;
           entry_load_ia32_bndcfgs; entry_load_ia32_efer; entry_load_ia32_lbr_ctl;
           entry_load_ia32_pat; entry_load_ia32_perf_global_ctrl; entry_load_ia32_rtit_ctl;
           entry_load_pkrs; entry_load_uinv; entry_load_fred].
Definition proc2_ctls (vpid_on ve_on : bool) : Z :=
  word_of ([proc2_enable_invpcid; proc2_conceal_vmx_from_pt] ++ only vpid_on proc2_enable_vpid ++
           [proc2_wbinvd_exiting; proc2_enable_ept] ++ only ve_on proc2_ept_violation_ve ++
           [proc2_unrestricted_guest; proc2_intel_pt_use_guest_phys_addr]).
Definition exit2_ctls : Z := word_of [exit2_load_fred; exit2_save_fred].

Definition setup_ctrls (this : Z) (v : vptr) : list (Z * Z) :=
  let d := bflags this in
  [ (VMCS_CTRL_EXCEPTION_BITMAP, exception_bmp);
    vmwrite_adjusted this (ia32_vmx_pinbased_ctls d) VMCS_CTRL_PINBASED_CONTROLS pin_ctls;
    vmwrite_adjusted this (ia32_vmx_procbased_ctls d) VMCS_CTRL_PROCBASED_CTLS proc_ctls;
    vmwrite_adjusted this (ia32_vmx_exit_ctls d) VMCS_CTRL_PRIMARY_VMEXIT_CONTROLS exit_ctls;
    vmwrite_adjusted this (ia32_vmx_entry_ctls d) VMCS_CTRL_VMENTRY_CONTROLS entry_ctls ] ++
  (if procbased_ctls2 d
   then [vmwrite_adjusted this IA32_VMX_PROCBASED_CTLS2 VMCS_CTRL_PROCBASED_CTLS2
           (proc2_ctls (vpid_enabled (conf v)) (ept_ve (conf v)))]
   else []) ++
  (if exit_ctls2 d
   then [vmwrite_adjusted this IA32_VMX_EXIT_CTLS2 VMCS_CTRL_SECONDARY_VMEXIT_CONTROLS exit2_ctls]
   else []).

Definition setup_host (this : Z) (v : vptr) : list (Z * Z) :=
  let h := host this in
  [ (VMCS_HOST_CR0, host_cr0 h); (VMCS_HOST_CR3, host_cr3 h); (VMCS_HOST_CR4, host_cr4 h);
    (VMCS_HOST_CS_SELECTOR, VKERNEL_CS); (VMCS_HOST_DS_SELECTOR, VKERNEL_DS);
    (VMCS_HOST_SS_SELECTOR, VKERNEL_DS); (VMCS_HOST_ES_SELECTOR, VKERNEL_DS);
    (VMCS_HOST_FS_SELECTOR, VKERNEL_DS); (VMCS_HOST_GS_SELECTOR, VKERNEL_DS);
    (VMCS_HOST_TR_SELECTOR, host_tr h);
    (VMCS_HOST_FS_BASE, fs_base h); (VMCS_HOST_GS_BASE, gs_base h);
    (VMCS_HOST_TR_BASE, tss_base h); (VMCS_HOST_GDTR_BASE, gdtr_base h);
    (VMCS_HOST_IDTR_BASE, idtr_base h);
    (VMCS_HOST_RIP, vexit_rip h); (VMCS_HOST_RSP, vexit_stack v);
    (VMCS_HOST_IA32_EFER, host_efer h); (VMCS_HOST_IA32_PAT, host_pat h) ].

Definition cr0_mask : Z := word_of [cr0_cd; cr0_nw].
Definition cr4_mask (d : vboot_flags) (f : vfeatures) : Z :=
  word_of ([cr4_vmxe] ++ only (f_mce d) cr4_mce ++ only (f_smx d) cr4_smxe ++
           only (f_xsave d) cr4_osxsave ++ only (f_pke f) cr4_pke ++ only (f_uintr d) cr4_uintr ++
           only (f_fred d) cr4_fred).
Definition cr4_shadow : Z := word_of [cr4_vmxe].

Definition setup_cr (this : Z) : list (Z * Z) :=
  let et := Z.testbit (host_cr0 (host this)) cr0_et in
  [ (VMCS_CTRL_CR0_GUEST_HOST_MASK, cr0_mask); (VMCS_CTRL_CR0_READ_SHADOW, 0);
    (VMCS_CTRL_CR4_GUEST_HOST_MASK, cr4_mask (bflags this) (features this));
    (VMCS_CTRL_CR4_READ_SHADOW, cr4_shadow);
    (VMCS_GUEST_CR0, word_of (only et cr0_et ++ [cr0_ne]));
    (VMCS_GUEST_CR4, word_of [cr4_vmxe]) ].

Definition setup_segments (v : vptr) : list (Z * Z) :=
  let cs := vlaunch_cs v in
  let default_ar := access_rights_t 3 [ar_descriptor_type; ar_p; ar_g] in
  [ (VMCS_GUEST_CS_SELECTOR, cs);
    (VMCS_GUEST_CS_BASE, Z.shiftl (Z.shiftr cs 3) 4);
    (VMCS_GUEST_CS_LIMIT, 0xffff); (VMCS_GUEST_DS_LIMIT, 0xffff); (VMCS_GUEST_SS_LIMIT, 0xffff);
    (VMCS_GUEST_ES_LIMIT, 0xffff); (VMCS_GUEST_FS_LIMIT, 0xffff); (VMCS_GUEST_GS_LIMIT, 0xffff);
    (VMCS_GUEST_TR_LIMIT, 0xffff); (VMCS_GUEST_LDTR_LIMIT, 0xffff);
    (VMCS_GUEST_GDTR_LIMIT, 0xffff); (VMCS_GUEST_IDTR_LIMIT, 0xffff);
    (VMCS_GUEST_CS_ACCESS_RIGHTS, access_rights_t 11 [ar_descriptor_type; ar_p; ar_g]);
    (VMCS_GUEST_DS_ACCESS_RIGHTS, default_ar); (VMCS_GUEST_SS_ACCESS_RIGHTS, default_ar);
    (VMCS_GUEST_ES_ACCESS_RIGHTS, default_ar); (VMCS_GUEST_FS_ACCESS_RIGHTS, default_ar);
    (VMCS_GUEST_GS_ACCESS_RIGHTS, default_ar);
    (VMCS_GUEST_TR_ACCESS_RIGHTS, access_rights_t 3 [ar_p; ar_g]);
    (VMCS_GUEST_LDTR_ACCESS_RIGHTS, access_rights_t 0 [ar_segment_unusable]);
    (VMCS_GUEST_RIP, vlaunch_rip (conf v));
    (VMCS_GUEST_RFLAGS, word_of [rflags_reserved0; rflags_if]) ].

Definition setup_bitmaps (v : vptr) : list (Z * Z) :=
  let c := conf v in
  [ (VMCS_CTRL_IO_BITMAP_A, io_bitmap_a_phys c); (VMCS_CTRL_IO_BITMAP_B, io_bitmap_b_phys c);
    (VMCS_CTRL_MSR_BITMAPS, msr_bitmap_phys c);
    (VMCS_GUEST_ACTIVITY_STATE, GUEST_ACTIVE); (VMCS_GUEST_VMCS_LINK_POINTER, 2 ^ 64 - 1) ] ++
  (if negb (vexit_load_count c =? 0)
   then [ (VMCS_CTRL_VMEXIT_MSR_LOAD_ADDRESS, vexit_msr_load_area_phys c);
          (VMCS_CTRL_VMEXIT_MSR_LOAD_COUNT, vexit_load_count c) ] else []) ++
  (if negb (msr_load_save_count c =? 0)
   then [ (VMCS_CTRL_VMEXIT_MSR_STORE_ADDRESS, msr_load_save_area_phys c);
          (VMCS_CTRL_VMEXIT_MSR_STORE_COUNT, msr_load_save_count c);
          (VMCS_CTRL_VMENTRY_MSR_LOAD_ADDRESS, msr_load_save_area_phys c);
          (VMCS_CTRL_VMENTRY_MSR_LOAD_COUNT, msr_load_save_count c) ] else []).

(** [eptp_t]: memory type, length of the walk less one, accessed and dirty
    flags, and the page of the root table. *)
Definition eptp_t (memtype walklength : Z) (accessed_dirty_enabled : bool) (phys : Z) : Z :=
  Z.lor (Z.lor (Z.lor (wrap 3 memtype) (Z.shiftl (wrap 3 walklength) 3))
           (Z.shiftl (Z.b2z accessed_dirty_enabled) 6))
    (Z.shiftl (wrap 52 phys) 12).

(** [vpid_t]: the identifier and, in the bit above it, whether it is enabled. *)
Definition vpid_val (c : vcpu_conf) : Z := Z.lor (vpid c) (Z.shiftl (Z.b2z (vpid_enabled c)) 15).

Definition setup_ept (this : Z) (v : vptr) (p : Z) : list (Z * Z) :=
  [ (VMCS_CTRL_EPTP, eptp_t (ept_caching_policy (pconf p)) (if ept_pml5 (flags this) then 4 else 3)
       (ept_accessed_dirty (flags this)) (ept_base_phys p)) ] ++
  (if ept_ve_support (support this)
   then [(VMCS_CTRL_VIRT_EXCEPTION_INFORMATION_ADDRESS, ve_info_area_phys (conf v))] else []) ++
  (if vpid_enabled (conf v) then [(VMCS_CTRL_VPID, vpid_val (conf v))] else []).

(** All the writes of [vcpu_entry], in their order. *)
Definition vcpu_fields (this : Z) (v : vptr) (p : Z) : list (Z * Z) :=
  setup_ctrls this v ++ setup_host this v ++ setup_cr this ++ setup_segments v ++
  setup_bitmaps v ++ setup_ept this v p.

Definition setup_traps_of (this : Z) (v : vptr) : M boot unit := fun s =>
  match b_bitmaps s !! v with
  | None => Fault FDangling
  | Some b =>
      let* b := vsetup_traps (ia32_arch_capabilities_r (flags this)) (bflags this) b in
      Ok (tt, with_bitmaps v b s)
  end.

(** The result is that of [__venter]: [false] if the vcpu is gone.  The guest
    is launched next. *)
Definition vcpu_entry : M boot bool :=
  this <~ in_hv vthis_vprocessor_id ;;
  current <~ in_hv vcurrent_vcpu ;;
  in_hv disable_interrupts ;;;
  in_hv (upd_vcpu current (fun x => x <| preempted := false |>)) ;;;
  mmodify (with_revision current (revision_id (bflags this))) ;;;
  loaded <~ (if negb (vmclear_ok current) then ret false
             else in_hv (__vmptrld vmptrld_ok current)) ;;
  if negb loaded then in_hv vfailure_recover ;;; ret false else
  x <~ in_hv (get_vcpu current) ;;
  vmwrites (vcpu_fields this current (vpartition_addr x)) ;;;
  (if vpid_enabled (conf current) then in_hv (vlog (EInvvpid (vpid_val (conf current)))) else ret tt) ;;;
  setup_traps_of this current ;;;
  in_hv (__venter conf vmptrld_ok).
End Vboot.

(** ** Traps *)

(** The registers whose writes, and those whose reads, a set up traps. *)
Definition traps_write (d : vboot_flags) (m : Z) : bool :=
  existsb (Z.eqb m) (IA32_FEATURE_CONTROL :: trap_list d).
Definition traps_read (arch_capabilities_r : bool) (d : vboot_flags) (m : Z) : bool :=
  traps_write d m || (arch_capabilities_r && (m =? IA32_ARCH_CAPABILITIES)).

(** [b'] has the bits of the MSR bitmap that [b] has and those in [S]. *)
Definition adds_bits (S : Z → bool) (b b' : vcpu_bitmaps) : Prop :=
  bitmaps_wf b' ∧ ∀ o, 0 <= o →
    bit_at (msr_bitmap b') o = (let* c := bit_at (msr_bitmap b) o in Ok (S o || c)).

Lemma adds_bits_trans S1 S2 b1 b2 b3 :
  adds_bits S1 b1 b2 → adds_bits S2 b2 b3 → adds_bits (fun o => S1 o || S2 o) b1 b3.
Proof.
  intros [_ H1] [W H2]. split; [done|]. intros o Ho. rewrite (H2 o Ho), (H1 o Ho).
  destruct (bit_at _ o); simpl; f_equal. by rewrite orb_assoc, (orb_comm (S2 o)).
Qed.

Lemma adds_bits_ext S S' b b' :
  adds_bits S b b' → (∀ o, 0 <= o → S o = S' o) → adds_bits S' b b'.
Proof. intros [W H] E. split; [done|]. intros o Ho. rewrite <- E by done. by apply H. Qed.

Lemma adds_bits_none b : bitmaps_wf b → adds_bits (fun _ => false) b b.
Proof. intros W. split; [done|]. intros o _. by destruct (bit_at _ o). Qed.

Lemma set_msr_bit b bi offset lo :
  bitmaps_wf b → msr_in bi offset lo → 0 <= lo <= 2048 →
  ∃ b', upd_msr_bitmap b bi set_bit = Ok b' ∧ adds_bits (Z.eqb offset) b b'.
Proof.
  intros (Wa & Wb & Wm) [Hb Hi Hr Ho] Hlo. destruct bi as [base idx]. cbn [fst snd] in *.
  unfold upd_msr_bitmap.
  rewrite (proj2 (Z.eqb_neq _ _) Hb), (proj2 (Z.eqb_neq idx (-1))) by lia. cbn [negb andb].
  unfold msr_offset in Ho. cbn [fst snd] in Ho.
  assert (base + idx / 8 = offset / 8) as -> by (rewrite <- Ho; by rewrite Z.div_add_l).
  assert (idx mod 8 = offset mod 8) as ->
    by (rewrite <- Ho; by rewrite (Z.add_comm (base * 8)), Z.mod_add).
  destruct (arr_upd_bit set_bit orb (msr_bitmap b) offset test_set_bit (fun c => eq_refl))
    as (a & -> & La & Ha).
  { rewrite <- Ho, Z.div_add_l, Wm by done. lia. }
  eexists. split; [done|]. split; [split_and!; [exact Wa|exact Wb|by rewrite <- Wm]|].
  intros o Ho'. by apply Ha.
Qed.

(** The bits of the registers of a list, for reads or for writes. *)
Definition bits_of (base : Z) (ms : list Z) (o : Z) : bool :=
  existsb (fun m => vin_msr_bitmap_range m && (base + msr_place m =? o)) ms.

Lemma vtrap_msr_read_adds b m :
  bitmaps_wf b → 0 <= m → ∃ b', vtrap_msr_read b m = Ok b' ∧ adds_bits (bits_of 0 [m]) b b'.
Proof.
  intros W Hm. unfold vtrap_msr_read. pose proof (vmap_msr_spec m Hm) as Hs.
  destruct (vin_msr_bitmap_range m) eqn:E.
  - destruct Hs as [Hr _]. destruct (set_msr_bit b _ _ _ W Hr) as (b' & -> & H); [lia|].
    exists b'. split; [done|]. eapply adds_bits_ext; [done|]. intros o _.
    unfold bits_of. simpl. by rewrite E, orb_false_r.
  - destruct Hs as [-> _]. exists b. split; [done|].
    eapply adds_bits_ext; [by apply adds_bits_none|]. intros o _. unfold bits_of. simpl. by rewrite E.
Qed.

Lemma vtrap_msr_write_adds b m :
  bitmaps_wf b → 0 <= m → ∃ b', vtrap_msr_write b m = Ok b' ∧ adds_bits (bits_of 16384 [m]) b b'.
Proof.
  intros W Hm. unfold vtrap_msr_write. pose proof (vmap_msr_spec m Hm) as Hs.
  destruct (vin_msr_bitmap_range m) eqn:E.
  - destruct Hs as [_ Hw]. destruct (set_msr_bit b _ _ _ W Hw) as (b' & -> & H); [lia|].
    exists b'. split; [done|]. eapply adds_bits_ext; [done|]. intros o _.
    unfold bits_of. simpl. by rewrite E, orb_false_r.
  - destruct Hs as [_ ->]. exists b. split; [done|].
    eapply adds_bits_ext; [by apply adds_bits_none|]. intros o _. unfold bits_of. simpl. by rewrite E.
Qed.

Lemma vtrap_msrs_adds l : ∀ b, bitmaps_wf b → Forall (fun m => 0 <= m) l →
  ∃ b', vtrap_msrs l b = Ok b' ∧
    adds_bits (fun o => bits_of 0 l o || bits_of 16384 l o) b b'.
Proof.
  induction l as [|m l IH]; intros b W Hl; cbn [vtrap_msrs].
  - exists b. split; [done|]. by apply adds_bits_none.
  - apply Forall_cons in Hl as [Hm Hl]. unfold vtrap_msr.
    destruct (vtrap_msr_read_adds b m W Hm) as (b1 & -> & H1). cbn [rbind].
    destruct (vtrap_msr_write_adds b1 m (proj1 H1) Hm) as (b2 & -> & H2). cbn [rbind].
    destruct (IH b2 (proj1 H2) Hl) as (b3 & -> & H3). exists b3. split; [done|].
    eapply adds_bits_ext; [eapply adds_bits_trans; [eapply adds_bits_trans|]; done|].
    intros o _. unfold bits_of. simpl. rewrite !orb_false_r.
    by destruct (_ && _), (_ && _), (existsb _ l).
Qed.

Lemma trap_list_nonneg d : Forall (fun m => 0 <= m) (trap_list d).
Proof.
  unfold trap_list. rewrite !Forall_app. split_and!;
    repeat match goal with |- context [if ?c then _ else _] => destruct c end;
    repeat constructor; done.
Qed.

Lemma vsetup_traps_adds ac d b : bitmaps_wf b →
  ∃ b', vsetup_traps ac d b = Ok b' ∧
    adds_bits (fun o => bits_of 0 (IA32_FEATURE_CONTROL :: trap_list d) o
        || bits_of 16384 (IA32_FEATURE_CONTROL :: trap_list d) o
        || (ac && bits_of 0 [IA32_ARCH_CAPABILITIES] o)) b b'.
Proof.
  intros W. unfold vsetup_traps.
  destruct (vtrap_msrs_adds [IA32_FEATURE_CONTROL] b W) as (b1 & E1 & H1);
    [by repeat constructor|].
  cbn [vtrap_msrs] in E1. destruct (vtrap_msr b IA32_FEATURE_CONTROL); [|done].
  injection E1 as ->. cbn [rbind].
  assert (∃ b2, (if ac then vtrap_msr_read b1 IA32_ARCH_CAPABILITIES else Ok b1) = Ok b2 ∧
    adds_bits (fun o => ac && bits_of 0 [IA32_ARCH_CAPABILITIES] o) b1 b2) as (b2 & -> & H2).
  { destruct ac; [by apply vtrap_msr_read_adds; [apply H1|]|].
    exists b1. split; [done|]. apply adds_bits_none, H1. }
  cbn [rbind].
  destruct (vtrap_msrs_adds (trap_list d) b2 (proj1 H2) (trap_list_nonneg d)) as (b3 & -> & H3).
  exists b3. split; [done|].
  eapply adds_bits_ext; [eapply adds_bits_trans; [eapply adds_bits_trans|]; done|].
  intros o _. change (IA32_FEATURE_CONTROL :: trap_list d) with ([IA32_FEATURE_CONTROL] ++ trap_list d).
  unfold bits_of. rewrite !existsb_app.
  repeat match goal with |- context [existsb ?f ?l] => destruct (existsb f l) end; by destruct ac.
Qed.

(** *** What the processor makes of the bitmap

    An access leaves the guest if its register is in neither range of the
    bitmap, or if the register's bit is set; the first 2048 bytes are for
    reads, the others for writes, and each half has 1024 bytes for the
    registers from 0 on and as many for those from 0xC0000000 on. *)
Definition hw_in_bitmap (m : Z) : bool :=
  (m <=? 0x1fff) || ((0xc0000000 <=? m) && (m <=? 0xc0001fff)).
Definition hw_offset (write : bool) (m : Z) : Z :=
  (if write then 16384 else 0) + (if m <=? 0x1fff then m else 8192 + (m - 0xc0000000)).
Definition hw_exits (b : vcpu_bitmaps) (write : bool) (m : Z) : res bool :=
  if hw_in_bitmap m then bit_at (msr_bitmap b) (hw_offset write m) else Ok true.

Lemma msr_place_range m : 0 <= m → vin_msr_bitmap_range m = true → 0 <= msr_place m < 16384.
Proof.
  intros Hm Hin. unfold msr_place, vin_msr_bitmap_range in *.
  destruct (Z.leb_spec m 0x1ff); [lia|]. simpl in Hin. to_prop. lia.
Qed.

Lemma bits_of_hw base base' (write : bool) ms m :
  0 <= m → hw_in_bitmap m = true → Forall (fun m => 0 <= m) ms →
  base' = (if write then 16384 else 0) → base = 0 ∨ base = 16384 →
  bits_of base ms (hw_offset write m) =
  (base =? base') && vin_msr_bitmap_range m && existsb (Z.eqb m) ms.
Proof.
  intros Hm Hin Hms -> Hb. unfold bits_of. induction Hms as [|x ms Hx _ IH]; simpl.
  - by rewrite andb_false_r.
  - rewrite IH, andb_orb_distrib_r. f_equal. clear IH.
    destruct (vin_msr_bitmap_range x) eqn:Ex; cbn [andb].
    + pose proof (msr_place_range x Hx Ex) as Hp.
      assert (0 <= hw_offset false m < 16384) as Ho.
      { unfold hw_offset, hw_in_bitmap in *. destruct (Z.leb_spec m 0x1fff); [lia|].
        simpl in Hin. to_prop. lia. }
      assert ((msr_place x =? hw_offset false m) = vin_msr_bitmap_range m && (m =? x)) as E.
      { clear - Hm Hx Ex Hin. unfold msr_place, hw_offset, vin_msr_bitmap_range, hw_in_bitmap in *.
        repeat match goal with
               | H : context [?a <=? ?b] |- _ => destruct (Z.leb_spec a b); cbn in H; try done
               | |- context [?a <=? ?b] => destruct (Z.leb_spec a b); cbn
               | |- context [?a =? ?b] => destruct (Z.eqb_spec a b); cbn
               end; lia || done. }
      assert (hw_offset write m = (if write then 16384 else 0) + hw_offset false m) as ->
        by (unfold hw_offset; by destruct write).
      set (base' := if write then 16384 else 0) in *.
      assert (base' = 0 ∨ base' = 16384) as Hb' by (unfold base'; destruct write; auto).
      destruct (Z.eqb_spec base base') as [->|Hne]; cbn [andb].
      * rewrite <- E. destruct (Z.eqb_spec (msr_place x) (hw_offset false m));
          [apply Z.eqb_eq|apply Z.eqb_neq]; lia.
      * apply Z.eqb_neq. lia.
    + symmetry. destruct (Z.eqb_spec m x) as [->|]; [|by rewrite andb_false_r].
      by rewrite Ex, andb_false_r.
Qed.

Lemma hw_exits_adds ac d b b' w m :
  0 <= m →
  adds_bits (fun o => bits_of 0 (IA32_FEATURE_CONTROL :: trap_list d) o
      || bits_of 16384 (IA32_FEATURE_CONTROL :: trap_list d) o
      || (ac && bits_of 0 [IA32_ARCH_CAPABILITIES] o)) b b' →
  hw_exits b' w m = (let* c := hw_exits b w m in
    Ok ((vin_msr_bitmap_range m && (if w : bool then traps_write d m else traps_read ac d m)) || c)).
Proof.
  intros Hm [_ H]. unfold hw_exits. destruct (hw_in_bitmap m) eqn:Hin.
  2: { simpl. by rewrite orb_true_r. }
  assert (0 <= hw_offset w m) as Ho.
  { unfold hw_offset. destruct w, (Z.leb_spec m 0x1fff); unfold hw_in_bitmap in Hin;
      rewrite ?(proj2 (Z.leb_gt m 0x1fff)) in Hin by lia; simpl in Hin; to_prop; lia. }
  rewrite (H _ Ho). destruct (bit_at _ _) as [c|]; [|done]. cbn [rbind]. cbv beta. do 2 f_equal.
  pose proof (trap_list_nonneg d) as Hnn.
  assert (Forall (fun m => 0 <= m) (IA32_FEATURE_CONTROL :: trap_list d)) as Hl
    by (constructor; [unfold IA32_FEATURE_CONTROL; lia|exact Hnn]).
  set (base' := if w then 16384 else 0).
  assert (∀ base ms, base = 0 ∨ base = 16384 → Forall (fun m => 0 <= m) ms →
    bits_of base ms (hw_offset w m) = (base =? base') && vin_msr_bitmap_range m && existsb (Z.eqb m) ms)
    as Hb by (intros; by apply bits_of_hw).
  rewrite (Hb 0 (_ :: trap_list d)), (Hb 16384 (_ :: trap_list d)), (Hb 0 [_])
    by (done || (by left) || (by right) || (by repeat constructor)).
  unfold traps_read, traps_write.
  replace (existsb (Z.eqb m) [IA32_ARCH_CAPABILITIES]) with (m =? IA32_ARCH_CAPABILITIES)
    by (simpl; by rewrite orb_false_r).
  unfold base'. destruct w, (vin_msr_bitmap_range m), ac, (m =? IA32_ARCH_CAPABILITIES),
    (existsb (Z.eqb m) (IA32_FEATURE_CONTROL :: trap_list d)); done.
Qed.

(** A processor that has everything. *)
Definition all_flags : vboot_flags :=
  VbootFlags true true true true true true true true true true true true true true true 0 0 0 0 0.

(** C22. The set up of the traps decides accesses to registers: in terms of what
    the processor makes of the (well-formed) bitmap, exactly the listed
    registers below 0x200 and from 0xC0000000 on are made to leave the guest, on
    reads and writes, in addition to what the root chose, and no access is out
    of the bitmap.  For a processor of which every feature is flagged the list
    has every register that the exits would refuse; that is not so where a
    feature is not flagged, as rdtscp never is.  Whatever is flagged, registers
    from 0x200 to 0x1fff, among them the VMX capability and x2APIC registers,
    are left as they were. *)
Theorem vsetup_traps_decides ac d b :
  bitmaps_wf b →
  (∃ b', vsetup_traps ac d b = Ok b' ∧ bitmaps_wf b' ∧
    (∀ w m, 0 <= m → hw_exits b' w m = (let* c := hw_exits b w m in
       Ok ((vin_msr_bitmap_range m && (if w : bool then traps_write d m else traps_read ac d m)) || c))) ∧
    ∀ w m, 0x200 <= m <= 0x1fff → hw_exits b' w m = hw_exits b w m) ∧
  (∀ m, m ∈ msr_blocklist → traps_write all_flags m = true) ∧
  vin_msr_bitmap_range IA32_VMX_BASIC = false ∧ vin_msr_bitmap_range IA32_X2APIC_ICR = false.
Proof.
  intros W. split; [|split; [|done]].
  - destruct (vsetup_traps_adds ac d b W) as (b' & E & H). exists b'.
    split; [done|]. split; [apply H|].
    assert (∀ w m, 0 <= m → hw_exits b' w m = (let* c := hw_exits b w m in
       Ok ((vin_msr_bitmap_range m && (if w : bool then traps_write d m else traps_read ac d m)) || c)))
      as Hx by (intros w m Hm; by apply hw_exits_adds).
    split; [done|]. intros w m Hm. rewrite Hx by lia.
    assert (vin_msr_bitmap_range m = false) as ->.
    { unfold vin_msr_bitmap_range. destruct (Z.leb_spec m 0x1ff), (Z.leb_spec 0xc0000000 m); lia || done. }
    by destruct (hw_exits b w m).
  - apply Forall_forall. apply (bool_decide_unpack _). vm_compute. exact I.
Qed.

Definition ex_bitmaps : vcpu_bitmaps :=
  VcpuBitmaps (replicate 4096 0) (replicate 4096 0) (replicate 4096 0).

Lemma vsetup_traps_decides_witness :
  bitmaps_wf ex_bitmaps ∧
  ∃ b', vsetup_traps true all_flags ex_bitmaps = Ok b' ∧
    hw_exits b' true IA32_APIC_BASE = Ok true ∧ hw_exits b' false 0x10 = Ok false ∧
    hw_exits b' true IA32_X2APIC_ICR = Ok false.
Proof.
  assert (bitmaps_wf ex_bitmaps) as W by (split_and!; apply length_replicate).
  split; [exact W|].
  destruct (vsetup_traps_decides true all_flags ex_bitmaps W) as [(b' & E & _ & H & _) _].
  exists b'. split; [exact E|].
  rewrite !H by (vm_compute; discriminate). split_and!; vm_compute; reflexivity.
Defined.

(** ** The writes of an entry *)

Definition put_vmcs (v : vptr) (g : vmcs_guest) (h : hv) : hv := h <| h_vmcs ::= <[v := g]> |>.
Definition fields_of_vmcs (s : boot) (v : vptr) : gmap Z Z := default ∅ (b_vmcs s !! v).

Lemma vmwrites_run l : ∀ v g s,
  h_loaded (b_hv s) !! h_this (b_hv s) = Some v → h_vmcs (b_hv s) !! v = Some g →
  ∃ s', vmwrites l s = Ok (tt, s') ∧ b_hv s' = put_vmcs v (fold_left guest_sync l g) (b_hv s) ∧
    fields_of_vmcs s' v = write_all (fields_of_vmcs s v) l ∧
    b_bitmaps s' = b_bitmaps s ∧ b_revision s' = b_revision s ∧
    ∀ w, w ≠ v → b_vmcs s' !! w = b_vmcs s !! w.
Proof.
  induction l as [|[f val] l IH]; intros v g s Hl Hg.
  - exists s. split; [done|]. split; [|done]. unfold put_vmcs. destruct (b_hv s).
    cbn in *. by rewrite insert_id.
  - cbn [vmwrites]. unfold bind at 1, __vmwrite, vmcs_loaded. rewrite Hl.
    assert (vmwrite (fun g => guest_sync g (f, val)) (b_hv s)
            = Ok (tt, put_vmcs v (guest_sync g (f, val)) (b_hv s))) as ->.
    { unfold vmwrite, vmread, vmcs_loaded, bind. by rewrite Hl, Hl, Hg. }
    destruct (IH v (guest_sync g (f, val))
      (wrote v (<[f := val]> (fields_of_vmcs s v)) (put_vmcs v (guest_sync g (f, val)) (b_hv s)) s))
      as (s' & E & Hh & HF & Hb & Hr & Ho); [exact Hl|apply lookup_insert_eq|].
    exists s'. split; [exact E|]. split; [|split].
    + rewrite Hh. unfold wrote, put_vmcs. cbn [b_hv]. destruct (b_hv s). cbn.
      by rewrite insert_insert_eq.
    + rewrite HF. unfold fields_of_vmcs at 1, wrote. cbn [b_vmcs]. by rewrite lookup_insert_eq.
    + rewrite Hb, Hr. split; [done|]. split; [done|]. intros w Hw. rewrite Ho by done.
      by apply lookup_insert_ne.
Qed.


Lemma last_write_when (c : bool) l f :
  last_write l f = None → last_write (if c then l else []) f = None.
Proof. by destruct c. Qed.

(** Evaluates the last write of a field, skipping the conditional parts that do
    not have it. *)
Ltac field_of :=
  rewrite write_all_lookup; unfold vcpu_fields, setup_ctrls, setup_bitmaps, setup_ept;
  rewrite !last_write_app; rewrite ?last_write_when by reflexivity; reflexivity.

(** A list of known bits within another. *)
Ltac sub_list H := revert H; match goal with |- ?b ∈ _ → _ => revert b end;
  apply Forall_forall; apply (bool_decide_unpack _); vm_compute; exact I.

Section Entry.
Context (conf : vptr → vcpu_conf) (pconf : Z → vpartition_conf).
Context (support : Z → vper_cpu_arch_support_t) (flags : Z → vinfo_flags) (bflags : Z → vboot_flags).
Context (features : Z → vfeatures) (vmclear_ok vmptrld_ok : vptr → bool).
Context (host : Z → vhost) (vexit_stack : vptr → Z) (rdmsr : Z → Z → Z).
Context (vlaunch_cs : vptr → Z) (ept_base_phys : Z → Z).

Local Abbreviation fields := (vcpu_fields conf pconf support flags bflags features host vexit_stack
                            rdmsr vlaunch_cs ept_base_phys).
Local Abbreviation entry := (vcpu_entry conf pconf support flags bflags features vmclear_ok vmptrld_ok
                           host vexit_stack rdmsr vlaunch_cs ept_base_phys).

(** Where the field [f] is [adjusted cap val], a bit that is asked for is set if
    the processor allows it. *)
Definition requested (F : gmap Z Z) (f cap bit : Z) : Prop :=
  allowed cap bit = true → ∃ w, F !! f = Some w ∧ Z.testbit w bit = true.

Lemma requested_intro (F : gmap Z Z) f cap bits bit :
  F !! f = Some (adjusted cap (word_of bits)) → Forall (fun b => 0 <= b < 32) bits → bit ∈ bits →
  requested F f cap bit.
Proof.
  intros E Hb Hin Ha. eexists. split; [exact E|].
  rewrite Forall_forall in Hb. rewrite adjusted_bit by (by apply Hb).
  rewrite word_of_bit by (apply Forall_forall; intros b H; by apply Hb in H as [? _]).
  rewrite (bool_decide_eq_true_2 _ Hin). exact Ha.
Qed.

(** What the guest runs with. *)
Record programmed (this : Z) (v : vptr) (p : Z) (F : gmap Z Z) : Prop := {
  pr_pin : ∀ bit, bit ∈ [pin_external_interrupt_exiting; pin_nmi_exiting; pin_virtual_nmis] →
    requested F VMCS_CTRL_PINBASED_CONTROLS (rdmsr this (ia32_vmx_pinbased_ctls (bflags this))) bit;
  pr_proc : ∀ bit, bit ∈ [proc_use_io_bitmaps; proc_use_msr_bitmaps; proc_mwait_exiting;
                          proc_monitor_exiting; proc_activate_secondary_controls] →
    requested F VMCS_CTRL_PROCBASED_CTLS (rdmsr this (ia32_vmx_procbased_ctls (bflags this))) bit;
  pr_proc2 : procbased_ctls2 (bflags this) = true →
    ∀ bit, bit ∈ [proc2_enable_ept; proc2_unrestricted_guest; proc2_wbinvd_exiting] →
    requested F VMCS_CTRL_PROCBASED_CTLS2 (rdmsr this IA32_VMX_PROCBASED_CTLS2) bit;
  pr_exit : ∀ bit, bit ∈ [exit_host_address_space_size; exit_acknowledge_interrupt_on_exit;
                          exit_save_ia32_efer; exit_load_ia32_efer] →
    requested F VMCS_CTRL_PRIMARY_VMEXIT_CONTROLS (rdmsr this (ia32_vmx_exit_ctls (bflags this))) bit;
  pr_bitmaps : F !! VMCS_CTRL_MSR_BITMAPS = Some (msr_bitmap_phys (conf v)) ∧
    F !! VMCS_CTRL_IO_BITMAP_A = Some (io_bitmap_a_phys (conf v)) ∧
    F !! VMCS_CTRL_IO_BITMAP_B = Some (io_bitmap_b_phys (conf v));
  pr_ept : F !! VMCS_CTRL_EPTP = Some (eptp_t (ept_caching_policy (pconf p))
    (if ept_pml5 (flags this) then 4 else 3) (ept_accessed_dirty (flags this)) (ept_base_phys p));
  pr_cr : F !! VMCS_CTRL_CR0_GUEST_HOST_MASK = Some cr0_mask ∧
    F !! VMCS_CTRL_CR4_GUEST_HOST_MASK = Some (cr4_mask (bflags this) (features this)) ∧
    F !! VMCS_CTRL_CR4_READ_SHADOW = Some cr4_shadow;
  pr_host : F !! VMCS_HOST_RIP = Some (vexit_rip (host this)) ∧
    F !! VMCS_HOST_RSP = Some (vexit_stack v) ∧ F !! VMCS_HOST_CR3 = Some (host_cr3 (host this));
}.

Lemma fields_programmed this v p F : programmed this v p (write_all F (fields this v p)).
Proof.
  split.
  - intros bit Hb. eapply requested_intro; [field_of|by repeat constructor|sub_list Hb].
  - intros bit Hb. eapply requested_intro; [field_of|by repeat constructor|sub_list Hb].
  - intros H2 bit Hb. eapply requested_intro.
    + rewrite write_all_lookup. unfold vcpu_fields, setup_ctrls, setup_bitmaps, setup_ept.
      rewrite H2, !last_write_app. rewrite ?last_write_when by reflexivity. reflexivity.
    + unfold only. destruct (vpid_enabled _), (ept_ve _); by repeat constructor.
    + destruct (vpid_enabled _), (ept_ve _); sub_list Hb.
  - intros bit Hb. eapply requested_intro; [field_of|by repeat constructor|sub_list Hb].
  - split_and!; field_of.
  - field_of.
  - split_and!; field_of.
  - split_and!; field_of.
Qed.

(** The guest part of the VMCS, as the rest of the hypervisor reads it. *)
Definition fresh_guest (g g' : vmcs_guest) (v : vptr) : Prop :=
  g_rip g' = vlaunch_rip (conf v) ∧ g_rflags g' = 0x202 ∧ g_cr4 g' = 2 ^ 13 ∧
  g_efer g' = g_efer g ∧ c_entry_interrupt_info g' = c_entry_interrupt_info g.

Lemma sync_ctrls this v g :
  let g' := fold_left guest_sync (setup_ctrls conf bflags rdmsr this v) g in
  g_efer g' = g_efer g ∧ c_entry_interrupt_info g' = c_entry_interrupt_info g.
Proof.
  unfold setup_ctrls. destruct (procbased_ctls2 _), (exit_ctls2 _); split; reflexivity.
Qed.
Lemma sync_bitmaps v g : fold_left guest_sync (setup_bitmaps conf v) g = g.
Proof. unfold setup_bitmaps. destruct (negb _), (negb _); reflexivity. Qed.
Lemma sync_ept this v p g :
  fold_left guest_sync (setup_ept conf pconf support flags ept_base_phys this v p) g = g.
Proof. unfold setup_ept. destruct (ept_ve_support _), (vpid_enabled _); reflexivity. Qed.

Lemma fields_fresh this v p g : fresh_guest g (fold_left guest_sync (fields this v p) g) v.
Proof.
  unfold vcpu_fields. rewrite !fold_left_app, sync_ept, sync_bitmaps.
  pose proof (sync_ctrls this v g) as H. cbv zeta in H. revert H.
  generalize (fold_left guest_sync (setup_ctrls conf bflags rdmsr this v) g). intros g1 [E1 E2].
  split_and!; [reflexivity|reflexivity|reflexivity|rewrite <- E1; reflexivity|rewrite <- E2; reflexivity].
Qed.

(** The processor that runs a new vcpu. *)
Record starting (s : boot) (v : vptr) (x : vcpu) (b : vcpu_bitmaps) : Prop := {
  st_cpu : ∃ p, h_cpus (b_hv s) !! h_this (b_hv s) = Some p ∧ current_vcpu p = Some v;
  st_vcpu : h_vcpus (b_hv s) !! v = Some x;
  st_vmcs : is_Some (h_vmcs (b_hv s) !! v);
  st_bitmaps : b_bitmaps s !! v = Some b ∧ bitmaps_wf b;
  st_ok : vmclear_ok v = true ∧ vmptrld_ok v = true;
}.

(** The state of the hypervisor from which the guest is entered. *)
Record entered (s : boot) (v : vptr) (x : vcpu) (b : vcpu_bitmaps) (s1 : boot) : Prop := {
  en_fields : programmed (h_this (b_hv s)) v (vpartition_addr x) (fields_of_vmcs s1 v);
  en_guest : ∃ g g1, h_vmcs (b_hv s) !! v = Some g ∧ h_vmcs (b_hv s1) !! v = Some g1 ∧
    fresh_guest g g1 v;
  en_loaded : h_loaded (b_hv s1) !! h_this (b_hv s) = Some v;
  en_vcpu : h_vcpus (b_hv s1) !! v = Some (x <| preempted := false |>);
  en_bitmaps : ∃ b1, b_bitmaps s1 !! v = Some b1 ∧
    vsetup_traps (ia32_arch_capabilities_r (flags (h_this (b_hv s)))) (bflags (h_this (b_hv s))) b = Ok b1;
  en_revision : b_revision s1 !! v = Some (revision_id (bflags (h_this (b_hv s))));
  en_others : ∀ w, w ≠ v → b_bitmaps s1 !! w = b_bitmaps s !! w ∧ h_vmcs (b_hv s1) !! w = h_vmcs (b_hv s) !! w;
}.

(** The vcpu with [preempted] cleared, and its VMCS loaded. *)
Definition begun (v : vptr) (x : vcpu) (h : hv) : hv :=
  h <| h_interrupts ::= <[h_this h := false]> |> <| h_vcpus ::= <[v := x <| preempted := false |>]> |>
    <| h_loaded ::= <[h_this h := v]> |>.

Lemma in_hv_ok {A} (m : M hv A) s a h :
  m (b_hv s) = Ok (a, h) → in_hv m s = Ok (a, Boot h (b_vmcs s) (b_bitmaps s) (b_revision s)).
Proof. unfold in_hv. by intros ->. Qed.

Lemma entry_begins s v x b :
  starting s v x b →
  ∃ s1, entry s =
    (vmwrites (fields (h_this (b_hv s)) v (vpartition_addr x)) ;;;
     (if vpid_enabled (conf v) then in_hv (vlog (EInvvpid (vpid_val (conf v)))) else ret tt) ;;;
     setup_traps_of flags bflags (h_this (b_hv s)) v ;;;
     in_hv (__venter conf vmptrld_ok)) s1 ∧
    b_hv s1 = begun v x (b_hv s) ∧ b_vmcs s1 = b_vmcs s ∧ b_bitmaps s1 = b_bitmaps s ∧
    b_revision s1 = <[v := revision_id (bflags (h_this (b_hv s)))]> (b_revision s).
Proof.
  intros [(p & Hp & Hc) Hx _ _ [Hok1 Hok2]]. unfold vcpu_entry.
  destruct s as [h F B R]. cbn [b_hv b_vmcs b_bitmaps b_revision] in *.
  mstep (in_hv_ok vthis_vprocessor_id (Boot h F B R) (h_this h) h eq_refl).
  cbn [b_hv b_vmcs b_bitmaps b_revision].
  assert (vcurrent_vcpu h = Ok (v, h)) as Ec.
  { unfold vcurrent_vcpu, vthis_cpu_data, vthis_vprocessor_id, mgets, bind, get_cpu.
    rewrite Hp. cbn. by rewrite Hc. }
  mstep (in_hv_ok vcurrent_vcpu (Boot h F B R) _ _ Ec).
  cbn [b_hv b_vmcs b_bitmaps b_revision].
  set (h0 := h <| h_interrupts ::= <[h_this h := false]> |>).
  mstep (in_hv_ok _ (Boot h F B R) _ _ (eq_refl : disable_interrupts h = Ok (tt, h0))).
  cbn [b_hv b_vmcs b_bitmaps b_revision].
  assert (upd_vcpu v (fun x => x <| preempted := false |>) h0
          = Ok (tt, h0 <| h_vcpus ::= <[v := x <| preempted := false |>]> |>)) as Eu.
  { unfold upd_vcpu, get_vcpu, bind. change (h_vcpus h0) with (h_vcpus h). by rewrite Hx. }
  mstep (in_hv_ok _ (Boot h0 F B R) _ _ Eu). cbn [b_hv b_vmcs b_bitmaps b_revision].
  unfold bind at 1, mmodify at 1. rewrite Hok1. cbn [negb].
  unfold with_revision at 1. cbn [b_hv b_vmcs b_bitmaps b_revision].
  set (s2 := Boot _ F B _).
  assert (__vmptrld vmptrld_ok v (b_hv s2) = Ok (true, begun v x h)) as El.
  { unfold __vmptrld. rewrite Hok2. reflexivity. }
  mstep (in_hv_ok (__vmptrld vmptrld_ok v) s2 _ _ El). cbn [negb].
  set (s3 := Boot (begun v x h) _ _ _).
  assert (get_vcpu v (b_hv s3) = Ok (x <| preempted := false |>, begun v x h)) as Eg.
  { unfold get_vcpu. subst s3. cbn [b_hv]. unfold begun. cbn. by rewrite lookup_insert_eq. }
  mstep (in_hv_ok (get_vcpu v) s3 _ _ Eg).
  exists s3. split; [reflexivity|]. by split_and!.
Qed.

Lemma log_flush_run s v :
  ∃ h, (if vpid_enabled (conf v) then in_hv (vlog (EInvvpid (vpid_val (conf v)))) else ret tt) s
       = Ok (tt, Boot h (b_vmcs s) (b_bitmaps s) (b_revision s)) ∧
    h_vmcs h = h_vmcs (b_hv s) ∧ h_vcpus h = h_vcpus (b_hv s) ∧ h_loaded h = h_loaded (b_hv s).
Proof.
  destruct (vpid_enabled (conf v)).
  - eexists. split; [reflexivity|]. done.
  - exists (b_hv s). split; [by destruct s|]. done.
Qed.

Lemma entry_enters s v x b :
  starting s v x b →
  ∃ s1 F, entry s = in_hv (__venter conf vmptrld_ok) s1 ∧
    fields_of_vmcs s1 v = write_all F (fields (h_this (b_hv s)) v (vpartition_addr x)) ∧
    entered s v x b s1.
Proof.
  intros Hs. destruct (entry_begins s v x b Hs) as (s0 & -> & Hh & HF & HB & HR).
  destruct Hs as [_ Hx [g Hg] [Hb Wb] _].
  destruct (vmwrites_run (fields (h_this (b_hv s)) v (vpartition_addr x)) v g s0)
    as (s1 & E1 & Hh1 & HF1 & HB1 & HR1 & _); [rewrite Hh; apply lookup_insert_eq|by rewrite Hh|].
  mstep E1. destruct (log_flush_run s1 v) as (h2 & E2 & G1 & G2 & G3). mstep E2.
  destruct (vsetup_traps_adds (ia32_arch_capabilities_r (flags (h_this (b_hv s))))
    (bflags (h_this (b_hv s))) b Wb) as (b1 & Et & _).
  set (s2 := Boot h2 _ _ _).
  assert (setup_traps_of flags bflags (h_this (b_hv s)) v s2 = Ok (tt, with_bitmaps v b1 s2)) as E3.
  { unfold setup_traps_of. subst s2. cbn [b_bitmaps]. rewrite HB1, HB, Hb. by rewrite Et. }
  mstep E3. exists (with_bitmaps v b1 s2), (fields_of_vmcs s0 v). split; [reflexivity|].
  split; [exact HF1|].
  assert (h_vmcs h2 = <[v := fold_left guest_sync (fields (h_this (b_hv s)) v (vpartition_addr x)) g]>
    (h_vmcs (b_hv s))) as HV by (rewrite G1, Hh1, Hh; reflexivity).
  split; unfold with_bitmaps; subst s2; cbn [b_hv b_vmcs b_bitmaps b_revision].
  - change (fields_of_vmcs _ v) with (fields_of_vmcs s1 v). rewrite HF1. apply fields_programmed.
  - eexists g, _. split; [done|]. rewrite HV. split; [apply lookup_insert_eq|apply fields_fresh].
  - rewrite G3, Hh1, Hh. apply lookup_insert_eq.
  - rewrite G2, Hh1, Hh. apply lookup_insert_eq.
  - exists b1. split; [apply lookup_insert_eq|done].
  - rewrite HR1, HR. apply lookup_insert_eq.
  - intros w Hw. rewrite HV, !lookup_insert_ne, HB1, HB by done. done.
Qed.

(** Whether the processor has a bit of CR4: it faults on the others itself. *)
Definition cr4_present (d : vboot_flags) (f : vfeatures) (bit : Z) : bool :=
  if bit =? 6 then f_mce d else if bit =? 11 then f_umip f else if bit =? 12 then f_la57 f
  else if bit =? 14 then f_smx d else if bit =? 16 then f_fsgsbase f
  else if bit =? 17 then f_pcid f else if bit =? 18 then f_xsave d else if bit =? 19 then f_kl f
  else if bit =? 20 then f_smep f else if bit =? 21 then f_smap f else if bit =? 22 then f_pke f
  else if bit =? 23 then f_cet f else if bit =? 24 then f_pks f else if bit =? 25 then f_uintr d
  else if bit =? 27 then f_lass f else if bit =? 28 then f_lam f else if bit =? 32 then f_fred d
  else false.

Lemma cr4_mask_bit d f bit :
  Z.testbit (cr4_mask d f) bit =
  bool_decide (bit ∈ [13] ++ only (f_mce d) 6 ++ only (f_smx d) 14 ++ only (f_xsave d) 18 ++
    only (f_pke f) 22 ++ only (f_uintr d) 25 ++ only (f_fred d) 32).
Proof.
  apply word_of_bit. unfold only.
  destruct (f_mce d), (f_smx d), (f_xsave d), (f_pke f), (f_uintr d), (f_fred d); by repeat constructor.
Qed.

(** A bit that [cr4_valid] refuses, and that the processor has, is owned. *)
Lemma cr4_owned d f bit :
  bit ∈ cr4_forbidden f → cr4_present d f bit = true → Z.testbit (cr4_mask d f) bit = true.
Proof.
  assert (∀ b, Z.testbit (cr4_mask d f) b = true ↔ b = 13 ∨ b ∈ only (f_mce d) 6 ∨ b ∈ only (f_smx d) 14 ∨
    b ∈ only (f_xsave d) 18 ∨ b ∈ only (f_pke f) 22 ∨ b ∈ only (f_uintr d) 25 ∨ b ∈ only (f_fred d) 32) as Hm.
  { intros b. by rewrite cr4_mask_bit, bool_decide_eq_true, !elem_of_app, list_elem_of_singleton. }
  unfold cr4_forbidden. cbn [map fst snd concat]. rewrite !elem_of_app, Hm.
  intros H Hp. destruct H as [H|H].
  - repeat (apply elem_of_cons in H as [-> | H]; [cbn in Hp; try discriminate; rewrite Hp; set_solver|]).
    by apply elem_of_nil in H.
  - repeat match type of H with
    | _ ∨ _ => destruct H as [H|H]
    | _ ∈ (if ?c then _ else _) => destruct c eqn:E
    | _ ∈ [_] => apply list_elem_of_singleton in H as ->; cbn in Hp; congruence
    | _ ∈ [] => by apply elem_of_nil in H
    end.
Qed.

(** CR8: only its writes are meant to leave the guest, by the control
    [cr8_load_exiting]; [vcpu_entry] asks for the exit on reads. *)
Lemma fields_cr8 this v p F :
  let cap := rdmsr this (ia32_vmx_procbased_ctls (bflags this)) in
  ∃ w, write_all F (fields this v p) !! VMCS_CTRL_PROCBASED_CTLS = Some w ∧
    Z.testbit w proc_cr8_load_exiting = forced cap proc_cr8_load_exiting && allowed cap proc_cr8_load_exiting ∧
    Z.testbit w proc_cr8_store_exiting = allowed cap proc_cr8_store_exiting.
Proof.
  intros cap. exists (adjusted cap proc_ctls). split; [field_of|].
  rewrite !adjusted_bit by done. by split.
Qed.

(** The identifier written and flushed has the [enabled] bit in it. *)
Lemma vpid_val_on c : 0 <= vpid c < 2 ^ 15 → vpid_enabled c = true → vpid_val c = vpid c + 2 ^ 15.
Proof.
  intros H E. unfold vpid_val. rewrite E. change (Z.shiftl (Z.b2z true) 15) with (2 ^ 15).
  symmetry. apply Z.add_nocarry_lor. apply Z.bits_inj'. intros n Hn.
  rewrite Z.land_spec, testbit_pow2, Z.bits_0 by lia.
  destruct (bool_decide_reflect (15 = n)) as [<-|_]; [|apply andb_false_r].
  by rewrite Z.testbit_odd, Z.shiftr_div_pow2, Z.div_small by lia.
Qed.

Lemma fields_vpid this v p F :
  vpid_enabled (conf v) = true →
  write_all F (fields this v p) !! VMCS_CTRL_VPID = Some (vpid_val (conf v)).
Proof.
  intros E. rewrite write_all_lookup. unfold vcpu_fields, setup_ept. rewrite E, !last_write_app. reflexivity.
Qed.

(** C21. The first entry of a vcpu reaches [__venter], and leaves the processor
    with its VMCS loaded, [preempted] cleared, its traps set up, no other vcpu
    touched, and the VMCS programmed so that the guest is confined, as far as the
    processor allows each control: external interrupts and NMIs exit, the
    bitmaps of i/o ports and of model-specific registers are those of the
    vcpu and in use, memory goes through the partition's tables, and every
    bit of CR4 that [cr4_valid] refuses and the processor has is owned by the
    host.  Writes to CR8 exit only if the processor forces it; and the virtual
    processor id that is used and flushed has the flag [enabled] in it. *)
Theorem vcpu_entry_programs s v x b :
  starting s v x b →
  let this := h_this (b_hv s) in
  ∃ s1 w, entry s = in_hv (__venter conf vmptrld_ok) s1 ∧ entered s v x b s1 ∧
    (∀ bit, bit ∈ cr4_forbidden (features this) → cr4_present (bflags this) (features this) bit = true →
       Z.testbit (cr4_mask (bflags this) (features this)) bit = true) ∧
    (fields_of_vmcs s1 v !! VMCS_CTRL_PROCBASED_CTLS = Some w ∧
     Z.testbit w proc_cr8_load_exiting =
       forced (rdmsr this (ia32_vmx_procbased_ctls (bflags this))) proc_cr8_load_exiting &&
       allowed (rdmsr this (ia32_vmx_procbased_ctls (bflags this))) proc_cr8_load_exiting) ∧
    (vpid_enabled (conf v) = true → 0 <= vpid (conf v) < 2 ^ 15 →
     fields_of_vmcs s1 v !! VMCS_CTRL_VPID = Some (vpid (conf v) + 2 ^ 15)).
Proof.
  intros Hs this. destruct (entry_enters s v x b Hs) as (s1 & F & E & HF & He).
  destruct (fields_cr8 this v (vpartition_addr x) F) as (w & Hw & Hl & _).
  exists s1, w. split; [exact E|]. split; [exact He|]. split; [apply cr4_owned|].
  rewrite HF. split; [done|]. intros Hon Hr.
  rewrite fields_vpid by done. by rewrite vpid_val_on.
Qed.
End Entry.
