(* ===== verification/Vdetect.v ===== *)
(** * Vdetect: what the hypervisor finds out about a processor

    Models the detection in src/src/subsys/twanvisor/vmain.c: [lapic_reconfig],
    [vper_cpu_flags_init] and the frequencies of [vper_cpu_data_init], with
    [may_be_vulnerable_to_its] of src/src/lib/x86_index.c.

    The answers of cpuid, of the model-specific registers and of the counters
    are parameters, and so is the configuration.  The other files take what a
    processor supports as given; here it is computed, and put together with
    the creation of partitions (Vcreate) and the first entry (Vboot): a vcpu
    that [vcpu_precheck] lets pass runs behind the partition's tables. *)

From S2P Require Import Prelude Std Bmp Dq DeltaChain SchedDsa Twan VschedDsa Vpartition Vutils.
From S2P Require Import Vrecovery Vsched Vemu Vcreate Vcalls Vtimers Venter Vinfo Vexit Vmcs Vboot.
From coqutil Require Import Datatypes.RecordSetters.
From Stdlib Require Import ZArith Lia Bool.
From stdpp Require Import base gmap list numbers sets.

Local Open Scope Z_scope.

(** ** Bits of the leaves of cpuid and of the registers *)

Definition feature_bits_c_pcid : Z := 17.
Definition feature_bits_c_smx : Z := 6.
Definition feature_bits_c_x2apic : Z := 21.
Definition feature_bits_c_xsave : Z := 26.
Definition feature_bits_c_vmx : Z := 5.
Definition feature_bits_d_mce : Z := 7.
Definition feature_bits_d_mca : Z := 14.
Definition feature_bits_d_acpi : Z := 22.
Definition ptm_a_dts : Z := 0.
Definition extended_features0_b_fsgsbase : Z := 0.
Definition extended_features0_b_sgx : Z := 2.
Definition extended_features0_b_smep : Z := 7.
Definition extended_features0_b_mpx : Z := 14.
Definition extended_features0_b_smap : Z := 20.
Definition extended_features0_c_umip : Z := 2.
Definition extended_features0_c_pku : Z := 3.
Definition extended_features0_c_waitpkg : Z := 5.
Definition extended_features0_c_cet : Z := 7.
Definition extended_features0_c_la57 : Z := 16.
Definition extended_features0_c_rdpid : Z := 22.
Definition extended_features0_c_kl : Z := 23.
Definition extended_features0_c_sgx_lc : Z := 30.
Definition extended_features0_d_uintr : Z := 5.
Definition extended_features0_d_srbds_ctrl : Z := 9.
Definition extended_features0_d_rtm_always_abort : Z := 11.
Definition extended_features0_d_ibrs : Z := 26.
Definition extended_features0_d_stibp : Z := 27.
Definition extended_features0_d_l1d_flush : Z := 28.
Definition extended_features0_d_ia32_arch_capabilities : Z := 29.
Definition extended_features0_d_ssbd : Z := 31.
Definition extended_features1_a_lass : Z := 6.
Definition extended_features1_a_fred : Z := 17.
Definition extended_features1_a_lam : Z := 26.
Definition extended_features1_a_cachewarp_mitigation : Z := 30.
Definition extended_features1_d_uintr_timer : Z := 13.
Definition extended_features1_d_user_msr : Z := 15.
Definition extended_features2_d_psfd : Z := 0.
Definition extended_features2_d_ipred_ctrl : Z := 1.
Definition extended_features2_d_rrsba_ctrl : Z := 2.
Definition extended_features2_d_ddpd_u : Z := 3.
Definition extended_features2_d_bhi_ctrl : Z := 4.
Definition extended_sig_d_rdtscp : Z := 27.
Definition ia32_arch_capabilities_ibrs_all : Z := 1.
Definition ia32_arch_capabilities_skip_l1dfl_vmentry : Z := 3.
Definition ia32_arch_capabilities_doitm : Z := 12.
Definition ia32_arch_capabilities_fb_clear : Z := 17.
Definition ia32_arch_capabilities_fb_clear_ctrl : Z := 18.
Definition ia32_arch_capabilities_xapic_disable_status : Z := 21.
Definition ia32_arch_capabilities_gds_ctrl : Z := 25.
Definition ia32_arch_capabilities_mon_umon_mitg_support : Z := 30.
Definition ia32_arch_capabilities_pbopt_supported : Z := 32.
Definition ia32_spec_ctrl_ibrs : Z := 0.
Definition ia32_spec_ctrl_stibp : Z := 1.
Definition ia32_spec_ctrl_ssbd : Z := 2.
Definition ia32_spec_ctrl_ipred_dis_u : Z := 3.
Definition ia32_spec_ctrl_ipred_dis_s : Z := 4.
Definition ia32_spec_ctrl_rrsba_dis_u : Z := 5.
Definition ia32_spec_ctrl_rrsba_dis_s : Z := 6.
Definition ia32_spec_ctrl_psfd : Z := 7.
Definition ia32_spec_ctrl_ddpd_u : Z := 8.
Definition ia32_spec_ctrl_bhi_dis_s : Z := 10.
Definition ia32_mcu_opt_ctrl_gds_mit_locked : Z := 5.
Definition ia32_mcu_opt_ctrl_mon_umon_mit : Z := 7.
Definition ia32_feature_control_locked : Z := 0.
Definition ia32_feature_control_vmx_inside_smx : Z := 1.
Definition ia32_feature_control_vmx_outside_smx : Z := 2.
Definition ia32_feature_control_senter_local_enables : Z := 8.
Definition ia32_feature_control_senter_global_enable : Z := 15.
Definition ia32_vmx_basic_defaults_to_one_clear : Z := 55.
Definition ia32_vmx_ept_vpid_cap_pagewalk_len_4_supported : Z := 6.
Definition ia32_vmx_ept_vpid_cap_pagewalk_len_5_supported : Z := 7.
Definition ia32_vmx_ept_vpid_cap_ept_uc_supported : Z := 8.
Definition ia32_vmx_ept_vpid_cap_ept_wb_supported : Z := 14.
Definition ia32_vmx_ept_vpid_cap_pde_2mb_page_supported : Z := 16.
Definition ia32_vmx_ept_vpid_cap_pdpte_1gb_page_supported : Z := 17.
Definition ia32_vmx_ept_vpid_cap_ept_accessed_dirty_supported : Z := 21.
Definition ia32_vmx_ept_vpid_cap_single_ctx_invvpid_supported : Z := 41.
Definition ia32_mcg_cap_mcp_cmci_present : Z := 10.
Definition ia32_mcg_cap_mcg_lmce_present : Z := 27.

Definition CPUID_PTM : Z := 6.
Definition CPUID_ARCH_PERFMON : Z := 0x0A.
Definition CPUID_TSC_CORE_CRYSTAL : Z := 0x15.
Definition CPUID_CORE_FREQUENCY : Z := 0x16.
Definition IA32_SPEC_CTRL : Z := 0x48.
Definition IA32_PBOPT_CTRL : Z := 0xbf.
Definition IA32_UARCH_MISC_CTRL : Z := 0x1b01.
Definition IA32_MCU_OPT_CTRL : Z := 0x123.
Definition IA32_MCG_CAP : Z := 0x179.

(** The bits [len] from [pos] on. *)
Definition field (w pos len : Z) : Z := Z.land (Z.shiftr w pos) (Z.ones len).

Definition reg_a (r : regs4) : Z := let '(a, _, _, _) := r in a.
Definition reg_b (r : regs4) : Z := let '(_, b, _, _) := r in b.
Definition reg_c (r : regs4) : Z := let '(_, _, c, _) := r in c.
Definition reg_d (r : regs4) : Z := let '(_, _, _, d) := r in d.

(** ** What is stored *)

(** [vper_cpu_arch_support_t] *)
Record arch_support := DetectedSupport {
  a_procbased_ctls2 : bool; a_exit_ctls2 : bool; a_wbinvd_exiting : bool;
  a_unrestricted_guest : bool; a_ept : bool; a_vpid : bool; a_ept_ve : bool;
  a_ept_pml5 : bool; a_ept_pml4 : bool; a_ept_2mb : bool; a_ept_1gb : bool; a_ept_wb : bool;
  a_ept_uc : bool; a_ept_accessed_dirty : bool; a_invvpid_single : bool; a_pt_use_gpa : bool;
}.

(** [vper_cpu_sec_flags_t], without the bit of the timer *)
Record vper_cpu_sec_flags_t := SecFlags {
  its_no : bool; ibpb : bool; should_flush_l1d_vmentry : bool; verw_clears_fb : bool;
  sec_sr_bios_done : bool;
}.

(** [vper_cpu_feature_flags_t] *)
Record vper_cpu_feature_flags_t := FeatureFlags {
  ff_mce : bool; ff_umip : bool; ff_la57 : bool; ff_smx : bool; ff_fsgsbase : bool; ff_pcid : bool;
  ff_xsave : bool; ff_kl : bool; ff_smep : bool; ff_smap : bool; ff_pke : bool; ff_cet : bool;
  ff_pks : bool; ff_uintr : bool; ff_lass : bool; ff_lam : bool; ff_fred : bool;
}.

(** [vper_cpu_trap_cache_t] *)
Record vper_cpu_trap_cache_t := TrapCache {
  tc_arch_capabilities_r : bool; tc_feature_control_rw : bool; tc_user_msr : bool;
  tc_uintr_timer : bool; tc_waitpkg : bool; tc_xapic_disable_status : bool; tc_tsc_aux : bool;
  tc_lmce : bool; tc_mpx : bool;
}.

(** [vper_cpu_arch_flags], the numbers of the capability registers *)
Record arch_ctls := ArchCtls {
  ac_revision_id : Z; ac_pinbased : Z; ac_procbased : Z; ac_exit : Z; ac_entry : Z;
}.

(** What [vper_cpu_flags_init] stores for a processor. *)
Record vper_flags := VperFlags {
  feature_flags : vper_cpu_feature_flags_t;
  sec_flags : vper_cpu_sec_flags_t;
  trap_cache : vper_cpu_trap_cache_t;
  arch : arch_ctls;
  arch_sup : arch_support;
  feature_ctrl_low : Z;
  feature_ctrl_high : Z;
}.

(** The mitigations that are configured. *)
Record mitigations := Mitigations {
  CONFIG_MITIGATION_BTI : bool; CONFIG_DISABLE_SSB : bool;
  CONFIG_DISABLE_BRANCH_PREDICTION_S : bool; CONFIG_DISABLE_BRANCH_PREDICTION_U : bool;
  CONFIG_MITIGATION_RETBLEED_S : bool; CONFIG_MITIGATION_RETBLEED_U : bool;
  CONFIG_DISABLE_SSTLF : bool; CONFIG_DISABLE_DDP_U : bool; CONFIG_MITIGATION_BHI : bool;
  CONFIG_MITIGATION_L1TF : bool;
}.

Section Detect.
Context (config : mitigations) (cpuid : Z → Z → regs4) (rdmsr : Z → Z).

(** ** lapic_reconfig *)

Definition LAPIC_CMCI_OFFSET : Z := 0x2f0.
Definition LAPIC_TSR_OFFSET : Z := 0x330.
Definition LAPIC_PMCR_OFFSET : Z := 0x340.
Definition LAPIC_LINT0_OFFSET : Z := 0x350.
Definition LAPIC_LINT1_OFFSET : Z := 0x360.
Definition DM_NORMAL : Z := 0.
Definition DM_NMI : Z := 4.

(** The registers of the local APIC, by offset; those that hold a vector and a
    delivery mode have them at the same place. *)
Definition lapic_read (l : gmap Z Z) (offset : Z) : Z := default 0 (l !! offset).
Definition lapic_write (l : gmap Z Z) (offset val : Z) : gmap Z Z := <[offset := val]> l.
Definition delivery_mode (w : Z) : Z := field w 8 3.
Definition as_normal (w : Z) : Z :=
  Z.lor (clear_fields w [(8, 3); (0, 8)]) (Z.lor (Z.shiftl DM_NORMAL 8) NMI).

Definition reconfig_lvt (offset : Z) (l : gmap Z Z) : gmap Z Z :=
  let w := lapic_read l offset in
  if delivery_mode w =? DM_NMI then lapic_write l offset (as_normal w) else l.

(** The registers, and [trap_cache.lmce]. *)
Definition lapic_reconfig (l : gmap Z Z) : gmap Z Z * bool :=
  let feature_bits_d := reg_d (cpuid CPUID_FEATURE_BITS 0) in
  let ptm_a := reg_a (cpuid CPUID_PTM 0) in
  let arch_perfmon_a := reg_a (cpuid CPUID_ARCH_PERFMON 0) in
  let l := reconfig_lvt LAPIC_LINT1_OFFSET (reconfig_lvt LAPIC_LINT0_OFFSET l) in
  let '(l, lmce) :=
    if Z.testbit feature_bits_d feature_bits_d_mca then
      let mcg_cap := rdmsr IA32_MCG_CAP in
      (if Z.testbit mcg_cap ia32_mcg_cap_mcp_cmci_present then reconfig_lvt LAPIC_CMCI_OFFSET l else l,
       Z.testbit mcg_cap ia32_mcg_cap_mcg_lmce_present)
    else (l, false) in
  let l := if Z.testbit feature_bits_d feature_bits_d_acpi && Z.testbit ptm_a ptm_a_dts
           then reconfig_lvt LAPIC_TSR_OFFSET l else l in
  (if 0 <? field arch_perfmon_a 0 8 then reconfig_lvt LAPIC_PMCR_OFFSET l else l, lmce).

(** ** vper_cpu_flags_init *)

Definition may_be_vulnerable_to_its : bool :=
  let eax := reg_a (cpuid CPUID_FEATURE_BITS 0) in
  let stepping_id := field eax 0 4 in
  if negb (field eax 8 4 =? 6) then false else
  let model_id := field eax 4 4 + Z.shiftl (field eax 16 4) 4 in
  if model_id =? 0x55 then (stepping_id =? 6) || (stepping_id =? 7) || (stepping_id =? 0xb)
  else if model_id =? 0x8e then stepping_id =? 0xc
  else if model_id =? 0x9e then stepping_id =? 0xd
  else if model_id =? 0xa5 then (stepping_id =? 2) || (stepping_id =? 3) || (stepping_id =? 5)
  else if model_id =? 0xa6 then stepping_id <=? 1
  else false.

Definition feature_bits_c : Z := reg_c (cpuid CPUID_FEATURE_BITS 0).
Definition feature_bits_d : Z := reg_d (cpuid CPUID_FEATURE_BITS 0).
Definition ext_features0_b : Z := reg_b (cpuid CPUID_EXTENDED_FEATURES 0).
Definition ext_features0_c : Z := reg_c (cpuid CPUID_EXTENDED_FEATURES 0).
Definition ext_features0_d : Z := reg_d (cpuid CPUID_EXTENDED_FEATURES 0).
Definition ext_features1_a : Z := reg_a (cpuid CPUID_EXTENDED_FEATURES 1).
Definition ext_features1_d : Z := reg_d (cpuid CPUID_EXTENDED_FEATURES 1).
Definition extended_features2_d : Z := reg_d (cpuid CPUID_EXTENDED_FEATURES 2).

Definition arch_capabilities : bool :=
  Z.testbit ext_features0_d extended_features0_d_ia32_arch_capabilities.
Definition caps : Z := rdmsr IA32_ARCH_CAPABILITIES.

Definition spec_ctrl : Z :=
  let d0 := Z.testbit ext_features0_d in
  let d2 := Z.testbit extended_features2_d in
  word_of
    (only (d0 extended_features0_d_ibrs && CONFIG_MITIGATION_BTI config) ia32_spec_ctrl_ibrs ++
     only (d0 extended_features0_d_stibp && CONFIG_MITIGATION_BTI config) ia32_spec_ctrl_stibp ++
     only (d0 extended_features0_d_ssbd && CONFIG_DISABLE_SSB config) ia32_spec_ctrl_ssbd ++
     only (d2 extended_features2_d_ipred_ctrl && CONFIG_DISABLE_BRANCH_PREDICTION_S config)
       ia32_spec_ctrl_ipred_dis_s ++
     only (d2 extended_features2_d_ipred_ctrl && CONFIG_DISABLE_BRANCH_PREDICTION_U config)
       ia32_spec_ctrl_ipred_dis_u ++
     only (d2 extended_features2_d_rrsba_ctrl && CONFIG_MITIGATION_RETBLEED_S config)
       ia32_spec_ctrl_rrsba_dis_s ++
     only (d2 extended_features2_d_rrsba_ctrl && CONFIG_MITIGATION_RETBLEED_U config)
       ia32_spec_ctrl_rrsba_dis_u ++
     only (d2 extended_features2_d_psfd && CONFIG_DISABLE_SSTLF config) ia32_spec_ctrl_psfd ++
     only (d2 extended_features2_d_ddpd_u && CONFIG_DISABLE_DDP_U config) ia32_spec_ctrl_ddpd_u ++
     only (d2 extended_features2_d_bhi_ctrl && CONFIG_MITIGATION_BHI config) ia32_spec_ctrl_bhi_dis_s).

Definition mcu_opt_ctrl : Z :=
  word_of (only (arch_capabilities && Z.testbit caps ia32_arch_capabilities_gds_ctrl)
             ia32_mcu_opt_ctrl_gds_mit_locked ++
           only (arch_capabilities && Z.testbit caps ia32_arch_capabilities_mon_umon_mitg_support)
             ia32_mcu_opt_ctrl_mon_umon_mit).

Definition sec_flags_init : vper_cpu_sec_flags_t :=
  let cap := Z.testbit caps in
  SecFlags
    (arch_capabilities && cap ia32_arch_capabilities_ibrs_all && negb may_be_vulnerable_to_its)
    (Z.testbit ext_features0_d extended_features0_d_ibrs && CONFIG_MITIGATION_BTI config)
    (Z.testbit ext_features0_d extended_features0_d_l1d_flush && CONFIG_MITIGATION_L1TF config &&
     negb (arch_capabilities && cap ia32_arch_capabilities_skip_l1dfl_vmentry))
    (arch_capabilities && cap ia32_arch_capabilities_fb_clear)
    (Z.testbit ext_features1_a extended_features1_a_cachewarp_mitigation).

Definition feature_flags_init : vper_cpu_feature_flags_t :=
  let b0 := Z.testbit ext_features0_b in
  let c0 := Z.testbit ext_features0_c in
  let a1 := Z.testbit ext_features1_a in
  {| ff_mce := Z.testbit feature_bits_d feature_bits_d_mce;
     ff_umip := c0 extended_features0_c_umip; ff_la57 := c0 extended_features0_c_la57;
     ff_smx := Z.testbit feature_bits_c feature_bits_c_smx;
     ff_fsgsbase := b0 extended_features0_b_fsgsbase;
     ff_pcid := Z.testbit feature_bits_c feature_bits_c_pcid;
     ff_xsave := Z.testbit feature_bits_c feature_bits_c_xsave;
     ff_kl := c0 extended_features0_c_kl; ff_smep := b0 extended_features0_b_smep;
     ff_smap := b0 extended_features0_b_smap; ff_pke := c0 extended_features0_c_pku;
     ff_cet := c0 extended_features0_c_cet; ff_pks := false;
     ff_uintr := Z.testbit ext_features0_d extended_features0_d_uintr;
     ff_lass := a1 extended_features1_a_lass; ff_lam := a1 extended_features1_a_lam;
     ff_fred := a1 extended_features1_a_fred |}.

(** [vcache.trap_cache]; [rdtscp] is read from the 0 the variable starts with,
    the leaf [CPUID_EXTENDED_SIG] is not asked for. *)
Definition trap_cache_init (lmce : bool) : vper_cpu_trap_cache_t :=
  let c0 := Z.testbit ext_features0_c in
  {| tc_arch_capabilities_r := arch_capabilities;
     tc_feature_control_rw := c0 extended_features0_c_sgx_lc ||
       Z.testbit ext_features0_b extended_features0_b_sgx || lmce;
     tc_user_msr := Z.testbit ext_features1_d extended_features1_d_user_msr;
     tc_uintr_timer := Z.testbit ext_features1_d extended_features1_d_uintr_timer;
     tc_waitpkg := c0 extended_features0_c_waitpkg;
     tc_xapic_disable_status :=
       arch_capabilities && Z.testbit caps ia32_arch_capabilities_xapic_disable_status;
     tc_tsc_aux :=
       if c0 extended_features0_c_rdpid then true else Z.testbit 0 extended_sig_d_rdtscp;
     tc_lmce := lmce;
     tc_mpx := Z.testbit ext_features0_b extended_features0_b_mpx |}.

(** What the guest reads of IA32_FEATURE_CONTROL, and its two halves. *)
Definition via32_feature_ctrl : Z :=
  Z.lor (clear_fields (rdmsr IA32_FEATURE_CONTROL)
           [ (ia32_feature_control_vmx_inside_smx, 1); (ia32_feature_control_vmx_outside_smx, 1);
             (ia32_feature_control_senter_global_enable, 1);
             (ia32_feature_control_senter_local_enables, 7) ])
    (word_of [ia32_feature_control_locked]).
Definition via32_feature_ctrl_low : Z := Z.land via32_feature_ctrl 0xffffffff.
Definition via32_feature_ctrl_high : Z := wrap 32 (Z.shiftr via32_feature_ctrl 32).

Definition arch_ctls_init : arch_ctls :=
  let basic := rdmsr IA32_VMX_BASIC in
  let revision_id := field basic 0 31 in
  if Z.testbit basic ia32_vmx_basic_defaults_to_one_clear then
    ArchCtls revision_id IA32_VMX_TRUE_PINBASED_CTLS IA32_VMX_TRUE_PROCBASED_CTLS
      IA32_VMX_TRUE_EXIT_CTLS IA32_VMX_TRUE_ENTRY_CTLS
  else
    ArchCtls revision_id IA32_VMX_PINBASED_CTLS IA32_VMX_PROCBASED_CTLS
      IA32_VMX_EXIT_CTLS IA32_VMX_ENTRY_CTLS.

Definition arch_support_init : arch_support :=
  let proc2_present := Z.testbit (rdmsr IA32_VMX_PROCBASED_CTLS) 63 in
  let proc2 := Z.testbit (rdmsr IA32_VMX_PROCBASED_CTLS2) in
  let ept := proc2_present && proc2 33 in
  let vpid := proc2_present && proc2 37 in
  let ept_cap bit := (ept || vpid) && Z.testbit (rdmsr IA32_VMX_EPT_VPID_CAP) bit in
  {| a_procbased_ctls2 := proc2_present;
     a_exit_ctls2 := Z.testbit (rdmsr IA32_VMX_EXIT_CTLS) 63;
     a_wbinvd_exiting := proc2_present && proc2 38;
     a_unrestricted_guest := proc2_present && proc2 39;
     a_ept := ept; a_vpid := vpid; a_ept_ve := proc2_present && proc2 50;
     a_ept_pml5 := ept_cap ia32_vmx_ept_vpid_cap_pagewalk_len_5_supported;
     a_ept_pml4 := ept_cap ia32_vmx_ept_vpid_cap_pagewalk_len_4_supported;
     a_ept_2mb := ept_cap ia32_vmx_ept_vpid_cap_pde_2mb_page_supported;
     a_ept_1gb := ept_cap ia32_vmx_ept_vpid_cap_pdpte_1gb_page_supported;
     a_ept_wb := ept_cap ia32_vmx_ept_vpid_cap_ept_wb_supported;
     a_ept_uc := ept_cap ia32_vmx_ept_vpid_cap_ept_uc_supported;
     a_ept_accessed_dirty := ept_cap ia32_vmx_ept_vpid_cap_ept_accessed_dirty_supported;
     a_invvpid_single := ept_cap ia32_vmx_ept_vpid_cap_single_ctx_invvpid_supported;
     a_pt_use_gpa := (ept || vpid) && proc2 56 |}.

(** The writes of registers, in their order; IA32_FEATURE_CONTROL is written as
    it was read. *)
Definition flags_writes : list (Z * Z) :=
  let feature_control := rdmsr IA32_FEATURE_CONTROL in
  (if spec_ctrl =? 0 then [] else [(IA32_SPEC_CTRL, spec_ctrl)]) ++
  (if arch_capabilities && Z.testbit caps ia32_arch_capabilities_doitm
   then [(IA32_UARCH_MISC_CTRL, 1)] else []) ++
  (if arch_capabilities && Z.testbit caps ia32_arch_capabilities_pbopt_supported
   then [(IA32_PBOPT_CTRL, 1)] else []) ++
  (if mcu_opt_ctrl =? 0 then [] else [(IA32_MCU_OPT_CTRL, mcu_opt_ctrl)]) ++
  (if Z.testbit feature_control ia32_feature_control_locked then []
   else [(IA32_FEATURE_CONTROL, feature_control)]).

Definition vper_cpu_flags_init (lmce : bool) : vper_flags * list (Z * Z) :=
  (VperFlags feature_flags_init sec_flags_init (trap_cache_init lmce) arch_ctls_init
     arch_support_init via32_feature_ctrl_low via32_feature_ctrl_high,
   flags_writes).

(** ** The frequencies of vper_cpu_data_init *)

(** What is measured where cpuid does not tell: the counter's frequency if
    there is one, the ticks of the time-stamp counter and of the counter, and
    the count of the local APIC's timer after the calibration. *)
Record measured := Measured {
  counter_frequency_hz : option Z;
  tsc_delta : Z;
  counter_delta : Z;
  lapic_cur : Z;
}.

Definition u64 (z : Z) : Z := wrap 64 z.
Definition udiv (a b : Z) : res Z := if b =? 0 then Fault FDivide else Ok (a / b).

Definition DIV_16 : Z := 3.
Definition VSCHED_LAPIC_DCR : Z := DIV_16.
(** The divisor that an encoding of the divide configuration stands for. *)
Definition lapic_divisor (dcr : Z) : option Z :=
  if dcr =? 0 then Some 2 else if dcr =? 1 then Some 4 else if dcr =? 2 then Some 8
  else if dcr =? 3 then Some 16 else if dcr =? 8 then Some 32 else if dcr =? 9 then Some 64
  else if dcr =? 10 then Some 128 else if dcr =? 11 then Some 1 else None.
Definition calibrate_lapic_timer (cur ms dcr : Z) : res Z :=
  let lapic_ticks := 0xffffffff - Z.land cur 0xffffffff in
  match lapic_divisor dcr with
  | None => Fault FAssert
  | Some divisor => udiv (u64 (lapic_ticks * 1000 * divisor)) ms
  end.

(** Ticks per second of the time-stamp counter and of the APIC's timer. *)
Definition base_frequencies (m : measured) : res (Z * Z) :=
  let '(a, b, c, _) := cpuid CPUID_TSC_CORE_CRYSTAL 0 in
  if negb (a =? 0) && negb (b =? 0) && negb (c =? 0)
  then Ok (wrap 32 (c * (b / a)), c / VSCHED_LAPIC_DCR) else
  let frequency_mhz := field (reg_a (cpuid CPUID_CORE_FREQUENCY 0)) 0 16 in
  let* tsc :=
    if frequency_mhz =? 0 then
      match counter_frequency_hz m with
      | None => Ok 0
      | Some hz => if hz =? 0 then Fault FAssert else udiv (u64 (tsc_delta m * hz)) (counter_delta m)
      end
    else Ok (frequency_mhz * 1000000) in
  let* lapic := calibrate_lapic_timer (lapic_cur m) 10 VSCHED_LAPIC_DCR in
  Ok (tsc, lapic).

Record frequencies := Frequencies {
  fr_tsc_hz : Z; fr_tsc_fs : Z; fr_preempt_hz : Z; fr_preempt_fs : Z; fr_lapic_hz : Z; fr_lapic_fs : Z;
}.
Definition FEMTOSECOND : Z := 10 ^ 15.

(** [1 << shift] of an int, as an unsigned factor. *)
Definition preempt_divisor (shift : Z) : Z := u64 (if shift =? 31 then - 2 ^ 31 else 2 ^ shift).

(** [None]: a frequency is 0, and the processor is not supported. *)
Definition frequencies_init (m : measured) : res (option frequencies) :=
  let* base := base_frequencies m in
  let '(tsc, lapic) := base in
  if (tsc =? 0) || (lapic =? 0) then Ok None else
  let* preempt := udiv tsc (preempt_divisor (field (rdmsr IA32_VMX_MISC) 0 5)) in
  let* preempt_fs := udiv FEMTOSECOND preempt in
  Ok (Some (Frequencies tsc (FEMTOSECOND / tsc) preempt preempt_fs lapic (FEMTOSECOND / lapic))).
End Detect.

(** ** What the rest of the hypervisor goes by *)

Definition features_of (d : vper_flags) : vfeatures :=
  let f := feature_flags d in
  Vfeatures (ff_umip f) (ff_la57 f) (ff_fsgsbase f) (ff_pcid f) (ff_kl f) (ff_smep f) (ff_smap f)
    (ff_pke f) (ff_cet f) (ff_pks f) (ff_lass f) (ff_lam f).
Definition bflags_of (d : vper_flags) (x2apic : bool) : vboot_flags :=
  let f := feature_flags d in
  let t := trap_cache d in
  let a := arch d in
  VbootFlags (ff_mce f) (ff_smx f) (ff_xsave f) (ff_uintr f) (ff_fred f)
    (tc_user_msr t) (tc_uintr_timer t) (tc_waitpkg t) (tc_xapic_disable_status t) (tc_tsc_aux t)
    (tc_mpx t) (sec_sr_bios_done (sec_flags d)) (a_procbased_ctls2 (arch_sup d))
    (a_exit_ctls2 (arch_sup d)) x2apic (ac_revision_id a) (ac_pinbased a) (ac_procbased a)
    (ac_exit a) (ac_entry a).
Definition support_of (d : vper_flags) (msr_area_max : Z) : vper_cpu_arch_support_t :=
  let a := arch_sup d in
  ArchSupport (a_unrestricted_guest a) (a_ept a) (a_vpid a) (a_ept_ve a) (a_invvpid_single a)
    msr_area_max.
Definition info_of (d : vper_flags) (fr : frequencies) : vinfo_flags :=
  let a := arch_sup d in
  VinfoFlags (tc_arch_capabilities_r (trap_cache d)) (tc_feature_control_rw (trap_cache d))
    (a_wbinvd_exiting a) (a_ept_pml4 a) (a_ept_pml5 a) (a_ept_2mb a) (a_ept_1gb a) (a_ept_wb a)
    (a_ept_uc a) (a_ept_accessed_dirty a) (a_pt_use_gpa a)
    (fr_lapic_hz fr) (fr_lapic_fs fr) (fr_preempt_hz fr) (fr_preempt_fs fr).

(** ** What is detected can be had *)

Lemma adjusted_set cap bits bit :
  Forall (fun b => 0 <= b < 32) bits → 0 <= bit < 32 →
  Z.testbit (adjusted cap (word_of bits)) bit =
  (bool_decide (bit ∈ bits) || forced cap bit) && allowed cap bit.
Proof.
  intros Hb Hi. rewrite adjusted_bit, word_of_bit; [done| |done].
  eapply Forall_impl; [exact Hb|]. intros b [? _]. done.
Qed.

(** ** No NMI from the local APIC *)

Lemma as_normal_mode w : delivery_mode (as_normal w) = DM_NORMAL.
Proof.
  apply Z.bits_inj'. intros n Hn. unfold delivery_mode, field, as_normal, clear_fields, clear_field. cbn [fold_left fst snd].
  change (Z.shiftl DM_NORMAL 8) with 0. change (Z.ones 3) with 7. change (Z.shiftl (Z.ones 8) 0) with 255.
  rewrite Z.land_spec, Z.shiftr_spec, Z.lor_spec, Z.lor_spec, !Z.ldiff_spec, Z.shiftl_spec, Z.bits_0 by lia.
  destruct (decide (n < 3)).
  - replace (n + 8 - 8) with n by lia. assert (n = 0 ∨ n = 1 ∨ n = 2) as [-> | [-> | ->]] by lia;
      rewrite !andb_false_r; reflexivity.
  - rewrite (Z.bits_above_log2 7 n) by (cbn; lia). rewrite andb_false_r. unfold DM_NORMAL. by rewrite Z.bits_0.
Qed.

Lemma reconfig_lvt_reads offset l o :
  lapic_read (reconfig_lvt offset l) o =
  if bool_decide (o = offset ∧ delivery_mode (lapic_read l offset) = DM_NMI)
  then as_normal (lapic_read l offset) else lapic_read l o.
Proof.
  unfold reconfig_lvt, lapic_write. destruct (Z.eqb_spec (delivery_mode (lapic_read l offset)) DM_NMI) as [E|E].
  - destruct (decide (o = offset)) as [->|Hne].
    + rewrite bool_decide_true by done. unfold lapic_read at 1. by rewrite lookup_insert_eq.
    + rewrite bool_decide_false by naive_solver. unfold lapic_read. by rewrite lookup_insert_ne.
  - by rewrite bool_decide_false by naive_solver.
Qed.

(** The LVT entries [os] deliver no NMI, and every entry is as in [l] or, where
    it delivered one, as [as_normal] makes it. *)
Definition lvt_reconfigured (os : list Z) (l l' : gmap Z Z) : Prop :=
  (∀ o, o ∈ os → delivery_mode (lapic_read l' o) ≠ DM_NMI) ∧
  ∀ o, lapic_read l' o = lapic_read l o ∨
    (delivery_mode (lapic_read l o) = DM_NMI ∧ lapic_read l' o = as_normal (lapic_read l o)).

Lemma reconfig_step offset os l l' :
  lvt_reconfigured os l l' → lvt_reconfigured (offset :: os) l (reconfig_lvt offset l').
Proof.
  intros [H1 H2]. split; intros o.
  - rewrite reconfig_lvt_reads. intros Ho. case_bool_decide as E.
    + rewrite as_normal_mode. done.
    + intros Em. apply elem_of_cons in Ho as [->|Ho]; [by apply E|by apply (H1 o)].
  - rewrite reconfig_lvt_reads. case_bool_decide as E; [|apply H2]. destruct E as [-> Em]. right.
    destruct (H2 offset) as [Eo|[_ Eo]]; rewrite Eo in *; [done|]. by rewrite as_normal_mode in Em.
Qed.

Lemma reconfig_when (c : bool) offset os l l' :
  lvt_reconfigured os l l' →
  lvt_reconfigured (only c offset ++ os) l (if c then reconfig_lvt offset l' else l').
Proof. destruct c; [apply reconfig_step|done]. Qed.

(** The entries a processor has: both lints, and what cpuid reports. *)
Definition lvt_present (cpuid : Z → Z → regs4) (rdmsr : Z → Z) : list Z :=
  let d := reg_d (cpuid CPUID_FEATURE_BITS 0) in
  only (0 <? field (reg_a (cpuid CPUID_ARCH_PERFMON 0)) 0 8) LAPIC_PMCR_OFFSET ++
  only (Z.testbit d feature_bits_d_acpi && Z.testbit (reg_a (cpuid CPUID_PTM 0)) ptm_a_dts) LAPIC_TSR_OFFSET ++
  only (Z.testbit d feature_bits_d_mca && Z.testbit (rdmsr IA32_MCG_CAP) ia32_mcg_cap_mcp_cmci_present)
    LAPIC_CMCI_OFFSET ++
  [LAPIC_LINT1_OFFSET; LAPIC_LINT0_OFFSET].

(** No local interrupt of the processor is delivered as an NMI afterwards. *)
Theorem lapic_reconfig_no_nmi cpuid rdmsr l :
  lvt_reconfigured (lvt_present cpuid rdmsr) l (fst (lapic_reconfig cpuid rdmsr l)).
Proof.
  assert (lvt_reconfigured [] l l) as H0.
  { split; [by intros o Ho%elem_of_nil|]. intros o. by left. }
  apply (reconfig_step LAPIC_LINT0_OFFSET), (reconfig_step LAPIC_LINT1_OFFSET) in H0.
  unfold lapic_reconfig, lvt_present. cbv zeta.
  destruct (Z.testbit (reg_d _) feature_bits_d_mca); cbn [fst andb].
  - by apply reconfig_when, reconfig_when, reconfig_when.
  - by apply reconfig_when, reconfig_when, (reconfig_when false 0).
Qed.

(** ** Frequencies *)

(** Where cpuid tells the frequency of the crystal, the timer's is taken to be
    a third of it: the encoding [DIV_16] is 3, the divisor 16.  The product for
    the time-stamp counter is one of 32 bits. *)
Theorem crystal_frequencies cpuid m a b c d :
  cpuid CPUID_TSC_CORE_CRYSTAL 0 = (a, b, c, d) → a ≠ 0 → b ≠ 0 → c ≠ 0 →
  base_frequencies cpuid m = Ok (wrap 32 (c * (b / a)), c / 3) ∧
  lapic_divisor VSCHED_LAPIC_DCR = Some 16.
Proof.
  intros E Ha Hb Hc. unfold base_frequencies. rewrite E.
  by rewrite !(proj2 (Z.eqb_neq _ _)) by done.
Qed.

Section Support.
Context (cpuid : Z → Z → regs4) (rdmsr : Z → Z).

(** A feature that is detected is a control the processor allows. *)
Lemma support_is_allowed :
  let a := arch_support_init rdmsr in
  let proc2 := allowed (rdmsr IA32_VMX_PROCBASED_CTLS2) in
  (a_procbased_ctls2 a = true →
     allowed (rdmsr IA32_VMX_PROCBASED_CTLS) proc_activate_secondary_controls = true) ∧
  (a_ept a = true → a_procbased_ctls2 a = true ∧ proc2 proc2_enable_ept = true) ∧
  (a_unrestricted_guest a = true → proc2 proc2_unrestricted_guest = true) ∧
  (a_vpid a = true → proc2 proc2_enable_vpid = true) ∧
  (a_ept_ve a = true → proc2 proc2_ept_violation_ve = true).
Proof.
  cbn [arch_support_init a_procbased_ctls2 a_ept a_unrestricted_guest a_vpid a_ept_ve].
  split; [done|]. rewrite !andb_true_iff. tauto.
Qed.
End Support.

Section Accepted.
Context (conf : vptr → vcpu_conf) (pconf : Z → vpartition_conf) (config : mitigations).
Context (cpuid : Z → Z → Z → regs4) (rdmsr : Z → Z → Z) (lmce x2apic : Z → bool).
Context (fr : Z → frequencies) (msr_area_max : Z) (vmclear_ok vmptrld_ok : vptr → bool).
Context (host : Z → vhost) (vexit_stack : vptr → Z) (vlaunch_cs : vptr → Z) (ept_base_phys : Z → Z).

(** What was found out about a processor, and the parameters of the other files
    that it gives. *)
Definition detected (c : Z) : vper_flags :=
  fst (vper_cpu_flags_init config (cpuid c) (rdmsr c) (lmce c)).
Definition det_support (c : Z) : vper_cpu_arch_support_t := support_of (detected c) msr_area_max.
Definition det_bflags (c : Z) : vboot_flags := bflags_of (detected c) (x2apic c).
Definition det_features (c : Z) : vfeatures := features_of (detected c).
Definition det_flags (c : Z) : vinfo_flags := info_of (detected c) (fr c).

Local Abbreviation entry := (vcpu_entry conf pconf det_support det_flags det_bflags det_features
                               vmclear_ok vmptrld_ok host vexit_stack rdmsr vlaunch_cs ept_base_phys).
Local Abbreviation fields := (vcpu_fields conf pconf det_support det_flags det_bflags det_features
                                host vexit_stack rdmsr vlaunch_cs ept_base_phys).

(** The two words of controls, where there are secondary ones. *)
Lemma fields_proc this v p F :
  a_procbased_ctls2 (arch_sup (detected this)) = true →
  write_all F (fields this v p) !! VMCS_CTRL_PROCBASED_CTLS =
    Some (adjusted (rdmsr this (ia32_vmx_procbased_ctls (det_bflags this))) proc_ctls) ∧
  write_all F (fields this v p) !! VMCS_CTRL_PROCBASED_CTLS2 =
    Some (adjusted (rdmsr this IA32_VMX_PROCBASED_CTLS2)
            (proc2_ctls (vpid_enabled (conf v)) (ept_ve (conf v)))).
Proof.
  intros H2. split; [field_of|]. rewrite write_all_lookup.
  unfold vcpu_fields, setup_ctrls, setup_bitmaps, setup_ept.
  change (procbased_ctls2 (det_bflags this)) with (a_procbased_ctls2 (arch_sup (detected this))).
  rewrite H2, !last_write_app. rewrite ?last_write_when by reflexivity. reflexivity.
Qed.

(** The controls of a vcpu whose processor has what [vcpu_precheck] asks for. *)
Lemma proc2_bit cap vpid_on ve_on bit :
  bit ∈ [proc2_enable_ept; proc2_unrestricted_guest] ++ only vpid_on proc2_enable_vpid ++
    only ve_on proc2_ept_violation_ve →
  allowed cap bit = true → Z.testbit (adjusted cap (proc2_ctls vpid_on ve_on)) bit = true.
Proof.
  intros Hin Ha. unfold proc2_ctls. rewrite adjusted_set, Ha, andb_true_r.
  - rewrite bool_decide_true; [done|]. revert Hin. rewrite !elem_of_app.
    intros [H|[H|H]]; [|by eauto|by eauto].
    apply elem_of_cons in H as [->|H]; [right; right; left; by repeat constructor|].
    apply list_elem_of_singleton in H as ->. do 4 right. left.
  - unfold only. destruct vpid_on, ve_on; by repeat constructor.
  - revert Hin. unfold only. destruct vpid_on, ve_on; revert bit Ha; intros bit _ H;
      repeat (apply elem_of_cons in H as [-> | H]; [done|]); by apply elem_of_nil in H.
Qed.

(** C7. A vcpu that the creation of its partition accepted, first entered on
    its processor, runs with the secondary controls active, behind the tables
    of its partition and as an unrestricted guest, with a virtual processor
    id and with virtualised EPT violations if it asked for them: what
    [vper_cpu_flags_init] detects, what [vcpu_precheck] demands and what
    [vcpu_entry] writes agree. *)
Theorem accepted_vcpus_are_isolated v s0 s0' x0 s x b :
  vcpu_precheck conf det_support v s0 = Ok (0, s0') → h_vcpus s0 !! v = Some x0 →
  starting vmclear_ok vmptrld_ok s v x b → vqueue_id x0 = h_this (b_hv s) →
  let this := h_this (b_hv s) in
  (Z.testbit (rdmsr this IA32_VMX_BASIC) ia32_vmx_basic_defaults_to_one_clear = true →
   allowed (rdmsr this IA32_VMX_TRUE_PROCBASED_CTLS) proc_activate_secondary_controls =
   allowed (rdmsr this IA32_VMX_PROCBASED_CTLS) proc_activate_secondary_controls) →
  ∃ s1 w1 w2, entry s = in_hv (__venter conf vmptrld_ok) s1 ∧
    fields_of_vmcs s1 v !! VMCS_CTRL_PROCBASED_CTLS = Some w1 ∧
    Z.testbit w1 proc_activate_secondary_controls = true ∧
    fields_of_vmcs s1 v !! VMCS_CTRL_PROCBASED_CTLS2 = Some w2 ∧
    Z.testbit w2 proc2_enable_ept = true ∧ Z.testbit w2 proc2_unrestricted_guest = true ∧
    (vpid_enabled (conf v) = true → Z.testbit w2 proc2_enable_vpid = true) ∧
    (ept_ve (conf v) = true → Z.testbit w2 proc2_ept_violation_ve = true) ∧
    fields_of_vmcs s1 v !! VMCS_CTRL_EPTP =
      Some (eptp_t (ept_caching_policy (pconf (vpartition_addr x)))
              (if a_ept_pml5 (arch_sup (detected this)) then 4 else 3)
              (a_ept_accessed_dirty (arch_sup (detected this))) (ept_base_phys (vpartition_addr x))).
Proof.
  intros Hpre Hx0 Hs Hq this Htrue.
  apply vcpu_precheck_sound in Hpre as (_ & y & Hy & Hv). rewrite Hx0 in Hy. injection Hy as <-.
  destruct (vs_isolated _ _ _ _ _ Hv) as [Hug Hept]. pose proof (vs_vpid _ _ _ _ _ Hv) as Hvpid.
  pose proof (vs_ve _ _ _ _ _ Hv) as Hve. rewrite Hq in Hug, Hept, Hvpid, Hve. fold this in Hug, Hept, Hvpid, Hve.
  destruct (support_is_allowed (rdmsr this)) as (A1 & A2 & A3 & A4 & A5).
  destruct (A2 Hept) as [H2 Aept].
  destruct (entry_enters conf pconf det_support det_flags det_bflags det_features vmclear_ok vmptrld_ok host
    vexit_stack rdmsr vlaunch_cs ept_base_phys s v x b Hs) as (s1 & F & E & HF & [Hp _ _ _ _ _ _]).
  destruct (fields_proc this v (vpartition_addr x) F H2) as [Hw1 Hw2]. fold this in HF. rewrite <- HF in Hw1, Hw2.
  eexists s1, _, _. split; [exact E|]. split; [exact Hw1|]. split.
  { unfold proc_ctls. rewrite adjusted_set by (done || by repeat constructor).
    replace (allowed _ _) with true; [done|]. symmetry.
    change (ia32_vmx_procbased_ctls (det_bflags this)) with (ac_procbased (arch_ctls_init (rdmsr this))).
    unfold arch_ctls_init. destruct (Z.testbit _ _) eqn:Eb; cbn [ac_procbased]; [rewrite Htrue by done|]; by apply A1. }
  split; [exact Hw2|]. split_and!.
  - apply proc2_bit; [left|exact Aept].
  - apply proc2_bit; [right; left|by apply A3].
  - intros Ev. rewrite Ev. apply proc2_bit; [right; right; left|]. apply A4, (Hvpid Ev).
  - intros Ev. rewrite Ev. apply proc2_bit; [|by apply A5, Hve]. rewrite !elem_of_app. right. right. left.
  - apply Hp.
Qed.
End Accepted.
