(* ===== verification/Vmain.v ===== *)
(** * Vmain: the hypervisor starts

    Models src/src/subsys/twanvisor/vmain.c: the static data, [vkernel_init],
    [root_partition_init], [vper_cpu_data_init], [root_vcpu_init],
    [__do_virtualise_core] and [__start_twanvisor], with the descriptors of
    segments and interrupts they build and read.  What is detected of a
    processor is in Vdetect.

    Each processor is virtualised in turn, as [ipi_run_func] with [wait] does;
    a processor's registers, the answers of its VMX instructions and the
    addresses of the program are parameters.  Where the processor is launched
    the code goes on as the root's guest.

    The main theorem is that the start establishes what the theorems about the
    running hypervisor assume: the consistency of table, routes and ids, a
    root vcpu running on each processor, and nothing locked. *)

From S2P Require Import Prelude Std Bmp Dq DeltaChain SchedDsa Twan VschedDsa Vpartition Vutils.
From S2P Require Import Vrecovery Vsched Vemu Vcreate Vcalls Vtimers Vcreation Venter Visr Vinfo Vexit.
From S2P Require Import Vroutes Vconfine Vmcs Vboot Vdetect.
From coqutil Require Import Datatypes.RecordSetters.
From Stdlib Require Import ZArith Lia Bool.
From stdpp Require Import base gmap list numbers sets.

Local Open Scope Z_scope.

(** ** Descriptors *)

(** [struct gdt_descriptor64], as far as it is set and read. *)
Record gdt_descriptor64 := GdtDescriptor64 {
  limit_low : Z; base_low : Z; base_mid : Z; segment_type : Z; descriptor_type : Z; present : bool;
  limit_high : Z; base_high : Z;
  base_upper : Z;
}.
Definition TSS_AVAILABLE : Z := 0x9.
Definition TSS_BUSY : Z := 0xb.

Definition tss_descriptor (tss_base tss_limit : Z) : gdt_descriptor64 :=
  {| base_low := Z.land tss_base 0xffff; base_mid := Z.land (Z.shiftr tss_base 16) 0xff;
     base_high := Z.land (Z.shiftr tss_base 24) 0xff; base_upper := wrap 32 (Z.shiftr tss_base 32);
     limit_low := Z.land tss_limit 0xffff; limit_high := wrap 4 (Z.shiftr tss_limit 16);
     present := true; segment_type := TSS_AVAILABLE; descriptor_type := 0 |}.

(** A value of 32 bits as an int, widened to 64. *)
Definition sext32 (x : Z) : Z := if Z.testbit x 31 then x + (2 ^ 64 - 2 ^ 32) else x.

(** [__segment_base]; [base_high << 24] is an int. *)
Definition __segment_base (desc : gdt_descriptor64) : Z :=
  if negb (present desc) then 0 else
  let base := sext32 (Z.lor (Z.lor (Z.shiftl (base_high desc) 24) (Z.shiftl (base_mid desc) 16)) (base_low desc)) in
  if (descriptor_type desc =? 0) &&
     ((segment_type desc =? TSS_AVAILABLE) || (segment_type desc =? TSS_BUSY))
  then Z.lor base (Z.shiftl (base_upper desc) 32) else base.

(** [struct idt_descriptor64] *)
Record idt_descriptor64 := IdtDescriptor64 {
  offset_low : Z; selector : Z; ist : Z; gate_type : Z; gate_present : bool;
  offset_mid : Z; offset_high : Z;
}.
Definition INTERRUPT_GATE64 : Z := 0xe.
Definition VIST_NMI : Z := 1.
Definition VIST_DF : Z := 2.
Definition VIST_MCE : Z := 3.
Definition VIST_NORMAL : Z := 4.

Definition ist_entry (i : Z) : Z :=
  if i =? NMI then VIST_NMI else if i =? DOUBLE_FAULT then VIST_DF
  else if i =? MACHINE_CHECK then VIST_MCE else VIST_NORMAL.
Definition idt_gate (i entry : Z) : idt_descriptor64 :=
  {| ist := ist_entry i; gate_type := INTERRUPT_GATE64; gate_present := true; selector := VKERNEL_CS;
     offset_low := Z.land entry 0xffff; offset_mid := Z.land (Z.shiftr entry 16) 0xffff;
     offset_high := wrap 32 (Z.shiftr entry 32) |}.
(** Where the processor goes through a gate. *)
Definition gate_offset (g : idt_descriptor64) : Z :=
  offset_low g + Z.shiftl (offset_mid g) 16 + Z.shiftl (offset_high g) 32.

(** ** The state *)

(** [struct per_cpu] of the kernel, as far as it is read and set here. *)
Record kcpu := Kcpu {
  k_enabled : bool; k_vmx : bool; k_bsp : bool;
  k_lapic_id : Z; k_acpi_uid : Z; k_thread_id : Z; k_core_id : Z; k_pkg_id : Z;
  k_physical_processor_id : Z;
  k_available_vectors : bmp256;
  k_num_vtimers : Z; k_vtimer_period_fs : Z; k_vtimer_frequency_hz : Z;
  k_vsched_timer_period_fs : Z; k_vsched_timer_frequency_hz : Z;
  k_nmis_as_normal : bool;
}.

(** The rest of [struct vper_cpu]. *)
Record vper_data := VperData {
  d_processor_id : Z; d_lapic_id : Z; d_acpi_uid : Z; d_thread_id : Z; d_core_id : Z; d_pkg_id : Z;
  d_bsp : bool;
  ist1 : Z; ist2 : Z; ist3 : Z; ist4 : Z;
  d_tr : Z; d_cs_desc : Z; d_ds_desc : Z; d_tss_desc : gdt_descriptor64;
  d_gdtr_base : Z; d_gdtr_limit : Z;
  d_flags : option vper_flags;
  d_freq : option frequencies;
  d_vmxon_revision : Z;
}.
Definition VKERNEL_TR : Z := Z.shiftl 3 3.
Definition VKERNEL_CS_DESC : Z := 0x00af9a000000ffff.
Definition VKERNEL_DS_DESC : Z := 0x00af92000000ffff.

Record vmain := Vmain {
  v_boot : boot;
  v_lapic : gmap Z (gmap Z Z);         (* the registers of the local APICs *)
  v_percpu : gmap Z vper_data;
  v_kcpu : gmap Z kcpu;                (* by physical processor *)
  v_bsp : Z;
  v_idt : list idt_descriptor64;
  v_idtr_limit : Z;
  v_started : option (Z * Z);          (* the kernel's num_physical_processors and vid *)
}.

(** What a processor answers. *)
Record machine := Machine {
  mc_cpuid : Z → Z → regs4;
  mc_rdmsr : Z → Z;
  mc_measured : measured;
  mc_cr0 : Z; mc_cr3 : Z; mc_cr4 : Z; mc_cr8 : Z; mc_dr7 : Z;
  mc_cs : Z; mc_ds : Z; mc_ss : Z; mc_es : Z; mc_fs : Z; mc_gs : Z; mc_tr : Z; mc_ldtr : Z;
  mc_gdtr_base : Z; mc_gdtr_limit : Z; mc_idtr_base : Z; mc_idtr_limit : Z;
  mc_gdt : Z → gdt_descriptor64;       (* by index *)
  mc_lsl : Z → Z; mc_lar : Z → Z;      (* limit and access rights of a selector *)
  mc_rip : Z; mc_rsp : Z; mc_rflags : Z;  (* where __virtualise_core was called *)
  vmxon_ok : bool; vmlaunch_ok : bool;
}.

(** The addresses of the program's parts. *)
Record layout := Layout {
  at_vkernel : Z; at_percpu : Z → Z; at_tss : Z → Z; at_descs : Z → Z; at_idt : Z;
  at_vexit : Z; at_idle_loop : Z; at_visr : Z → Z;
  top_nmi : Z → Z; top_df : Z → Z; top_mce : Z → Z; top_int : Z → Z;
  top_idle : Z → Z; top_vexit : Z → Z;
  phys_vmcs : Z → Z; phys_io_a : Z → Z; phys_io_b : Z → Z; phys_msr : Z → Z;
  reset_fp_context : Z;
}.

(** [idle->context] at the start. *)
Definition idle_context (rip rsp fp : Z) : context :=
  Context 0 0 0 0 0 0 0 0 0 0 0 0 0 0 0 rsp rsp 0x2 rip fp.

Definition in_boot {A} (m : M boot A) : M vmain A := fun s =>
  match m (v_boot s) with
  | Ok (a, b) => Ok (a, s <| v_boot := b |>)
  | Fault f => Fault f
  end.
Definition get_kcpu (pid : Z) : M vmain kcpu := fun s =>
  match v_kcpu s !! pid with Some k => Ok (k, s) | None => Fault FBounds end.
Definition set_kcpu (pid : Z) (k : kcpu) : M vmain unit := mmodify (fun s => s <| v_kcpu ::= <[pid := k]> |>).
Definition set_percpu (c : Z) (d : vper_data) : M vmain unit :=
  mmodify (fun s => s <| v_percpu ::= <[c := d]> |>).
Definition set_lapic (c : Z) (l : gmap Z Z) : M vmain unit := mmodify (fun s => s <| v_lapic ::= <[c := l]> |>).
Definition set_fields (v : vptr) (F : gmap Z Z) (s : boot) : boot :=
  Boot (b_hv s) (<[v := F]> (b_vmcs s)) (b_bitmaps s) (b_revision s).

Section Start.
Context (config : mitigations) (mach : Z → machine) (lay : layout) (x2apic : bool).
Context (vmclear_ok vmptrld_ok : vptr → bool).
(** [NUM_CPUS], the number of timers, the addresses of [root_vcpus] and [root]. *)
Context (NUM_CPUS VNUM_VTIMERS root_vcpus root_addr : Z).
Definition LAPIC_DCR_OFFSET : Z := 0x3e0.
Definition VMSR_AREA_MAX : Z := 512.
Definition VROOT_PARTITION_CRITICALITY : Z := VSCHED_MAX_CRITICALITY.
Definition root_vcpu (i : Z) : vptr := VOf root_vcpus i.

(** ** vper_cpu_data_init *)

(** The ids, stacks and descriptors of the processor [c], whose kernel data is
    [k], before its features are known. *)
Definition vdata_init (c pid : Z) (k : kcpu) : vper_data :=
  {| d_processor_id := pid; d_lapic_id := k_lapic_id k; d_acpi_uid := k_acpi_uid k;
     d_thread_id := k_thread_id k; d_core_id := k_core_id k; d_pkg_id := k_pkg_id k; d_bsp := k_bsp k;
     ist1 := top_nmi lay c; ist2 := top_df lay c; ist3 := top_mce lay c; ist4 := top_int lay c;
     d_tr := VKERNEL_TR; d_cs_desc := VKERNEL_CS_DESC; d_ds_desc := VKERNEL_DS_DESC;
     d_tss_desc := tss_descriptor (at_tss lay c) (104 - 1);
     d_gdtr_base := at_descs lay c; d_gdtr_limit := 40 - 1;
     d_flags := None; d_freq := None; d_vmxon_revision := 0 |}.

Definition log_writes (l : list (Z * Z)) : M hv unit :=
  mmodify (fun h => h <| h_log ::= fun log => log ++ map (fun w : Z * Z => EWrmsr (fst w) (snd w)) l |>).

(** What the hypervisor keeps of a processor that starts. *)
Definition vper_cpu_start (c : Z) : M hv unit :=
  upd_cpu c (fun p => p <| available_vectors ::= vset_available_vectors |>
                        <| vsched ::= fun sc => sc <| vcriticality_level := VSCHED_MIN_CRITICALITY |> |>) ;;;
  upd_vcpu (VIdle c) (fun x => x <| vcontext :=
    idle_context (at_idle_loop lay) (top_idle lay c) (reset_fp_context lay) |>).

Definition kcpu_publish (fr : frequencies) (vectors : bmp256) (k : kcpu) : kcpu :=
  k <| k_available_vectors := vectors |> <| k_num_vtimers := VNUM_VTIMERS |>
    <| k_vtimer_period_fs := fr_preempt_fs fr |> <| k_vtimer_frequency_hz := fr_preempt_hz fr |>
    <| k_vsched_timer_period_fs := fr_lapic_fs fr |> <| k_vsched_timer_frequency_hz := fr_lapic_hz fr |>
    <| k_nmis_as_normal := true |>.

Definition vper_cpu_data_init (pid c : Z) : M vmain Z :=
  let m := mach c in
  k <~ get_kcpu pid ;;
  l <~ mgets (fun s => default ∅ (v_lapic s !! c)) ;;
  let '(l, lmce) := lapic_reconfig (mc_cpuid m) (mc_rdmsr m) l in
  set_lapic c l ;;;
  in_boot (in_hv (vper_cpu_start c)) ;;;
  let d := vdata_init c pid k in
  mmodify (fun s => if d_bsp d then s <| v_bsp := c |> else s) ;;;
  let '(fl, writes) := vper_cpu_flags_init config (mc_cpuid m) (mc_rdmsr m) lmce in
  in_boot (in_hv (log_writes writes)) ;;;
  set_lapic c (lapic_write l LAPIC_DCR_OFFSET VSCHED_LAPIC_DCR) ;;;
  let d := d <| d_flags := Some fl |> in
  match frequencies_init (mc_cpuid m) (mc_rdmsr m) (mc_measured m) with
  | Fault f => mfault f
  | Ok None => set_percpu c d ;;; ret (- EOPNOTSUPP)
  | Ok (Some fr) =>
      set_percpu c (d <| d_freq := Some fr |>) ;;;
      p <~ in_boot (in_hv (get_cpu c)) ;;
      set_kcpu pid (kcpu_publish fr (available_vectors p) k) ;;;
      ret 0
  end.

(** ** root_vcpu_init *)

Definition root_vcpu_of (core_id c : Z) (rp : vpartition) (p : vper_cpu) (x : vcpu) : vcpu :=
  x <| root := true |>
    <| metadata ::= fun md => md <| criticality := VROOT_PARTITION_CRITICALITY |>
                                 <| pv_spin_state := VSPIN_NONE |> |>
    <| processor_id := core_id |> <| vid := p_vid rp |>
    <| vpartition_num_cpus := vcpu_count rp |> <| vpartition_addr := root_addr |>
    <| vqueue_id := c |> <| allowed_external_vectors := available_vectors p |>.

Definition root_vcpu_init (pid c : Z) : M vmain unit :=
  k <~ get_kcpu pid ;;
  in_boot (in_hv
    (rp <~ get_part root_addr ;;
     p <~ get_cpu c ;;
     upd_vcpu (root_vcpu c) (root_vcpu_of (k_core_id k) c rp p))).

(** The physical addresses it sets. *)
Definition root_conf (c : Z) : vcpu_conf :=
  VcpuConf false 0 false 0 VBOOT_NONE (phys_io_a lay c) (phys_io_b lay c) (phys_msr lay c) (phys_vmcs lay c)
    0 0 0 0 0.

(** ** __do_virtualise_core *)

Definition root_proc_ctls : Z :=
  word_of [proc_mwait_exiting; proc_monitor_exiting; proc_use_io_bitmaps; proc_use_msr_bitmaps;
           proc_activate_secondary_controls; proc_cr8_load_exiting].
Definition root_proc2_ctls : Z :=
  word_of [proc2_enable_invpcid; proc2_conceal_vmx_from_pt; proc2_wbinvd_exiting].
Definition root_entry_ctls : Z :=
  word_of [entry_conceal_vmx_from_pt; entry_ia32e_mode_guest; entry_load_cet_state;
           entry_load_debug_controls; entry_load_ia32_bndcfgs; entry_load_ia32_efer;
           entry_load_ia32_lbr_ctl; entry_load_ia32_pat; entry_load_ia32_perf_global_ctrl;
           entry_load_ia32_rtit_ctl; entry_load_pkrs; entry_load_uinv; entry_load_fred].

(** The control registers the hypervisor runs with. *)
Definition vadjusted_cr0 (m : machine) : Z :=
  Z.land (Z.lor (mc_cr0 m) (mc_rdmsr m IA32_VMX_CR0_FIXED0)) (mc_rdmsr m IA32_VMX_CR0_FIXED1).
Definition vadjusted_cr4 (m : machine) : Z :=
  put_bit (Z.land (Z.lor (mc_cr4 m) (mc_rdmsr m IA32_VMX_CR4_FIXED0)) (mc_rdmsr m IA32_VMX_CR4_FIXED1))
    cr4_vmxe true.

Definition root_ctrls (m : machine) (d : vboot_flags) : list (Z * Z) :=
  let adj msr field val := (field, adjusted (mc_rdmsr m msr) val) in
  [ (VMCS_CTRL_EXCEPTION_BITMAP, exception_bmp);
    adj (ia32_vmx_pinbased_ctls d) VMCS_CTRL_PINBASED_CONTROLS pin_ctls;
    adj (ia32_vmx_procbased_ctls d) VMCS_CTRL_PROCBASED_CTLS root_proc_ctls ] ++
  (if procbased_ctls2 d then [adj IA32_VMX_PROCBASED_CTLS2 VMCS_CTRL_PROCBASED_CTLS2 root_proc2_ctls] else []) ++
  [adj (ia32_vmx_exit_ctls d) VMCS_CTRL_PRIMARY_VMEXIT_CONTROLS exit_ctls] ++
  (if exit_ctls2 d then [adj IA32_VMX_EXIT_CTLS2 VMCS_CTRL_SECONDARY_VMEXIT_CONTROLS exit2_ctls] else []) ++
  [adj (ia32_vmx_entry_ctls d) VMCS_CTRL_VMENTRY_CONTROLS root_entry_ctls].

Definition root_host (m : machine) (c : Z) : list (Z * Z) :=
  [ (VMCS_HOST_CR0, vadjusted_cr0 m); (VMCS_HOST_CR3, mc_cr3 m); (VMCS_HOST_CR4, vadjusted_cr4 m);
    (VMCS_HOST_CS_SELECTOR, VKERNEL_CS); (VMCS_HOST_DS_SELECTOR, VKERNEL_DS);
    (VMCS_HOST_SS_SELECTOR, VKERNEL_DS); (VMCS_HOST_ES_SELECTOR, VKERNEL_DS);
    (VMCS_HOST_FS_SELECTOR, VKERNEL_DS); (VMCS_HOST_GS_SELECTOR, VKERNEL_DS);
    (VMCS_HOST_TR_SELECTOR, VKERNEL_TR);
    (VMCS_HOST_FS_BASE, at_vkernel lay); (VMCS_HOST_GS_BASE, at_percpu lay c);
    (VMCS_HOST_TR_BASE, at_tss lay c); (VMCS_HOST_GDTR_BASE, at_descs lay c);
    (VMCS_HOST_IDTR_BASE, at_idt lay);
    (VMCS_HOST_RIP, at_vexit lay); (VMCS_HOST_RSP, top_vexit lay c);
    (VMCS_HOST_IA32_EFER, mc_rdmsr m IA32_EFER); (VMCS_HOST_IA32_PAT, mc_rdmsr m IA32_PAT) ].

Definition root_cr (m : machine) (d : vboot_flags) (f : vfeatures) : list (Z * Z) :=
  [ (VMCS_CTRL_CR0_GUEST_HOST_MASK, cr0_mask); (VMCS_CTRL_CR0_READ_SHADOW, 0);
    (VMCS_CTRL_CR4_GUEST_HOST_MASK, cr4_mask d f); (VMCS_CTRL_CR4_READ_SHADOW, cr4_shadow);
    (VMCS_GUEST_CR0, vadjusted_cr0 m); (VMCS_GUEST_CR3, mc_cr3 m); (VMCS_GUEST_CR4, vadjusted_cr4 m) ].

(** [__segment_base(selector, gdt)], [__segment_limit] and [__segment_ar] *)
Definition segment_base (m : machine) (sel : Z) : Z := __segment_base (mc_gdt m (Z.shiftr sel 3)).
Definition __segment_limit (m : machine) (sel : Z) : Z := mc_lsl m sel.
Definition __segment_ar (m : machine) (sel : Z) : Z :=
  if Z.shiftr sel 3 =? 0 then Z.shiftl 1 ar_segment_unusable
  else clear_fields (Z.shiftr (mc_lar m sel) 8) [(8, 4); (17, 15); (ar_segment_unusable, 1)].

Definition root_segments (m : machine) : list (Z * Z) :=
  [ (VMCS_GUEST_CS_SELECTOR, mc_cs m); (VMCS_GUEST_DS_SELECTOR, mc_ds m);
    (VMCS_GUEST_SS_SELECTOR, mc_ss m); (VMCS_GUEST_ES_SELECTOR, mc_es m);
    (VMCS_GUEST_FS_SELECTOR, mc_fs m); (VMCS_GUEST_GS_SELECTOR, mc_gs m);
    (VMCS_GUEST_TR_SELECTOR, mc_tr m); (VMCS_GUEST_LDTR_SELECTOR, mc_ldtr m);
    (VMCS_GUEST_FS_BASE, mc_rdmsr m IA32_FS_BASE); (VMCS_GUEST_GS_BASE, mc_rdmsr m IA32_GS_BASE);
    (VMCS_GUEST_TR_BASE, segment_base m (mc_tr m)); (VMCS_GUEST_LDTR_BASE, segment_base m (mc_ldtr m));
    (VMCS_GUEST_GDTR_BASE, mc_gdtr_base m); (VMCS_GUEST_IDTR_BASE, mc_idtr_base m);
    (VMCS_GUEST_CS_LIMIT, __segment_limit m (mc_cs m)); (VMCS_GUEST_DS_LIMIT, __segment_limit m (mc_ds m));
    (VMCS_GUEST_SS_LIMIT, __segment_limit m (mc_ss m)); (VMCS_GUEST_ES_LIMIT, __segment_limit m (mc_es m));
    (VMCS_GUEST_FS_LIMIT, __segment_limit m (mc_fs m)); (VMCS_GUEST_GS_LIMIT, __segment_limit m (mc_gs m));
    (VMCS_GUEST_TR_LIMIT, __segment_limit m (mc_tr m)); (VMCS_GUEST_LDTR_LIMIT, __segment_limit m (mc_ldtr m));
    (VMCS_GUEST_GDTR_LIMIT, mc_gdtr_limit m); (VMCS_GUEST_IDTR_LIMIT, mc_idtr_limit m);
    (VMCS_GUEST_CS_ACCESS_RIGHTS, __segment_ar m (mc_cs m)); (VMCS_GUEST_DS_ACCESS_RIGHTS, __segment_ar m (mc_ds m));
    (VMCS_GUEST_SS_ACCESS_RIGHTS, __segment_ar m (mc_ss m)); (VMCS_GUEST_ES_ACCESS_RIGHTS, __segment_ar m (mc_es m));
    (VMCS_GUEST_FS_ACCESS_RIGHTS, __segment_ar m (mc_fs m)); (VMCS_GUEST_GS_ACCESS_RIGHTS, __segment_ar m (mc_gs m));
    (VMCS_GUEST_TR_ACCESS_RIGHTS, __segment_ar m (mc_tr m)); (VMCS_GUEST_LDTR_ACCESS_RIGHTS, __segment_ar m (mc_ldtr m)) ].

Definition root_rest (m : machine) (c rip rsp rflags : Z) : list (Z * Z) :=
  [ (VMCS_GUEST_RIP, rip); (VMCS_GUEST_RSP, rsp); (VMCS_GUEST_RFLAGS, rflags);
    (VMCS_GUEST_DR7, mc_dr7 m); (VMCS_GUEST_ACTIVITY_STATE, GUEST_ACTIVE);
    (VMCS_GUEST_VMCS_LINK_POINTER, 2 ^ 64 - 1);
    (VMCS_GUEST_IA32_EFER, mc_rdmsr m IA32_EFER); (VMCS_GUEST_IA32_PAT, mc_rdmsr m IA32_PAT);
    (VMCS_GUEST_IA32_DEBUGCTL, mc_rdmsr m IA32_DEBUG_CTL);
    (VMCS_CTRL_IO_BITMAP_A, phys_io_a lay c); (VMCS_CTRL_IO_BITMAP_B, phys_io_b lay c);
    (VMCS_CTRL_MSR_BITMAPS, phys_msr lay c) ].

Definition root_fields (m : machine) (d : vboot_flags) (f : vfeatures) (c rip rsp rflags : Z) : list (Z * Z) :=
  root_ctrls m d ++ root_host m c ++ root_cr m d f ++ root_segments m ++ root_rest m c rip rsp rflags.

Definition set_this (c : Z) (h : hv) : hv := h <| h_this := c |>.
Definition on_processor (c : Z) : M vmain unit := in_boot (in_hv (mmodify (set_this c))).

(** The fields of [vcpu] that a launch sets: running, current on its processor,
    with the interrupt level of the kernel. *)
Definition root_launch (c cr8 : Z) : M hv bool :=
  upd_vcpu (root_vcpu c) (fun x => x <| metadata -> state := VRUNNING |>) ;;;
  upd_cpu c (fun p => p <| current_vcpu := Some (root_vcpu c) |>) ;;;
  flags <~ read_flags_and_disable_interrupts ;;
  upd_vcpu (root_vcpu c) (fun x => x <| delivery -> intl := Z.land cr8 15 |>) ;;;
  ret flags.

Definition flags_of (c : Z) : M vmain (vper_flags * frequencies) := fun s =>
  match v_percpu s !! c with
  | Some d => match d_flags d, d_freq d with
              | Some fl, Some fr => Ok ((fl, fr), s)
              | _, _ => Fault FNull
              end
  | None => Fault FBounds
  end.

(** [vthis_cpu->arch.vmxon.header.fields.revision_id] *)
Definition set_vmxon (c r : Z) (s : vmain) : vmain :=
  s <| v_percpu ::= alter (fun d => d <| d_vmxon_revision := r |>) c |>.

(** From the first write of the VMCS on: the fields, the traps, the launch. *)
Definition program_core (c : Z) (fl : vper_flags) (fr : frequencies) (rip rsp rflags : Z) : M vmain bool :=
  let m := mach c in
  let v := root_vcpu c in
  let d := bflags_of fl x2apic in
  in_boot (vmwrites (root_fields m d (features_of fl) c rip rsp rflags)) ;;;
  in_boot (setup_traps_of (fun _ => info_of fl fr) (fun _ => d) c v) ;;;
  in_boot (in_hv (if t_mpx d then log_writes [(IA32_BNDCFGS, 0)] else ret tt)) ;;;
  flags <~ in_boot (in_hv (root_launch c (mc_cr8 m))) ;;
  (if vmlaunch_ok m then ret tt else in_boot (in_hv (write_flags flags))) ;;;
  ret (vmlaunch_ok m).

(** The processor [pid] becomes the processor [c] of the hypervisor; [true] if
    it goes on as a guest. *)
Definition __do_virtualise_core (pid c rip rsp rflags : Z) : M vmain bool :=
  let m := mach c in
  let v := root_vcpu c in
  on_processor c ;;;
  k <~ get_kcpu pid ;;
  set_kcpu pid (k <| k_physical_processor_id := c |>) ;;;
  err <~ vper_cpu_data_init pid c ;;
  if err <? 0 then ret false else
  root_vcpu_init pid c ;;;
  found <~ flags_of c ;;
  let '(fl, fr) := found in
  let d := bflags_of fl x2apic in
  mmodify (set_vmxon c (revision_id d)) ;;;
  in_boot (mmodify (with_revision v (revision_id d))) ;;;
  if negb (vmxon_ok m) then ret false else
  if negb (vmclear_ok v) then ret false else
  loaded <~ in_boot (in_hv (__vmptrld vmptrld_ok v)) ;;
  if negb loaded then ret false else
  program_core c fl fr rip rsp rflags.

(** ** __start_twanvisor *)

Definition new_vdata (pid : Z) (bsp : bool) : vper_data :=
  {| d_processor_id := pid; d_lapic_id := 0; d_acpi_uid := 0; d_thread_id := 0; d_core_id := 0; d_pkg_id := 0;
     d_bsp := bsp; ist1 := 0; ist2 := 0; ist3 := 0; ist4 := 0; d_tr := 0; d_cs_desc := 0; d_ds_desc := 0;
     d_tss_desc := GdtDescriptor64 0 0 0 0 0 false 0 0 0; d_gdtr_base := 0; d_gdtr_limit := 0;
     d_flags := None; d_freq := None; d_vmxon_revision := 0 |}.

(** Numbers the enabled processors among the next [n] from [i] on, of which
    [vnum] were before; [None] if one of them lacks VMX. *)
Fixpoint number_cpus (n : nat) (i vnum : Z) : M vmain (option Z) :=
  match n with
  | O => ret (Some vnum)
  | S n =>
      k <~ get_kcpu i ;;
      if k_enabled k then
        if negb (k_vmx k) then ret None else
        set_percpu vnum (new_vdata i (k_bsp k)) ;;;
        number_cpus n (i + 1) (vnum + 1)
      else number_cpus n (i + 1) vnum
  end.

Definition vkernel_init (num_cpus : Z) : M vmain Z :=
  vnum <~ number_cpus (Z.to_nat num_cpus) 0 0 ;;
  match vnum with
  | None => ret (- EOPNOTSUPP)
  | Some vnum =>
      in_boot (in_hv (mmodify (fun h => h <| h_num_cpus := vnum |>))) ;;;
      mmodify (fun s => s <| v_idt := map (fun i => idt_gate i (at_visr lay i)) (seqZ 0 256) |>
                          <| v_idtr_limit := 256 * 16 - 1 |>) ;;;
      ret 0
  end.

Definition vpartition_table_init : M hv unit := mmodify (fun h => h <| h_vids ::= bmp256_set_all |>).

Definition root_perms : gmap Z vcriticality_perm_t :=
  list_to_map (map (fun i => (i, VcriticalityPerm true true VSCHED_MIN_CRITICALITY VSCHED_MAX_CRITICALITY))
                 (seqZ 0 NUM_CPUS)).
(** Requests of every partition are accepted from the root. *)
Definition root_partition (p : vpartition) (id : Z) : vpartition :=
  p <| ipi_receivers ::= bmp256_set_all |> <| tlb_shootdown_receivers ::= bmp256_set_all |>
    <| read_vcpu_state_receivers ::= bmp256_set_all |> <| pv_spin_kick_receivers ::= bmp256_set_all |>
    <| criticality_perms := root_perms |> <| p_vid := id |>.
Definition root_partition_init : M hv Z :=
  id <~ __vpartition_id_alloc ;;
  if id <? 0 then ret (- EFAULT) else
  upd_part root_addr (fun p => root_partition p id) ;;;
  __vpartition_place root_addr id ;;;
  mmodify (fun h => h <| h_root_vid := id |>) ;;;
  ret 0.

(** [__virtualise_core], which passes where and with what flags it was called. *)
Definition __virtualise_core (pid c : Z) : M vmain bool :=
  __do_virtualise_core pid c (mc_rip (mach c)) (mc_rsp (mach c)) (mc_rflags (mach c)).

(** The other processors in their order; the number of the boot processor. *)
Fixpoint virtualise_others (n : nat) (i bsp : Z) : M vmain Z :=
  match n with
  | O => ret bsp
  | S n =>
      pc <~ mgets (fun s => v_percpu s !! i) ;;
      match pc with
      | None => mfault FBounds
      | Some d =>
          if d_bsp d then virtualise_others n (i + 1) i
          else __virtualise_core (d_processor_id d) i ;;; virtualise_others n (i + 1) bsp
      end
  end.

(** Called on the processor [pid] of a kernel that has [num_cpus]. *)
Definition __start_twanvisor (pid num_cpus : Z) : M vmain Z :=
  err <~ vkernel_init num_cpus ;;
  if err <? 0 then ret err else
  in_boot (in_hv vpartition_table_init) ;;;
  err <~ in_boot (in_hv root_partition_init) ;;
  if err <? 0 then ret err else
  num_enabled_cpus <~ in_boot (in_hv vnum_cpus) ;;
  bsp <~ virtualise_others (Z.to_nat num_enabled_cpus) 0 0 ;;
  __virtualise_core pid bsp ;;;
  rp <~ in_boot (in_hv (get_part root_addr)) ;;
  mmodify (fun s => s <| v_started := Some (num_enabled_cpus, p_vid rp) |>) ;;;
  ret err.
End Start.

(** ** A processor's part of the state *)

(** [h'] differs from [h] at most in what belongs to the processor [c]: its
    data, its root vcpu [v] and its idle vcpu, and in the log. *)
Record core_frame (c : Z) (v : vptr) (h h' : hv) : Prop := {
  cf_num : h_num_cpus h' = h_num_cpus h;
  cf_cpus : ∀ i, i ≠ c → h_cpus h' !! i = h_cpus h !! i;
  cf_vcpus : ∀ w, w ≠ v → w ≠ VIdle c → h_vcpus h' !! w = h_vcpus h !! w;
  cf_parts : h_parts h' = h_parts h;
  cf_table : h_table h' = h_table h;
  cf_root : h_root_vid h' = h_root_vid h;
  cf_vids : h_vids h' = h_vids h;
  cf_locks : h_locks h' = h_locks h ∧ h_readers h' = h_readers h ∧ h_writer h' = h_writer h;
  cf_nodes : h_nodes h' = h_nodes h;
  cf_vmcs : ∀ w, w ≠ v → h_vmcs h' !! w = h_vmcs h !! w;
  cf_loaded : ∀ i, i ≠ c → h_loaded h' !! i = h_loaded h !! i;
}.

Lemma core_frame_refl c v h : core_frame c v h h.
Proof. by split. Qed.

Lemma core_frame_trans c v h1 h2 h3 : core_frame c v h1 h2 → core_frame c v h2 h3 → core_frame c v h1 h3.
Proof.
  intros [] []. split; try congruence.
  - intros i Hi. rewrite cf_cpus1; auto.
  - intros w H1 H2. rewrite cf_vcpus1; auto.
  - destruct_and!. split_and!; congruence.
  - intros w Hw. rewrite cf_vmcs1; auto.
  - intros i Hi. rewrite cf_loaded1; auto.
Qed.

(** The data of the processor [c], its root vcpu and the VMCS. *)
Record core (c : Z) (v : vptr) (h : hv) (p : vper_cpu) (x : vcpu) (g : vmcs_guest) : Prop := {
  co_this : h_this h = c;
  co_cpu : h_cpus h !! c = Some p;
  co_vcpu : h_vcpus h !! v = Some x;
  co_idle : is_Some (h_vcpus h !! VIdle c);
  co_vmcs : h_vmcs h !! v = Some g;
}.

Lemma upd_cpu_core c v h p x g f :
  core c v h p x g → ∃ h', upd_cpu c f h = Ok (tt, h') ∧ core c v h' (f p) x g ∧ core_frame c v h h' ∧
    h_loaded h' = h_loaded h.
Proof.
  intros []. eexists. split; [unfold upd_cpu, get_cpu, bind; by rewrite co_cpu0|].
  split; [split; try done; apply lookup_insert_eq|]. split; [|done]. split; try done.
  intros i Hi. by apply lookup_insert_ne.
Qed.

Lemma upd_vcpu_core c v h p x g f :
  v ≠ VIdle c → core c v h p x g →
  ∃ h', upd_vcpu v f h = Ok (tt, h') ∧ core c v h' p (f x) g ∧ core_frame c v h h' ∧
    h_loaded h' = h_loaded h.
Proof.
  intros Hv []. eexists. split; [unfold upd_vcpu, get_vcpu, bind; by rewrite co_vcpu0|].
  split; [split; try done; [apply lookup_insert_eq|]|].
  - change (is_Some (<[v:=f x]> (h_vcpus h) !! VIdle c)). by rewrite lookup_insert_ne.
  - split; [|done]. split; try done. intros w Hw _. by apply lookup_insert_ne.
Qed.

Lemma upd_idle_core c v h p x g f :
  v ≠ VIdle c → core c v h p x g →
  ∃ h', upd_vcpu (VIdle c) f h = Ok (tt, h') ∧ core c v h' p x g ∧ core_frame c v h h' ∧
    h_loaded h' = h_loaded h.
Proof.
  intros Hv []. destruct co_idle0 as [i Hi].
  eexists. split; [unfold upd_vcpu, get_vcpu, bind; by rewrite Hi|].
  split; [split; try done|].
  - change (<[VIdle c:=f i]> (h_vcpus h) !! v = Some x). by rewrite lookup_insert_ne.
  - eexists. apply lookup_insert_eq.
  - split; [|done]. split; try done. intros w _ Hw. by apply lookup_insert_ne.
Qed.

Lemma log_core c v h p x g l :
  core c v h p x g → ∃ h', log_writes l h = Ok (tt, h') ∧ core c v h' p x g ∧ core_frame c v h h' ∧
    h_loaded h' = h_loaded h.
Proof. intros []. eexists. split; [reflexivity|]. split; [by split|]. by split. Qed.

Definition hv_of (s : vmain) : hv := b_hv (v_boot s).
Definition with_hv (h : hv) (s : vmain) : vmain :=
  s <| v_boot := Boot h (b_vmcs (v_boot s)) (b_bitmaps (v_boot s)) (b_revision (v_boot s)) |>.

Lemma in_boot_hv {A} (m : M hv A) s a h :
  m (hv_of s) = Ok (a, h) → in_boot (in_hv m) s = Ok (a, with_hv h s).
Proof. intros E. unfold in_boot, in_hv. unfold hv_of in E. by rewrite E. Qed.

(** The same for the whole state; [pid] is the kernel's number of [c]. *)
Record main_frame (pid c : Z) (v : vptr) (s s' : vmain) : Prop := {
  mf_hv : core_frame c v (hv_of s) (hv_of s');
  mf_vmcs : ∀ w, w ≠ v → b_vmcs (v_boot s') !! w = b_vmcs (v_boot s) !! w;
  mf_bitmaps : ∀ w, w ≠ v → b_bitmaps (v_boot s') !! w = b_bitmaps (v_boot s) !! w;
  mf_percpu : ∀ i, i ≠ c → v_percpu s' !! i = v_percpu s !! i;
  mf_kcpu : ∀ i, i ≠ pid → v_kcpu s' !! i = v_kcpu s !! i;
  mf_idt : v_idt s' = v_idt s;
}.

Lemma main_frame_trans pid c v s1 s2 s3 :
  main_frame pid c v s1 s2 → main_frame pid c v s2 s3 → main_frame pid c v s1 s3.
Proof.
  intros [] []. split; [by eapply core_frame_trans| | | | |congruence]; intros i Hi.
  - by rewrite mf_vmcs1, mf_vmcs0.
  - by rewrite mf_bitmaps1, mf_bitmaps0.
  - by rewrite mf_percpu1, mf_percpu0.
  - by rewrite mf_kcpu1, mf_kcpu0.
Qed.

(** A step that leaves all but the hypervisor's state, or but the processor's
    own records, alone. *)
Lemma hv_step pid c v s h : core_frame c v (hv_of s) h → main_frame pid c v s (with_hv h s).
Proof. intros H. by split. Qed.
Lemma percpu_step pid c v s d : main_frame pid c v s (s <| v_percpu ::= <[c := d]> |>).
Proof. split; try done. intros i Hi. by apply lookup_insert_ne. Qed.
Lemma kcpu_step pid c v s k : main_frame pid c v s (s <| v_kcpu ::= <[pid := k]> |>).
Proof. split; try done. intros i Hi. by apply lookup_insert_ne. Qed.
Lemma lapic_step pid c v s l : main_frame pid c v s (s <| v_lapic ::= <[c := l]> |>).
Proof. by split. Qed.

(** ** The processors are numbered *)

Fixpoint enabled_ids (ks : gmap Z kcpu) (n : nat) (i : Z) : list Z :=
  match n with
  | O => []
  | S n => match ks !! i with
           | Some k => if k_enabled k then i :: enabled_ids ks n (i + 1) else enabled_ids ks n (i + 1)
           | None => enabled_ids ks n (i + 1)
           end
  end.

Lemma enabled_ids_range ks n : ∀ i j, j ∈ enabled_ids ks n i → i <= j < i + Z.of_nat n.
Proof.
  induction n as [|n IH]; intros i j; cbn; [by intros ?%elem_of_nil|].
  repeat case_match; rewrite ?elem_of_cons; intros H'; destruct_or?; subst; try lia; apply IH in H'; lia.
Qed.

Lemma enabled_ids_NoDup ks n : ∀ i, NoDup (enabled_ids ks n i).
Proof.
  induction n as [|n IH]; intros i; cbn; [constructor|].
  repeat case_match; try done. constructor; [|done]. intros ?%enabled_ids_range. lia.
Qed.

(** The data [number_cpus] stores from the number [vnum] on. *)
Definition numbered (ks : gmap Z kcpu) (vnum : Z) (E : list Z) (pc pc' : gmap Z vper_data) : Prop :=
  (∀ (j : nat) pid, E !! j = Some pid → ∃ k, ks !! pid = Some k ∧
     pc' !! (vnum + Z.of_nat j) = Some (new_vdata pid (k_bsp k))) ∧
  ∀ i, i < vnum → pc' !! i = pc !! i.

(** Either every enabled processor is numbered, or one of them lacks VMX; only
    [v_percpu] changes. *)
Lemma number_cpus_run n : ∀ i vnum s,
  (∀ j, i <= j < i + Z.of_nat n → is_Some (v_kcpu s !! j)) →
  let E := enabled_ids (v_kcpu s) n i in
  ∃ pc r, number_cpus n i vnum s = Ok (r, s <| v_percpu := pc |>) ∧
    ((r = None ∧ ∃ j k, j ∈ E ∧ v_kcpu s !! j = Some k ∧ k_vmx k = false) ∨
     (r = Some (vnum + Z.of_nat (length E)) ∧ numbered (v_kcpu s) vnum E (v_percpu s) pc ∧
      ∀ j k, j ∈ E → v_kcpu s !! j = Some k → k_vmx k = true)).
Proof.
  induction n as [|n IH]; intros i vnum s Hk E.
  - exists (v_percpu s), (Some vnum). split; [by destruct s|]. right.
    split; [cbn; by rewrite Z.add_0_r|]. split; [by split; [intros j pid ?|]|].
    by intros j k ?%elem_of_nil.
  - destruct (Hk i ltac:(lia)) as [k Ek]. cbn [number_cpus].
    assert (get_kcpu i s = Ok (k, s)) as Eg by (unfold get_kcpu; by rewrite Ek). mstep Eg.
    unfold E. cbn [enabled_ids]. rewrite Ek. destruct (k_enabled k).
    2: { apply IH. intros j Hj. apply Hk. lia. }
    destruct (k_vmx k) eqn:Ev; cbn [negb].
    2: { exists (v_percpu s), None. split; [by destruct s|]. left. split; [done|].
         exists i, k. split; [left|done]. }
    set (d := new_vdata i (k_bsp k)). set (s1 := s <| v_percpu ::= <[vnum := d]> |>).
    mstep (eq_refl : set_percpu vnum d s = Ok (tt, s1)).
    destruct (IH (i + 1) (vnum + 1) s1) as (pc & r & -> & H); [intros j Hj; apply Hk; lia|].
    change (v_kcpu s1) with (v_kcpu s) in H. exists pc, r. split; [reflexivity|].
    destruct H as [(-> & j & k' & Hj & Hk')|(-> & [H1 H2] & H3)].
    + left. split; [done|]. exists j, k'. split; [by right|done].
    + right. split; [f_equal; cbn [length]; lia|]. split; [split|].
      * intros [|j] pid Hp.
        -- injection Hp as <-. exists k. split; [done|]. rewrite Z.add_0_r, H2 by lia. apply lookup_insert_eq.
        -- destruct (H1 j pid Hp) as (k' & Ek' & Ej). exists k'. split; [done|].
           by replace (vnum + Z.of_nat (S j)) with (vnum + 1 + Z.of_nat j) by lia.
      * intros j Hj. rewrite H2 by lia. apply lookup_insert_ne. lia.
      * intros j k' Hj Ek'. apply elem_of_cons in Hj as [->|Hj]; [congruence|by eapply H3].
Qed.

Section Started.
Context (config : mitigations) (mach : Z → machine) (lay : layout) (x2apic : bool).
Context (vmclear_ok vmptrld_ok : vptr → bool).
Context (VNUM_VTIMERS root_vcpus root_addr : Z).
Local Abbreviation V := (root_vcpu root_vcpus).

(** What is known of a processor afterwards. *)
Definition found_flags (c : Z) (l : gmap Z Z) : vper_flags :=
  fst (vper_cpu_flags_init config (mc_cpuid (mach c)) (mc_rdmsr (mach c))
         (snd (lapic_reconfig (mc_cpuid (mach c)) (mc_rdmsr (mach c)) l))).
Definition started_cpu (p : vper_cpu) : vper_cpu :=
  p <| available_vectors ::= vset_available_vectors |>
    <| vsched ::= fun sc => sc <| vcriticality_level := VSCHED_MIN_CRITICALITY |> |>.

Lemma cpu_start_run c h p x g :
  core c (V c) h p x g →
  ∃ h', vper_cpu_start lay c h = Ok (tt, h') ∧ core c (V c) h' (started_cpu p) x g ∧
    core_frame c (V c) h h' ∧ h_loaded h' = h_loaded h.
Proof.
  intros H. unfold vper_cpu_start.
  destruct (upd_cpu_core c (V c) h p x g (fun p => p <| available_vectors ::= vset_available_vectors |>
    <| vsched ::= fun sc => sc <| vcriticality_level := VSCHED_MIN_CRITICALITY |> |>) H)
    as (h1 & E1 & H1 & F1 & L1). mstep E1.
  destruct (upd_idle_core c (V c) h1 _ x g (fun x => x <| vcontext :=
    idle_context (at_idle_loop lay) (top_idle lay c) (reset_fp_context lay) |>) ltac:(done) H1)
    as (h2 & E2 & H2 & F2 & L2).
  exists h2. split; [exact E2|]. split; [exact H2|]. split; [by eapply core_frame_trans|congruence].
Qed.

Lemma data_init_run pid c s p x g k fr :
  core c (V c) (hv_of s) p x g → v_kcpu s !! pid = Some k →
  frequencies_init (mc_cpuid (mach c)) (mc_rdmsr (mach c)) (mc_measured (mach c)) = Ok (Some fr) →
  ∃ s' d, vper_cpu_data_init config mach lay VNUM_VTIMERS pid c s = Ok (0, s') ∧
    core c (V c) (hv_of s') (started_cpu p) x g ∧ main_frame pid c (V c) s s' ∧
    h_loaded (hv_of s') = h_loaded (hv_of s) ∧ v_boot s' = v_boot (with_hv (hv_of s') s) ∧
    v_percpu s' !! c = Some d ∧ d_processor_id d = pid ∧
    d_flags d = Some (found_flags c (default ∅ (v_lapic s !! c))) ∧ d_freq d = Some fr ∧
    (∃ k', v_kcpu s' !! pid = Some k' ∧ k_core_id k' = k_core_id k) ∧ v_started s' = v_started s.
Proof.
  intros H Hk Hf. unfold vper_cpu_data_init.
  assert (get_kcpu pid s = Ok (k, s)) as Ek by (unfold get_kcpu; by rewrite Hk). mstep Ek.
  unfold bind at 1, mgets at 1. unfold found_flags.
  destruct (lapic_reconfig _ _ (default ∅ (v_lapic s !! c))) as [l lmce]. cbn [snd].
  set (s1 := s <| v_lapic ::= <[c := l]> |>). mstep (eq_refl : set_lapic c l s = Ok (tt, s1)).
  destruct (cpu_start_run c (hv_of s1) p x g H) as (h1 & E1 & H1 & F1 & L1).
  mstep (in_boot_hv _ s1 _ _ E1).
  set (s2 := with_hv h1 s1). set (d := vdata_init lay c pid k).
  set (s3 := if d_bsp d then s2 <| v_bsp := c |> else s2).
  mstep (eq_refl : mmodify (fun s => if d_bsp d then s <| v_bsp := c |> else s) s2 = Ok (tt, s3)).
  destruct (vper_cpu_flags_init _ _ _ lmce) as [fl writes]. cbn [fst].
  assert (hv_of s3 = h1 ∧ v_boot s3 = v_boot s2 ∧ v_started s3 = v_started s ∧ main_frame pid c (V c) s s3)
    as (B3 & B3' & St3 & F3).
  { unfold s3. destruct (d_bsp d); split_and!; try done; split; try done. }
  assert (core c (V c) (hv_of s3) (started_cpu p) x g) as H3 by (by rewrite B3).
  destruct (log_core c (V c) (hv_of s3) _ x g writes H3) as (h4 & E4 & H4 & F4 & L4).
  mstep (in_boot_hv _ s3 _ _ E4).
  set (l' := lapic_write l LAPIC_DCR_OFFSET VSCHED_LAPIC_DCR).
  set (s5 := with_hv h4 s3 <| v_lapic ::= <[c := l']> |>).
  mstep (eq_refl : set_lapic c l' (with_hv h4 s3) = Ok (tt, s5)).
  rewrite Hf. cbv zeta.
  set (d' := d <| d_flags := Some fl |> <| d_freq := Some fr |>).
  set (s6 := s5 <| v_percpu ::= <[c := d']> |>).
  mstep (eq_refl : set_percpu c d' s5 = Ok (tt, s6)).
  assert (get_cpu c (hv_of s6) = Ok (started_cpu p, h4)) as E6.
  { unfold get_cpu. change (hv_of s6) with h4. by rewrite (co_cpu _ _ _ _ _ _ H4). }
  mstep (in_boot_hv _ s6 _ _ E6).
  eexists _, d'. split; [reflexivity|]. split; [exact H4|]. split.
  { assert (main_frame pid c (V c) s (with_hv h4 s3)) as F5 by (eapply main_frame_trans; [exact F3|by apply hv_step]).
    eapply main_frame_trans; [exact F5|]. eapply main_frame_trans; [apply lapic_step|].
    eapply main_frame_trans; [apply percpu_step|]. eapply main_frame_trans; [apply hv_step, core_frame_refl|].
    apply kcpu_step. }
  split; [change (h_loaded h4 = h_loaded (hv_of s)); by rewrite L4, B3, L1|].
  split; [change (Boot h4 (b_vmcs (v_boot s3)) (b_bitmaps (v_boot s3)) (b_revision (v_boot s3)) =
            Boot h4 (b_vmcs (v_boot s)) (b_bitmaps (v_boot s)) (b_revision (v_boot s))); by rewrite B3'|].
  split; [apply lookup_insert_eq|]. split; [reflexivity|]. split; [reflexivity|]. split; [reflexivity|].
  split; [|exact St3]. eexists. split; [apply lookup_insert_eq|reflexivity].
Qed.

Lemma vcpu_init_run pid c s p x g k rp :
  core c (V c) (hv_of s) p x g → v_kcpu s !! pid = Some k → h_parts (hv_of s) !! root_addr = Some rp →
  ∃ h, root_vcpu_init root_vcpus root_addr pid c s = Ok (tt, with_hv h s) ∧
    core c (V c) h p (root_vcpu_of root_addr (k_core_id k) c rp p x) g ∧ core_frame c (V c) (hv_of s) h ∧
    h_loaded h = h_loaded (hv_of s).
Proof.
  intros H Hk Hrp. unfold root_vcpu_init.
  assert (get_kcpu pid s = Ok (k, s)) as Ek by (unfold get_kcpu; by rewrite Hk). mstep Ek.
  destruct (upd_vcpu_core c (V c) (hv_of s) p x g (root_vcpu_of root_addr (k_core_id k) c rp p)
    ltac:(done) H) as (h & E & H' & F & L).
  exists h. split; [|done]. apply in_boot_hv.
  assert (get_part root_addr (hv_of s) = Ok (rp, hv_of s)) as Ep by (unfold get_part; by rewrite Hrp). mstep Ep.
  assert (get_cpu c (hv_of s) = Ok (p, hv_of s)) as Ec by (unfold get_cpu; by rewrite (co_cpu _ _ _ _ _ _ H)).
  by mstep Ec.
Qed.

Definition launched (cr8 : Z) (x : vcpu) : vcpu :=
  (x <| metadata -> state := VRUNNING |>) <| delivery -> intl := Z.land cr8 15 |>.

Lemma flags_core c v h p x g b :
  core c v h p x g → ∃ h', write_flags b h = Ok (tt, h') ∧ core c v h' p x g ∧ core_frame c v h h' ∧
    h_loaded h' = h_loaded h.
Proof. intros []. eexists. split; [reflexivity|]. split; [by split|]. split; [by split|done]. Qed.

Lemma launch_run c cr8 h p x g :
  core c (V c) h p x g →
  ∃ b h', root_launch root_vcpus c cr8 h = Ok (b, h') ∧
    core c (V c) h' (p <| current_vcpu := Some (V c) |>) (launched cr8 x) g ∧
    core_frame c (V c) h h' ∧ h_loaded h' = h_loaded h.
Proof.
  intros H. unfold root_launch.
  destruct (upd_vcpu_core c (V c) h p x g (fun x => x <| metadata -> state := VRUNNING |>) ltac:(done) H)
    as (h1 & E1 & H1 & F1 & L1). mstep E1.
  destruct (upd_cpu_core c (V c) h1 _ _ g (fun p => p <| current_vcpu := Some (V c) |>) H1)
    as (h2 & E2 & H2 & F2 & L2). mstep E2.
  destruct (flags_core c (V c) h2 _ _ g false H2) as (h3 & E3 & H3 & F3 & L3).
  assert (read_flags_and_disable_interrupts h2 = Ok (default false (h_interrupts h2 !! h_this h2), h3)) as Er
    by (unfold read_flags_and_disable_interrupts; by mstep (eq_refl : mgets (fun s => default false (h_interrupts s !! h_this s)) h2 = Ok (_, h2)); mstep E3).
  destruct (upd_vcpu_core c (V c) h3 _ _ g (fun x => x <| delivery -> intl := Z.land cr8 15 |>) ltac:(done) H3)
    as (h4 & E4 & H4 & F4 & L4).
  exists (default false (h_interrupts h2 !! h_this h2)), h4. split; [mstep Er; by mstep E4|]. split; [exact H4|].
  split; [|congruence].
  eapply core_frame_trans; [exact F1|]. eapply core_frame_trans; [exact F2|]. by eapply core_frame_trans.
Qed.

(** A processor that has not started, as its static data is. *)
Record waiting (p0 : vper_cpu) (x0 : vcpu) (pid c : Z) (k : kcpu) (s : vmain) : Prop := {
  wa_cpu : h_cpus (hv_of s) !! c = Some p0;
  wa_vcpu : h_vcpus (hv_of s) !! V c = Some x0;
  wa_idle : is_Some (h_vcpus (hv_of s) !! VIdle c);
  wa_vmcs : is_Some (h_vmcs (hv_of s) !! V c);
  wa_fields : b_vmcs (v_boot s) !! V c = None;
  wa_bitmaps : ∃ b, b_bitmaps (v_boot s) !! V c = Some b ∧ bitmaps_wf b;
  wa_kcpu : v_kcpu s !! pid = Some k;
  wa_data : ∃ d, v_percpu s !! c = Some d ∧ d_processor_id d = pid ∧ d_bsp d = k_bsp k;
}.

(** A processor that runs its vcpu of the root. *)
Record virtualised (p0 : vper_cpu) (x0 : vcpu) (rp : vpartition) (pid c : Z) (k : kcpu) (s : vmain) : Prop := {
  vt_cpu : h_cpus (hv_of s) !! c = Some (started_cpu p0 <| current_vcpu := Some (V c) |>);
  vt_vcpu : h_vcpus (hv_of s) !! V c = Some (launched (mc_cr8 (mach c))
    (root_vcpu_of root_addr (k_core_id k) c rp (started_cpu p0) x0));
  vt_loaded : h_loaded (hv_of s) !! c = Some (V c);
  vt_fields : ∃ l, let fl := found_flags c l in
    let d := bflags_of fl x2apic in
    fields_of_vmcs (v_boot s) (V c) = write_all ∅ (root_fields lay (mach c) d (features_of fl) c
      (mc_rip (mach c)) (mc_rsp (mach c)) (mc_rflags (mach c))) ∧
    ∃ b0 b, bitmaps_wf b0 ∧ b_bitmaps (v_boot s) !! V c = Some b ∧
      vsetup_traps (tc_arch_capabilities_r (trap_cache fl)) d b0 = Ok b;
  vt_data : ∃ d, v_percpu s !! c = Some d ∧ d_processor_id d = pid ∧ is_Some (d_freq d);
}.

Lemma frame_waiting p0 x0 pid' c' pid c k s s' :
  main_frame pid' c' (V c') s s' → c ≠ c' → pid ≠ pid' →
  waiting p0 x0 pid c k s → waiting p0 x0 pid c k s'.
Proof.
  intros [[] ] Hc Hp [].
  assert (V c ≠ V c') by (by intros [= ]). split.
  - by rewrite cf_cpus0.
  - by rewrite cf_vcpus0.
  - rewrite cf_vcpus0 by (done || by intros [= ]). done.
  - by rewrite cf_vmcs0.
  - by rewrite mf_vmcs0.
  - by rewrite mf_bitmaps0.
  - by rewrite mf_kcpu0.
  - by rewrite mf_percpu0.
Qed.

Lemma frame_virtualised p0 x0 rp pid' c' pid c k s s' :
  main_frame pid' c' (V c') s s' → c ≠ c' →
  virtualised p0 x0 rp pid c k s → virtualised p0 x0 rp pid c k s'.
Proof.
  intros [[] ] Hc [].
  assert (V c ≠ V c') by (by intros [= ]). split.
  - by rewrite cf_cpus0.
  - by rewrite cf_vcpus0.
  - by rewrite cf_loaded0.
  - unfold fields_of_vmcs. by rewrite mf_vmcs0, mf_bitmaps0.
  - by rewrite mf_percpu0.
Qed.

(** What a processor must answer to be virtualised. *)
Record able (c : Z) : Prop := {
  ab_vmxon : vmxon_ok (mach c) = true;
  ab_vmcs : vmclear_ok (V c) = true ∧ vmptrld_ok (V c) = true;
  ab_frequencies : ∃ fr, frequencies_init (mc_cpuid (mach c)) (mc_rdmsr (mach c)) (mc_measured (mach c))
    = Ok (Some fr);
}.

Local Abbreviation virtualise_core := (__virtualise_core config mach lay x2apic vmclear_ok vmptrld_ok
  VNUM_VTIMERS root_vcpus root_addr).

(** The outcome of [program_core]. *)
Record launches (c : Z) (fl : vper_flags) (b0 : vcpu_bitmaps) (p : vper_cpu) (x : vcpu) (s s' : vmain) : Prop := {
  la_core : ∃ g, core c (V c) (hv_of s') (p <| current_vcpu := Some (V c) |>) (launched (mc_cr8 (mach c)) x) g;
  la_frame : core_frame c (V c) (hv_of s) (hv_of s');
  la_loaded : h_loaded (hv_of s') !! c = Some (V c);
  la_fields : fields_of_vmcs (v_boot s') (V c) = write_all ∅ (root_fields lay (mach c) (bflags_of fl x2apic)
    (features_of fl) c (mc_rip (mach c)) (mc_rsp (mach c)) (mc_rflags (mach c)));
  la_traps : ∃ b, b_bitmaps (v_boot s') !! V c = Some b ∧
    vsetup_traps (tc_arch_capabilities_r (trap_cache fl)) (bflags_of fl x2apic) b0 = Ok b;
  la_boot : ∀ w, w ≠ V c → b_vmcs (v_boot s') !! w = b_vmcs (v_boot s) !! w ∧
    b_bitmaps (v_boot s') !! w = b_bitmaps (v_boot s) !! w;
  la_rest : v_percpu s' = v_percpu s ∧ v_kcpu s' = v_kcpu s ∧ v_idt s' = v_idt s;
}.

Lemma program_run c fl fr s b0 p x g :
  core c (V c) (hv_of s) p x g → h_loaded (hv_of s) !! c = Some (V c) → b_vmcs (v_boot s) !! V c = None →
  b_bitmaps (v_boot s) !! V c = Some b0 → bitmaps_wf b0 →
  ∃ s', program_core mach lay x2apic root_vcpus c fl fr (mc_rip (mach c)) (mc_rsp (mach c)) (mc_rflags (mach c)) s
      = Ok (vmlaunch_ok (mach c), s') ∧ launches c fl b0 p x s s'.
Proof.
  intros H Hld Hno Hb Wb. unfold program_core. set (df := bflags_of fl x2apic). set (l := root_fields _ _ _ _ _ _ _ _).
  destruct (vmwrites_run l (V c) g (v_boot s)) as (b7 & E7 & Hh7 & HF7 & HB7 & _ & HO7).
  { change (b_hv (v_boot s)) with (hv_of s). by rewrite (co_this _ _ _ _ _ _ H). }
  { exact (co_vmcs _ _ _ _ _ _ H). }
  set (s7 := s <| v_boot := b7 |>).
  assert (in_boot (vmwrites l) s = Ok (tt, s7)) as E7' by (unfold in_boot; by rewrite E7). mstep E7'.
  destruct (vsetup_traps_adds (tc_arch_capabilities_r (trap_cache fl)) df b0 Wb) as (b1 & Et & _).
  set (s8 := s7 <| v_boot := with_bitmaps (V c) b1 b7 |>).
  assert (in_boot (setup_traps_of (fun _ => info_of fl fr) (fun _ => df) c (V c)) s7 = Ok (tt, s8)) as E8.
  { unfold in_boot, setup_traps_of. change (v_boot s7) with b7. rewrite HB7, Hb.
    cbn [ia32_arch_capabilities_r info_of]. by rewrite Et. }
  mstep E8. set (g8 := fold_left guest_sync l g).
  assert (hv_of s8 = put_vmcs (V c) g8 (hv_of s)) as Hh8 by exact Hh7.
  assert (core c (V c) (hv_of s8) p x g8) as H8.
  { rewrite Hh8. destruct H. split; try done. apply lookup_insert_eq. }
  assert (core_frame c (V c) (hv_of s) (hv_of s8)) as F8.
  { rewrite Hh8. split; try done. intros w Hw. by apply lookup_insert_ne. }
  assert (∃ h9, (if t_mpx df then log_writes [(IA32_BNDCFGS, 0)] else ret tt) (hv_of s8) = Ok (tt, h9) ∧
    core c (V c) h9 p x g8 ∧ core_frame c (V c) (hv_of s8) h9 ∧ h_loaded h9 = h_loaded (hv_of s8))
    as (h9 & E9 & H9 & F9 & L9).
  { destruct (t_mpx df); [by apply log_core|]. exists (hv_of s8). split; [done|]. split; [done|].
    split; [apply core_frame_refl|done]. }
  mstep (in_boot_hv _ s8 _ _ E9).
  destruct (launch_run c (mc_cr8 (mach c)) (hv_of (with_hv h9 s8)) _ _ _ H9) as (b10 & h10' & E10' & H10' & F10' & L10').
  mstep (in_boot_hv _ (with_hv h9 s8) _ _ E10').
  assert (∃ h10, (if vmlaunch_ok (mach c) then ret tt else in_boot (in_hv (write_flags b10))) (with_hv h10' s8)
      = Ok (tt, with_hv h10 s8) ∧
    core c (V c) h10 (p <| current_vcpu := Some (V c) |>) (launched (mc_cr8 (mach c)) x) g8 ∧
    core_frame c (V c) (hv_of (with_hv h9 s8)) h10 ∧ h_loaded h10 = h_loaded (hv_of (with_hv h9 s8)))
    as (h10 & E10 & H10 & F10 & L10).
  { destruct (vmlaunch_ok (mach c)); [by exists h10'|].
    destruct (flags_core c (V c) h10' _ _ _ b10 H10') as (h11 & E11 & H11 & F11 & L11). exists h11.
    split; [exact (in_boot_hv _ (with_hv h10' s8) _ _ E11)|]. split; [done|].
    split; [by eapply core_frame_trans|congruence]. }
  mstep E10. eexists. split; [reflexivity|]. split.
  - by exists g8.
  - eapply core_frame_trans; [exact F8|]. eapply core_frame_trans; [exact F9|exact F10].
  - change (h_loaded h10 !! c = Some (V c)). rewrite L10. change (h_loaded h9 !! c = Some (V c)).
    by rewrite L9, Hh8.
  - change (fields_of_vmcs b7 (V c) = write_all ∅ l). rewrite HF7. unfold fields_of_vmcs at 1. by rewrite Hno.
  - exists b1. split; [apply lookup_insert_eq|exact Et].
  - intros w Hw. split; [by apply HO7|]. change (<[V c := b1]> (b_bitmaps b7) !! w = b_bitmaps (v_boot s) !! w).
    rewrite lookup_insert_ne by done. by rewrite HB7.
  - done.
Qed.

(** The state just before [__vmxon]. *)
Lemma core_prepares p0 x0 pid c k s rp fr :
  waiting p0 x0 pid c k s → h_parts (hv_of s) !! root_addr = Some rp →
  frequencies_init (mc_cpuid (mach c)) (mc_rdmsr (mach c)) (mc_measured (mach c)) = Ok (Some fr) →
  ∃ s' d l g, main_frame pid c (V c) s s' ∧
    virtualise_core pid c s =
      (let fl := found_flags c l in
       if negb (vmxon_ok (mach c)) then ret false else
       if negb (vmclear_ok (V c)) then ret false else
       loaded <~ in_boot (in_hv (__vmptrld vmptrld_ok (V c))) ;;
       if negb loaded then ret false else
       program_core mach lay x2apic root_vcpus c fl fr (mc_rip (mach c)) (mc_rsp (mach c)) (mc_rflags (mach c))) s' ∧
    core c (V c) (hv_of s') (started_cpu p0) (root_vcpu_of root_addr (k_core_id k) c rp (started_cpu p0) x0) g ∧
    b_vmcs (v_boot s') = b_vmcs (v_boot s) ∧ b_bitmaps (v_boot s') = b_bitmaps (v_boot s) ∧
    v_percpu s' !! c = Some d ∧ d_processor_id d = pid ∧ is_Some (d_freq d).
Proof.
  intros [Hp Hx Hi [g Hg] _ _ Hk (d0 & Hd & Hpid & _)] Hrp Hfr.
  unfold __virtualise_core, __do_virtualise_core. cbv zeta.
  set (s0 := with_hv (set_this c (hv_of s)) s).
  assert (on_processor c s = Ok (tt, s0)) as E0 by (by apply in_boot_hv). mstep E0.
  assert (core_frame c (V c) (hv_of s) (hv_of s0)) as F0 by (by split).
  assert (get_kcpu pid s0 = Ok (k, s0)) as Ek.
  { unfold get_kcpu. change (v_kcpu s0) with (v_kcpu s). by rewrite Hk. }
  mstep Ek. set (k1 := k <| k_physical_processor_id := c |>). set (s1 := s0 <| v_kcpu ::= <[pid := k1]> |>).
  mstep (eq_refl : set_kcpu pid k1 s0 = Ok (tt, s1)).
  assert (core c (V c) (hv_of s1) p0 x0 g) as H1 by (by split).
  assert (main_frame pid c (V c) s s1) as M1.
  { eapply main_frame_trans; [by apply hv_step, F0|]. apply kcpu_step. }
  assert (v_kcpu s1 !! pid = Some k1) as Hk1 by apply lookup_insert_eq.
  destruct (data_init_run pid c s1 p0 x0 g k1 fr H1 Hk1 Hfr)
    as (s2 & d & E2 & H2 & M2 & L2 & B2 & Hd2 & Hdp & Hdf & Hdr & (k2 & Hk2 & Hcore) & St2).
  mstep E2. change (0 <? 0) with false. cbv iota.
  assert (h_parts (hv_of s2) !! root_addr = Some rp) as Hrp2.
  { rewrite (cf_parts _ _ _ _ (mf_hv _ _ _ _ _ M2)). exact Hrp. }
  destruct (vcpu_init_run pid c s2 _ _ g k2 rp H2 Hk2 Hrp2) as (h3 & E3 & H3 & F3 & L3). mstep E3.
  set (s3 := with_hv h3 s2). set (fl := found_flags c (default ∅ (v_lapic s1 !! c))) in *.
  assert (flags_of c s3 = Ok ((fl, fr), s3)) as E4.
  { unfold flags_of. change (v_percpu s3) with (v_percpu s2). by rewrite Hd2, Hdf, Hdr. }
  mstep E4. set (r := revision_id (bflags_of fl x2apic)).
  mstep (eq_refl : mmodify (set_vmxon c r) s3 = Ok (tt, set_vmxon c r s3)).
  set (s5 := set_vmxon c r s3 <| v_boot ::= with_revision (V c) r |>).
  mstep (eq_refl : in_boot (mmodify (with_revision (V c) r)) (set_vmxon c r s3) = Ok (tt, s5)).
  rewrite Hcore in H3. exists s5, (d <| d_vmxon_revision := r |>), (default ∅ (v_lapic s1 !! c)), g.
  assert (v_percpu s5 = alter (fun d => d <| d_vmxon_revision := r |>) c (v_percpu s2)) as Hpc by done.
  split; [|split; [reflexivity|split; [exact H3|]]].
  - eapply main_frame_trans; [exact M1|]. eapply main_frame_trans; [exact M2|].
    eapply main_frame_trans; [by apply hv_step, F3|]. split; try done.
    intros i Hne. rewrite Hpc. by rewrite lookup_alter_ne.
  - assert (b_vmcs (v_boot s5) = b_vmcs (v_boot s2) ∧ b_bitmaps (v_boot s5) = b_bitmaps (v_boot s2)) as [-> ->] by done.
    rewrite B2. split; [done|]. split; [done|]. rewrite Hpc, lookup_alter_eq, Hd2.
    split; [reflexivity|]. split; [exact Hdp|]. change (is_Some (d_freq d)). rewrite Hdr. by eexists.
Qed.

Definition vmcs_loaded_on (v : vptr) (h : hv) : hv := h <| h_loaded ::= <[h_this h := v]> |>.

Lemma virtualise_core_run p0 x0 pid c k s rp :
  able c → waiting p0 x0 pid c k s → h_parts (hv_of s) !! root_addr = Some rp →
  ∃ s', virtualise_core pid c s = Ok (vmlaunch_ok (mach c), s') ∧
    virtualised p0 x0 rp pid c k s' ∧ main_frame pid c (V c) s s'.
Proof.
  intros [Hon [Hclr Hld] [fr Hfr]] Hw Hrp.
  destruct (core_prepares p0 x0 pid c k s rp fr Hw Hrp Hfr)
    as (s5 & d & l & g & M5 & -> & H5 & BV & BB & Hd & Hdp & Hdr).
  destruct Hw as [_ _ _ _ Hno [b0 [Hb Wb]] _ _]. cbv zeta. rewrite Hon, Hclr. cbn [negb].
  set (h6 := vmcs_loaded_on (V c) (hv_of s5)).
  assert (__vmptrld vmptrld_ok (V c) (hv_of s5) = Ok (true, h6)) as E6 by (unfold __vmptrld; by rewrite Hld).
  mstep (in_boot_hv _ s5 _ _ E6). cbn [negb]. set (s6 := with_hv h6 s5).
  pose proof (co_this _ _ _ _ _ _ H5) as Ht.
  assert (core c (V c) (hv_of s6) (started_cpu p0) (root_vcpu_of root_addr (k_core_id k) c rp (started_cpu p0) x0) g)
    as H6 by (destruct H5; by split).
  assert (core_frame c (V c) (hv_of s5) (hv_of s6)) as F6.
  { split; try done. intros i Hne. change (<[h_this (hv_of s5) := V c]> (h_loaded (hv_of s5)) !! i = h_loaded (hv_of s5) !! i).
    rewrite Ht. by apply lookup_insert_ne. }
  destruct (program_run c (found_flags c l) fr s6 b0 _ _ g H6) as (s' & E & [[g' Hc] F7 L7 HF HT HO (HP & HK & HI)]);
    [|by rewrite <- Hno, <- BV|by rewrite <- Hb, <- BB|done|].
  { change (<[h_this (hv_of s5) := V c]> (h_loaded (hv_of s5)) !! c = Some (V c)). rewrite Ht. apply lookup_insert_eq. }
  exists s'. split; [exact E|]. destruct Hc. split.
  - split; try done.
    + exists l. split; [exact HF|]. destruct HT as (b & Eb & Et). by exists b0, b.
    + exists d. by rewrite HP.
  - eapply main_frame_trans; [exact M5|]. eapply main_frame_trans; [by apply hv_step, F6|].
    split; [exact F7|by apply HO|by apply HO| | |exact HI]; intros i Hne; by rewrite ?HP, ?HK.
Qed.

(** ** All of them *)

Context (p0 : vper_cpu) (x0 : vcpu) (rp : vpartition).
(** The physical numbers of the processors, and the kernel's data of each. *)
Context (E : list Z) (ks : gmap Z kcpu).
Context (E_nodup : NoDup E) (E_able : ∀ j : nat, (j < length E)%nat → able (Z.of_nat j)).

(** The processors among the first [n] that are not the boot processor run. *)
Definition progress (n : nat) (s : vmain) : Prop :=
  h_parts (hv_of s) !! root_addr = Some rp ∧
  ∀ (j : nat) pid k, E !! j = Some pid → ks !! pid = Some k →
    if (j <? n)%nat && negb (k_bsp k) then virtualised p0 x0 rp pid (Z.of_nat j) k s
    else waiting p0 x0 pid (Z.of_nat j) k s.

(** What no processor's start changes. *)
Definition same_globals (h h' : hv) : Prop :=
  h_num_cpus h' = h_num_cpus h ∧ h_parts h' = h_parts h ∧ h_table h' = h_table h ∧
  h_root_vid h' = h_root_vid h ∧ h_vids h' = h_vids h ∧ h_nodes h' = h_nodes h ∧
  h_locks h' = h_locks h ∧ h_readers h' = h_readers h ∧ h_writer h' = h_writer h.

Lemma frame_globals c v h h' : core_frame c v h h' → same_globals h h'.
Proof. intros []. unfold same_globals. destruct_and!. by split_and!. Qed.

Lemma E_distinct (i j : nat) p q : E !! i = Some p → E !! j = Some q → i ≠ j → p ≠ q.
Proof. intros Hi Hj Hne ->. apply Hne. by eapply NoDup_lookup. Qed.

(** One more processor. *)
Lemma progress_step n pid k s :
  E !! n = Some pid → ks !! pid = Some k → k_bsp k = false → progress n s →
  ∃ s' r, virtualise_core pid (Z.of_nat n) s = Ok (r, s') ∧ progress (S n) s' ∧
    same_globals (hv_of s) (hv_of s').
Proof.
  intros En Ek Eb [Hp Hpr].
  pose proof (Hpr n pid k En Ek) as Hw. rewrite Nat.ltb_irrefl in Hw. cbn [andb] in Hw.
  destruct (virtualise_core_run p0 x0 pid (Z.of_nat n) k s rp (E_able n (lookup_lt_Some _ _ _ En)) Hw Hp)
    as (s' & E' & Hv & Hf).
  exists s', (vmlaunch_ok (mach (Z.of_nat n))). split; [exact E'|].
  pose proof (frame_globals _ _ _ _ (mf_hv _ _ _ _ _ Hf)) as Hg. split; [|exact Hg]. split.
  { by rewrite (proj1 (proj2 Hg)). }
  intros j q k' Ej Eq. destruct (decide (j = n)) as [->|Hne].
  - rewrite En in Ej. injection Ej as <-. rewrite Ek in Eq. injection Eq as <-.
    rewrite (proj2 (Nat.ltb_lt n (S n))), Eb by lia. exact Hv.
  - pose proof (Hpr j q k' Ej Eq) as Hj.
    replace (j <? S n)%nat with (j <? n)%nat by (destruct (Nat.ltb_spec j n), (Nat.ltb_spec j (S n)); lia || done).
    destruct (_ && _).
    + eapply frame_virtualised; [exact Hf|lia|exact Hj].
    + eapply frame_waiting; [exact Hf|lia|by eapply E_distinct|exact Hj].
Qed.

Local Abbreviation others := (virtualise_others config mach lay x2apic vmclear_ok vmptrld_ok
  VNUM_VTIMERS root_vcpus root_addr).

(** [b] is the boot processor. *)
Lemma others_run (b : nat) : (∀ (j : nat) pid k, E !! j = Some pid → ks !! pid = Some k → k_bsp k = true ↔ j = b) →
  (∀ pid, pid ∈ E → is_Some (ks !! pid)) →
  ∀ n i bsp s, (i + n = length E)%nat → progress i s →
  ∃ s', others n (Z.of_nat i) bsp s = Ok (if (b <? i)%nat || (length E <=? b)%nat then bsp else Z.of_nat b, s') ∧
    progress (length E) s' ∧ same_globals (hv_of s) (hv_of s').
Proof.
  intros Hb Hks. induction n as [|n IH]; intros i bsp s Hn Hpr.
  - exists s. assert (i = length E) as -> by lia. split; [|split; [done|by split_and!]].
    change (others 0 (Z.of_nat (length E)) bsp s) with (Ok (A:=Z*vmain) (bsp, s)). destruct (Nat.ltb_spec b (length E)), (Nat.leb_spec (length E) b); cbn [orb]; lia || done.
  - destruct (lookup_lt_is_Some_2 E i) as [pid Ei]; [lia|].
    destruct (Hks pid) as [k Ek]; [by eapply list_elem_of_lookup_2|].
    pose proof (proj2 Hpr i pid k Ei Ek) as Hw. rewrite Nat.ltb_irrefl in Hw. cbn [andb] in Hw.
    destruct (wa_data _ _ _ _ _ _ Hw) as (d & Ed & Hdp & Hdb).
    cbn [virtualise_others]. unfold bind at 1, mgets at 1. rewrite Ed, Hdb, Hdp.
    replace (Z.of_nat i + 1) with (Z.of_nat (S i)) by lia.
    pose proof (Hb i pid k Ei Ek) as Hbi. pose proof (lookup_lt_Some _ _ _ Ei) as Hlt. destruct (k_bsp k) eqn:Eb.
    + assert (i = b) as <- by tauto.
      destruct (IH (S i) (Z.of_nat i) s) as (s' & E' & Hp' & Hg'); [lia| |].
      * split; [apply Hpr|]. intros j q k' Ej Eq. pose proof (proj2 Hpr j q k' Ej Eq) as Hj.
        destruct (decide (j = i)) as [->|Hne].
        -- rewrite Ei in Ej. injection Ej as <-. rewrite Ek in Eq. injection Eq as <-. rewrite Eb in *.
           by rewrite andb_false_r in *.
        -- by replace (j <? S i)%nat with (j <? i)%nat
             by (destruct (Nat.ltb_spec j i), (Nat.ltb_spec j (S i)); lia || done).
      * exists s'. split; [|done]. rewrite E'.
        rewrite (proj2 (Nat.ltb_lt i (S i))), Nat.ltb_irrefl, (proj2 (Nat.leb_gt (length E) i)) by lia. done.
    + assert (i ≠ b) by (intros Hib; by apply Hbi in Hib).
      destruct (progress_step i pid k s Ei Ek Eb Hpr) as (s1 & r & E1 & Hp1 & Hg1). mstep E1.
      destruct (IH (S i) bsp s1) as (s' & E' & Hp' & Hg'); [lia|done|].
      exists s'. split; [|split; [done|unfold same_globals in *; destruct_and!; split_and!; congruence]].
      rewrite E'. by replace (b <? S i)%nat with (b <? i)%nat
        by (destruct (Nat.ltb_spec b i), (Nat.ltb_spec b (S i)); lia || done).
Qed.
End Started.

(** ** The start *)

Section Begin.
Context (config : mitigations) (mach : Z → machine) (lay : layout) (x2apic : bool).
Context (vmclear_ok vmptrld_ok : vptr → bool).
Context (NUM_CPUS VNUM_VTIMERS root_vcpus root_addr : Z).
Context (p0 : vper_cpu) (x0 : vcpu).
Local Abbreviation V := (root_vcpu root_vcpus).
Local Abbreviation start := (__start_twanvisor config mach lay x2apic vmclear_ok vmptrld_ok
  NUM_CPUS VNUM_VTIMERS root_vcpus root_addr).

(** The static [root], and as [root_partition_init] leaves it. *)
Definition static_root : vpartition :=
  Vpartition bmp_empty bmp_empty bmp_empty bmp_empty bmp_empty bmp_empty bmp_empty bmp_empty
    ∅ true root_vcpus NUM_CPUS 0 (0, 0, false) 0.
Definition started_root : vpartition := root_partition NUM_CPUS static_root 0.

(** The program's data before the start; [p0] and [x0] are a processor's and a
    vcpu's. *)
Record static_data (num_cpus pid : Z) (s : vmain) : Prop := {
  sd_cpu : ∀ c, 0 <= c < NUM_CPUS → h_cpus (hv_of s) !! c = Some p0;
  sd_vcpu : ∀ c, 0 <= c < NUM_CPUS → h_vcpus (hv_of s) !! V c = Some x0 ∧
    is_Some (h_vcpus (hv_of s) !! VIdle c) ∧ is_Some (h_vmcs (hv_of s) !! V c);
  sd_vmcs : ∀ c, 0 <= c < NUM_CPUS → b_vmcs (v_boot s) !! V c = None ∧
    ∃ b, b_bitmaps (v_boot s) !! V c = Some b ∧ bitmaps_wf b;
  sd_parts : h_parts (hv_of s) = {[root_addr := static_root]};
  sd_table : h_table (hv_of s) = ∅;
  sd_unlocked : h_locks (hv_of s) = [] ∧ h_readers (hv_of s) = 0%nat ∧ h_writer (hv_of s) = false;
  sd_range : 0 <= num_cpus <= NUM_CPUS;
  sd_kcpus : ∀ i, 0 <= i < num_cpus → is_Some (v_kcpu s !! i);
  sd_bsp : ∀ i k, v_kcpu s !! i = Some k → k_bsp k = true ↔ i = pid;
}.

(** What the theorems about the running hypervisor assume of its state. *)
Record started (E : list Z) (ks : gmap Z kcpu) (s : vmain) : Prop := {
  sr_routes : routes_ok (hv_of s);
  sr_ids : ids_ok (hv_of s);
  sr_cpus : cpus_ok (hv_of s);
  sr_table : h_table (hv_of s) = {[0 := root_addr]} ∧ h_root_vid (hv_of s) = 0;
  sr_unlocked : h_locks (hv_of s) = [] ∧ h_readers (hv_of s) = 0%nat ∧ h_writer (hv_of s) = false;
  sr_closed : ∀ ty i j, accepts (hv_of s) ty i j = false;
  sr_virtualised : ∀ (j : nat) pid k, E !! j = Some pid → ks !! pid = Some k →
    virtualised config mach lay x2apic root_vcpus root_addr p0 x0 started_root pid (Z.of_nat j) k s;
  sr_kernel : v_started s = Some (Z.of_nat (length E), 0);
}.

(** From there on the routes implement the rights (Vroutes.v). *)
Lemma started_opening E ks s : started E ks s → opening 0 (hv_of s).
Proof. intros [? ? ? [Ht Hr] ? Hc _ _]. split; try done. by exists root_addr. Qed.

Lemma enabled_length ks n : ∀ i, (length (enabled_ids ks n i) <= n)%nat.
Proof. induction n as [|n IH]; intros i; cbn; [lia|]. specialize (IH (i + 1)). repeat case_match; cbn; lia. Qed.

(** The state in which the processors start. *)
Definition numbered_hv (n : Z) (h : hv) : hv := h <| h_num_cpus := n |>.
Definition rooted (h : hv) : hv :=
  h <| h_vids := bmp256_unset (bmp256_set_all (h_vids h)) 0 |>
    <| h_parts ::= <[root_addr := started_root]> |> <| h_table ::= <[0 := root_addr]> |> <| h_root_vid := 0 |>.

Lemma root_init_run h :
  h_parts h = {[root_addr := static_root]} →
  ∃ h1, vpartition_table_init h = Ok (tt, h1) ∧ root_partition_init NUM_CPUS root_addr h1 = Ok (0, rooted h).
Proof.
  intros Hp. set (h1 := h <| h_vids ::= bmp256_set_all |>). exists h1. split; [reflexivity|].
  set (h2 := h1 <| h_vids := bmp256_unset (bmp256_set_all (h_vids h)) 0 |>).
  assert (__vpartition_id_alloc h1 = Ok (0, h2)) as E1.
  { unfold __vpartition_id_alloc. change (h_vids h1) with (bmp256_set_all (h_vids h)).
    change (bmp256_ffs (bmp256_set_all (h_vids h))) with 0. reflexivity. }
  unfold root_partition_init. mstep E1. change (0 <? 0) with false. cbv iota.
  set (h3 := h2 <| h_parts ::= <[root_addr := started_root]> |>).
  assert (upd_part root_addr (fun p => root_partition NUM_CPUS p 0) h2 = Ok (tt, h3)) as E2.
  { unfold upd_part, get_part, bind. change (h_parts h2) with (h_parts h). by rewrite Hp, lookup_singleton_eq. }
  mstep E2. reflexivity.
Qed.

(** The consistency of the state that every start keeps. *)
Record rooted_state (n : Z) (h : hv) : Prop := {
  ro_parts : h_parts h = {[root_addr := started_root]};
  ro_tab : h_table h = {[0 := root_addr]};
  ro_vid : h_root_vid h = 0;
  ro_vids : ∃ b, h_vids h = bmp256_unset (bmp256_set_all b) 0;
  ro_num : h_num_cpus h = n;
  ro_free : h_locks h = [] ∧ h_readers h = 0%nat ∧ h_writer h = false;
}.

Lemma rooted_state_globals n h h' : same_globals h h' → rooted_state n h → rooted_state n h'.
Proof. intros (G1 & G2 & G3 & G4 & G5 & _ & G7 & G8 & G9) [A1 A2 A3 [b A4] A5 (A6 & A7 & A8)].
  split; try congruence; [exists b|split_and!]; congruence. Qed.

Lemma started_root_wf ty : bmp256_wf (senders ty started_root) ∧ bmp256_wf (receivers ty started_root).
Proof. destruct ty; split; (apply bmp_empty_wf || apply bmp256_set_all_wf). Qed.

Lemma rooted_consistent n h : rooted_state n h →
  routes_ok h ∧ ids_ok h ∧ ∀ ty i j, accepts h ty i j = false.
Proof.
  intros [Hp Ht _ [b Hv] _ _]. split; [|split].
  - split.
    + intros v p. rewrite Ht, Hp. intros [_ <-]%lookup_singleton_Some. eexists. apply lookup_singleton_eq.
    + intros a c p. rewrite Ht. intros [<- _]%lookup_singleton_Some [<- _]%lookup_singleton_Some. done.
    + intros p part ty. rewrite Hp. intros [_ <-]%lookup_singleton_Some. apply started_root_wf.
  - split.
    + rewrite Hv. apply bmp256_unset_wf, bmp256_set_all_wf.
    + intros i Hi. rewrite Hv, bmp256_unset_bit by (lia || apply bmp256_set_all_wf).
      destruct (Z.eqb_spec 0 i) as [<-|Hne]; [done|]. intros _. rewrite Ht. by apply lookup_singleton_None.
  - intros ty i j. unfold accepts. rewrite Ht. destruct ({[0 := root_addr]} !! i) as [p|] eqn:E; [|done].
    apply lookup_singleton_Some in E as [_ <-]. rewrite Hp, lookup_singleton_eq.
    replace (senders ty started_root) with bmp_empty by by destruct ty.
    by rewrite bmp256_test_bit, bmp_empty_bit.
Qed.

(** The processors wait once they are numbered and the root has its id. *)
Lemma progress_start num_cpus pid s pc :
  static_data num_cpus pid s → let E := enabled_ids (v_kcpu s) (Z.to_nat num_cpus) 0 in
  numbered (v_kcpu s) 0 E (v_percpu s) pc →
  ∀ s', v_boot s' = v_boot (with_hv (rooted (numbered_hv (Z.of_nat (length E)) (hv_of s))) s) →
  v_percpu s' = pc → v_kcpu s' = v_kcpu s →
  rooted_state (Z.of_nat (length E)) (hv_of s') ∧
  progress config mach lay x2apic root_vcpus root_addr p0 x0 started_root E (v_kcpu s) 0 s'.
Proof.
  intros Hs E [Hnum _] s' Hb Hpc Hkc. pose proof Hs as [Hcpu Hvcpu Hvm Hparts Htab Hfree Hr Hks Hbsp].
  assert (hv_of s' = rooted (numbered_hv (Z.of_nat (length E)) (hv_of s))) as Hh by (unfold hv_of; by rewrite Hb).
  assert (h_parts (hv_of s') = {[root_addr := started_root]}) as Hp'.
  { rewrite Hh. change (<[root_addr := started_root]> (h_parts (hv_of s)) = {[root_addr := started_root]}).
    by rewrite Hparts, insert_singleton_eq. }
  split.
  - split; [exact Hp'| |by rewrite Hh|by exists (h_vids (hv_of s)); rewrite Hh|by rewrite Hh|by rewrite Hh].
    rewrite Hh. change (<[0 := root_addr]> (h_table (hv_of s)) = {[0 := root_addr]}). by rewrite Htab, insert_empty.
  - split; [by rewrite Hp', lookup_singleton_eq|]. intros j q k Ej Ek. cbn [Nat.ltb Nat.leb andb].
    assert (0 <= Z.of_nat j < NUM_CPUS) as Hj.
    { pose proof (lookup_lt_Some _ _ _ Ej). pose proof (enabled_length (v_kcpu s) (Z.to_nat num_cpus) 0). unfold E in *. lia. }
    destruct (Hvcpu _ Hj) as (Hx & Hi & Hg). destruct (Hvm _ Hj) as [Hf Hbm].
    split; try (rewrite Hh; done || exact (Hcpu _ Hj)); try by rewrite Hb.
    + by rewrite Hkc.
    + destruct (Hnum j q Ej) as (k' & Ek' & Epc). rewrite Ek in Ek'. injection Ek' as <-.
      rewrite Hpc. exists (new_vdata q (k_bsp k)). by rewrite <- Epc.
Qed.

(** The boot processor, when the others run. *)
Lemma bsp_starts E ks (b : nat) pid s :
  NoDup E → (∀ j : nat, (j < length E)%nat → able mach vmclear_ok vmptrld_ok root_vcpus (Z.of_nat j)) →
  E !! b = Some pid → (∀ (j : nat) q k, E !! j = Some q → ks !! q = Some k → k_bsp k = true ↔ j = b) →
  is_Some (ks !! pid) →
  progress config mach lay x2apic root_vcpus root_addr p0 x0 started_root E ks (length E) s →
  ∃ s' r, __virtualise_core config mach lay x2apic vmclear_ok vmptrld_ok VNUM_VTIMERS root_vcpus root_addr
      pid (Z.of_nat b) s = Ok (r, s') ∧ same_globals (hv_of s) (hv_of s') ∧
    ∀ (j : nat) q k, E !! j = Some q → ks !! q = Some k →
      virtualised config mach lay x2apic root_vcpus root_addr p0 x0 started_root q (Z.of_nat j) k s'.
Proof.
  intros Hnd Hable Eb Hb [k Ek] [Hp Hpr].
  pose proof (proj2 (Hb b pid k Eb Ek) eq_refl) as Hk.
  pose proof (Hpr b pid k Eb Ek) as Hw. rewrite Hk, andb_false_r in Hw.
  destruct (virtualise_core_run config mach lay x2apic vmclear_ok vmptrld_ok VNUM_VTIMERS root_vcpus root_addr
    p0 x0 pid (Z.of_nat b) k s started_root (Hable b (lookup_lt_Some _ _ _ Eb)) Hw Hp) as (s' & E' & Hv & Hf).
  exists s', (vmlaunch_ok (mach (Z.of_nat b))). split; [exact E'|].
  split; [exact (frame_globals _ _ _ _ (mf_hv _ _ _ _ _ Hf))|].
  intros j q k' Ej Eq. destruct (decide (j = b)) as [->|Hne].
  - rewrite Eb in Ej. injection Ej as <-. rewrite Ek in Eq. by injection Eq as <-.
  - pose proof (Hpr j q k' Ej Eq) as Hj. rewrite (proj2 (Nat.ltb_lt _ _) (lookup_lt_Some _ _ _ Ej)) in Hj.
    destruct (k_bsp k') eqn:Ek'; [by apply (Hb j q k' Ej Eq) in Ek'|].
    eapply frame_virtualised; [exact Hf|lia|exact Hj].
Qed.

(** Table and root, from a numbered state. *)
Lemma boot_roots s : h_parts (hv_of s) = {[root_addr := static_root]} →
  ∃ s1 s2, in_boot (in_hv vpartition_table_init) s = Ok (tt, s1) ∧
    in_boot (in_hv (root_partition_init NUM_CPUS root_addr)) s1 = Ok (0, s2) ∧
    v_percpu s2 = v_percpu s ∧ v_kcpu s2 = v_kcpu s ∧ v_boot s2 = v_boot (with_hv (rooted (hv_of s)) s).
Proof.
  intros Hp. destruct (root_init_run (hv_of s) Hp) as (h1 & E1 & E2).
  exists (with_hv h1 s), (with_hv (rooted (hv_of s)) (with_hv h1 s)).
  split; [by apply in_boot_hv|]. split; [by apply in_boot_hv|]. done.
Qed.


Lemma with_hv_id s : with_hv (b_hv (v_boot s)) s = s.
Proof. by destruct s as [[] ? ? ? ? ? ? ?]. Qed.

(** All the processors, the boot processor [pid] last. *)
Lemma processors_start E ks pid s :
  NoDup E → (∀ j : nat, (j < length E)%nat → able mach vmclear_ok vmptrld_ok root_vcpus (Z.of_nat j)) →
  pid ∈ E → (∀ q, q ∈ E → is_Some (ks !! q)) →
  (∀ q k, q ∈ E → ks !! q = Some k → k_bsp k = true ↔ q = pid) →
  progress config mach lay x2apic root_vcpus root_addr p0 x0 started_root E ks 0 s →
  ∃ s3 b r s4, virtualise_others config mach lay x2apic vmclear_ok vmptrld_ok VNUM_VTIMERS root_vcpus root_addr
      (length E) 0 0 s = Ok (b, s3) ∧
    __virtualise_core config mach lay x2apic vmclear_ok vmptrld_ok VNUM_VTIMERS root_vcpus root_addr pid b s3
      = Ok (r, s4) ∧ same_globals (hv_of s) (hv_of s4) ∧
    ∀ (j : nat) q k, E !! j = Some q → ks !! q = Some k →
      virtualised config mach lay x2apic root_vcpus root_addr p0 x0 started_root q (Z.of_nat j) k s4.
Proof.
  intros Hnd Hable Hpid Hks Hbsp Hpr. apply list_elem_of_lookup in Hpid as [b Eb].
  assert (∀ (j : nat) q k, E !! j = Some q → ks !! q = Some k → k_bsp k = true ↔ j = b) as Hb.
  { intros j q k Ej Ek. rewrite (Hbsp q k (list_elem_of_lookup_2 _ _ _ Ej) Ek). split.
    - intros ->. by eapply NoDup_lookup.
    - intros ->. congruence. }
  destruct (others_run config mach lay x2apic vmclear_ok vmptrld_ok VNUM_VTIMERS root_vcpus root_addr p0 x0
    started_root E ks Hnd Hable b Hb Hks (length E) 0%nat 0 s eq_refl Hpr) as (s3 & E3 & Hp3 & Hg3).
  pose proof (lookup_lt_Some _ _ _ Eb) as Hlt.
  rewrite (proj2 (Nat.leb_gt (length E) b) Hlt) in E3. cbn [Nat.ltb Nat.leb orb] in E3.
  destruct (bsp_starts E ks b pid s3 Hnd Hable Eb Hb (Hks pid (list_elem_of_lookup_2 _ _ _ Eb)) Hp3)
    as (s4 & r & E4 & Hg4 & Hall).
  exists s3, (Z.of_nat b), r, s4. split; [exact E3|]. split; [exact E4|]. split; [|exact Hall].
  unfold same_globals in *. destruct_and!. split_and!; congruence.
Qed.

(** C4. The start of the hypervisor, from the static data of the program and on
    processors whose VMX instructions succeed and whose frequencies are known.
    If an enabled processor lacks VMX the start is refused and no processor is
    touched.  Otherwise every enabled processor runs its vcpu of the root,
    programmed as [root_fields] says and with its traps set up; and the state is
    as the theorems about the running hypervisor assume it: the root alone is in
    the table, under the id 0; ids and routes are consistent; it accepts nothing
    from anybody; and no lock is held.  (The processor that starts it is one of
    the enabled ones, and the one that booted.) *)
Theorem start_establishes num_cpus pid s :
  static_data num_cpus pid s →
  let E := enabled_ids (v_kcpu s) (Z.to_nat num_cpus) 0 in
  pid ∈ E →
  (∀ j : nat, (j < length E)%nat → able mach vmclear_ok vmptrld_ok root_vcpus (Z.of_nat j)) →
  ((∃ i k, i ∈ E ∧ v_kcpu s !! i = Some k ∧ k_vmx k = false) →
     ∃ s', start pid num_cpus s = Ok (- EOPNOTSUPP, s') ∧ v_boot s' = v_boot s) ∧
  ((∀ i k, i ∈ E → v_kcpu s !! i = Some k → k_vmx k = true) →
     ∃ s', start pid num_cpus s = Ok (0, s') ∧ started E (v_kcpu s) s').
Proof.
  intros Hs E Hpid Hable. pose proof Hs as [_ _ _ Hparts _ _ Hr Hks Hbsp].
  destruct (number_cpus_run (Z.to_nat num_cpus) 0 0 s) as (pc & r & En & Hn); [intros j Hj; apply Hks; lia|].
  fold E in Hn. unfold __start_twanvisor. split; intros Hv.
  - destruct Hn as [[-> _]|(_ & _ & Hall)]; [|destruct Hv as (i & k & Hi & Ei & Evx); by rewrite (Hall i k Hi Ei) in Evx].
    exists (s <| v_percpu := pc |>). split; [|done].
    assert (vkernel_init lay num_cpus s = Ok (- EOPNOTSUPP, s <| v_percpu := pc |>)) as Ei.
    { unfold vkernel_init. by mstep En. }
    mstep Ei. reflexivity.
  - destruct Hn as [[_ (i & k & Hi & Ei & Evx)]|(-> & Hnum & _)]; [by rewrite (Hv i k Hi Ei) in Evx|].
    set (n := Z.of_nat (length E)).
    assert (∃ s1, vkernel_init lay num_cpus s = Ok (0, s1) ∧ v_percpu s1 = pc ∧ v_kcpu s1 = v_kcpu s ∧
      v_boot s1 = v_boot (with_hv (numbered_hv n (hv_of s)) s)) as (s1 & E1 & P1 & K1 & B1).
    { eexists. split; [unfold vkernel_init; mstep En; reflexivity|]. done. }
    mstep E1. change (0 <? 0) with false. cbv iota.
    assert (h_parts (hv_of s1) = {[root_addr := static_root]}) as Hp1 by (unfold hv_of; rewrite B1; exact Hparts).
    destruct (boot_roots s1 Hp1) as (s2 & s2' & E2 & E2' & P2 & K2 & B2). mstep E2. mstep E2'.
    change (0 <? 0) with false. cbv iota.
    destruct (progress_start num_cpus pid s pc Hs Hnum s2') as [Hroot Hpr]; [|congruence|congruence|].
    { rewrite B2. unfold with_hv, hv_of. cbn [v_boot b_hv]. rewrite B1. reflexivity. }
    fold E n in Hroot, Hpr.
    assert (vnum_cpus (hv_of s2') = Ok (n, hv_of s2')) as E3 by (unfold vnum_cpus, mgets; by rewrite (ro_num _ _ Hroot)).
    mstep (in_boot_hv _ s2' _ _ E3).
    change (with_hv (hv_of s2') s2') with (with_hv (b_hv (v_boot s2')) s2'). rewrite with_hv_id.
    assert (n = Z.of_nat (length E)) as En' by done. rewrite En', Nat2Z.id.
    destruct (processors_start E (v_kcpu s) pid s2') as (s3 & b & r & s4 & E4 & E5 & Hg & Hall);
      [apply enabled_ids_NoDup|done|done| |by intros q k _; apply Hbsp|by rewrite P2 in Hpr || exact Hpr|].
    { intros q Hq. apply Hks. apply enabled_ids_range in Hq. lia. }
    mstep E4. mstep E5.
    apply (rooted_state_globals _ _ (hv_of s4)) in Hroot; [|done].
    assert (get_part root_addr (hv_of s4) = Ok (started_root, hv_of s4)) as E6.
    { unfold get_part. by rewrite (ro_parts _ _ Hroot), lookup_singleton_eq. }
    mstep (in_boot_hv _ s4 _ _ E6). eexists. split; [reflexivity|].
    destruct (rooted_consistent _ _ Hroot) as (R1 & R2 & R3). destruct Hroot as [_ Ht Hrv _ Hnc Hfree]. split; try done.
    + intros i Hi. change (is_Some (h_cpus (hv_of s4) !! i)). change (0 <= i < h_num_cpus (hv_of s4)) in Hi.
      destruct (lookup_lt_is_Some_2 E (Z.to_nat i)) as [q Eq]; [lia|].
      destruct (Hks q) as [k Ek]; [apply list_elem_of_lookup_2, enabled_ids_range in Eq; lia|].
      pose proof (vt_cpu _ _ _ _ _ _ _ _ _ _ _ _ _ (Hall _ q k Eq Ek)) as Hc. rewrite Z2Nat.id in Hc by lia.
      rewrite Hc. by eexists.
    + intros j q k Ej Ek. destruct (Hall j q k Ej Ek). by split.
Qed.
End Begin.

(** ** Descriptors read back *)

Lemma split_field (x i n : Z) : 0 <= i → 0 <= n →
  Z.land x (Z.ones i) + Z.shiftl (Z.land (Z.shiftr x i) (Z.ones n)) i = Z.land x (Z.ones (i + n)).
Proof.
  intros Hi Hn. rewrite !Z.land_ones, Z.shiftl_mul_pow2, Z.shiftr_div_pow2, Z.pow_add_r by lia.
  rewrite (Z.rem_mul_r x (2 ^ i) (2 ^ n)) by lia. lia.
Qed.

Lemma lor_fields (a b i : Z) : 0 <= i → Z.lor (Z.shiftl a i) (Z.land b (Z.ones i)) = Z.land b (Z.ones i) + Z.shiftl a i.
Proof.
  intros Hi. rewrite Z.lor_comm. symmetry. apply Z.add_nocarry_lor. apply Z.bits_inj'. intros n Hn.
  rewrite !Z.land_spec, Z.bits_0. destruct (Z.ltb_spec n i).
  - by rewrite Z.shiftl_spec_low, andb_false_r.
  - by rewrite Z.ones_spec_high, andb_false_r by lia.
Qed.

(** The base of a descriptor, from its three fields of the low half. *)
Lemma tss_low base :
  Z.lor (Z.lor (Z.shiftl (Z.land (Z.shiftr base 24) 0xff) 24) (Z.shiftl (Z.land (Z.shiftr base 16) 0xff) 16))
    (Z.land base 0xffff) = Z.land base (Z.ones 32).
Proof.
  change 0xff with (Z.ones 8). change 0xffff with (Z.ones 16).
  rewrite <- Z.lor_assoc, lor_fields by lia. rewrite split_field by lia. change (16 + 8) with 24.
  rewrite lor_fields by lia. by rewrite split_field.
Qed.

Lemma high_half base : 0 <= base < 2 ^ 64 → 0 <= Z.shiftr base 32 < 2 ^ 32.
Proof.
  intros Hb. rewrite Z.shiftr_div_pow2 by lia. split; [apply Z.div_pos; lia|apply Z.div_lt_upper_bound; lia].
Qed.

Lemma lor_ones (hi n : Z) : 0 <= n → 0 <= hi < 2 ^ n → Z.lor (Z.ones n) hi = Z.ones n.
Proof.
  intros Hn Hhi. apply Z.bits_inj'. intros i Hi. rewrite Z.lor_spec. destruct (Z.ltb_spec i n).
  - by rewrite Z.ones_spec_low by lia.
  - rewrite Z.ones_spec_high by lia. rewrite Z.testbit_odd, Z.shiftr_div_pow2, Z.div_small; [done| |lia].
    split; [lia|]. apply Z.lt_le_trans with (2 ^ n); [lia|]. apply Z.pow_le_mono_r; lia.
Qed.

(** The two halves joined where the low one was widened as an int. *)
Lemma sext_joins base : 0 <= base < 2 ^ 64 →
  Z.lor (sext32 (Z.land base (Z.ones 32))) (Z.shiftl (Z.shiftr base 32) 32) = base ↔
  Z.testbit base 31 = false ∨ Z.shiftr base 32 = 2 ^ 32 - 1.
Proof.
  intros Hb. pose proof (high_half base Hb) as Hhi. pose proof (split_field base 32 32 ltac:(lia) ltac:(lia)) as Hs.
  rewrite (Z.land_ones base (32 + 32)), (Z.mod_small base) in Hs by lia.
  rewrite (Z.land_ones (Z.shiftr base 32)), (Z.mod_small (Z.shiftr base 32)) in Hs by lia.
  set (hi := Z.shiftr base 32) in *. set (lo := Z.land base (Z.ones 32)) in *.
  unfold sext32. replace (Z.testbit lo 31) with (Z.testbit base 31)
    by (unfold lo; rewrite Z.land_spec, Z.ones_spec_low, andb_true_r by lia; done).
  destruct (Z.testbit base 31).
  - change (2 ^ 64 - 2 ^ 32) with (Z.shiftl (Z.ones 32) 32).
    assert (lo + Z.shiftl (Z.ones 32) 32 = Z.lor (Z.shiftl (Z.ones 32) 32) lo) as ->
      by (unfold lo; by rewrite lor_fields by lia).
    rewrite (Z.lor_comm _ lo), <- Z.lor_assoc, <- Z.shiftl_lor, lor_ones by lia.
    rewrite Z.lor_comm. unfold lo at 1. rewrite lor_fields by lia. fold lo.
    rewrite <- Hs at 1. rewrite !Z.shiftl_mul_pow2 by lia. change (Z.ones 32) with (2 ^ 32 - 1).
    split; [right; lia|]. intros [?|E]; [done|]. rewrite E. lia.
  - split; [by left|]. intros _. rewrite Z.lor_comm. unfold lo. rewrite lor_fields by lia. exact Hs.
Qed.

(** What [vkernel_init] and [vper_cpu_data_init] encode is what is read
    back: the processor goes through a gate to the entry it was given; the base
    of the task state segment is found again where bit 31 is clear or the high
    half is all ones, as for the kernel's own addresses, and otherwise not,
    because [__segment_base] shifts [base_high] as an int. *)
Theorem descriptors_round_trip entry i base limit :
  0 <= entry < 2 ^ 64 → 0 <= base < 2 ^ 64 →
  gate_offset (idt_gate i entry) = entry ∧
  (__segment_base (tss_descriptor base limit) = base ↔
   Z.testbit base 31 = false ∨ Z.shiftr base 32 = 2 ^ 32 - 1).
Proof.
  intros He Hb. split.
  - unfold gate_offset, idt_gate. cbn [offset_low offset_mid offset_high].
    change 0xffff with (Z.ones 16). unfold wrap. rewrite <- Z.land_ones by lia.
    rewrite split_field by lia. change (16 + 16) with 32. rewrite split_field by lia.
    rewrite Z.land_ones, Z.mod_small by lia. done.
  - unfold __segment_base, tss_descriptor. cbn [present negb base_high base_mid base_low descriptor_type segment_type
      base_upper]. change ((0 =? 0) && ((TSS_AVAILABLE =? TSS_AVAILABLE) || (TSS_AVAILABLE =? TSS_BUSY))) with true.
    cbv iota. rewrite tss_low. unfold wrap. rewrite (Z.mod_small (Z.shiftr base 32)).
    2: by apply high_half.
    by apply sext_joins.
Qed.

Lemma descriptors_round_trip_witness :
  gate_offset (idt_gate 14 0xffffffff80123456) = 0xffffffff80123456 ∧
  __segment_base (tss_descriptor 0xffffffff80400000 103) = 0xffffffff80400000 ∧
  __segment_base (tss_descriptor 0x80400000 103) = 0xffffffff80400000.
Proof.
  destruct (descriptors_round_trip 0xffffffff80123456 14 0xffffffff80400000 103 ltac:(lia) ltac:(lia)) as [H1 H2].
  split; [exact H1|]. split; [apply H2; right; reflexivity|reflexivity].
Defined.

(** Two processors, the first the boot processor, and the static data. *)
Definition ex_machine (c : Z) : machine :=
  Machine (fun leaf _ => if leaf =? CPUID_TSC_CORE_CRYSTAL then (2, 168, 24000000, 0) else (0, 0, 0, 0))
    (fun _ => 2 ^ 64 - 2 ^ 32) (Measured None 0 0 0)
    0x80000011 0x1000 0x20 0 0x400 8 16 16 16 16 16 24 0 0x5000 39 0x6000 4095
    (fun _ => tss_descriptor 0xffffffff80400000 103) (fun _ => 0xffff) (fun _ => 0x8b00)
    0xffffffff80100000 0xffffffff80200000 2 true true.
Definition ex_layout : layout :=
  Layout 0 (fun _ => 0) (fun _ => 0) (fun _ => 0) 0 0 0 (fun _ => 0) (fun _ => 0) (fun _ => 0) (fun _ => 0)
    (fun _ => 0) (fun _ => 0) (fun _ => 0) (fun _ => 0x1000) (fun _ => 0x2000) (fun _ => 0x3000) (fun _ => 0x4000) 0.
Definition zero_context : context := Context 0 0 0 0 0 0 0 0 0 0 0 0 0 0 0 0 0 0 0 0.
Definition zero_cpu : vper_cpu :=
  VperCpu bmp_empty false zero_context false None (replicate 256%nat dq_init) dq_init
    (Vscheduler (replicate 5%nat dq_init) dq_init 0 0) false false (Vshield 0 0 0 false false false)
    false (VipiCall None 0).
Definition zero_vcpu : vcpu :=
  Vcpu false (VschedMetadata VREADY false 0 0 0 false false VSPIN_NONE) 0 false false ∅ ∅ ∅ dq_init
    0 0 0 0 zero_context false 0 ∅ bmp_empty bmp_empty (Delivery 0 false 0 false false) bmp_empty
    (Voperations false false false false false 0 0 (VectoredEvent INTERRUPT_TYPE_EXTERNAL 0 false) 0).
Definition zero_vmcs : vmcs_guest :=
  VmcsGuest 0 0 0 0 0 0 0 0 0 false false false false None 0 0 (VmexitInfo 0 false 0 None false None).
Definition zero_kcpu (bsp : bool) : kcpu := Kcpu true true bsp 0 0 0 0 0 0 bmp_empty 0 0 0 0 0 false.

Definition ex_static : vmain :=
  Vmain
    (Boot (Hv 0 0 {[0 := zero_cpu; 1 := zero_cpu]}
       {[VOf 1000 0 := zero_vcpu; VOf 1000 1 := zero_vcpu; VIdle 0 := zero_vcpu; VIdle 1 := zero_vcpu]}
       {[100 := static_root 2 1000]} ∅ 0 bmp_empty [] 0 false ∅ []
       {[VOf 1000 0 := zero_vmcs; VOf 1000 1 := zero_vmcs]} ∅ ∅)
     ∅ {[VOf 1000 0 := ex_bitmaps; VOf 1000 1 := ex_bitmaps]} ∅)
    ∅ ∅ {[0 := zero_kcpu true; 1 := zero_kcpu false]} 0 [] 0 None.

Lemma two_cases i : 0 <= i < 2 → i = 0 ∨ i = 1.
Proof. lia. Qed.

Lemma ex_kcpus i k : v_kcpu ex_static !! i = Some k →
  i = 0 ∧ k = zero_kcpu true ∨ i = 1 ∧ k = zero_kcpu false.
Proof.
  change (v_kcpu ex_static) with (<[0 := zero_kcpu true]> {[1 := zero_kcpu false]} : gmap Z kcpu).
  intros [[<- <-]|[_ [<- <-]%lookup_singleton_Some]]%lookup_insert_Some; auto.
Qed.

Lemma ex_static_data : static_data 2 1000 100 zero_cpu zero_vcpu 2 0 ex_static.
Proof.
  assert (bitmaps_wf ex_bitmaps) as W by (split_and!; apply length_replicate).
  split; try done.
  - intros c [-> | ->]%two_cases; reflexivity.
  - intros c [-> | ->]%two_cases; split_and!; reflexivity || by eexists.
  - intros c [-> | ->]%two_cases; (split; [reflexivity|by exists ex_bitmaps]).
  - intros i [-> | ->]%two_cases; by eexists.
  - by intros i k [[-> ->]|[-> ->]]%ex_kcpus.
Qed.

Lemma start_establishes_witness :
  ∃ s', __start_twanvisor (Mitigations true true true true true true true true true true) ex_machine ex_layout false
      (fun _ => true) (fun _ => true) 2 1 1000 100 0 2 ex_static = Ok (0, s') ∧
    routes_ok (hv_of s') ∧ running (set_this 1 (hv_of s')) (VOf 1000 1) ∧ v_started s' = Some (2, 0).
Proof.
  destruct (start_establishes (Mitigations true true true true true true true true true true) ex_machine ex_layout false
    (fun _ => true) (fun _ => true) 2 1 1000 100 zero_cpu zero_vcpu 2 0 ex_static ex_static_data) as [_ H].
  - left.
  - intros j _. split; [done|done|]. eexists. vm_compute. reflexivity.
  - destruct H as (s' & E & [Hr _ _ _ _ _ Hv Hk]).
    + by intros i k _ [[_ ->]|[_ ->]]%ex_kcpus.
    + exists s'. split; [exact E|]. split; [exact Hr|]. split; [|exact Hk].
      exists (started_cpu zero_cpu <| current_vcpu := Some (VOf 1000 1) |>). split; [|reflexivity].
      apply (vt_cpu _ _ _ _ _ _ _ _ _ _ _ _ _ (Hv 1%nat 1 _ eq_refl eq_refl)).
Defined.
