(* ===== verification/Vexample.v ===== *)
(** * Vexample: a concrete hypervisor

    Two processors, the root (id 0) and two partitions (ids 1 and 2); the
    partition 2 accepts every kind of request from 1.  Each theorem on the
    hypervisor is applied to it here. *)

From S2P Require Import Prelude Std Bmp Dq DeltaChain SchedDsa Twan VschedDsa Vpartition Vrecovery.
From S2P Require Import Vutils Vsched Vemu Vteardown Vcreate Vcalls Vtimers Vcreation Venter.
From coqutil Require Import Datatypes.RecordSetters.
From Stdlib Require Import ZArith Lia Bool.
From stdpp Require Import base gmap list numbers sets.

Local Open Scope Z_scope.

Definition bits (l : list Z) : bmp256 := foldr (fun i b => bmp256_set b i) bmp_empty l.
Definition no_regs (n : Z) : context := Context 0 0 0 0 0 0 0 0 0 0 0 0 0 0 0 0 n 2 n 0.

Definition ex_part (v base count : Z) (from to : list Z) : vpartition :=
  Vpartition (bits to) (bits from) (bits to) (bits from) (bits to) (bits from) (bits to) (bits from)
    {[ 0 := VcriticalityPerm true true 1 3; 1 := VcriticalityPerm true false 0 0 ]}
    (v =? 0) base count 0 (0, 40, false) v.

Definition ex_vcpu (v pid cpu crit : Z) (st : vcpu_state_t) : vcpu :=
  Vcpu (v =? 0)
    (VschedMetadata st false crit 10 10 false false VSPIN_NONE)
    0 false false
    (list_to_map (map (fun i => (i, Vtimer 0 false false false 0)) [0; 1; 2]))
    (list_to_map (map (fun i => (i, LNode None None)) [0; 1; 2]))
    (list_to_map (map (fun i => (i, 0)) [0; 1; 2])) dq_init
    pid v 2 (100 + v) (no_regs (v * 10 + pid)) false cpu ∅ bmp_empty bmp_empty
    (Delivery 0 false 0 false false) bmp_empty
    (Voperations false false false false false 0 0 (VectoredEvent INTERRUPT_TYPE_EXTERNAL 0 false) 0).

Definition ex_cpu (cur : vptr) (qs : list (dq vnode)) : vper_cpu :=
  VperCpu (bits [40; 41]) false (no_regs 7) true (Some cur)
    (replicate 256%nat dq_init) dq_init (Vscheduler qs dq_init 2 VSCHED_IDLE_KICK_UNSET)
    false false (Vshield 0 0 0 false false false) false (VipiCall None 0).

(** The vcpu that runs on processor 0, one ready there, one that runs on 1. *)
Definition v10 : vptr := VOf 1001 0.
Definition v11 : vptr := VOf 1001 1.
Definition v20 : vptr := VOf 1002 0.

(** [v11], of criticality 1, is queued in the queues 0 and 1 of processor 0. *)
Definition ex_queues : list (dq vnode) :=
  [Dq (Some (NSched v11 0)) (Some (NSched v11 0)); Dq (Some (NSched v11 1)) (Some (NSched v11 1));
   dq_init; dq_init; dq_init].
Definition ex_Qs (i : nat) : list vnode :=
  match i with O => [NSched v11 0] | 1%nat => [NSched v11 1] | _ => [] end.

(** The last exit was a vcall. *)
Definition ex_exit : vmexit_info := VmexitInfo 18 false 0 None false None.

Definition ex_vcpus : list (vptr * vcpu) :=
  [(v10, ex_vcpu 1 0 0 2 VTRANSITIONING); (v11, ex_vcpu 1 1 0 1 VREADY);
   (v20, ex_vcpu 2 0 1 2 VRUNNING); (VOf 1000 0, ex_vcpu 0 0 1 4 VPAUSED);
   (VIdle 0, ex_vcpu 0 0 0 0 VREADY); (VIdle 1, ex_vcpu 0 0 1 0 VREADY)].

Definition ex_hv : hv :=
  Hv 0 2
    (<[0 := ex_cpu v10 ex_queues]> {[1 := ex_cpu v20 (replicate 5%nat dq_init)]})
    (list_to_map ex_vcpus)
    (<[100 := ex_part 0 1000 1 [] (seqZ 0 256)]> (<[101 := ex_part 1 1001 2 [0] [2]]>
       {[102 := ex_part 2 1002 1 [0; 1] []]}))
    (<[0 := 100]> (<[1 := 101]> {[2 := 102]}))
    0 (bits [5; 6]) [] 0 false
    (list_to_map (flat_map (fun vx => map (fun i => (NSched (fst vx) i, LNode None None)) (seq 0 5))
                    ex_vcpus))
    []
    (list_to_map (map (fun vx => (fst vx, VmcsGuest 0x80000031 0x2000 0x209b 0x500 0x202 0x1000 0x8000 0
       0 false false false false None 3 0 ex_exit)) ex_vcpus))
    (<[0 := v10]> {[1 := v20]}) {[0 := true]}.

Lemma ex_running : running ex_hv v10.
Proof. exists (ex_cpu v10 ex_queues). split; reflexivity. Qed.

Lemma ex_table_inv a p : h_table ex_hv !! a = Some p →
  (a = 0 ∧ p = 100) ∨ (a = 1 ∧ p = 101) ∨ (a = 2 ∧ p = 102).
Proof.
  cbn. rewrite !lookup_insert_Some, lookup_singleton_Some. naive_solver.
Qed.

Lemma ex_parts_inv p part : h_parts ex_hv !! p = Some part →
  part = ex_part 0 1000 1 [] (seqZ 0 256) ∨ part = ex_part 1 1001 2 [0] [2] ∨
  part = ex_part 2 1002 1 [0; 1] [].
Proof.
  unfold ex_hv, h_parts. rewrite !lookup_insert_Some, lookup_singleton_Some. naive_solver.
Qed.

Lemma ex_routes_ok : routes_ok ex_hv.
Proof.
  split.
  - intros a p H. apply ex_table_inv in H as [[-> ->]|[[-> ->]|[-> ->]]]; by eexists.
  - intros a b p Ha Hb. apply ex_table_inv in Ha, Hb. lia.
  - intros p part ty H.
    assert (∀ l, (∀ i, i ∈ l → 0 <= i < 256) → bmp256_wf (bits l)) as Hbits.
    { induction l as [|i l IH]; intros Hl; [apply bmp_empty_wf|].
      apply bmp256_set_wf; [apply IH|]; intros; apply Hl; set_solver. }
    apply ex_parts_inv in H as [-> | [-> | ->]]; destruct ty; split; apply Hbits;
      intros i Hi; set_unfold; lia.
Qed.

Lemma ex_free v : entry_free ex_hv v.
Proof. split; [done|]. apply not_elem_of_nil. Qed.
Lemma ex_unlocked l : l ∉ h_locks ex_hv.
Proof. apply not_elem_of_nil. Qed.

(** A property of every id, checked one by one. *)
Lemma all_ids (f : Z → bool) : forallb (fun n => f (Z.of_nat n)) (seq 0 256) = true →
  ∀ i, 0 <= i < 256 → f i = true.
Proof.
  intros H i Hi. rewrite forallb_forall in H. rewrite <- (Z2Nat.id i) by lia. apply H, in_seq. lia.
Qed.

(** ** Applications *)

Lemma far_calls_need_a_route_witness :
  vemu_inject_external_interrupt_far 0 0 40 false ex_hv = Ok (-22, ex_hv) ∧
  vemu_pv_spin_kick_far 7 0 ex_hv = Ok (-22, ex_hv).
Proof.
  split.
  - apply (far_calls_need_a_route ex_hv v10 (ex_vcpu 1 0 0 2 VTRANSITIONING) 0 0 40 false false
      ex_running eq_refl ltac:(done) (ro_table _ ex_routes_ok) (ex_free 0)). reflexivity.
  - apply (far_calls_need_a_route ex_hv v10 (ex_vcpu 1 0 0 2 VTRANSITIONING) 7 0 40 false false
      ex_running eq_refl ltac:(done) (ro_table _ ex_routes_ok) (ex_free 7)). reflexivity.
Defined.

Lemma vemu_set_route_decides_witness :
  ∃ s', vemu_set_route 1 2 2 true ex_hv = Ok (0, s') ∧
    accepts s' VREAD_VCPU_STATE_ROUTE 1 2 = true ∧ accepts s' VIPI_ROUTE 1 2 = false.
Proof.
  destruct (vemu_set_route_decides ex_hv 2 VREAD_VCPU_STATE_ROUTE 2 1 102 101 true ex_routes_ok
    eq_refl ltac:(done) ltac:(lia) ltac:(lia) eq_refl eq_refl (ex_free 2) (ex_free 1))
    as (s' & E & _ & _ & Hr).
  exists s'. split; [exact E|].
  destruct (Hr VREAD_VCPU_STATE_ROUTE 1 2 ltac:(lia)) as [H1 _].
  destruct (Hr VIPI_ROUTE 1 2 ltac:(lia)) as [H2 _]. by rewrite H1, H2.
Defined.

Lemma criticality_access_is_confined_witness :
  vemu_write_criticality_level 1 0 3 ex_hv =
    Ok (0, level_set ex_hv 0 (ex_cpu v10 ex_queues) 3) ∧
  vemu_write_criticality_level 1 0 4 ex_hv = Ok (-22, ex_hv) ∧
  vemu_read_criticality_level 1 0 ex_hv = Ok (2, ex_hv).
Proof.
  pose proof (λ l, criticality_access_is_confined ex_hv 1 101 (ex_part 1 1001 2 [0] [2])
    (VcriticalityPerm true true 1 3) 0 (ex_cpu v10 ex_queues) l
    (ex_free 1) (ex_unlocked _) eq_refl eq_refl eq_refl eq_refl ltac:(done)) as H.
  destruct (H 3) as (W & R & _), (H 4) as (W4 & _).
  split; [exact W|split; [exact W4|exact R]].
Defined.

Lemma far_interrupt_is_delivered_witness :
  vemu_inject_external_interrupt_far 2 0 40 false ex_hv =
    Ok (0, injected ex_hv v20 (ex_vcpu 2 0 1 2 VRUNNING) 40 false) ∧
  h_log (injected ex_hv v20 (ex_vcpu 2 0 1 2 VRUNNING) 40 false) = [EVipi 1].
Proof.
  split; [|reflexivity].
  apply (far_interrupt_is_delivered ex_hv v10 (ex_vcpu 1 0 0 2 VTRANSITIONING) 2 102
    (ex_part 2 1002 1 [0; 1] []) 0 (ex_vcpu 2 0 1 2 VRUNNING) 40 false ex_running eq_refl
    ltac:(done) ltac:(done) (ex_free 2) eq_refl eq_refl); [reflexivity|lia|reflexivity|
    apply ex_unlocked|apply ex_unlocked].
Defined.

(** The run queues of processor 0. *)
Lemma ex_vq_rep : vq_rep (h_nodes ex_hv) (vsched (ex_cpu v10 ex_queues)) ex_Qs [].
Proof.
  split.
  - reflexivity.
  - intros i d E. destruct i as [|[|[|[|[|i]]]]]; cbn in E; try discriminate; injection E as <-;
      (split; [repeat constructor; set_solver|vm_compute; repeat split; reflexivity|reflexivity..]).
  - intros [|[|i]] n Hn; cbn in Hn; [apply list_elem_of_singleton in Hn; by eexists..|].
    by apply not_elem_of_nil in Hn.
  - split; [constructor|exact I|reflexivity..].
  - intros n Hn. by apply not_elem_of_nil in Hn.
  - intros n Hn. by apply not_elem_of_nil in Hn.
  - vm_compute. split; discriminate.
Qed.

Lemma vsched_pop_chooses_witness :
  (∃ h' sc', __vsched_pop ex_hv = Ok (Some v11, vq_set ex_hv 0 (ex_cpu v10 ex_queues) h' sc')) ∧
  __vsched_is_current_preemptible v10 ex_hv = Ok (false, ex_hv).
Proof.
  destruct (vsched_pop_chooses ex_hv (ex_cpu v10 ex_queues) ex_Qs [] eq_refl ex_vq_rep v10
    (ex_vcpu 1 0 0 2 VTRANSITIONING) eq_refl) as [H1 (v & h' & sc' & Hv & H2 & _)].
  injection Hv as <-. split; [exists h', sc'; exact H2|exact H1].
Defined.

Lemma pv_spin_kick_not_lost_witness :
  ∃ s1, vsched_put_paused v10 true true ex_hv = Ok (true, s1) ∧
    ∃ s2, __vemu_pv_spin_kick v10 (s1 <| h_this := 1 |>) = Ok (tt, s2) ∧
      ∃ x2, h_vcpus s2 !! v10 = Some x2 ∧ state (metadata x2) = VREADY.
Proof.
  destruct (pv_spin_kick_not_lost ex_hv v10 (ex_vcpu 1 0 0 2 VTRANSITIONING) (ex_cpu v10 ex_queues)
    2 ex_Qs [] 1 eq_refl eq_refl eq_refl ex_vq_rep (ex_unlocked _) eq_refl eq_refl eq_refl)
    as [_ (s1 & x1 & E1 & _ & _ & _ & s2 & x2 & p2 & E2 & Ex2 & Hst & _)].
  - split; [unfold VSCHED_NUM_CRITICALITIES; lia|]. intros [|[|[|j]]] Hj; [..|lia];
      (split; [by eexists|cbn; set_solver]).
  - apply not_elem_of_nil.
  - exists s1. split; [exact E1|]. exists s2. split; [exact E2|]. exists x2. split; [exact Ex2|exact Hst].
Defined.

Definition all_types : list vroute_type_t :=
  [VIPI_ROUTE; VTLB_SHOOTDOWN_ROUTE; VREAD_VCPU_STATE_ROUTE; VPV_SPIN_KICK_ROUTE].
Lemma all_types_all ty : ty ∈ all_types.
Proof. destruct ty; set_solver. Qed.

Lemma ex_paired : paired ex_hv 1.
Proof.
  intros ty a Ha.
  pose (f := fun a => implb (sends ex_hv ty a 1 && negb (a =? 0)) (accepts ex_hv ty 1 a) &&
                      eqb (accepts ex_hv ty a 1) (sends ex_hv ty 1 a)).
  assert (f a = true) as Hf.
  { revert a Ha. apply all_ids. destruct ty; vm_compute; reflexivity. }
  apply andb_true_iff in Hf as [H1 H2]. apply eqb_prop in H2. split; [|done].
  intros Hne Hs. rewrite Hs, (proj2 (Z.eqb_neq a 0) Hne) in H1. exact H1.
Qed.

Lemma ex_peers_ok : peers_ok ex_hv 1.
Proof.
  intros ty b Hb Hor.
  pose (f := fun b => negb (accepts ex_hv ty 1 b || sends ex_hv ty 1 b) || (b =? 0) || (b =? 2)).
  assert (f b = true) as Hf.
  { revert b Hb Hor. intros b Hb _. revert b Hb. apply all_ids. destruct ty; vm_compute; reflexivity. }
  assert (b = 0 ∨ b = 2) as [-> | ->].
  { unfold f in Hf. destruct Hor as [Ho|Ho]; rewrite Ho in Hf; rewrite ?orb_true_r in Hf; cbn in Hf; lia. }
  - split; [lia|by eexists].
  - split; [lia|by eexists].
Qed.

Lemma teardown_unwinds_routes_witness :
  ∃ s', vdo_finalize_teardown 1 ex_hv = Ok (tt, s') ∧
    sends s' VIPI_ROUTE 1 2 = false ∧ accepts s' VTLB_SHOOTDOWN_ROUTE 2 1 = false ∧
    accepts s' VIPI_ROUTE 2 1 = true.
Proof.
  destruct (teardown_unwinds_routes ex_hv 1 101 (ex_part 1 1001 2 [0] [2]) 100
    (ex_part 0 1000 1 [] (seqZ 0 256)) (ex_vcpu 0 0 1 4 VPAUSED) 0 40 false ltac:(lia)
    ltac:(vm_compute; split; [discriminate|reflexivity]) ltac:(discriminate)
    ex_routes_ok ex_peers_ok ex_paired eq_refl eq_refl eq_refl eq_refl eq_refl eq_refl eq_refl)
    as (s' & E & _ & _ & _ & _ & Hr); [|reflexivity..|].
  - apply bmp256_set_wf; [apply bmp256_set_wf; [apply bmp_empty_wf|lia]|lia].
  - exists s'. split; [exact E|].
    destruct (Hr VIPI_ROUTE 1 2 ltac:(lia) ltac:(lia)) as [_ H1].
    destruct (Hr VTLB_SHOOTDOWN_ROUTE 2 1 ltac:(lia) ltac:(lia)) as [H2 _].
    destruct (Hr VIPI_ROUTE 2 1 ltac:(lia) ltac:(lia)) as [H3 _].
    rewrite H1, H2, H3. vm_compute. split_and!; reflexivity.
Defined.

(** [v10] in a vcall: its preemption is disabled once. *)
Definition ex_caller : vcpu := (ex_vcpu 1 0 0 2 VTRANSITIONING) <| preemption_count := 1 |>.
Definition ex_vmcs : vmcs_guest := VmcsGuest 0x80000031 0x2000 0x209b 0x500 0x202 0x1000 0x8000 0
  0 false false false false None 3 0 ex_exit.
Definition ex_call : hv := tm_set ex_hv v10 ex_caller ex_vmcs.
Definition ex_regs (id a1 a2 a3 a4 a5 : Z) : vregs := Vregs 0 0 0 0 0 0 0 a5 a2 a1 a3 a4 0 id 0 0.

Lemma ex_calling : calling ex_call v10 ex_caller ex_vmcs.
Proof.
  split; [by eexists|reflexivity|split; [split; reflexivity|by left]|reflexivity|reflexivity].
Qed.

Definition ex_dispatcher := vcall_dispatcher (fun _ => ret tt)
  (fun _ => VcpuConf false 0 false 0 VBOOT_READY 0 0 0 0 0 0 0 0 0) (fun _ => VpartitionConf true 0)
  (fun _ => ArchSupport true true true true true 512) 1 0 (fun _ => 0) (fun z => z).

Lemma vcall_dispatcher_guards_witness :
  ex_dispatcher (ex_regs 26 2 0 0 0 0) ex_call =
    Ok (ex_regs (2 ^ 64 - 1) 2 0 0 0 0, enabled ex_call v10 ex_caller) ∧
  ex_dispatcher (ex_regs (2 ^ 40) 0 0 0 0 0) ex_call =
    Ok (ex_regs (2 ^ 64 - 22) 0 0 0 0 0, enabled ex_call v10 ex_caller).
Proof.
  split.
  - apply (vcall_dispatcher_guards _ _ _ _ _ _ _ _ ex_call v10 ex_caller ex_vmcs (ex_regs 26 2 0 0 0 0) ex_calling)
      with (mode := VOP_64_BIT); [reflexivity|reflexivity|]. unfold privileged_ids. cbn. set_solver.
  - apply (vcall_dispatcher_guards _ _ _ _ _ _ _ _ ex_call v10 ex_caller ex_vmcs (ex_regs (2 ^ 40) 0 0 0 0 0) ex_calling)
      with (mode := VOP_64_BIT); [reflexivity|]. cbn. lia.
Defined.

(** The timers 1 and 2 fire in 15 and 45 ticks: 5 of the 20 with which timer 1
    was armed have passed. *)
Definition ex_armed : vcpu := ex_caller
  <| timers ::= fun m => <[1 := Vtimer 40 true true false 20]> (<[2 := Vtimer 2 false true true 50]> m) |>
  <| timer_nodes ::= fun m => <[1 := LNode (Some 2) None]> (<[2 := LNode None (Some 1)]> m) |>
  <| timer_deltas ::= fun m => <[1 := 20]> (<[2 := 30]> m) |>
  <| timer_chain := Dq (Some 1) (Some 2) |>.
Definition ex_ticking : vmcs_guest := ex_vmcs <| g_preemption_timer_value := 15 |>
  <| c_activate_vmx_preemption_timer := true |> <| c_save_vmx_preemption_timer := true |>.

Lemma ex_armed_rep : vtimers_rep ex_armed ex_ticking [(1, 20); (2, 30)].
Proof.
  split.
  - split.
    + split; [repeat constructor; set_solver|vm_compute; repeat split; reflexivity|reflexivity..].
    + repeat (constructor; [split; [reflexivity|cbn; lia]|]). constructor.
  - intros n Hn. assert (n = 0 ∨ n = 1 ∨ n = 2) as [-> | [-> | ->]] by (unfold VNUM_VTIMERS in Hn; lia);
      (eexists; split; [reflexivity|]; split; [by eexists|]; split; [by eexists|]; cbn; set_solver).
  - intros n Hn. unfold VNUM_VTIMERS. repeat (apply elem_of_cons in Hn as [-> | Hn]; [cbn; lia|]).
    by apply not_elem_of_nil in Hn.
  - split; reflexivity.
  - vm_compute. discriminate.
  - repeat constructor.
Qed.

Lemma varm_timern_arms_witness :
  ∃ x' g' ps', varm_timern (fun _ => ret tt) (ex_regs 5 40 0 12 0 0) (tm_set ex_call v10 ex_armed ex_ticking) =
      Ok (0, tm_set ex_call v10 x' g') ∧
    vtimers_rep x' g' ps' ∧ due g' ps' = [(0, 12); (1, 15); (2, 45)].
Proof.
  destruct (varm_timern_arms (fun _ => ret tt) ex_call v10 ex_caller ex_vmcs ex_calling ex_armed ex_ticking
    [(1, 20); (2, 30)] (ex_regs 5 40 0 12 0 0)) as [_ H];
    [apply ex_calling|apply ex_armed_rep|vm_compute; discriminate|vm_compute; split; [discriminate|reflexivity]|].
  destruct (H eq_refl (Vtimer 0 false false false 0) eq_refl) as [_ H'].
  destruct (H' eq_refl) as (x' & g' & ps' & E & Hr & Hd & _).
  exists x', g', ps'. split; [exact E|split; [exact Hr|exact Hd]].
Defined.

Lemma vdisarm_timern_disarms_witness :
  ∃ x' g' ps', vdisarm_timern (fun _ => ret tt) (ex_regs 6 1 0 0 0 0) (tm_set ex_call v10 ex_armed ex_ticking) =
      Ok (0, tm_set ex_call v10 x' g') ∧
    vtimers_rep x' g' ps' ∧ due g' ps' = [(2, 45)].
Proof.
  destruct (vdisarm_timern_disarms (fun _ => ret tt) ex_call v10 ex_caller ex_vmcs ex_calling ex_armed ex_ticking
    [(1, 20); (2, 30)] (ex_regs 6 1 0 0 0 0)) as [_ H]; [apply ex_calling|apply ex_armed_rep|vm_compute; discriminate|].
  destruct (H eq_refl (Vtimer 40 true true false 20) eq_refl) as [_ H'].
  destruct (H' eq_refl) as (x' & g' & ps' & E & Hr & Hd & _).
  exists x', g', ps'. split; [exact E|split; [exact Hr|exact Hd]].
Defined.

(** The root's vcpu on processor 0, and a partition at 103 with one vcpu that
    is not in the table. *)
Definition v00 : vptr := VOf 1000 0.
Definition ex_root : vcpu := (ex_vcpu 0 0 1 4 VRUNNING) <| preemption_count := 1 |>.
Definition ex_new_part : vpartition := (ex_part 3 1003 1 [] [])
  <| criticality_perms := list_to_map (map (fun i => (Z.of_nat i, VcriticalityPerm true false 0 0)) (seq 0 NUM_CPUS)) |>.
Definition ex_creating : hv :=
  let s := tm_set ex_hv v00 ex_root ex_vmcs in
  s <| h_cpus ::= <[0 := ex_cpu v00 ex_queues]> |> <| h_loaded ::= <[0 := v00]> |>
    <| h_parts ::= <[103 := ex_new_part]> |>
    <| h_vcpus ::= <[VOf 1003 0 := ex_vcpu 3 0 1 2 VPAUSED]> |>.

Lemma ex_creating_calling : calling ex_creating v00 ex_root ex_vmcs.
Proof.
  split; [by eexists|reflexivity|split; [split; reflexivity|by left]|reflexivity|reflexivity].
Qed.

Lemma ex_creating_routes_ok : routes_ok ex_creating.
Proof.
  destruct ex_routes_ok as [Ht Hi Hw]. split; [|exact Hi|].
  - intros a p H. apply ex_table_inv in H as [[-> ->]|[[-> ->]|[-> ->]]]; by eexists.
  - intros p part ty. unfold ex_creating, apply_update. cbn [h_parts]. rewrite lookup_insert_Some.
    intros [[<- <-]|[_ E]]; [|by apply (Hw p)]. destruct ty; split; apply bmp_empty_wf.
Qed.

Lemma ex_creating_ids_ok : ids_ok ex_creating.
Proof.
  split; [vm_compute; repeat split; discriminate|]. intros i Hi Hb.
  pose (f := fun i => negb (bmp256_bit (h_vids ex_creating) i) || negb (is_some (h_table ex_creating !! i))).
  assert (f i = true) as Hf by (revert i Hi Hb; intros i Hi _; revert i Hi; apply all_ids; vm_compute; reflexivity).
  unfold f in Hf. rewrite Hb in Hf. by destruct (h_table ex_creating !! i).
Qed.

Definition ex_create : M hv Z := vcreate_partition (fun _ => ret tt)
  (fun _ => VcpuConf false 0 false 0 VBOOT_READY 0 0 0 0 0 0 0 0 0) (fun _ => VpartitionConf true 0)
  (fun _ => ArchSupport true true true true true 512) 1 0 (fun _ => 0) (fun z => z)
  (ex_regs 25 103 0 0 0 0).

Lemma vcreate_partition_isolates_witness :
  (∃ new_vid part s1, ex_create ex_creating = (push_vcpus
      (fun _ => VcpuConf false 0 false 0 VBOOT_READY 0 0 0 0 0 0 0 0 0) 103 ;;; ret new_vid) s1 ∧
    created ex_creating s1 103 new_vid part) ∧
  (match ex_create ex_creating with
   | Ok (new_vid, s') => new_vid = 5 ∧ accepts s' VIPI_ROUTE 5 0 = true ∧ accepts s' VIPI_ROUTE 5 1 = false
   | Fault _ => False end).
Proof.
  split; [|vm_compute; repeat split; reflexivity].
  destruct (vcreate_partition_isolates (fun _ => ret tt)
    (fun _ => VcpuConf false 0 false 0 VBOOT_READY 0 0 0 0 0 0 0 0 0) (fun _ => VpartitionConf true 0)
    (fun _ => ArchSupport true true true true true 512) 1 0 (fun _ => 0) (fun z => z)
    ex_creating v00 ex_root ex_vmcs (ex_regs 25 103 0 0 0 0) 103 ex_creating_calling eq_refl
    ex_creating_routes_ok ex_creating_ids_ok eq_refl ltac:(split; reflexivity || discriminate) eq_refl)
    as [_ H].
  { intros a H. apply ex_table_inv in H. lia. }
  destruct H as [_ H]; [vm_compute; reflexivity|].
  destruct H as (new_vid & part & s1 & E & _ & Hc); [discriminate|].
  exists new_vid, part, s1. split; [exact E|exact Hc].
Defined.

(** [v10] about to be entered: the vectors 65 (level 4) and 144 (level 9) are
    pending, level 3 is in service. *)
Definition ex_entering : vcpu := ex_caller
  <| delivery := Delivery 8 false 2 false false |> <| pending_external_interrupts := bits [65; 144] |>.
Definition ex_no_operations : voperations := operations ex_caller.
(** The same with an NMI pending as well, blocked by the one it is in. *)
Definition ex_entering_nmi : vcpu := ex_entering <| delivery := Delivery 8 true 2 false false |>.
Definition ex_in_nmi : vmcs_guest := ex_vmcs <| g_interruptibility := 8 |>.

Lemma ex_delivery_ok : delivery_ok ex_entering ex_vmcs ∧ delivery_ok ex_entering_nmi ex_in_nmi.
Proof.
  split; (split; [split; reflexivity| |cbn; lia]); change (bmp256_wf (bits [65; 144])); unfold bits; cbn [foldr];
    repeat (apply bmp256_set_wf; [|lia]); apply bmp_empty_wf.
Qed.

Lemma ex_entry_unlocked : LPending v10 ∉ h_locks ex_call.
Proof. vm_compute. by apply not_elem_of_nil. Qed.

Lemma venter_injects_by_precedence_witness :
  ∃ x' g', inject_pending v10 ex_no_operations (tm_set ex_call v10 ex_entering ex_vmcs) =
      Ok (144, tm_set ex_call v10 x' g') ∧
    c_entry_interrupt_info g' = Some (VmentryEvent 144 INTERRUPT_TYPE_EXTERNAL None None) ∧
    pend x' 144 = false ∧ pend x' 65 = true.
Proof.
  destruct (venter_injects_by_precedence ex_call v10 ex_caller ex_vmcs ex_calling ex_entry_unlocked ex_entering ex_vmcs
    ex_no_operations (proj1 ex_delivery_ok)) as (x' & g' & E & _ & Ei & Hp & _).
  exists x', g'. split; [exact E|]. split; [rewrite Ei; vm_compute; reflexivity|].
  split; (rewrite Hp; [vm_compute; reflexivity|lia]).
Defined.

Lemma venter_forgets_nothing_witness :
  ∃ vector x' g', inject_pending v10 ex_no_operations (tm_set ex_call v10 ex_entering_nmi ex_in_nmi) =
      Ok (vector, tm_set ex_call v10 x' g') ∧ c_nmi_window_exiting g' = true.
Proof.
  destruct (venter_forgets_nothing ex_call v10 ex_caller ex_vmcs ex_calling ex_entry_unlocked ex_entering_nmi ex_in_nmi
    ex_no_operations (proj2 ex_delivery_ok)) as (vector & x' & g' & E & Hn & _).
  exists vector, x', g'. split; [exact E|]. apply Hn. revert E.
  assert (Some (nmi_pending (delivery x')) = match inject_pending v10 ex_no_operations
    (tm_set ex_call v10 ex_entering_nmi ex_in_nmi) with
    | Ok (_, s') => option_map (fun x => nmi_pending (delivery x)) (h_vcpus s' !! v10) | Fault _ => None end → 
    nmi_pending (delivery x') = true) by (vm_compute; congruence).
  intros E. apply H. rewrite E. unfold tm_set. cbn. by rewrite lookup_insert.
Defined.

Lemma interrupt_levels_nest_witness :
  ∃ x' x'' g', inject_pending v10 ex_no_operations (tm_set ex_call v10 ex_entering ex_vmcs) =
      Ok (144, tm_set ex_call v10 x' g') ∧
    veoi (fun _ => ret tt) (ex_regs 4 0 0 0 0 0) (tm_set ex_call v10 x' g') = Ok (0, tm_set ex_call v10 x'' g') ∧
    in_intl (delivery x'') = 8.
Proof.
  destruct (interrupt_levels_nest ex_call v10 ex_caller ex_vmcs ex_calling ex_entry_unlocked (fun _ => ret tt)
    (ex_regs 4 0 0 0 0 0) ex_entering ex_vmcs ex_no_operations (proj1 ex_delivery_ok)) as [H _];
    [split; [vm_compute; split; reflexivity|by left]|].
  destruct H as (x' & x'' & g' & E1 & _ & _ & E2 & E3); [vm_compute; reflexivity|].
  exists x', x'', g'. split; [exact E1|]. split; [exact E2|]. rewrite E3. reflexivity.
Defined.
