(* ===== verification/Vportal.v ===== *)
(** * Vportal: the concrete hypervisor between an exit and the next entry

    The theorems on interrupts and VM exits, applied to the hypervisor of
    Vexample. *)

From S2P Require Import Prelude Std Bmp Dq DeltaChain SchedDsa Twan VschedDsa Vpartition Vrecovery.
From S2P Require Import Vutils Vsched Vemu Vcreate Vcalls Vlib Vtimers Venter Visr Vswitch Vinfo Vexit Vexpiry Vconfine Vmcs Vboot Vdetect.
From S2P Require Import Vroutes Vexample.
From coqutil Require Import Datatypes.RecordSetters.
From Stdlib Require Import ZArith Lia Bool.
From stdpp Require Import base gmap list numbers sets.

Local Open Scope Z_scope.

(** Nothing is in service and nothing arrives. *)
Definition ex_lapic (c : Z) (l : list vevent) : lapic := Lapic (fun _ => false) (fun _ => false) false.
Definition ex_here : context := no_regs 0x9000.

Lemma ex_exceptions_free s : exceptions_free ex_lapic s.
Proof. by intros v. Qed.
Lemma ex_cpus_ok : cpus_ok ex_hv.
Proof.
  intros i Hi. change (h_num_cpus ex_hv) with 2 in Hi.
  assert (i = 0 ∨ i = 1) as [-> | ->] by lia; by eexists.
Qed.

(** ** Interrupts *)

(** [v11] and [v10] wait for the vector 40 of processor 0. *)
Definition ex_waiting_cpu : vper_cpu := (ex_cpu v10 ex_queues)
  <| dispatch_vectors ::= <[40%nat := Dq (Some (NDisp v11 40)) (Some (NDisp v10 40))]> |>.
Definition ex_waiting : hv := ex_hv
  <| h_cpus ::= <[0 := ex_waiting_cpu]> |>
  <| h_nodes ::= fun m => <[NDisp v11 40 := LNode (Some (NDisp v10 40)) None]>
                            (<[NDisp v10 40 := LNode None (Some (NDisp v11 40))]> m) |>.

Lemma vdispatch_interrupt_wakes_all_witness :
  ∃ s', vdispatch_interrupt 40 ex_waiting = Ok (tt, s') ∧
    h_vcpus s' !! v11 = Some (pended (ex_vcpu 1 1 0 1 VREADY) 40 false) ∧
    h_vcpus s' !! v20 = Some (ex_vcpu 2 0 1 2 VRUNNING) ∧ detached (h_nodes s') (NDisp v10 40).
Proof.
  destruct (vdispatch_interrupt_wakes_all 40 ex_waiting ex_waiting_cpu
    (Dq (Some (NDisp v11 40)) (Some (NDisp v10 40))) [v11; v10] eq_refl eq_refl) as (s' & E & Hv & _ & Hd & _).
  - split; [repeat constructor; set_solver|vm_compute; repeat split; reflexivity|reflexivity..].
  - intros v Hv. split; [|apply not_elem_of_nil].
    repeat (apply elem_of_cons in Hv as [-> | Hv]; [by eexists|]). by apply elem_of_nil in Hv.
  - apply not_elem_of_nil.
  - exists s'. split; [exact E|]. split; [|split].
    + rewrite Hv, decide_True by (by left). vm_compute. reflexivity.
    + rewrite Hv, decide_False by (rewrite !elem_of_cons, elem_of_nil; intros [?|[?|[]]]; discriminate).
      vm_compute. reflexivity.
    + apply Hd. by right; left.
Defined.

Lemma shield_catches_its_exception_witness :
  (∃ s', (venter_shield_local_length GENERAL_PROTECTION_FAULT 2 ;;;
     interrupted_by ex_lapic ex_here [GENERAL_PROTECTION_FAULT] ;;; vexit_shield_local) ex_hv = Ok (true, s')) ∧
  (venter_shield_local_length GENERAL_PROTECTION_FAULT 2 ;;; interrupted_by ex_lapic ex_here [6] ;;;
     vexit_shield_local) ex_hv = Fault FHalt.
Proof.
  split.
  - pose proof (shield_catches_its_exception ex_lapic ex_here ex_hv (ex_cpu v10 ex_queues) GENERAL_PROTECTION_FAULT 2
      [GENERAL_PROTECTION_FAULT] eq_refl eq_refl (ex_exceptions_free _) ex_cpus_ok ltac:(by vm_compute) eq_refl eq_refl) as H.
    destruct (bind _ _ ex_hv) as [[c s']|f]; [|destruct H as (_ & v & Hv & Hn); by apply list_elem_of_singleton in Hv].
    destruct H as (_ & -> & _). by exists s'.
  - pose proof (shield_catches_its_exception ex_lapic ex_here ex_hv (ex_cpu v10 ex_queues) GENERAL_PROTECTION_FAULT 2
      [6] eq_refl eq_refl (ex_exceptions_free _) ex_cpus_ok ltac:(by vm_compute) eq_refl eq_refl) as H.
    destruct (bind _ _ ex_hv) as [[c s']|f]; [destruct H as [H _]; discriminate|by destruct H as [-> _]].
Defined.

(** [v10] pauses; [v11], which is ready, goes on. *)
Lemma vsched_pause_switches_witness :
  pausing ex_hv (ex_cpu v10 ex_queues) v10 (ex_vcpu 1 0 0 2 VTRANSITIONING) ex_Qs [] ∧
  ∃ s' p', vsched_pause false ex_hv = Ok (tt, s') ∧ h_cpus s' !! 0 = Some p' ∧ current_vcpu p' = Some v11 ∧
    vcpu_ctx p' = no_regs 11 ∧ is_self_ipi p' = false ∧
    vq_rep (h_nodes s') (vsched p') (q_set ex_Qs 0 []) [NSched v10 0].
Proof.
  assert (pausing ex_hv (ex_cpu v10 ex_queues) v10 (ex_vcpu 1 0 0 2 VTRANSITIONING) ex_Qs []) as H.
  { split; [reflexivity|split; reflexivity|split; [reflexivity|discriminate]|reflexivity|reflexivity|reflexivity| |
      exact ex_vq_rep| | |by eexists].
    - apply not_elem_of_nil.
    - split; [by eexists|]. split; [|apply not_elem_of_nil]. intros [|[|j]]; cbn; rewrite ?list_elem_of_singleton;
        [discriminate|discriminate|apply not_elem_of_nil].
    - intros w [|[|j]]; cbn; rewrite ?list_elem_of_singleton; [intros [= ->]|intros [= ->]|intros Hn; by apply elem_of_nil in Hn];
        by eexists. }
  split; [exact H|].
  destruct (vsched_pause_switches _ _ _ _ _ _ H) as (y & s' & p' & E & Ey & _ & _ & Ec & (E1 & E2 & _ & E3) & Hr & _).
  exists s', p'. split; [exact E|]. split; [rewrite Ec; reflexivity|]. split; [exact E1|]. split; [|split; [exact E3|exact Hr]].
  rewrite E2. change (Some (ex_vcpu 1 1 0 1 VREADY) = Some y) in Ey. injection Ey as <-. reflexivity.
Defined.

(** ** The library *)

Definition ex_serve := serve (fun _ => ret tt)
  (fun _ => VcpuConf false 0 false 0 VBOOT_READY 0 0 0 0 0 0 0 0 0) (fun _ => VpartitionConf true 0)
  (fun _ => ArchSupport true true true true true 512) 1 0 (fun _ => 0) (fun z => z).

(** [v10] arms its timer 2 for 30 ticks, and kicks a vcpu that is not there. *)
Lemma libvcalls_reach_their_handlers_witness :
  (∃ r s, ex_dispatcher (tv_varm_timern 41 2 30 true false (ex_regs 0 0 0 0 0 0)) ex_call = Ok (r, s) ∧ tv_vcall_ret r = 0) ∧
  (∃ r s, ex_dispatcher (tv_vpv_spin_kick 7 (ex_regs 0 0 0 0 0 0)) ex_call = Ok (r, s) ∧ tv_vcall_ret r = - EINVAL).
Proof.
  split.
  - pose proof (libvcalls_reach_their_handlers (fun _ => ret tt)
      (fun _ => VcpuConf false 0 false 0 VBOOT_READY 0 0 0 0 0 0 0 0 0) (fun _ => VpartitionConf true 0)
      (fun _ => ArchSupport true true true true true 512) 1 0 (fun _ => 0) (fun z => z)
      (ArmTimer 41 2 30 true false) (ex_regs 0 0 0 0 0 0) ex_call ltac:(repeat split; discriminate || reflexivity) eq_refl) as H.
    assert (match ex_serve (ArmTimer 41 2 30 true false) ex_call with Ok (out, _) => out =? 0 | _ => false end = true) as E
      by (vm_compute; reflexivity).
    change (serve _ _ _ _ _ _ _ _ _ ex_call) with (ex_serve (ArmTimer 41 2 30 true false) ex_call) in H.
    change (vcall_dispatcher _ _ _ _ _ _ _ _ _ ex_call) with
      (ex_dispatcher (tv_varm_timern 41 2 30 true false (ex_regs 0 0 0 0 0 0)) ex_call) in H.
    destruct (ex_serve _ ex_call) as [[out s2]|]; [apply Z.eqb_eq in E as ->|discriminate E].
    destruct (ex_dispatcher _ ex_call) as [[r s1]|]; [|destruct H]. destruct H as (_ & H & _).
    exists r, s1. split; [reflexivity|apply H; lia].
  - pose proof (libvcalls_reach_their_handlers (fun _ => ret tt)
      (fun _ => VcpuConf false 0 false 0 VBOOT_READY 0 0 0 0 0 0 0 0 0) (fun _ => VpartitionConf true 0)
      (fun _ => ArchSupport true true true true true 512) 1 0 (fun _ => 0) (fun z => z)
      (SpinKick 7) (ex_regs 0 0 0 0 0 0) ex_call ltac:(repeat split; discriminate || reflexivity) eq_refl) as H.
    assert (match ex_serve (SpinKick 7) ex_call with Ok (out, _) => out =? - EINVAL | _ => false end = true) as E
      by (vm_compute; reflexivity).
    change (serve _ _ _ _ _ _ _ _ _ ex_call) with (ex_serve (SpinKick 7) ex_call) in H.
    change (vcall_dispatcher _ _ _ _ _ _ _ _ _ ex_call) with
      (ex_dispatcher (tv_vpv_spin_kick 7 (ex_regs 0 0 0 0 0 0)) ex_call) in H.
    destruct (ex_serve _ ex_call) as [[out s2]|]; [apply Z.eqb_eq in E as ->|discriminate E].
    destruct (ex_dispatcher _ ex_call) as [[r s1]|]; [|destruct H]. destruct H as (_ & H & _).
    exists r, s1. split; [reflexivity|apply H; unfold EINVAL; lia].
Defined.

(** ** Routes *)

(** The root alone: the memory of the other partitions is not in the table. *)
Definition ex_opening : hv := ex_creating <| h_table := {[0 := 100]} |>.

Lemma ex_opening_opens : opening 0 ex_opening.
Proof.
  destruct ex_creating_routes_ok as [Ht Hi Hw].
  assert (∀ a p, h_table ex_opening !! a = Some p → a = 0 ∧ p = 100) as Hinv
    by (intros a p H; change (({[0 := 100]} : gmap Z Z) !! a = Some p) in H;
        by apply lookup_singleton_Some in H as [<- <-]).
  split; [split|split| | | |].
  - intros a p H. apply Hinv in H as [-> ->]. by eexists.
  - intros a b p Ha Hb. apply Hinv in Ha, Hb. lia.
  - exact Hw.
  - apply ex_creating_ids_ok.
  - intros i Hi' Hb. apply lookup_singleton_None. intros <-. vm_compute in Hb. discriminate.
  - split_and!; reflexivity.
  - split; [reflexivity|lia].
  - by exists 100.
  - intros ty i j. unfold accepts. destruct (h_table ex_opening !! i) as [p|] eqn:E; [|done].
    apply Hinv in E as [-> ->]. change (h_parts ex_opening !! 100) with (Some (ex_part 0 1000 1 [] (seqZ 0 256))).
    cbv iota beta. replace (senders ty (ex_part 0 1000 1 [] (seqZ 0 256))) with bmp_empty by by destruct ty.
    by rewrite bmp256_test_bit, bmp_empty_bit.
Qed.

Abbreviation ex_step := (life_step (fun _ => ret tt)
  (fun _ => VcpuConf false 0 false 0 VBOOT_READY 0 0 0 0 0 0 0 0 0) (fun _ => VpartitionConf true 0)
  (fun _ => ArchSupport true true true true true 512) 1 0 (fun _ => 0) (fun z => z)).
Abbreviation ex_life := (life (fun _ => ret tt)
  (fun _ => VcpuConf false 0 false 0 VBOOT_READY 0 0 0 0 0 0 0 0 0) (fun _ => VpartitionConf true 0)
  (fun _ => ArchSupport true true true true true 512) 1 0 (fun _ => 0) (fun z => z)).

(** The partition at 103 becomes the partition 5. *)
Lemma ex_life_create : ∃ s1, ex_create ex_opening = Ok (5, s1) ∧ ex_step [Created 5] ex_opening s1.
Proof.
  assert (match ex_create ex_opening with Ok (n, _) => n =? 5 | _ => false end = true) as H by (vm_compute; reflexivity).
  destruct (ex_create ex_opening) as [[n s1]|] eqn:E; [|discriminate H]. apply Z.eqb_eq in H as ->.
  exists s1. split; [reflexivity|]. change [Created 5] with (if 5 <? 0 then [] else [Created 5]).
  eapply (life_create _ _ _ _ _ _ _ _ _ v00 ex_root ex_vmcs); [|reflexivity| |exact E].
  - destruct ex_creating_calling as [H1 H2 H3 H4 H5]. split; [exact H1|exact H2|exact H3|exact H4|exact H5].
  - intros a H. change (({[0 := 100]} : gmap Z Z) !! a = Some 103) in H.
    apply lookup_singleton_Some in H as [_ H]. discriminate H.
Qed.

(** It gets the right to read the state of the root's vcpus, and loses it. *)
Lemma routes_implement_rights_witness :
  ∃ s s', ex_life [Created 5; Connected 2 5 0 true] ex_opening s ∧
    accepts s VREAD_VCPU_STATE_ROUTE 0 5 = true ∧ accepts s VTLB_SHOOTDOWN_ROUTE 0 5 = false ∧
    ex_life [Created 5; Connected 2 5 0 true; Connected 2 5 0 false] ex_opening s' ∧
    accepts s' VREAD_VCPU_STATE_ROUTE 0 5 = false.
Proof.
  destruct ex_life_create as (s1 & E1 & L1).
  assert (match ex_create ex_opening with Ok (_, s1) =>
    match vemu_set_route 0 5 2 true s1 with
    | Ok (e, s2) => (e =? 0) && match vemu_set_route 0 5 2 false s2 with Ok (e, s3) => e =? 0 | _ => false end
    | _ => false end | _ => false end = true) as H by (vm_compute; reflexivity).
  rewrite E1 in H. destruct (vemu_set_route 0 5 2 true s1) as [[e s2]|] eqn:E2; [|discriminate H].
  apply andb_true_iff in H as [->%Z.eqb_eq H].
  destruct (vemu_set_route 0 5 2 false s2) as [[e s3]|] eqn:E3; [apply Z.eqb_eq in H as ->|discriminate H].
  assert (ex_life [Created 5; Connected 2 5 0 true] ex_opening s2) as L2.
  { apply (life_next _ _ _ _ _ _ _ _ [Created 5] [Connected 2 5 0 true] _ s1); [exact L1|]. apply life_once.
    apply (life_route _ _ _ _ _ _ _ _ s1 0 5 2 true 0 s2); [lia|lia|exact E2]. }
  assert (ex_life [Created 5; Connected 2 5 0 true; Connected 2 5 0 false] ex_opening s3) as L3.
  { apply (life_app _ _ _ _ _ _ _ _ [Created 5; Connected 2 5 0 true] [Connected 2 5 0 false] _ s2); [exact L2|]. apply life_once.
    apply (life_route _ _ _ _ _ _ _ _ s2 0 5 2 false 0 s3); [lia|lia|exact E3]. }
  destruct (routes_implement_rights _ _ _ _ _ _ _ _ 0 ex_opening _ s2 ex_opening_opens L2) as (H2 & _).
  destruct (routes_implement_rights _ _ _ _ _ _ _ _ 0 ex_opening _ s3 ex_opening_opens L3) as (H3 & _).
  exists s2, s3. split; [exact L2|]. rewrite !(im_accepts _ _ _ H2) by (lia || discriminate).
  split; [reflexivity|]. split; [reflexivity|]. split; [exact L3|].
  rewrite (im_accepts _ _ _ H3) by (lia || discriminate). reflexivity.
Defined.

(** Two partitions, the second with its memory at 104. *)
Definition ex_opening2 : hv := ex_opening
  <| h_parts ::= <[104 := ex_new_part <| vcpus := 1004 |>]> |>
  <| h_vcpus ::= <[VOf 1004 0 := ex_vcpu 3 0 1 2 VPAUSED]> |>.

(** The root's vcpu is in a call again. *)
Definition ex_again (s : hv) : hv := s <| h_vcpus ::= <[v00 := ex_root]> |>.
Definition ex_create2 : M hv Z := vcreate_partition (fun _ => ret tt)
  (fun _ => VcpuConf false 0 false 0 VBOOT_READY 0 0 0 0 0 0 0 0 0) (fun _ => VpartitionConf true 0)
  (fun _ => ArchSupport true true true true true 512) 1 0 (fun _ => 0) (fun z => z) (ex_regs 25 104 0 0 0 0).
Definition state_of {A} (d : hv) (r : res (A * hv)) : hv := match r with Ok (_, s) => s | Fault _ => d end.
Definition ex_life1 : hv := ex_again (state_of ex_opening2 (ex_create ex_opening2)).
Definition ex_life2 : hv := state_of ex_life1 (ex_create2 ex_life1).
Definition ex_life3 : hv := state_of ex_life2 (vemu_set_route 6 5 0 true ex_life2).

Lemma ex_opening2_opens : opening 0 ex_opening2.
Proof.
  destruct ex_opening_opens as [[Ht Hi Hw] Hids _ Hroot Htab Hc].
  assert (∀ a p, h_table ex_opening2 !! a = Some p → a = 0 ∧ p = 100) as Hinv
    by (intros a p H; change (({[0 := 100]} : gmap Z Z) !! a = Some p) in H;
        by apply lookup_singleton_Some in H as [<- <-]).
  split; [split|destruct Hids; split; assumption|split_and!; reflexivity|exact Hroot|exact Htab|].
  - intros a p H. apply Hinv in H as [-> ->]. by eexists.
  - exact Hi.
  - intros p part ty H.
    change (<[104 := ex_new_part <| vcpus := 1004 |>]> (h_parts ex_opening) !! p = Some part) in H.
    rewrite lookup_insert_Some in H. destruct H as [[<- <-]|[_ H]]; [|by apply (Hw p)].
    destruct ty; split; apply bmp_empty_wf.
  - intros ty i j. rewrite <- (Hc ty i j). unfold accepts.
    change (h_table ex_opening2) with (h_table ex_opening).
    destruct (h_table ex_opening !! i) as [p|] eqn:E; [|done].
    change (h_table ex_opening2 !! i = Some p) in E. apply Hinv in E as [-> ->]. reflexivity.
Qed.

(** What a run returned, and the state after it. *)
Lemma ex_ran (m : M hv Z) s n : match m s with Ok (k, _) => k =? n | _ => false end = true →
  m s = Ok (n, state_of s (m s)).
Proof. destruct (m s) as [[k s']|]; [|done]. intros ->%Z.eqb_eq. reflexivity. Qed.

(** 5 and 6 exist, and 5 may send IPIs to 6. *)
Lemma ex_life3_reached : ex_life [Created 5; Created 6; Connected 0 5 6 true] ex_opening2 ex_life3.
Proof.
  assert (calling ex_opening2 v00 ex_root ex_vmcs) as Hcall.
  { destruct ex_creating_calling as [H1 H2 H3 H4 H5]. split; [exact H1|exact H2|exact H3|exact H4|exact H5]. }
  apply (life_next _ _ _ _ _ _ _ _ (if 5 <? 0 then [] else [Created 5]) [Created 6; Connected 0 5 6 true] _
    (state_of ex_opening2 (ex_create ex_opening2))).
  { eapply (life_create _ _ _ _ _ _ _ _ _ v00 ex_root ex_vmcs); [exact Hcall|reflexivity| |apply (ex_ran ex_create _ 5)].
    - intros a H. change (({[0 := 100]} : gmap Z Z) !! a = Some 103) in H.
      apply lookup_singleton_Some in H as [_ H]. discriminate H.
    - vm_compute. reflexivity. }
  apply (life_next _ _ _ _ _ _ _ _ [] [Created 6; Connected 0 5 6 true] _ ex_life1).
  { apply (life_other _ _ _ _ _ _ _ _ _ ex_life1). unfold ex_life1, ex_again. split; try reflexivity. split_and!; reflexivity. }
  apply (life_next _ _ _ _ _ _ _ _ (if 6 <? 0 then [] else [Created 6]) [Connected 0 5 6 true] _ ex_life2).
  { eapply (life_create _ _ _ _ _ _ _ _ _ v00 ex_root ex_vmcs); [|reflexivity| |apply (ex_ran ex_create2 _ 6)].
    - split; [eexists; split; vm_compute; reflexivity|vm_compute; reflexivity|apply Hcall|vm_compute; reflexivity..].
    - assert (forallb (fun p => negb (p =? 104)) (map snd (map_to_list (h_table ex_life1))) = true) as H
        by (vm_compute; reflexivity).
      rewrite forallb_forall in H. intros a Ha. specialize (H 104). cbv beta in H. apply negb_true_iff in H; [discriminate H|].
      apply list_elem_of_In, list_elem_of_fmap. exists (a, 104). split; [reflexivity|by apply elem_of_map_to_list].
    - vm_compute. reflexivity. }
  apply life_once. apply (life_route _ _ _ _ _ _ _ _ ex_life2 6 5 0 true 0 ex_life3); [lia|lia|].
  apply (ex_ran (vemu_set_route 6 5 0 true) _ 0). vm_compute. reflexivity.
Qed.

Lemma stale_ipi_permission_witness :
  ∃ es s', ex_life es ex_opening2 s' ∧ h_table s' !! 5 = None ∧ accepts s' VIPI_ROUTE 6 5 = true ∧
    ∀ v s'', vdo_finalize_teardown 6 s' ≠ Ok (v, s'').
Proof.
  assert (match vdo_finalize_teardown 5 ex_life3 with Ok (_, s') => negb (is_some (h_table s' !! 5)) | _ => false end = true)
    as H by (vm_compute; reflexivity).
  destruct (vdo_finalize_teardown 5 ex_life3) as [[[] s']|] eqn:E; [|discriminate H].
  exists ([Created 5; Created 6; Connected 0 5 6 true] ++ [Ended 5]), s'. split.
  { eapply life_app; [apply ex_life3_reached|]. apply life_once. eapply life_end; [| |exact E]; [lia|vm_compute; discriminate]. }
  split; [by destruct (h_table s' !! 5)|].
  destruct (stale_ipi_permission (fun _ => ret tt)
    (fun _ => VcpuConf false 0 false 0 VBOOT_READY 0 0 0 0 0 0 0 0 0) (fun _ => VpartitionConf true 0)
    (fun _ => ArchSupport true true true true true 512) 1 0 (fun _ => 0) (fun z => z) 0 ex_opening2 _ ex_life3 5 6 s'
    ex_opening2_opens ex_life3_reached ltac:(lia) ltac:(lia) ltac:(lia) ltac:(lia) ltac:(vm_compute; reflexivity) E)
    as (Ha & Hn & _).
  by split.
Defined.

(** ** Exits *)

(** The timer 1, which is periodic, runs out now; the timer 2 has 30 ticks left. *)
Definition ex_ringing : vmcs_guest := ex_ticking <| g_preemption_timer_value := 0 |>.

Lemma ex_ringing_rep : vtimers_rep ex_armed ex_ringing [(1, 20); (2, 30)].
Proof.
  destruct ex_armed_rep as [Hc Ht Ho Hr Hv Hd]. split; [exact Hc|exact Ht|exact Ho|exact Hr|by vm_compute|].
  repeat constructor.
Qed.

Lemma vexit_vmx_preempt_expires_witness :
  ∃ x' g' ps', vexit_vmx_preempt (fun _ => ret tt) (ex_regs 0 0 0 0 0 0) (tm_set ex_call v10 ex_armed ex_ringing) =
      Ok (Some (ex_regs 0 0 0 0 0 0), tm_set ex_call v10 x' g') ∧
    vtimers_rep x' g' ps' ∧ due g' ps' = [(1, 20); (2, 30)] ∧ pend x' 40 = true.
Proof.
  destruct (vexit_vmx_preempt_expires (fun _ => ret tt) ex_call v10 ex_caller ex_vmcs ex_calling ex_armed ex_ringing
    1 20 [(2, 30)] (Vtimer 40 true true false 20) (ex_regs 0 0 0 0 0 0)) as (x' & g' & ps' & E & Hr & (rest & Er & Hd) & _ & Hp);
    [apply ex_calling|apply ex_ringing_rep|reflexivity|reflexivity|by vm_compute|discriminate|apply ex_entry_unlocked|].
  exists x', g', ps'. split; [exact E|]. split; [exact Hr|]. split.
  - rewrite Hd. vm_compute in Er. injection Er as <-. vm_compute. reflexivity.
  - unfold pend. cbn [tm_nmi] in Hp. rewrite Hp. vm_compute. reflexivity.
Defined.

(** A write of CR8, of CR4 and of CR0 by [v10]; the value is in rax. *)
Definition ex_cr_exit (qual : Z) : vmcs_guest := ex_vmcs <| ro_exit -> exit_qualification := qual |>.
Definition ex_features (c : Z) : vfeatures :=
  Vfeatures false false false false false true true false false false false false.

Lemma vexit_cr_access_filters_witness :
  (∃ x', vexit_cr_access (fun _ => ret tt) ex_features (ex_regs 5 0 0 0 0 0) (tm_set ex_call v10 ex_caller (ex_cr_exit 0x108)) =
     Ok (Some (with_cr8 (ex_regs 5 0 0 0 0 0) 0), tm_set ex_call v10 x' (ex_cr_exit 0x108)) ∧ intl (delivery x') = 0) ∧
  vexit_cr_access (fun _ => ret tt) ex_features (ex_regs (2 ^ 30) 0 0 0 0 0) (tm_set ex_call v10 ex_caller (ex_cr_exit 0)) =
    Ok (Some (ex_regs (2 ^ 30) 0 0 0 0 0), tm_set ex_call v10 (refused ex_caller) (ex_cr_exit 0)).
Proof.
  assert (calm ex_caller) as Hc by apply ex_calling. split.
  - destruct (vexit_cr_access_filters (fun _ => ret tt) ex_call v10 ex_caller ex_vmcs ex_calling ex_features
      (ex_regs 5 0 0 0 0 0) ex_caller (ex_cr_exit 0x108) 0 Hc eq_refl ex_entry_unlocked eq_refl ltac:(lia))
      as (_ & _ & H8).
    destruct (H8 eq_refl) as [H _]. destruct (H eq_refl) as (x' & E & Ei & _). exists x'. split; [exact E|exact Ei].
  - destruct (vexit_cr_access_filters (fun _ => ret tt) ex_call v10 ex_caller ex_vmcs ex_calling ex_features
      (ex_regs (2 ^ 30) 0 0 0 0 0) ex_caller (ex_cr_exit 0) (2 ^ 30) Hc eq_refl ex_entry_unlocked eq_refl ltac:(lia))
      as (H0 & _).
    exact (H0 eq_refl).
Defined.

(** The root writes and reads the time-stamp counter; a partition may not. *)
Definition ex_flags (c : Z) : vinfo_flags :=
  VinfoFlags true true false true false true true true true true false 0 0 0 0.
Definition ex_cache (c : Z) : vper_cpu_cache := VperCpuCache 1 0 true.
Definition ex_tsc_regs : vregs := (ex_regs 7 0 0 0 0 0) <| rcx := 0x10 |>.

Lemma vexit_wrmsr_is_confined_witness :
  (∃ s' x', vexit_wrmsr (fun _ => ret tt) ex_flags ex_lapic ex_here ex_cache (fun _ _ => true) ex_tsc_regs
      (tm_set ex_creating v00 ex_root ex_vmcs) = Ok (Some ex_tsc_regs, tm_set s' v00 x' ex_vmcs) ∧
    h_log s' = [EWrmsr 0x10 7]) ∧
  (∃ s' x', vexit_wrmsr (fun _ => ret tt) ex_flags ex_lapic ex_here ex_cache (fun _ _ => true) ex_tsc_regs
      (tm_set ex_call v10 ex_caller ex_vmcs) = Ok (Some ex_tsc_regs, tm_set s' v10 x' ex_vmcs) ∧
    h_log s' = [] ∧ idt_vectoring (operations x') = true).
Proof.
  split.
  - destruct (vexit_wrmsr_is_confined (fun _ => ret tt) ex_flags ex_cache ex_lapic ex_here (fun _ _ => true) ex_creating
      v00 ex_root ex_vmcs (ex_cpu v00 ex_queues) ex_creating_calling eq_refl eq_refl ex_root ex_vmcs ex_tsc_regs)
      as (p' & _ & E); [apply ex_creating_calling|reflexivity|apply ex_exceptions_free|].
    eexists _, _. split; [exact E|vm_compute; reflexivity].
  - destruct (vexit_wrmsr_is_confined (fun _ => ret tt) ex_flags ex_cache ex_lapic ex_here (fun _ _ => true) ex_call
      v10 ex_caller ex_vmcs (ex_cpu v10 ex_queues) ex_calling eq_refl eq_refl ex_caller ex_vmcs ex_tsc_regs)
      as (p' & _ & E); [apply ex_calling|reflexivity|apply ex_exceptions_free|].
    eexists _, _. split; [exact E|split; vm_compute; reflexivity].
Defined.

Definition ex_rdmsr (msr : Z) (l : list vevent) : option Z := if msr =? 0x10 then Some (2 ^ 32 + 5) else None.

Lemma vexit_rdmsr_is_confined_witness :
  (∃ s', vexit_rdmsr (fun _ => ret tt) ex_flags ex_lapic ex_here ex_cache ex_rdmsr ex_tsc_regs
      (tm_set ex_creating v00 ex_root ex_vmcs) = Ok (Some (set_da ex_tsc_regs 5 1), s')) ∧
  vexit_rdmsr (fun _ => ret tt) ex_flags ex_lapic ex_here ex_cache ex_rdmsr ex_tsc_regs (tm_set ex_call v10 ex_caller ex_vmcs) =
  vexit_rdmsr (fun _ => ret tt) ex_flags ex_lapic ex_here ex_cache (fun _ _ => None) ex_tsc_regs (tm_set ex_call v10 ex_caller ex_vmcs).
Proof.
  split.
  - destruct (vexit_rdmsr_is_confined (fun _ => ret tt) ex_flags ex_cache ex_lapic ex_here ex_creating
      v00 ex_root ex_vmcs (ex_cpu v00 ex_queues) ex_creating_calling eq_refl eq_refl ex_rdmsr ex_root ex_vmcs ex_tsc_regs)
      as [_ H]; [apply ex_creating_calling|reflexivity|apply ex_exceptions_free|].
    destruct H as (sh & ctx & _ & E); [vm_compute; reflexivity|]. eexists. exact E.
  - destruct (vexit_rdmsr_is_confined (fun _ => ret tt) ex_flags ex_cache ex_lapic ex_here ex_call
      v10 ex_caller ex_vmcs (ex_cpu v10 ex_queues) ex_calling eq_refl eq_refl (fun _ _ => None) ex_caller ex_vmcs ex_tsc_regs)
      as [H _]; [apply ex_calling|reflexivity|apply ex_exceptions_free|].
    exact (H eq_refl ex_rdmsr eq_refl).
Defined.

(** [v10] is entered for the first time, with the identifier 7, on a processor
    that allows every control and forces none. *)
Definition ex_conf (v : vptr) : vcpu_conf :=
  VcpuConf true 7 false 0x1000 VBOOT_READY 0x2000 0x3000 0x4000 0x5000 0 0 0 0 0.
Definition ex_boot_flags (c : Z) : vboot_flags :=
  VbootFlags true true true true false true true true false true true false true true true 4 0x48d 0x48e 0x48f 0x490.
Definition ex_host (c : Z) : vhost := Vhost 0x80000031 0x9000 0x2020 24 0 0 0 0 0 0x7000 0x500 0.
Definition ex_boot : boot := Boot ex_hv ∅ {[v10 := ex_bitmaps]} ∅.

Lemma ex_starting :
  starting (fun _ => true) (fun _ => true) ex_boot v10 (ex_vcpu 1 0 0 2 VTRANSITIONING) ex_bitmaps.
Proof.
  split.
  - exists (ex_cpu v10 ex_queues). split; reflexivity.
  - reflexivity.
  - apply (bool_decide_unpack _). vm_compute. exact I.
  - split; [reflexivity|]. split_and!; apply length_replicate.
  - split; reflexivity.
Qed.

Lemma vcpu_entry_programs_witness :
  ∃ s1, vcpu_entry ex_conf (fun _ => VpartitionConf true 6) (fun _ => ArchSupport true true true true true 512)
      ex_flags ex_boot_flags ex_features (fun _ => true) (fun _ => true) ex_host (fun _ => 0xa000)
      (fun _ _ => 2 ^ 64 - 2 ^ 32) (fun _ => 8) (fun _ => 0x100) ex_boot
    = in_hv (__venter ex_conf (fun _ => true)) s1 ∧
    fields_of_vmcs s1 v10 !! VMCS_CTRL_MSR_BITMAPS = Some 0x4000 ∧
    fields_of_vmcs s1 v10 !! VMCS_CTRL_VPID = Some 0x8007 ∧
    (∃ w, fields_of_vmcs s1 v10 !! VMCS_CTRL_PROCBASED_CTLS2 = Some w ∧ Z.testbit w proc2_enable_ept = true) ∧
    ∃ w, fields_of_vmcs s1 v10 !! VMCS_CTRL_PROCBASED_CTLS = Some w ∧ Z.testbit w proc_cr8_load_exiting = false.
Proof.
  destruct (vcpu_entry_programs ex_conf (fun _ => VpartitionConf true 6)
    (fun _ => ArchSupport true true true true true 512) ex_flags ex_boot_flags ex_features (fun _ => true)
    (fun _ => true) ex_host (fun _ => 0xa000) (fun _ _ => 2 ^ 64 - 2 ^ 32) (fun _ => 8) (fun _ => 0x100)
    ex_boot v10 _ _ ex_starting) as (s1 & w & E & [Hp _ _ _ _ _ _] & _ & [Hw Hb] & Hv).
  exists s1. split; [exact E|]. split; [apply Hp|]. split; [apply Hv; [reflexivity|by split]|]. split.
  - destruct Hp as [_ _ P2 _ _ _ _ _]. apply P2; [reflexivity|left|reflexivity].
  - exists w. split; [exact Hw|]. rewrite Hb. reflexivity.
Defined.

(** The same vcpu, accepted and then entered on a processor that supports all:
    bit 55 of IA32_VMX_BASIC is set, so the capabilities are those of the true
    controls. *)
Definition ex_config : mitigations := Mitigations true true true true true true true true true true.
Definition ex_caps (c msr : Z) : Z := 2 ^ 64 - 2 ^ 32.
Definition ex_frequencies (c : Z) : frequencies := Frequencies 1 1 1 1 1 1.

Lemma accepted_vcpus_are_isolated_witness :
  vcpu_precheck ex_conf (det_support ex_config (fun _ _ _ => (0, 0, 0, 0)) ex_caps (fun _ => false) 512) v10 ex_hv
    = Ok (0, ex_hv) ∧
  ∃ s1 w2, fields_of_vmcs s1 v10 !! VMCS_CTRL_PROCBASED_CTLS2 = Some w2 ∧
    Z.testbit w2 proc2_enable_ept = true ∧ Z.testbit w2 proc2_enable_vpid = true.
Proof.
  assert (vcpu_precheck ex_conf (det_support ex_config (fun _ _ _ => (0, 0, 0, 0)) ex_caps (fun _ => false) 512) v10 ex_hv
    = Ok (0, ex_hv)) as Hpre by reflexivity.
  split; [exact Hpre|].
  destruct (accepted_vcpus_are_isolated ex_conf (fun _ => VpartitionConf true 6) ex_config (fun _ _ _ => (0, 0, 0, 0))
    ex_caps (fun _ => false) (fun _ => false) ex_frequencies 512 (fun _ => true) (fun _ => true) ex_host
    (fun _ => 0xa000) (fun _ => 8) (fun _ => 0x100) v10 ex_hv ex_hv (ex_vcpu 1 0 0 2 VTRANSITIONING) ex_boot _ _
    Hpre eq_refl ex_starting eq_refl (fun _ => eq_refl))
    as (s1 & w1 & w2 & _ & _ & _ & H2 & H3 & _ & H4 & _).
  exists s1, w2. split; [exact H2|]. split; [exact H3|]. apply H4. reflexivity.
Defined.
